(* ===== verification/_CoqProject ===== *)
-Q . S2P
Prelude.v
GoStd.v
VProvider.v
Sim.v
SimFacts.v
SimProps.v
Hypervisor.v
Migrate.v
MigrateProps.v
Replication.v
ReplicationProps.v
Backup.v
BackupProps.v
Alarms.v
AlarmsProps.v
AuthStore.v
Rbac.v
Redact.v
RbacProps.v
Middleware.v
AuthApi.v
Router.v
AuthDemo.v
AuthFacts.v
AuthzProps.v
SessionProps.v
AccountProps.v
Compose.v
GoFacts.v
Utf8.v
ComposeFacts.v
ComposeProps.v
Docker.v
Stacks.v
BuilderFacts.v
StackFacts.v
StackProps.v
Contract.v
SimContract.v
Kvm.v
KvmFacts.v
KvmProps.v
Guac.v
GuacProps.v
Streams.v
Ws.v
WsFacts.v
WsInv.v
WsLive.v
WsProps.v
VmApi.v
VmDrivers.v
VmApiProps.v
VmPool.v
VmStore.v
TableDriver.v
TableFacts.v
DriverKit.v
Xen.v
Esxi.v
Hyperv.v
DriverProps.v
ModelProps.v
Conformance.v
ConformanceFacts.v
ConformanceProps.v
SsoStore.v
Ldap.v
Oidc.v
Sso.v
SsoAdmin.v
SsoFacts.v
SsoProps.v
SsoRoles.v
SsoAdminProps.v
Fs.v
Storage.v
StorageFacts.v
StorageProps.v
StorageApi.v
