(* ===== verification/Prelude.v ===== *)
(** * Castor / UniHV: a verification library for the server's core logic

    The repository is the server of a console that manages virtual machines on
    several kinds of hypervisors, and containers, behind one HTTP API
    (src/server, in Go).  This library models the parts of it that decide
    something: what an operation does to the inventory, who may run it, what a
    stack deploys, when a replica takes over.  Every definition follows one
    function, method or type of the source, keeps its name, and is executable.

    ** How the parts fit together

    The router mounts handlers behind a chain of middlewares: authentication,
    origin and CSRF checks, the step-up of the second factor, the permission of
    the route, the audit row.  A handler reads and writes the store (SQLite), and
    acts on a provider: a hypervisor (VMs) or the Docker daemon (containers).
    Three engines run beside the handlers and drive hypervisors through the same
    seam: migration between hypervisors, replication with failover, and backup to
    an object store.  The alarm engine reads the inventory on a ticker.

    ** The files

    - Prelude: results, the engine monad (explicit state; [None] is a Go panic),
      lists, maps, the 64-bit integers and their wrap-around.  GoStd and GoFacts:
      the parts of the strings, strconv, path, sort and time packages the sources
      use, and their lemmas.
    - VProvider (vprovider/types.go, vprovider.go, capability.go, extended.go,
      task.go, registry.go): entities, sentinel errors, the capability mask, the
      task tracker, the registry.
    - Hypervisor: the provider interface as a class [Hypervisor] and its contract
      as the class [HypervisorLaws]; the engines are proved against these only.
    - Sim (vprovider/sim/sim.go), SimFacts, SimProps: the reference provider and
      its guarantees on every run.
    - Contract: what the comments of vprovider.go promise, as a machine on a table
      of VMs, with the points on which drivers may differ gathered in a [dialect].  A
      refused operation changes nothing there; what a driver does on a revert to an
      unknown snapshot, which clears marks, is a step of its own of the runs ([forgets]).
      SimContract and KvmFacts show that the simulator and the KVM driver
      simulate it step by step.
    - Kvm (vprovider/kvm/libvirt.go, kvm.go, kvm_maintenance.go, sim_backend.go):
      the KVM driver over the class [libvirtBackend] of backends, the optional
      extensions as a record, and the in-memory backend as the instance.
      KvmFacts: the driver under the engines, and registries that mix kinds of
      providers.  KvmProps: what it guarantees.
    - Migrate, MigrateProps (migrate/migrate.go, convert.go): pre-flight, then
      export, convert, import, finalize; the table of jobs.
    - Replication, ReplicationProps (replication/replication.go,
      store/replication.go, api/replication.go): policies, failover, restart;
      cycles, registrations, run-now and delete requests cut into the segments
      between which other goroutines run, each job with the lock it was made with.
    - Backup, BackupProps (backup/backup.go, store/vm_backups.go): backup,
      restore, delete, retention, over an object store given by its laws.
    - Alarms, AlarmsProps (alarms/alarms.go): the evaluation of threshold rules
      and the notifications they raise.
    - AuthStore (store/users.go, roles.go, bindings.go, sessions.go,
      api_tokens.go, recovery.go, settings.go, audit.go, bootstrap.go, seed.go):
      tables as maps with the constraints of the schema.  Rbac (authz/rbac.go,
      context.go, guard.go, api/permissions.go), Redact (authz/redact.go),
      Middleware (the rest of authz), AuthApi (api/auth.go, rbac.go,
      api_tokens.go), Router (api/settings.go, router.go): a [call] is a route
      with its decoded body and [route] the handler that serves it, chain
      included.  AuthFacts gives the rules by which a property is shown of every
      handler at once; RbacProps, AuthzProps, SessionProps and AccountProps hold
      the theorems, AuthDemo a small instance they are evaluated on.
    - Compose, ComposeFacts, ComposeProps (compose/parse.go, plan.go): the parser
      over the nodes of the YAML library, the order of deployment, the plan.
      Docker (provider/docker): the provider over an abstract daemon whose calls
      are logged.  Stacks (api/stacks.go, templates.go, workloads.go, volumes.go,
      images.go, networks.go): the handlers that deploy, over tables with the keys of
      the schema, foreign ones included.  BuilderFacts (the builder's document, over
      the laws [YamlLaws] of a YAML library), StackFacts, StackProps: their theorems.
    - VmApi (api/vm.go, vm_mutations.go, vm_ext.go, bulk.go, maintenance.go,
      vm_routes.go, store/pools.go): the VM surface over any instance of the class
      [Driver].  VmDrivers, and the head of ConformanceProps: the five providers as
      instances.  VmApiProps, VmPool: its theorems.
    - VmStore, DriverKit: what the Xen, ESXi and Hyper-V packages repeat; TableDriver
      and TableFacts: the driver they have in common follows the contract.  Xen,
      Esxi, Hyperv (vprovider/xen, esxi, hyperv: provider, records, model backend):
      each driver over the class of its backends; DriverProps, a Module each: on its
      model backend it is the common one.  ModelProps: the three together.
    - Conformance (vprovider/conformance/conformance.go): the suite as a computation
      over a provider; ConformanceFacts, ConformanceProps: its verdict.
    - Utf8, Guac, GuacProps (guac/guac.go): the handshake and the framing of the
      remote console proxy.
    - Streams, Ws (cache/streams.go, events.go, api/ws.go, ws_envelope.go): the
      WebSocket hub as a step relation between threads; WsFacts, WsInv,
      WsLive: its frame, invariants and progress; WsProps: the theorems.
    - SsoStore (store/authproviders.go, sso_states.go), Ldap (auth/ldap/ldap.go),
      Oidc (auth/oidc/oidc.go), Sso (api/auth_sso.go), SsoAdmin
      (api/admin_auth.go): external sign-in, the directory and the identity provider
      being classes.  SsoFacts, SsoProps, SsoRoles, SsoAdminProps: who gets
      a session, the state of a flow, the roles of a login, what administrators see.
    - Fs: paths as filepath treats them, and system calls that may fail on a tree of
      files.  Storage (storage/storage.go, local.go, san.go), StorageFacts,
      StorageProps: the local object store and the SAN pools.  StorageApi
      (store/storage_backends.go, api/storage_backends.go): the backends as one, their
      table and handlers.

    ** What the theorems show

    - Access: on the account and administration routes, and on any route mounted
      with their chain, no mutation runs without a valid credential, the permission
      of its route and, in a browser, a CSRF token; a request of a session that gets
      past the gate leaves one audit row, and a refused one none; the wildcard walk of permissions is a plain covering relation; a token never
      exceeds its owner; no request to these routes gives anybody a permission the
      caller lacks or takes the last administrator's role, which an external login
      may do; sessions end within their lifetime; lockout; redaction.
    - Providers: on every run the simulator and the drivers answer and change
      what the abstract contract says, failures included, with the one exception of
      [forgets]; hardware requests are clamped as documented; a host evacuated for
      maintenance is left with nothing running.
    - Engines: migration is total, refines a transfer on the registry alone, and
      leaves providers as they were when it fails; at most one cycle of a policy
      at a time, under every interleaving, until it is removed and registered anew,
      and its history is the newest of the cycles that ran; a failover stands through
      every interleaving without a cycle in flight; a restore reads back the stored
      image and metadata and asks for a machine of that size (the bytes do not reach
      it); retention keeps exactly the newest; alarms refine the state machine of
      their header.
    - Deployment: the order of deployment exists exactly when the dependencies
      have no cycle and is then the alphabetically first; no host path outside the
      policy reaches the daemon on any route; the document the builder writes is
      parsed and planned back to what was asked, but for trailing white space.
    - VM surface: a mutation reaches only the provider it names, through its gates;
      a bulk request is the sequence of its single ones; a driver passes the
      conformance suite under the capabilities the theorem lists.
    - Streams: a stream is opened only with its permission, a session has one live
      stats stream whatever the interleaving, a stream whose context is done ends.
      The console proxy answers guacd's handshake slot by slot and its instructions
      decode to what was encoded.
    - External sign-in: a session it creates is vouched for by the directory or by
      the issuer; the state of a flow signs in at most once; the roles of a login
      are those its groups map to; no reply depends on a provider's secrets.
    - Storage: no key leads a local store out of its directory, and what was put is
      what is found, whatever system calls fail; the document of a pool reads back as
      configured, for hosts without colons, and its probe leaves nothing behind;
      creating a backend, unless its place is taken, records what its connection test
      says.

    ** Fuel and bounds

    Kahn's algorithm runs on fuel the size of the service map: each round but the
    last places a service, so the fuel never runs out ([topo_order] says so).
    Loops over strings have the length of the string as fuel and consume a byte a
    round; the pruning of empty directories has that of the path, and goes up a name a
    round ([prune_enough]).  Machine integers are kept in Z with the wrap-around written out;
    a statement about counters or sizes has the bound it needs as a hypothesis:
    provider counters below 2^63, memory in MiB below 2^53 for KVM
    ([mem_fits]), because libvirt counts KiB.  Times are nanoseconds in Z.

    ** Parameters

    Code that is not in the repository is an argument: the Docker daemon, the
    YAML library's parse and marshal, the order in which Go ranges over a map, the
    clock and the random source (as sequences of readings), SHA-256, argon2, TOTP,
    AES-GCM, base64, URL parsing, the image converter, the object store of the backup
    engine, a libvirt host as its answers to a log of calls, which system calls fail.  What is relied on
    about them is a named hypothesis or a class of laws, with an instance that
    shows it can hold.

    ** Not modelled

    The text of JSON and SQL, and I/O errors of SQLite: a handler takes its
    decoded body and a statement is a function on tables.  Contexts and their
    cancellation, except in the live streams.  Read-only listings of the HTTP API.  The live transports of the
    hypervisors, the requests to S3 and Azure, Kubernetes, Swarm and Helm:
    conversations with third-party services, whose seams are the classes and
    parameters above.  Metric tickers.  The handlers of catalogs, registries and
    Helm releases, FinOps, inventory insights, the programs under cmd,
    the web interface, the tests and the deployment files.
*)
From stdpp Require Export base gmap strings list sorting fin_maps pretty.
From Stdlib Require Export ZArith Lia.

(** Everything numeric in the sources is a Go [int], [int64] or [uint64]. *)
#[global] Open Scope Z_scope.

(** ** Results: a Go pair [(value, error)] with exactly one side meaningful *)

Inductive result (E A : Type) : Type :=
| Ok (a : A)
| Err (e : E).
Arguments Ok {E A} a.
Arguments Err {E A} e.

#[export] Instance result_eq_dec {E A} `{EqDecision E, EqDecision A} :
  EqDecision (result E A).
Proof. solve_decision. Defined.

Definition is_ok {E A} (r : result E A) : bool :=
  match r with Ok _ => true | Err _ => false end.

#[export] Instance result_bind {E} : MBind (result E) :=
  fun A B f r => match r with Ok a => f a | Err e => Err e end.
#[export] Instance result_ret {E} : MRet (result E) := fun A a => Ok a.

(** [first_err] runs a fallible function over a list, left to right, and stops
    at the first error, the way a Go loop with an early return does. *)
Fixpoint first_err {E A B} (f : A -> result E B) (l : list A) : result E (list B) :=
  match l with
  | [] => Ok []
  | x :: l => y ← f x; ys ← first_err f l; Ok (y :: ys)
  end.

Lemma first_err_ok {E A B} (f : A -> result E B) l ys :
  first_err f l = Ok ys <-> Forall2 (fun x y => f x = Ok y) l ys.
Proof.
  revert ys. induction l as [|x l IH]; intros ys; simpl.
  - split; [by intros [= <-]|by intros ->%Forall2_nil_inv_l].
  - split.
    + destruct (f x) as [y|e] eqn:Hx; simpl; [|done]. destruct (first_err f l) as [zs|e] eqn:Hl; simpl; [|done].
      intros [= <-]. constructor; [done|]. by apply IH.
    + intros (y & zs & Hx & Hl & ->)%Forall2_cons_inv_l. apply IH in Hl. by rewrite Hx; simpl; rewrite Hl.
Qed.

Lemma first_err_err {E A B} (f : A -> result E B) l e :
  first_err f l = Err e -> exists x, x ∈ l /\ f x = Err e.
Proof.
  induction l as [|x l IH]; simpl; [done|]. destruct (f x) as [y|e'] eqn:Hx; simpl.
  - destruct (first_err f l); simpl; [done|]. intros [= <-]. destruct IH as (z & Hz & Hf); [done|].
    exists z. split; [by right|done].
  - intros [= <-]. exists x. split; [by left|done].
Qed.

(** ** The engine monad: explicit state, [None] is a Go panic *)

Definition M (W A : Type) : Type := W -> option (A * W).

#[export] Instance M_ret {W} : MRet (M W) := fun A a w => Some (a, w).
#[export] Instance M_bind {W} : MBind (M W) :=
  fun A B f m w => match m w with Some (a, w') => f a w' | None => None end.

Definition gets {W A} (f : W -> A) : M W A := fun w => Some (f w, w).
Definition modify {W} (f : W -> W) : M W unit := fun w => Some (tt, f w).
Definition panic {W A} : M W A := fun _ => None.

Lemma M_bind_ret {W A B} (a : A) (f : A -> M W B) (w : W) :
  (mret a ≫= f) w = f a w.
Proof. reflexivity. Qed.

Lemma M_bind_gets {W A B} (g : W -> A) (f : A -> M W B) (w : W) :
  (gets g ≫= f) w = f (g w) w.
Proof. reflexivity. Qed.

Lemma M_bind_modify {W B} (g : W -> W) (f : unit -> M W B) (w : W) :
  (modify g ≫= f) w = f tt (g w).
Proof. reflexivity. Qed.

Lemma M_bind_some {W A B} (m : M W A) (f : A -> M W B) (w w' : W) a :
  m w = Some (a, w') -> (m ≫= f) w = f a w'.
Proof. intros H. unfold mbind, M_bind. by rewrite H. Qed.

Lemma M_bind_inv {W A B} (m : M W A) (f : A -> M W B) (w w2 : W) b :
  (m ≫= f) w = Some (b, w2) -> exists a w1, m w = Some (a, w1) /\ f a w1 = Some (b, w2).
Proof.
  unfold mbind, M_bind. destruct (m w) as [[a w1]|] eqn:E; [|done].
  intros H. by exists a, w1.
Qed.

Lemma M_ret_inv {W A} (a b : A) (w w' : W) :
  (mret a : M W A) w = Some (b, w') -> b = a /\ w' = w.
Proof. by intros [= -> ->]. Qed.

(** [wp m Q w]: from [w], [m] does not panic and ends in a state and with a
    value that satisfy [Q]. *)
Definition wp {W A} (m : M W A) (Q : A -> W -> Prop) (w : W) : Prop :=
  match m w with Some (a, w') => Q a w' | None => False end.

Lemma wp_bind {W A B} (m : M W A) (f : A -> M W B) Q w :
  wp m (fun a w' => wp (f a) Q w') w -> wp (m ≫= f) Q w.
Proof. unfold wp, mbind, M_bind. by destruct (m w) as [[a w']|]. Qed.

Lemma wp_ret {W A} (a : A) Q (w : W) : Q a w -> wp (mret a) Q w.
Proof. done. Qed.

Lemma wp_gets {W A} (g : W -> A) Q (w : W) : Q (g w) w -> wp (gets g) Q w.
Proof. done. Qed.

Lemma wp_modify {W} (g : W -> W) Q (w : W) : Q tt (g w) -> wp (modify g) Q w.
Proof. done. Qed.

Lemma wp_mono {W A} (m : M W A) (Q R : A -> W -> Prop) w :
  wp m Q w -> (forall a w', Q a w' -> R a w') -> wp m R w.
Proof. unfold wp. destruct (m w) as [[a w']|]; auto. Qed.

Lemma wp_inv {W A} (m : M W A) (Q : A -> W -> Prop) w :
  wp m Q w -> exists a w', m w = Some (a, w') /\ Q a w'.
Proof. unfold wp. destruct (m w) as [[a w']|]; [|done]. intros H. by exists a, w'. Qed.

Lemma wp_intro {W A} (m : M W A) (Q : A -> W -> Prop) w a w' :
  m w = Some (a, w') -> Q a w' -> wp m Q w.
Proof. unfold wp. by intros ->. Qed.

(** [wlp m Q w]: the partial version, true of a computation that panics. *)
Definition wlp {W A} (m : M W A) (Q : A -> W -> Prop) (w : W) : Prop :=
  match m w with Some (a, w') => Q a w' | None => True end.

Lemma wlp_bind {W A B} (m : M W A) (f : A -> M W B) Q w :
  wlp m (fun a w' => wlp (f a) Q w') w -> wlp (m ≫= f) Q w.
Proof. unfold wlp, mbind, M_bind. by destruct (m w) as [[a w']|]. Qed.

Lemma wlp_ret {W A} (a : A) Q (w : W) : Q a w -> wlp (mret a) Q w.
Proof. done. Qed.

Lemma wlp_gets {W A} (g : W -> A) Q (w : W) : Q (g w) w -> wlp (gets g) Q w.
Proof. done. Qed.

Lemma wlp_modify {W} (g : W -> W) Q (w : W) : Q tt (g w) -> wlp (modify g) Q w.
Proof. done. Qed.

Lemma wlp_panic {W A} (Q : A -> W -> Prop) (w : W) : wlp panic Q w.
Proof. done. Qed.

Lemma wlp_mono {W A} (m : M W A) (Q R : A -> W -> Prop) w :
  wlp m Q w -> (forall a w', Q a w' -> R a w') -> wlp m R w.
Proof. unfold wlp. destruct (m w) as [[a w']|]; auto. Qed.

Lemma wlp_elim {W A} (m : M W A) (Q : A -> W -> Prop) w a w' :
  wlp m Q w -> m w = Some (a, w') -> Q a w'.
Proof. unfold wlp. intros HQ Hm. by rewrite Hm in HQ. Qed.

(** [preserves I m]: when [m] ends without a panic, it keeps [I]. *)
Definition preserves {W A} (I : W -> Prop) (m : M W A) : Prop :=
  forall w a w', I w -> m w = Some (a, w') -> I w'.

Lemma preserves_bind {W A B} (I : W -> Prop) (m : M W A) (f : A -> M W B) :
  preserves I m -> (forall a, preserves I (f a)) -> preserves I (m ≫= f).
Proof.
  intros Hm Hf w b w' HI (a & w1 & H1 & H2)%M_bind_inv.
  eapply Hf; [|done]. by eapply Hm.
Qed.

Lemma preserves_ret {W A} (I : W -> Prop) (a : A) : preserves I (mret a).
Proof. intros w a' w' HI [= <- <-]. done. Qed.

Lemma preserves_gets {W A} (I : W -> Prop) (g : W -> A) : preserves I (gets g).
Proof. intros w a w' HI [= <- <-]. done. Qed.

Lemma preserves_modify {W} (I : W -> Prop) (g : W -> W) :
  (forall w, I w -> I (g w)) -> preserves I (modify g).
Proof. intros Hg w a w' HI [= <- <-]. auto. Qed.

Lemma preserves_panic {W A} (I : W -> Prop) : preserves I (@panic W A).
Proof. intros w a w' HI. done. Qed.

(** ** Machine integers *)

(** [wrap64 z] is [z] stored in a Go [int64]: two's complement, wrap-around. *)
Definition wrap64 (z : Z) : Z := (z + 2 ^ 63) mod 2 ^ 64 - 2 ^ 63.

Definition int64_range (z : Z) : Prop := - 2 ^ 63 <= z < 2 ^ 63.

Lemma wrap64_range z : int64_range (wrap64 z).
Proof.
  unfold int64_range, wrap64.
  pose proof (Z.mod_pos_bound (z + 2 ^ 63) (2 ^ 64) ltac:(lia)). lia.
Qed.

Lemma wrap64_id z : int64_range z -> wrap64 z = z.
Proof. unfold int64_range, wrap64. intros H. rewrite Z.mod_small; lia. Qed.

Lemma wrap_next n : 0 <= n -> n + 1 < 2 ^ 63 -> wrap64 (n + 1) = n + 1.
Proof. intros. apply wrap64_id. unfold int64_range. lia. Qed.

Lemma wrap64_idemp z : wrap64 (wrap64 z) = wrap64 z.
Proof. apply wrap64_id, wrap64_range. Qed.

(** ** List lemmas shared by the components *)

(** The first occurrence is cut out of [order]. *)
Fixpoint remove_first (id : string) (l : list string) : list string :=
  match l with
  | [] => []
  | x :: l => if bool_decide (x = id) then l else x :: remove_first id l
  end.

Lemma remove_first_spec id l : NoDup l ->
  NoDup (remove_first id l) /\ (forall x, x ∈ remove_first id l <-> x ∈ l /\ x <> id).
Proof.
  induction l as [|y l IH]; intros Hnd.
  { split; [done|]. intros x. simpl. set_solver. }
  apply NoDup_cons in Hnd as [Hni Hnd]. destruct (IH Hnd) as [H1 H2]. simpl.
  case_bool_decide as Hy.
  - subst y. split; [done|]. intros x. rewrite elem_of_cons. naive_solver.
  - split.
    + apply NoDup_cons. split; [|done]. rewrite H2. naive_solver.
    + intros x. rewrite !elem_of_cons, H2. naive_solver.
Qed.

(** [last_n n l] is Go's [l[len(l)-n:]] guarded by [len(l) > n]. *)
Definition last_n {A} (n : nat) (l : list A) : list A := drop (length l - n) l.

Lemma length_last_n {A} n (l : list A) : length (last_n n l) = Nat.min n (length l).
Proof. unfold last_n. rewrite length_drop. lia. Qed.

Lemma last_n_all {A} n (l : list A) : (length l <= n)%nat -> last_n n l = l.
Proof. intros H. unfold last_n. by replace (length l - n)%nat with 0%nat by lia. Qed.

Lemma last_n_suffix {A} n (l : list A) : last_n n l `suffix_of` l.
Proof. exists (take (length l - n) l). unfold last_n. by rewrite take_drop. Qed.

(** Keeping the newest [n] after each append is the same as keeping the newest
    [n] of everything that was ever appended. *)
Lemma last_n_snoc {A} n (l : list A) x : last_n n (last_n n l ++ [x]) = last_n n (l ++ [x]).
Proof.
  unfold last_n. rewrite !length_app, length_drop; simpl.
  destruct (decide (length l < n)%nat).
  - replace (length l - n)%nat with 0%nat by lia. simpl.
    by replace (length l - 0 + 1 - n)%nat with (length l + 1 - n)%nat by lia.
  - replace (length l - (length l - n) + 1 - n)%nat with 1%nat by lia.
    replace (length l + 1 - n)%nat with (S (length l - n)) by lia.
    assert (length l <= length l - n \/ length l - n + 1 <= length l)%nat as [Hn|Hn] by lia.
    + rewrite (drop_ge l) by lia. rewrite !drop_ge; rewrite ?length_app; simpl; lia || done.
    + rewrite (drop_app_le l) by lia.
      rewrite drop_app_le by (rewrite length_drop; lia).
      rewrite drop_drop. do 2 f_equal. lia.
Qed.

Lemma filter_all {A} (P : A -> Prop) `{forall x, Decision (P x)} (l : list A) :
  Forall P l -> filter P l = l.
Proof. induction 1; [done|]. rewrite filter_cons_True by done. by f_equal. Qed.

Lemma filter_none {A} (P : A -> Prop) `{forall x, Decision (P x)} (l : list A) :
  Forall (fun x => ~ P x) l -> filter P l = [].
Proof. induction 1; [done|]. by rewrite filter_cons_False. Qed.

Lemma filter_ext_in {A} (P Q : A -> Prop) `{forall x, Decision (P x), forall x, Decision (Q x)}
    (l : list A) : (forall x, x ∈ l -> P x <-> Q x) -> filter P l = filter Q l.
Proof.
  induction l as [|x l IH]; intros Hl; [done|].
  rewrite !filter_cons, IH by (intros y Hy; apply Hl; by right).
  specialize (Hl x ltac:(by left)). destruct (decide (P x)), (decide (Q x)); tauto || done.
Qed.

Lemma NoDup_key_filter {A} (key : A -> string) (P : A -> Prop) `{forall x, Decision (P x)} (l : list A) :
  NoDup (key <$> l) -> NoDup (key <$> filter P l).
Proof.
  induction l as [|x l IH]; [done|]. rewrite fmap_cons, NoDup_cons, filter_cons. intros [Hn Hnd].
  case_decide; [|by apply IH]. rewrite fmap_cons, NoDup_cons. split; [|by apply IH].
  intros (y & Hy & [_ Hin]%list_elem_of_filter)%list_elem_of_fmap. apply Hn. rewrite Hy.
  by apply list_elem_of_fmap_2.
Qed.

Lemma NoDup_key_take {A} (key : A -> string) n (l : list A) :
  NoDup (key <$> l) -> NoDup (key <$> take n l).
Proof. rewrite <- (take_drop n l) at 1. rewrite fmap_app, NoDup_app. tauto. Qed.

Lemma NoDup_key_inj {A} (key : A -> string) (l : list A) x y :
  NoDup (key <$> l) -> x ∈ l -> y ∈ l -> key x = key y -> x = y.
Proof.
  intros Hnd Hx Hy Hk. apply list_elem_of_split in Hx as (l1 & l2 & ->).
  rewrite fmap_app, fmap_cons in Hnd. apply NoDup_app in Hnd as (_ & Hd & Hnd).
  apply NoDup_cons in Hnd as [Hn _].
  apply elem_of_app in Hy as [Hy|[->|Hy]%elem_of_cons]; [|done|].
  - exfalso. apply (Hd (key y)); [by apply list_elem_of_fmap_2|]. rewrite Hk. by left.
  - exfalso. apply Hn. rewrite Hk. by apply list_elem_of_fmap_2.
Qed.

(** Removing the keys of the front of a list with distinct keys leaves its back. *)
Lemma filter_not_front {A} (key : A -> string) (l1 l2 : list A) :
  NoDup (key <$> l1 ++ l2) -> filter (fun x => key x ∉ key <$> l1) (l1 ++ l2) = l2.
Proof.
  rewrite fmap_app, NoDup_app. intros (_ & Hd & _). rewrite filter_app, filter_none, filter_all; [done| |].
  - apply Forall_forall. intros x Hx Hin. apply (Hd _ Hin). by apply list_elem_of_fmap_2.
  - apply Forall_forall. intros x Hx Hni. apply Hni. by apply list_elem_of_fmap_2.
Qed.

(** ** Tactics *)

(** Destruct the scrutinee of the first [match] or [if], here or in [H]. *)
Ltac break_match :=
  match goal with
  | |- context [match ?x with _ => _ end] => destruct x eqn:?
  | H : context [match ?x with _ => _ end] |- _ => destruct x eqn:?
  end.
Ltac break_all := repeat (break_match; simplify_eq/=).

(** Turn boolean tests into propositions. *)
Ltac to_prop :=
  repeat match goal with
  | H : (_ && _) = true |- _ => apply andb_true_iff in H; destruct H
  | H : (_ || _) = false |- _ => apply orb_false_iff in H; destruct H
  | H : negb _ = true |- _ => apply negb_true_iff in H
  | H : negb _ = false |- _ => apply negb_false_iff in H
  | H : bool_decide _ = true |- _ => apply bool_decide_eq_true in H
  | H : bool_decide _ = false |- _ => apply bool_decide_eq_false in H
  | H : (_ <? _) = true |- _ => apply Z.ltb_lt in H
  | H : (_ <? _) = false |- _ => apply Z.ltb_ge in H
  | H : (_ <=? _) = true |- _ => apply Z.leb_le in H
  | H : (_ <=? _) = false |- _ => apply Z.leb_gt in H
  | H : (_ =? _) = true |- _ => apply Z.eqb_eq in H
  | H : (_ =? _) = false |- _ => apply Z.eqb_neq in H
  end.

(** The components' rewriting database: lookups in updated maps, projections of
    updated states. *)
Create HintDb castor.
Create Rewrite HintDb castor_rw.
#[export] Hint Resolve wrap64_range : castor.
#[export] Hint Resolve preserves_bind preserves_ret preserves_gets preserves_panic : castor.
#[export] Hint Rewrite @length_last_n : castor_rw.
