(* ===== verification/GoStd.v ===== *)
(** * The Go standard library the sources use: strings, numbers, times

    Go strings are byte sequences, and so are Rocq's [string]s; every function
    here works on bytes.  Where the Go function is defined on runes the
    definition is exact for the runes listed in its comment. *)
From S2P Require Import Prelude.
From Stdlib Require Export Ascii SpecFloat.
From Stdlib Require String.

#[global] Open Scope string_scope.
#[global] Open Scope list_scope.
#[global] Open Scope Z_scope.

(** ** package strings *)

(** [strings.Split(s, sep)] for a one-byte separator: always at least one part. *)
Fixpoint split_on (sep : ascii) (s : string) : list string :=
  match s with
  | EmptyString => [""]
  | String c s' =>
      if Ascii.eqb c sep then "" :: split_on sep s'
      else match split_on sep s' with
           | [] => [String c ""]
           | p :: ps => String c p :: ps
           end
  end.

(** [strings.Join(parts, sep)]. *)
Fixpoint join (sep : string) (parts : list string) : string :=
  match parts with
  | [] => ""
  | [p] => p
  | p :: ps => p +:+ sep +:+ join sep ps
  end.

(** [strings.HasPrefix(s, p)]. *)
Definition has_prefix (s p : string) : bool := String.prefix p s.

(** [strings.Contains(s, string(c))] for one byte, and for a substring. *)
Fixpoint contains_char (c : ascii) (s : string) : bool :=
  match s with
  | EmptyString => false
  | String d s' => Ascii.eqb d c || contains_char c s'
  end.

Fixpoint contains (s sub : string) : bool :=
  has_prefix s sub || match s with EmptyString => false | String _ s' => contains s' sub end.

(** The byte encodings of the runes [unicode.IsSpace] accepts. *)
Definition bytes (l : list N) : string :=
  foldr (fun n s => String (ascii_of_N n) s) "" l.

Definition space_runes : list string :=
  map bytes
    ([[9]; [10]; [11]; [12]; [13]; [32]; [194; 133]; [194; 160]; [225; 154; 128]]
     ++ map (fun n => [226; 128; n]) [128; 129; 130; 131; 132; 133; 134; 135; 136; 137; 138]
     ++ [[226; 128; 168]; [226; 128; 169]; [226; 128; 175]; [226; 129; 159]; [227; 128; 128]])%N.

Fixpoint string_drop (n : nat) (s : string) : string :=
  match n, s with
  | S n, String _ s' => string_drop n s'
  | _, _ => s
  end.

(** The rest of [s] after one leading space rune, when there is one. *)
Definition strip_space (s : string) : option string :=
  match list_find (fun r => has_prefix s r = true) space_runes with
  | Some (_, r) => Some (string_drop (String.length r) s)
  | None => None
  end.

Fixpoint trim_left_fuel (n : nat) (s : string) : string :=
  match n with
  | O => s
  | S n => match strip_space s with Some s' => trim_left_fuel n s' | None => s end
  end.

Definition trim_left (s : string) : string := trim_left_fuel (String.length s) s.

(** The longest prefix of [s] after which only space runes follow. *)
Fixpoint all_spaces_fuel (n : nat) (s : string) : bool :=
  match s with
  | EmptyString => true
  | String _ _ =>
      match n with
      | O => false
      | S n => match strip_space s with Some s' => all_spaces_fuel n s' | None => false end
      end
  end.
Definition all_spaces (s : string) : bool := all_spaces_fuel (String.length s) s.

Fixpoint trim_right (s : string) : string :=
  if all_spaces s then ""
  else match s with EmptyString => "" | String c s' => String c (trim_right s') end.

(** [strings.TrimSpace(s)]. *)
Definition trim_space (s : string) : string := trim_right (trim_left s).

(** [strings.Fields(s)]: the maximal runs without a space rune; [cur] is the run
    being read, [n] is fuel. *)
Definition emit (cur : string) (l : list string) : list string :=
  if bool_decide (cur = "") then l else cur :: l.
Fixpoint fields_fuel (n : nat) (cur s : string) : list string :=
  match s with
  | EmptyString => emit cur []
  | String c s' =>
      match n with
      | O => emit cur []
      | S n => match strip_space s with
               | Some rest => emit cur (fields_fuel n "" rest)
               | None => fields_fuel n (cur +:+ String c "") s'
               end
      end
  end.
Definition fields (s : string) : list string := fields_fuel (String.length s) "" s.

(** [strings.Cut(s, sep)] for one byte: around the first one, when there is one. *)
Fixpoint cut (sep : ascii) (s : string) : option (string * string) :=
  match s with
  | EmptyString => None
  | String c s' =>
      if Ascii.eqb c sep then Some ("", s')
      else '(a, b) ← cut sep s'; Some (String c a, b)
  end.
(** Around the last one: [s[:i]] and [s[i+1:]] for [i = strings.LastIndex(s, sep)]. *)
Fixpoint cut_last (sep : ascii) (s : string) : option (string * string) :=
  match s with
  | EmptyString => None
  | String c s' =>
      match cut_last sep s' with
      | Some (a, b) => Some (String c a, b)
      | None => if Ascii.eqb c sep then Some ("", s') else None
      end
  end.

(** [strings.TrimRight(s, set)], [strings.TrimLeft(s, set)] for a set of bytes. *)
Fixpoint trim_right_set (set : ascii -> bool) (s : string) : string :=
  match s with
  | EmptyString => ""
  | String c s' =>
      match trim_right_set set s' with
      | EmptyString => if set c then "" else String c ""
      | t => String c t
      end
  end.
Fixpoint trim_left_set (set : ascii -> bool) (s : string) : string :=
  match s with
  | EmptyString => ""
  | String c s' => if set c then trim_left_set set s' else s
  end.

(** One ASCII letter to lower case. *)
Definition lower_byte (c : ascii) : ascii :=
  let n := N_of_ascii c in
  if ((65 <=? n) && (n <=? 90))%N then ascii_of_N (n + 32) else c.

Definition kelvin : string := bytes [226; 132; 170]%N.   (* U+212A *)
Definition dotted_I : string := bytes [196; 176]%N.      (* U+0130 *)
Definition long_s : string := bytes [197; 191]%N.        (* U+017F *)

Fixpoint string_map (f : ascii -> ascii) (s : string) : string :=
  match s with EmptyString => "" | String c s' => String (f c) (string_map f s') end.

(** Replace every occurrence of the byte sequence [pat] by [rep]; [n] is fuel. *)
Fixpoint replace_fuel (n : nat) (pat rep s : string) : string :=
  match n with
  | O => s
  | S n =>
      match s with
      | EmptyString => ""
      | String c s' =>
          if has_prefix s pat
          then rep +:+ replace_fuel n pat rep (string_drop (String.length pat) s)
          else String c (replace_fuel n pat rep s')
      end
  end.
Definition replace_all (s pat rep : string) : string :=
  replace_fuel (String.length s) pat rep s.

(** [strings.ToLower(s)], exact on the ASCII bytes of its result: the runes
    whose lower case is ASCII are the ASCII letters, U+212A and U+0130.  Every
    caller in the model only looks at the ASCII bytes. *)
Definition to_lower (s : string) : string :=
  string_map lower_byte (replace_all (replace_all s kelvin "k") dotted_I "i").

(** [strings.EqualFold(s, t)]: simple folding of the ASCII letters, whose
    orbits also hold U+212A (k) and U+017F (s); other runes fold to themselves. *)
Definition fold_case (s : string) : string :=
  string_map lower_byte (replace_all (replace_all s kelvin "k") long_s "s").
Definition equal_fold (s t : string) : bool := bool_decide (fold_case s = fold_case t).

(** [s < t] and [s <= t]: bytewise lexicographic order. *)
Definition str_lt (s t : string) : bool := String.ltb s t.
Definition str_le (s t : string) : Prop := String.leb s t = true.
#[export] Instance str_le_dec s t : Decision (str_le s t).
Proof. unfold str_le. apply _. Defined.

(** [sort.Strings(l)]. *)
Definition sort_strings (l : list string) : list string := merge_sort str_le l.

(** ** package path *)

(** [path.Clean(p)] (and [filepath.Clean] on Unix): the shortest path that names
    the same place, by its elements; [stack] is the elements kept, last first. *)
Definition clean_elem (rooted : bool) (stack : list string) (e : string) : list string :=
  if bool_decide (e = "") || bool_decide (e = ".") then stack
  else if bool_decide (e = "..") then
    match stack with
    | [] => if rooted then [] else [".."]
    | top :: rest => if bool_decide (top = "..") then ".." :: stack else rest
    end
  else e :: stack.
Definition clean_elems (rooted : bool) (p : string) : list string :=
  rev (foldl (clean_elem rooted) [] (split_on "/" p)).
Definition path_clean (p : string) : string :=
  if has_prefix p "/" then "/" +:+ join "/" (clean_elems true p)
  else match clean_elems false p with [] => "." | l => join "/" l end.

(** ** package strconv / fmt *)

(** [%d]: decimal rendering. *)
Definition itoa (z : Z) : string := pretty z.

Definition digit_val (c : ascii) : option Z :=
  let n := Z.of_N (N_of_ascii c) in
  if (48 <=? n) && (n <=? 57) then Some (n - 48) else None.

Fixpoint digits_val (acc : Z) (s : string) : option Z :=
  match s with
  | EmptyString => Some acc
  | String c s' => d ← digit_val c; digits_val (10 * acc + d) s'
  end.

(** [strconv.Atoi(s)]: an optional sign, at least one digit, in [int64] range. *)
Definition atoi (s : string) : option Z :=
  let body (neg : bool) (s : string) :=
    match s with
    | EmptyString => None
    | _ => v ← digits_val 0 s;
           let z := if neg : bool then - v else v in
           if (- 2 ^ 63 <=? z) && (z <? 2 ^ 63) then Some z else None
    end in
  match s with
  | String "-" s' => body true s'
  | String "+" s' => body false s'
  | _ => body false s
  end.

(** [%q]: double-quoted, with the ASCII escapes of [strconv.Quote]; bytes above
    127 are kept as they are (printable, well-formed UTF-8). *)
Definition hex_digit (n : N) : ascii :=
  ascii_of_N (if (n <? 10)%N then 48 + n else 87 + n)%N.
Definition quote_byte (c : ascii) : string :=
  let n := N_of_ascii c in
  let esc (d : ascii) := String (ascii_of_N 92) (String d "") in
  if (n =? 34)%N || (n =? 92)%N then esc c
  else if (n =? 7)%N then esc "a"%char
  else if (n =? 8)%N then esc "b"%char
  else if (n =? 12)%N then esc "f"%char
  else if (n =? 10)%N then esc "n"%char
  else if (n =? 13)%N then esc "r"%char
  else if (n =? 9)%N then esc "t"%char
  else if (n =? 11)%N then esc "v"%char
  else if ((n <? 32) || (n =? 127))%N then
    esc "x"%char +:+ String (hex_digit (n / 16)) (String (hex_digit (n mod 16)) "")
  else String c "".
Fixpoint quote_body (s : string) : string :=
  match s with EmptyString => "" | String c s' => quote_byte c +:+ quote_body s' end.
Definition quote (s : string) : string :=
  let q := String (ascii_of_N 34) "" in q +:+ quote_body s +:+ q.

(** [string(rune(n))]: the UTF-8 encoding; what is not a code point is U+FFFD.
    The conversion to [rune] keeps the low 32 bits. *)
Definition string_of_rune (n : Z) : string :=
  let r := (n + 2 ^ 31) mod 2 ^ 32 - 2 ^ 31 in
  let c (k : Z) := Z.to_N k in
  let low (k : Z) := c (128 + k mod 64) in
  if (0 <=? r) && (r <? 128) then bytes [c r]
  else if (128 <=? r) && (r <? 2048) then bytes [c (192 + r / 64); low r]
  else if (r <? 0) || (1114111 <? r) || ((55296 <=? r) && (r <=? 57343))
       then bytes [239; 191; 189]%N
  else if r <? 65536 then bytes [c (224 + r / 4096); low (r / 64); low r]
  else bytes [c (240 + r / 262144); low (r / 4096); low (r / 64); low r].

(** ** float64: IEEE 754 binary64, round to nearest even *)

Abbreviation f64 := spec_float (only parsing).

#[export] Instance f64_eq_dec : EqDecision spec_float.
Proof. solve_decision. Defined.

Definition f64_of_Z (z : Z) : f64 := binary_normalize 53 1024 z 0 false.
Definition f64_add : f64 -> f64 -> f64 := SFadd 53 1024.
Definition f64_sub : f64 -> f64 -> f64 := SFsub 53 1024.
Definition f64_mul : f64 -> f64 -> f64 := SFmul 53 1024.
Definition f64_div : f64 -> f64 -> f64 := SFdiv 53 1024.
Definition f64_lt (a b : f64) : bool := SFltb a b.
Definition f64_le (a b : f64) : bool := SFleb a b.
Definition f64_eq (a b : f64) : bool := SFeqb a b.
Definition f64_zero : f64 := S754_zero false.

(** [int64(f)]: truncation; out of range or NaN gives the amd64 value. *)
Definition f64_to_int64 (f : f64) : Z :=
  let lim (z : Z) := if (- 2 ^ 63 <=? z) && (z <? 2 ^ 63) then z else - 2 ^ 63 in
  match f with
  | S754_zero _ => 0
  | S754_finite s m e =>
      let v := if 0 <=? e then Zpos m * 2 ^ e else Zpos m / 2 ^ (- e) in
      lim (if s : bool then - v else v)
  | _ => - 2 ^ 63
  end.

(** ** package time *)

(** A [time.Time] is its number of nanoseconds since the zero time (January 1,
    year 1, UTC), so [IsZero] is a test for 0; a [time.Duration] is a number of
    nanoseconds in an [int64]. *)
Abbreviation time := Z (only parsing).
Abbreviation duration := Z (only parsing).

Definition Second : duration := 1000000000.
Definition Minute : duration := 60 * Second.
Definition Hour : duration := 60 * Minute.

(** Seconds between the zero time and the Unix epoch. *)
Definition unix_epoch : Z := 62135596800.

Definition is_zero_time (t : time) : bool := t =? 0.
Definition unix (t : time) : Z := t / Second - unix_epoch.

(** [t.Sub(u)] saturates at the limits of [time.Duration]. *)
Definition time_sub (t u : time) : duration :=
  Z.max (- 2 ^ 63) (Z.min (2 ^ 63 - 1) (t - u)).

(** [time.Duration(n) * unit]: an [int64] product. *)
Definition dur_of (n : Z) (unit : duration) : duration := wrap64 (n * unit).

(** [d.Seconds()] and [d.Milliseconds()]. *)
Definition dur_seconds (d : duration) : f64 :=
  f64_add (f64_of_Z (Z.quot d Second))
          (f64_div (f64_of_Z (Z.rem d Second)) (f64_of_Z Second)).
Definition dur_ms (d : duration) : Z := Z.quot d 1000000.

(** ** Facts *)

Lemma str_compare_trans s t u :
  String.compare s t <> Gt -> String.compare t u <> Gt -> String.compare s u <> Gt.
Proof.
  revert t u. induction s as [|a s IH]; intros [|b t] [|c u]; simpl; try done.
  unfold Ascii.compare. intros H1 H2.
  destruct (N.compare_spec (N_of_ascii a) (N_of_ascii b)) as [Hab|Hab|Hab];
    destruct (N.compare_spec (N_of_ascii b) (N_of_ascii c)) as [Hbc|Hbc|Hbc];
    destruct (N.compare_spec (N_of_ascii a) (N_of_ascii c)) as [Hac|Hac|Hac];
    solve [done | lia | eauto].
Qed.

Lemma str_le_spec s t : str_le s t <-> String.compare s t <> Gt.
Proof. unfold str_le, String.leb. destruct (String.compare s t); naive_solver. Qed.

#[export] Instance str_le_total : Total str_le.
Proof. intros s t. apply String.leb_total. Qed.
#[export] Instance str_le_trans : Transitive str_le.
Proof. intros s t u. rewrite !str_le_spec. apply str_compare_trans. Qed.
#[export] Instance str_le_antisym : AntiSymm eq str_le.
Proof. intros s t. apply String.leb_antisym. Qed.

Lemma str_le_refl s : str_le s s.
Proof. destruct (str_le_total s s); done. Qed.

Lemma str_lt_le s t : str_lt s t = true -> str_le s t.
Proof.
  unfold str_lt, String.ltb. rewrite str_le_spec. by destruct (String.compare s t).
Qed.

Lemma str_lt_false s t : str_lt s t = false -> str_le t s.
Proof.
  unfold str_lt, String.ltb. rewrite str_le_spec, (String.compare_antisym t s).
  by destruct (String.compare s t).
Qed.

Lemma sort_strings_perm l : sort_strings l ≡ₚ l.
Proof. apply merge_sort_Permutation. Qed.

Lemma sort_strings_sorted l : StronglySorted str_le (sort_strings l).
Proof. apply StronglySorted_merge_sort; apply _. Qed.

(** Sorting forgets the order of its argument: any iteration order of a Go map
    gives the same sorted keys. *)
Lemma sort_strings_proper l1 l2 : l1 ≡ₚ l2 -> sort_strings l1 = sort_strings l2.
Proof.
  intros H. apply (StronglySorted_unique str_le); try apply sort_strings_sorted.
  by rewrite !sort_strings_perm.
Qed.
#[export] Instance sort_strings_Permutation : Proper ((≡ₚ) ==> eq) sort_strings.
Proof. intros l1 l2. apply sort_strings_proper. Qed.

Lemma sort_strings_NoDup l : NoDup l -> NoDup (sort_strings l).
Proof. by rewrite sort_strings_perm. Qed.

Lemma elem_of_sort_strings x l : x ∈ sort_strings l <-> x ∈ l.
Proof. by rewrite sort_strings_perm. Qed.

Lemma itoa_inj a b : itoa a = itoa b -> a = b.
Proof. apply (inj pretty). Qed.

Lemma string_app_inj_l s t u : s +:+ t = s +:+ u -> t = u.
Proof. induction s; simpl; [done|]. intros H. injection H as H. auto. Qed.

Lemma has_prefix_spec s p : has_prefix s p = true <-> exists u, s = p +:+ u.
Proof.
  unfold has_prefix. revert s. induction p as [|c p IH]; intros s; simpl.
  - split; [by exists s|by destruct s].
  - destruct s as [|d s]; simpl; [by split; [|intros [? ?]]|].
    destruct (Ascii.ascii_dec c d) as [<-|Hne].
    + rewrite IH. split; intros [u Hu]; exists u; [by rewrite Hu|by injection Hu].
    + split; [done|]. intros [u Hu]. injection Hu as Hd _. by destruct Hne.
Qed.

Lemma split_on_nonempty sep s : split_on sep s <> [].
Proof. destruct s; simpl; [done|]. repeat case_match; done. Qed.

Lemma join_split sep s : join (String sep "") (split_on sep s) = s.
Proof.
  induction s as [|c s IH]; simpl; [done|].
  destruct (Ascii.eqb_spec c sep) as [->|Hne].
  - destruct (split_on sep s) eqn:E; [by apply split_on_nonempty in E|].
    by rewrite <- IH.
  - destruct (split_on sep s) as [|p ps] eqn:E; [by apply split_on_nonempty in E|].
    rewrite <- IH. by destruct ps.
Qed.

Lemma string_app_assoc (a b c : string) : (a +:+ b) +:+ c = a +:+ b +:+ c.
Proof. induction a; simpl; [done|]. unfold String.append in *. simpl in *. by f_equal. Qed.

Lemma split_on_app sep s t :
  split_on sep (s +:+ String sep t) = split_on sep s ++ split_on sep t.
Proof.
  induction s as [|c s IH]; simpl; [by rewrite Ascii.eqb_refl|].
  destruct (Ascii.eqb c sep); [by rewrite IH|].
  rewrite IH. by destruct (split_on sep s) eqn:E; [apply split_on_nonempty in E|].
Qed.

Lemma join_app sep l1 l2 :
  l1 <> [] -> l2 <> [] -> join sep (l1 ++ l2) = join sep l1 +:+ sep +:+ join sep l2.
Proof.
  intros H1 H2. induction l1 as [|x [|y l1] IH]; [done|by destruct l2|].
  change (join sep ((x :: y :: l1) ++ l2)) with (x +:+ sep +:+ join sep ((y :: l1) ++ l2)).
  rewrite IH by done. change (join sep (x :: y :: l1)) with (x +:+ sep +:+ join sep (y :: l1)).
  by rewrite !string_app_assoc.
Qed.

Lemma time_sub_exact t u : int64_range (t - u) -> time_sub t u = t - u.
Proof. unfold int64_range, time_sub. lia. Qed.

#[export] Hint Resolve str_le_refl sort_strings_sorted : castor.

(** ** JSON values handed to [encoding/json] (the text itself is not modelled) *)

Inductive json : Type :=
| JNull
| JBool (b : bool)
| JNum (z : Z)
| JString (s : string)
| JList (l : list json)
| JObj (fields : list (string * json)).
