(* ===== verification/VProvider.v ===== *)
(** * The hypervisor seam: data types, capability matrix, tasks, registry

    server/internal/vprovider/{types,vprovider,capability,extended,task,registry}.go:
    the normalized entities every hypervisor provider exchanges with the API,
    the 64-bit capability matrix that gates each operation, the in-memory task
    tracker and the provider registry. *)
From S2P Require Import Prelude GoStd.

(** ** Sentinel errors (vprovider.go) *)

Inductive verr : Type :=
| ErrUnsupported
| ErrNotFound
| ErrConflict
| ErrInvalidSpec.

#[export] Instance verr_eq_dec : EqDecision verr.
Proof. solve_decision. Defined.

(** [err.Error()]. *)
Definition verr_Error (e : verr) : string :=
  match e with
  | ErrUnsupported => "vprovider: operation not supported by this hypervisor"
  | ErrNotFound => "vprovider: entity not found"
  | ErrConflict => "vprovider: operation conflicts with current state"
  | ErrInvalidSpec => "vprovider: invalid specification for this hypervisor"
  end.

(** ** String enumerations: Go string types with named constants *)

Definition KindKVM := "kvm".
Definition KindHyperV := "hyperv".
Definition KindXen := "xen".
Definition KindVMware := "vmware".

Definition PowerStart := "start".
Definition PowerStop := "stop".
Definition PowerReset := "reset".
Definition PowerSuspend := "suspend".
Definition PowerResume := "resume".

(** [PowerOp.Valid]. *)
Definition PowerOp_Valid (op : string) : bool :=
  bool_decide (op ∈ [PowerStart; PowerStop; PowerReset; PowerSuspend; PowerResume]).

Definition StateRunning := "running".
Definition StateStopped := "stopped".
Definition StateSuspended := "suspended".
Definition StatePaused := "paused".
Definition StateCreating := "creating".
Definition StateMigrating := "migrating".
Definition StateError := "error".
Definition StateUnknown := "unknown".

Definition FirmwareBIOS := "bios".
Definition FirmwareUEFI := "uefi".

Definition DiskVMDK := "vmdk".
Definition DiskQcow2 := "qcow2".
Definition DiskRaw := "raw".
Definition DiskVHDX := "vhdx".
Definition DiskVHD := "vhd".

(** [DiskFormat.Valid]. *)
Definition DiskFormat_Valid (f : string) : bool :=
  bool_decide (f ∈ [DiskVMDK; DiskQcow2; DiskRaw; DiskVHDX; DiskVHD]).

Definition NodeUp := "up".
Definition NodeDown := "down".
Definition NodeMaintenance := "maintenance".
Definition NodeDegraded := "degraded".
Definition NodeUnknown := "unknown".

(** ** Entities (types.go, extended.go) *)

Record Disk := mkDisk {
  disk_ID : string; disk_Label : string; disk_Format : string;
  disk_CapacityGB : f64; disk_StorageID : string; disk_Path : string }.

Record NIC := mkNIC {
  nic_ID : string; nic_MAC : string; nic_NetworkID : string;
  nic_Model : string; nic_Connected : bool }.

Record VM := mkVM {
  vm_ID : string; vm_Name : string; vm_Kind : string; vm_ProviderID : string;
  vm_HostID : string; vm_ClusterID : string;
  vm_State : string; vm_StateRaw : string;
  vm_VCPUs : Z; vm_MemoryMB : Z; vm_GuestOS : string; vm_Firmware : string;
  vm_Disks : list Disk; vm_NICs : list NIC; vm_IPAddresses : list string;
  vm_Labels : gmap string string; vm_SnapshotCount : Z;
  vm_CreatedAt : time; vm_Protected : bool }.

Record Host := mkHost {
  host_ID : string; host_Name : string; host_Kind : string; host_ProviderID : string;
  host_ClusterID : string; host_State : string; host_CPUCores : Z; host_CPUMHz : Z;
  host_MemoryMB : Z; host_MemUsedMB : Z; host_VMCount : Z; host_Version : string;
  host_Labels : gmap string string }.

Record Cluster := mkCluster {
  cl_ID : string; cl_Name : string; cl_Kind : string; cl_ProviderID : string;
  cl_HostIDs : list string; cl_HAEnabled : bool; cl_DRSEnabled : bool }.

Record StoragePool := mkStoragePool {
  sp_ID : string; sp_Name : string; sp_Kind : string; sp_ProviderID : string;
  sp_Type : string; sp_CapacityGB : f64; sp_FreeGB : f64;
  sp_HostIDs : list string; sp_Accessible : bool }.

Record Network := mkNetwork {
  net_ID : string; net_Name : string; net_Kind : string; net_ProviderID : string;
  net_Type : string; net_VLAN : Z }.

Record Snapshot := mkSnapshot {
  snap_ID : string; snap_VMID : string; snap_Name : string; snap_Description : string;
  snap_ParentID : string; snap_HasMemory : bool; snap_IsCurrent : bool;
  snap_CreatedAt : time }.

Record Volume := mkVolume {
  vol_ID : string; vol_Name : string; vol_StorageID : string; vol_Format : string;
  vol_CapacityGB : f64; vol_AllocGB : f64; vol_IsISO : bool; vol_Path : string }.

(** ** Specifications of the write operations *)

Record DiskQoS := mkDiskQoS {
  qos_ReadIOPS : Z; qos_WriteIOPS : Z; qos_TotalIOPS : Z;
  qos_ReadBytesSec : Z; qos_WriteBytesSec : Z; qos_TotalBytesSec : Z }.

Record DiskSpec := mkDiskSpec {
  dsk_CapacityGB : f64; dsk_Format : string; dsk_StorageID : string;
  dsk_SourcePath : string; dsk_QoS : option DiskQoS; dsk_Provisioning : string;
  dsk_Discard : bool }.

Record NICSpec := mkNICSpec {
  nics_NetworkID : string; nics_Model : string; nics_MAC : string }.

Record CPUSpec := mkCPUSpec {
  cpu_Sockets : Z; cpu_CoresPerSocket : Z; cpu_ThreadsPerCore : Z; cpu_Model : string }.

Record SysprepSpec := mkSysprep {
  sys_ComputerName : string; sys_AdminPassword : string; sys_ProductKey : string;
  sys_OrgName : string; sys_TimeZone : string; sys_Locale : string;
  sys_UnattendXMLExtra : string }.

Record CloudInitSpec := mkCloudInit {
  ci_Hostname : string; ci_Username : string; ci_Password : string;
  ci_SSHAuthorizedKeys : list string; ci_RunCmd : list string;
  ci_NetworkConfig : string; ci_UserDataExtra : string }.

(** A nil pointer is [None]; a nil map is the empty one. *)
Record VMSpec := mkVMSpec {
  vs_Name : string; vs_HostID : string; vs_ClusterID : string;
  vs_VCPUs : Z; vs_MemoryMB : Z; vs_GuestOS : string; vs_Firmware : string;
  vs_Disks : list DiskSpec; vs_NICs : list NICSpec; vs_Labels : gmap string string;
  vs_BootISO : string; vs_TPM : bool; vs_SecureBoot : bool;
  vs_CloudInit : option CloudInitSpec; vs_CPU : option CPUSpec;
  vs_IsTemplate : bool; vs_Sysprep : option SysprepSpec }.

(** A [VMSpec] literal that sets only the hardware fields. *)
Definition basic_VMSpec (name host : string) (vcpus mem : Z) (gos fw : string)
    (disks : list DiskSpec) : VMSpec :=
  mkVMSpec name host "" vcpus mem gos fw disks [] ∅ "" false false None None false None.

Record ResourceSpec := mkResource {
  res_CPUShares : Z; res_CPUReservationMHz : Z; res_CPULimitMHz : Z;
  res_MemoryShares : Z; res_MemoryReservationMB : Z; res_MemoryLimitMB : Z }.

Record VMReconfigureSpec := mkReconf {
  rs_VCPUs : option Z; rs_MemoryMB : option Z;
  rs_AddDisks : list DiskSpec; rs_AddNICs : list NICSpec;
  rs_Labels : gmap string string; rs_Resources : option ResourceSpec }.

Record CloneSpec := mkCloneSpec {
  cs_Name : string; cs_HostID : string; cs_StorageID : string;
  cs_Linked : bool; cs_PowerOn : bool }.

Record ListOptions := mkListOptions {
  lo_HostID : string; lo_ClusterID : string; lo_State : string;
  lo_Labels : gmap string string }.
Record DeleteOptions := mkDeleteOptions { do_Force : bool; do_DeleteDisks : bool }.
Record SnapshotOptions := mkSnapshotOptions {
  so_Name : string; so_Description : string; so_Memory : bool; so_Quiesce : bool }.
Record MigrateOptions := mkMigrateOptions { mo_Live : bool; mo_TargetStorage : string }.

Record ExportInfo := mkExportInfo {
  ei_Format : string; ei_SizeBytes : Z; ei_DiskCount : Z; ei_SourceVMID : string;
  ei_GuestOS : string; ei_Firmware : string }.

Record NodeState := mkNodeState {
  ns_NodeID : string; ns_State : string; ns_Message : string; ns_VMCount : Z;
  ns_UpdatedAt : time }.
Record Topology := mkTopology {
  top_ClusterID : string; top_Nodes : list NodeState; top_Placement : gmap string string }.

Record MetricSample := mkSample {
  ms_Timestamp : time; ms_CPUPercent : f64; ms_MemUsageBytes : Z; ms_MemLimitBytes : Z;
  ms_NetRxBytes : Z; ms_NetTxBytes : Z; ms_DiskReadBytes : Z; ms_DiskWriteBytes : Z }.
Record MetricWindow := mkWindow { mw_Since : time; mw_Until : time; mw_StepSecond : Z }.

Record HealthStatus := mkHealth {
  hs_Healthy : bool; hs_Message : string; hs_Version : string; hs_CheckedAt : time }.

Record NetworkSpec := mkNetworkSpec {
  nsp_Name : string; nsp_Type : string; nsp_Bridge : string; nsp_VLAN : Z;
  nsp_CIDR : string; nsp_HostID : string }.
Record VolumeSpec := mkVolumeSpec {
  vsp_Name : string; vsp_StorageID : string; vsp_CapacityGB : f64; vsp_Format : string }.

Definition ConsoleVNC := "vnc".
Definition ConsoleSPICE := "spice".
Definition ConsoleRDP := "rdp".
Record ConsoleEndpoint := mkConsole {
  ce_Kind : string; ce_Host : string; ce_Port : Z; ce_Password : string;
  ce_TLSPort : Z; ce_Path : string }.

Record GuestInfo := mkGuestInfo {
  gi_AgentConnected : bool; gi_Hostname : string; gi_OS : string;
  gi_IPAddresses : list string; gi_Note : string }.

Definition EventVMStateChanged := "vm.state".
Definition EventAlert := "alert".
(** [Event]; its [Data] is only filled in by live transports. *)
Record Event := mkEvent {
  ev_Kind : string; ev_ProviderID : string; ev_EntityID : string; ev_Message : string;
  ev_Timestamp : time }.

(** ** The capability matrix (capability.go, extended.go): a [uint64] bit set *)

Definition bit (n : Z) : Z := Z.shiftl 1 n.

Definition CapListHosts := bit 0.
Definition CapListVMs := bit 1.
Definition CapGetVM := bit 2.
Definition CapListClusters := bit 3.
Definition CapListStorage := bit 4.
Definition CapListNetworks := bit 5.
Definition CapCreateVM := bit 6.
Definition CapPowerStart := bit 7.
Definition CapPowerStop := bit 8.
Definition CapPowerReset := bit 9.
Definition CapPowerSuspend := bit 10.
Definition CapDeleteVM := bit 11.
Definition CapReconfigureVM := bit 12.
Definition CapSnapshot := bit 13.
Definition CapRevertSnapshot := bit 14.
Definition CapClone := bit 15.
Definition CapMigrate := bit 16.
Definition CapExport := bit 17.
Definition CapClusterTopology := bit 18.
Definition CapNodeState := bit 19.
Definition CapMetrics := bit 20.
Definition CapEvents := bit 21.

Definition CapConsole := bit 32.
Definition CapNetworkWrite := bit 33.
Definition CapStorageWrite := bit 34.
Definition CapHotPlug := bit 35.
Definition CapGuestAgent := bit 36.
Definition CapDiskResize := bit 37.
Definition CapMaintenance := bit 38.
Definition CapTemplates := bit 39.
Definition CapResourceControl := bit 40.
Definition CapDiskQoS := bit 41.
Definition CapStorageMigrate := bit 42.

(** [CapabilityMatrix.Has]. *)
Definition Has (c want : Z) : bool := Z.land c want =? want.

(** [capTokens] and [extTokens]. *)
Definition capTokens : list (Z * string) :=
  [(CapListHosts, "list_hosts"); (CapListVMs, "list_vms"); (CapGetVM, "get_vm");
   (CapListClusters, "list_clusters"); (CapListStorage, "list_storage");
   (CapListNetworks, "list_networks"); (CapCreateVM, "create_vm");
   (CapPowerStart, "power_start"); (CapPowerStop, "power_stop");
   (CapPowerReset, "power_reset"); (CapPowerSuspend, "power_suspend");
   (CapDeleteVM, "delete_vm"); (CapReconfigureVM, "reconfigure_vm");
   (CapSnapshot, "snapshot"); (CapRevertSnapshot, "revert_snapshot");
   (CapClone, "clone"); (CapMigrate, "migrate"); (CapExport, "export");
   (CapClusterTopology, "cluster_topology"); (CapNodeState, "node_state");
   (CapMetrics, "metrics"); (CapEvents, "events")].

Definition extTokens : list (Z * string) :=
  [(CapConsole, "console"); (CapNetworkWrite, "network_write");
   (CapStorageWrite, "storage_write"); (CapHotPlug, "hotplug");
   (CapGuestAgent, "guest_agent"); (CapDiskResize, "disk_resize");
   (CapMaintenance, "maintenance"); (CapTemplates, "templates");
   (CapResourceControl, "resource_control"); (CapDiskQoS, "disk_qos");
   (CapStorageMigrate, "storage_migrate")].

Definition active_tokens (tokens : list (Z * string)) (c : Z) : list string :=
  (filter (fun t => Has c t.1 = true) tokens).*2.

(** [CapabilityMatrix.ExtStrings] and [CapabilityMatrix.Strings]. *)
Definition ExtStrings (c : Z) : list string := active_tokens extTokens c.
Definition Strings (c : Z) : list string := active_tokens capTokens c ++ ExtStrings c.

(** [PowerOpCapability]. *)
Definition PowerOpCapability (op : string) : Z :=
  if bool_decide (op = PowerStart) then CapPowerStart
  else if bool_decide (op = PowerStop) then CapPowerStop
  else if bool_decide (op = PowerReset) then CapPowerReset
  else if bool_decide (op = PowerSuspend) || bool_decide (op = PowerResume) then CapPowerSuspend
  else 0.

(** ** Tasks (task.go) *)

Definition TaskRunning := "running".
Definition TaskSucceeded := "succeeded".
Definition TaskFailed := "failed".
Definition TaskCancelled := "cancelled".

Record Task := mkTask {
  task_ID : string; task_Kind : string; task_ProviderID : string; task_EntityID : string;
  task_State : string; task_Progress : Z; task_Message : string; task_Error : string;
  task_StartedAt : time; task_UpdatedAt : time; task_FinishedAt : time }.

(** [Task.Done]. *)
Definition Task_Done (t : Task) : bool :=
  bool_decide (task_State t ∈ [TaskSucceeded; TaskFailed; TaskCancelled]).

(** [TaskTracker]: the map of tracked tasks; each method returns a copy. *)
Abbreviation tracker := (gmap string Task) (only parsing).

Definition tt_Start (id kind providerID entityID : string) (now : time) (tt : tracker)
  : Task * tracker :=
  let t := mkTask id kind providerID entityID TaskRunning 0 "" "" now now 0 in
  (t, <[id := t]> tt).

Definition tt_Update (id : string) (progress : Z) (message : string) (now : time) (tt : tracker)
  : option Task * tracker :=
  match tt !! id with
  | None => (None, tt)
  | Some t =>
      let t' := mkTask (task_ID t) (task_Kind t) (task_ProviderID t) (task_EntityID t)
                  (task_State t) progress message (task_Error t)
                  (task_StartedAt t) now (task_FinishedAt t) in
      (Some t', <[id := t']> tt)
  end.

Definition tt_Finish (id state errMsg : string) (now : time) (tt : tracker)
  : option Task * tracker :=
  match tt !! id with
  | None => (None, tt)
  | Some t =>
      let progress := if bool_decide (state = TaskSucceeded) then 100 else task_Progress t in
      let t' := mkTask (task_ID t) (task_Kind t) (task_ProviderID t) (task_EntityID t)
                  state progress (task_Message t) errMsg
                  (task_StartedAt t) now now in
      (Some t', <[id := t']> tt)
  end.

Definition tt_Get (id : string) (tt : tracker) : option Task := tt !! id.

(** ** The registry (registry.go), keyed by [Provider.ID()] *)

Section Registry.
Context {P : Type} (ID : P -> string).

Definition Register (p : P) (r : gmap string P) : gmap string P := <[ID p := p]> r.
Definition Deregister (id : string) (r : gmap string P) : option P * gmap string P :=
  (r !! id, delete id r).
Definition Registry_Get (id : string) (r : gmap string P) : option P := r !! id.
Definition Registry_List (r : gmap string P) : list P := (map_to_list r).*2.
Definition Registry_Len (r : gmap string P) : nat := size r.
End Registry.

(** ** Capability facts *)

Lemma Has_bit c n : 0 <= n -> Has c (bit n) = Z.testbit c n.
Proof.
  intros Hn. unfold Has, bit. rewrite Z.shiftl_1_l.
  destruct (Z.testbit c n) eqn:E.
  - apply Z.eqb_eq, Z.bits_inj'. intros m Hm.
    rewrite Z.land_spec, Z.pow2_bits_eqb by done.
    destruct (Z.eqb_spec n m) as [->|]; [by rewrite E|]. by rewrite andb_false_r.
  - apply Z.eqb_neq. intros H. apply (f_equal (fun z => Z.testbit z n)) in H.
    rewrite Z.land_spec, E, Z.pow2_bits_true in H by done. done.
Qed.

Lemma Has_all c m want : Has c (Z.lor m want) = Has c m && Has c want.
Proof.
  unfold Has. apply eq_true_iff_eq. rewrite andb_true_iff, !Z.eqb_eq. split.
  - intros H. split; apply Z.bits_inj'; intros i Hi;
      apply (f_equal (fun z => Z.testbit z i)) in H; revert H;
      rewrite !Z.land_spec, !Z.lor_spec;
      by destruct (Z.testbit c i), (Z.testbit m i), (Z.testbit want i).
  - intros [H1 H2]. by rewrite Z.land_lor_distr_r, H1, H2.
Qed.

Lemma all_tokens_NoDup : NoDup ((capTokens ++ extTokens).*2).
Proof. apply (bool_decide_unpack _). by vm_compute. Qed.

Lemma all_tokens_bits : Forall (fun t => exists n, 0 <= n < 64 /\ t.1 = bit n) (capTokens ++ extTokens).
Proof.
  unfold capTokens, extTokens; simpl.
  repeat (constructor; [eexists; split; [|reflexivity]; lia|]). constructor.
Qed.

Lemma active_tokens_app l1 l2 c : active_tokens (l1 ++ l2) c = active_tokens l1 c ++ active_tokens l2 c.
Proof. unfold active_tokens. by rewrite filter_app, fmap_app. Qed.

Lemma elem_of_active_tokens l c b tok :
  NoDup l.*2 -> (b, tok) ∈ l -> tok ∈ active_tokens l c <-> Has c b = true.
Proof.
  intros Hnd Hin. unfold active_tokens. rewrite list_elem_of_fmap. split.
  - intros ([b' t] & Ht & [Hh Hin']%list_elem_of_filter). simpl in *. subst t.
    assert (b' = b) as ->; [|done].
    clear Hh. revert Hin Hin'. induction l as [|[b0 t0] l IH]; [by intros ?%elem_of_nil|].
    apply NoDup_cons in Hnd as [Hni Hnd].
    intros [E1|H1]%elem_of_cons [E2|H2]%elem_of_cons; simplify_eq; auto.
    + exfalso. apply Hni. apply list_elem_of_fmap. by exists (b', t0).
    + exfalso. apply Hni. apply list_elem_of_fmap. by exists (b, t0).
  - intros Hh. exists (b, tok). split; [done|]. by apply list_elem_of_filter.
Qed.

(** ** Checks the drivers share *)

(** A quantity that is given and is not positive. *)
Definition not_positive (v : option Z) : bool :=
  match v with Some v => v <=? 0 | None => false end.

(** A name that is empty once trimmed. *)
Definition blank (s : string) : bool := bool_decide (trim_space s = "").

(** ** What the drivers share

    Each package has its own copy.  An error that crosses the seam to a transport
    is a sentinel, one wrapped in a message, or any other error. *)

Inductive kerr : Type :=
| Sentinel (e : verr)
| Wrapped (e : verr) (msg : string)
| Foreign (msg : string).

Definition kerr_Error (e : kerr) : string :=
  match e with
  | Sentinel e => verr_Error e
  | Wrapped e msg => verr_Error e +:+ ": " +:+ msg
  | Foreign msg => msg
  end.

Definition bytesPerGB : Z := Z.shiftl 1 30.
Definition gib_of_bytes (n : Z) : f64 := f64_div (f64_of_Z n) (f64_of_Z bytesPerGB).

Definition labelsMatch (have want : gmap string string) : bool :=
  forallb (fun kv => bool_decide (default "" (have !! kv.1) = kv.2)) (map_to_list want).

(** The filter of [ListVMs]. *)
Definition vm_listed (opts : ListOptions) (v : VM) : bool :=
  (bool_decide (lo_HostID opts = "") || bool_decide (vm_HostID v = lo_HostID opts))
  && (bool_decide (lo_ClusterID opts = "") || bool_decide (vm_ClusterID v = lo_ClusterID opts))
  && (bool_decide (lo_State opts = "") || bool_decide (vm_State v = lo_State opts))
  && labelsMatch (vm_Labels v) (lo_Labels opts).
