(* ===== verification/Sim.v ===== *)
(** * The simulator provider

    server/internal/vprovider/sim/sim.go: the in-memory [HypervisorProvider]
    that serves as the reference implementation of the provider contract.  One
    definition per method, over an explicit provider state; a method that reads
    the clock takes the readings as arguments, in the order it takes them. *)
From S2P Require Import Prelude GoStd VProvider.

(** ** State *)

Record sim := mkSim {
  sim_id : string; sim_kind : string; sim_caps : Z;
  sim_hosts : gmap string Host;
  sim_vms : gmap string VM;
  sim_clusters : gmap string Cluster;
  sim_storage : gmap string StoragePool;
  sim_networks : gmap string Network;
  sim_snapshots : gmap string (list Snapshot);
  sim_volumes : gmap string (list Volume);
  sim_tracker : gmap string Task;
  sim_seq : Z;
  sim_closed : bool }.

(** Field assignments. *)
Definition set_caps (c : Z) (p : sim) : sim :=
  mkSim (sim_id p) (sim_kind p) c (sim_hosts p) (sim_vms p) (sim_clusters p) (sim_storage p)
    (sim_networks p) (sim_snapshots p) (sim_volumes p) (sim_tracker p) (sim_seq p) (sim_closed p).
Definition set_kind (k : string) (p : sim) : sim :=
  mkSim (sim_id p) k (sim_caps p) (sim_hosts p) (sim_vms p) (sim_clusters p) (sim_storage p)
    (sim_networks p) (sim_snapshots p) (sim_volumes p) (sim_tracker p) (sim_seq p) (sim_closed p).
Definition set_vms (v : gmap string VM) (p : sim) : sim :=
  mkSim (sim_id p) (sim_kind p) (sim_caps p) (sim_hosts p) v (sim_clusters p) (sim_storage p)
    (sim_networks p) (sim_snapshots p) (sim_volumes p) (sim_tracker p) (sim_seq p) (sim_closed p).
Definition set_networks (n : gmap string Network) (p : sim) : sim :=
  mkSim (sim_id p) (sim_kind p) (sim_caps p) (sim_hosts p) (sim_vms p) (sim_clusters p)
    (sim_storage p) n (sim_snapshots p) (sim_volumes p) (sim_tracker p) (sim_seq p) (sim_closed p).
Definition set_snapshots (s : gmap string (list Snapshot)) (p : sim) : sim :=
  mkSim (sim_id p) (sim_kind p) (sim_caps p) (sim_hosts p) (sim_vms p) (sim_clusters p)
    (sim_storage p) (sim_networks p) s (sim_volumes p) (sim_tracker p) (sim_seq p) (sim_closed p).
Definition set_volumes (v : gmap string (list Volume)) (p : sim) : sim :=
  mkSim (sim_id p) (sim_kind p) (sim_caps p) (sim_hosts p) (sim_vms p) (sim_clusters p)
    (sim_storage p) (sim_networks p) (sim_snapshots p) v (sim_tracker p) (sim_seq p) (sim_closed p).
Definition set_tracker (t : gmap string Task) (p : sim) : sim :=
  mkSim (sim_id p) (sim_kind p) (sim_caps p) (sim_hosts p) (sim_vms p) (sim_clusters p)
    (sim_storage p) (sim_networks p) (sim_snapshots p) (sim_volumes p) t (sim_seq p) (sim_closed p).
Definition set_seq (n : Z) (p : sim) : sim :=
  mkSim (sim_id p) (sim_kind p) (sim_caps p) (sim_hosts p) (sim_vms p) (sim_clusters p)
    (sim_storage p) (sim_networks p) (sim_snapshots p) (sim_volumes p) (sim_tracker p) n (sim_closed p).
Definition set_closed (b : bool) (p : sim) : sim :=
  mkSim (sim_id p) (sim_kind p) (sim_caps p) (sim_hosts p) (sim_vms p) (sim_clusters p)
    (sim_storage p) (sim_networks p) (sim_snapshots p) (sim_volumes p) (sim_tracker p) (sim_seq p) b.

(** Assignments through the [*VM] pointers the provider keeps. *)
Definition vm_set_state (st : string) (v : VM) : VM :=
  mkVM (vm_ID v) (vm_Name v) (vm_Kind v) (vm_ProviderID v) (vm_HostID v) (vm_ClusterID v)
    st st (vm_VCPUs v) (vm_MemoryMB v) (vm_GuestOS v) (vm_Firmware v) (vm_Disks v) (vm_NICs v)
    (vm_IPAddresses v) (vm_Labels v) (vm_SnapshotCount v) (vm_CreatedAt v) (vm_Protected v).
Definition vm_set_hw (vcpus mem : Z) (v : VM) : VM :=
  mkVM (vm_ID v) (vm_Name v) (vm_Kind v) (vm_ProviderID v) (vm_HostID v) (vm_ClusterID v)
    (vm_State v) (vm_StateRaw v) vcpus mem (vm_GuestOS v) (vm_Firmware v) (vm_Disks v) (vm_NICs v)
    (vm_IPAddresses v) (vm_Labels v) (vm_SnapshotCount v) (vm_CreatedAt v) (vm_Protected v).
Definition vm_set_host (h : string) (v : VM) : VM :=
  mkVM (vm_ID v) (vm_Name v) (vm_Kind v) (vm_ProviderID v) h (vm_ClusterID v)
    (vm_State v) (vm_StateRaw v) (vm_VCPUs v) (vm_MemoryMB v) (vm_GuestOS v) (vm_Firmware v)
    (vm_Disks v) (vm_NICs v) (vm_IPAddresses v) (vm_Labels v) (vm_SnapshotCount v)
    (vm_CreatedAt v) (vm_Protected v).
Definition vm_set_snapcount (n : Z) (v : VM) : VM :=
  mkVM (vm_ID v) (vm_Name v) (vm_Kind v) (vm_ProviderID v) (vm_HostID v) (vm_ClusterID v)
    (vm_State v) (vm_StateRaw v) (vm_VCPUs v) (vm_MemoryMB v) (vm_GuestOS v) (vm_Firmware v)
    (vm_Disks v) (vm_NICs v) (vm_IPAddresses v) (vm_Labels v) n (vm_CreatedAt v) (vm_Protected v).
Definition snap_set_current (b : bool) (s : Snapshot) : Snapshot :=
  mkSnapshot (snap_ID s) (snap_VMID s) (snap_Name s) (snap_Description s) (snap_ParentID s)
    (snap_HasMemory s) b (snap_CreatedAt s).

(** ** Construction *)

Definition FullCaps : Z :=
  foldr Z.lor 0
    [CapListHosts; CapListVMs; CapGetVM; CapListClusters; CapListStorage; CapListNetworks;
     CapCreateVM; CapPowerStart; CapPowerStop; CapPowerReset; CapPowerSuspend; CapDeleteVM;
     CapReconfigureVM; CapSnapshot; CapRevertSnapshot; CapClone; CapMigrate; CapExport;
     CapClusterTopology; CapNodeState; CapMetrics; CapEvents;
     CapConsole; CapNetworkWrite; CapStorageWrite].

Definition WithCaps (c : Z) : sim -> sim := set_caps c.
Definition WithKind (k : string) : sim -> sim := set_kind k.

(** [seed]: one cluster, two hosts, three VMs, a datastore with two volumes, a
    network.  The counter behind [nextID] is left at 0. *)
Definition seed_vm (p : sim) (i : Z) (st : string) : string * VM :=
  let id := "vm-" +:+ itoa (i + 1) in
  let host := if i =? 2 then "host-2" else "host-1" in
  (id, mkVM id ("sim-vm-" +:+ itoa (i + 1)) (sim_kind p) (sim_id p) host "cluster-1" st st
         2 4096 "linux" FirmwareUEFI
         [mkDisk (id +:+ "-d0") "" DiskQcow2 (f64_of_Z 40) "ds-1" ""]
         [mkNIC (id +:+ "-n0") ("52:54:00:00:00:0" +:+ itoa i) "net-1" "" true]
         [] ∅ 0 ((1700000000 + unix_epoch) * Second) false).

Definition seed (p : sim) : sim :=
  let kind := sim_kind p in
  let id := sim_id p in
  let host hid name n :=
    mkHost hid name kind id "cluster-1" NodeUp 16 0 65536 0 n "sim-1.0" ∅ in
  mkSim id kind (sim_caps p)
    (<["host-2" := host "host-2" "sim-host-2" 1]> (<["host-1" := host "host-1" "sim-host-1" 2]> (sim_hosts p)))
    (foldl (fun m kv => <[kv.1 := kv.2]> m) (sim_vms p)
       [seed_vm p 0 StateRunning; seed_vm p 1 StateRunning; seed_vm p 2 StateStopped])
    (<["cluster-1" := mkCluster "cluster-1" "sim-cluster" kind id ["host-1"; "host-2"] true false]> (sim_clusters p))
    (<["ds-1" := mkStoragePool "ds-1" "sim-datastore" kind id "nfs" (f64_of_Z 4096) (f64_of_Z 3000)
                   ["host-1"; "host-2"] true]> (sim_storage p))
    (<["net-1" := mkNetwork "net-1" "sim-vmnet" kind id "bridge" 0]> (sim_networks p))
    (sim_snapshots p)
    (<["ds-1" := [mkVolume "vol-1" "vm-1-disk0.qcow2" "ds-1" DiskQcow2 (f64_of_Z 40) (f64_of_Z 8) false "";
                  mkVolume "iso-1" "ubuntu-24.04.iso" "ds-1" DiskRaw (f64_of_Z 2) (f64_of_Z 2) true ""]]> (sim_volumes p))
    (sim_tracker p) (sim_seq p) (sim_closed p).

Definition New (id : string) (opts : list (sim -> sim)) : sim :=
  seed (foldl (fun p o => o p)
          (mkSim id KindKVM FullCaps ∅ ∅ ∅ ∅ ∅ ∅ ∅ ∅ 0 false) opts).

(** [nextID]: [atomic.AddInt64] on the counter. *)
Definition nextID (prefix : string) (p : sim) : string * sim :=
  let seq := wrap64 (sim_seq p + 1) in
  (prefix +:+ "-" +:+ itoa seq, set_seq seq p).

(** The common tail of every write: a task started and finished at once. *)
Definition run_task (kind entity : string) (now : time) (p : sim) : option Task * sim :=
  let '(tid, p) := nextID "task" p in
  let '(t, tr) := tt_Start tid kind (sim_id p) entity now (sim_tracker p) in
  let '(t', tr) := tt_Finish (task_ID t) TaskSucceeded "" now tr in
  (t', set_tracker tr p).

(** A method returns its result and the new state; [Ok None] is a nil task. *)
Definition op (A : Type) : Type := sim -> result verr A * sim.

Definition done_with (kind entity : string) (now : time) : op (option Task) :=
  fun p => let '(t, p) := run_task kind entity now p in (Ok t, p).

(** ** Identity, health, inventory *)

Definition HealthCheck (now : time) (p : sim) : HealthStatus :=
  if sim_closed p then mkHealth false "closed" "" now
  else mkHealth true "" "sim-1.0" now.

Definition Close (p : sim) : sim := set_closed true p.

(** A listing ranges over a Go map: its order is unspecified, and the model
    fixes one ([map_to_list]). *)
Definition listing {A} (cap : Z) (m : gmap string A) (p : sim) : result verr (list A) :=
  if negb (Has (sim_caps p) cap) then Err ErrUnsupported else Ok (map_to_list m).*2.

Definition ListHosts (p : sim) : result verr (list Host) := listing CapListHosts (sim_hosts p) p.
Definition ListClusters (p : sim) : result verr (list Cluster) :=
  listing CapListClusters (sim_clusters p) p.
Definition ListStorage (p : sim) : result verr (list StoragePool) :=
  listing CapListStorage (sim_storage p) p.
Definition ListNetworks (p : sim) : result verr (list Network) :=
  listing CapListNetworks (sim_networks p) p.

(** The filter of [ListVMs]; [opts.Labels] is not consulted. *)
Definition vm_matches (opts : ListOptions) (v : VM) : bool :=
  (bool_decide (lo_HostID opts = "") || bool_decide (vm_HostID v = lo_HostID opts))
  && (bool_decide (lo_ClusterID opts = "") || bool_decide (vm_ClusterID v = lo_ClusterID opts))
  && (bool_decide (lo_State opts = "") || bool_decide (vm_State v = lo_State opts)).

Definition ListVMs (opts : ListOptions) (p : sim) : result verr (list VM) :=
  if negb (Has (sim_caps p) CapListVMs) then Err ErrUnsupported
  else Ok (filter (fun v => vm_matches opts v = true) (map_to_list (sim_vms p)).*2).

(** [VMDetail]: the normalized header and the native object as JSON. *)
Definition GetVM (id : string) (p : sim) : result verr (VM * json) :=
  if negb (Has (sim_caps p) CapGetVM) then Err ErrUnsupported
  else match sim_vms p !! id with
       | None => Err ErrNotFound
       | Some v => Ok (v, JObj [("id", JString id); ("simNative", JBool true);
                                ("state", JString (vm_State v))])
       end.

(** ** Lifecycle *)

Definition CreateVM (spec : VMSpec) (now : time) : op (option Task) := fun p =>
  if negb (Has (sim_caps p) CapCreateVM) then (Err ErrUnsupported, p)
  else if bool_decide (trim_space (vs_Name spec) = "") || (vs_VCPUs spec <=? 0)
          || (vs_MemoryMB spec <=? 0) then (Err ErrInvalidSpec, p)
  else
    let '(id, p) := nextID "vm" p in
    let v := mkVM id (vs_Name spec) (sim_kind p) (sim_id p) (vs_HostID spec) (vs_ClusterID spec)
               StateStopped "stopped" (vs_VCPUs spec) (vs_MemoryMB spec) (vs_GuestOS spec)
               (vs_Firmware spec)
               (imap (fun i d => mkDisk (id +:+ "-d" +:+ itoa (Z.of_nat i)) "" (dsk_Format d)
                                   (dsk_CapacityGB d) (dsk_StorageID d) "") (vs_Disks spec))
               (imap (fun i n => mkNIC (id +:+ "-n" +:+ itoa (Z.of_nat i)) (nics_MAC n)
                                   (nics_NetworkID n) (nics_Model n) true) (vs_NICs spec))
               [] (vs_Labels spec) 0 now false in
    done_with "createVM" id now (set_vms (<[id := v]> (sim_vms p)) p).

Definition power_target (op : string) (v : VM) : VM :=
  if bool_decide (op = PowerStart) || bool_decide (op = PowerResume) then vm_set_state StateRunning v
  else if bool_decide (op = PowerStop) then vm_set_state StateStopped v
  else if bool_decide (op = PowerReset) then vm_set_state StateRunning v
  else if bool_decide (op = PowerSuspend) then vm_set_state StateSuspended v
  else vm_set_state (vm_State v) v.

Definition PowerOp (vmID pop : string) (now : time) : op (option Task) := fun p =>
  if negb (PowerOp_Valid pop) then (Err ErrInvalidSpec, p)
  else if negb (Has (sim_caps p) (PowerOpCapability pop)) then (Err ErrUnsupported, p)
  else match sim_vms p !! vmID with
       | None => (Err ErrNotFound, p)
       | Some v =>
           done_with "powerOp" vmID now (set_vms (<[vmID := power_target pop v]> (sim_vms p)) p)
       end.

Definition DeleteVM (vmID : string) (opts : DeleteOptions) (now : time) : op (option Task) := fun p =>
  if negb (Has (sim_caps p) CapDeleteVM) then (Err ErrUnsupported, p)
  else match sim_vms p !! vmID with
       | None => (Err ErrNotFound, p)
       | Some v =>
           if vm_Protected v then (Err ErrConflict, p)
           else if bool_decide (vm_State v = StateRunning) && negb (do_Force opts)
                then (Err ErrConflict, p)
           else
             let p := set_vms (delete vmID (sim_vms p)) p in
             let p := set_snapshots (delete vmID (sim_snapshots p)) p in
             done_with "deleteVM" vmID now p
       end.

Definition ReconfigureVM (vmID : string) (spec : VMReconfigureSpec) (now : time)
  : op (option Task) := fun p =>
  if negb (Has (sim_caps p) CapReconfigureVM) then (Err ErrUnsupported, p)
  else match sim_vms p !! vmID with
       | None => (Err ErrNotFound, p)
       | Some v =>
           let v := vm_set_hw (default (vm_VCPUs v) (rs_VCPUs spec))
                              (default (vm_MemoryMB v) (rs_MemoryMB spec)) v in
           done_with "reconfigureVM" vmID now (set_vms (<[vmID := v]> (sim_vms p)) p)
       end.

(** ** Snapshots and clones *)

Definition vm_snapshots (vmID : string) (p : sim) : list Snapshot :=
  default [] (sim_snapshots p !! vmID).

Definition CreateSnapshot (vmID : string) (opts : SnapshotOptions) (created now : time)
  : op (option Task) := fun p =>
  if negb (Has (sim_caps p) CapSnapshot) then (Err ErrUnsupported, p)
  else match sim_vms p !! vmID with
       | None => (Err ErrNotFound, p)
       | Some v =>
           let '(sid, p) := nextID "snap" p in
           let snap := mkSnapshot sid vmID (so_Name opts) (so_Description opts) ""
                         (so_Memory opts) true created in
           let snaps := (snap_set_current false <$> vm_snapshots vmID p) ++ [snap] in
           let p := set_snapshots (<[vmID := snaps]> (sim_snapshots p)) p in
           let v := vm_set_snapcount (Z.of_nat (length snaps)) v in
           done_with "snapshot" vmID now (set_vms (<[vmID := v]> (sim_vms p)) p)
       end.

(** The loop assigns [IsCurrent] to every snapshot before it is known whether
    [snapID] exists. *)
Definition RevertSnapshot (vmID snapID : string) (now : time) : op (option Task) := fun p =>
  if negb (Has (sim_caps p) CapRevertSnapshot) then (Err ErrUnsupported, p)
  else match sim_snapshots p !! vmID with
       | None => (Err ErrNotFound, p)
       | Some snaps =>
           let mark s := snap_set_current (bool_decide (snap_ID s = snapID)) s in
           let found := existsb (fun s => bool_decide (snap_ID s = snapID)) snaps in
           let p := set_snapshots (<[vmID := mark <$> snaps]> (sim_snapshots p)) p in
           if negb found then (Err ErrNotFound, p)
           else done_with "revertSnapshot" vmID now p
       end.

Definition ListSnapshots (vmID : string) (p : sim) : result verr (list Snapshot) :=
  if negb (Has (sim_caps p) CapSnapshot) then Err ErrUnsupported
  else match sim_vms p !! vmID with
       | None => Err ErrNotFound
       | Some _ => Ok (vm_snapshots vmID p)
       end.

Definition Clone (vmID : string) (spec : CloneSpec) (now : time) : op (option Task) := fun p =>
  if negb (Has (sim_caps p) CapClone) then (Err ErrUnsupported, p)
  else match sim_vms p !! vmID with
       | None => (Err ErrNotFound, p)
       | Some src =>
           let '(id, p) := nextID "vm" p in
           let st := if cs_PowerOn spec then StateRunning else StateStopped in
           let clone := mkVM id (cs_Name spec) (vm_Kind src) (vm_ProviderID src) (vm_HostID src)
                          (vm_ClusterID src) st st (vm_VCPUs src) (vm_MemoryMB src) (vm_GuestOS src)
                          (vm_Firmware src) (vm_Disks src) (vm_NICs src) (vm_IPAddresses src)
                          (vm_Labels src) 0 (vm_CreatedAt src) (vm_Protected src) in
           done_with "clone" id now (set_vms (<[id := clone]> (sim_vms p)) p)
       end.

(** ** Migration and export *)

Definition MigrateVM (vmID targetHost : string) (opts : MigrateOptions) (now : time)
  : op (option Task) := fun p =>
  if negb (Has (sim_caps p) CapMigrate) then (Err ErrUnsupported, p)
  else match sim_vms p !! vmID with
       | None => (Err ErrNotFound, p)
       | Some v =>
           match sim_hosts p !! targetHost with
           | None => (Err ErrInvalidSpec, p)
           | Some _ =>
               done_with "migrate" vmID now
                 (set_vms (<[vmID := vm_set_host targetHost v]> (sim_vms p)) p)
           end
       end.

(** The export stream is the list of bytes the reader yields. *)
Definition ExportVM (vmID format : string) (p : sim) : result verr (string * option ExportInfo) :=
  if negb (Has (sim_caps p) CapExport) then Err ErrUnsupported
  else if negb (DiskFormat_Valid format) then Err ErrInvalidSpec
  else match sim_vms p !! vmID with
       | None => Err ErrNotFound
       | Some v =>
           let payload := "SIMDISK:" +:+ sim_id p +:+ ":" +:+ vmID +:+ ":" +:+ format
                            +:+ bytes [10%N] in
           Ok (payload, Some (mkExportInfo format (Z.of_nat (String.length payload))
                 (Z.of_nat (length (vm_Disks v))) vmID (vm_GuestOS v) (vm_Firmware v)))
       end.

(** ** Cluster, metrics, events *)

Definition zero_host : Host := mkHost "" "" "" "" "" "" 0 0 0 0 0 "" ∅.

Definition GetClusterTopology (clusterID : string) (now : nat -> time) (p : sim)
  : result verr Topology :=
  if negb (Has (sim_caps p) CapClusterTopology) then Err ErrUnsupported
  else match sim_clusters p !! clusterID with
       | None => Err ErrNotFound
       | Some cl =>
           Ok (mkTopology clusterID
                 (imap (fun i hid => let h := default zero_host (sim_hosts p !! hid) in
                          mkNodeState hid (host_State h) "" (host_VMCount h) (now i)) (cl_HostIDs cl))
                 (vm_HostID <$> filter (fun kv => vm_ClusterID kv.2 = clusterID) (sim_vms p)))
       end.

Definition GetNodeState (nodeID : string) (now : time) (p : sim) : result verr NodeState :=
  if negb (Has (sim_caps p) CapNodeState) then Err ErrUnsupported
  else match sim_hosts p !! nodeID with
       | None => Err ErrNotFound
       | Some h => Ok (mkNodeState nodeID (host_State h) "" (host_VMCount h) now)
       end.

Definition GetMetrics (entityID : string) (window : MetricWindow) (now : time) (p : sim)
  : result verr (string * list MetricSample) :=
  if negb (Has (sim_caps p) CapMetrics) then Err ErrUnsupported
  else if negb (bool_decide (is_Some (sim_vms p !! entityID))
                || bool_decide (is_Some (sim_hosts p !! entityID))) then Err ErrNotFound
  else
    let base := if is_zero_time (mw_Since window) then now - 5 * Minute else mw_Since window in
    let step := if mw_StepSecond window <=? 0 then 30 else mw_StepSecond window in
    let sample i :=
      mkSample (base + dur_of (wrap64 (i * step)) Second) (f64_of_Z (10 + i * 5))
        (Z.shiftl 1 30 + Z.shiftl i 20) (Z.shiftl 4 30) (i * 1000) (i * 800) 0 0 in
    Ok (entityID, sample <$> [0; 1; 2; 3; 4]).

(** ** Console, network and storage extensions *)

Definition Console (vmID : string) (p : sim) : result verr ConsoleEndpoint :=
  if negb (Has (sim_caps p) CapConsole) then Err ErrUnsupported
  else match sim_vms p !! vmID with
       | None => Err ErrNotFound
       | Some _ => Ok (mkConsole ConsoleVNC "127.0.0.1" 5901 "sim-ticket" 0 "")
       end.

Definition CreateNetwork (spec : NetworkSpec) (now : time) : op (option Task) := fun p =>
  if negb (Has (sim_caps p) CapNetworkWrite) then (Err ErrUnsupported, p)
  else if bool_decide (trim_space (nsp_Name spec) = "") then (Err ErrInvalidSpec, p)
  else
    let '(id, p) := nextID "net" p in
    let n := mkNetwork id (nsp_Name spec) (sim_kind p) (sim_id p) (nsp_Type spec) (nsp_VLAN spec) in
    done_with "createNetwork" id now (set_networks (<[id := n]> (sim_networks p)) p).

Definition DeleteNetwork (networkID : string) (now : time) : op (option Task) := fun p =>
  if negb (Has (sim_caps p) CapNetworkWrite) then (Err ErrUnsupported, p)
  else match sim_networks p !! networkID with
       | None => (Err ErrNotFound, p)
       | Some _ =>
           done_with "deleteNetwork" networkID now
             (set_networks (delete networkID (sim_networks p)) p)
       end.

Definition pool_volumes (storageID : string) (p : sim) : list Volume :=
  default [] (sim_volumes p !! storageID).

Definition ListVolumes (storageID : string) (p : sim) : result verr (list Volume) :=
  if negb (Has (sim_caps p) CapListStorage) then Err ErrUnsupported
  else match sim_storage p !! storageID with
       | None => Err ErrNotFound
       | Some _ => Ok (pool_volumes storageID p)
       end.

Definition CreateVolume (spec : VolumeSpec) (now : time) : op (option Task) := fun p =>
  if negb (Has (sim_caps p) CapStorageWrite) then (Err ErrUnsupported, p)
  else if bool_decide (vsp_Name spec = "") || f64_le (vsp_CapacityGB spec) f64_zero
       then (Err ErrInvalidSpec, p)
  else match sim_storage p !! vsp_StorageID spec with
       | None => (Err ErrNotFound, p)
       | Some _ =>
           let '(id, p) := nextID "vol" p in
           let vol := mkVolume id (vsp_Name spec) (vsp_StorageID spec) (vsp_Format spec)
                        (vsp_CapacityGB spec) f64_zero false "" in
           let vols := pool_volumes (vsp_StorageID spec) p ++ [vol] in
           done_with "createVolume" id now
             (set_volumes (<[vsp_StorageID spec := vols]> (sim_volumes p)) p)
       end.

(** The first volume with the id is cut out of the pool's slice. *)
Definition DeleteVolume (storageID volumeID : string) (now : time) : op (option Task) := fun p =>
  if negb (Has (sim_caps p) CapStorageWrite) then (Err ErrUnsupported, p)
  else
    let vols := pool_volumes storageID p in
    match list_find (fun v => vol_ID v = volumeID) vols with
    | None => (Err ErrNotFound, p)
    | Some (found, _) =>
        done_with "deleteVolume" volumeID now
          (set_volumes (<[storageID := take found vols ++ drop (S found) vols]> (sim_volumes p)) p)
    end.

(** [UploadISO]; [n] is the number of bytes drained from the reader. *)
Definition UploadISO (storageID name : string) (size n : Z) : op Volume := fun p =>
  if negb (Has (sim_caps p) CapStorageWrite) then (Err ErrUnsupported, p)
  else if bool_decide (name = "") then (Err ErrInvalidSpec, p)
  else
    let gib := f64_of_Z (Z.shiftl 1 30) in
    let gb := f64_div (f64_of_Z n) gib in
    let gb := if f64_le gb f64_zero then f64_div (f64_of_Z size) gib else gb in
    match sim_storage p !! storageID with
    | None => (Err ErrNotFound, p)
    | Some _ =>
        let '(id, p) := nextID "iso" p in
        let vol := mkVolume id name storageID DiskRaw gb gb true "" in
        (Ok vol, set_volumes (<[storageID := pool_volumes storageID p ++ [vol]]> (sim_volumes p)) p)
    end.

(** ** Events

    [StreamEvents]: the first [n] heartbeats of the ticker. *)
Definition StreamEvents (n : nat) (now : nat -> time) (p : sim) : result verr (list Event) :=
  if negb (Has (sim_caps p) CapEvents) then Err ErrUnsupported
  else Ok ((fun i => mkEvent EventAlert (sim_id p) "" ("sim heartbeat " +:+ itoa (Z.of_nat i)) (now i)) <$> seq 0 n).
