(* ===== verification/SimFacts.v ===== *)
(** * The simulator: operations as labelled steps, and what they guarantee

    The write methods of [Sim] are gathered in one type of operations, so that
    the contract of the provider (capability gating, atomicity of failures) and
    its invariants are statements about every operation and about every
    sequence of operations. *)
From S2P Require Import Prelude GoStd VProvider Sim.

(** ** Every write method, as a label *)

Inductive sim_op : Type :=
| OpCreateVM (spec : VMSpec)
| OpPower (vmID pop : string)
| OpDeleteVM (vmID : string) (opts : DeleteOptions)
| OpReconfigure (vmID : string) (spec : VMReconfigureSpec)
| OpSnapshot (vmID : string) (opts : SnapshotOptions)
| OpRevert (vmID snapID : string)
| OpClone (vmID : string) (spec : CloneSpec)
| OpMigrate (vmID host : string) (opts : MigrateOptions)
| OpCreateNetwork (spec : NetworkSpec)
| OpDeleteNetwork (networkID : string)
| OpCreateVolume (spec : VolumeSpec)
| OpDeleteVolume (storageID volumeID : string)
| OpUploadISO (storageID name : string) (size n : Z).

(** What a method returns besides its error: a task, or the uploaded volume. *)
Inductive sim_out : Type :=
| OutTask (t : option Task)
| OutVolume (v : Volume).

Definition lift_out {A} (f : A -> sim_out) (r : result verr A * sim) : result verr sim_out * sim :=
  (match r.1 with Ok a => Ok (f a) | Err e => Err e end, r.2).

Definition sim_exec (now : time) (o : sim_op) (p : sim) : result verr sim_out * sim :=
  match o with
  | OpCreateVM spec => lift_out OutTask (CreateVM spec now p)
  | OpPower vm pop => lift_out OutTask (PowerOp vm pop now p)
  | OpDeleteVM vm opts => lift_out OutTask (DeleteVM vm opts now p)
  | OpReconfigure vm spec => lift_out OutTask (ReconfigureVM vm spec now p)
  | OpSnapshot vm opts => lift_out OutTask (CreateSnapshot vm opts now now p)
  | OpRevert vm snap => lift_out OutTask (RevertSnapshot vm snap now p)
  | OpClone vm spec => lift_out OutTask (Clone vm spec now p)
  | OpMigrate vm host opts => lift_out OutTask (MigrateVM vm host opts now p)
  | OpCreateNetwork spec => lift_out OutTask (CreateNetwork spec now p)
  | OpDeleteNetwork n => lift_out OutTask (DeleteNetwork n now p)
  | OpCreateVolume spec => lift_out OutTask (CreateVolume spec now p)
  | OpDeleteVolume st v => lift_out OutTask (DeleteVolume st v now p)
  | OpUploadISO st name size n => lift_out OutVolume (UploadISO st name size n p)
  end.

(** The capability bit each method checks. *)
Definition required_cap (o : sim_op) : Z :=
  match o with
  | OpCreateVM _ => CapCreateVM
  | OpPower _ pop => PowerOpCapability pop
  | OpDeleteVM _ _ => CapDeleteVM
  | OpReconfigure _ _ => CapReconfigureVM
  | OpSnapshot _ _ => CapSnapshot
  | OpRevert _ _ => CapRevertSnapshot
  | OpClone _ _ => CapClone
  | OpMigrate _ _ _ => CapMigrate
  | OpCreateNetwork _ | OpDeleteNetwork _ => CapNetworkWrite
  | OpCreateVolume _ | OpDeleteVolume _ _ | OpUploadISO _ _ _ _ => CapStorageWrite
  end.

(** A power operation must be one of the five known ones. *)
Definition op_known (o : sim_op) : bool :=
  match o with OpPower _ pop => PowerOp_Valid pop | _ => true end.

(** A run: operations with the clock reading each one sees. *)
Definition sim_run (l : list (time * sim_op)) (p : sim) : sim :=
  foldl (fun p o => (sim_exec o.1 o.2 p).2) p l.

(** ** The tail every write shares *)

Lemma run_task_eq kind entity now p :
  let seq := wrap64 (sim_seq p + 1) in
  let tid := "task-" +:+ itoa seq in
  let t := mkTask tid kind (sim_id p) entity TaskSucceeded 100 "" "" now now now in
  run_task kind entity now p =
    (Some t, set_tracker (<[tid := t]> (sim_tracker p)) (set_seq seq p)).
Proof.
  cbn zeta. unfold run_task, nextID, tt_Start, tt_Finish. simpl.
  by rewrite lookup_insert_eq, insert_insert_eq.
Qed.

Lemma done_with_eq kind entity now p :
  let seq := wrap64 (sim_seq p + 1) in
  let tid := "task-" +:+ itoa seq in
  let t := mkTask tid kind (sim_id p) entity TaskSucceeded 100 "" "" now now now in
  done_with kind entity now p =
    (Ok (Some t), set_tracker (<[tid := t]> (sim_tracker p)) (set_seq seq p)).
Proof. cbn zeta. unfold done_with. by rewrite run_task_eq. Qed.
#[export] Hint Rewrite done_with_eq : castor_rw.

(** Unfold one method and split on its guards. *)
Ltac sim_unfold :=
  unfold sim_exec, lift_out, CreateVM, PowerOp, DeleteVM, ReconfigureVM, CreateSnapshot,
    RevertSnapshot, Clone, MigrateVM, CreateNetwork, DeleteNetwork, CreateVolume, DeleteVolume,
    UploadISO in *; rewrite ?done_with_eq in *; simpl in *.
Ltac sim_cases := sim_unfold; repeat case_match; rewrite ?done_with_eq in *; simplify_eq/=.

(** ** Capability gating *)

Lemma sim_exec_gated now o p :
  op_known o = true -> Has (sim_caps p) (required_cap o) = false ->
  sim_exec now o p = (Err ErrUnsupported, p).
Proof. destruct o; simpl; intros Hk Hc; sim_unfold; rewrite ?Hk, Hc; done. Qed.

Lemma sim_exec_caps now o p : sim_caps (sim_exec now o p).2 = sim_caps p.
Proof. destruct o; sim_cases; done. Qed.

Lemma sim_exec_id now o p :
  sim_id (sim_exec now o p).2 = sim_id p /\ sim_kind (sim_exec now o p).2 = sim_kind p.
Proof. destruct o; sim_cases; done. Qed.

(** ** Failures *)

(** The state a failed revert leaves: no snapshot of the VM is current. *)
Definition uncurrent (vmID : string) (p : sim) : sim :=
  set_snapshots (alter (fmap (snap_set_current false)) vmID (sim_snapshots p)) p.

Lemma set_snapshots_id p : set_snapshots (sim_snapshots p) p = p.
Proof. by destruct p. Qed.

Lemma existsb_id_false snapID (snaps : list Snapshot) :
  existsb (fun s => bool_decide (snap_ID s = snapID)) snaps = false <->
  Forall (fun s => snap_ID s <> snapID) snaps.
Proof.
  rewrite Forall_forall. split.
  - intros H s Hs%list_elem_of_In Hid. apply not_true_iff_false in H. apply H.
    apply existsb_exists. exists s. by rewrite bool_decide_true.
  - intros H. apply not_true_iff_false. intros (s & Hin & Hs)%existsb_exists.
    apply bool_decide_eq_true in Hs. by apply (H s); [apply list_elem_of_In|].
Qed.

Lemma revert_missing vmID snapID now p :
  Has (sim_caps p) CapRevertSnapshot = true ->
  Forall (fun s => snap_ID s <> snapID) (vm_snapshots vmID p) ->
  RevertSnapshot vmID snapID now p = (Err ErrNotFound, uncurrent vmID p).
Proof.
  unfold RevertSnapshot, vm_snapshots, uncurrent. intros -> Hall. simpl.
  destruct (sim_snapshots p !! vmID) as [snaps|] eqn:E; simpl in *.
  - rewrite (proj2 (existsb_id_false _ _) Hall). simpl. do 2 f_equal.
    apply map_eq. intros k. destruct (decide (vmID = k)) as [<-|Hne].
    + rewrite lookup_insert_eq, lookup_alter_eq, E. simpl. f_equal.
      apply list_fmap_ext. intros i s Hs. rewrite bool_decide_false; [done|].
      apply (Forall_lookup_1 _ _ _ _ Hall Hs).
    + by rewrite lookup_insert_ne, lookup_alter_ne.
  - rewrite alter_id; [by rewrite set_snapshots_id|]. intros x. by rewrite E.
Qed.

(** A failed method changes nothing, a failed revert excepted. *)
Lemma sim_exec_err now o p e p' :
  sim_exec now o p = (Err e, p') ->
  p' = p \/ exists vmID snapID, o = OpRevert vmID snapID /\ e = ErrNotFound /\ p' = uncurrent vmID p.
Proof.
  intros H. destruct o; try (left; sim_cases; done).
  destruct (Has (sim_caps p) CapRevertSnapshot) eqn:Hc;
    [|left; simpl in H; unfold lift_out, RevertSnapshot in H; rewrite Hc in H; by simplify_eq/=].
  destruct (existsb (fun s => bool_decide (snap_ID s = snapID)) (vm_snapshots vmID p)) eqn:Hf.
  - left. simpl in H. unfold lift_out, RevertSnapshot in H. rewrite Hc in H.
    unfold vm_snapshots in Hf. destruct (sim_snapshots p !! vmID) as [snaps|]; simpl in *; [|by simplify_eq].
    rewrite Hf, done_with_eq in H. by simplify_eq/=.
  - right. exists vmID, snapID. apply existsb_id_false in Hf.
    simpl in H. unfold lift_out in H. rewrite revert_missing in H by done. by simplify_eq/=.
Qed.

(** ** The store invariant *)

(** [id] is [prefix-k] for a counter value already handed out. *)
Definition issued (prefix : string) (n : Z) (id : string) : Prop :=
  exists k, id = prefix +:+ "-" +:+ itoa k /\ 0 < k <= n.

Definition current_count (l : list Snapshot) : nat :=
  length (filter (fun s => snap_IsCurrent s = true) l).

(** A VM's snapshots: distinct ids the provider issued under a prefix of its
    own, at most one current. *)
Definition snaps_at (pre vmID : string) (n : Z) (l : list Snapshot) : Prop :=
  NoDup (snap_ID <$> l) /\
  Forall (fun s => snap_VMID s = vmID /\ issued pre n (snap_ID s)) l /\
  (current_count l <= 1)%nat.
Abbreviation snaps_ok := (snaps_at "snap").

(** The seed uses the ids [vm-1] to [vm-3] without advancing the counter, hence
    the [Z.max]. *)
Record wf (p : sim) : Prop := {
  wf_seq : 0 <= sim_seq p;
  wf_key : forall k v, sim_vms p !! k = Some v -> vm_ID v = k;
  wf_vm_issued : forall k, is_Some (sim_vms p !! k) -> issued "vm" (Z.max 3 (sim_seq p)) k;
  wf_snapdom : forall k, is_Some (sim_snapshots p !! k) -> is_Some (sim_vms p !! k);
  wf_snaps : forall k l, sim_snapshots p !! k = Some l -> snaps_ok k (sim_seq p) l;
  wf_voldom : forall k, is_Some (sim_volumes p !! k) -> is_Some (sim_storage p !! k);
  wf_tasks : forall k t, sim_tracker p !! k = Some t -> Task_Done t = true /\ task_ID t = k }.

Lemma issued_mono prefix n m id : n <= m -> issued prefix n id -> issued prefix m id.
Proof. intros Hle (k & -> & Hk). exists k. split; [done|lia]. Qed.

Lemma issued_next prefix n : 0 <= n -> issued prefix (n + 1) (prefix +:+ "-" +:+ itoa (n + 1)).
Proof. intros Hn. exists (n + 1). split; [done|lia]. Qed.

Lemma prefixed_inj prefix a b :
  prefix +:+ "-" +:+ itoa a = prefix +:+ "-" +:+ itoa b -> a = b.
Proof.
  intros H%string_app_inj_l. apply (string_app_inj_l "-") in H. by apply itoa_inj.
Qed.

Lemma issued_fresh prefix n : ~ issued prefix n (prefix +:+ "-" +:+ itoa (n + 1)).
Proof. intros (k & H & Hk). apply prefixed_inj in H. lia. Qed.

Lemma snaps_ok_mono {pre} vm n m l : n <= m -> snaps_at pre vm n l -> snaps_at pre vm m l.
Proof.
  intros Hle (Hnd & Hall & Hc). split_and!; [done| |done].
  eapply Forall_impl; [done|]. simpl. intros s [? ?]. split; [done|by eapply issued_mono].
Qed.

Lemma snap_ids_mark (f : Snapshot -> bool) (l : list Snapshot) :
  snap_ID <$> ((fun s => snap_set_current (f s) s) <$> l) = snap_ID <$> l.
Proof. rewrite <- list_fmap_compose. by apply list_fmap_ext. Qed.

Lemma mark_attrs {pre} (f : Snapshot -> bool) vm n (l : list Snapshot) :
  Forall (fun s => snap_VMID s = vm /\ issued pre n (snap_ID s)) l ->
  Forall (fun s => snap_VMID s = vm /\ issued pre n (snap_ID s))
    ((fun s => snap_set_current (f s) s) <$> l).
Proof. intros H. apply Forall_fmap. eapply Forall_impl; [done|]. done. Qed.

Lemma current_uncurrent (l : list Snapshot) : current_count (snap_set_current false <$> l) = 0%nat.
Proof. unfold current_count. by induction l. Qed.

Lemma current_count_app l1 l2 : current_count (l1 ++ l2) = (current_count l1 + current_count l2)%nat.
Proof. unfold current_count. by rewrite filter_app, length_app. Qed.

(** Marking one id among distinct ids leaves at most one current snapshot, and
    exactly one when the id is there. *)
Lemma current_mark id (l : list Snapshot) :
  NoDup (snap_ID <$> l) ->
  current_count ((fun s => snap_set_current (bool_decide (snap_ID s = id)) s) <$> l) =
    if existsb (fun s => bool_decide (snap_ID s = id)) l then 1%nat else 0%nat.
Proof.
  induction l as [|s l IH]; [done|]. rewrite fmap_cons, NoDup_cons. intros [Hni Hnd].
  specialize (IH Hnd). unfold current_count in *.
  rewrite fmap_cons, filter_cons. unfold snap_set_current at 1. simpl (snap_IsCurrent _).
  change (existsb ?f (s :: l)) with (f s || existsb f l). cbv beta.
  destruct (bool_decide_reflect (snap_ID s = id)) as [Hs|Hs].
  - rewrite decide_True by done. simpl. rewrite IH.
    destruct (existsb _ l) eqn:E; [|done].
    apply existsb_exists in E as (s' & Hin & Hs'). apply bool_decide_eq_true in Hs'.
    exfalso. apply Hni. rewrite Hs, <- Hs'. apply list_elem_of_fmap_2. by apply list_elem_of_In.
  - by rewrite decide_False.
Qed.

(** ** Preservation, one lemma per kind of update *)

Lemma wf_bump p : sim_seq p + 1 < 2 ^ 63 -> wf p -> wf (set_seq (wrap64 (sim_seq p + 1)) p).
Proof.
  intros Hlt []. rewrite wrap64_id by (unfold int64_range; lia).
  constructor; simpl; try done; [lia| |].
  - intros k Hk. eapply issued_mono; [|by apply wf_vm_issued0]. lia.
  - intros k l Hk. eapply snaps_ok_mono; [|by apply wf_snaps0]. lia.
Qed.

Lemma wf_track p tid t :
  Task_Done t = true -> task_ID t = tid -> wf p -> wf (set_tracker (<[tid := t]> (sim_tracker p)) p).
Proof.
  intros Hd Hid []. constructor; simpl; try done.
  intros k t' Hk. apply lookup_insert_Some in Hk as [[<- <-]|[_ Hk]]; [done|]. by apply wf_tasks0.
Qed.

Lemma wf_done kind entity now p :
  sim_seq p + 1 < 2 ^ 63 -> wf p -> wf (done_with kind entity now p).2.
Proof.
  intros Hlt Hwf. rewrite done_with_eq. simpl.
  set (t := mkTask _ _ _ _ _ _ _ _ _ _ _).
  exact (wf_track (set_seq (wrap64 (sim_seq p + 1)) p) _ t eq_refl eq_refl (wf_bump p Hlt Hwf)).
Qed.

Lemma wf_put_vm p k v :
  vm_ID v = k -> issued "vm" (Z.max 3 (sim_seq p)) k -> wf p ->
  wf (set_vms (<[k := v]> (sim_vms p)) p).
Proof.
  intros Hid Hiss []. constructor; simpl; try done.
  - intros k' v' H. apply lookup_insert_Some in H as [[<- <-]|[_ H]]; eauto.
  - intros k' [v' H]. apply lookup_insert_Some in H as [[<- <-]|[_ H]]; eauto.
  - intros k' H. destruct (decide (k = k')) as [->|].
    + rewrite lookup_insert_eq. by eexists.
    + rewrite lookup_insert_ne by done. by apply wf_snapdom0.
Qed.

Lemma wf_update_vm p k v v' :
  sim_vms p !! k = Some v -> vm_ID v' = vm_ID v -> wf p ->
  wf (set_vms (<[k := v']> (sim_vms p)) p).
Proof.
  intros Hk Hid Hwf. apply wf_put_vm; [|apply (wf_vm_issued p Hwf); by eexists|done].
  rewrite Hid. by apply (wf_key p Hwf).
Qed.

Lemma wf_put_snaps p k l :
  is_Some (sim_vms p !! k) -> snaps_ok k (sim_seq p) l -> wf p ->
  wf (set_snapshots (<[k := l]> (sim_snapshots p)) p).
Proof.
  intros Hvm Hl []. constructor; simpl; try done.
  - intros k' [l' H]. apply lookup_insert_Some in H as [[<- <-]|[_ H]]; eauto.
  - intros k' l' H. apply lookup_insert_Some in H as [[<- <-]|[_ H]]; eauto.
Qed.

Lemma wf_drop_vm p k :
  wf p ->
  wf (set_snapshots (delete k (sim_snapshots p)) (set_vms (delete k (sim_vms p)) p)).
Proof.
  intros []. constructor; simpl; try done.
  - intros k' v H. apply lookup_delete_Some in H as [_ H]. eauto.
  - intros k' [v H]. apply lookup_delete_Some in H as [_ H]. eauto.
  - intros k' [l H]. apply lookup_delete_Some in H as [Hne H].
    rewrite lookup_delete_ne by done. eauto.
  - intros k' l H. apply lookup_delete_Some in H as [_ H]. eauto.
Qed.

Lemma wf_put_volumes p k l :
  is_Some (sim_storage p !! k) -> wf p -> wf (set_volumes (<[k := l]> (sim_volumes p)) p).
Proof.
  intros Hs []. constructor; simpl; try done.
  intros k' [l' H]. apply lookup_insert_Some in H as [[<- <-]|[_ H]]; eauto.
Qed.

Lemma wf_put_networks p n : wf p -> wf (set_networks n p).
Proof. intros []. by constructor. Qed.

#[export] Hint Resolve wf_done wf_bump wf_put_networks wf_drop_vm : castor.

Lemma nextID_eq prefix p :
  sim_seq p + 1 < 2 ^ 63 -> 0 <= sim_seq p ->
  nextID prefix p = (prefix +:+ "-" +:+ itoa (sim_seq p + 1), set_seq (sim_seq p + 1) p).
Proof. intros H1 H2. unfold nextID. rewrite wrap64_id; [done|]. unfold int64_range. lia. Qed.

Lemma wf_next p : sim_seq p + 1 < 2 ^ 63 -> wf p -> wf (set_seq (sim_seq p + 1) p).
Proof.
  intros H Hwf. pose proof (wf_bump p H Hwf) as Hb. rewrite wrap64_id in Hb; [done|].
  pose proof (wf_seq p Hwf). unfold int64_range. lia.
Qed.

Lemma wf_create_vm now spec p :
  sim_seq p + 2 < 2 ^ 63 -> wf p -> wf (CreateVM spec now p).2.
Proof.
  intros Hs Hwf. pose proof (wf_seq p Hwf). unfold CreateVM.
  case_match; [done|]. case_match; [done|]. rewrite nextID_eq by lia. simpl.
  apply wf_done; [simpl; lia|].
  apply (wf_put_vm (set_seq (sim_seq p + 1) p)); [done| |by apply wf_next; [lia|]].
  simpl. eapply issued_mono; [|by apply issued_next]. lia.
Qed.

Lemma wf_clone now vmID spec p :
  sim_seq p + 2 < 2 ^ 63 -> wf p -> wf (Clone vmID spec now p).2.
Proof.
  intros Hs Hwf. pose proof (wf_seq p Hwf). unfold Clone.
  case_match; [done|]. case_match; [|done]. rewrite nextID_eq by lia. simpl.
  apply wf_done; [simpl; lia|].
  apply (wf_put_vm (set_seq (sim_seq p + 1) p)); [done| |by apply wf_next; [lia|]].
  simpl. eapply issued_mono; [|by apply issued_next]. lia.
Qed.

Lemma snaps_ok_add {pre} vm n l name desc mem now :
  0 <= n -> snaps_at pre vm n l ->
  snaps_at pre vm (n + 1)
    ((snap_set_current false <$> l)
     ++ [mkSnapshot (pre +:+ "-" +:+ itoa (n + 1)) vm name desc "" mem true now]).
Proof.
  intros Hn (Hnd & Hall & _). split_and!.
  - rewrite fmap_app. simpl. apply NoDup_app. rewrite (snap_ids_mark (fun _ => false)).
    split_and!; [done| |by apply NoDup_singleton].
    intros id Hid Hin. apply list_elem_of_singleton in Hin as ->.
    apply list_elem_of_fmap in Hid as (s & Hs & Hin).
    rewrite Forall_forall in Hall. destruct (Hall s Hin) as [_ Hiss].
    rewrite <- Hs in Hiss. by apply (issued_fresh pre n).
  - apply Forall_app. split.
    + apply (mark_attrs (fun _ => false)). eapply Forall_impl; [done|].
      simpl. intros s [? ?]. split; [done|]. eapply issued_mono; [|done]. lia.
    + constructor; [|done]. split; [done|]. by apply issued_next.
  - rewrite current_count_app, current_uncurrent. done.
Qed.

Lemma snaps_ok_nil {pre} k n : snaps_at pre k n [].
Proof. split_and!; [by apply NoDup_nil_2|constructor|by apply Nat.le_0_1]. Qed.

Lemma snaps_ok_mark {pre} vm n id l : snaps_at pre vm n l ->
  snaps_at pre vm n ((fun s => snap_set_current (bool_decide (snap_ID s = id)) s) <$> l).
Proof.
  intros (Hnd & Hall & _). split_and!; [by rewrite snap_ids_mark|by apply mark_attrs|].
  rewrite current_mark by done. by destruct (existsb _ _); lia.
Qed.

Lemma wf_snapshot vmID opts created now p :
  sim_seq p + 2 < 2 ^ 63 -> wf p -> wf (CreateSnapshot vmID opts created now p).2.
Proof.
  intros Hs Hwf. pose proof (wf_seq p Hwf). unfold CreateSnapshot.
  case_match; [done|]. destruct (sim_vms p !! vmID) as [v|] eqn:Hv; [|done].
  rewrite nextID_eq by lia. simpl.
  apply wf_done; [simpl; lia|].
  match goal with |- wf (set_vms (<[_ := _]> _) ?q) => set (p1 := q) end.
  apply (wf_update_vm p1 vmID v); [done|done|].
  apply (wf_put_snaps (set_seq (sim_seq p + 1) p)); [by eexists| |by apply wf_next; [lia|]].
  simpl. apply snaps_ok_add; [done|]. unfold vm_snapshots. simpl.
  destruct (sim_snapshots p !! vmID) as [l|] eqn:E; simpl; [by apply (wf_snaps p Hwf)|].
  split_and!; [by apply NoDup_nil_2|constructor|by apply Nat.le_0_1].
Qed.

Lemma wf_revert vmID snapID now p :
  sim_seq p + 2 < 2 ^ 63 -> wf p -> wf (RevertSnapshot vmID snapID now p).2.
Proof.
  intros Hs Hwf. unfold RevertSnapshot. case_match; [done|].
  destruct (sim_snapshots p !! vmID) as [l|] eqn:E; [|done].
  assert (wf (set_snapshots (<[vmID := (fun s => snap_set_current (bool_decide (snap_ID s = snapID)) s) <$> l]>
                (sim_snapshots p)) p)) as Hp.
  { apply wf_put_snaps; [|destruct (wf_snaps p Hwf _ _ E) as (Hnd & Hall & _)|done].
    - apply (wf_snapdom p Hwf). by eexists.
    - split_and!; [by rewrite snap_ids_mark|by apply mark_attrs|].
      rewrite current_mark by done. by destruct (existsb _ _); lia. }
  case_match; [done|]. apply wf_done; [simpl; lia|done].
Qed.

Lemma sim_exec_wf now o p : sim_seq p + 2 < 2 ^ 63 -> wf p -> wf (sim_exec now o p).2.
Proof.
  intros Hs Hwf. pose proof (wf_seq p Hwf).
  destruct o; simpl;
    eauto using wf_create_vm, wf_clone, wf_snapshot, wf_revert.
  - unfold PowerOp. repeat (case_match; [done|]). case_match; [|done].
    apply wf_done; [simpl; lia|]. eapply wf_update_vm; [done| |done].
    unfold power_target. repeat case_match; done.
  - unfold DeleteVM. case_match; [done|]. case_match; [|done].
    repeat (case_match; [done|]). apply wf_done; [simpl; lia|]. exact (wf_drop_vm p vmID Hwf).
  - unfold ReconfigureVM. case_match; [done|]. case_match; [|done].
    apply wf_done; [simpl; lia|]. by eapply wf_update_vm.
  - unfold MigrateVM. case_match; [done|]. case_match; [|done]. case_match; [|done].
    apply wf_done; [simpl; lia|]. by eapply wf_update_vm.
  - unfold CreateNetwork. repeat (case_match; [done|]). rewrite nextID_eq by lia. simpl.
    apply wf_done; [simpl; lia|].
    apply (wf_put_networks (set_seq _ p)). apply wf_next; [lia|done].
  - unfold DeleteNetwork. case_match; [done|]. case_match; [|done].
    apply wf_done; [simpl; lia|]. by apply wf_put_networks.
  - unfold CreateVolume. repeat (case_match; [done|]). case_match; [|done].
    rewrite nextID_eq by lia. simpl. apply wf_done; [simpl; lia|].
    apply (wf_put_volumes (set_seq _ p)); [by eexists|]. apply wf_next; [lia|done].
  - unfold DeleteVolume, pool_volumes. case_match; [done|].
    destruct (sim_volumes p !! storageID) as [vols|] eqn:E; simpl; [|done].
    case_match; [|done]. case_match. apply wf_done; [simpl; lia|].
    apply wf_put_volumes; [|done]. apply (wf_voldom p Hwf). by eexists.
  - unfold UploadISO. repeat (case_match; [done|]). case_match; [|done].
    rewrite nextID_eq by lia. simpl.
    apply (wf_put_volumes (set_seq _ p)); [by eexists|]. apply wf_next; [lia|done].
Qed.

(** ** Runs from a freshly built provider *)

(** The two options the package offers. *)
Definition known_option (o : sim -> sim) : Prop :=
  (exists c, o = WithCaps c) \/ (exists k, o = WithKind k).

Lemma seq_bound now o p :
  0 <= sim_seq p -> sim_seq p + 2 < 2 ^ 63 ->
  sim_seq p <= sim_seq (sim_exec now o p).2 <= sim_seq p + 2.
Proof.
  intros H0 H2.
  assert (wrap64 (sim_seq p + 1) = sim_seq p + 1) as E1
    by (apply wrap64_id; unfold int64_range; lia).
  assert (wrap64 (sim_seq p + 1 + 1) = sim_seq p + 2) as E2.
  { replace (sim_seq p + 1 + 1) with (sim_seq p + 2) by lia.
    apply wrap64_id. unfold int64_range. lia. }
  destruct o; sim_cases; rewrite ?E1, ?E2; lia.
Qed.

Lemma sim_run_wf l p :
  sim_seq p + 2 * Z.of_nat (length l) < 2 ^ 63 -> wf p -> wf (sim_run l p).
Proof.
  revert p. induction l as [|[now o] l IH]; intros p Hs Hwf; [done|].
  simpl in *. pose proof (wf_seq p Hwf). apply IH.
  - pose proof (seq_bound now o p). lia.
  - apply sim_exec_wf; [lia|done].
Qed.

Lemma New_seq id opts : Forall known_option opts -> sim_seq (New id opts) = 0.
Proof.
  unfold New. simpl. set (p0 := mkSim _ _ _ _ _ _ _ _ _ _ _ _ _).
  assert (sim_seq p0 = 0) as H0 by done. revert H0. generalize p0.
  induction opts as [|o opts IH]; intros p Hp Hall; [done|]. simpl.
  apply Forall_cons in Hall as [Ho Hall]. apply IH; [|done].
  by destruct Ho as [[c ->]|[k ->]].
Qed.

(** Before [seed] the options touch neither the store nor the counter. *)
Lemma New_store id opts :
  Forall known_option opts ->
  exists kind caps, New id opts = seed (mkSim id kind caps ∅ ∅ ∅ ∅ ∅ ∅ ∅ ∅ 0 false).
Proof.
  unfold New. generalize KindKVM, FullCaps.
  induction opts as [|o opts IH]; intros kind caps Hall; [by exists kind, caps|]. simpl.
  apply Forall_cons in Hall as [[[c ->]|[k ->]] Hall]; by apply IH.
Qed.

Lemma wf_seeded id kind caps : wf (seed (mkSim id kind caps ∅ ∅ ∅ ∅ ∅ ∅ ∅ ∅ 0 false)).
Proof.
  unfold seed. simpl. constructor; simpl; try done.
  - intros k v H.
    do 3 (apply lookup_insert_Some in H as [[<- <-]|[_ H]]; [done|]). done.
  - intros k [v H].
    apply lookup_insert_Some in H as [[<- _]|[_ H]]; [by exists 3|].
    apply lookup_insert_Some in H as [[<- _]|[_ H]]; [by exists 2|].
    apply lookup_insert_Some in H as [[<- _]|[_ H]]; [by exists 1|]. done.
  - by intros k [? ?].
  - intros k [v H]. apply lookup_insert_Some in H as [[<- _]|[_ H]]; [|done].
    rewrite lookup_insert_eq. by eexists.
Qed.

Lemma New_wf id opts : Forall known_option opts -> wf (New id opts).
Proof. intros (kind & caps & ->)%(New_store id). apply wf_seeded. Qed.

(** ** The snapshot counter *)

(** [SnapshotCount] is the number of snapshots the provider lists. *)
Definition count_ok (p : sim) : Prop :=
  forall k v, sim_vms p !! k = Some v ->
    vm_SnapshotCount v = Z.of_nat (length (vm_snapshots k p)).

Lemma count_put p k v :
  count_ok p -> vm_SnapshotCount v = Z.of_nat (length (vm_snapshots k p)) ->
  count_ok (set_vms (<[k := v]> (sim_vms p)) p).
Proof.
  intros Hc Hv k' v' H. simpl in H.
  apply lookup_insert_Some in H as [[<- <-]|[_ H]]; [done|]. by apply Hc.
Qed.

Lemma count_frame p p' :
  sim_vms p' = sim_vms p -> sim_snapshots p' = sim_snapshots p -> count_ok p -> count_ok p'.
Proof. unfold count_ok, vm_snapshots. by intros -> ->. Qed.

Lemma count_done kind entity now p : count_ok p -> count_ok (done_with kind entity now p).2.
Proof. intros H. rewrite done_with_eq. by apply (count_frame p). Qed.

Lemma vm_slot_free p :
  wf p -> 3 <= sim_seq p -> sim_vms p !! ("vm" +:+ "-" +:+ itoa (sim_seq p + 1)) = None.
Proof.
  intros Hwf H3. apply eq_None_not_Some. intros H.
  apply (wf_vm_issued p Hwf) in H. replace (Z.max 3 (sim_seq p)) with (sim_seq p) in H by lia.
  by apply issued_fresh in H.
Qed.

Lemma no_orphan_snapshots p k : wf p -> sim_vms p !! k = None -> vm_snapshots k p = [].
Proof.
  intros Hwf Hk. unfold vm_snapshots. destruct (sim_snapshots p !! k) as [l|] eqn:E; [|done].
  destruct (wf_snapdom p Hwf k) as [v Hv]; [by eexists|]. congruence.
Qed.

Ltac old_count Hc :=
  match goal with H : sim_vms _ !! _ = Some _ |- _ => exact (Hc _ _ H) end.

Lemma count_exec now o p :
  sim_seq p + 2 < 2 ^ 63 -> 3 <= sim_seq p -> wf p -> count_ok p -> count_ok (sim_exec now o p).2.
Proof.
  intros Hs H3 Hwf Hc. pose proof (vm_slot_free p Hwf H3) as Hfree.
  pose proof (no_orphan_snapshots p _ Hwf Hfree) as Hno.
  destruct o; simpl.
  - unfold CreateVM. repeat (case_match; [done|]). rewrite nextID_eq by lia. simpl.
    apply count_done, (count_put (set_seq _ p)); [done|]. simpl.
    change (vm_snapshots ?k (set_seq _ p)) with (vm_snapshots k p). by rewrite Hno.
  - unfold PowerOp. repeat (case_match; [done|]). case_match; [|done].
    apply count_done, count_put; [done|].
    replace (vm_SnapshotCount (power_target pop v)) with (vm_SnapshotCount v); [old_count Hc|].
    unfold power_target. repeat case_match; done.
  - unfold DeleteVM. case_match; [done|]. case_match; [|done].
    repeat (case_match; [done|]). apply count_done. intros k v' Hk. simpl in Hk.
    apply lookup_delete_Some in Hk as [Hne Hk]. unfold vm_snapshots. simpl.
    rewrite lookup_delete_ne by done. by apply Hc.
  - unfold ReconfigureVM. case_match; [done|]. case_match; [|done].
    apply count_done, count_put; [done|]. old_count Hc.
  - unfold CreateSnapshot. case_match; [done|]. case_match; [|done]. rewrite nextID_eq by lia.
    simpl. apply count_done. intros k v' Hk. simpl in Hk. unfold vm_snapshots. simpl.
    apply lookup_insert_Some in Hk as [[<- <-]|[Hne Hk]].
    + by rewrite lookup_insert_eq.
    + rewrite lookup_insert_ne by done. by apply Hc.
  - unfold RevertSnapshot. case_match; [done|].
    destruct (sim_snapshots p !! vmID) as [l|] eqn:E; [|done].
    assert (count_ok (set_snapshots (<[vmID := (fun s => snap_set_current (bool_decide (snap_ID s = snapID)) s) <$> l]>
                (sim_snapshots p)) p)) as Hp.
    { intros k v Hk. simpl in Hk. rewrite (Hc _ _ Hk). unfold vm_snapshots. simpl.
      destruct (decide (vmID = k)) as [<-|]; [|by rewrite lookup_insert_ne].
      rewrite lookup_insert_eq, E. simpl. by rewrite length_fmap. }
    case_match; [done|]. by apply count_done.
  - unfold Clone. case_match; [done|]. case_match; [|done]. rewrite nextID_eq by lia. simpl.
    apply count_done, (count_put (set_seq _ p)); [done|]. simpl.
    change (vm_snapshots ?k (set_seq _ p)) with (vm_snapshots k p). by rewrite Hno.
  - unfold MigrateVM. repeat (case_match; try done).
    apply count_done, count_put; [done|]. old_count Hc.
  - unfold CreateNetwork. repeat (case_match; [done|]). rewrite nextID_eq by lia. simpl.
    apply count_done. by apply (count_frame p).
  - unfold DeleteNetwork. repeat (case_match; try done). apply count_done. by apply (count_frame p).
  - unfold CreateVolume. repeat (case_match; try done). rewrite nextID_eq in * by lia.
    simplify_eq. apply count_done. by apply (count_frame p).
  - unfold DeleteVolume. repeat (case_match; try done). apply count_done. by apply (count_frame p).
  - unfold UploadISO. repeat (case_match; try done).
Qed.

Lemma sim_run_count l p :
  sim_seq p + 2 * Z.of_nat (length l) < 2 ^ 63 -> 3 <= sim_seq p -> wf p -> count_ok p ->
  count_ok (sim_run l p).
Proof.
  revert p. induction l as [|[now o] l IH]; intros p Hs H3 Hwf Hc; [done|].
  simpl in *. pose proof (seq_bound now o p). apply IH; try lia.
  - apply sim_exec_wf; [lia|done].
  - apply count_exec; [lia|done..].
Qed.
