(* ===== verification/SimProps.v ===== *)
(** * What the simulator provider guarantees

    The contract of vprovider.go, proved for every write method of [Sim]: the
    capability gate, atomic failures, the store invariant over arbitrary runs,
    and the functional behaviour of creation, deletion and revert. *)
From S2P Require Import Prelude GoStd VProvider Sim SimFacts.

(** Capability gating: a method whose capability bit is not granted (and, for
    a power operation, whose operation is a known one) answers [ErrUnsupported]
    and leaves the provider untouched; when the bit is granted no method ever
    answers [ErrUnsupported]. *)
Theorem sim_capability_gate now o p :
  op_known o = true ->
  (Has (sim_caps p) (required_cap o) = false -> sim_exec now o p = (Err ErrUnsupported, p)) /\
  (Has (sim_caps p) (required_cap o) = true -> (sim_exec now o p).1 <> Err ErrUnsupported).
Proof.
  intros Hk. split; [by apply sim_exec_gated|].
  intros Hc. destruct o; simpl in *; sim_unfold; rewrite ?Hk, Hc; simpl;
    repeat case_match; rewrite ?done_with_eq in *; simplify_eq/=; done.
Qed.

Lemma sim_capability_gate_witness :
  sim_exec 0 (OpDeleteVM "vm-3" (mkDeleteOptions true false)) (New "p" [WithCaps CapGetVM])
    = (Err ErrUnsupported, New "p" [WithCaps CapGetVM]).
Proof. apply sim_capability_gate; [done|]. by vm_compute. Defined.

(** Failures are atomic: whatever the method and the error, the provider is
    left as it was, with one exception, a revert to a snapshot that does not
    exist, which leaves every snapshot of the VM unmarked. *)
Theorem sim_failure_atomic now o p e p' :
  sim_exec now o p = (Err e, p') ->
  p' = p \/ exists vmID snapID, o = OpRevert vmID snapID /\ e = ErrNotFound /\ p' = uncurrent vmID p.
Proof. apply sim_exec_err. Qed.

Lemma sim_failure_atomic_witness :
  let r := sim_exec 0 (OpDeleteVM "vm-1" (mkDeleteOptions false false)) (New "p" []) in
  r.1 = Err ErrConflict /\ r.2 = New "p" [].
Proof.
  destruct (sim_exec 0 (OpDeleteVM "vm-1" (mkDeleteOptions false false)) (New "p" [])) as [r p'] eqn:E.
  assert (r = Err ErrConflict) as -> by (vm_compute in E; congruence). split; [done|].
  destruct (sim_failure_atomic _ _ _ _ _ E) as [H|(? & ? & H & _)]; [exact H|discriminate].
Defined.

(** The store invariant: from any provider built with the package's options,
    after any sequence of operations short of the counter's 64-bit range, every
    VM is stored under its own id, every id was issued by the provider, every
    snapshot list belongs to an existing VM, has distinct ids and at most one
    current snapshot, every volume list belongs to an existing pool, and every
    task is finished and stored under its own id. *)
Theorem sim_reachable_wf id opts l :
  Forall known_option opts -> 2 * Z.of_nat (length l) < 2 ^ 63 -> wf (sim_run l (New id opts)).
Proof.
  intros Hopts Hl. apply sim_run_wf; [|by apply New_wf].
  rewrite New_seq by done. lia.
Qed.

Lemma sim_reachable_wf_witness :
  wf (sim_run [(5, OpSnapshot "vm-1" (mkSnapshotOptions "a" "" false false));
               (6, OpDeleteVM "vm-1" (mkDeleteOptions true false))] (New "p" [WithKind "vmware"])).
Proof.
  apply sim_reachable_wf; [|simpl; lia].
  constructor; [|constructor]. right. by exists "vmware".
Defined.

(** Creating a VM, once the counter has passed the seeded ids: the call
    succeeds exactly on valid specs, returns a finished task naming the new VM,
    the VM has a fresh id and the requested hardware, is stopped, and every
    other VM is untouched. *)
Theorem sim_create_vm spec now p :
  wf p -> 3 <= sim_seq p -> sim_seq p + 2 < 2 ^ 63 -> Has (sim_caps p) CapCreateVM = true ->
  let valid := trim_space (vs_Name spec) <> "" /\ 0 < vs_VCPUs spec /\ 0 < vs_MemoryMB spec in
  (~ valid -> CreateVM spec now p = (Err ErrInvalidSpec, p)) /\
  (valid -> exists t p' v,
     CreateVM spec now p = (Ok (Some t), p') /\
     Task_Done t = true /\ task_State t = TaskSucceeded /\
     sim_vms p !! task_EntityID t = None /\
     sim_vms p' = <[task_EntityID t := v]> (sim_vms p) /\
     vm_ID v = task_EntityID t /\ vm_Name v = vs_Name spec /\ vm_State v = StateStopped /\
     vm_VCPUs v = vs_VCPUs spec /\ vm_MemoryMB v = vs_MemoryMB spec /\
     length (vm_Disks v) = length (vs_Disks spec) /\ length (vm_NICs v) = length (vs_NICs spec)).
Proof.
  intros Hwf H3 Hs Hc valid. unfold CreateVM. rewrite Hc.
  simpl negb. cbv iota. split.
  - intros Hv. case_match eqn:E; [done|]. exfalso. apply Hv. to_prop. unfold valid. lia || done.
  - intros (Hn & Hcpu & Hmem).
    rewrite bool_decide_false by done.
    rewrite (proj2 (Z.leb_gt _ _)) by lia. rewrite (proj2 (Z.leb_gt _ _)) by lia.
    simpl orb. cbv iota. rewrite nextID_eq by lia. rewrite done_with_eq.
    do 3 eexists. split; [reflexivity|]. simpl. split_and!; try done.
    + by apply vm_slot_free.
    + apply length_imap.
    + apply length_imap.
Qed.

Lemma sim_create_vm_witness :
  let p := set_seq 3 (New "p" []) in
  exists t p', CreateVM (basic_VMSpec "web" "host-1" 2 2048 "linux" "uefi" []) 9 p = (Ok (Some t), p') /\
               sim_vms p !! task_EntityID t = None.
Proof.
  intros p.
  assert (wf p) as Hwf.
  { pose proof (New_wf "p" [] (Forall_nil_2 _)) as []. by constructor. }
  destruct (sim_create_vm (basic_VMSpec "web" "host-1" 2 2048 "linux" "uefi" []) 9 p Hwf ltac:(done) ltac:(done)
              ltac:(by vm_compute)) as [_ (t & p' & v & H & _ & _ & Hn & _)].
  - split_and!; [by vm_compute|done|done].
  - by exists t, p'.
Defined.

(** The seeded ids are not reserved: on a freshly built provider the first
    created VM is given the id vm-1, which a seeded VM already has, and the
    seeded running VM is overwritten. *)
Theorem sim_first_create_overwrites id now spec :
  trim_space (vs_Name spec) <> "" -> 0 < vs_VCPUs spec -> 0 < vs_MemoryMB spec ->
  let p := New id [] in
  exists old t p' v,
    sim_vms p !! "vm-1" = Some old /\ vm_Name old = "sim-vm-1" /\ vm_State old = StateRunning /\
    CreateVM spec now p = (Ok (Some t), p') /\ task_EntityID t = "vm-1" /\
    sim_vms p' = <["vm-1" := v]> (sim_vms p) /\ vm_Name v = vs_Name spec /\
    vm_State v = StateStopped.
Proof.
  intros Hn Hc Hm p. unfold CreateVM.
  replace (Has (sim_caps p) CapCreateVM) with true by (by vm_compute). simpl negb. cbv iota.
  rewrite bool_decide_false by done.
  rewrite (proj2 (Z.leb_gt _ _)) by lia. rewrite (proj2 (Z.leb_gt _ _)) by lia. simpl orb. cbv iota.
  rewrite nextID_eq by done. rewrite done_with_eq.
  do 4 eexists. split; [reflexivity|]. do 2 (split; [reflexivity|]).
  split; [reflexivity|]. split_and!; reflexivity.
Qed.

Lemma sim_first_create_overwrites_witness :
  exists t p', CreateVM (basic_VMSpec "web" "host-1" 2 2048 "linux" "uefi" []) 9 (New "p" []) = (Ok (Some t), p') /\
               task_EntityID t = "vm-1".
Proof.
  destruct (sim_first_create_overwrites "p" 9 (basic_VMSpec "web" "host-1" 2 2048 "linux" "uefi" [])) as
    (? & t & p' & ? & _ & _ & _ & H & Ht & _); [by vm_compute|done|done|]. by exists t, p'.
Defined.

Lemma delete_vm_gone vmID tr n p :
  let p' := set_tracker tr (set_seq n
              (set_snapshots (delete vmID (sim_snapshots p)) (set_vms (delete vmID (sim_vms p)) p))) in
  GetVM vmID p' = (if Has (sim_caps p) CapGetVM then Err ErrNotFound else Err ErrUnsupported) /\
  vm_snapshots vmID p' = [] /\
  forall k, k <> vmID -> sim_vms p' !! k = sim_vms p !! k /\ vm_snapshots k p' = vm_snapshots k p.
Proof.
  unfold GetVM, vm_snapshots. simpl. rewrite !lookup_delete_eq.
  split_and!; [by destruct (Has (sim_caps p) CapGetVM)|done|].
  intros k Hk. by rewrite !lookup_delete_ne.
Qed.

(** Deletion is guarded and complete: it succeeds exactly when the VM exists,
    is not protected, and is stopped or deleted by force; then the VM and its
    snapshots are gone, every other VM keeps its record and its snapshots. *)
Theorem sim_delete_vm vmID opts now p :
  Has (sim_caps p) CapDeleteVM = true ->
  let r := DeleteVM vmID opts now p in
  (is_ok r.1 = true <->
     exists v, sim_vms p !! vmID = Some v /\ vm_Protected v = false /\
               (vm_State v <> StateRunning \/ do_Force opts = true)) /\
  (is_ok r.1 = true ->
     GetVM vmID r.2 = (if Has (sim_caps p) CapGetVM then Err ErrNotFound else Err ErrUnsupported) /\
     vm_snapshots vmID r.2 = [] /\
     forall k, k <> vmID -> sim_vms r.2 !! k = sim_vms p !! k /\ vm_snapshots k r.2 = vm_snapshots k p).
Proof.
  intros Hc r. unfold r, DeleteVM. rewrite Hc. simpl negb. cbv iota.
  destruct (sim_vms p !! vmID) as [v|] eqn:Hv; simpl; [|split; [split; [done|]|done]].
  2: by intros (v & ? & _).
  destruct (vm_Protected v) eqn:Hp; simpl.
  { split; [split; [done|]|done]. intros (v' & [= <-] & ? & _). congruence. }
  destruct (bool_decide (vm_State v = StateRunning) && negb (do_Force opts)) eqn:Hg; simpl.
  { split; [split; [done|]|done]. intros (v' & [= <-] & _ & [?|?]); to_prop; congruence. }
  rewrite done_with_eq. simpl. split.
  - split; [|done]. intros _. exists v. split_and!; [done..|].
    apply andb_false_iff in Hg as [Hg|Hg]; to_prop; auto.
  - intros _. by apply delete_vm_gone.
Qed.

Lemma sim_delete_vm_witness :
  GetVM "vm-3" (DeleteVM "vm-3" (mkDeleteOptions false false) 7 (New "p" [])).2 = Err ErrNotFound.
Proof.
  destruct (sim_delete_vm "vm-3" (mkDeleteOptions false false) 7 (New "p" [])) as [_ H];
    [by vm_compute|].
  destruct H as [H _]; [by vm_compute|]. exact H.
Defined.

Lemma marked_list snapID (l : list Snapshot) s :
  s ∈ ((fun s => snap_set_current (bool_decide (snap_ID s = snapID)) s) <$> l) ->
  (snap_IsCurrent s = true <-> snap_ID s = snapID).
Proof.
  intros (s0 & -> & _)%list_elem_of_fmap. simpl. by rewrite bool_decide_eq_true.
Qed.

(** After a successful revert the VM's current snapshot is the requested one
    and no other; after one to an unknown snapshot the call fails, yet the VM's
    former current marker is lost. *)
Theorem sim_revert vmID snapID now p l :
  Has (sim_caps p) CapRevertSnapshot = true -> sim_snapshots p !! vmID = Some l ->
  let r := RevertSnapshot vmID snapID now p in
  (is_ok r.1 = true <-> snapID ∈ snap_ID <$> l) /\
  (snap_ID <$> vm_snapshots vmID r.2 = snap_ID <$> l) /\
  (is_ok r.1 = true -> forall s, s ∈ vm_snapshots vmID r.2 ->
     (snap_IsCurrent s = true <-> snap_ID s = snapID)) /\
  (is_ok r.1 = false -> r.1 = Err ErrNotFound /\ current_count (vm_snapshots vmID r.2) = 0%nat).
Proof.
  intros Hc Hl r. unfold r.
  destruct (existsb (fun s => bool_decide (snap_ID s = snapID)) l) eqn:E.
  - unfold RevertSnapshot. rewrite Hc, Hl, E. simpl. rewrite done_with_eq. simpl.
    unfold vm_snapshots. simpl. rewrite lookup_insert_eq. simpl.
    split_and!; [|by apply snap_ids_mark| |done].
    + split; [|done]. intros _. apply existsb_exists in E as (s & Hin & Hs).
      apply bool_decide_eq_true in Hs as <-. apply list_elem_of_fmap_2. by apply list_elem_of_In.
    + intros _ s. apply marked_list.
  - apply existsb_id_false in E. rewrite revert_missing; [|done|by unfold vm_snapshots; rewrite Hl].
    unfold vm_snapshots, uncurrent. simpl. rewrite lookup_alter_eq, Hl. simpl.
    split_and!; [|by apply (snap_ids_mark (fun _ => false))|done|].
    + split; [done|]. intros (s & Hs & Hin)%list_elem_of_fmap. rewrite Forall_forall in E.
      by destruct (E s Hin).
    + intros _. split; [done|]. apply current_uncurrent.
Qed.

Lemma sim_revert_witness :
  let p := (CreateSnapshot "vm-1" (mkSnapshotOptions "a" "" false false) 3 3 (New "p" [])).2 in
  current_count (vm_snapshots "vm-1" p) = 1%nat /\
  current_count (vm_snapshots "vm-1" (RevertSnapshot "vm-1" "nope" 4 p).2) = 0%nat.
Proof.
  intros p. split; [by vm_compute|].
  destruct (sim_snapshots p !! "vm-1") as [l|] eqn:E; [|by vm_compute in E].
  destruct (sim_revert "vm-1" "nope" 4 p l) as (_ & _ & _ & H); [by vm_compute|done|].
  apply H. by vm_compute.
Defined.
