(* ===== verification/Hypervisor.v ===== *)
(** * The provider seam: what the engines may assume of a hypervisor

    server/internal/vprovider/vprovider.go: the [HypervisorProvider] interface as
    a class over the type of provider states, the contract its comment states as
    a second class, and the environment the engines run in (a registry of
    providers and a clock).  The simulator implements both classes; the engines'
    theorems are proved against the classes only. *)
From S2P Require Import Prelude GoStd VProvider Sim SimFacts.

(** An [io.Reader]: the bytes it delivers, then its end or an error. *)
Definition stream : Type := string * option string.

(** The methods the engines call.  An error is the text of its [Error()]; a nil
    pointer is [None]; a method that may read the clock takes a reading. *)
Class Hypervisor (P : Type) := {
  hv_Kind : P -> string;
  hv_ID : P -> string;
  hv_Capabilities : P -> Z;
  hv_GetVM : string -> P -> result string (option VM) * P;
  hv_CreateVM : VMSpec -> time -> P -> result string (option Task) * P;
  hv_PowerOp : string -> string -> time -> P -> result string (option Task) * P;
  hv_Snapshot : string -> SnapshotOptions -> time -> P -> result string (option Task) * P;
  hv_ListSnapshots : string -> P -> result string (list Snapshot) * P;
  hv_ExportVM : string -> string -> P -> result string (stream * option ExportInfo) * P;
  (** the optional [SnapshotManager.DeleteSnapshot] *)
  hv_DeleteSnapshot : option (string -> string -> time -> P -> result string (option Task) * P) }.

Definition unsupported : string := verr_Error ErrUnsupported.

(** The contract: capability-gated methods answer [ErrUnsupported] when their bit
    is not set, read methods do not write, identity and capabilities are stable,
    and a successful creation returns a task. *)
Class HypervisorLaws (P : Type) `{Hypervisor P} : Prop := {
  hv_create_gated p spec now :
    Has (hv_Capabilities p) CapCreateVM = false -> hv_CreateVM spec now p = (Err unsupported, p);
  hv_export_gated p vm fmt :
    Has (hv_Capabilities p) CapExport = false -> hv_ExportVM vm fmt p = (Err unsupported, p);
  hv_get_reads p vm : (hv_GetVM vm p).2 = p;
  hv_list_reads p vm : (hv_ListSnapshots vm p).2 = p;
  hv_export_reads p vm fmt : (hv_ExportVM vm fmt p).2 = p;
  hv_create_task p spec now : (hv_CreateVM spec now p).1 <> Ok None;
  hv_create_failed p spec now e p' : hv_CreateVM spec now p = (Err e, p') -> p' = p;
  hv_create_same p spec now :
    let p' := (hv_CreateVM spec now p).2 in
    hv_Kind p' = hv_Kind p /\ hv_ID p' = hv_ID p /\ hv_Capabilities p' = hv_Capabilities p;
  hv_power_same p vm op now :
    let p' := (hv_PowerOp vm op now p).2 in
    hv_Kind p' = hv_Kind p /\ hv_ID p' = hv_ID p /\ hv_Capabilities p' = hv_Capabilities p;
  hv_snapshot_same p vm opts now :
    let p' := (hv_Snapshot vm opts now p).2 in
    hv_Kind p' = hv_Kind p /\ hv_ID p' = hv_ID p /\ hv_Capabilities p' = hv_Capabilities p }.

(** ** The simulator implements the interface *)

Definition go_err {A} (r : result verr A) : result string A :=
  match r with Ok a => Ok a | Err e => Err (verr_Error e) end.

Definition go_op {A} (r : result verr A * sim) : result string A * sim := (go_err r.1, r.2).

#[export] Instance sim_hypervisor : Hypervisor sim := {|
  hv_Kind := sim_kind;
  hv_ID := sim_id;
  hv_Capabilities := sim_caps;
  hv_GetVM vm p :=
    (match GetVM vm p with Ok d => Ok (Some d.1) | Err e => Err (verr_Error e) end, p);
  hv_CreateVM spec now p := go_op (CreateVM spec now p);
  hv_PowerOp vm op now p := go_op (PowerOp vm op now p);
  hv_Snapshot vm opts now p := go_op (CreateSnapshot vm opts now now p);
  hv_ListSnapshots vm p := (go_err (ListSnapshots vm p), p);
  hv_ExportVM vm fmt p :=
    (match ExportVM vm fmt p with
     | Ok (data, info) => Ok ((data, None), info)
     | Err e => Err (verr_Error e)
     end, p);
  hv_DeleteSnapshot := None |}.

Lemma go_op_caps now o {A} (r : result verr A * sim) p :
  r.2 = (sim_exec now o p).2 ->
  sim_kind (go_op r).2 = sim_kind p /\ sim_id (go_op r).2 = sim_id p /\
  sim_caps (go_op r).2 = sim_caps p.
Proof.
  intros H. unfold go_op. simpl. rewrite H, sim_exec_caps.
  destruct (sim_exec_id now o p). done.
Qed.

Lemma go_err_none {A} (r : result verr (option A)) : r <> Ok None -> go_err r <> Ok None.
Proof. destruct r; simpl; [|done]. by intros H [= ->]. Qed.

#[export] Instance sim_hypervisor_laws : HypervisorLaws sim.
Proof.
  constructor; simpl; try done.
  - intros p spec now Hc. unfold go_op, CreateVM. by rewrite Hc.
  - intros p vm fmt Hc. unfold ExportVM. by rewrite Hc.
  - intros p spec now. apply go_err_none. sim_cases; done.
  - intros p spec now e p'. unfold go_op, CreateVM. repeat case_match; try (by intros [= _ <-]).
    rewrite done_with_eq. done.
  - intros p spec now. by apply (go_op_caps now (OpCreateVM spec)).
  - intros p vm op now. by apply (go_op_caps now (OpPower vm op)).
  - intros p vm opts now. by apply (go_op_caps now (OpSnapshot vm opts)).
Qed.

(** ** The engines' environment *)

(** The registry of providers and the number of clock readings made so far. *)
Record env (P : Type) := mkEnv { env_reg : gmap string P; env_tick : nat }.
Arguments mkEnv {P} _ _.
Arguments env_reg {P} _.
Arguments env_tick {P} _.

Section Env.
Context {P : Type} `{Hypervisor P} (clock : nat -> time).

(** [time.Now()]: successive readings of an arbitrary clock. *)
Definition tick : M (env P) time := fun w =>
  Some (clock (env_tick w), mkEnv (env_reg w) (S (env_tick w))).

(** [reg.Get(id)]. *)
Definition resolve (id : string) : M (env P) (option P) := gets (fun w => env_reg w !! id).

(** A method call on the provider [id]; on a nil interface Go panics. *)
Definition invoke {A} (id : string) (f : P -> A * P) : M (env P) A := fun w =>
  match env_reg w !! id with
  | None => None
  | Some p => Some ((f p).1, mkEnv (<[id := (f p).2]> (env_reg w)) (env_tick w))
  end.

Definition invoke_at {A} (id : string) (f : time -> P -> A * P) : M (env P) A :=
  now ← tick; invoke id (f now).

Definition set_reg (r : gmap string P) (n : nat) (w : env P) : env P := mkEnv r (env_tick w + n).

Lemma invoke_read {A} id (f : P -> A * P) w p :
  env_reg w !! id = Some p -> (f p).2 = p -> invoke id f w = Some ((f p).1, w).
Proof.
  intros Hp Hf. unfold invoke. rewrite Hp, Hf, insert_id by done. by destruct w.
Qed.

Lemma invoke_at_eq {A} id (f : time -> P -> A * P) w p :
  env_reg w !! id = Some p ->
  let r := f (clock (env_tick w)) p in
  invoke_at id f w = Some (r.1, mkEnv (<[id := r.2]> (env_reg w)) (S (env_tick w))).
Proof. intros Hp. unfold invoke_at, mbind, M_bind, tick, invoke. simpl. by rewrite Hp. Qed.
End Env.

(** Run a computation on a part of a larger state. *)
Definition zoom {W V A} (get : W -> V) (put : V -> W -> W) (m : M V A) : M W A := fun w =>
  match m (get w) with
  | Some (a, v) => Some (a, put v w)
  | None => None
  end.

Lemma zoom_some {W V A} (get : W -> V) (put : V -> W -> W) (m : M V A) w v a :
  m (get w) = Some (a, v) -> zoom get put m w = Some (a, put v w).
Proof. intros H. unfold zoom. by rewrite H. Qed.

Lemma wp_zoom {W V A} (get : W -> V) (put : V -> W -> W) (m : M V A) Q w :
  wp m (fun a v => Q a (put v w)) (get w) -> wp (zoom get put m) Q w.
Proof. unfold wp, zoom. by destruct (m (get w)) as [[a v]|]. Qed.
