(* ===== verification/Migrate.v ===== *)
(** * The V2V migration engine

    server/internal/migrate/{migrate,convert}.go: pre-flight, then
    export, convert, import, finalize, with a job table that callers poll.  The
    engine is modelled over any provider type; every call may change the provider
    it is made on, and a nil dereference is a panic ([None]). *)
From S2P Require Import Prelude GoStd VProvider Sim SimFacts Hypervisor.

(** ** Data *)

Definition PhasePreflight := "preflight".
Definition PhaseExport := "export".
Definition PhaseConvert := "convert".
Definition PhaseImport := "import".
Definition PhaseFinalize := "finalize".
Definition PhaseDone := "done".
Definition PhaseFailed := "failed".

Record Request := mkRequest {
  rq_SourceProviderID : string; rq_SourceVMID : string; rq_TargetProviderID : string;
  rq_TargetHostID : string; rq_TargetStorageID : string; rq_TargetName : string;
  rq_PowerOnAfter : bool }.

Record Progress := mkProgress {
  pg_ID : string; pg_Phase : string; pg_Percent : Z; pg_Message : string;
  pg_SourceVMID : string; pg_TargetVMID : string; pg_Error : string;
  pg_StartedAt : time; pg_UpdatedAt : time }.

(** [Progress.done]. *)
Definition progress_done (p : Progress) : bool :=
  bool_decide (pg_Phase p = PhaseDone) || bool_decide (pg_Phase p = PhaseFailed).

Record PreflightResult := mkPreflight {
  pf_OK : bool; pf_Issues : list string; pf_SourceFormat : string; pf_TargetFormat : string;
  pf_SourceKind : string; pf_TargetKind : string }.

(** [Converter.Convert]: the bytes written to [dst], and the error. *)
Definition converter : Type := stream -> string -> string -> string * option string.

(** [io.Copy(dst, src)]. *)
Definition io_copy (src : stream) : string * option string := src.

(** ** convert.go *)

Definition qemuImgFormat (f : string) : string * bool :=
  if bool_decide (f = DiskVMDK) then ("vmdk", true)
  else if bool_decide (f = DiskQcow2) then ("qcow2", true)
  else if bool_decide (f = DiskRaw) then ("raw", true)
  else if bool_decide (f = DiskVHDX) then ("vhdx", true)
  else if bool_decide (f = DiskVHD) then ("vpc", true)
  else ("", false).

(** The operating system under [QemuImgConverter]: whether qemu-img is found, the
    temp directory, the input file, and the tool (output or error text). *)
Record qemu_os := mkQemuOS {
  qo_lookup : bool;
  qo_mkdirtemp : option string;
  qo_stage : string -> option string;
  qo_run : string -> string -> string -> result string string;
  qo_open : option string }.

Definition QemuImg_Convert (os : qemu_os) : converter := fun src from to =>
  if bool_decide (from = to) then io_copy src
  else
    let '(fromTok, ok1) := qemuImgFormat from in
    let '(toTok, ok2) := qemuImgFormat to in
    if negb ok1 || negb ok2 || negb (qo_lookup os) then io_copy src
    else match qo_mkdirtemp os with
    | Some e => ("", Some e)
    | None =>
        match src.2 with
        | Some e => ("", Some e)
        | None =>
            match qo_stage os src.1 with
            | Some e => ("", Some e)
            | None =>
                match qo_run os fromTok toTok src.1 with
                | Err e => ("", Some ("qemu-img convert failed: " +:+ e))
                | Ok out => match qo_open os with Some e => ("", Some e) | None => (out, None) end
                end
            end
        end
    end.

Definition Passthrough_Convert : converter := fun src _ _ => io_copy src.

(** ** Hardware mapping *)

Definition nativeFormat (k : string) : string :=
  if bool_decide (k = KindVMware) then DiskVMDK
  else if bool_decide (k = KindHyperV) then DiskVHDX
  else if bool_decide (k = KindKVM) || bool_decide (k = KindXen) then DiskQcow2
  else DiskRaw.

Definition mapToTargetSpec (req : Request) (info : option ExportInfo) (targetFmt : string)
    (sizeBytes : Z) : VMSpec :=
  let name := if bool_decide (rq_TargetName req = "")
              then rq_SourceVMID req +:+ "-migrated" else rq_TargetName req in
  let fw := match info with
            | Some i => if bool_decide (ei_Firmware i = "") then FirmwareUEFI else ei_Firmware i
            | None => FirmwareUEFI end in
  let gos := match info with Some i => ei_GuestOS i | None => "" end in
  let disks := match info with
               | Some i => if 0 <? ei_DiskCount i then ei_DiskCount i else 1
               | None => 1 end in
  let gb := f64_div (f64_of_Z sizeBytes) (f64_of_Z (Z.shiftl 1 30)) in
  let gb := if f64_lt gb (f64_of_Z 1) then f64_of_Z 20 else gb in
  basic_VMSpec name (rq_TargetHostID req) 2 4096 gos fw
    (replicate (Z.to_nat disks)
       (mkDiskSpec gb targetFmt (rq_TargetStorageID req) "" None "" false)).

(** ** The engine: its job table, in the environment of the providers *)

Record mig := mkMig { mig_jobs : gmap string Progress; mig_seq : Z }.
Record world (P : Type) := mkWorld { w_env : env P; w_mig : mig }.
Arguments mkWorld {P} _ _.
Arguments w_env {P} _.
Arguments w_mig {P} _.

Definition New_mig : mig := mkMig ∅ 0.

Section Engine.
Context {P : Type} `{Hypervisor P} (clock : nat -> time) (conv : converter).

Definition on_env {A} (m : M (env P) A) : M (world P) A :=
  zoom w_env (fun e w => mkWorld e (w_mig w)) m.
Definition now : M (world P) time := on_env (tick clock).
Definition set_jobs (f : gmap string Progress -> gmap string Progress) : M (world P) unit :=
  modify (fun w => mkWorld (w_env w) (mkMig (f (mig_jobs (w_mig w))) (mig_seq (w_mig w)))).

Definition newID : M (world P) string :=
  _ ← modify (fun w => mkWorld (w_env w) (mkMig (mig_jobs (w_mig w)) (wrap64 (mig_seq (w_mig w) + 1))));
  n ← gets (fun w => mig_seq (w_mig w));
  mret ("mig-" +:+ itoa n).

Definition put (p : Progress) : M (world P) unit := set_jobs (fun m => <[pg_ID p := p]> m).

Definition update (id ph : string) (pct : Z) (msg : string) : M (world P) unit :=
  j ← gets (fun w => mig_jobs (w_mig w) !! id);
  match j with
  | None => mret tt
  | Some j =>
      t ← now;
      set_jobs (fun m => <[id := mkProgress (pg_ID j) ph pct msg (pg_SourceVMID j)
                                   (pg_TargetVMID j) (pg_Error j) (pg_StartedAt j) t]> m)
  end.

Definition annotate (id msg : string) : M (world P) unit :=
  j ← gets (fun w => mig_jobs (w_mig w) !! id);
  match j with
  | None => mret tt
  | Some j =>
      t ← now;
      set_jobs (fun m => <[id := mkProgress (pg_ID j) (pg_Phase j) (pg_Percent j) msg
                                   (pg_SourceVMID j) (pg_TargetVMID j) (pg_Error j)
                                   (pg_StartedAt j) t]> m)
  end.

Definition fail (id msg : string) : M (world P) (option Progress) :=
  j ← gets (fun w => mig_jobs (w_mig w) !! id);
  match j with
  | None => mret None
  | Some j =>
      t ← now;
      let j' := mkProgress (pg_ID j) PhaseFailed (pg_Percent j) msg (pg_SourceVMID j)
                  (pg_TargetVMID j) msg (pg_StartedAt j) t in
      _ ← set_jobs (fun m => <[id := j']> m);
      mret (Some j')
  end.

Definition finishOK (id targetVMID : string) : M (world P) Progress :=
  j ← gets (fun w => mig_jobs (w_mig w) !! id);
  match j with
  | None => panic
  | Some j =>
      t ← now;
      let j' := mkProgress (pg_ID j) PhaseDone 100 "migration complete" (pg_SourceVMID j)
                  targetVMID (pg_Error j) (pg_StartedAt j) t in
      _ ← set_jobs (fun m => <[id := j']> m);
      mret j'
  end.

Definition Get (id : string) : M (world P) (option Progress) :=
  gets (fun w => mig_jobs (w_mig w) !! id).
Definition List : M (world P) (list Progress) := gets (fun w => (map_to_list (mig_jobs (w_mig w))).*2).

(** ** Pre-flight *)

Definition issue (bad : bool) (msg : string) : list string := if bad then [msg] else [].

Definition Preflight (req : Request) : M (world P) (result string PreflightResult) :=
  src ← on_env (resolve (rq_SourceProviderID req));
  match src with
  | None => mret (Err ("migrate: unknown source provider " +:+ quote (rq_SourceProviderID req)))
  | Some src =>
      tgt ← on_env (resolve (rq_TargetProviderID req));
      match tgt with
      | None => mret (Err ("migrate: unknown target provider " +:+ quote (rq_TargetProviderID req)))
      | Some tgt =>
          missing ← (if Has (hv_Capabilities src) CapGetVM
                     then r ← on_env (invoke (rq_SourceProviderID req) (hv_GetVM (rq_SourceVMID req)));
                          mret (negb (is_ok r))
                     else mret false);
          let issues :=
            issue (bool_decide (rq_SourceProviderID req = rq_TargetProviderID req))
              "source and target providers are identical (use intra-hypervisor migrate instead)"
            ++ issue (negb (Has (hv_Capabilities src) CapExport))
              "source hypervisor cannot export disks (no export capability)"
            ++ issue (negb (Has (hv_Capabilities tgt) CapCreateVM))
              "target hypervisor cannot create VMs (no create capability)"
            ++ issue missing ("source VM not found: " +:+ rq_SourceVMID req) in
          mret (Ok (mkPreflight (bool_decide (issues = [])) issues
                      (nativeFormat (hv_Kind src)) (nativeFormat (hv_Kind tgt))
                      (hv_Kind src) (hv_Kind tgt)))
      end
  end.

(** ** Run *)

(** The tail of [Run], from the import on. *)
Definition Run_import (id : string) (req : Request) (pf : PreflightResult)
    (info : option ExportInfo) (convertedBytes : Z) : M (world P) (option Progress * option string) :=
  _ ← update id PhaseImport 80 "creating VM on target hypervisor";
  let spec := mapToTargetSpec req info (pf_TargetFormat pf) convertedBytes in
  r ← on_env (invoke_at clock (rq_TargetProviderID req) (hv_CreateVM spec));
  match r with
  | Err e => p ← fail id ("target create failed: " +:+ e); mret (p, Some e)
  | Ok None => panic
  | Ok (Some task) =>
      let targetVMID := task_EntityID task in
      _ ← update id PhaseFinalize 95 "finalizing";
      tgt ← on_env (resolve (rq_TargetProviderID req));
      match tgt with
      | None => panic
      | Some tgt =>
          _ ← (if rq_PowerOnAfter req && Has (hv_Capabilities tgt) CapPowerStart
               then r ← on_env (invoke_at clock (rq_TargetProviderID req)
                                  (hv_PowerOp targetVMID PowerStart));
                    match r with
                    | Err e => annotate id ("warning: power-on after migrate failed: " +:+ e)
                    | Ok _ => mret tt
                    end
               else mret tt);
          final ← finishOK id targetVMID;
          mret (Some final, None)
      end
  end.

(** The middle of [Run]: export, then the converter and the drain of its pipe.
    The drained reader reports the converter's own error. *)
Definition Run_export (id : string) (req : Request) (pf : PreflightResult)
  : M (world P) (option Progress * option string) :=
  _ ← update id PhaseExport 10 "exporting source disks";
  r ← on_env (invoke (rq_SourceProviderID req) (hv_ExportVM (rq_SourceVMID req) (pf_SourceFormat pf)));
  match r with
  | Err e => p ← fail id ("export failed: " +:+ e); mret (p, Some e)
  | Ok (rc, info) =>
      _ ← update id PhaseConvert 45
            ("converting " +:+ pf_SourceFormat pf +:+ " -> " +:+ pf_TargetFormat pf);
      let '(out, cerr) := conv rc (pf_SourceFormat pf) (pf_TargetFormat pf) in
      let '(convertedBytes, drainErr) := (Z.of_nat (String.length out), cerr) in
      match cerr, drainErr with
      | Some e, _ => p ← fail id ("conversion failed: " +:+ e); mret (p, Some e)
      | None, Some e => p ← fail id ("conversion drain failed: " +:+ e); mret (p, Some e)
      | None, None => Run_import id req pf info convertedBytes
      end
  end.

Definition Run (req : Request) : M (world P) (option Progress * option string) :=
  id ← newID;
  t0 ← now;
  t1 ← now;
  _ ← put (mkProgress id PhasePreflight 0 "running pre-flight checks" (rq_SourceVMID req) "" "" t0 t1);
  pf ← Preflight req;
  match pf with
  | Err e => p ← fail id e; mret (p, Some e)
  | Ok pf =>
      if negb (pf_OK pf) then
        let msg := "pre-flight failed: " +:+ join "; " (pf_Issues pf) in
        p ← fail id msg; mret (p, Some msg)
      else Run_export id req pf
  end.

(** [Start] up to the goroutine, and the goroutine's body [runUnder]. *)
Definition Start (req : Request) : M (world P) string :=
  id ← newID;
  t0 ← now;
  t1 ← now;
  _ ← put (mkProgress id PhasePreflight 0 "queued" (rq_SourceVMID req) "" "" t0 t1);
  mret id.

Definition runUnder (id : string) (req : Request) : M (world P) unit :=
  r ← Run req;
  match r.1 with
  | None => mret tt
  | Some res =>
      set_jobs (fun m =>
        match m !! pg_ID res with
        | Some j =>
            if bool_decide (pg_ID res <> id) then
              delete (pg_ID res)
                (<[id := mkProgress id (pg_Phase j) (pg_Percent j) (pg_Message j) (pg_SourceVMID j)
                           (pg_TargetVMID j) (pg_Error j) (pg_StartedAt j) (pg_UpdatedAt j)]> m)
            else m
        | None => m
        end)
  end.
End Engine.
