(* ===== verification/MigrateProps.v ===== *)
(** * What the migration engine guarantees

    [Run] is total over every registry of lawful providers, implements an
    abstract transfer on the registry alone, and ends with its job in a terminal
    phase; a failed migration leaves every provider as it was. *)
From S2P Require Import Prelude GoStd VProvider Sim SimFacts Hypervisor Migrate.

(** ** The abstract specification: what a migration does to the providers *)

Section Spec.
Context {P : Type} `{Hypervisor P} (conv : converter).

(** The pre-flight verdict on a source and a target provider. *)
Definition preflight_issues (req : Request) (src tgt : P) : list string :=
  issue (bool_decide (rq_SourceProviderID req = rq_TargetProviderID req))
    "source and target providers are identical (use intra-hypervisor migrate instead)"
  ++ issue (negb (Has (hv_Capabilities src) CapExport))
    "source hypervisor cannot export disks (no export capability)"
  ++ issue (negb (Has (hv_Capabilities tgt) CapCreateVM))
    "target hypervisor cannot create VMs (no create capability)"
  ++ issue (Has (hv_Capabilities src) CapGetVM && negb (is_ok (hv_GetVM (rq_SourceVMID req) src).1))
    ("source VM not found: " +:+ rq_SourceVMID req).

(** The bytes to import and their description, or the error. *)
Definition export_convert (req : Request) (src tgt : P) : result string (string * option ExportInfo) :=
  let sf := nativeFormat (hv_Kind src) in
  match (hv_ExportVM (rq_SourceVMID req) sf src).1 with
  | Err e => Err e
  | Ok (rc, info) =>
      match conv rc sf (nativeFormat (hv_Kind tgt)) with
      | (out, None) => Ok (out, info)
      | (_, Some e) => Err e
      end
  end.

(** Creation and the optional power-on, on the target. *)
Definition import_vm (req : Request) (data : string) (info : option ExportInfo) (tc tp : time)
    (tgt : P) : result string string * P :=
  let spec := mapToTargetSpec req info (nativeFormat (hv_Kind tgt)) (Z.of_nat (String.length data)) in
  match hv_CreateVM spec tc tgt with
  | (Ok (Some task), tgt') =>
      (Ok (task_EntityID task),
       if rq_PowerOnAfter req && Has (hv_Capabilities tgt') CapPowerStart
       then (hv_PowerOp (task_EntityID task) PowerStart tp tgt').2 else tgt')
  | (Ok None, tgt') => (Err "", tgt')
  | (Err e, tgt') => (Err e, tgt')
  end.

(** A whole migration: the new VM's id or the error, and the registry after. *)
Definition transfer (req : Request) (tc tp : time) (reg : gmap string P)
  : result string string * gmap string P :=
  match reg !! rq_SourceProviderID req with
  | None => (Err ("migrate: unknown source provider " +:+ quote (rq_SourceProviderID req)), reg)
  | Some src =>
      match reg !! rq_TargetProviderID req with
      | None => (Err ("migrate: unknown target provider " +:+ quote (rq_TargetProviderID req)), reg)
      | Some tgt =>
          match preflight_issues req src tgt with
          | [] =>
              match export_convert req src tgt with
              | Err e => (Err e, reg)
              | Ok (data, info) =>
                  let '(r, tgt') := import_vm req data info tc tp tgt in
                  (r, <[rq_TargetProviderID req := tgt']> reg)
              end
          | issues => (Err ("pre-flight failed: " +:+ join "; " issues), reg)
          end
      end
  end.
End Spec.

(** ** The job table *)

Section Facts.
Context {P : Type} `{HypervisorLaws P} (clock : nat -> time) (conv : converter).

(** Job [id] is the only one that differs from the table [jobs], and is [j]; the
    counter is [n]. *)
Definition job_is (jobs : gmap string Progress) (n : Z) (id : string) (j : Progress)
    (w : world P) : Prop :=
  w_mig w = mkMig (<[id := j]> jobs) n /\ pg_ID j = id.

(** A job that is still running: no target, no error yet. *)
Definition running_job (j : Progress) : Prop := pg_TargetVMID j = "" /\ pg_Error j = "".

(** Same providers. *)
Definition same_reg (w w' : world P) : Prop := env_reg (w_env w') = env_reg (w_env w).

Ltac job_step :=
  unfold update, fail, finishOK, annotate; intros [Hj Hid];
  unfold wp, mbind, M_bind, gets; rewrite Hj; simpl; rewrite lookup_insert_eq; simpl;
  unfold job_is; simpl; rewrite Hj; simpl; rewrite ?insert_insert_eq.

Lemma update_job jobs n id j ph pct msg w :
  job_is jobs n id j w -> running_job j ->
  wp (update clock id ph pct msg)
     (fun _ w' => exists j', job_is jobs n id j' w' /\ running_job j' /\ same_reg w w') w.
Proof. job_step. intros Hr. eexists. split_and!; [reflexivity|done| |reflexivity]. apply Hr. Qed.

Lemma annotate_job jobs n id j msg w :
  job_is jobs n id j w -> running_job j ->
  wp (annotate clock id msg)
     (fun _ w' => exists j', job_is jobs n id j' w' /\ running_job j' /\ same_reg w w') w.
Proof. job_step. intros Hr. eexists. split_and!; [reflexivity|done| |reflexivity]. apply Hr. Qed.

Lemma fail_job jobs n id j msg w :
  job_is jobs n id j w -> running_job j ->
  wp (fail clock id msg)
     (fun r w' => exists j', r = Some j' /\ job_is jobs n id j' w' /\ pg_Phase j' = PhaseFailed /\
        pg_Error j' = msg /\ pg_TargetVMID j' = "" /\ same_reg w w') w.
Proof. job_step. intros [Hr _]. eexists. split_and!; try reflexivity; done. Qed.

Lemma finish_job jobs n id j vm w :
  job_is jobs n id j w -> running_job j ->
  wp (finishOK clock id vm)
     (fun j' w' => job_is jobs n id j' w' /\ pg_Phase j' = PhaseDone /\ pg_Percent j' = 100 /\
        pg_Error j' = "" /\ pg_TargetVMID j' = vm /\ same_reg w w') w.
Proof. job_step. intros [_ Hr]. split_and!; try reflexivity; done. Qed.

(** What a run must have established when it ends, given its outcome. *)
Definition ended (jobs : gmap string Progress) (n : Z) (id : string)
    (o : result string string * gmap string P) (r : option Progress * option string)
    (w : world P) : Prop :=
  exists j, r.1 = Some j /\ job_is jobs n id j w /\ env_reg (w_env w) = o.2 /\
    match o.1 with
    | Ok vm => r.2 = None /\ pg_Phase j = PhaseDone /\ pg_Percent j = 100 /\
               pg_Error j = "" /\ pg_TargetVMID j = vm
    | Err e => r.2 = Some e /\ pg_Phase j = PhaseFailed /\ pg_Error j <> "" /\ pg_TargetVMID j = ""
    end.

Lemma fail_ended jobs n id j msg e reg w :
  job_is jobs n id j w -> running_job j -> env_reg (w_env w) = reg -> msg <> "" ->
  wp (p ← fail clock id msg; mret (p, Some e)) (ended jobs n id (Err e, reg)) w.
Proof.
  intros Hj Hr Hreg Hm. apply wp_bind. eapply wp_mono; [by eapply fail_job|].
  intros r w' (j' & -> & Hj' & Hp & He & Ht & Hs). apply wp_ret. exists j'.
  unfold same_reg in Hs. simpl. split_and!; try done; congruence.
Qed.

Lemma on_env_read {A} id (f : P -> A * P) Q w p :
  env_reg (w_env w) !! id = Some p -> (f p).2 = p -> Q (f p).1 w ->
  wp (on_env (invoke id f)) Q w.
Proof.
  intros Hp Hf HQ. apply wp_zoom. eapply wp_intro; [by eapply invoke_read|]. by destruct w.
Qed.

Lemma on_env_write {A} id (f : time -> P -> A * P) Q (w : world P) p :
  env_reg (w_env w) !! id = Some p ->
  (forall t w', w_mig w' = w_mig w -> env_reg (w_env w') = <[id := (f t p).2]> (env_reg (w_env w)) ->
    Q (f t p).1 w') ->
  wp (on_env (invoke_at clock id f)) Q w.
Proof.
  intros Hp HQ. apply wp_zoom. eapply wp_intro; [by apply invoke_at_eq|]. simpl. by apply HQ.
Qed.

(** ** The three parts of [Run] *)

Lemma preflight_wp req w :
  wp (Preflight req)
     (fun r w' => w' = w /\
        r = match env_reg (w_env w) !! rq_SourceProviderID req with
            | None => Err ("migrate: unknown source provider " +:+ quote (rq_SourceProviderID req))
            | Some src =>
                match env_reg (w_env w) !! rq_TargetProviderID req with
                | None => Err ("migrate: unknown target provider " +:+ quote (rq_TargetProviderID req))
                | Some tgt =>
                    let issues := preflight_issues req src tgt in
                    Ok (mkPreflight (bool_decide (issues = [])) issues
                          (nativeFormat (hv_Kind src)) (nativeFormat (hv_Kind tgt))
                          (hv_Kind src) (hv_Kind tgt))
                end
            end) w.
Proof.
  unfold Preflight. apply wp_bind. unfold on_env at 1, resolve at 1. apply wp_zoom, wp_gets.
  replace (mkWorld (w_env w) (w_mig w)) with w by (by destruct w).
  destruct (env_reg (w_env w) !! rq_SourceProviderID req) as [src|] eqn:Es; [|by apply wp_ret].
  apply wp_bind. unfold on_env at 1, resolve at 1. apply wp_zoom, wp_gets.
  replace (mkWorld (w_env w) (w_mig w)) with w by (by destruct w).
  destruct (env_reg (w_env w) !! rq_TargetProviderID req) as [tgt|] eqn:Et; [|by apply wp_ret].
  apply wp_bind. unfold preflight_issues. destruct (Has (hv_Capabilities src) CapGetVM).
  - apply wp_bind. eapply on_env_read; [done|apply hv_get_reads|]. by do 2 apply wp_ret.
  - by do 2 apply wp_ret.
Qed.

Lemma import_wp jobs n id j req pf data info w tgt :
  job_is jobs n id j w -> running_job j ->
  env_reg (w_env w) !! rq_TargetProviderID req = Some tgt ->
  pf_TargetFormat pf = nativeFormat (hv_Kind tgt) ->
  wp (Run_import clock id req pf info (Z.of_nat (String.length data)))
     (fun r w' => exists tc tp,
        let '(o, tgt') := import_vm req data info tc tp tgt in
        ended jobs n id (o, <[rq_TargetProviderID req := tgt']> (env_reg (w_env w))) r w') w.
Proof.
  intros Hj Hr Ht Hf. unfold Run_import. rewrite Hf. set (spec := mapToTargetSpec _ _ _ _).
  apply wp_bind. eapply wp_mono; [by apply (update_job jobs n id j)|].
  clear j Hj Hr. intros _ w1 (j & Hj & Hr & Hs). unfold same_reg in Hs.
  apply wp_bind. eapply on_env_write; [by rewrite Hs|]. intros tc w2 Hm2 Hreg2. rewrite Hs in Hreg2.
  assert (job_is jobs n id j w2) as Hj2 by (unfold job_is; rewrite Hm2; exact Hj).
  destruct (hv_CreateVM spec tc tgt) as [[[task|]|e] tgt'] eqn:Ec; simpl in *.
  - apply wp_bind. eapply wp_mono; [by apply (update_job jobs n id j)|].
    clear j Hj Hj2 Hr. intros _ w3 (j & Hj & Hr & Hs3). unfold same_reg in Hs3.
    assert (env_reg (w_env w3) !! rq_TargetProviderID req = Some tgt') as Ht3
      by (by rewrite Hs3, Hreg2, lookup_insert_eq).
    apply wp_bind. unfold on_env at 1, resolve at 1. apply wp_zoom, wp_gets.
    replace (mkWorld (w_env w3) (w_mig w3)) with w3 by (by destruct w3).
    rewrite Ht3. apply wp_bind.
    destruct (rq_PowerOnAfter req && Has (hv_Capabilities tgt') CapPowerStart) eqn:Hpw.
    + apply wp_bind. eapply on_env_write; [done|]. intros tp w4 Hm4 Hreg4.
      assert (job_is jobs n id j w4) as Hj4 by (unfold job_is; rewrite Hm4; exact Hj).
      eapply (wp_mono _ (fun _ w' => exists j', job_is jobs n id j' w' /\ running_job j' /\ same_reg w4 w')).
      { case_match; [apply wp_ret; exists j; split_and!; [exact Hj4|exact Hr|reflexivity]|]. by apply (annotate_job jobs n id j). }
      clear j Hj Hr Hj4. intros _ w5 (j & Hj & Hr & Hs5). unfold same_reg in Hs5.
      apply wp_bind. eapply wp_mono; [by apply (finish_job jobs n id j)|].
      intros j' w6 (Hj' & Hp & Hc & He & Hv & Hs6). unfold same_reg in Hs6. apply wp_ret.
      exists tc, tp. unfold import_vm. fold spec. rewrite Ec, Hpw. exists j'. simpl.
      split_and!; try done. by rewrite Hs6, Hs5, Hreg4, Hs3, Hreg2, insert_insert_eq.
    + apply wp_ret. apply wp_bind. eapply wp_mono; [by apply (finish_job jobs n id j)|].
      intros j' w6 (Hj' & Hp & Hc & He & Hv & Hs6). unfold same_reg in Hs6. apply wp_ret.
      exists tc, 0. unfold import_vm. fold spec. rewrite Ec, Hpw. exists j'. simpl.
      split_and!; try done. by rewrite Hs6, Hs3, Hreg2.
  - exfalso. apply (hv_create_task tgt spec tc). by rewrite Ec.
  - eapply wp_mono; [by eapply (fail_ended jobs n id j)|].
    intros r w3 Hend. exists tc, 0. unfold import_vm. fold spec. rewrite Ec. exact Hend.
Qed.

Lemma issues_nil {A} (l : list A) (x : result string string * gmap string P) y :
  l = [] -> match l with [] => x | _ => y end = x.
Proof. by intros ->. Qed.

Lemma export_wp jobs n id j req pf w src tgt :
  job_is jobs n id j w -> running_job j ->
  env_reg (w_env w) !! rq_SourceProviderID req = Some src ->
  env_reg (w_env w) !! rq_TargetProviderID req = Some tgt ->
  pf_SourceFormat pf = nativeFormat (hv_Kind src) ->
  pf_TargetFormat pf = nativeFormat (hv_Kind tgt) ->
  preflight_issues req src tgt = [] ->
  wp (Run_export clock conv id req pf)
     (fun r w' => exists tc tp, ended jobs n id (transfer conv req tc tp (env_reg (w_env w))) r w') w.
Proof.
  intros Hj Hr Hsrc Htgt Hf1 Hf2 Hiss. unfold Run_export, transfer. rewrite Hf1, Hf2, Hsrc, Htgt.
  apply wp_bind. eapply wp_mono; [by apply (update_job jobs n id j)|].
  clear j Hj Hr. intros _ w1 (j & Hj & Hr & Hs). unfold same_reg in Hs.
  apply wp_bind. eapply on_env_read; [by rewrite Hs|apply hv_export_reads|].
  rewrite Hiss. unfold export_convert.
  destruct (hv_ExportVM (rq_SourceVMID req) (nativeFormat (hv_Kind src)) src) as [[[rc info]|e] src'].
  - cbn [fst]. apply wp_bind. eapply wp_mono; [by apply (update_job jobs n id j)|].
    clear j Hj Hr. intros _ w2 (j & Hj & Hr & Hs2). unfold same_reg in Hs2.
    destruct (conv rc (nativeFormat (hv_Kind src)) (nativeFormat (hv_Kind tgt))) as [out [e|]].
    + eapply wp_mono; [by eapply (fail_ended jobs n id j)|]. intros r w3 Hend. exists 0, 0.
      rewrite <- Hs. exact Hend.
    + eapply wp_mono; [eapply (import_wp jobs n id j); [done|done| |done]|].
      { by rewrite Hs2, Hs. }
      intros r w3 (tc & tp & Hend). exists tc, tp. rewrite Hs2, Hs in Hend.
      by destruct (import_vm req out info tc tp tgt).
  - cbn [fst]. eapply wp_mono; [by eapply (fail_ended jobs n id j)|]. intros r w3 Hend.
    exists 0, 0. exact Hend.
Qed.

(** The id [newID] hands out next. *)
Definition next_id (m : mig) : string := "mig-" +:+ itoa (wrap64 (mig_seq m + 1)).

Lemma newID_wp Q (w : world P) :
  Q (next_id (w_mig w))
    (mkWorld (w_env w) (mkMig (mig_jobs (w_mig w)) (wrap64 (mig_seq (w_mig w) + 1)))) ->
  wp newID Q w.
Proof. done. Qed.

Lemma now_wp Q (w : world P) :
  (forall t e, env_reg e = env_reg (w_env w) -> Q t (mkWorld e (w_mig w))) -> wp (now clock) Q w.
Proof. intros HQ. by apply HQ. Qed.

(** The common opening of [Run] and [Start]: the new job is in the table. *)
Lemma open_job {A} (msg : string) vm (k : string -> M (world P) A) Q w :
  (forall j w1, job_is (mig_jobs (w_mig w)) (wrap64 (mig_seq (w_mig w) + 1)) (next_id (w_mig w)) j w1 -> running_job j ->
     pg_Phase j = PhasePreflight -> pg_Message j = msg ->
     same_reg w w1 -> wp (k (next_id (w_mig w))) Q w1) ->
  wp (id ← newID; t0 ← now clock; t1 ← now clock;
      _ ← put (mkProgress id PhasePreflight 0 msg vm "" "" t0 t1); k id) Q w.
Proof.
  intros HQ. apply wp_bind, newID_wp. generalize (next_id (w_mig w)), HQ. clear HQ.
  intros id HQ. apply wp_bind, now_wp. intros t0 e0 He0. apply wp_bind, now_wp. intros t1 e1 He1.
  apply wp_bind. unfold put, set_jobs. apply wp_modify. simpl in *.
  eapply HQ; [split; reflexivity|split; reflexivity|reflexivity..|].
  unfold same_reg. simpl. congruence.
Qed.

Lemma run_wp req w :
  wp (Run clock conv req)
     (fun r w' => exists tc tp,
        ended (mig_jobs (w_mig w)) (wrap64 (mig_seq (w_mig w) + 1)) (next_id (w_mig w))
          (transfer conv req tc tp (env_reg (w_env w))) r w') w.
Proof.
  unfold Run. apply open_job. intros j w1 Hj Hr _ _ Hs. unfold same_reg in Hs.
  rewrite <- Hs. generalize dependent (next_id (w_mig w)). intros id Hj.
  generalize dependent (mig_jobs (w_mig w)). intros jobs Hj.
  generalize dependent (wrap64 (mig_seq (w_mig w) + 1)). intros n Hj. clear Hs w.
  apply wp_bind. eapply wp_mono; [apply preflight_wp|]. intros r w2 (-> & ->). cbn zeta.
  destruct (env_reg (w_env w1) !! rq_SourceProviderID req) as [src|] eqn:Es.
  2: { eapply wp_mono; [by eapply (fail_ended jobs n id j)|]. intros r w3 Hend. exists 0, 0.
       unfold transfer. by rewrite Es. }
  destruct (env_reg (w_env w1) !! rq_TargetProviderID req) as [tgt|] eqn:Et.
  2: { eapply wp_mono; [by eapply (fail_ended jobs n id j)|]. intros r w3 Hend. exists 0, 0.
       unfold transfer. by rewrite Es, Et. }
  cbn [pf_OK pf_Issues]. destruct (preflight_issues req src tgt) as [|i0 iss] eqn:Ei.
  - by eapply (export_wp jobs n id j).
  - eapply wp_mono; [by eapply (fail_ended jobs n id j)|]. intros r w3 Hend. exists 0, 0.
    unfold transfer. by rewrite Es, Et, Ei.
Qed.

(** ** Runs in sequence: job ids *)

(** The table of an engine: jobs stored under their own, issued, ids. *)
Definition jobs_ok (m : mig) : Prop :=
  0 <= mig_seq m /\
  forall k j, mig_jobs m !! k = Some j -> pg_ID j = k /\ issued "mig" (mig_seq m) k.

Lemma next_id_eq m : 0 <= mig_seq m < 2 ^ 63 - 1 -> next_id m = "mig" +:+ "-" +:+ itoa (mig_seq m + 1).
Proof. intros Hn. unfold next_id. rewrite wrap64_id; [done|]. unfold int64_range. lia. Qed.

Lemma next_id_fresh m : jobs_ok m -> mig_seq m < 2 ^ 63 - 1 -> mig_jobs m !! next_id m = None.
Proof.
  intros [H0' Hok] Hlt. apply eq_None_not_Some. intros [j Hj].
  destruct (Hok _ _ Hj) as [_ Hi]. rewrite next_id_eq in Hi by lia. by apply issued_fresh in Hi.
Qed.

Lemma jobs_ok_add m j :
  jobs_ok m -> mig_seq m < 2 ^ 63 - 1 -> pg_ID j = next_id m ->
  jobs_ok (mkMig (<[next_id m := j]> (mig_jobs m)) (wrap64 (mig_seq m + 1))).
Proof.
  intros [H0' Hok] Hlt Hid. rewrite wrap64_id by (unfold int64_range; lia).
  split; simpl; [lia|]. intros k j' Hk. apply lookup_insert_Some in Hk as [[<- <-]|[_ Hk]].
  - split; [done|]. rewrite next_id_eq by lia. by apply issued_next.
  - destruct (Hok _ _ Hk) as [? Hi]. split; [done|]. eapply issued_mono; [|done]. lia.
Qed.

Lemma ended_terminal jobs n id o r w :
  ended jobs n id o r w ->
  exists j, r.1 = Some j /\ job_is jobs n id j w /\ progress_done j = true.
Proof.
  intros (j & Hr & Hj & _ & Ho). exists j. split_and!; [done..|]. unfold progress_done.
  destruct o.1; destruct Ho as (_ & -> & _); vm_compute; done.
Qed.

(** [Run] on each request in turn. *)
Fixpoint run_all (reqs : list Request) : M (world P) unit :=
  match reqs with
  | [] => mret tt
  | req :: reqs => _ ← Run clock conv req; run_all reqs
  end.

Lemma run_all_wp reqs w :
  jobs_ok (w_mig w) -> mig_seq (w_mig w) + Z.of_nat (length reqs) < 2 ^ 63 ->
  wp (run_all reqs)
     (fun _ w' => jobs_ok (w_mig w') /\
        size (mig_jobs (w_mig w')) = (size (mig_jobs (w_mig w)) + length reqs)%nat /\
        (forall k j, mig_jobs (w_mig w) !! k = Some j -> mig_jobs (w_mig w') !! k = Some j) /\
        (forall k j, mig_jobs (w_mig w') !! k = Some j ->
           mig_jobs (w_mig w) !! k = Some j \/ progress_done j = true)) w.
Proof.
  revert w. induction reqs as [|req reqs IH]; intros w Hok Hlt; simpl in *.
  { apply wp_ret. split_and!; [done|lia|done|by left]. }
  apply wp_bind. eapply wp_mono; [apply run_wp|].
  intros r w1 (tc & tp & Hend). destruct (ended_terminal _ _ _ _ _ _ Hend) as (j & _ & [Hj Hid] & Hd).
  pose proof (next_id_fresh _ Hok ltac:(lia)) as Hfresh.
  pose proof (jobs_ok_add _ _ Hok ltac:(lia) Hid) as Hok1. rewrite <- Hj in Hok1.
  destruct Hok as [H0' _].
  assert (wrap64 (mig_seq (w_mig w) + 1) = mig_seq (w_mig w) + 1) as Hw
    by (apply wrap64_id; unfold int64_range; lia).
  eapply wp_mono; [apply IH; [done|]|].
  { rewrite Hj. simpl. lia. }
  intros _ w2 (Hok2 & Hsz & Hkeep & Hterm). rewrite Hj in Hsz, Hkeep, Hterm. simpl in *.
  split_and!; [done| | |].
  - rewrite Hsz, map_size_insert_None by done. lia.
  - intros k j' Hk. apply Hkeep. rewrite lookup_insert_ne; [done|]. intros <-. congruence.
  - intros k j' Hk. destruct (Hterm _ _ Hk) as [Hk'|]; [|by right].
    apply lookup_insert_Some in Hk' as [[<- <-]|[_ Hk']]; [by right|by left].
Qed.

Lemma start_wp req w :
  wp (Start clock req)
     (fun id w' => id = next_id (w_mig w) /\ same_reg w w' /\
        exists j, job_is (mig_jobs (w_mig w)) (wrap64 (mig_seq (w_mig w) + 1)) id j w' /\
          pg_Phase j = PhasePreflight /\ pg_Message j = "queued" /\ running_job j) w.
Proof.
  unfold Start. apply open_job. intros j w1 Hj Hr Hp Hm Hs. apply wp_ret.
  split_and!; [done..|]. by exists j.
Qed.
End Facts.

(** ** Properties *)

Section Properties.
Context {P : Type} `{HypervisorLaws P} (clock : nat -> time) (conv : converter).

(** C17 [Run] never panics and implements the abstract transfer, for every
    registry of lawful providers, clock and converter: its outcome and the
    registry it leaves are those of [transfer]; its job is the only one that
    changed, is the progress returned, and is done at 100 percent with the new
    VM's id when the transfer succeeds, failed with an error message otherwise. *)
Theorem migrate_run_refines req (w : world P) :
  exists r w' tc tp,
    Run clock conv req w = Some (r, w') /\
    let o := transfer conv req tc tp (env_reg (w_env w)) in
    env_reg (w_env w') = o.2 /\
    exists j, r.1 = Some j /\ pg_ID j = next_id (w_mig w) /\
      mig_jobs (w_mig w') = <[next_id (w_mig w) := j]> (mig_jobs (w_mig w)) /\
      match o.1 with
      | Ok vm => r.2 = None /\ pg_Phase j = PhaseDone /\ pg_Percent j = 100 /\
                 pg_Error j = "" /\ pg_TargetVMID j = vm
      | Err e => r.2 = Some e /\ pg_Phase j = PhaseFailed /\ pg_Error j <> "" /\ pg_TargetVMID j = ""
      end.
Proof.
  destruct (wp_inv _ _ _ (run_wp clock conv req w)) as (r & w' & Hrun & tc & tp & j & Hr & [Hj Hid] & Hreg & Ho).
  exists r, w', tc, tp. split; [done|]. cbn zeta. split; [done|].
  exists j. by rewrite Hj.
Qed.

Lemma import_failed req data info tc tp (tgt : P) e tgt' :
  import_vm req data info tc tp tgt = (Err e, tgt') -> tgt' = tgt.
Proof.
  unfold import_vm. set (spec := mapToTargetSpec _ _ _ _).
  destruct (hv_CreateVM spec tc tgt) as [[[task|]|e'] t'] eqn:Ec; intros [= ? <-]; try done.
  - exfalso. apply (hv_create_task tgt spec tc). by rewrite Ec.
  - by eapply hv_create_failed.
Qed.

Lemma transfer_frame req tc tp (reg : gmap string P) :
  let o := transfer conv req tc tp reg in
  (forall id, id <> rq_TargetProviderID req -> o.2 !! id = reg !! id) /\
  (is_ok o.1 = false -> o.2 = reg) /\
  (is_ok o.1 = true -> exists src tgt,
     rq_SourceProviderID req <> rq_TargetProviderID req /\
     reg !! rq_SourceProviderID req = Some src /\ reg !! rq_TargetProviderID req = Some tgt /\
     Has (hv_Capabilities src) CapExport = true /\ Has (hv_Capabilities tgt) CapCreateVM = true).
Proof.
  unfold transfer. cbn zeta.
  destruct (reg !! rq_SourceProviderID req) as [src|] eqn:Es; [|done].
  destruct (reg !! rq_TargetProviderID req) as [tgt|] eqn:Et; [|done].
  destruct (preflight_issues req src tgt) eqn:Ei; [|done].
  destruct (export_convert conv req src tgt) as [[data info]|e]; [|done].
  destruct (import_vm req data info tc tp tgt) as [r tgt'] eqn:Eim. simpl. split_and!.
  - intros id Hid. by rewrite lookup_insert_ne.
  - intros Hr. destruct r as [|e]; [done|]. apply import_failed in Eim as ->. by apply insert_id.
  - intros _. exists src, tgt. unfold preflight_issues, issue in Ei.
    apply app_nil in Ei as [E1 Ei]. apply app_nil in Ei as [E2 Ei]. apply app_nil in Ei as [E3 _].
    split_and!; [|done|done| |].
    + intros Heq. rewrite bool_decide_true in E1; done.
    + by destruct (Has (hv_Capabilities src) CapExport).
    + by destruct (Has (hv_Capabilities tgt) CapCreateVM).
Qed.

(** A migration touches at most its target: every other provider is left as it
    was, a migration that reports an error leaves the target as it was too, and
    one that succeeds ran between two distinct registered providers of which the
    source can export and the target can create. *)
Theorem migrate_frame req (w : world P) :
  exists r w', Run clock conv req w = Some (r, w') /\
    (forall id, id <> rq_TargetProviderID req ->
       env_reg (w_env w') !! id = env_reg (w_env w) !! id) /\
    (r.2 <> None -> env_reg (w_env w') = env_reg (w_env w)) /\
    (r.2 = None -> exists src tgt,
       rq_SourceProviderID req <> rq_TargetProviderID req /\
       env_reg (w_env w) !! rq_SourceProviderID req = Some src /\
       env_reg (w_env w) !! rq_TargetProviderID req = Some tgt /\
       Has (hv_Capabilities src) CapExport = true /\ Has (hv_Capabilities tgt) CapCreateVM = true).
Proof.
  destruct (wp_inv _ _ _ (run_wp clock conv req w)) as (r & w' & Hrun & tc & tp & j & Hr & _ & Hreg & Ho).
  exists r, w'. split; [done|].
  destruct (transfer_frame req tc tp (env_reg (w_env w))) as (H1 & H2 & H3). rewrite <- Hreg in *.
  split; [done|]. destruct (transfer conv req tc tp (env_reg (w_env w))).1; destruct Ho as [-> _];
    split; try done; auto.
Qed.

(** C37 The job table of an engine that has run any list of requests holds one
    finished job per request, each under its own id: no job is ever overwritten,
    lost or left unfinished. *)
Theorem migrate_jobs_terminal reqs (e : env P) :
  Z.of_nat (length reqs) < 2 ^ 63 ->
  exists w', run_all clock conv reqs (mkWorld e New_mig) = Some (tt, w') /\
    size (mig_jobs (w_mig w')) = length reqs /\
    forall k j, mig_jobs (w_mig w') !! k = Some j -> pg_ID j = k /\ progress_done j = true.
Proof.
  intros Hlt. destruct (wp_inv _ _ _ (run_all_wp clock conv reqs (mkWorld e New_mig) ltac:(done) Hlt))
    as ([] & w' & Hrun & [_ Hok] & Hsz & _ & Hterm).
  exists w'. split; [done|]. split; [by rewrite Hsz|].
  intros k j Hk. split; [by apply (Hok _ _ Hk)|]. by destruct (Hterm _ _ Hk).
Qed.

(** An asynchronous migration ([Start], then the goroutine's [runUnder]) ends
    with its outcome under the id the caller was given and nothing else added to
    the table; but while it runs its progress is kept under another id, so the
    caller's job still reads queued at 0 percent when the work has finished. *)
Theorem migrate_async req (w : world P) :
  jobs_ok (w_mig w) -> mig_seq (w_mig w) + 2 < 2 ^ 63 ->
  exists id w1 r w2 w3,
    Start clock req w = Some (id, w1) /\ Run clock conv req w1 = Some (r, w2) /\
    runUnder clock conv id req w1 = Some (tt, w3) /\
    (exists j, mig_jobs (w_mig w2) !! id = Some j /\ pg_Phase j = PhasePreflight /\
               pg_Message j = "queued") /\
    (exists res j, r.1 = Some res /\ mig_jobs (w_mig w3) = <[id := j]> (mig_jobs (w_mig w)) /\
       pg_ID j = id /\ progress_done j = true /\
       pg_Phase j = pg_Phase res /\ pg_TargetVMID j = pg_TargetVMID res /\ pg_Error j = pg_Error res).
Proof.
  intros Hok Hlt.
  destruct (wp_inv _ _ _ (start_wp clock req w)) as (id & w1 & Hst & Hid & _ & j & [Hj Hjid] & Hp & Hm & _).
  destruct (wp_inv _ _ _ (run_wp clock conv req w1)) as (r & w2 & Hrun & tc & tp & Hend).
  destruct (ended_terminal _ _ _ _ _ _ Hend) as (res & Hr & [Hj2 Hres] & Hd).
  assert (jobs_ok (w_mig w1)) as Hok1.
  { rewrite Hj, Hid. apply jobs_ok_add; [done|lia|congruence]. }
  assert (mig_seq (w_mig w1) < 2 ^ 63 - 1) as Hlt1.
  { rewrite Hj. simpl. destruct Hok as [? _]. rewrite wrap64_id; [lia|]. unfold int64_range. lia. }
  pose proof (next_id_fresh _ Hok1 Hlt1) as Hfresh.
  assert (id <> next_id (w_mig w1)) as Hne.
  { intros Heq. rewrite <- Heq, Hj in Hfresh. simpl in Hfresh. by rewrite lookup_insert_eq in Hfresh. }
  pose proof (next_id_fresh _ Hok ltac:(lia)) as Hfresh0. rewrite <- Hid in Hfresh0.
  assert (mig_jobs (w_mig w1) = <[id := j]> (mig_jobs (w_mig w))) as Hj1 by (by rewrite Hj).
  assert (mig_jobs (w_mig w2) = <[next_id (w_mig w1) := res]> (mig_jobs (w_mig w1))) as Hjobs2
    by (by rewrite Hj2).
  do 5 eexists. split; [exact Hst|]. split; [exact Hrun|]. split.
  { unfold runUnder. erewrite M_bind_some by exact Hrun. rewrite Hr. unfold set_jobs, modify. done. }
  split.
  - exists j. rewrite Hjobs2, lookup_insert_ne, Hj1, lookup_insert_eq by done. done.
  - exists res. simpl. rewrite Hjobs2, Hres, lookup_insert_eq, bool_decide_true by done.
    eexists. split; [done|]. split.
    + rewrite Hj1, (insert_insert_ne _ id) by done. rewrite insert_insert_eq, delete_insert_id; [done|].
      rewrite lookup_insert_ne by done. rewrite Hj1 in Hfresh. by rewrite lookup_insert_ne in Hfresh.
    + split_and!; done.
Qed.
End Properties.

(** ** The engine over simulators *)

Definition two_sims : env sim :=
  mkEnv {[ "src" := New "src" []; "dst" := set_seq 3 (New "dst" []) ]} 0.
Definition req_ok : Request := mkRequest "src" "vm-1" "dst" "" "" "" true.
Definition req_same : Request := mkRequest "src" "vm-1" "src" "" "" "" true.

Lemma migrate_run_refines_witness :
  exists r w', Run (fun _ => 7) Passthrough_Convert req_ok (mkWorld two_sims New_mig) = Some (r, w') /\
               (r.2 = None -> exists j, r.1 = Some j /\ pg_Phase j = PhaseDone).
Proof.
  destruct (migrate_run_refines (fun _ => 7) Passthrough_Convert req_ok (mkWorld two_sims New_mig))
    as (r & w' & tc & tp & Hrun & _ & j & Hj & _ & _ & Ho).
  exists r, w'. split; [exact Hrun|]. intros Hn. exists j. split; [exact Hj|].
  destruct (transfer _ _ _ _ _).1; [apply Ho|]. destruct Ho as [Ho _]. congruence.
Defined.

Lemma migrate_frame_witness :
  exists r w', Run (fun _ => 7) Passthrough_Convert req_same (mkWorld two_sims New_mig) = Some (r, w') /\
               (r.2 <> None -> env_reg (w_env w') = env_reg two_sims).
Proof.
  destruct (migrate_frame (fun _ => 7) Passthrough_Convert req_same (mkWorld two_sims New_mig))
    as (r & w' & Hrun & _ & H & _). exists r, w'. split; [exact Hrun|exact H].
Defined.

Lemma migrate_jobs_terminal_witness :
  exists w', run_all (fun _ => 7) Passthrough_Convert [req_ok; req_same] (mkWorld two_sims New_mig)
               = Some (tt, w') /\ size (mig_jobs (w_mig w')) = 2%nat.
Proof.
  destruct (migrate_jobs_terminal (fun _ => 7) Passthrough_Convert [req_ok; req_same] two_sims)
    as (w' & H & Hs & _); [simpl; lia|]. exists w'. split; [exact H|exact Hs].
Defined.

Lemma migrate_async_witness :
  exists id w1 r w2, Start (fun _ => 7) req_ok (mkWorld two_sims New_mig) = Some (id, w1) /\
    Run (fun _ => 7) Passthrough_Convert req_ok w1 = Some (r, w2) /\
    exists j, mig_jobs (w_mig w2) !! id = Some j /\ pg_Message j = "queued".
Proof.
  destruct (migrate_async (fun _ => 7) Passthrough_Convert req_ok (mkWorld two_sims New_mig))
    as (id & w1 & r & w2 & w3 & H1 & H2 & _ & (j & Hj & _ & Hm) & _).
  - split; [simpl; lia|]. intros k j Hk. simpl in Hk. by rewrite lookup_empty in Hk.
  - simpl. lia.
  - exists id, w1, r, w2. split; [exact H1|]. split; [exact H2|]. exists j. split; [exact Hj|exact Hm].
Defined.

Lemma nativeFormat_valid k : DiskFormat_Valid (nativeFormat k) = true.
Proof. unfold nativeFormat. repeat case_match; by vm_compute. Qed.

Lemma sim_preflight_ok req src dst :
  rq_SourceProviderID req <> rq_TargetProviderID req ->
  sim_caps src = FullCaps -> sim_caps dst = FullCaps -> is_Some (sim_vms src !! rq_SourceVMID req) ->
  preflight_issues req src dst = [].
Proof.
  intros Hne Hcs Hct [v Hv]. unfold preflight_issues, issue. simpl. unfold GetVM. rewrite Hcs, Hct, Hv.
  replace (Has FullCaps CapExport) with true by (by vm_compute).
  replace (Has FullCaps CapCreateVM) with true by (by vm_compute).
  replace (Has FullCaps CapGetVM) with true by (by vm_compute).
  by rewrite bool_decide_false.
Qed.

(** The simulator's export, and its creation, when their guards pass. *)
Lemma sim_export_convert req src dst v :
  Has (sim_caps src) CapExport = true -> sim_vms src !! rq_SourceVMID req = Some v ->
  exists data info, export_convert Passthrough_Convert req src dst = Ok (data, Some info) /\
    ei_Firmware info = vm_Firmware v /\ ei_DiskCount info = Z.of_nat (length (vm_Disks v)).
Proof.
  intros Hc Hv. unfold export_convert. simpl. unfold ExportVM. rewrite Hc, nativeFormat_valid, Hv.
  simpl. do 2 eexists. split; [reflexivity|]. done.
Qed.

Lemma sim_import req data info tc tp dst :
  sim_caps dst = FullCaps -> wf dst -> 3 <= sim_seq dst -> sim_seq dst + 3 < 2 ^ 63 ->
  trim_space (rq_TargetName req) <> "" -> ei_Firmware info <> "" ->
  exists id dst' nv, import_vm req data (Some info) tc tp dst = (Ok id, dst') /\
    id <> "" /\ sim_vms dst !! id = None /\ sim_vms dst' = <[id := nv]> (sim_vms dst) /\
    vm_Name nv = rq_TargetName req /\ vm_Firmware nv = ei_Firmware info /\
    Z.of_nat (length (vm_Disks nv)) = Z.max 1 (ei_DiskCount info) /\
    vm_State nv = (if rq_PowerOnAfter req then StateRunning else StateStopped).
Proof.
  intros Hc Hwf H3 Hlt Hname Hfw.
  assert (rq_TargetName req <> "") as Hn by (intros E; rewrite E in Hname; by vm_compute in Hname).
  unfold import_vm, mapToTargetSpec. rewrite bool_decide_false by done. rewrite bool_decide_false by done.
  set (n := if 0 <? ei_DiskCount info then ei_DiskCount info else 1).
  assert (n = Z.max 1 (ei_DiskCount info)) as Hnd.
  { unfold n. destruct (Z.ltb_spec 0 (ei_DiskCount info)); lia. }
  set (disk := mkDiskSpec _ _ _ _ _ _ _). set (fmt := basic_VMSpec _ _ _ _ _ _ _).
  assert (hv_CreateVM fmt tc dst = go_op (CreateVM fmt tc dst)) as -> by done.
  unfold CreateVM. replace (Has (sim_caps dst) CapCreateVM) with true by (rewrite Hc; by vm_compute).
  rewrite bool_decide_false by done. simpl negb. cbv iota.
  replace ((false || (vs_VCPUs fmt <=? 0)) || (vs_MemoryMB fmt <=? 0)) with false by done. cbv iota.
  rewrite nextID_eq, done_with_eq by lia. unfold go_op. cbn [fst snd go_err].
  set (id := "vm" +:+ "-" +:+ itoa (sim_seq dst + 1)).
  assert (sim_vms dst !! id = None) as Hfree by (by apply vm_slot_free).
  cbn [task_EntityID]. match goal with |- context [set_vms (<[id := ?v]> _)] => set (nv := v) end.
  assert (length (vm_Disks nv) = Z.to_nat n) as Hdisks.
  { unfold nv, fmt, basic_VMSpec. simpl. by rewrite length_imap, length_replicate. }
  destruct (rq_PowerOnAfter req).
  - cbn [andb hv_Capabilities sim_hypervisor sim_caps set_tracker set_seq set_vms].
    replace (Has (sim_caps dst) CapPowerStart) with true by (rewrite Hc; by vm_compute).
    cbn [hv_PowerOp sim_hypervisor]. unfold go_op, PowerOp. cbn [snd].
    replace (PowerOp_Valid PowerStart) with true by (by vm_compute).
    cbn [negb sim_caps set_tracker set_seq set_vms sim_vms].
    replace (Has (sim_caps dst) (PowerOpCapability PowerStart)) with true by (rewrite Hc; by vm_compute).
    rewrite lookup_insert_eq, done_with_eq. cbn [negb snd].
    exists id. do 2 eexists. split; [reflexivity|]. split; [done|]. split; [done|]. simpl.
    rewrite insert_insert_eq. split; [reflexivity|]. simpl.
    split_and!; [done|done| |done]. rewrite length_imap, length_replicate. lia.
  - exists id. do 2 eexists. split; [reflexivity|]. split; [done|]. split; [done|]. split; [reflexivity|].
    split_and!; [done|done| |done]. rewrite Hdisks. lia.
Qed.

(** End to end on simulators: migrating an existing VM from one fully capable
    simulator to another (whose counter has passed its seeded ids) with the
    pass-through converter always succeeds; the target gains one VM, under a fresh
    id and the requested name, with the source's firmware and as many disks as the
    source exports (at least one); it is running exactly when power-on was asked;
    the source is unchanged and still has its VM. *)
Theorem migrate_between_sims clock req (e : env sim) jobs src dst v :
  rq_SourceProviderID req <> rq_TargetProviderID req ->
  env_reg e !! rq_SourceProviderID req = Some src -> env_reg e !! rq_TargetProviderID req = Some dst ->
  sim_caps src = FullCaps -> sim_caps dst = FullCaps -> sim_vms src !! rq_SourceVMID req = Some v ->
  vm_Firmware v <> "" -> trim_space (rq_TargetName req) <> "" ->
  wf dst -> 3 <= sim_seq dst -> sim_seq dst + 3 < 2 ^ 63 ->
  exists r w' j dst' nv,
    Run clock Passthrough_Convert req (mkWorld e jobs) = Some (r, w') /\
    r.2 = None /\ r.1 = Some j /\ pg_Phase j = PhaseDone /\
    env_reg (w_env w') = <[rq_TargetProviderID req := dst']> (env_reg e) /\
    sim_vms dst !! pg_TargetVMID j = None /\
    sim_vms dst' = <[pg_TargetVMID j := nv]> (sim_vms dst) /\
    vm_Name nv = rq_TargetName req /\ vm_Firmware nv = vm_Firmware v /\
    length (vm_Disks nv) = Nat.max 1 (length (vm_Disks v)) /\
    vm_State nv = (if rq_PowerOnAfter req then StateRunning else StateStopped).
Proof.
  intros Hne Hs Ht Hcs Hct Hv Hfw Hname Hwf H3 Hlt.
  destruct (wp_inv _ _ _ (run_wp clock Passthrough_Convert req (mkWorld e jobs)))
    as (r & w' & Hrun & tc & tp & j & Hr & _ & Hreg & Ho).
  assert (preflight_issues req src dst = []) as Hpre by (apply sim_preflight_ok; [done..|by exists v]).
  destruct (sim_export_convert req src dst v) as (data & info & Hexp & Hifw & Hidisks);
    [by rewrite Hcs|done|].
  destruct (sim_import req data info tc tp dst) as (id & dst' & nv & Himp & _ & Hfree & Hvms & Hn & Hf & Hd & Hst);
    [done..|congruence|].
  unfold transfer in Hreg, Ho. simpl in Hreg, Ho. rewrite Hs, Ht, Hpre, Hexp, Himp in *. simpl in *.
  destruct Ho as (Herr & Hph & _ & _ & Hvm). subst id.
  exists r, w', j, dst', nv. split_and!; try done; [congruence|lia].
Qed.

Lemma migrate_between_sims_witness :
  exists r w', Run (fun _ => 7) Passthrough_Convert (mkRequest "src" "vm-1" "dst" "" "" "copy" true)
                 (mkWorld two_sims New_mig) = Some (r, w') /\ r.2 = None.
Proof.
  destruct (migrate_between_sims (fun _ => 7) (mkRequest "src" "vm-1" "dst" "" "" "copy" true)
              two_sims New_mig (New "src" []) (set_seq 3 (New "dst" [])) (seed_vm (New "src" []) 0 StateRunning).2)
    as (r & w' & j & dst' & nv & Hrun & Hr & _).
  - done.
  - by vm_compute.
  - by vm_compute.
  - by vm_compute.
  - by vm_compute.
  - by vm_compute.
  - done.
  - by vm_compute.
  - pose proof (New_wf "dst" [] (Forall_nil_2 _)) as []. by constructor.
  - done.
  - done.
  - exists r, w'. split; [exact Hrun|exact Hr].
Defined.
