(* ===== verification/Replication.v ===== *)
(** * Cross-hypervisor replication: the disaster-recovery engine

    server/internal/replication/replication.go, the store row it persists
    (store/replication.go) and the API handlers that register, run and fail over
    policies (api/replication.go).  A cycle is cut into the segments between
    which other goroutines may run; [runCycle] is their sequence. *)
From S2P Require Import Prelude GoStd VProvider Sim SimFacts Hypervisor Migrate.

(** ** Data *)

Definition StatusIdle := "idle".
Definition StatusSyncing := "syncing".
Definition StatusError := "error".
Definition StatusDegraded := "degraded".
Definition StatusFailedOver := "failed_over".

Record Policy := mkPolicy {
  pol_ID : string; pol_Name : string; pol_SourceProviderID : string; pol_SourceVMID : string;
  pol_TargetProviderID : string; pol_TargetHostID : string;
  pol_IntervalSeconds : Z; pol_Retain : Z; pol_Enabled : bool }.

Record Cycle := mkCycle {
  cyc_StartedAt : time; cyc_FinishedAt : time; cyc_DurationMs : Z; cyc_BytesTransferred : Z;
  cyc_ReplicaVMID : string; cyc_OK : bool; cyc_Error : string; cyc_FirstCycle : bool }.

Record State := mkState {
  st_Policy : Policy; st_Status : string; st_LastSyncAt : time; st_LastDurationMs : Z;
  st_BytesTransferred : Z; st_ReplicaVMID : string; st_LastError : string;
  st_MeasuredRPOSeconds : Z; st_RPOTargetSeconds : Z; st_CycleCount : Z;
  st_History : list Cycle }.

Definition maxHistory : nat := 50.

(** [job.cancel] is the interval of the ticker goroutine it would stop. *)
Record job := mkJob { job_policy : State; job_cancel : option duration }.

(** The row of replication_policies (nullable columns as options). *)
Record repl_row := mkRow {
  row_ID : string; row_Name : string; row_SourceProviderID : string; row_SourceVMID : string;
  row_TargetProviderID : string; row_TargetHostID : option string;
  row_IntervalSeconds : Z; row_Retain : Z; row_Enabled : bool; row_Status : string;
  row_LastSyncAt : option Z; row_ReplicaVMID : option string; row_LastError : option string;
  row_CreatedAt : Z; row_UpdatedAt : Z }.

Record world (P : Type) := mkWorld {
  rw_mig : Migrate.world P; rw_jobs : gmap string job; rw_running : bool;
  rw_store : option (gmap string repl_row) }.
Arguments mkWorld {P} _ _ _ _.
Arguments rw_mig {P} _.
Arguments rw_jobs {P} _.
Arguments rw_running {P} _.
Arguments rw_store {P} _.

Definition zero_policy : Policy := mkPolicy "" "" "" "" "" "" 0 0 false.
Definition fresh_state : State := mkState zero_policy StatusIdle 0 0 0 "" "" 0 0 0 [].

(** Field assignments on [j.policy]. *)
Definition st_set_status (s : string) (st : State) : State :=
  mkState (st_Policy st) s (st_LastSyncAt st) (st_LastDurationMs st) (st_BytesTransferred st)
    (st_ReplicaVMID st) (st_LastError st) (st_MeasuredRPOSeconds st) (st_RPOTargetSeconds st)
    (st_CycleCount st) (st_History st).
Definition st_set_error (e : string) (st : State) : State :=
  mkState (st_Policy st) (st_Status st) (st_LastSyncAt st) (st_LastDurationMs st)
    (st_BytesTransferred st) (st_ReplicaVMID st) e (st_MeasuredRPOSeconds st)
    (st_RPOTargetSeconds st) (st_CycleCount st) (st_History st).
Definition st_set_rpo (s : Z) (st : State) : State :=
  mkState (st_Policy st) (st_Status st) (st_LastSyncAt st) (st_LastDurationMs st)
    (st_BytesTransferred st) (st_ReplicaVMID st) (st_LastError st) s (st_RPOTargetSeconds st)
    (st_CycleCount st) (st_History st).
Definition st_set_policy (p : Policy) (st : State) : State :=
  mkState p (if bool_decide (st_Status st = "") then StatusIdle else st_Status st)
    (st_LastSyncAt st) (st_LastDurationMs st) (st_BytesTransferred st) (st_ReplicaVMID st)
    (st_LastError st) (st_MeasuredRPOSeconds st) (pol_IntervalSeconds p) (st_CycleCount st)
    (st_History st).

(** [recordCycle] on the live state. *)
Definition fold_cycle (c : Cycle) (status lastErr replicaVMID : string) (syncAt : time)
    (st : State) : State :=
  let ok := cyc_OK c in
  let synced := ok && negb (is_zero_time syncAt) in
  let hist := st_History st ++ [c] in
  mkState (st_Policy st) status
    (if synced then syncAt else st_LastSyncAt st)
    (cyc_DurationMs c)
    (if ok then wrap64 (st_BytesTransferred st + cyc_BytesTransferred c) else st_BytesTransferred st)
    (if ok && negb (bool_decide (replicaVMID = "")) then replicaVMID else st_ReplicaVMID st)
    lastErr
    (if synced then 0 else st_MeasuredRPOSeconds st)
    (st_RPOTargetSeconds st)
    (wrap64 (st_CycleCount st + 1))
    (if (maxHistory <? length hist)%nat then last_n maxHistory hist else hist).

(** ** The store: UPDATE ... SET ..., COALESCE(?, column) ... WHERE id = ? *)

Definition null_str (s : string) : option string := if bool_decide (s = "") then None else Some s.

Definition UpdateReplicationPolicyState (id status lastErr replicaVMID : string) (lastSyncAt : Z)
    (now : time) (rows : gmap string repl_row) : gmap string repl_row :=
  let sync := if 0 <? lastSyncAt then Some lastSyncAt else None in
  let coalesce {A} (new old : option A) := match new with Some _ => new | None => old end in
  alter (fun r =>
    mkRow (row_ID r) (row_Name r) (row_SourceProviderID r) (row_SourceVMID r)
      (row_TargetProviderID r) (row_TargetHostID r) (row_IntervalSeconds r) (row_Retain r)
      (row_Enabled r) status (coalesce sync (row_LastSyncAt r))
      (coalesce (null_str replicaVMID) (row_ReplicaVMID r)) (null_str lastErr)
      (row_CreatedAt r) (unix now)) id rows.

(** [toEnginePolicy]. *)
Definition toEnginePolicy (r : repl_row) : Policy :=
  mkPolicy (row_ID r) (row_Name r) (row_SourceProviderID r) (row_SourceVMID r)
    (row_TargetProviderID r) (default "" (row_TargetHostID r)) (row_IntervalSeconds r)
    (row_Retain r) (row_Enabled r).

Section Engine.
Context {P : Type} `{Hypervisor P} (clock : nat -> time) (conv : converter).

Definition on_mig {A} (m : M (Migrate.world P) A) : M (world P) A :=
  zoom rw_mig (fun v w => mkWorld v (rw_jobs w) (rw_running w) (rw_store w)) m.
Definition on_env {A} (m : M (env P) A) : M (world P) A := on_mig (Migrate.on_env m).
Definition now : M (world P) time := on_env (tick clock).
Definition set_jobs (f : gmap string job -> gmap string job) : M (world P) unit :=
  modify (fun w => mkWorld (rw_mig w) (f (rw_jobs w)) (rw_running w) (rw_store w)).
Definition job_of (id : string) : M (world P) (option job) := gets (fun w => rw_jobs w !! id).
Definition alter_state (id : string) (f : State -> State) : M (world P) unit :=
  set_jobs (alter (fun j => mkJob (f (job_policy j)) (job_cancel j)) id).

(** ** Lifecycle of the engine and its policies *)

Definition Start : M (world P) unit :=
  modify (fun w => mkWorld (rw_mig w) (rw_jobs w) true (rw_store w)).
Definition Stop : M (world P) unit :=
  modify (fun w => mkWorld (rw_mig w) ((fun j => mkJob (job_policy j) None) <$> rw_jobs w) false
                     (rw_store w)).

(** [scheduleLocked]: the ticker's interval. *)
Definition schedule_interval (p : Policy) : duration :=
  let interval := dur_of (pol_IntervalSeconds p) Second in
  if interval <=? 0 then 5 * Minute else interval.

Definition Upsert (p : Policy) : M (world P) State :=
  j ← job_of (pol_ID p);
  let st := st_set_policy p (default fresh_state (job_policy <$> j)) in
  running ← gets rw_running;
  let cancel := if running && pol_Enabled p && negb (bool_decide (st_Status st = StatusFailedOver))
                then Some (schedule_interval p) else None in
  _ ← set_jobs (fun m => <[pol_ID p := mkJob st cancel]> m);
  mret st.

Definition Remove (id : string) : M (world P) unit := set_jobs (delete id).

(** ** State mutation *)

Definition setStatus (id s lastErr : string) : M (world P) unit :=
  alter_state id (fun st =>
    let st := st_set_status s st in
    if bool_decide (lastErr = "") then st else st_set_error lastErr st).

Definition persist (id status lastErr replicaVMID : string) (syncAt : Z) : M (world P) unit :=
  store ← gets rw_store;
  match store with
  | None => mret tt
  | Some rows =>
      if bool_decide (id = "") then mret tt
      else
        t ← now;
        modify (fun w => mkWorld (rw_mig w) (rw_jobs w) (rw_running w)
          (Some (UpdateReplicationPolicyState id status lastErr replicaVMID syncAt t rows)))
  end.

Definition recordCycle (id : string) (c : Cycle) (status lastErr replicaVMID : string)
    (syncAt : time) : M (world P) unit :=
  j ← job_of id;
  match j with
  | None => mret tt
  | Some j =>
      _ ← alter_state id (fold_cycle c status lastErr replicaVMID syncAt);
      let syncUnix := if is_zero_time syncAt then 0 else unix syncAt in
      persist (pol_ID (st_Policy (job_policy j))) status lastErr replicaVMID syncUnix
  end.

Definition snapshotState (id : string) : M (world P) (option State) :=
  j ← job_of id;
  match j with
  | None => mret None
  | Some j =>
      let st := job_policy j in
      if negb (is_zero_time (st_LastSyncAt st)) && negb (bool_decide (st_Status st = StatusFailedOver))
      then t ← now;
           mret (Some (st_set_rpo (f64_to_int64 (dur_seconds (time_sub t (st_LastSyncAt st)))) st))
      else mret (Some st)
  end.

(** [State] (a copy, or not found) and [List]. *)
Definition State_of (id : string) : M (world P) (option State) := snapshotState id.
Fixpoint snapshot_all (ids : list string) : M (world P) (list State) :=
  match ids with
  | [] => mret []
  | id :: ids =>
      st ← snapshotState id;
      sts ← snapshot_all ids;
      mret (match st with Some st => st :: sts | None => sts end)
  end.
Definition List : M (world P) (list State) :=
  ids ← gets (fun w => (map_to_list (rw_jobs w)).*1); snapshot_all ids.

(** ** One cycle, cut at its lock and call boundaries *)

Definition unknown_policy (id : string) : string :=
  "replication: unknown policy " +:+ quote id.

(** Up to the per-policy lock: the checks and the copies they read. *)
Definition cycle_check (id : string) : M (world P) (result string (Policy * string)) :=
  j ← job_of id;
  match j with
  | None => mret (Err (unknown_policy id))
  | Some j =>
      let st := job_policy j in
      if bool_decide (st_Status st = StatusFailedOver)
      then mret (Err ("replication: policy " +:+ quote id
                      +:+ " is failed-over; replication is paused"))
      else mret (Ok (st_Policy st, st_ReplicaVMID st))
  end.

(** The head of the locked section: status, then the consistency snapshot. *)
Definition cycle_open (id : string) (pol : Policy) (priorReplica : string)
  : M (world P) Cycle :=
  start ← now;
  _ ← setStatus id StatusSyncing "";
  let cyc := mkCycle start 0 0 0 "" false "" (bool_decide (priorReplica = "")) in
  src ← on_env (resolve (pol_SourceProviderID pol));
  match src with
  | Some src =>
      if Has (hv_Capabilities src) CapSnapshot then
        r ← on_env (invoke_at clock (pol_SourceProviderID pol)
              (hv_Snapshot (pol_SourceVMID pol)
                 (mkSnapshotOptions ("unihv-repl-" +:+ itoa (unix start))
                    "UniHV replication consistency point" false true)));
        match r with
        | Err e => mret (mkCycle start 0 0 0 "" false ("snapshot warning: " +:+ e)
                           (bool_decide (priorReplica = "")))
        | Ok _ => mret cyc
        end
      else mret cyc
  | None => mret cyc
  end.

(** The V2V pass. *)
Definition cycle_request (pol : Policy) : Request :=
  mkRequest (pol_SourceProviderID pol) (pol_SourceVMID pol) (pol_TargetProviderID pol)
    (pol_TargetHostID pol) "" (pol_SourceVMID pol +:+ "-replica") false.

Definition cycle_transfer (pol : Policy) : M (world P) (option Progress * option string) :=
  on_mig (Migrate.Run clock conv (cycle_request pol)).

(** [estimateBytes]. *)
Definition estimateBytes (providerID vmID : string) : M (world P) Z :=
  tgt ← on_env (resolve providerID);
  match tgt with
  | None => mret 0
  | Some _ =>
      if bool_decide (vmID = "") then mret 0
      else
        d ← on_env (invoke providerID (hv_GetVM vmID));
        match d with
        | Ok (Some v) =>
            mret (f64_to_int64 (f64_mul
                    (foldl (fun t k => f64_add t (disk_CapacityGB k)) f64_zero (vm_Disks v))
                    (f64_of_Z (Z.shiftl 1 30))))
        | _ => mret 0
        end
  end.

Definition cycle_succeeded (r : option Progress * option string) : option Progress :=
  match r with
  | (Some p, None) => if bool_decide (pg_Phase p = PhaseDone) then Some p else None
  | _ => None
  end.

Definition cycle_error (cyc : Cycle) (r : option Progress * option string) : string :=
  let msg := match r with
             | (_, Some e) => e
             | (Some p, None) => if bool_decide (pg_Error p = "") then "replication cycle failed"
                                 else pg_Error p
             | (None, None) => "replication cycle failed"
             end in
  if bool_decide (cyc_Error cyc = "") then msg else cyc_Error cyc +:+ "; " +:+ msg.

(** The tail: the outcome is recorded and the lock released. *)
Definition cycle_close (id : string) (pol : Policy) (cyc : Cycle)
    (r : option Progress * option string) : M (world P) (Cycle * option string) :=
  fin ← now;
  let dur := dur_ms (time_sub fin (cyc_StartedAt cyc)) in
  match cycle_succeeded r with
  | None =>
      let msg := cycle_error cyc r in
      let c := mkCycle (cyc_StartedAt cyc) fin dur 0 "" false msg (cyc_FirstCycle cyc) in
      _ ← recordCycle id c StatusError msg "" 0;
      mret (c, Some ("replication: " +:+ msg))
  | Some prog =>
      bytes ← estimateBytes (pol_TargetProviderID pol) (pg_TargetVMID prog);
      let c := mkCycle (cyc_StartedAt cyc) fin dur bytes (pg_TargetVMID prog) true
                 (cyc_Error cyc) (cyc_FirstCycle cyc) in
      let status := if (0 <? pol_IntervalSeconds pol)
                       && (pol_IntervalSeconds pol <? Z.quot dur 1000)
                    then StatusDegraded else StatusIdle in
      _ ← recordCycle id c status "" (pg_TargetVMID prog) fin;
      mret (c, None)
  end.

Definition runCycle (id : string) : M (world P) (option Cycle * option string) :=
  r ← cycle_check id;
  match r with
  | Err e => mret (None, Some e)
  | Ok (pol, prior) =>
      cyc ← cycle_open id pol prior;
      r ← cycle_transfer pol;
      c ← cycle_close id pol cyc r;
      mret (Some c.1, c.2)
  end.

Definition RunNow (id : string) : M (world P) (option Cycle * option string) := runCycle id.

(** ** Failover, cut in the same way *)

Definition failover_check (id : string) : M (world P) (result string (Policy * string)) :=
  j ← job_of id;
  match j with
  | None => mret (Err (unknown_policy id))
  | Some j =>
      let pol := st_Policy (job_policy j) in
      let replica := st_ReplicaVMID (job_policy j) in
      if bool_decide (replica = "") then
        mret (Err ("replication: policy " +:+ quote id +:+ " has no replica yet (run a cycle first)"))
      else
        tgt ← on_env (resolve (pol_TargetProviderID pol));
        match tgt with
        | None => mret (Err ("replication: target provider " +:+ quote (pol_TargetProviderID pol)
                             +:+ " not found"))
        | Some _ => mret (Ok (pol, replica))
        end
  end.

(** The power-on of the replica: the error, if any. *)
Definition failover_power (pol : Policy) (replica : string) : M (world P) (option string) :=
  tgt ← on_env (resolve (pol_TargetProviderID pol));
  match tgt with
  | None => panic
  | Some tgt =>
      if Has (hv_Capabilities tgt) CapPowerStart then
        r ← on_env (invoke_at clock (pol_TargetProviderID pol) (hv_PowerOp replica PowerStart));
        mret (match r with Err e => Some e | Ok _ => None end)
      else mret None
  end.

Definition failover_mark (id replica : string) (e : option string)
  : M (world P) (option State * option string) :=
  match e with
  | Some e =>
      _ ← setStatus id StatusError ("failover power-on failed: " +:+ e);
      st ← snapshotState id;
      mret (st, Some ("replication: failover power-on failed: " +:+ e))
  | None =>
      _ ← set_jobs (alter (fun j =>
            mkJob (st_set_error "" (st_set_status StatusFailedOver (job_policy j))) None) id);
      _ ← persist id StatusFailedOver "" replica 0;
      st ← snapshotState id;
      mret (st, None)
  end.

Definition Failover (id : string) : M (world P) (option State * option string) :=
  r ← failover_check id;
  match r with
  | Err e => mret (None, Some e)
  | Ok (pol, replica) =>
      e ← failover_power pol replica;
      failover_mark id replica e
  end.

(** ** The API: start-up and the run-now handler *)

(** The rows come ordered by name; the policies have distinct ids, so the order
    does not matter. *)
Definition LoadReplicationPolicies : M (world P) unit :=
  _ ← Start;
  store ← gets rw_store;
  let rows := match store with Some rows => (map_to_list rows).*2 | None => [] end in
  foldr (fun r m => if bool_decide (row_Status r = StatusFailedOver) then m
                    else _ ← Upsert (toEnginePolicy r); m) (mret tt) rows.

(** A policy the engine does not know is registered again from its row. *)
Definition RunReplicationPolicy (id : string) : M (world P) (option Cycle * option string) :=
  store ← gets rw_store;
  match default ∅ store !! id with
  | None => mret (None, Some "not found")
  | Some row =>
      j ← State_of id;
      _ ← match j with
          | Some _ => mret tt
          | None => _ ← Upsert (toEnginePolicy row); mret tt
          end;
      RunNow id
  end.

Definition row_of (w : world P) (id : string) : option repl_row := default ∅ (rw_store w) !! id.
(** [DELETE FROM replication_policies WHERE id = ?]. *)
Definition DeleteReplicationPolicy_row (id : string) : M (world P) (option string) :=
  row ← gets (fun w => row_of w id);
  match row with
  | None => mret (Some "not found")
  | Some _ =>
      _ ← modify (fun w => mkWorld (rw_mig w) (rw_jobs w) (rw_running w) (delete id <$> rw_store w));
      mret None
  end.
(** The delete handler: the engine forgets the policy, then the row goes. *)
Definition DeleteReplicationPolicy (id : string) : M (world P) (option string) :=
  _ ← Remove id; DeleteReplicationPolicy_row id.

Definition FailoverReplicationPolicy (id : string) : M (world P) (option State * option string) :=
  store ← gets rw_store;
  match default ∅ store !! id with
  | None => mret (None, Some "not found")
  | Some _ => Failover id
  end.
End Engine.

(** [replPolicyInput.validate]. *)
Definition validate (p : Policy) : option string :=
  let blank s := bool_decide (trim_space s = "") in
  if blank (pol_Name p) then Some "name is required"
  else if blank (pol_SourceProviderID p) || blank (pol_SourceVMID p)
       then Some "sourceProviderId and sourceVmId are required"
  else if blank (pol_TargetProviderID p) then Some "targetProviderId is required"
  else if bool_decide (pol_SourceProviderID p = pol_TargetProviderID p)
       then Some "source and target providers must differ (cross-hypervisor DR)"
  else if (pol_IntervalSeconds p <? 0) || (pol_Retain p <? 0)
       then Some "intervalSeconds and retain must be non-negative"
  else None.

(** [CreateReplicationPolicy] of the store: the row it inserts. *)
Definition CreateReplicationPolicy_row (p : Policy) (status : string) (now : time) : repl_row :=
  mkRow (pol_ID p) (pol_Name p) (pol_SourceProviderID p) (pol_SourceVMID p)
    (pol_TargetProviderID p) (null_str (pol_TargetHostID p))
    (if pol_IntervalSeconds p <=? 0 then 300 else pol_IntervalSeconds p)
    (if pol_Retain p <=? 0 then 5 else pol_Retain p) (pol_Enabled p)
    (if bool_decide (status = "") then "idle" else status) None None None (unix now) (unix now).

(** ** Goroutines: interleavings of cycles, failovers, registrations and removals *)

(** The program counter of a goroutine.  A cycle is before its check, waiting for the
    lock of the job it found, transferring, or closing; a failover before its check,
    powering on, or marking; a registration before its [Upsert]; the run-now handler
    reading its row, asking the engine, reading the row again, or registering, after
    which it is a cycle; the delete handler before [Remove], or before the deletion of
    the row.  A finished goroutine has the pair it returns.

    The job a cycle found, whose [runMu] it takes, is the object of the map: its
    identity is the number of jobs of the policy that were removed before it. *)
Inductive pc : Type :=
| CycCheck (id : string)
| CycWait (id : string) (obj : nat) (pol : Policy) (prior : string)
| CycTransfer (id : string) (obj : nat) (pol : Policy) (cyc : Cycle)
| CycClose (id : string) (obj : nat) (pol : Policy) (cyc : Cycle) (r : option Progress * option string)
| FoCheck (id : string)
| FoPower (id : string) (pol : Policy) (replica : string)
| FoMark (id replica : string) (e : option string)
| UpEnter (p : Policy)
| RunGet (id : string)
| RunState (id : string)
| RunReget (id : string)
| RunUpsert (id : string) (row : repl_row)
| DelRemove (id : string)
| DelRow (id : string)
| Finished (c : option Cycle) (err : option string).

(** [sys_locks] holds the [runMu] of the jobs, by policy and job, with the goroutine
    that has it; [sys_objs] counts the jobs of a policy that were removed. *)
Record system (P : Type) := mkSystem {
  sys_world : world P; sys_threads : list pc; sys_locks : gmap (string * nat) nat;
  sys_objs : gmap string nat }.
Arguments mkSystem {P} _ _ _ _.
Arguments sys_world {P} _.
Arguments sys_threads {P} _.
Arguments sys_locks {P} _.
Arguments sys_objs {P} _.

Section System.
Context {P : Type} `{Hypervisor P} (clock : nat -> time) (conv : converter).

Definition obj_of (s : system P) (id : string) : nat := default 0%nat (sys_objs s !! id).

(** Thread [t] runs its next segment: [None] when there is no such thread, it has
    finished, or the lock it waits for is held. *)
Definition sys_step (t : nat) (s : system P) : option (system P) :=
  p ← sys_threads s !! t;
  let w := sys_world s in
  let go (r : option (pc * world P)) (locks : gmap (string * nat) nat) : option (system P) :=
    '(pc', w') ← r; Some (mkSystem w' (<[t := pc']> (sys_threads s)) locks (sys_objs s)) in
  match p with
  | CycCheck id =>
      go ('(r, w) ← cycle_check id w;
          Some (match r with
                | Err e => Finished None (Some e)
                | Ok (pol, prior) => CycWait id (obj_of s id) pol prior
                end, w)) (sys_locks s)
  | CycWait id obj pol prior =>
      match sys_locks s !! (id, obj) with
      | Some _ => None
      | None => go ('(cyc, w) ← cycle_open clock id pol prior w; Some (CycTransfer id obj pol cyc, w))
                  (<[(id, obj) := t]> (sys_locks s))
      end
  | CycTransfer id obj pol cyc =>
      go ('(r, w) ← cycle_transfer clock conv pol w; Some (CycClose id obj pol cyc r, w)) (sys_locks s)
  | CycClose id obj pol cyc r =>
      go ('(c, w) ← cycle_close clock id pol cyc r w; Some (Finished (Some c.1) c.2, w))
        (delete (id, obj) (sys_locks s))
  | FoCheck id =>
      go ('(r, w) ← failover_check id w;
          Some (match r with
                | Err e => Finished None (Some e)
                | Ok (pol, replica) => FoPower id pol replica
                end, w)) (sys_locks s)
  | FoPower id pol replica =>
      go ('(e, w) ← failover_power clock pol replica w; Some (FoMark id replica e, w)) (sys_locks s)
  | FoMark id replica e =>
      go ('(r, w) ← failover_mark clock id replica e w; Some (Finished None r.2, w)) (sys_locks s)
  | UpEnter p => go ('(_, w) ← Upsert p w; Some (Finished None None, w)) (sys_locks s)
  | RunGet id =>
      go (Some (match row_of w id with None => Finished None (Some "not found") | Some _ => RunState id end, w))
        (sys_locks s)
  | RunState id =>
      go ('(st, w) ← State_of clock id w;
          Some (match st with Some _ => CycCheck id | None => RunReget id end, w)) (sys_locks s)
  | RunReget id =>
      go (Some (match row_of w id with None => CycCheck id | Some row => RunUpsert id row end, w)) (sys_locks s)
  | RunUpsert id row =>
      go ('(_, w) ← Upsert (toEnginePolicy row) w; Some (CycCheck id, w)) (sys_locks s)
  | DelRemove id =>
      '(_, w') ← Remove id w;
      Some (mkSystem w' (<[t := DelRow id]> (sys_threads s)) (sys_locks s)
              (if bool_decide (is_Some (rw_jobs w !! id)) then <[id := S (obj_of s id)]> (sys_objs s) else sys_objs s))
  | DelRow id =>
      go ('(e, w) ← DeleteReplicationPolicy_row id w; Some (Finished None e, w)) (sys_locks s)
  | Finished _ _ => None
  end.

(** A schedule: which thread runs next, step after step. *)
Fixpoint sys_run (schedule : list nat) (s : system P) : option (system P) :=
  match schedule with
  | [] => Some s
  | t :: ts => s' ← sys_step t s; sys_run ts s'
  end.
End System.

(** What a step does that others can see: a policy registered, a job removed, or a
    cycle that ran, with the record its goroutine returns. *)
Inductive event : Type := Registered (id : string) | Removed (id : string) | Ran (id : string) (c : Cycle).
Definition event_of (p p' : pc) : list event :=
  match p, p' with
  | UpEnter pol, _ => [Registered (pol_ID pol)]
  | RunUpsert _ row, _ => [Registered (row_ID row)]
  | DelRemove id, _ => [Removed id]
  | CycClose id _ _ _ _, Finished (Some c) _ => [Ran id c]
  | _, _ => []
  end.

(** The transition relation the schedules explore, with what is seen on the way. *)
Inductive traced {P : Type} `{Hypervisor P} (clock : nat -> time) (conv : converter) :
  system P -> list event -> system P -> Prop :=
| traced_refl s : traced clock conv s [] s
| traced_next s t p s' p' evs s'' :
    sys_threads s !! t = Some p -> sys_step clock conv t s = Some s' -> sys_threads s' !! t = Some p' ->
    traced clock conv s' evs s'' -> traced clock conv s (event_of p p' ++ evs) s''.
