(* ===== verification/ReplicationProps.v ===== *)
(** * What the replication engine guarantees

    The effect of one cycle and of a failover on the policy's live state, the
    mutual exclusion of cycles and their history under every interleaving of goroutines,
    what a failover keeps under them, and the orders in which it is forgotten. *)
From S2P Require Import Prelude GoStd VProvider Sim SimFacts Hypervisor Migrate MigrateProps.
From S2P Require Import Replication.

(** ** The engine's operations change only the live state of their policy *)

Section Frames.
Context {P : Type} `{Hypervisor P} (clock : nat -> time) (conv : converter).

Lemma on_mig_jobs {A} (m : M (Migrate.world P) A) w a w' :
  on_mig m w = Some (a, w') ->
  rw_jobs w' = rw_jobs w /\ rw_running w' = rw_running w /\ rw_store w' = rw_store w.
Proof. unfold on_mig, zoom. destruct (m (rw_mig w)) as [[b v]|]; [|done]. by intros [= <- <-]. Qed.

(** An invariant of the states of jobs. *)
Definition all_states (Q : State -> Prop) (m : gmap string job) : Prop :=
  forall id j, m !! id = Some j -> Q (job_policy j).

Lemma all_states_alter (Q : State -> Prop) id f m :
  (forall j, Q (job_policy j) -> Q (job_policy (f j))) -> all_states Q m -> all_states Q (alter f id m).
Proof.
  intros Hf Hm k j Hk. destruct (decide (id = k)) as [<-|].
  - rewrite lookup_alter_eq in Hk. destruct (m !! id) as [j'|] eqn:E; simplify_eq/=. eauto.
  - rewrite lookup_alter_ne in Hk by done. eauto.
Qed.

Definition bounded_history (st : State) : Prop := (length (st_History st) <= maxHistory)%nat.

Lemma fold_cycle_history c status e replica t st :
  bounded_history st ->
  st_History (fold_cycle c status e replica t st) = last_n maxHistory (st_History st ++ [c]) /\
  bounded_history (fold_cycle c status e replica t st).
Proof.
  intros Hb. unfold bounded_history, fold_cycle. simpl.
  destruct (Nat.ltb_spec maxHistory (length (st_History st ++ [c]))) as [Hl|Hl].
  - split; [done|]. rewrite length_last_n. lia.
  - split; [by rewrite last_n_all|done].
Qed.

Lemma on_mig_preserves {A} (I : gmap string job -> option (gmap string repl_row) -> Prop) (m : M (Migrate.world P) A) :
  preserves (fun w => I (rw_jobs w) (rw_store w)) (on_mig m).
Proof. intros w a w' HI (-> & _ & ->)%on_mig_jobs. done. Qed.

Lemma now_preserves I : preserves (fun w : world P => I (rw_jobs w) (rw_store w)) (now clock).
Proof. apply on_mig_preserves. Qed.
Lemma snapshotState_preserves I id :
  preserves (fun w : world P => I (rw_jobs w) (rw_store w)) (snapshotState clock id).
Proof.
  unfold snapshotState. apply preserves_bind; [apply preserves_gets|]. intros [j|]; [|apply preserves_ret].
  case_match; [|apply preserves_ret]. apply preserves_bind; [apply now_preserves|].
  intros ?. apply preserves_ret.
Qed.

Ltac pres :=
  repeat first
    [ apply preserves_ret | apply preserves_gets | apply preserves_panic
    | apply on_mig_preserves | apply now_preserves | apply snapshotState_preserves
    | apply preserves_bind; intros | case_match ].

Lemma cycle_check_preserves I id : preserves (fun w : world P => I (rw_jobs w) (rw_store w)) (cycle_check id).
Proof. unfold cycle_check. pres. Qed.
Lemma failover_check_preserves I id : preserves (fun w : world P => I (rw_jobs w) (rw_store w)) (failover_check id).
Proof. unfold failover_check. pres. Qed.
Lemma cycle_transfer_preserves I pol :
  preserves (fun w : world P => I (rw_jobs w) (rw_store w)) (cycle_transfer clock conv pol).
Proof. unfold cycle_transfer. pres. Qed.
Lemma failover_power_preserves I pol replica :
  preserves (fun w : world P => I (rw_jobs w) (rw_store w)) (failover_power clock pol replica).
Proof. unfold failover_power. pres. Qed.

(** What an operation on policy [k] may do to the jobs and the rows: change the job
    of [k], but not its policy nor its history, and the row of [k]. *)
Definition calm (k : string) (I : gmap string job -> option (gmap string repl_row) -> Prop) : Prop :=
  (forall g jobs store,
     (forall j, st_Policy (job_policy (g j)) = st_Policy (job_policy j) /\
                st_History (job_policy (g j)) = st_History (job_policy j)) ->
     I jobs store -> I (alter g k jobs) store) /\
  (forall f jobs rows, I jobs (Some rows) -> I jobs (Some (alter f k rows))).

Lemma persist_spec id status e replica t (w : world P) u w' :
  persist clock id status e replica t w = Some (u, w') ->
  rw_jobs w' = rw_jobs w /\
  (rw_store w' = rw_store w \/ exists rows f, rw_store w = Some rows /\ rw_store w' = Some (alter f id rows)).
Proof.
  unfold persist, mbind, M_bind, gets. destruct (rw_store w) as [rows|] eqn:Er; [|intros [= _ <-]; auto].
  case_bool_decide; [intros [= _ <-]; auto|].
  cbn. intros [= _ <-]. split; [done|]. right. by do 2 eexists.
Qed.
Lemma calm_persist I id status e replica t : calm id I ->
  preserves (fun w : world P => I (rw_jobs w) (rw_store w)) (persist clock id status e replica t).
Proof.
  intros [_ Hr] w u w' HI (-> & [->|(rows & f & Hs & ->)])%persist_spec; [done|]. rewrite Hs in HI. by apply Hr.
Qed.
Lemma calm_setStatus I id s e : calm id I ->
  preserves (fun w : world P => I (rw_jobs w) (rw_store w)) (setStatus id s e).
Proof.
  intros [Hg _]. apply preserves_modify. intros w HI. simpl. apply Hg; [|done]. intros j. simpl. by case_bool_decide.
Qed.
Lemma calm_open I id pol prior : calm id I ->
  preserves (fun w : world P => I (rw_jobs w) (rw_store w)) (cycle_open clock id pol prior).
Proof. intros Hc. unfold cycle_open. pose proof (fun s e => calm_setStatus I id s e Hc). pres; auto. Qed.
Lemma calm_mark I id replica e : calm id I ->
  preserves (fun w : world P => I (rw_jobs w) (rw_store w)) (failover_mark clock id replica e).
Proof.
  intros Hc. unfold failover_mark.
  assert (preserves (fun w : world P => I (rw_jobs w) (rw_store w))
            (set_jobs (alter (fun j => mkJob (st_set_error "" (st_set_status StatusFailedOver (job_policy j))) None) id))) as Hm.
  { apply preserves_modify. intros w HI. simpl. by apply Hc. }
  pose proof (fun s e => calm_setStatus I id s e Hc). pose proof (fun a b c d => calm_persist I id a b c d Hc).
  repeat (first [solve [auto]|apply snapshotState_preserves|apply preserves_ret|apply preserves_bind; intros|case_match]).
Qed.

(** The record of a cycle: the job of the policy, and the row its policy names. *)
Definition recorded_as (id : string) (c : Cycle) (w w' : world P) : Prop :=
  (exists status e replica t, rw_jobs w' =
     alter (fun j => mkJob (fold_cycle c status e replica t (job_policy j)) (job_cancel j)) id (rw_jobs w)) /\
  (rw_store w' = rw_store w \/
   exists j rows f, rw_jobs w !! id = Some j /\ rw_store w = Some rows /\
     rw_store w' = Some (alter f (pol_ID (st_Policy (job_policy j))) rows)).

Lemma recordCycle_spec id c status e replica t (w : world P) u w' :
  recordCycle clock id c status e replica t w = Some (u, w') -> recorded_as id c w w'.
Proof.
  unfold recordCycle. intros (j & w1 & Hj & Hm)%M_bind_inv. unfold job_of, gets in Hj. simplify_eq.
  destruct (rw_jobs w1 !! id) as [j|] eqn:Ej.
  - apply M_bind_inv in Hm as ([] & w2 & Ha & Hm). unfold alter_state, set_jobs, modify in Ha. simplify_eq.
    apply persist_spec in Hm as [Hm Hs]. simpl in Hm, Hs. split; [by exists status, e, replica, t|].
    destruct Hs as [Hs|(rows & f & Hr & Hs)]; [by left|right]. by exists j, rows, f.
  - apply M_ret_inv in Hm as [_ ->]. split; [|by left]. exists status, e, replica, t. symmetry.
    apply map_eq. intros k. destruct (decide (id = k)) as [<-|]; [by rewrite lookup_alter_eq, Ej|by rewrite lookup_alter_ne].
Qed.

Lemma same_parts {A} (m : M (world P) A) (w : world P) a w' :
  (forall I, preserves (fun w : world P => I (rw_jobs w) (rw_store w)) m) -> m w = Some (a, w') ->
  rw_jobs w' = rw_jobs w /\ rw_store w' = rw_store w.
Proof. intros Hm Hw. by apply (Hm (fun j s => j = rw_jobs w /\ s = rw_store w) w a w'). Qed.
Lemma cycle_close_spec id pol cyc r (w : world P) c w' :
  cycle_close clock id pol cyc r w = Some (c, w') -> recorded_as id c.1 w w'.
Proof.
  assert (forall w1 c w', rw_jobs w1 = rw_jobs w -> rw_store w1 = rw_store w -> recorded_as id c w1 w' -> recorded_as id c w w') as Ht.
  { intros w1 c' w'' Hj Hs. unfold recorded_as. by rewrite Hj, Hs. }
  unfold cycle_close. intros (fin & w1 & Hn & Hm)%M_bind_inv.
  apply same_parts in Hn as [Hj Hs]; [|apply now_preserves].
  destruct (cycle_succeeded r) as [p|].
  - apply M_bind_inv in Hm as (b & w2 & He & Hm). apply same_parts in He as [Hj2 Hs2]; [|intros I; unfold estimateBytes; pres].
    apply M_bind_inv in Hm as (u & w3 & Hr & [-> ->]%M_ret_inv). apply recordCycle_spec in Hr.
    by eapply Ht; [..|eapply Hr]; [rewrite Hj2|rewrite Hs2].
  - apply M_bind_inv in Hm as (u & w3 & Hr & [-> ->]%M_ret_inv). apply recordCycle_spec in Hr. by eapply Ht; [..|eapply Hr].
Qed.
End Frames.

(** ** The histories *)

(** The histories held, by policy. *)
Definition histories {P} (w : world P) : gmap string (list Cycle) := (fun j => st_History (job_policy j)) <$> rw_jobs w.

(** All that ran since a policy was registered: registering a policy that is there
    keeps it, a removal forgets it. *)
Definition replay (h : gmap string (list Cycle)) (e : event) : gmap string (list Cycle) :=
  match e with
  | Registered id => match h !! id with None => <[id := []]> h | Some _ => h end
  | Removed id => delete id h
  | Ran id c => alter (fun l => l ++ [c]) id h
  end.

(** ** Interleavings: the lock of a job *)

(** The segment [m] of a step: its outcome, and what the histories are after it. *)
Ltac segment m Hs Ht' :=
  match type of Hs with
  | context [m ?w] => let E := fresh "E" in destruct (m w) as [[? ?]|] eqn:E; [|done]; simpl in Hs; simplify_eq; simpl in Ht';
      rewrite list_lookup_insert_eq in Ht' by done; simplify_eq
  end.

Section Interleavings.
Context {P : Type} `{Hypervisor P} (clock : nat -> time) (conv : converter).

(** The policy and the job whose locked section a goroutine is in. *)
Definition inside (p : pc) : option (string * nat) :=
  match p with
  | CycTransfer id obj _ _ | CycClose id obj _ _ _ => Some (id, obj)
  | _ => None
  end.
(** The job a cycle works on, from its check to its end. *)
Definition works_on (p : pc) : option (string * nat) :=
  match p with CycWait id obj _ _ => Some (id, obj) | _ => inside p end.

(** What a step of goroutine [t], from [p] to [p'], does to the locks, to the jobs and
    to the histories. *)
Record step_effect (t : nat) (p p' : pc) (s s' : system P) : Prop := {
  eff_threads : sys_threads s' = <[t := p']> (sys_threads s);
  eff_locks :
    (sys_locks s' = sys_locks s /\ inside p' = inside p) \/
    (exists k, inside p = None /\ inside p' = Some k /\ sys_locks s !! k = None /\ sys_locks s' = <[k := t]> (sys_locks s)) \/
    (exists k, inside p = Some k /\ inside p' = None /\ sys_locks s' = delete k (sys_locks s));
  eff_objs : forall id, Removed id ∉ event_of p p' -> obj_of s' id = obj_of s id;
  eff_works : forall id obj, works_on p' = Some (id, obj) -> works_on p = Some (id, obj) \/ obj = obj_of s id;
  eff_quiet : p' = p -> False;
  eff_histories : forall h, histories (sys_world s) = last_n maxHistory <$> h ->
    histories (sys_world s') = last_n maxHistory <$> foldl replay h (event_of p p') }.

(** The histories as an invariant. *)
Lemma calm_histories k h : calm k (fun jobs (_ : option (gmap string repl_row)) => (fun j => st_History (job_policy j)) <$> jobs = h).
Proof.
  split; [|done]. intros g jobs _ Hg <-. apply map_eq. intros i. rewrite !lookup_fmap.
  destruct (decide (k = i)) as [<-|]; [|by rewrite lookup_alter_ne]. rewrite lookup_alter_eq.
  destruct (jobs !! k); [|done]. simpl. by rewrite (proj2 (Hg _)).
Qed.
Lemma histories_kept {A} (m : M (world P) A) w a w' :
  preserves (fun w0 : world P => (fun j => st_History (job_policy j)) <$> rw_jobs w0 = histories w) m ->
  m w = Some (a, w') -> histories w' = histories w.
Proof. intros Hm Hw. by apply (Hm w a w'). Qed.
Lemma histories_recorded id c (w w' : world P) h : recorded_as id c w w' ->
  histories w = last_n maxHistory <$> h -> histories w' = last_n maxHistory <$> replay h (Ran id c).
Proof.
  intros [(status & e & replica & t & Hj) _] Hh. apply map_eq. intros k. unfold histories. rewrite Hj, !lookup_fmap.
  apply (f_equal (fun m => m !! k)) in Hh. unfold histories in Hh. rewrite !lookup_fmap in Hh. simpl.
  destruct (decide (id = k)) as [<-|Hne]; [|by rewrite !lookup_alter_ne].
  rewrite !lookup_alter_eq. destruct (rw_jobs w !! id) as [j|], (h !! id) as [l|]; try done. simpl in *.
  injection Hh as ->. f_equal. rewrite <- (last_n_snoc maxHistory l c).
  destruct (Nat.ltb_spec maxHistory (length (last_n maxHistory l ++ [c]))); [done|].
  by rewrite (last_n_all maxHistory (last_n maxHistory l ++ [c])).
Qed.
Lemma histories_upsert p (w : world P) h : histories w = last_n maxHistory <$> h ->
  exists st w', Upsert p w = Some (st, w') /\ histories w' = last_n maxHistory <$> replay h (Registered (pol_ID p)).
Proof.
  intros Hh. unfold Upsert, job_of, mbind, M_bind, gets, set_jobs, modify. do 2 eexists. split; [reflexivity|].
  apply map_eq. intros k. unfold histories. simpl.
  pose proof (f_equal (fun m => m !! pol_ID p) Hh) as Hp. apply (f_equal (fun m => m !! k)) in Hh. unfold histories in Hh, Hp.
  rewrite !lookup_fmap in *. destruct (decide (pol_ID p = k)) as [<-|Hne].
  - rewrite lookup_insert_eq. destruct (rw_jobs w !! pol_ID p) as [j|], (h !! pol_ID p) as [l|] eqn:El; try done.
    + rewrite El. done.
    + by rewrite lookup_insert_eq.
  - rewrite lookup_insert_ne by done. destruct (h !! pol_ID p); [done|]. by rewrite lookup_insert_ne.
Qed.

Lemma delete_row_spec id (w : world P) e w' : DeleteReplicationPolicy_row id w = Some (e, w') ->
  rw_jobs w' = rw_jobs w /\ (rw_store w' = rw_store w \/ rw_store w' = delete id <$> rw_store w).
Proof.
  unfold DeleteReplicationPolicy_row. rewrite M_bind_gets. destruct (row_of w id).
  - rewrite M_bind_modify. intros [_ ->]%M_ret_inv. auto.
  - intros [_ ->]%M_ret_inv. auto.
Qed.

Ltac effects := constructor; simpl; [done|auto|done|intros id' obj' Hw'; simplify_eq/=; auto|done|intros h Hh; try (simpl; congruence)].

Lemma sys_step_effect t p p' s s' : sys_threads s !! t = Some p -> sys_step clock conv t s = Some s' ->
  sys_threads s' !! t = Some p' -> step_effect t p p' s s'.
Proof.
  intros Ht Hs Ht'. pose proof (lookup_lt_Some _ _ _ Ht) as Hlt. unfold sys_step in Hs. rewrite Ht in Hs. cbn [mbind option_bind] in Hs.
  assert (forall k A (m : M (world P) A) a w',
    (forall I, calm k I -> preserves (fun w : world P => I (rw_jobs w) (rw_store w)) m) ->
    m (sys_world s) = Some (a, w') -> histories w' = histories (sys_world s)) as Hk.
  { intros k A m a w' Hm Hw. eapply histories_kept; [|exact Hw]. apply (Hm _ (calm_histories k _)). }
  assert (forall A (m : M (world P) A) a w', (forall I, preserves (fun w : world P => I (rw_jobs w) (rw_store w)) m) ->
    m (sys_world s) = Some (a, w') -> histories w' = histories (sys_world s)) as Hr.
  { intros A m a w' Hm. by apply (Hk ""). }
  destruct p as [id|id obj pol prior|id obj pol cyc|id obj pol cyc r|id|id pol rep|id rep e|pol|id|id|id|id row|id|id|c e].
  - segment (cycle_check (P:=P) id) Hs Ht'. apply Hr in E; [|intros; apply cycle_check_preserves]. repeat case_match; effects.
  - destruct (sys_locks s !! (id, obj)) eqn:El; [done|]. segment (cycle_open (P:=P) clock id pol prior) Hs Ht'.
    apply (Hk id) in E; [|intros; by apply calm_open]. effects. right. left. by exists (id, obj).
  - segment (cycle_transfer clock conv pol) Hs Ht'. apply Hr in E; [|intros; apply cycle_transfer_preserves]. effects.
  - segment (cycle_close clock id pol cyc r) Hs Ht'. apply cycle_close_spec in E. constructor; simpl; [done|eauto 6|done|done|done|].
    intros h Hh. by eapply histories_recorded.
  - segment (failover_check (P:=P) id) Hs Ht'. apply Hr in E; [|intros; apply failover_check_preserves]. repeat case_match; effects.
  - segment (failover_power clock pol rep) Hs Ht'. apply Hr in E; [|intros; apply failover_power_preserves]. effects.
  - segment (failover_mark (P:=P) clock id rep e) Hs Ht'. apply (Hk id) in E; [|intros; by apply calm_mark]. effects.
  - segment (Upsert (P:=P) pol) Hs Ht'. effects. destruct (histories_upsert pol (sys_world s) h Hh) as (? & ? & Hu & Hh').
    rewrite E in Hu. by simplify_eq.
  - simpl in Hs. simplify_eq. simpl in Ht'. rewrite list_lookup_insert_eq in Ht' by done. simplify_eq. case_match; effects.
  - segment (State_of (P:=P) clock id) Hs Ht'. apply Hr in E; [|intros; apply snapshotState_preserves]. case_match; effects.
  - simpl in Hs. simplify_eq. simpl in Ht'. rewrite list_lookup_insert_eq in Ht' by done. simplify_eq. case_match; effects.
  - segment (Upsert (P:=P) (toEnginePolicy row)) Hs Ht'. effects.
    destruct (histories_upsert (toEnginePolicy row) (sys_world s) h Hh) as (? & ? & Hu & Hh').
    rewrite E in Hu. by simplify_eq.
  - simplify_eq/=. rewrite list_lookup_insert_eq in Ht' by done. simplify_eq. constructor; simpl; [done|auto| |done|done|].
    + intros id' Hne. unfold obj_of at 1. simpl. case_bool_decide; [|done]. rewrite lookup_insert_ne; [done|].
      intros ->. destruct Hne. by left.
    + intros h Hh. unfold histories in *. simpl. by rewrite !fmap_delete, Hh.
  - segment (DeleteReplicationPolicy_row (P:=P) id) Hs Ht'. apply delete_row_spec in E as [E _]. effects. unfold histories in *. congruence.
  - done.
Qed.
Record sys_inv (s : system P) : Prop := {
  inv_holds : forall t p k, sys_threads s !! t = Some p -> inside p = Some k -> sys_locks s !! k = Some t;
  inv_held : forall k t, sys_locks s !! k = Some t -> exists p, sys_threads s !! t = Some p /\ inside p = Some k }.

Lemma step_inv t p p' s s' : sys_threads s !! t = Some p -> step_effect t p p' s s' -> sys_inv s -> sys_inv s'.
Proof.
  intros Ht [Hth Hl _ _ _ _] [Hh Hd]. pose proof (lookup_lt_Some _ _ _ Ht) as Hlt.
  assert (forall u q, u <> t -> sys_threads s' !! u = Some q -> sys_threads s !! u = Some q) as Ho.
  { intros u q Hne. by rewrite Hth, list_lookup_insert_ne by done. }
  assert (forall u q, u <> t -> sys_threads s !! u = Some q -> sys_threads s' !! u = Some q) as Ho'.
  { intros u q Hne. by rewrite Hth, list_lookup_insert_ne by done. }
  assert (sys_threads s' !! t = Some p') as Hself by (by rewrite Hth, list_lookup_insert_eq).
  constructor.
  - intros u q k Hu Hq. destruct (decide (u = t)) as [->|Hne].
    + assert (q = p') as -> by congruence. destruct Hl as [[-> Hi]|[(k' & _ & Hi & _ & ->)|(k' & _ & Hi & _)]]; [|by simplify_map_eq|congruence].
      apply (Hh t p); [done|congruence].
    + pose proof (Hh _ _ _ (Ho _ _ Hne Hu) Hq) as Hk.
      destruct Hl as [[-> _]|[(k' & _ & _ & Hn & ->)|(k' & Hi & _ & ->)]]; [done| |].
      * rewrite lookup_insert_ne; [done|]. intros ->. congruence.
      * rewrite lookup_delete_ne; [done|]. intros ->. pose proof (Hh _ _ _ Ht Hi). congruence.
  - intros k u Hk. destruct Hl as [[El Hi]|[(k' & Hp & Hi & Hn & El)|(k' & Hi & Hp & El)]]; rewrite El in Hk.
    + destruct (Hd k u Hk) as (q & Hq & Hiq). destruct (decide (u = t)) as [->|Hne]; [exists p'; split; [done|congruence]|eauto].
    + apply lookup_insert_Some in Hk as [[<- <-]|[Hne Hk]]; [eauto|]. destruct (Hd k u Hk) as (q & Hq & Hiq).
      exists q. split; [|done]. apply Ho'; [|done]. intros ->. congruence.
    + apply lookup_delete_Some in Hk as [Hne Hk]. destruct (Hd k u Hk) as (q & Hq & Hiq).
      exists q. split; [|done]. apply Ho'; [|done]. intros ->. congruence.
Qed.

(** Every cycle under way on [id] has the job that is there. *)
Definition one_job (id : string) (s : system P) : Prop :=
  forall t p obj, sys_threads s !! t = Some p -> works_on p = Some (id, obj) -> obj = obj_of s id.
Lemma step_one_job id t p p' s s' : sys_threads s !! t = Some p -> step_effect t p p' s s' ->
  Removed id ∉ event_of p p' -> one_job id s -> one_job id s'.
Proof.
  intros Ht [Hth _ Ho Hw _ _] Hr Hj u q obj Hu Hq. rewrite (Ho id Hr). rewrite Hth in Hu.
  pose proof (lookup_lt_Some _ _ _ Ht) as Hlt. destruct (decide (u = t)) as [->|Hne].
  - rewrite list_lookup_insert_eq in Hu by done. simplify_eq. destruct (Hw id obj Hq) as [Hp| ->]; [by eapply Hj|done].
  - rewrite list_lookup_insert_ne in Hu by done. by eapply Hj.
Qed.

(** Goroutines that have not started, and histories within their bound. *)
Definition starting (p : pc) : Prop :=
  match p with CycCheck _ | FoCheck _ | UpEnter _ | RunGet _ | DelRemove _ => True | _ => False end.
Definition initial (s : system P) : Prop :=
  sys_locks s = ∅ /\ Forall starting (sys_threads s) /\ all_states bounded_history (rw_jobs (sys_world s)).

Lemma starting_idle s t p : initial s -> sys_threads s !! t = Some p -> works_on p = None /\ inside p = None.
Proof. intros (_ & Hs & _) Ht. rewrite Forall_lookup in Hs. apply Hs in Ht. by destruct p. Qed.
Lemma initial_inv s : initial s -> sys_inv s /\ (forall id, one_job id s) /\ histories (sys_world s) = last_n maxHistory <$> histories (sys_world s).
Proof.
  intros Hi. split_and!.
  - constructor.
    + intros t p k Ht Hk. apply (starting_idle s t p Hi) in Ht as [_ Ht]. congruence.
    + intros k t Hk. destruct Hi as (Hl & _). rewrite Hl in Hk. by rewrite lookup_empty in Hk.
  - intros id t p obj Ht Hw. apply (starting_idle s t p Hi) in Ht as [Ht _]. congruence.
  - destruct Hi as (_ & _ & Hb). apply map_eq. intros id. unfold histories. rewrite !lookup_fmap.
    destruct (rw_jobs (sys_world s) !! id) as [j|] eqn:Hj; [|done]. simpl. by rewrite last_n_all by (by eapply Hb).
Qed.
Lemma traced_inv s evs s' h : traced clock conv s evs s' -> sys_inv s -> histories (sys_world s) = last_n maxHistory <$> h ->
  sys_inv s' /\ histories (sys_world s') = last_n maxHistory <$> foldl replay h evs /\
  (forall id, Removed id ∉ evs -> one_job id s -> one_job id s').
Proof.
  intros Htr. revert h. induction Htr as [s|s t p s1 p' evs s2 Ht Hs Ht' _ IH]; intros h Hi Hh; [done|].
  pose proof (sys_step_effect _ _ _ _ _ Ht Hs Ht') as He. rewrite foldl_app.
  destruct (IH (foldl replay h (event_of p p')) (step_inv _ _ _ _ _ Ht He Hi) (eff_histories _ _ _ _ _ He _ Hh)) as (Hi' & Hh' & Ho).
  split_and!; [done|done|]. intros id Hr Hj. apply not_elem_of_app in Hr as [Hr1 Hr2]. apply Ho; [done|]. exact (step_one_job id t p p' s s1 Ht He Hr1 Hj).
Qed.
Lemma step_thread t p s s' : sys_threads s !! t = Some p -> sys_step clock conv t s = Some s' ->
  exists p', sys_threads s' !! t = Some p'.
Proof.
  intros Ht Hs. pose proof (lookup_lt_Some _ _ _ Ht) as Hlt. apply lookup_lt_is_Some.
  unfold sys_step in Hs. rewrite Ht in Hs. cbn [mbind option_bind] in Hs.
  assert (length (sys_threads s') = length (sys_threads s)) as ->; [|done].
  destruct p as [|id obj pol prior|id obj pol cyc|id obj pol cyc r| | | | | | | | | | |]; [|destruct (sys_locks s !! (id, obj)); [done|]|..|done].
  all: try (apply bind_Some in Hs as ([pc' w'] & _ & Hs)); injection Hs as <-; simpl; apply length_insert.
Qed.
Lemma sys_run_traced ts s s' : sys_run clock conv ts s = Some s' -> exists evs, traced clock conv s evs s'.
Proof.
  revert s. induction ts as [|t ts IH]; intros s Hs; simpl in Hs; [simplify_eq; eexists; constructor|].
  destruct (sys_step clock conv t s) as [s1|] eqn:E; [|done]. destruct (IH s1 Hs) as [evs Htr].
  destruct (sys_threads s !! t) as [p|] eqn:Ht; [|unfold sys_step in E; by rewrite Ht in E].
  destruct (step_thread t p s s1 Ht E) as [p' Ht']. eexists. by econstructor.
Qed.

(** C25 Mutual exclusion and history, under every interleaving of any number of cycles
    (ticks and manual runs), failovers, registrations, run-now and delete requests, each
    cut where others may run.  At most one cycle of a registered job is ever between its
    snapshot and its record, and so at most one of a policy, as long as the policy is
    not removed (a policy removed and registered again has a new lock).  And the history
    of a policy is the newest [maxHistory] of all the cycles that ran since it was
    registered, in the order in which they ended: what came before them is all that is
    missing, and nothing is while they are no more than that. *)
Theorem replication_mutual_exclusion s evs s' :
  initial s -> traced clock conv s evs s' ->
  (forall t u p q k, sys_threads s' !! t = Some p -> sys_threads s' !! u = Some q ->
     inside p = Some k -> inside q = Some k -> t = u) /\
  (forall t u p q id obj obj', Removed id ∉ evs -> sys_threads s' !! t = Some p -> sys_threads s' !! u = Some q ->
     inside p = Some (id, obj) -> inside q = Some (id, obj') -> t = u) /\
  (forall id j, rw_jobs (sys_world s') !! id = Some j ->
     exists older, foldl replay (histories (sys_world s)) evs !! id = Some (older ++ st_History (job_policy j)) /\
       (length (st_History (job_policy j)) <= maxHistory)%nat /\
       (older <> [] -> length (st_History (job_policy j)) = maxHistory)).
Proof.
  intros Hi Hs. destruct (initial_inv _ Hi) as (Hinv & Hone & Hh).
  destruct (traced_inv _ _ _ _ Hs Hinv Hh) as ([Hl _] & Hh' & Hone').
  assert (forall t u p q k, sys_threads s' !! t = Some p -> sys_threads s' !! u = Some q ->
     inside p = Some k -> inside q = Some k -> t = u) as Hx.
  { intros t u p q k Ht Hu Hp Hq. pose proof (Hl _ _ _ Ht Hp). pose proof (Hl _ _ _ Hu Hq). congruence. }
  split_and!; [done| |].
  - intros t u p q id obj obj' Hr Ht Hu Hp Hq.
    assert (forall v r o, sys_threads s' !! v = Some r -> inside r = Some (id, o) -> o = obj_of s' id) as Hj.
    { intros v r o Hv Hr'. apply (Hone' id Hr (Hone id) v r o Hv). by destruct r. }
    apply (Hx t u p q (id, obj)); [done..|]. by rewrite (Hj _ _ _ Ht Hp), <- (Hj _ _ _ Hu Hq).
  - intros id j Hj. apply (f_equal (fun m => m !! id)) in Hh'. unfold histories in Hh' at 1. rewrite !lookup_fmap, Hj in Hh'.
    destruct (foldl replay _ evs !! id) as [all|]; [|done]. simpl in Hh'. injection Hh' as ->.
    exists (take (length all - maxHistory) all). unfold last_n. rewrite take_drop. split_and!; [done|rewrite length_drop; lia|].
    intros Hne. rewrite length_drop. destruct (decide (length all <= maxHistory)%nat) as [Hle|]; [|lia].
    rewrite (proj2 (Nat.sub_0_le _ _) Hle) in Hne. done.
Qed.
End Interleavings.

(** ** One cycle, run alone *)

Section Cycle.
Context {P : Type} `{HypervisorLaws P} (clock : nat -> time) (conv : converter).

(** The registry of providers. *)
Definition reg_of (w : world P) : gmap string P := env_reg (w_env (rw_mig w)).

(** Computations that cannot panic and change neither policies nor providers. *)
Definition quiet {A} (m : M (world P) A) : Prop :=
  forall w Q, (forall a w', rw_jobs w' = rw_jobs w -> reg_of w' = reg_of w -> Q a w') -> wp m Q w.

Lemma quiet_now : quiet (now clock).
Proof. intros w Q HQ. by apply HQ. Qed.

Lemma quiet_persist id status e replica t : quiet (persist clock id status e replica t).
Proof.
  intros w Q HQ. unfold persist. apply wp_bind, wp_gets. destruct (rw_store w); [|by apply wp_ret, HQ].
  case_match; [by apply wp_ret, HQ|]. apply wp_bind, quiet_now. intros t' w' Hj Hr.
  apply wp_modify, HQ; done.
Qed.

(** A call on a provider that is there. *)
Lemma call_wp {A} id (f : time -> P -> A * P) Q (w : world P) p :
  reg_of w !! id = Some p ->
  (forall t w', rw_jobs w' = rw_jobs w -> reg_of w' = <[id := (f t p).2]> (reg_of w) -> Q (f t p).1 w') ->
  wp (on_env (invoke_at clock id f)) Q w.
Proof.
  intros Hp HQ. unfold on_env, on_mig. apply wp_zoom. unfold Migrate.on_env. apply wp_zoom.
  eapply wp_intro; [by apply invoke_at_eq|]. by apply HQ.
Qed.

Lemma read_wp {A} id (f : P -> A * P) Q (w : world P) p :
  reg_of w !! id = Some p -> (f p).2 = p ->
  (forall a w', rw_jobs w' = rw_jobs w -> reg_of w' = reg_of w -> Q a w') ->
  wp (on_env (invoke id f)) Q w.
Proof.
  intros Hp Hf HQ. unfold on_env, on_mig. apply wp_zoom. unfold Migrate.on_env. apply wp_zoom.
  eapply wp_intro; [by eapply invoke_read|]. by apply HQ.
Qed.

Lemma resolve_wp id Q (w : world P) : Q (reg_of w !! id) w -> wp (on_env (resolve id)) Q w.
Proof. intros HQ. unfold wp. cbn. by destruct w as [[]]. Qed.

Lemma quiet_estimate id vm : quiet (estimateBytes id vm).
Proof.
  intros w Q HQ. unfold estimateBytes. apply wp_bind, resolve_wp.
  destruct (reg_of w !! id) as [p|] eqn:Ep; [|by apply wp_ret, HQ].
  case_match; [by apply wp_ret, HQ|]. apply wp_bind. eapply read_wp; [done|apply hv_get_reads|].
  intros d w1 Hw1 Hr1. destruct d as [[v|]|]; by apply wp_ret, HQ.
Qed.

Lemma alter_insert_job id (f : job -> job) (m : gmap string job) j :
  m !! id = Some j -> alter f id m = <[id := f j]> m.
Proof.
  intros Hj. apply map_eq. intros k. destruct (decide (id = k)) as [<-|].
  - by rewrite lookup_alter_eq, lookup_insert_eq, Hj.
  - by rewrite lookup_alter_ne, lookup_insert_ne.
Qed.

(** The source after the consistency snapshot, when one is attempted. *)
Definition after_snapshot (pol : Policy) (reg reg' : gmap string P) : Prop :=
  reg' = reg \/
  exists src opts t, reg !! pol_SourceProviderID pol = Some src /\
    reg' = <[pol_SourceProviderID pol := (hv_Snapshot (pol_SourceVMID pol) opts t src).2]> reg.

(** The opening: the status, then the snapshot. *)
Lemma open_wp id pol prior (w : world P) j :
  rw_jobs w !! id = Some j ->
  wp (cycle_open clock id pol prior)
     (fun cyc w' =>
        rw_jobs w' = <[id := mkJob (st_set_status StatusSyncing (job_policy j)) (job_cancel j)]> (rw_jobs w) /\
        after_snapshot pol (reg_of w) (reg_of w') /\
        cyc_FirstCycle cyc = bool_decide (prior = "")) w.
Proof.
  intros Hj. unfold cycle_open. apply wp_bind, quiet_now. intros start w1 Hw1 Hr1.
  apply wp_bind. unfold setStatus, alter_state, set_jobs. apply wp_modify. simpl.
  rewrite Hw1, (alter_insert_job _ _ _ _ Hj). simpl. set (w2 := mkWorld _ _ _ _).
  assert (reg_of w2 = reg_of w) as Hr2 by done. rewrite <- Hr2. clear Hr1 Hr2.
  apply wp_bind, resolve_wp.
  destruct (reg_of w2 !! pol_SourceProviderID pol) as [src|] eqn:Es; [|apply wp_ret; by split_and!; [|left|]].
  destruct (Has _ _); [|apply wp_ret; by split_and!; [|left|]]. apply wp_bind. eapply call_wp; [done|].
  intros t w3 Hw3 Hr3. case_match; apply wp_ret; (split_and!; [by rewrite Hw3| |done]);
    right; do 3 eexists; done.
Qed.

Lemma record_wp id c status e replica t (w : world P) j :
  rw_jobs w !! id = Some j ->
  wp (recordCycle clock id c status e replica t)
     (fun _ w' => rw_jobs w' =
        <[id := mkJob (fold_cycle c status e replica t (job_policy j)) (job_cancel j)]> (rw_jobs w) /\
        reg_of w' = reg_of w) w.
Proof.
  intros Hj. unfold recordCycle. apply wp_bind, wp_gets. rewrite Hj. apply wp_bind.
  unfold alter_state, set_jobs. apply wp_modify. apply quiet_persist. intros _ w' Hw Hr.
  rewrite Hw, Hr. simpl. by rewrite (alter_insert_job _ _ _ _ Hj).
Qed.

(** What the end of a cycle leaves in the policy's state [st]. *)
Definition cycle_result (id : string) (st : State) (c : Cycle) (err : option string) (st' : State) : Prop :=
  st_Policy st' = st_Policy st /\
  st_CycleCount st' = wrap64 (st_CycleCount st + 1) /\
  (bounded_history st -> st_History st' = last_n maxHistory (st_History st ++ [c])) /\
  if cyc_OK c then
    err = None /\ (st_Status st' = StatusIdle \/ st_Status st' = StatusDegraded) /\
    st_LastError st' = "" /\
    st_ReplicaVMID st' = (if bool_decide (cyc_ReplicaVMID c = "") then st_ReplicaVMID st
                          else cyc_ReplicaVMID c) /\
    (cyc_FinishedAt c <> 0 -> st_LastSyncAt st' = cyc_FinishedAt c)
  else
    err = Some ("replication: " +:+ cyc_Error c) /\ st_Status st' = StatusError /\
    st_LastError st' = cyc_Error c /\
    st_ReplicaVMID st' = st_ReplicaVMID st /\ st_LastSyncAt st' = st_LastSyncAt st.

Lemma fold_cycle_result id st c err status e replica t :
  (if cyc_OK c then err = None /\ (status = StatusIdle \/ status = StatusDegraded) /\ e = "" /\
                    replica = cyc_ReplicaVMID c /\ t = cyc_FinishedAt c
   else err = Some ("replication: " +:+ cyc_Error c) /\ status = StatusError /\ e = cyc_Error c) ->
  cycle_result id st c err (fold_cycle c status e replica t st).
Proof.
  intros Hc. unfold cycle_result. split; [done|]. split; [done|].
  split; [intros Hb; by apply fold_cycle_history|].
  unfold fold_cycle. simpl. destruct (cyc_OK c); simpl.
  - destruct Hc as (-> & Hs & -> & -> & ->). split_and!; [done|done|done|by case_bool_decide|].
    intros Hne. unfold is_zero_time. by rewrite (proj2 (Z.eqb_neq _ _) Hne).
  - destruct Hc as (-> & -> & ->). done.
Qed.

Lemma close_wp id pol cyc r (w : world P) j :
  rw_jobs w !! id = Some j ->
  wp (cycle_close clock id pol cyc r)
     (fun c w' => exists st', rw_jobs w' = <[id := mkJob st' (job_cancel j)]> (rw_jobs w) /\
        cycle_result id (job_policy j) c.1 c.2 st' /\ reg_of w' = reg_of w /\
        cyc_FirstCycle c.1 = cyc_FirstCycle cyc /\
        (cyc_OK c.1 = true <-> is_Some (cycle_succeeded r)) /\
        (forall p, cycle_succeeded r = Some p -> cyc_ReplicaVMID c.1 = pg_TargetVMID p)) w.
Proof.
  intros Hj. unfold cycle_close. apply wp_bind, quiet_now. intros fin w1 Hw1 Hr1.
  rewrite <- Hw1 in Hj |- *. rewrite <- Hr1. clear Hw1 Hr1 w.
  destruct (cycle_succeeded r) as [p|] eqn:Er.
  - apply wp_bind, quiet_estimate. intros b w2 Hw2 Hr2. rewrite <- Hw2 in Hj |- *. rewrite <- Hr2.
    apply wp_bind. eapply wp_mono; [by apply record_wp|]. cbn beta. intros _ w3 [Hw3 Hr3]. apply wp_ret.
    eexists. split; [done|]. split; [|by split_and!; [| |split|intros p0 Hp0; simplify_eq]].
    apply fold_cycle_result. simpl. split_and!; [done| |done|done|done]. case_match; auto.
  - apply wp_bind. eapply wp_mono; [by apply record_wp|]. cbn beta. intros _ w3 [Hw3 Hr3]. apply wp_ret.
    eexists. split; [done|]. split; [|by split_and!; [| |split; [|intros []]|]].
    by apply fold_cycle_result.
Qed.

Lemma transfer_wp pol w :
  wp (cycle_transfer clock conv pol)
     (fun r w' => rw_jobs w' = rw_jobs w /\
        exists tc tp, let o := transfer conv (cycle_request pol) tc tp (reg_of w) in
          reg_of w' = o.2 /\
          match o.1 with
          | Ok vm => exists p, cycle_succeeded r = Some p /\ pg_TargetVMID p = vm
          | Err _ => cycle_succeeded r = None
          end) w.
Proof.
  unfold cycle_transfer, on_mig. apply wp_zoom. eapply wp_mono; [apply run_wp|].
  intros [p err] v (tc & tp & j & Hp & _ & Hr & Ho). simpl in *. subst p.
  split; [done|]. exists tc, tp. cbn zeta. split; [done|]. unfold cycle_succeeded.
  unfold reg_of. destruct (transfer _ _ _ _ _).1.
  - destruct Ho as (-> & Hph & _ & _ & Hv). rewrite bool_decide_true by done. by exists j.
  - by destruct Ho as (-> & _).
Qed.

Lemma runCycle_wp id (w : world P) j :
  rw_jobs w !! id = Some j -> st_Status (job_policy j) <> StatusFailedOver ->
  wp (runCycle clock conv id)
     (fun r w' => exists c st', r.1 = Some c /\
        rw_jobs w' = <[id := mkJob st' (job_cancel j)]> (rw_jobs w) /\
        cycle_result id (job_policy j) c r.2 st' /\
        cyc_FirstCycle c = bool_decide (st_ReplicaVMID (job_policy j) = "") /\
        exists reg1 tc tp,
          after_snapshot (st_Policy (job_policy j)) (reg_of w) reg1 /\
          let o := transfer conv (cycle_request (st_Policy (job_policy j))) tc tp reg1 in
          reg_of w' = o.2 /\
          match o.1 with
          | Ok vm => cyc_OK c = true /\ cyc_ReplicaVMID c = vm
          | Err _ => cyc_OK c = false
          end) w.
Proof.
  intros Hj Hs. unfold runCycle. apply wp_bind. unfold cycle_check. apply wp_bind, wp_gets.
  rewrite Hj, bool_decide_false by done. apply wp_ret.
  apply wp_bind. eapply wp_mono; [by apply open_wp|]. intros cyc w1 (Hw1 & Hr1 & Hf).
  apply wp_bind. eapply wp_mono; [apply transfer_wp|]. intros r w2 (Hw2 & tc & tp & Hr2 & Ho).
  apply wp_bind. eapply wp_mono; [apply close_wp; by rewrite Hw2, Hw1, lookup_insert_eq|].
  intros c w3 (st' & Hw3 & Hres & Hr3 & Hfc & Hok & Hrep). apply wp_ret. exists c.1, st'.
  split; [done|]. split; [by rewrite Hw3, Hw2, Hw1, insert_insert_eq|]. simpl in *.
  split; [exact Hres|]. split; [congruence|].
  exists (reg_of w1), tc, tp. split; [done|]. split; [congruence|].
  destruct (transfer _ _ _ _ _).1.
  - destruct Ho as (p & Hp & Hv). rewrite Hp in *. split; [by apply Hok|]. by rewrite (Hrep p).
  - rewrite Ho in Hok. destruct (cyc_OK c.1); [|done]. by destruct (proj1 Hok eq_refl).
Qed.

(** A cycle of a policy that is not failed over, run alone, never panics and
    ends in a record: the cycle is appended to the newest [maxHistory] ones and
    counted; on success the policy is idle or degraded, the error is cleared, the
    replica is the newly created VM and the sync time the end of the cycle; on
    failure the policy is in error with the cycle's message and keeps its replica
    and its sync time; no other policy and no schedule changes. *)
Theorem replication_cycle id (w : world P) j :
  rw_jobs w !! id = Some j -> st_Status (job_policy j) <> StatusFailedOver ->
  exists c err w' st',
    runCycle clock conv id w = Some ((Some c, err), w') /\
    rw_jobs w' = <[id := mkJob st' (job_cancel j)]> (rw_jobs w) /\
    cycle_result id (job_policy j) c err st' /\
    cyc_FirstCycle c = bool_decide (st_ReplicaVMID (job_policy j) = "").
Proof.
  intros Hj Hs. destruct (wp_inv _ _ _ (runCycle_wp id w j Hj Hs))
    as ([r err] & w' & Hrun & c & st' & Hr & Hw' & Hres & Hf & _).
  simpl in *. subst r. by exists c, err, w', st'.
Qed.
End Cycle.

(** ** A failover that lasts *)

Section Lasting.
Context {P : Type} `{Hypervisor P} (clock : nat -> time) (conv : converter).

(** The engine registers policies under their own ids. *)
Definition keyed (jobs : gmap string job) : Prop := forall id j, jobs !! id = Some j -> pol_ID (st_Policy (job_policy j)) = id.

(** A goroutine that has no cycle of the policy past its check, and neither fails the
    policy over nor deletes it.  It may still start cycles of the policy, run it now,
    or register it. *)
Definition spares (id : string) (p : pc) : Prop :=
  match p with
  | CycWait i _ _ _ | CycTransfer i _ _ _ | CycClose i _ _ _ _
  | FoCheck i | FoPower i _ _ | FoMark i _ _ | DelRemove i | DelRow i => i <> id
  | _ => True
  end.

(** Failed over, unscheduled, and with its replica. *)
Definition paused (id replica : string) (jobs : gmap string job) : Prop :=
  exists j, jobs !! id = Some j /\ st_Status (job_policy j) = StatusFailedOver /\ job_cancel j = None /\
    st_ReplicaVMID (job_policy j) = replica.
Definition lasting (id replica : string) (row : option repl_row) (jobs : gmap string job)
    (store : option (gmap string repl_row)) : Prop :=
  paused id replica jobs /\ keyed jobs /\ default ∅ store !! id = row.

Lemma keyed_alter g k jobs : (forall j, st_Policy (job_policy (g j)) = st_Policy (job_policy j)) ->
  keyed jobs -> keyed (alter g k jobs).
Proof.
  intros Hg Hk i j. destruct (decide (k = i)) as [<-|]; [|rewrite lookup_alter_ne by done; apply Hk].
  rewrite lookup_alter_eq. destruct (jobs !! k) as [j0|] eqn:E; [|done]. intros [= <-]. rewrite Hg. by apply Hk.
Qed.
Lemma paused_alter id replica g k jobs : k <> id -> paused id replica jobs -> paused id replica (alter g k jobs).
Proof. intros Hne (j & Hj & Hp). exists j. by rewrite lookup_alter_ne. Qed.
Lemma calm_lasting id replica row k : k <> id -> calm k (lasting id replica row).
Proof.
  intros Hne. split.
  - intros g jobs store Hg (Hp & Hk & Hr). split_and!; [by apply paused_alter|apply keyed_alter; [apply Hg|done]|done].
  - intros f jobs rows (Hp & Hk & Hr). split_and!; [done|done|]. simpl in *. by rewrite lookup_alter_ne.
Qed.
Lemma lasting_recorded id replica row k c (w w' : world P) : k <> id -> recorded_as k c w w' ->
  lasting id replica row (rw_jobs w) (rw_store w) -> lasting id replica row (rw_jobs w') (rw_store w').
Proof.
  intros Hne [(status & e & rep & t & Hj) Hs] (Hp & Hk & Hr). rewrite Hj. split_and!; [by apply paused_alter|by apply keyed_alter|].
  destruct Hs as [->|(j & rows & f & Hj' & Hrows & ->)]; [done|]. simpl. rewrite (Hk _ _ Hj'). rewrite Hrows in Hr.
  by rewrite lookup_alter_ne.
Qed.
Lemma lasting_upsert id replica row p (w : world P) st w' : Upsert p w = Some (st, w') ->
  lasting id replica row (rw_jobs w) (rw_store w) -> lasting id replica row (rw_jobs w') (rw_store w').
Proof.
  unfold Upsert, job_of, mbind, M_bind, gets, set_jobs, modify. intros [= _ <-] ((j & Hj & Hs & Hc & Hr) & Hk & Hrow). simpl.
  split_and!; [| |done].
  - unfold paused. destruct (decide (pol_ID p = id)) as [<-|Hne]; [|exists j; by rewrite lookup_insert_ne].
    rewrite lookup_insert_eq, Hj. simpl. rewrite Hs. eexists. split; [reflexivity|]. simpl. by rewrite andb_false_r, Hs.
  - intros i j' Hi. apply lookup_insert_Some in Hi as [[<- <-]|[_ Hi]]; [done|by apply Hk].
Qed.

(** A cycle of a policy that is failed over is refused, and touches nothing. *)
Lemma paused_refused id replica (w : world P) : paused id replica (rw_jobs w) -> exists e, cycle_check id w = Some (Err e, w).
Proof. intros (j & Hj & Hs & _). unfold cycle_check, job_of, mbind, M_bind, gets. rewrite Hj, Hs. by eexists. Qed.

Lemma step_lasting id replica row t p p' s s' :
  sys_threads s !! t = Some p -> sys_step clock conv t s = Some s' -> sys_threads s' !! t = Some p' ->
  spares id p -> lasting id replica row (rw_jobs (sys_world s)) (rw_store (sys_world s)) ->
  spares id p' /\ lasting id replica row (rw_jobs (sys_world s')) (rw_store (sys_world s')) /\
  (forall c, Ran id c ∉ event_of p p').
Proof.
  intros Ht Hs Ht' Hp Hl. pose proof (lookup_lt_Some _ _ _ Ht) as Hlt.
  unfold sys_step in Hs. rewrite Ht in Hs. cbn [mbind option_bind] in Hs.
  destruct p as [i|i obj pol prior|i obj pol cyc|i obj pol cyc r|i|i pol rep|i rep e|pol|i|i|i|i row'|i|i|c e]; simpl in Hp.
  - destruct (decide (i = id)) as [->|Hne].
    + destruct (paused_refused id replica (sys_world s) (proj1 Hl)) as [e He]. rewrite He in Hs. simplify_eq/=.
      rewrite list_lookup_insert_eq in Ht' by done. simplify_eq. split_and!; [done|done|set_solver].
    + segment (cycle_check (P:=P) i) Hs Ht'. eapply cycle_check_preserves in E; [|exact Hl].
      split_and!; [by repeat case_match|done|set_solver].
  - destruct (sys_locks s !! (i, obj)) eqn:El; [done|]. segment (cycle_open (P:=P) clock i pol prior) Hs Ht'.
    eapply calm_open in E; [|by apply calm_lasting|exact Hl]. split_and!; [done|done|set_solver].
  - segment (cycle_transfer clock conv pol) Hs Ht'. eapply cycle_transfer_preserves in E; [|exact Hl]. split_and!; [done|done|set_solver].
  - segment (cycle_close clock i pol cyc r) Hs Ht'. apply cycle_close_spec in E. split_and!; [done|by eapply lasting_recorded|set_solver].
  - segment (failover_check (P:=P) i) Hs Ht'. eapply failover_check_preserves in E; [|exact Hl].
    split_and!; [by repeat case_match|done|set_solver].
  - segment (failover_power clock pol rep) Hs Ht'. eapply failover_power_preserves in E; [|exact Hl]. split_and!; [done|done|set_solver].
  - segment (failover_mark (P:=P) clock i rep e) Hs Ht'. eapply calm_mark in E; [|by apply calm_lasting|exact Hl].
    split_and!; [done|done|set_solver].
  - segment (Upsert (P:=P) pol) Hs Ht'. split_and!; [done|by eapply lasting_upsert|set_solver].
  - simpl in Hs. simplify_eq. simpl in Ht'. rewrite list_lookup_insert_eq in Ht' by done. simplify_eq.
    split_and!; [by case_match|done|set_solver].
  - segment (State_of (P:=P) clock i) Hs Ht'. eapply snapshotState_preserves in E; [|exact Hl]. split_and!; [by case_match|done|set_solver].
  - simpl in Hs. simplify_eq. simpl in Ht'. rewrite list_lookup_insert_eq in Ht' by done. simplify_eq.
    split_and!; [by case_match|done|set_solver].
  - segment (Upsert (P:=P) (toEnginePolicy row')) Hs Ht'. split_and!; [done|by eapply lasting_upsert|set_solver].
  - simplify_eq/=. rewrite list_lookup_insert_eq in Ht' by done. simplify_eq. destruct Hl as ((j & Hj & Hpa) & Hk & Hr).
    split_and!; [done| |set_solver]. split_and!; [exists j; by rewrite lookup_delete_ne| |done].
    intros k j' [_ Hk']%lookup_delete_Some. by apply Hk.
  - segment (DeleteReplicationPolicy_row (P:=P) i) Hs Ht'. apply delete_row_spec in E as [Ej Es]. destruct Hl as (Hpa & Hk & Hr).
    split_and!; [done| |set_solver]. cbn [sys_world]. unfold lasting. rewrite Ej. split_and!; [done|done|]. destruct Es as [->| ->]; [done|].
    destruct (rw_store (sys_world s)); [|done]. simpl in *. by rewrite lookup_delete_ne.
  - done.
Qed.
Lemma traced_lasting id replica row s evs s' : traced clock conv s evs s' ->
  Forall (spares id) (sys_threads s) -> lasting id replica row (rw_jobs (sys_world s)) (rw_store (sys_world s)) ->
  lasting id replica row (rw_jobs (sys_world s')) (rw_store (sys_world s')) /\ (forall c, Ran id c ∉ evs).
Proof.
  induction 1 as [s|s t p s1 p' evs s2 Ht Hs Ht' _ IH]; intros Hp Hl; [split; [done|set_solver]|].
  rewrite Forall_lookup in Hp. destruct (step_lasting _ _ _ _ _ _ _ _ Ht Hs Ht' (Hp _ _ Ht) Hl) as (Hp' & Hl' & Hr).
  destruct IH as [Hl2 Hr2]; [|done|split; [done|]; intros c Hc; apply elem_of_app in Hc as [Hc|Hc]; [by apply (Hr c)|by apply (Hr2 c)]].
  apply Forall_lookup. intros u q Hu. rewrite (eff_threads _ _ _ _ _ (sys_step_effect _ _ _ _ _ _ _ Ht Hs Ht')) in Hu.
  apply list_lookup_insert_Some in Hu as [(-> & <- & _)|[_ Hu]]; [done|by eapply Hp].
Qed.
End Lasting.

(** ** Failover *)

Section FailoverFacts.
Context {P : Type} `{Hypervisor P} (clock : nat -> time) (conv : converter).

Lemma snapshot_shape id (w : world P) st w' :
  snapshotState clock id w = Some (st, w') ->
  rw_jobs w' = rw_jobs w /\ rw_store w' = rw_store w.
Proof.
  unfold snapshotState, job_of, mbind, M_bind, gets.
  destruct (rw_jobs w !! id) as [j|]; [|by intros [= _ <-]].
  case_match; [|by intros [= _ <-]].
  unfold now, on_env, on_mig, zoom, Migrate.on_env, zoom, tick. by intros [= _ <-].
Qed.

Lemma persist_shape id status e replica t (w : world P) w' :
  persist clock id status e replica t w = Some (tt, w') ->
  rw_jobs w' = rw_jobs w /\
  forall rows r, rw_store w = Some rows -> rows !! id = Some r -> id <> "" ->
    exists rows' r', rw_store w' = Some rows' /\ rows' !! id = Some r' /\
      row_Status r' = status /\
      row_ReplicaVMID r' = (if bool_decide (replica = "") then row_ReplicaVMID r else Some replica).
Proof.
  unfold persist, mbind, M_bind, gets. destruct (rw_store w) as [rows|] eqn:Er.
  - destruct (decide (id = "")) as [->|Hne].
    { rewrite bool_decide_true by done. by intros [= <-]. }
    rewrite bool_decide_false by done. cbn. intros [= <-]. split; [done|].
    intros rows' r [= <-] Hr Hid. simpl. do 2 eexists. split; [done|].
    unfold UpdateReplicationPolicyState. rewrite lookup_alter_eq, Hr. split; [done|].
    split; [done|]. simpl. unfold null_str. by case_bool_decide.
  - by intros [= <-].
Qed.

Lemma resolve_eq id (w : world P) : on_env (resolve id) w = Some (env_reg (w_env (rw_mig w)) !! id, w).
Proof. by destruct w as [[]]. Qed.

(** The verdict of [failover_check], which only reads. *)
Definition failover_verdict (id : string) (w : world P) : result string (Policy * string) :=
  match rw_jobs w !! id with
  | None => Err (unknown_policy id)
  | Some j =>
      let pol := st_Policy (job_policy j) in
      if bool_decide (st_ReplicaVMID (job_policy j) = "")
      then Err ("replication: policy " +:+ quote id +:+ " has no replica yet (run a cycle first)")
      else match env_reg (w_env (rw_mig w)) !! pol_TargetProviderID pol with
           | None => Err ("replication: target provider " +:+ quote (pol_TargetProviderID pol)
                          +:+ " not found")
           | Some _ => Ok (pol, st_ReplicaVMID (job_policy j))
           end
  end.

Lemma failover_check_eq id (w : world P) : failover_check id w = Some (failover_verdict id w, w).
Proof.
  destruct w as [[e m] jobs run store]. unfold failover_check, failover_verdict, job_of, mbind, M_bind, gets.
  simpl. destruct (jobs !! id) as [j|]; [|done]. case_bool_decide; [done|].
  unfold on_env, on_mig, zoom, Migrate.on_env, zoom, resolve, gets. simpl. by case_match.
Qed.

Lemma failover_ok id (w : world P) st w1 :
  Failover clock id w = Some ((st, None), w1) ->
  exists j pol, rw_jobs w !! id = Some j /\ st_ReplicaVMID (job_policy j) <> "" /\
    pol = st_Policy (job_policy j) /\
    rw_jobs w1 = alter (fun j => mkJob (st_set_error "" (st_set_status StatusFailedOver (job_policy j))) None)
                   id (rw_jobs w) /\
    forall rows r, rw_store w = Some rows -> rows !! id = Some r -> id <> "" ->
      exists rows' r', rw_store w1 = Some rows' /\ rows' !! id = Some r' /\
        row_Status r' = StatusFailedOver /\
        row_ReplicaVMID r' = Some (st_ReplicaVMID (job_policy j)).
Proof.
  intros Hf. unfold Failover in Hf. erewrite M_bind_some in Hf by apply failover_check_eq.
  unfold failover_verdict in Hf. destruct (rw_jobs w !! id) as [j|] eqn:Hj; [|done].
  destruct (decide (st_ReplicaVMID (job_policy j) = "")) as [He|He].
  { by rewrite bool_decide_true in Hf by done. }
  rewrite bool_decide_false in Hf by done.
  destruct (env_reg _ !! pol_TargetProviderID _) as [tgt|] eqn:Et; [|done].
  apply M_bind_inv in Hf as (e & w2 & Hp & Hf).
  assert (rw_jobs w2 = rw_jobs w /\ rw_store w2 = rw_store w) as [Hw2 Hs2].
  { unfold failover_power in Hp. erewrite M_bind_some in Hp by apply resolve_eq. rewrite Et in Hp.
    destruct (Has _ _); [|by apply M_ret_inv in Hp as [_ ->]].
    apply M_bind_inv in Hp as (a & w3 & Hp & [_ ->]%M_ret_inv).
    by apply on_mig_jobs in Hp as (? & _ & ?). }
  destruct e as [e|]; [apply M_bind_inv in Hf as (? & ? & _ & Hf);
    by apply M_bind_inv in Hf as (? & ? & _ & [[=] _]%M_ret_inv)|].
  apply M_bind_inv in Hf as ([] & w3 & Hset & Hf). unfold set_jobs, modify in Hset. simplify_eq/=.
  apply M_bind_inv in Hf as ([] & w4 & Hpers & Hf). apply persist_shape in Hpers as [Hw4 Hrow]. simpl in *.
  apply M_bind_inv in Hf as (st0 & w5 & Hsnap & Hf). apply snapshot_shape in Hsnap as [Hw5 Hs5].
  apply M_ret_inv in Hf as [_ ->]. exists j, (st_Policy (job_policy j)). split_and!; try done.
  - by rewrite Hw5, Hw4, Hw2.
  - intros rows r Hr Hrow' Hne. rewrite <- Hs2 in Hr.
    destruct (Hrow rows r Hr Hrow' Hne) as (rows' & r' & ? & ? & ? & Hrep).
    exists rows', r'. rewrite Hs5. rewrite bool_decide_false in Hrep by done. done.
Qed.

Lemma Failover_keyed id (w : world P) r w1 : keyed (rw_jobs w) -> Failover clock id w = Some (r, w1) -> keyed (rw_jobs w1).
Proof.
  intros Hk Hf. assert (calm id (fun jobs (_ : option (gmap string repl_row)) => keyed jobs)) as Hc.
  { split; [|done]. intros g jobs _ Hg. apply keyed_alter. apply Hg. }
  enough (preserves (fun w : world P => keyed (rw_jobs w)) (Failover clock id)) as Hp by (by eapply Hp).
  unfold Failover. apply preserves_bind; [apply (failover_check_preserves (fun j _ => keyed j))|]. intros [[pol rep]|e]; [|apply preserves_ret].
  apply preserves_bind; [apply (failover_power_preserves clock (fun j _ => keyed j))|]. intros e. by apply (calm_mark clock (fun j _ => keyed j)).
Qed.

(** C36 A successful failover is recorded and pauses replication.  The policy is failed
    over, unscheduled and with its replica in the engine, and failed over with that
    replica in its row.  So it stays, and no cycle of it runs, through every interleaving
    of any goroutines, provided that none of them deletes the policy or attempts another
    failover of it, and that no cycle of it was past its check when it was failed over:
    cycles started later, by ticks or by hand, are refused and touch nothing, and
    registering the policy again neither resets nor schedules it.  (A cycle that was
    past its check does undo the failover, and so do a failover whose power-on fails
    and a restart of the server.) *)
Theorem replication_failover id (w : world P) st w1 :
  keyed (rw_jobs w) -> Failover clock id w = Some ((st, None), w1) ->
  exists j, rw_jobs w1 !! id = Some j /\ st_Status (job_policy j) = StatusFailedOver /\
    job_cancel j = None /\ st_ReplicaVMID (job_policy j) <> "" /\
    (forall rows r, rw_store w = Some rows -> rows !! id = Some r -> id <> "" ->
       exists rows' r', rw_store w1 = Some rows' /\ rows' !! id = Some r' /\
         row_Status r' = StatusFailedOver /\
         row_ReplicaVMID r' = Some (st_ReplicaVMID (job_policy j))) /\
    forall s evs s', sys_world s = w1 -> Forall (spares id) (sys_threads s) -> traced clock conv s evs s' ->
      (exists j', rw_jobs (sys_world s') !! id = Some j' /\ st_Status (job_policy j') = StatusFailedOver /\
         job_cancel j' = None /\ st_ReplicaVMID (job_policy j') = st_ReplicaVMID (job_policy j)) /\
      row_of (sys_world s') id = row_of w1 id /\
      (forall c, Ran id c ∉ evs) /\
      (forall t, sys_threads s' !! t = Some (CycCheck id) -> exists e,
         sys_step clock conv t s' =
         Some (mkSystem (sys_world s') (<[t := Finished None (Some e)]> (sys_threads s')) (sys_locks s') (sys_objs s'))).
Proof.
  intros Hk Hf. pose proof (Failover_keyed _ _ _ _ Hk Hf) as Hk1.
  destruct (failover_ok _ _ _ _ Hf) as (j & pol & Hj & Hr & _ & Hw1 & Hrow).
  eexists. split; [by rewrite Hw1, lookup_alter_eq, Hj|]. simpl. split_and!; try done.
  intros s evs s' <- Hp Ht.
  destruct (traced_lasting clock conv id (st_ReplicaVMID (job_policy j)) (row_of (sys_world s) id) s evs s' Ht Hp) as [(Hpa & _ & Hrw) Hno].
  { split_and!; [|done|done]. eexists. split; [by rewrite Hw1, lookup_alter_eq, Hj|]. done. }
  split_and!; [exact Hpa|done|done|]. intros t Htt. destruct (paused_refused _ _ _ Hpa) as [e He].
  exists e. unfold sys_step. rewrite Htt. cbn [mbind option_bind]. by rewrite He.
Qed.

(** ** Restarting the server *)

Definition no_replica (m : gmap string job) : Prop :=
  forall id j, m !! id = Some j -> st_ReplicaVMID (job_policy j) = "".

Definition load_rows (rows : list repl_row) : M (world P) unit :=
  foldr (fun r m => if bool_decide (row_Status r = StatusFailedOver) then m
                    else _ ← Upsert (toEnginePolicy r); m) (mret tt) rows.

Definition loaded (rows : list repl_row) (id : string) : Prop :=
  exists r, r ∈ rows /\ row_ID r = id /\ row_Status r <> StatusFailedOver.

Lemma loaded_cons r rows id :
  loaded (r :: rows) id <-> (row_ID r = id /\ row_Status r <> StatusFailedOver) \/ loaded rows id.
Proof.
  unfold loaded. split.
  - intros (r' & [->|Hin]%elem_of_cons & Hid & Hs); [by left|right]. by exists r'.
  - intros [[Hid Hs]|(r' & Hin & Hr)]; [exists r|exists r']; (split; [|done]);
      apply elem_of_cons; auto.
Qed.

Lemma upsert_jobs p (w : world P) :
  exists st w', Upsert p w = Some (st, w') /\
    rw_jobs w' = <[pol_ID p := mkJob st (job_cancel (default (mkJob st None) (rw_jobs w' !! pol_ID p)))]>
                   (rw_jobs w) /\
    st = st_set_policy p (default fresh_state (job_policy <$> rw_jobs w !! pol_ID p)).
Proof.
  unfold Upsert, job_of, mbind, M_bind, gets, set_jobs, modify. do 2 eexists. split; [reflexivity|].
  simpl. rewrite lookup_insert_eq. split; reflexivity.
Qed.

Lemma load_rows_wp rows (w : world P) :
  no_replica (rw_jobs w) ->
  wp (load_rows rows) (fun _ w' => no_replica (rw_jobs w') /\
     forall id, is_Some (rw_jobs w' !! id) <-> is_Some (rw_jobs w !! id) \/ loaded rows id) w.
Proof.
  revert w. induction rows as [|r rows IH]; intros w Hw; simpl.
  { apply wp_ret. split; [done|]. intros id. split; [by left|]. intros [?|(? & Hin & _)]; [done|].
    by apply elem_of_nil in Hin. }
  case_bool_decide as Hs.
  - eapply wp_mono; [by apply IH|]. intros _ w' [Hn Hd]. split; [done|]. intros id.
    rewrite Hd, loaded_cons. tauto.
  - apply wp_bind. destruct (upsert_jobs (toEnginePolicy r) w) as (st & w1 & Hup & Hj & Hst).
    eapply wp_intro; [exact Hup|]. eapply wp_mono; [apply IH|].
    + rewrite Hj. intros id j Hk. apply lookup_insert_Some in Hk as [[_ <-]|[_ Hk]]; [|by eapply Hw].
      simpl. rewrite Hst. simpl. destruct (rw_jobs w !! row_ID r) as [j|] eqn:E; [|done]. by eapply Hw.
    + intros _ w' [Hn Hd]. split; [done|]. intros id.
      rewrite Hd, loaded_cons, Hj, lookup_insert_is_Some'. simpl. tauto.
Qed.

(** After a restart no policy can be failed over: loading the persisted
    policies registers exactly those that were not failed over, and whatever
    replica their rows record, [Failover] refuses every policy, and changes
    nothing, until a new cycle has completed. *)
Theorem replication_restart_forgets_replicas (w : world P) rows :
  rw_jobs w = ∅ -> rw_store w = Some rows ->
  exists w1, LoadReplicationPolicies w = Some (tt, w1) /\
    (forall id, is_Some (rw_jobs w1 !! id) <->
       exists k r, rows !! k = Some r /\ row_ID r = id /\ row_Status r <> StatusFailedOver) /\
    (forall id, exists e, Failover clock id w1 = Some ((None, Some e), w1)).
Proof.
  intros He Hs. unfold LoadReplicationPolicies.
  set (w0 := mkWorld (rw_mig w) (rw_jobs w) true (rw_store w)).
  assert (no_replica (rw_jobs w0)) as Hn0 by (intros k j Hk; simpl in Hk; rewrite He in Hk; done).
  destruct (wp_inv _ _ _ (load_rows_wp (map_to_list rows).*2 w0 Hn0)) as ([] & w1 & Hrun & Hn & Hd).
  exists w1. split; [|split].
  - unfold Start. rewrite M_bind_modify, M_bind_gets. simpl. unfold w0 in Hrun. rewrite Hs in *. exact Hrun.
  - intros id. rewrite Hd. simpl. rewrite He, lookup_empty. split.
    + intros [[? [=]]|(r & Hin & ? & ?)]. apply list_elem_of_fmap in Hin as ([k r'] & -> & Hin).
      apply elem_of_map_to_list in Hin. by exists k, r'.
    + intros (k & r & Hk & ? & ?). right. exists r. split; [|done].
      apply list_elem_of_fmap. exists (k, r). split; [done|]. by apply elem_of_map_to_list.
  - intros id. unfold Failover, failover_check, job_of, mbind, M_bind, gets.
    destruct (rw_jobs w1 !! id) as [j|] eqn:Hj; [|by eexists].
    rewrite (Hn _ _ Hj). by eexists.
Qed.
End FailoverFacts.

(** ** Failovers that do not last *)

Section Lost.
Context {P : Type} `{HypervisorLaws P} (clock : nat -> time) (conv : converter).

Lemma cycle_result_status id st c err st' :
  cycle_result id st c err st' -> st_Status st' <> StatusFailedOver.
Proof.
  intros (_ & _ & _ & Hc). destruct (cyc_OK c).
  - destruct Hc as (_ & [-> | ->] & _); done.
  - destruct Hc as (_ & -> & _). done.
Qed.

(** A failover is lost to a cycle in flight: a goroutine that is at the end of
    a cycle when the policy is failed over always takes its step, and the policy
    is then idle, degraded or in error, no longer failed over. *)
Theorem replication_inflight_cycle_wins t (s : system P) id obj pol cyc r j :
  sys_threads s !! t = Some (CycClose id obj pol cyc r) ->
  rw_jobs (sys_world s) !! id = Some j -> st_Status (job_policy j) = StatusFailedOver ->
  exists s' j', sys_step clock conv t s = Some s' /\
    rw_jobs (sys_world s') !! id = Some j' /\ st_Status (job_policy j') <> StatusFailedOver.
Proof.
  intros Ht Hj _. unfold sys_step. rewrite Ht. simpl.
  destruct (wp_inv _ _ _ (close_wp clock id pol cyc r (sys_world s) j Hj))
    as (c & w' & Hc & st' & Hw' & Hres & _).
  rewrite Hc. simpl. do 2 eexists. split; [reflexivity|]. simpl.
  rewrite Hw', lookup_insert_eq. split; [done|]. simpl. by eapply cycle_result_status.
Qed.

(** Run-now resumes a failed-over policy after a restart: when the engine does
    not know the policy, the handler registers it afresh from its row, whatever
    the row's status, and runs a cycle; the policy is then not failed over. *)
Theorem replication_run_now_resumes id (w : world P) rows row :
  rw_store w = Some rows -> rows !! id = Some row -> row_ID row = id ->
  row_Status row = StatusFailedOver -> rw_jobs w !! id = None ->
  exists c err w' j', RunReplicationPolicy clock conv id w = Some ((Some c, err), w') /\
    rw_jobs w' !! id = Some j' /\ st_Status (job_policy j') <> StatusFailedOver.
Proof.
  intros Hs Hr Hid _ Hj. destruct (upsert_jobs (toEnginePolicy row) w) as (st & w1 & Hup & Hj1 & Hst).
  rewrite Hid in Hj1 || (simpl in Hj1; rewrite Hid in Hj1). simpl in Hst. rewrite Hid, Hj in Hst. simpl in Hst.
  set (j1 := mkJob _ _) in Hj1.
  assert (rw_jobs w1 !! id = Some j1) as Hl by (by rewrite Hj1, lookup_insert_eq).
  assert (st_Status (job_policy j1) <> StatusFailedOver) as Hne by (simpl; by rewrite Hst).
  destruct (wp_inv _ _ _ (runCycle_wp clock conv id w1 j1 Hl Hne))
    as ([r err] & w' & Hrun & c & st' & Hr' & Hw' & Hres & _).
  simpl in Hr'. subst r. exists c, err, w', (mkJob st' (job_cancel j1)). split.
  - unfold RunReplicationPolicy. rewrite M_bind_gets, Hs. simpl. rewrite Hr.
    erewrite M_bind_some; [|unfold State_of, snapshotState, job_of; rewrite M_bind_gets, Hj; reflexivity].
    erewrite M_bind_some; [exact Hrun|]. erewrite M_bind_some by exact Hup. reflexivity.
  - rewrite Hw', lookup_insert_eq. split; [done|]. by eapply cycle_result_status.
Qed.
End Lost.

(** ** Replicas on the simulator *)

Lemma after_snapshot_sims pol (reg reg1 : gmap string sim) src dst v :
  pol_SourceProviderID pol <> pol_TargetProviderID pol ->
  reg !! pol_SourceProviderID pol = Some src -> reg !! pol_TargetProviderID pol = Some dst ->
  sim_vms src !! pol_SourceVMID pol = Some v -> after_snapshot pol reg reg1 ->
  exists src' v', reg1 !! pol_SourceProviderID pol = Some src' /\ sim_caps src' = sim_caps src /\
    reg1 !! pol_TargetProviderID pol = Some dst /\
    sim_vms src' !! pol_SourceVMID pol = Some v' /\ vm_Firmware v' = vm_Firmware v.
Proof.
  intros Hne Hs Ht Hv [->|(src0 & opts & t & Hs0 & ->)]; [by exists src, v|].
  assert (src0 = src) as -> by congruence. simpl.
  rewrite lookup_insert_eq, lookup_insert_ne by done. unfold CreateSnapshot.
  destruct (Has (sim_caps src) CapSnapshot); simpl; [|by exists src, v].
  rewrite Hv. unfold nextID. cbn [fst snd]. rewrite done_with_eq. simpl.
  do 2 eexists. split; [reflexivity|]. simpl. rewrite lookup_insert_eq. by split_and!.
Qed.

(** Every cycle makes a new VM: between two fully capable simulators each cycle
    of a policy on an existing VM succeeds, creates a VM under a fresh id on the
    target and makes it the replica; the VM the policy called its replica before
    is left on the target, unchanged, and [Retain] plays no part. *)
Theorem replication_cycle_new_vm clock id (w : world sim) j src dst v :
  let pol := st_Policy (job_policy j) in
  rw_jobs w !! id = Some j -> st_Status (job_policy j) <> StatusFailedOver ->
  pol_SourceProviderID pol <> pol_TargetProviderID pol ->
  reg_of w !! pol_SourceProviderID pol = Some src -> reg_of w !! pol_TargetProviderID pol = Some dst ->
  sim_caps src = FullCaps -> sim_caps dst = FullCaps ->
  sim_vms src !! pol_SourceVMID pol = Some v -> vm_Firmware v <> "" ->
  trim_space (pol_SourceVMID pol +:+ "-replica") <> "" ->
  wf dst -> 3 <= sim_seq dst -> sim_seq dst + 3 < 2 ^ 63 ->
  exists c w' j' dst' nv,
    runCycle clock Passthrough_Convert id w = Some ((Some c, None), w') /\
    rw_jobs w' !! id = Some j' /\ reg_of w' !! pol_TargetProviderID pol = Some dst' /\
    sim_vms dst !! st_ReplicaVMID (job_policy j') = None /\
    sim_vms dst' = <[st_ReplicaVMID (job_policy j') := nv]> (sim_vms dst) /\
    vm_State nv = StateStopped.
Proof.
  intros pol Hj Hst Hne Hs Ht Hcs Hct Hv Hfw Hname Hwf H3 Hlt.
  destruct (wp_inv _ _ _ (runCycle_wp clock Passthrough_Convert id w j Hj Hst))
    as ([r err] & w' & Hrun & c & st' & Hr & Hw' & Hres & _ & reg1 & tc & tp & Hsnap & Hreg & Ho).
  fold pol in Hsnap, Hreg, Ho. simpl in Hr. subst r.
  destruct (after_snapshot_sims pol _ _ src dst v Hne Hs Ht Hv Hsnap)
    as (src' & v' & Hs' & Hcs' & Ht' & Hv' & Hfw').
  rewrite Hcs in Hcs'.
  assert (preflight_issues (cycle_request pol) src' dst = []) as Hpre.
  { apply sim_preflight_ok; [done..|by exists v']. }
  destruct (sim_export_convert (cycle_request pol) src' dst v') as (data & info & Hexp & Hifw & _);
    [by rewrite Hcs'|done|].
  destruct (sim_import (cycle_request pol) data info tc tp dst)
    as (nid & dst' & nv & Himp & Hnid & Hfree & Hvms & _ & _ & _ & Hstate); [done..|congruence|].
  unfold transfer in Hreg, Ho. simpl in Hreg, Ho. fold pol in Hreg, Ho.
  rewrite Hs', Ht', Hpre, Hexp, Himp in *. simpl in *.
  destruct Ho as [Hok Hrep]. destruct Hres as (_ & _ & _ & Hres). rewrite Hok in Hres.
  destruct Hres as (-> & _ & _ & Hrv & _).
  rewrite Hrep, bool_decide_false in Hrv by done.
  exists c, w', (mkJob st' (job_cancel j)), dst', nv. simpl.
  rewrite Hrv, Hw', Hreg, !lookup_insert_eq. done.
Qed.

(** ** Concrete runs *)

Definition dr_policy : Policy := mkPolicy "p" "dr" "src" "vm-1" "dst" "" 300 5 true.
Definition dr_row : repl_row := CreateReplicationPolicy_row dr_policy "idle" 0.
Definition dr_job : job := mkJob (st_set_policy dr_policy fresh_state) None.
Definition dr_world : world sim :=
  mkWorld (Migrate.mkWorld two_sims New_mig) {[ "p" := dr_job ]} false (Some {[ "p" := dr_row ]}).

(** Two cycles and a failover of one policy. *)
Definition dr_system : system sim := mkSystem dr_world [CycCheck "p"; CycCheck "p"; FoCheck "p"] ∅ ∅.
Definition ticks (n : nat) : time := Z.of_nat n * Second.
Abbreviation dr_run l := (sys_run ticks Passthrough_Convert l dr_system) (only parsing).
Abbreviation dr_step t s := (sys_step ticks Passthrough_Convert t s) (only parsing).

(** One whole cycle, then the second up to its end, then the failover. *)
Definition dr_schedule : list nat := [0; 0; 0; 0; 1; 1; 1; 2; 2; 2]%nat.

Lemma dr_initial : initial dr_system.
Proof.
  split; [done|]. split; [by repeat constructor|].
  intros id j Hj. change (({[ "p" := dr_job ]} : gmap string job) !! id = Some j) in Hj.
  apply lookup_singleton_Some in Hj as [_ <-]. unfold bounded_history. simpl. lia.
Qed.

Lemma replication_mutual_exclusion_witness :
  exists s evs, dr_run dr_schedule = Some s /\ traced ticks Passthrough_Convert dr_system evs s /\
    forall id j, rw_jobs (sys_world s) !! id = Some j ->
      exists older, foldl replay (histories dr_world) evs !! id = Some (older ++ st_History (job_policy j)).
Proof.
  destruct (dr_run dr_schedule) as [s|] eqn:E; [|by vm_compute in E].
  destruct (sys_run_traced _ _ _ _ _ E) as [evs Htr]. exists s, evs. split; [reflexivity|]. split; [exact Htr|].
  destruct (replication_mutual_exclusion ticks Passthrough_Convert dr_system evs s dr_initial Htr) as (_ & _ & Hh).
  intros id j Hj. destruct (Hh id j Hj) as (older & Ho & _). exists older. exact Ho.
Defined.

(** A policy that is removed while a cycle runs, and registered again, has two cycles
    under way, each with the lock of its own job. *)
Example reregistered_runs_twice :
  (s ← sys_run ticks Passthrough_Convert [0; 0; 1; 2; 3; 3]%nat
         (mkSystem dr_world [CycCheck "p"; DelRemove "p"; UpEnter dr_policy; CycCheck "p"] ∅ ∅);
   Some (omap inside (sys_threads s))) = Some [("p", 0%nat); ("p", 1%nat)].
Proof. vm_compute. reflexivity. Qed.

Lemma replication_cycle_witness :
  exists c err w', runCycle ticks Passthrough_Convert "p" dr_world = Some ((Some c, err), w') /\
                   cyc_FirstCycle c = true.
Proof.
  destruct (replication_cycle ticks Passthrough_Convert "p" dr_world dr_job)
    as (c & err & w' & st' & Hrun & _ & _ & Hf).
  - by vm_compute.
  - done.
  - exists c, err, w'. split; [exact Hrun|exact Hf].
Defined.

Definition dr_after_cycle : world sim :=
  match runCycle ticks Passthrough_Convert "p" dr_world with Some (_, w) => w | None => dr_world end.

Definition dr_failed : world sim :=
  match Failover ticks "p" dr_after_cycle with Some (_, w) => w | None => dr_world end.
(** A tick, a run by hand and a registration, after the failover. *)
Definition dr_later : system sim := mkSystem dr_failed [CycCheck "p"; RunGet "p"; UpEnter dr_policy] ∅ ∅.

Lemma replication_failover_witness :
  exists s evs j, sys_run ticks Passthrough_Convert [2; 1; 1; 0; 1]%nat dr_later = Some s /\
    traced ticks Passthrough_Convert dr_later evs s /\
    rw_jobs (sys_world s) !! "p" = Some j /\ st_Status (job_policy j) = StatusFailedOver /\
    forall c, Ran "p" c ∉ evs.
Proof.
  destruct (sys_run ticks Passthrough_Convert [2; 1; 1; 0; 1]%nat dr_later) as [s|] eqn:E; [|by vm_compute in E].
  destruct (sys_run_traced _ _ _ _ _ E) as [evs Htr].
  assert (exists st, Failover ticks "p" dr_after_cycle = Some ((st, None), dr_failed)) as [st Hf].
  { unfold dr_failed. destruct (Failover ticks "p" dr_after_cycle) as [[[st [e|]] w1]|] eqn:Ef; [by vm_compute in Ef|by exists st|by vm_compute in Ef]. }
  destruct (replication_failover ticks Passthrough_Convert "p" dr_after_cycle st dr_failed) as (j & _ & _ & _ & _ & _ & Hl).
  - intros id j Hj. assert (exists j0, rw_jobs dr_after_cycle = {[ "p" := j0 ]} /\ pol_ID (st_Policy (job_policy j0)) = "p") as (j0 & Hj0 & Hid).
    { eexists. split; [vm_compute; reflexivity|]. by vm_compute. }
    rewrite Hj0 in Hj. apply lookup_singleton_Some in Hj as [<- <-]. exact Hid.
  - exact Hf.
  - destruct (Hl dr_later evs s) as ((j' & Hj' & Hs & _) & _ & Hr & _); [reflexivity|repeat constructor|exact Htr|].
    exists s, evs, j'. split; [reflexivity|]. split; [exact Htr|]. split; [exact Hj'|]. split; [exact Hs|exact Hr].
Defined.

Definition dr_restarted : world sim :=
  mkWorld (Migrate.mkWorld two_sims New_mig) ∅ false (rw_store dr_after_cycle).

Lemma replication_restart_forgets_replicas_witness :
  exists w1 e, LoadReplicationPolicies dr_restarted = Some (tt, w1) /\
    Failover ticks "p" w1 = Some ((None, Some e), w1) /\
    row_ReplicaVMID <$> (default ∅ (rw_store dr_restarted) !! "p") = Some (Some "vm-4").
Proof.
  destruct (rw_store dr_restarted) as [rows|] eqn:E; [|by vm_compute in E].
  destruct (replication_restart_forgets_replicas ticks dr_restarted rows) as (w1 & Hl & _ & Hf).
  - reflexivity.
  - exact E.
  - destruct (Hf "p") as [e He]. exists w1, e. split; [exact Hl|]. split; [exact He|].
    rewrite <- E. by vm_compute.
Defined.

(** The schedule ends with a successful failover and a cycle about to close. *)
Lemma replication_inflight_cycle_wins_witness :
  exists s s' j', dr_run dr_schedule = Some s /\ sys_threads s !! 2%nat = Some (Finished None None) /\
    dr_step 1%nat s = Some s' /\
    rw_jobs (sys_world s') !! "p" = Some j' /\ st_Status (job_policy j') <> StatusFailedOver.
Proof.
  destruct (dr_run dr_schedule) as [s|] eqn:E; [|by vm_compute in E].
  assert (sys_threads s !! 2%nat = Some (Finished None None)) as H2.
  { transitivity (s0 ← dr_run dr_schedule; sys_threads s0 !! 2%nat); [by rewrite E|by vm_compute]. }
  assert (exists obj pol cyc r, sys_threads s !! 1%nat = Some (CycClose "p" obj pol cyc r)) as (obj & pol & cyc & r & H1).
  { assert ((s0 ← dr_run dr_schedule; sys_threads s0 !! 1%nat) = sys_threads s !! 1%nat) as <- by (by rewrite E).
    do 4 eexists. vm_compute. reflexivity. }
  assert (exists j, rw_jobs (sys_world s) !! "p" = Some j /\ st_Status (job_policy j) = StatusFailedOver)
    as (j & Hj & Hs).
  { assert ((s0 ← dr_run dr_schedule; rw_jobs (sys_world s0) !! "p") = rw_jobs (sys_world s) !! "p") as <-
      by (by rewrite E).
    eexists. split; vm_compute; reflexivity. }
  destruct (replication_inflight_cycle_wins ticks Passthrough_Convert 1 s "p" obj pol cyc r j H1 Hj Hs)
    as (s' & j' & Hs' & Hj' & Hne).
  exists s, s', j'. split; [reflexivity|]. split; [exact H2|]. split; [exact Hs'|]. split; [exact Hj'|exact Hne].
Defined.

Definition dr_failed_over : world sim :=
  mkWorld (Migrate.mkWorld two_sims New_mig) ∅ false
    (Some {[ "p" := CreateReplicationPolicy_row dr_policy StatusFailedOver 0 ]}).

Lemma replication_run_now_resumes_witness :
  exists c err w', RunReplicationPolicy ticks Passthrough_Convert "p" dr_failed_over = Some ((Some c, err), w').
Proof.
  destruct (replication_run_now_resumes ticks Passthrough_Convert "p" dr_failed_over
              {[ "p" := CreateReplicationPolicy_row dr_policy StatusFailedOver 0 ]}
              (CreateReplicationPolicy_row dr_policy StatusFailedOver 0)) as (c & err & w' & j' & Hrun & _).
  - reflexivity.
  - by vm_compute.
  - reflexivity.
  - reflexivity.
  - by vm_compute.
  - exists c, err, w'. exact Hrun.
Defined.

Lemma replication_cycle_new_vm_witness :
  exists c w', runCycle ticks Passthrough_Convert "p" dr_world = Some ((Some c, None), w').
Proof.
  destruct (replication_cycle_new_vm ticks "p" dr_world dr_job (New "src" []) (set_seq 3 (New "dst" []))
              (seed_vm (New "src" []) 0 StateRunning).2) as (c & w' & j' & dst' & nv & Hrun & _).
  - by vm_compute.
  - done.
  - done.
  - by vm_compute.
  - by vm_compute.
  - by vm_compute.
  - by vm_compute.
  - by vm_compute.
  - done.
  - by vm_compute.
  - pose proof (New_wf "dst" [] (Forall_nil_2 _)) as []. by constructor.
  - done.
  - done.
  - exists c, w'. exact Hrun.
Defined.
