(* ===== verification/Backup.v ===== *)
(** * Scheduled VM backups

    server/internal/backup/backup.go, the object-store contract of
    storage/object.go, and the rows of store/vm_backups.go behind the engine's
    recorder (api/backups_vm.go).  The text of JSON documents is not modelled: an
    uploaded manifest is kept as the value it encodes. *)
From S2P Require Import Prelude GoStd VProvider Sim SimFacts Hypervisor Migrate.

(** ** Data *)

Record DiskArtifact := mkArtifact { da_Key : string; da_SizeBytes : Z; da_Format : string }.

Record BackupRecord := mkRecord {
  rec_ID : string; rec_VMID : string; rec_VMName : string; rec_ProviderID : string;
  rec_BackendID : string; rec_PolicyID : string; rec_KeyPrefix : string; rec_SizeBytes : Z;
  rec_DiskCount : Z; rec_Disks : list DiskArtifact; rec_GuestOS : string; rec_Firmware : string;
  rec_Status : string; rec_Error : string; rec_CreatedAt : Z }.

Record manifest := mkManifest {
  man_VMID : string; man_VMName : string; man_GuestOS : string; man_Firmware : string;
  man_Disks : list DiskArtifact; man_CreatedAt : Z }.

Definition manifestKey := "manifest.json".

Record Policy := mkPolicy {
  bp_ID : string; bp_Name : string; bp_ProviderID : string; bp_VMID : string;
  bp_BackendID : string; bp_IntervalSeconds : Z; bp_RetentionCount : Z; bp_Enabled : bool }.

(** The run state the store keeps of a policy. *)
Record policy_row := mkPolicyRow {
  pr_Status : string; pr_LastError : option string; pr_LastRunAt : option Z; pr_UpdatedAt : Z }.

Record job := mkJob { job_policy : Policy; job_cancel : option duration }.

Record BackupRequest := mkBackupRequest {
  br_ProviderID : string; br_VMID : string; br_BackendID : string; br_PolicyID : string }.

Record RestoreRequest := mkRestoreRequest {
  rr_BackupID : string; rr_TargetProviderID : string; rr_TargetHostID : string;
  rr_TargetName : string; rr_PowerOnAfter : bool }.

(** ** Object stores (storage/object.go) *)

(** What an object holds: a disk image's bytes or an encoded manifest. *)
Inductive body : Type :=
| Blob (bytes : string)
| Manifest (m : manifest).

(** A [GetObject] stream read to its end, as a manifest reader sees it. *)
Definition body_bytes (b : body) : string := match b with Blob s => s | Manifest _ => "" end.

Class ObjectStore (O : Type) := {
  os_Put : string -> body -> O -> result string Z * O;
  os_Get : string -> O -> result string body;
  os_List : string -> O -> result string (list string);
  os_Delete : string -> O -> option string * O;
  (** the objects stored, by key *)
  os_view : O -> gmap string body }.

(** The contract of the interface's comments. *)
Class ObjectStoreLaws (O : Type) `{ObjectStore O} : Prop := {
  os_put_ok k b o n o' : os_Put k b o = (Ok n, o') -> os_view o' = <[k := b]> (os_view o);
  os_put_frame k b o k' : k' <> k -> os_view (os_Put k b o).2 !! k' = os_view o !! k';
  os_get_ok k o b : os_Get k o = Ok b -> os_view o !! k = Some b;
  os_get_missing k o : os_view o !! k = None -> exists e, os_Get k o = Err e;
  os_list_ok p o l k : os_List p o = Ok l ->
    (k ∈ l <-> is_Some (os_view o !! k) /\ has_prefix k p = true);
  os_delete_ok k o o' : os_Delete k o = (None, o') -> os_view o' = delete k (os_view o);
  os_delete_frame k o k' : k' <> k -> os_view (os_Delete k o).2 !! k' = os_view o !! k' }.

(** The temporary file of the staging steps: the error of each system call. *)
Record tmp_os := mkTmp {
  tmp_create : option string; tmp_close : option string; tmp_stat : option string;
  tmp_open : option string }.

(** ** The engine's world *)

Record world (P O : Type) := mkWorld {
  bw_env : env P;
  bw_backends : gmap string O;
  bw_rec : option (list BackupRecord);
  bw_policies : gmap string policy_row;
  bw_jobs : gmap string job;
  bw_running : bool;
  bw_ids : nat }.
Arguments mkWorld {P O} _ _ _ _ _ _ _.
Arguments bw_env {P O} _.
Arguments bw_backends {P O} _.
Arguments bw_rec {P O} _.
Arguments bw_policies {P O} _.
Arguments bw_jobs {P O} _.
Arguments bw_running {P O} _.
Arguments bw_ids {P O} _.

(** ** The recorder's rows *)

Definition rec_ErrNotFound := "store: not found".

Definition set_result (status : string) (size count : Z) (disks : list DiskArtifact) (errMsg : string)
    (r : BackupRecord) : BackupRecord :=
  mkRecord (rec_ID r) (rec_VMID r) (rec_VMName r) (rec_ProviderID r) (rec_BackendID r)
    (rec_PolicyID r) (rec_KeyPrefix r) size count disks (rec_GuestOS r) (rec_Firmware r) status
    errMsg (rec_CreatedAt r).

Definition with_created (ts : Z) (r : BackupRecord) : BackupRecord :=
  mkRecord (rec_ID r) (rec_VMID r) (rec_VMName r) (rec_ProviderID r) (rec_BackendID r)
    (rec_PolicyID r) (rec_KeyPrefix r) (rec_SizeBytes r) (rec_DiskCount r) (rec_Disks r) (rec_GuestOS r)
    (rec_Firmware r) (rec_Status r) (rec_Error r) ts.

(** [CreateVMBackup]: the id is the primary key, and a row without a time gets the
    store's own reading [now]. *)
Definition CreateVMBackup (now : Z) (r : BackupRecord) (rows : list BackupRecord) : result string (list BackupRecord) :=
  let r := if bool_decide (rec_CreatedAt r = 0) then with_created now r else r in
  if bool_decide (rec_ID r ∈ rec_ID <$> rows) then Err "UNIQUE constraint failed: vm_backups.id"
  else Ok (rows ++ [r]).

Definition UpdateVMBackupResult (id status : string) (size count : Z) (disks : list DiskArtifact)
    (errMsg : string) (rows : list BackupRecord) : list BackupRecord :=
  (fun r => if bool_decide (rec_ID r = id) then set_result status size count disks errMsg r else r) <$> rows.

Definition GetVMBackup (id : string) (rows : list BackupRecord) : result string BackupRecord :=
  match list_find (fun r => rec_ID r = id) rows with
  | Some (_, r) => Ok r
  | None => Err rec_ErrNotFound
  end.

(** [ListVMBackupsForPolicy]: completed backups of the policy by creation time;
    rows of the same second come in insertion order.  An empty policy id is stored
    as NULL, which equals nothing. *)
Definition older (a b : BackupRecord) : Prop := rec_CreatedAt a <= rec_CreatedAt b.
#[export] Instance older_dec a b : Decision (older a b).
Proof. unfold older. apply _. Defined.

Definition ListVMBackupsForPolicy (policyID : string) (rows : list BackupRecord) : list BackupRecord :=
  merge_sort older
    (filter (fun r => rec_PolicyID r <> "" /\ rec_PolicyID r = policyID /\ rec_Status r = "completed") rows).

Definition DeleteVMBackup (id : string) (rows : list BackupRecord) : option string * list BackupRecord :=
  if bool_decide (id ∈ rec_ID <$> rows)
  then (None, filter (fun r => rec_ID r <> id) rows)
  else (Some rec_ErrNotFound, rows).

Definition UpdateVMBackupPolicyState (id status lastErr : string) (lastRunAt : Z) (now : time)
    (rows : gmap string policy_row) : gmap string policy_row :=
  let run := if 0 <? lastRunAt then Some lastRunAt else None in
  alter (fun r => mkPolicyRow status (if bool_decide (lastErr = "") then None else Some lastErr)
                    (match run with Some _ => run | None => pr_LastRunAt r end) (unix now)) id rows.

Section Engine.
Context {P O : Type} `{Hypervisor P} `{ObjectStore O}.
Context (clock : nat -> time) (conv : converter) (newID : nat -> string) (tmp : tmp_os).

Definition on_env {A} (m : M (env P) A) : M (world P O) A :=
  zoom bw_env (fun e w => mkWorld e (bw_backends w) (bw_rec w) (bw_policies w) (bw_jobs w)
                            (bw_running w) (bw_ids w)) m.
Definition now : M (world P O) time := on_env (tick clock).
Definition set_rec (r : list BackupRecord) : M (world P O) unit :=
  modify (fun w => mkWorld (bw_env w) (bw_backends w) (Some r) (bw_policies w) (bw_jobs w)
                     (bw_running w) (bw_ids w)).
Definition set_backup_jobs (f : gmap string job -> gmap string job) : M (world P O) unit :=
  modify (fun w => mkWorld (bw_env w) (bw_backends w) (bw_rec w) (bw_policies w) (f (bw_jobs w))
                     (bw_running w) (bw_ids w)).
Definition fresh_id : M (world P O) string := fun w =>
  Some (newID (bw_ids w), mkWorld (bw_env w) (bw_backends w) (bw_rec w) (bw_policies w) (bw_jobs w)
                            (bw_running w) (S (bw_ids w))).

(** [backends.ObjectStore(id)]: the store, or the resolver's error. *)
Definition open_store (id : string) : M (world P O) (result string O) :=
  gets (fun w => match bw_backends w !! id with
                 | Some o => Ok o
                 | None => Err "store: not found"
                 end).
(** A write through the object store handle of backend [id]. *)
Definition store_op {A} (id : string) (f : O -> A * O) : M (world P O) A := fun w =>
  match bw_backends w !! id with
  | None => None
  | Some o => Some ((f o).1, mkWorld (bw_env w) (<[id := (f o).2]> (bw_backends w)) (bw_rec w)
                               (bw_policies w) (bw_jobs w) (bw_running w) (bw_ids w))
  end.

(** ** Lifecycle *)

Definition Start : M (world P O) unit :=
  modify (fun w => mkWorld (bw_env w) (bw_backends w) (bw_rec w) (bw_policies w) (bw_jobs w)
                     true (bw_ids w)).
Definition Stop : M (world P O) unit :=
  modify (fun w => mkWorld (bw_env w) (bw_backends w) (bw_rec w) (bw_policies w)
                     ((fun j => mkJob (job_policy j) None) <$> bw_jobs w) false (bw_ids w)).

Definition schedule_interval (p : Policy) : duration :=
  let interval := dur_of (bp_IntervalSeconds p) Second in
  if interval <=? 0 then 24 * Hour else interval.

Definition Upsert (p : Policy) : M (world P O) unit :=
  running ← gets bw_running;
  set_backup_jobs (fun m => <[bp_ID p := mkJob p
    (if running && bp_Enabled p then Some (schedule_interval p) else None)]> m).

Definition Remove (id : string) : M (world P O) unit := set_backup_jobs (delete id).

(** ** Export, convert, upload *)

Definition exportAndUpload (providerID backendID vmID keyPrefix : string)
  : M (world P O) (result string (list DiskArtifact * Z)) :=
  src ← on_env (resolve providerID);
  match src with
  | None => panic
  | Some src =>
      let srcFmt := nativeFormat (hv_Kind src) in
      r ← on_env (invoke providerID (hv_ExportVM vmID srcFmt));
      match r with
      | Err e => mret (Err ("export: " +:+ e))
      | Ok (rc, info) =>
          let srcFmt := match info with
                        | Some i => if bool_decide (ei_Format i = "") then srcFmt else ei_Format i
                        | None => srcFmt end in
          match tmp_create tmp with
          | Some e => mret (Err ("stage: " +:+ e))
          | None =>
              match conv rc srcFmt DiskQcow2 with
              | (_, Some e) => mret (Err ("convert: " +:+ e))
              | (data, None) =>
                  match tmp_close tmp, tmp_stat tmp, tmp_open tmp with
                  | Some e, _, _ => mret (Err ("stage close: " +:+ e))
                  | None, Some e, _ => mret (Err ("stage stat: " +:+ e))
                  | None, None, Some e => mret (Err ("stage open: " +:+ e))
                  | None, None, None =>
                      let key := keyPrefix +:+ "disk-0.qcow2" in
                      n ← store_op backendID (os_Put key (Blob data));
                      mret (match n with
                            | Err e => Err ("upload: " +:+ e)
                            | Ok n => Ok ([mkArtifact key n DiskQcow2], n)
                            end)
                  end
              end
          end
      end
  end.

(** [dropSnapshot] on every snapshot of the backup's name; errors are ignored. *)
Definition dropSnapshot (providerID vmID snapID : string) : M (world P O) unit :=
  match hv_DeleteSnapshot with
  | Some del => _ ← on_env (invoke_at clock providerID (del vmID snapID)); mret tt
  | None => mret tt
  end.

Fixpoint drop_named (providerID vmID snapName : string) (snaps : list Snapshot)
  : M (world P O) unit :=
  match snaps with
  | [] => mret tt
  | s :: snaps =>
      _ ← (if bool_decide (snap_Name s = snapName)
           then dropSnapshot providerID vmID (snap_ID s) else mret tt);
      drop_named providerID vmID snapName snaps
  end.

(** The rows the recorder holds, when there is a recorder. *)
Definition update_rec (f : list BackupRecord -> list BackupRecord) : M (world P O) unit :=
  rows ← gets bw_rec;
  match rows with None => mret tt | Some rows => set_rec (f rows) end.

(** The VM's name, guest OS and firmware for the manifest. *)
Definition vm_metadata (providerID vmID : string) (src : P) : M (world P O) (string * string * string) :=
  if Has (hv_Capabilities src) CapGetVM then
    d ← on_env (invoke providerID (hv_GetVM vmID));
    mret (match d with
          | Ok (Some v) => (vm_Name v, vm_GuestOS v, vm_Firmware v)
          | _ => ("", "", "")
          end)
  else mret ("", "", "").

(** Step 1: the consistency snapshot, taken or not. *)
Definition take_snapshot (providerID vmID snapName : string) (src : P) : M (world P O) bool :=
  if Has (hv_Capabilities src) CapSnapshot then
    r ← on_env (invoke_at clock providerID (hv_Snapshot vmID
          (mkSnapshotOptions snapName "UniHV backup consistency point" false
             (Has (hv_Capabilities src) CapGuestAgent))));
    mret (is_ok r)
  else mret false.

(** Step 5: the snapshot is dropped. *)
Definition drop_snapshot (providerID vmID snapName : string) (snapTaken : bool) : M (world P O) unit :=
  if snapTaken then
    r ← on_env (invoke providerID (hv_ListSnapshots vmID));
    match r with Ok snaps => drop_named providerID vmID snapName snaps | Err _ => mret tt end
  else mret tt.

(** Step 4: the manifest, then the record's final state. *)
Definition finalize (req : BackupRequest) (rec : BackupRecord) (disks : list DiskArtifact) (total : Z)
  : M (world P O) (option BackupRecord * option string) :=
  let man := mkManifest (rec_VMID rec) (rec_VMName rec) (rec_GuestOS rec) (rec_Firmware rec) disks
               (rec_CreatedAt rec) in
  r ← store_op (br_BackendID req) (os_Put (rec_KeyPrefix rec +:+ manifestKey) (Manifest man));
  match r with
  | Err e =>
      let msg := "upload manifest: " +:+ e in
      _ ← update_rec (UpdateVMBackupResult (rec_ID rec) "error" 0 0 [] msg);
      mret (Some (set_result "error" (rec_SizeBytes rec) (rec_DiskCount rec) (rec_Disks rec) msg rec),
            Some ("backup: " +:+ msg))
  | Ok _ =>
      let count := Z.of_nat (length disks) in
      _ ← update_rec (UpdateVMBackupResult (rec_ID rec) "completed" total count disks "");
      mret (Some (set_result "completed" total count disks (rec_Error rec) rec), None)
  end.

(** [RecordBackup] of backups_vm.go: the row of a backup that starts, when there
    is a recorder; the store reads the clock for a record without a time. *)
Definition RecordBackup (rec : BackupRecord) : M (world P O) (option string) :=
  rows ← gets bw_rec;
  match rows with
  | None => mret None
  | Some rows =>
      t ← (if bool_decide (rec_CreatedAt rec = 0) then t ← now; mret (unix t) else mret 0);
      match CreateVMBackup t rec rows with
      | Ok rows => _ ← set_rec rows; mret None
      | Err e => mret (Some e)
      end
  end.

Definition BackupNow (req : BackupRequest) : M (world P O) (option BackupRecord * option string) :=
  src ← on_env (resolve (br_ProviderID req));
  match src with
  | None => mret (None, Some ("backup: unknown provider " +:+ quote (br_ProviderID req)))
  | Some src =>
      if negb (Has (hv_Capabilities src) CapExport)
      then mret (None, Some ("backup: provider " +:+ quote (br_ProviderID req) +:+ " cannot export disks"))
      else
        objs ← open_store (br_BackendID req);
        match objs with
        | Err e => mret (None, Some ("backup: storage backend: " +:+ e))
        | Ok _ =>
            md ← vm_metadata (br_ProviderID req) (br_VMID req) src;
            let '(vmName, guestOS, firmware) := md in
            ts ← now;
            id ← fresh_id;
            let rec := mkRecord id (br_VMID req) vmName (br_ProviderID req) (br_BackendID req)
                         (br_PolicyID req) ("vm/" +:+ br_VMID req +:+ "/" +:+ itoa (unix ts) +:+ "/")
                         0 0 [] guestOS firmware "pending" "" (unix ts) in
            err ← RecordBackup rec;
            match err with
            | Some e => mret (None, Some ("backup: record: " +:+ e))
            | None =>
                let snapName := "unihv-backup-" +:+ itoa (unix ts) in
                taken ← take_snapshot (br_ProviderID req) (br_VMID req) snapName src;
                up ← exportAndUpload (br_ProviderID req) (br_BackendID req) (br_VMID req) (rec_KeyPrefix rec);
                _ ← drop_snapshot (br_ProviderID req) (br_VMID req) snapName taken;
                match up with
                | Err e =>
                    _ ← update_rec (UpdateVMBackupResult id "error" 0 0 [] e);
                    mret (Some (set_result "error" 0 0 [] e rec), Some e)
                | Ok (disks, total) => finalize req rec disks total
                end
            end
        end
  end.

(** ** Deletion and retention *)

Fixpoint delete_keys (backendID : string) (keys : list string) : M (world P O) unit :=
  match keys with
  | [] => mret tt
  | k :: keys => _ ← store_op backendID (os_Delete k); delete_keys backendID keys
  end.

Definition deleteBackupArtifactsAndRow (rec : BackupRecord) : M (world P O) (option string) :=
  objs ← open_store (rec_BackendID rec);
  _ ← match objs with
      | Err _ => mret tt
      | Ok o =>
          match os_List (rec_KeyPrefix rec) o with
          | Ok keys => delete_keys (rec_BackendID rec) keys
          | Err _ => delete_keys (rec_BackendID rec)
                       ((da_Key <$> rec_Disks rec) ++ [rec_KeyPrefix rec +:+ manifestKey])
          end
      end;
  rows ← gets bw_rec;
  match rows with
  | None => mret None
  | Some rows => let '(e, rows') := DeleteVMBackup (rec_ID rec) rows in
                 _ ← set_rec rows'; mret e
  end.

Definition DeleteBackup (id : string) : M (world P O) (option string) :=
  rows ← gets bw_rec;
  match rows with
  | None => mret (Some "backup: delete requires a persistence layer")
  | Some rows =>
      match GetVMBackup id rows with
      | Err e => mret (Some e)
      | Ok rec => deleteBackupArtifactsAndRow rec
      end
  end.

(** The loop over the excess backups keeps the first error. *)
Fixpoint delete_all (recs : list BackupRecord) : M (world P O) (option string) :=
  match recs with
  | [] => mret None
  | r :: recs =>
      e ← deleteBackupArtifactsAndRow r;
      e' ← delete_all recs;
      mret (match e with Some _ => e | None => e' end)
  end.

Definition pruneRetention (policyID : string) (keep : Z) : M (world P O) (option string) :=
  rows ← gets bw_rec;
  match rows with
  | None => mret None
  | Some rows =>
      if keep <=? 0 then mret None
      else
        let rows := ListVMBackupsForPolicy policyID rows in
        if Z.of_nat (length rows) <=? keep then mret None
        else delete_all (take (length rows - Z.to_nat keep) rows)
  end.

Definition persistPolicy (id status lastErr : string) (lastRunAt : Z) : M (world P O) unit :=
  rows ← gets bw_rec;
  match rows with
  | None => mret tt
  | Some _ =>
      t ← now;
      modify (fun w => mkWorld (bw_env w) (bw_backends w) (bw_rec w)
        (UpdateVMBackupPolicyState id status lastErr lastRunAt t (bw_policies w)) (bw_jobs w)
        (bw_running w) (bw_ids w))
  end.

Definition runPolicy (id : string) : M (world P O) (option string) :=
  j ← gets (fun w => bw_jobs w !! id);
  match j with
  | None => mret (Some ("backup: unknown policy " +:+ quote id))
  | Some j =>
      let pol := job_policy j in
      _ ← persistPolicy id "running" "" 0;
      r ← BackupNow (mkBackupRequest (bp_ProviderID pol) (bp_VMID pol) (bp_BackendID pol) (bp_ID pol));
      match r with
      | (_, Some e) => _ ← persistPolicy id "error" e 0; mret (Some e)
      | (None, None) => panic
      | (Some rec, None) =>
          e ← pruneRetention (bp_ID pol) (bp_RetentionCount pol);
          _ ← match e with
              | Some e => persistPolicy id "idle" ("retention prune warning: " +:+ e) (rec_CreatedAt rec)
              | None => persistPolicy id "idle" "" (rec_CreatedAt rec)
              end;
          mret None
      end
  end.

(** ** Restore *)

(** The manifest [Restore] works from: the stored one when it is there and lists
    disks, else the record's own fields. *)
Definition restore_manifest (rec : BackupRecord) (o : O) : manifest :=
  let own := mkManifest (rec_VMID rec) (rec_VMName rec) (rec_GuestOS rec) (rec_Firmware rec)
               (rec_Disks rec) 0 in
  match os_Get (rec_KeyPrefix rec +:+ manifestKey) o with
  | Ok (Manifest m) => if bool_decide (man_Disks m = []) then own else m
  | _ => own
  end.

Definition restore_spec (req : RestoreRequest) (rec : BackupRecord) (man : manifest)
    (tgtFmt : string) (sizeBytes : Z) : VMSpec :=
  let base := if bool_decide (man_VMName man = "") then rec_VMID rec else man_VMName man in
  let name := if bool_decide (rr_TargetName req = "") then base +:+ "-restored" else rr_TargetName req in
  let fw := if bool_decide (man_Firmware man = "") then FirmwareUEFI else man_Firmware man in
  let gb := f64_div (f64_of_Z sizeBytes) (f64_of_Z (Z.shiftl 1 30)) in
  let gb := if f64_lt gb (f64_of_Z 1) then f64_of_Z 20 else gb in
  basic_VMSpec name (rr_TargetHostID req) 2 4096 (man_GuestOS man) fw
    ((fun _ => mkDiskSpec gb tgtFmt "" "" None "" false) <$> man_Disks man).

(** [os.Stat] of the staged file: its size, or 0 when it fails. *)
Definition Restore (req : RestoreRequest) : M (world P O) (result string string) :=
  rows ← gets bw_rec;
  match rows with
  | None => mret (Err "backup: restore requires a persistence layer")
  | Some rows =>
      match GetVMBackup (rr_BackupID req) rows with
      | Err e => mret (Err e)
      | Ok rec =>
          if negb (bool_decide (rec_Status rec = "completed"))
          then mret (Err ("backup: cannot restore a " +:+ rec_Status rec +:+ " backup"))
          else
            tgt ← on_env (resolve (rr_TargetProviderID req));
            match tgt with
            | None => mret (Err ("backup: unknown target provider " +:+ quote (rr_TargetProviderID req)))
            | Some tgt =>
                if negb (Has (hv_Capabilities tgt) CapCreateVM)
                then mret (Err ("backup: target provider " +:+ quote (rr_TargetProviderID req)
                                +:+ " cannot create VMs"))
                else
                  objs ← open_store (rec_BackendID rec);
                  match objs with
                  | Err e => mret (Err ("backup: storage backend: " +:+ e))
                  | Ok o =>
                      let man := restore_manifest rec o in
                      match man_Disks man with
                      | [] => mret (Err ("backup: backup " +:+ quote (rr_BackupID req)
                                         +:+ " has no disk artifacts"))
                      | d :: _ =>
                          match os_Get (da_Key d) o with
                          | Err e => mret (Err ("backup: download artifact: " +:+ e))
                          | Ok b =>
                              match tmp_create tmp with
                              | Some e => mret (Err ("backup: stage: " +:+ e))
                              | None =>
                                  let tgtFmt := nativeFormat (hv_Kind tgt) in
                                  match conv (body_bytes b, None) DiskQcow2 tgtFmt with
                                  | (_, Some e) => mret (Err ("backup: convert: " +:+ e))
                                  | (data, None) =>
                                      let size := match tmp_stat tmp with
                                                  | None => Z.of_nat (String.length data)
                                                  | Some _ => 0 end in
                                      r ← on_env (invoke_at clock (rr_TargetProviderID req)
                                            (hv_CreateVM (restore_spec req rec man tgtFmt size)));
                                      match r with
                                      | Err e => mret (Err ("backup: create restored VM: " +:+ e))
                                      | Ok None => panic
                                      | Ok (Some task) =>
                                          tgt ← on_env (resolve (rr_TargetProviderID req));
                                          match tgt with
                                          | None => panic
                                          | Some tgt =>
                                              _ ← (if rr_PowerOnAfter req
                                                      && Has (hv_Capabilities tgt) CapPowerStart
                                                   then _ ← on_env (invoke_at clock (rr_TargetProviderID req)
                                                             (hv_PowerOp (task_EntityID task) PowerStart));
                                                        mret tt
                                                   else mret tt);
                                              mret (Ok (task_EntityID task))
                                          end
                                      end
                                  end
                              end
                          end
                      end
                  end
            end
      end
  end.
End Engine.

(** ** The in-memory object store of backup_test.go *)

#[export] Instance memStore : ObjectStore (gmap string body) := {|
  os_Put k b o := (Ok (Z.of_nat (String.length (body_bytes b))), <[k := b]> o);
  os_Get k o := match o !! k with Some b => Ok b | None => Err "EOF" end;
  os_List p o := Ok (sort_strings (filter (fun k => has_prefix k p = true) (map_to_list o).*1));
  os_Delete k o := (None, delete k o);
  os_view o := o |}.
