(* ===== verification/BackupProps.v ===== *)
(** * What the backup engine guarantees

    A completed backup can be restored to the bytes and the metadata it was taken
    from; deletion and retention remove exactly what they should; and the key
    scheme makes two backups collide when they share a VM id and a second. *)
From S2P Require Import Prelude GoStd VProvider Sim SimFacts Hypervisor Migrate Backup.

Section Facts.
Context {P O : Type} `{Hypervisor P} `{ObjectStoreLaws O}.
Context (clock : nat -> time) (conv : converter) (newID : nat -> string) (tmp : tmp_os).

(** ** Frames *)

(** Everything but the providers and the clock is the same. *)
Definition same_data (w w' : world P O) : Prop :=
  bw_backends w' = bw_backends w /\ bw_rec w' = bw_rec w /\ bw_policies w' = bw_policies w /\
  bw_jobs w' = bw_jobs w /\ bw_running w' = bw_running w.

#[export] Instance same_data_trans : PreOrder same_data.
Proof. split; [done|]. intros w1 w2 w3 (?&?&?&?&?) (?&?&?&?&?). split_and!; congruence. Qed.

Definition env_only {A} (m : M (world P O) A) : Prop :=
  forall w Q, (forall a w', same_data w w' -> Q a w') -> wlp m Q w.

Lemma env_only_on_env {A} (m : M (env P) A) : env_only (on_env m).
Proof. intros w Q HQ. unfold wlp, on_env, zoom. destruct (m (bw_env w)) as [[a e]|]; [by apply HQ|done]. Qed.

Lemma env_only_ret {A} (a : A) : env_only (mret a).
Proof. intros w Q HQ. by apply wlp_ret, HQ. Qed.

Lemma env_only_bind {A B} (m : M (world P O) A) (f : A -> M (world P O) B) :
  env_only m -> (forall a, env_only (f a)) -> env_only (m ≫= f).
Proof.
  intros Hm Hf w Q HQ. apply wlp_bind, Hm. intros a w1 H1'. apply Hf. intros b w2 H2'.
  apply HQ. by transitivity w1.
Qed.

Lemma env_only_metadata pid vm src : env_only (vm_metadata pid vm src).
Proof.
  unfold vm_metadata. case_match; [|apply env_only_ret].
  apply env_only_bind; [apply env_only_on_env|intros; apply env_only_ret].
Qed.

Lemma env_only_take pid vm nm src : env_only (take_snapshot clock pid vm nm src).
Proof.
  unfold take_snapshot. case_match; [|apply env_only_ret].
  apply env_only_bind; [apply env_only_on_env|intros; apply env_only_ret].
Qed.

Lemma env_only_drop_named pid vm nm snaps : env_only (drop_named clock pid vm nm snaps).
Proof.
  induction snaps as [|s snaps IH]; [apply env_only_ret|]. simpl. apply env_only_bind; [|done].
  case_match; [|apply env_only_ret]. unfold dropSnapshot. case_match; [|apply env_only_ret].
  apply env_only_bind; [apply env_only_on_env|intros; apply env_only_ret].
Qed.

Lemma env_only_drop pid vm nm taken : env_only (drop_snapshot clock pid vm nm taken).
Proof.
  unfold drop_snapshot. case_match; [|apply env_only_ret].
  apply env_only_bind; [apply env_only_on_env|]. intros [|]; [apply env_only_drop_named|apply env_only_ret].
Qed.

(** ** The upload *)

Lemma store_op_wlp {A} id (f : O -> A * O) Q (w : world P O) :
  (forall o w', bw_backends w !! id = Some o ->
     bw_backends w' = <[id := (f o).2]> (bw_backends w) -> bw_rec w' = bw_rec w -> Q (f o).1 w') ->
  wlp (store_op id f) Q w.
Proof.
  intros HQ. unfold wlp, store_op. destruct (bw_backends w !! id) as [o|] eqn:E; [|done]. by eapply HQ.
Qed.

(** One object was written to backend [id]; nothing else changed there or in any
    other backend. *)
Definition wrote (id k : string) (b : body) (w w' : world P O) : Prop :=
  exists o o', bw_backends w !! id = Some o /\ bw_backends w' = <[id := o']> (bw_backends w) /\
    os_view o' = <[k := b]> (os_view o).

(** A call on the provider that the registry has under [id]. *)
Lemma call_wlp {A} id (f : P -> A * P) Q (w : world P O) p :
  env_reg (bw_env w) !! id = Some p ->
  (forall w', same_data w w' -> env_reg (bw_env w') = <[id := (f p).2]> (env_reg (bw_env w)) -> Q (f p).1 w') ->
  wlp (on_env (invoke id f)) Q w.
Proof. intros Hp HQ. unfold wlp, on_env, zoom, invoke. rewrite Hp. by apply HQ. Qed.
Lemma call_at_wlp {A} id (f : time -> P -> A * P) Q (w : world P O) p :
  env_reg (bw_env w) !! id = Some p ->
  (forall now w', same_data w w' -> env_reg (bw_env w') = <[id := (f now p).2]> (env_reg (bw_env w)) ->
     Q (f now p).1 w') ->
  wlp (on_env (invoke_at clock id f)) Q w.
Proof. intros Hp HQ. unfold wlp, on_env, zoom. rewrite (invoke_at_eq _ _ _ _ _ Hp). by apply HQ. Qed.
Lemma resolve_wlp id Q (w : world P O) :
  Q (env_reg (bw_env w) !! id) w -> wlp (on_env (resolve id)) Q w.
Proof. intros HQ. unfold wlp. cbn. by destruct w. Qed.

(** The disk image that [p] exports for a VM, as the staging converts it. *)
Definition image_of (p : P) (vm data : string) : Prop :=
  exists rc info, (hv_ExportVM vm (nativeFormat (hv_Kind p)) p).1 = Ok (rc, info) /\
    conv rc (match info with
             | Some i => if bool_decide (ei_Format i = "") then nativeFormat (hv_Kind p) else ei_Format i
             | None => nativeFormat (hv_Kind p) end) DiskQcow2 = (data, None).

Lemma upload_wlp pid bid vm prefix Q (w : world P O) p :
  env_reg (bw_env w) !! pid = Some p ->
  (forall e w', bw_rec w' = bw_rec w -> Q (Err e) w') ->
  (forall data n w', image_of p vm data ->
     bw_rec w' = bw_rec w -> wrote bid (prefix +:+ "disk-0.qcow2") (Blob data) w w' ->
     Q (Ok ([mkArtifact (prefix +:+ "disk-0.qcow2") n DiskQcow2], n)) w') ->
  wlp (exportAndUpload conv tmp pid bid vm prefix) Q w.
Proof.
  intros Hp He Hok. unfold exportAndUpload. apply wlp_bind, resolve_wlp. rewrite Hp.
  apply wlp_bind. eapply call_wlp; [done|]. intros w2 (Hb2 & Hr2 & _) _.
  assert (forall e, wlp (mret (Err e)) Q w2) as Herr by (intros e; apply wlp_ret, He; congruence).
  unfold image_of in Hok.
  destruct (hv_ExportVM _ _ p).1 as [[rc info]|e] eqn:Ex; [|done]. destruct (tmp_create tmp) as [e|]; [done|].
  destruct (conv rc _ DiskQcow2) as [data [e|]] eqn:Ec; [done|].
  destruct (tmp_close tmp); [done|]. destruct (tmp_stat tmp); [done|]. destruct (tmp_open tmp); [done|].
  apply wlp_bind, store_op_wlp. intros o w3 Ho Hb3 Hr3. apply wlp_ret.
  destruct (os_Put _ _ o) as [[n|e] o'] eqn:Ep; simpl; [|apply He; congruence].
  apply (Hok data); [by exists rc, info|congruence|]. exists o, o'. rewrite <- Hb2. split; [done|].
  split; [exact Hb3|]. by eapply os_put_ok.
Qed.

Lemma update_rec_wlp f Q (w : world P O) :
  (forall w', bw_backends w' = bw_backends w -> bw_rec w' = f <$> bw_rec w -> Q tt w') ->
  wlp (update_rec f) Q w.
Proof.
  intros HQ. unfold update_rec. apply wlp_bind, wlp_gets. destruct (bw_rec w) as [rows|] eqn:E.
  - unfold set_rec. apply wlp_modify, HQ; [done|]. done.
  - apply wlp_ret, HQ; [done|]. by rewrite E.
Qed.

(** ** A successful backup *)

Definition backup_manifest (rec : BackupRecord) : manifest :=
  mkManifest (rec_VMID rec) (rec_VMName rec) (rec_GuestOS rec) (rec_Firmware rec) (rec_Disks rec)
    (rec_CreatedAt rec).

(** What a completed backup [rec] of [data] leaves in its store. *)
Definition stored (req : BackupRequest) (rec : BackupRecord) (data : string) (w w' : world P O) : Prop :=
  exists o o', bw_backends w !! br_BackendID req = Some o /\
    bw_backends w' = <[br_BackendID req := o']> (bw_backends w) /\
    os_view o' = <[rec_KeyPrefix rec +:+ manifestKey := Manifest (backup_manifest rec)]>
                   (<[rec_KeyPrefix rec +:+ "disk-0.qcow2" := Blob data]> (os_view o)).

(** [data] is the image of the VM, exported by its provider [src] after the
    snapshot that a provider with snapshots is asked for, and the record carries
    the VM's name, guest OS and firmware as [src] gave them before. *)
Definition taken_from (req : BackupRequest) (rec : BackupRecord) (data : string) (src : P) : Prop :=
  (exists now,
     let opts := mkSnapshotOptions ("unihv-backup-" +:+ itoa (rec_CreatedAt rec)) "UniHV backup consistency point" false
                   (Has (hv_Capabilities src) CapGuestAgent) in
     image_of (if Has (hv_Capabilities src) CapSnapshot then (hv_Snapshot (br_VMID req) opts now src).2 else src)
       (br_VMID req) data) /\
  (rec_VMName rec, rec_GuestOS rec, rec_Firmware rec) =
    (if Has (hv_Capabilities src) CapGetVM then
       match (hv_GetVM (br_VMID req) src).1 with
       | Ok (Some v) => (vm_Name v, vm_GuestOS v, vm_Firmware v)
       | _ => ("", "", "")
       end
     else ("", "", "")).

(** The fields of a completed record that follow from the request. *)
Definition completed_for (req : BackupRequest) (rec : BackupRecord) : Prop :=
  rec_Status rec = "completed" /\ rec_VMID rec = br_VMID req /\ rec_BackendID rec = br_BackendID req /\
  rec_PolicyID rec = br_PolicyID req /\
  rec_KeyPrefix rec = "vm/" +:+ br_VMID req +:+ "/" +:+ itoa (rec_CreatedAt rec) +:+ "/" /\
  exists n, rec_Disks rec = [mkArtifact (rec_KeyPrefix rec +:+ "disk-0.qcow2") n DiskQcow2].

(** The row of a record: without a time of its own it carries the store's. *)
Definition row_of (rec row : BackupRecord) : Prop :=
  exists t, row = with_created t rec /\ (rec_CreatedAt rec <> 0 -> t = rec_CreatedAt rec).

Definition backup_post (req : BackupRequest) (w : world P O)
    (r : option BackupRecord * option string) (w' : world P O) : Prop :=
  match r with
  | (Some rec, None) =>
      completed_for req rec /\
      (exists data src, env_reg (bw_env w) !! br_ProviderID req = Some src /\
         taken_from req rec data src /\ stored req rec data w w') /\
      (forall rows, bw_rec w = Some rows -> exists pending row,
         (rec_ID rec ∉ rec_ID <$> rows) /\ row_of pending row /\
         bw_rec w' = Some (UpdateVMBackupResult (rec_ID rec) "completed" (rec_SizeBytes rec)
                             (rec_DiskCount rec) (rec_Disks rec) "" (rows ++ [row])) /\
         rec = set_result "completed" (rec_SizeBytes rec) (rec_DiskCount rec) (rec_Disks rec) "" pending)
  | _ => True
  end.

Lemma finalize_wlp req rec n Q (w : world P O) :
  let disks := [mkArtifact (rec_KeyPrefix rec +:+ "disk-0.qcow2") n DiskQcow2] in
  let rec' := set_result "completed" n 1 disks (rec_Error rec) rec in
  (forall r e w', Q (r, Some e) w') ->
  (forall w', wrote (br_BackendID req) (rec_KeyPrefix rec +:+ manifestKey) (Manifest (backup_manifest rec')) w w' ->
     bw_rec w' = UpdateVMBackupResult (rec_ID rec) "completed" n 1 disks "" <$> bw_rec w ->
     Q (Some rec', None) w') ->
  wlp (finalize req rec disks n) Q w.
Proof.
  intros disks rec' He Hok. unfold finalize. apply wlp_bind, store_op_wlp. intros o w1 Ho Hb Hr.
  destruct (os_Put _ _ o) as [[m|e] o'] eqn:Ep; simpl.
  - apply wlp_bind, update_rec_wlp. intros w2 Hb2 Hr2. apply wlp_ret, Hok.
    + exists o, o'. split; [done|]. split; [by rewrite Hb2, Hb|]. by eapply os_put_ok.
    + by rewrite Hr2, Hr.
  - apply wlp_bind, update_rec_wlp. intros w2 _ _. by apply wlp_ret.
Qed.

Lemma with_created_id rec : with_created (rec_CreatedAt rec) rec = rec.
Proof. by destruct rec. Qed.

Lemma record_wlp rec (w : world P O) :
  wlp (RecordBackup clock rec) (fun e w' => bw_backends w' = bw_backends w /\
    env_reg (bw_env w') = env_reg (bw_env w) /\
    (e = None -> forall rows, bw_rec w = Some rows ->
       (rec_ID rec ∉ rec_ID <$> rows) /\ exists row, row_of rec row /\ bw_rec w' = Some (rows ++ [row]))) w.
Proof.
  unfold RecordBackup. apply wlp_bind, wlp_gets. destruct (bw_rec w) as [rows|] eqn:Hr; [|by apply wlp_ret].
  apply wlp_bind.
  eapply (wlp_mono _ (fun t w1 => bw_backends w1 = bw_backends w /\ env_reg (bw_env w1) = env_reg (bw_env w))).
  { case_bool_decide; [|by apply wlp_ret]. apply wlp_bind. unfold now, on_env, zoom, wlp at 1. simpl. by apply wlp_ret. }
  intros t w1 [Hb He]. unfold CreateVMBackup.
  assert (row_of rec (if bool_decide (rec_CreatedAt rec = 0) then with_created t rec else rec)) as Hrow.
  { case_bool_decide; [by exists t|]. exists (rec_CreatedAt rec). by rewrite with_created_id. }
  set (row := if bool_decide (rec_CreatedAt rec = 0) then _ else _) in *.
  assert (rec_ID row = rec_ID rec) as Hid by (by destruct Hrow as (t' & -> & _)). rewrite Hid.
  case_bool_decide as Hin; [by apply wlp_ret|]. apply wlp_bind. unfold set_rec. apply wlp_modify, wlp_ret.
  split; [done|]. split; [done|]. intros _ rows' [= <-]. split; [done|]. by exists row.
Qed.

Lemma metadata_wlp pid vm src Q (w : world P O) `{!HypervisorLaws P} :
  env_reg (bw_env w) !! pid = Some src ->
  (forall w', same_data w w' -> env_reg (bw_env w') = env_reg (bw_env w) ->
     Q (if Has (hv_Capabilities src) CapGetVM then
          match (hv_GetVM vm src).1 with
          | Ok (Some v) => (vm_Name v, vm_GuestOS v, vm_Firmware v)
          | _ => ("", "", "")
          end
        else ("", "", "")) w') ->
  wlp (vm_metadata pid vm src) Q w.
Proof.
  intros Hp HQ. unfold vm_metadata. destruct (Has _ CapGetVM); [|by apply wlp_ret, HQ].
  apply wlp_bind. eapply call_wlp; [done|]. intros w1 Hs He. apply wlp_ret, HQ; [done|].
  by rewrite He, hv_get_reads, insert_id.
Qed.

Lemma snapshot_wlp pid vm nm src Q (w : world P O) :
  env_reg (bw_env w) !! pid = Some src ->
  (forall taken now w', same_data w w' ->
     env_reg (bw_env w') !! pid =
       Some (if Has (hv_Capabilities src) CapSnapshot
             then (hv_Snapshot vm (mkSnapshotOptions nm "UniHV backup consistency point" false
                     (Has (hv_Capabilities src) CapGuestAgent)) now src).2 else src) -> Q taken w') ->
  wlp (take_snapshot clock pid vm nm src) Q w.
Proof.
  intros Hp HQ. unfold take_snapshot. destruct (Has _ CapSnapshot); [|by apply wlp_ret, (HQ _ (clock 0))].
  apply wlp_bind. eapply call_at_wlp; [done|]. intros now w1 Hs He. apply wlp_ret, (HQ _ now); [done|].
  by rewrite He, lookup_insert_eq.
Qed.

Lemma backup_wlp req (w : world P O) `{!HypervisorLaws P} :
  wlp (BackupNow clock conv newID tmp req) (backup_post req w) w.
Proof.
  unfold BackupNow. apply wlp_bind, resolve_wlp.
  destruct (env_reg (bw_env w) !! br_ProviderID req) as [src|] eqn:Hsrc; [|by apply wlp_ret].
  case_match; [by apply wlp_ret|].
  apply wlp_bind, wlp_gets. destruct (bw_backends w !! br_BackendID req) as [o|] eqn:Ho; [|by apply wlp_ret].
  apply wlp_bind. eapply metadata_wlp; [apply _|done|]. intros w2 (Hb2 & Hr2 & _) He2.
  destruct (if Has (hv_Capabilities src) CapGetVM then _ else _) as [[vmName guestOS] firmware] eqn:Hmeta.
  apply wlp_bind. unfold now at 1, on_env at 1, zoom at 1, wlp at 1. simpl. set (ts := clock _). set (w3 := mkWorld _ _ _ _ _ _ _).
  apply wlp_bind. unfold fresh_id at 1, wlp at 1. set (w4 := mkWorld _ _ _ _ _ _ _).
  assert (bw_backends w4 = bw_backends w /\ bw_rec w4 = bw_rec w /\ env_reg (bw_env w4) = env_reg (bw_env w))
    as (Hb4 & Hr4 & He4) by (simpl; split_and!; congruence).
  set (rec := mkRecord _ _ _ _ _ _ _ _ _ _ _ _ _ _ _). clearbody w4.
  apply wlp_bind. eapply wlp_mono; [apply record_wlp|]. intros [e|] w5 (Hb5 & He5 & Hr5); [by apply wlp_ret|].
  specialize (Hr5 eq_refl).
  apply wlp_bind. eapply snapshot_wlp; [by rewrite He5, He4|]. intros taken now w6 (Hb6 & Hr6 & _) Hp6.
  apply wlp_bind. eapply upload_wlp; [done| |].
  { intros e w7 Hr7. apply wlp_bind, env_only_drop. intros _ w8 _. apply wlp_bind, update_rec_wlp.
    intros w9 _ _. by apply wlp_ret. }
  intros data n w7 Himg Hr7 Hw7. apply wlp_bind, env_only_drop. intros _ w8 (Hb8 & Hr8 & _).
  apply finalize_wlp; [by intros [|]|]. intros w9 Hw9 Hr9. simpl.
  destruct Hw7 as (oa & ob & Hoa & Hob & Hva). destruct Hw9 as (oc & od & Hoc & Hod & Hvc).
  rewrite Hb8, Hob, lookup_insert_eq in Hoc. simplify_eq.
  split; [|split].
  - unfold completed_for, rec. simpl. split_and!; try done. by exists n.
  - exists data, src. split; [done|]. split; [split; [by exists now|by rewrite Hmeta]|].
    exists oa, od. rewrite Hb6, Hb5, Hb4 in Hoa, Hob. split; [done|].
    split; [by rewrite Hod, Hb8, Hob, insert_insert_eq|]. by rewrite Hvc, Hva.
  - intros rows Hrows. destruct (Hr5 rows) as (Hni & row & Hrow & Hw5); [by rewrite Hr4|].
    exists rec, row. split; [done|]. split; [done|].
    split; [|done]. by rewrite Hr9, Hr8, Hr7, Hr6, Hw5.
Qed.

(** ** The rows *)

Lemma get_not_found id rows : (id ∉ rec_ID <$> rows) -> list_find (fun r => rec_ID r = id) rows = None.
Proof.
  intros Hni. apply list_find_None, Forall_forall. intros r Hr <-. apply Hni.
  by apply list_elem_of_fmap_2.
Qed.

Lemma update_result_other id st sz c d e rows :
  (id ∉ rec_ID <$> rows) -> UpdateVMBackupResult id st sz c d e rows = rows.
Proof.
  intros Hni. unfold UpdateVMBackupResult. induction rows as [|r rows IH]; [done|].
  rewrite fmap_cons, not_elem_of_cons in Hni. destruct Hni as [Hne Hni].
  rewrite fmap_cons, bool_decide_false by done. by rewrite IH.
Qed.

(** The completed row is that of the record the engine returns. *)
Lemma completed_row rec pending row rows :
  (rec_ID rec ∉ rec_ID <$> rows) -> row_of pending row ->
  rec = set_result "completed" (rec_SizeBytes rec) (rec_DiskCount rec) (rec_Disks rec) "" pending ->
  exists done, row_of rec done /\
    UpdateVMBackupResult (rec_ID rec) "completed" (rec_SizeBytes rec) (rec_DiskCount rec) (rec_Disks rec)
      "" (rows ++ [row]) = rows ++ [done] /\
    GetVMBackup (rec_ID rec) (rows ++ [done]) = Ok done.
Proof.
  intros Hni (t & -> & Ht) Hrec. exists (with_created t rec).
  assert (rec_ID pending = rec_ID rec /\ rec_CreatedAt pending = rec_CreatedAt rec) as [Hid Hts] by (by rewrite Hrec).
  split; [exists t; by rewrite <- Hts|]. split.
  - unfold UpdateVMBackupResult. rewrite fmap_app. f_equal; [by apply update_result_other|].
    simpl. rewrite bool_decide_true by done. do 2 f_equal. by rewrite Hrec at 4.
  - unfold GetVMBackup. rewrite list_find_app_r by (by apply get_not_found). simpl.
    by rewrite decide_True.
Qed.

Lemma disk_manifest_keys prefix : prefix +:+ manifestKey <> prefix +:+ "disk-0.qcow2".
Proof. intros Hk. by apply string_app_inj_l in Hk. Qed.

(** The manifest a restore reads back. *)
Lemma restore_manifest_stored rec o m :
  (forall k b, os_view o !! k = Some b -> os_Get k o = Ok b) ->
  os_view o !! (rec_KeyPrefix rec +:+ manifestKey) = Some (Manifest m) -> man_Disks m <> [] ->
  restore_manifest rec o = m.
Proof.
  intros Hread Hm Hd. unfold restore_manifest. rewrite (Hread _ _ Hm). by rewrite bool_decide_false.
Qed.

Lemma bk_resolve_wp id Q (w : world P O) :
  Q (env_reg (bw_env w) !! id) w -> wp (on_env (resolve id)) Q w.
Proof. intros HQ. unfold wp. cbn. by destruct w. Qed.

Lemma bk_call_wp {A} id (f : time -> P -> A * P) Q (w : world P O) p :
  env_reg (bw_env w) !! id = Some p ->
  (forall w', same_data w w' ->
     env_reg (bw_env w') = <[id := (f (clock (env_tick (bw_env w))) p).2]> (env_reg (bw_env w)) ->
     Q (f (clock (env_tick (bw_env w))) p).1 w') ->
  wp (on_env (invoke_at clock id f)) Q w.
Proof.
  intros Hp HQ. apply wp_zoom. eapply wp_intro; [by apply invoke_at_eq|]. by apply HQ.
Qed.

Lemma restore_wp rr rows rec o man d ds b d2 tgt (w : world P O) `{!HypervisorLaws P} :
  bw_rec w = Some rows -> GetVMBackup (rr_BackupID rr) rows = Ok rec -> rec_Status rec = "completed" ->
  env_reg (bw_env w) !! rr_TargetProviderID rr = Some tgt -> Has (hv_Capabilities tgt) CapCreateVM = true ->
  bw_backends w !! rec_BackendID rec = Some o -> restore_manifest rec o = man -> man_Disks man = d :: ds ->
  os_Get (da_Key d) o = Ok b -> tmp_create tmp = None -> tmp_stat tmp = None ->
  conv (body_bytes b, None) DiskQcow2 (nativeFormat (hv_Kind tgt)) = (d2, None) ->
  let spec := restore_spec rr rec man (nativeFormat (hv_Kind tgt)) (Z.of_nat (String.length d2)) in
  wp (Restore clock conv tmp rr)
     (fun res w2 => same_data w w2 /\
        match (hv_CreateVM spec (clock (env_tick (bw_env w))) tgt).1 with
        | Ok (Some task) => res = Ok (task_EntityID task)
        | Ok None => False
        | Err e => res = Err ("backup: create restored VM: " +:+ e)
        end) w.
Proof.
  intros Hrows Hget Hst Htgt Hcap Ho Hman Hds Hb Htc Hts Hconv spec.
  pose proof (hv_create_task tgt spec (clock (env_tick (bw_env w)))) as Htask.
  unfold Restore. apply wp_bind, wp_gets. rewrite Hrows, Hget, Hst. rewrite bool_decide_true by done.
  cbn [negb]. apply wp_bind, bk_resolve_wp. rewrite Htgt, Hcap. cbn [negb].
  apply wp_bind, wp_gets. rewrite Ho. cbv zeta. rewrite Hman, Hds, Hb, Htc, Hconv, Hts.
  apply wp_bind. eapply bk_call_wp; [done|]. fold spec. intros w1 Hs1 Hr1.
  destruct (hv_CreateVM spec (clock (env_tick (bw_env w))) tgt) as [[[task|]|e] tgt']; cbn [fst snd] in *;
    [|done|by apply wp_ret].
  assert (env_reg (bw_env w1) !! rr_TargetProviderID rr = Some tgt') as Ht1 by (by rewrite Hr1, lookup_insert_eq).
  apply wp_bind, bk_resolve_wp. rewrite Ht1. apply wp_bind.
  destruct (rr_PowerOnAfter rr && Has (hv_Capabilities tgt') CapPowerStart).
  - apply wp_bind. eapply bk_call_wp; [done|]. intros w2 Hs2 _. do 2 apply wp_ret.
    split; [by transitivity w1|done].
  - by do 2 apply wp_ret.
Qed.

(** The machine a restore asks for: the name asked for, or the VM's (its id when it
    has none) with -restored; two CPUs and 4 GB; the guest OS and the firmware of
    the VM, UEFI when it has none; and one blank disk in the format of the target
    that would hold [size] bytes, of 20 GB when they are less than one. *)
Definition restored_as (rr : RestoreRequest) (rec : BackupRecord) (fmt : string) (size : Z) : VMSpec :=
  let gb := f64_div (f64_of_Z size) (f64_of_Z 1073741824) in
  basic_VMSpec
    (if bool_decide (rr_TargetName rr = "")
     then (if bool_decide (rec_VMName rec = "") then rec_VMID rec else rec_VMName rec) +:+ "-restored"
     else rr_TargetName rr)
    (rr_TargetHostID rr) 2 4096 (rec_GuestOS rec)
    (if bool_decide (rec_Firmware rec = "") then FirmwareUEFI else rec_Firmware rec)
    [mkDiskSpec (if f64_lt gb (f64_of_Z 1) then f64_of_Z 20 else gb) fmt "" "" None "" false].

Lemma restore_spec_manifest rr rec row d fmt size : rec_Disks rec = [d] -> rec_VMID row = rec_VMID rec ->
  restore_spec rr row (backup_manifest rec) fmt size = restored_as rr rec fmt size.
Proof.
  intros Hd Hv. unfold restore_spec, restored_as, backup_manifest. cbn [man_VMName man_GuestOS man_Firmware man_Disks].
  rewrite Hd, Hv. change (Z.shiftl 1 30) with 1073741824. done.
Qed.

(** C19 Backup and restore round trip.  A backup that succeeds has stored, under the
    VM's id and the time, the image that the VM's provider exported after the
    snapshot, converted to qcow2, and a manifest with the name, guest OS and
    firmware that the provider gave; nothing else in the store changes, and the
    recorder has the completed record as one more row.  A restore of that backup
    on any registered target that can create VMs reads both back: it converts the
    stored image to the target's format and asks the target for the machine
    [restored_as], whose disk has the size of the converted image; its result is
    that of the target's creation, and stored objects and rows are left alone.  The
    code hands the target the size of the image but not its bytes (see the
    findings).  Assumed: the store gives back the objects it holds, and the
    temporary file of the restore can be created and measured. *)
Theorem backup_restore_roundtrip req (w w1 : world P O) rows rec rr tgt `{!HypervisorLaws P} :
  BackupNow clock conv newID tmp req w = Some ((Some rec, None), w1) -> bw_rec w = Some rows ->
  rr_BackupID rr = rec_ID rec ->
  env_reg (bw_env w1) !! rr_TargetProviderID rr = Some tgt ->
  Has (hv_Capabilities tgt) CapCreateVM = true ->
  (forall o k b, bw_backends w1 !! br_BackendID req = Some o -> os_view o !! k = Some b -> os_Get k o = Ok b) ->
  tmp_create tmp = None -> tmp_stat tmp = None ->
  completed_for req rec /\
  (exists row, row_of rec row /\ bw_rec w1 = Some (rows ++ [row])) /\
  exists data src, env_reg (bw_env w) !! br_ProviderID req = Some src /\
    taken_from req rec data src /\ stored req rec data w w1 /\
    forall d2, conv (data, None) DiskQcow2 (nativeFormat (hv_Kind tgt)) = (d2, None) ->
    let spec := restored_as rr rec (nativeFormat (hv_Kind tgt)) (Z.of_nat (String.length d2)) in
    exists res w2, Restore clock conv tmp rr w1 = Some (res, w2) /\
      bw_backends w2 = bw_backends w1 /\ bw_rec w2 = bw_rec w1 /\
      match (hv_CreateVM spec (clock (env_tick (bw_env w1))) tgt).1 with
      | Ok (Some task) => res = Ok (task_EntityID task)
      | Ok None => False
      | Err e => res = Err ("backup: create restored VM: " +:+ e)
      end.
Proof.
  intros Hb Hrows Hid Htgt Hcap Hread Htc Hts.
  destruct (wlp_elim _ _ _ _ _ (backup_wlp req w) Hb) as (Hc & (data & src & Hsrc & Htaken & Hst) & Hr).
  destruct (Hr rows Hrows) as (pending & row0 & Hni & Hp & Hr1 & Hrec).
  destruct (completed_row rec pending row0 rows Hni Hp Hrec) as (row & Hrow & Hupd & Hget). rewrite Hupd in Hr1.
  split; [done|]. split; [by exists row|]. exists data, src. split; [done|]. split; [done|]. split; [done|].
  intros d2 Hconv spec. destruct Hc as (Hcs & _ & Hbid & _ & _ & n & Hdisks).
  destruct Hst as (o & o' & Ho & Hb1 & Hv).
  assert (bw_backends w1 !! rec_BackendID rec = Some o') as Ho1 by (by rewrite Hbid, Hb1, lookup_insert_eq).
  assert (forall k b, os_view o' !! k = Some b -> os_Get k o' = Ok b) as Hread'.
  { intros k b. apply Hread. by rewrite Hb1, lookup_insert_eq. }
  destruct Hrow as (t & -> & _).
  assert (restore_manifest (with_created t rec) o' = backup_manifest rec) as Hman.
  { apply restore_manifest_stored; [done|by rewrite Hv, lookup_insert_eq|]. simpl. by rewrite Hdisks. }
  assert (os_Get (rec_KeyPrefix rec +:+ "disk-0.qcow2") o' = Ok (Blob data)) as Hdata.
  { apply Hread'. rewrite Hv, lookup_insert_ne by apply disk_manifest_keys. by rewrite lookup_insert_eq. }
  destruct (wp_inv _ _ _ (restore_wp rr _ (with_created t rec) o' _ _ _ (Blob data) d2 tgt w1 Hr1
      ltac:(by rewrite Hid) Hcs Htgt Hcap Ho1 Hman Hdisks Hdata Htc Hts Hconv))
    as (res & w2 & Hres & (Hsb & Hsr & _) & Hm).
  rewrite (restore_spec_manifest rr rec (with_created t rec) _ _ _ Hdisks eq_refl) in Hm.
  by exists res, w2.
Qed.

(** ** Deletion *)

Lemma open_store_wp id Q (w : world P O) :
  Q (match bw_backends w !! id with Some o => Ok o | None => Err "store: not found" end) w ->
  wp (open_store id) Q w.
Proof. done. Qed.

(** Only backend [id] differs, and only at the keys listed. *)
Definition pruned (id : string) (keys : list string) (w w' : world P O) : Prop :=
  (forall b, b <> id -> bw_backends w' !! b = bw_backends w !! b) /\
  (forall o, bw_backends w !! id = Some o -> exists o', bw_backends w' !! id = Some o' /\
     forall k, k ∉ keys -> os_view o' !! k = os_view o !! k) /\
  bw_rec w' = bw_rec w.

Lemma delete_keys_wp id keys o (w : world P O) :
  bw_backends w !! id = Some o -> wp (delete_keys id keys) (fun _ w' => pruned id keys w w') w.
Proof.
  revert o w. induction keys as [|k keys IH]; intros o w Ho; simpl.
  { apply wp_ret. split_and!; [done| |done]. intros o' Ho'. by exists o'. }
  apply wp_bind. unfold wp at 1, store_op. rewrite Ho. set (w1 := mkWorld _ _ _ _ _ _ _).
  assert (bw_backends w1 !! id = Some (os_Delete k o).2) as Ho1 by apply lookup_insert_eq.
  eapply wp_mono; [by eapply IH|]. intros _ w2 (Hb & Hv & Hr). split_and!; [| |done].
  - intros b Hne. rewrite Hb by done. unfold w1. simpl. by rewrite lookup_insert_ne.
  - intros o0 Ho0. destruct (Hv _ Ho1) as (o' & Ho' & Hk). exists o'. split; [done|].
    intros k' Hk'. rewrite not_elem_of_cons in Hk'. destruct Hk' as [Hne Hni].
    rewrite Hk by done. simplify_eq. by apply os_delete_frame.
Qed.

(** The keys deleting [rec] may touch. *)
Definition touched_keys (rec : BackupRecord) (k : string) : Prop :=
  has_prefix k (rec_KeyPrefix rec) = true \/ k ∈ da_Key <$> rec_Disks rec.

Definition same_elsewhere (rec : BackupRecord) (w w' : world P O) : Prop :=
  (forall b, b <> rec_BackendID rec -> bw_backends w' !! b = bw_backends w !! b) /\
  (forall o, bw_backends w !! rec_BackendID rec = Some o ->
     exists o', bw_backends w' !! rec_BackendID rec = Some o' /\
       forall k, ~ touched_keys rec k -> os_view o' !! k = os_view o !! k).

Lemma delete_one_wp rec rows (w : world P O) :
  bw_rec w = Some rows -> rec_ID rec ∈ rec_ID <$> rows ->
  wp (deleteBackupArtifactsAndRow rec)
     (fun e w' => e = None /\ bw_rec w' = Some (filter (fun r => rec_ID r <> rec_ID rec) rows) /\
                  same_elsewhere rec w w') w.
Proof.
  intros Hr Hin. unfold deleteBackupArtifactsAndRow. apply wp_bind, open_store_wp. apply wp_bind.
  eapply (wp_mono _ (fun _ w1 => bw_rec w1 = bw_rec w /\ same_elsewhere rec w w1)).
  - destruct (bw_backends w !! rec_BackendID rec) as [o|] eqn:Ho.
    2: { apply wp_ret. split; [done|]. split; [done|]. intros o' Ho'. congruence. }
    assert (forall keys, (forall k, k ∈ keys -> touched_keys rec k) ->
      wp (delete_keys (rec_BackendID rec) keys) (fun _ w1 => bw_rec w1 = bw_rec w /\ same_elsewhere rec w w1) w)
      as Hdel.
    { intros keys Hkeys. eapply wp_mono; [by eapply delete_keys_wp|].
      intros _ w1 (Hb & Hv & Hr1). split; [done|]. split; [done|].
      intros o0 Ho0. destruct (Hv _ Ho0) as (o1 & Ho1 & Hk). exists o1. split; [done|].
      intros k Hk'. apply Hk. intros Hkin. by apply Hk', Hkeys. }
    destruct (os_List (rec_KeyPrefix rec) o) as [keys|e] eqn:El; apply Hdel.
    + intros k Hk. left. by apply (os_list_ok _ _ _ k El).
    + intros k [Hk|Hk%list_elem_of_singleton]%elem_of_app; [by right|]. left. subst k.
      apply has_prefix_spec. by eexists.
  - intros _ w1 [Hr1 Hs]. apply wp_bind, wp_gets. rewrite Hr1, Hr.
    unfold DeleteVMBackup. rewrite bool_decide_true by done.
    apply wp_bind. unfold set_rec. apply wp_modify, wp_ret. done.
Qed.

Lemma filter_ids_app (rows : list BackupRecord) (a : string) (ids : list string) :
  filter (fun r => rec_ID r ∉ ids) (filter (fun r => rec_ID r <> a) rows) =
  filter (fun r => rec_ID r ∉ a :: ids) rows.
Proof.
  rewrite list_filter_filter. apply list_filter_iff. intros r. rewrite not_elem_of_cons. tauto.
Qed.

Lemma delete_all_wp recs rows (w : world P O) :
  bw_rec w = Some rows -> NoDup (rec_ID <$> recs) -> (forall r, r ∈ recs -> rec_ID r ∈ rec_ID <$> rows) ->
  wp (delete_all recs)
     (fun e w' => e = None /\ bw_rec w' = Some (filter (fun r => rec_ID r ∉ rec_ID <$> recs) rows)) w.
Proof.
  revert rows w. induction recs as [|r recs IH]; intros rows w Hr Hnd Hin; simpl.
  { apply wp_ret. split; [done|]. rewrite Hr. f_equal. symmetry. apply filter_all.
    apply Forall_forall. intros x _. by apply not_elem_of_nil. }
  rewrite fmap_cons, NoDup_cons in Hnd. destruct Hnd as [Hni Hnd].
  apply wp_bind. eapply wp_mono; [apply delete_one_wp; [done|apply Hin; by left]|].
  intros e w1 (-> & Hr1 & _). apply wp_bind. eapply wp_mono; [apply IH; [done|done|]|].
  - intros r' Hr'. specialize (Hin r' ltac:(by right)).
    apply list_elem_of_fmap in Hin as (x & Hx & Hxin). rewrite Hx.
    apply list_elem_of_fmap_2, list_elem_of_filter. split; [|done]. rewrite <- Hx. intros Heq.
    apply Hni. rewrite <- Heq. by apply list_elem_of_fmap_2.
  - intros e w2 [-> Hr2]. apply wp_ret. split; [done|]. by rewrite Hr2, filter_ids_app.
Qed.

(** ** Retention *)

Definition mine (policyID : string) (r : BackupRecord) : Prop :=
  rec_PolicyID r <> "" /\ rec_PolicyID r = policyID /\ rec_Status r = "completed".

#[export] Instance older_total : Total older.
Proof. intros a b. unfold older. lia. Qed.
#[export] Instance older_trans : Transitive older.
Proof. intros a b c. unfold older. lia. Qed.

Lemma policy_rows_perm pid rows : ListVMBackupsForPolicy pid rows ≡ₚ filter (mine pid) rows.
Proof. apply merge_sort_Permutation. Qed.

Lemma policy_rows_sorted pid rows : StronglySorted older (ListVMBackupsForPolicy pid rows).
Proof. apply StronglySorted_merge_sort; apply _. Qed.

Lemma sorted_split (l : list BackupRecord) n a b :
  StronglySorted older l -> a ∈ take n l -> b ∈ drop n l -> older a b.
Proof.
  revert n. induction l as [|x l IH]; intros n Hs Ha Hb; [by rewrite take_nil in Ha; apply elem_of_nil in Ha|].
  apply StronglySorted_inv in Hs as [Hs Hx]. destruct n as [|n]; [by apply elem_of_nil in Ha|]. simpl in *.
  apply elem_of_cons in Ha as [->|Ha]; [|by eapply IH].
  rewrite Forall_forall in Hx. apply Hx. by eapply subseteq_drop.
Qed.

(** C35 Retention: when pruning applies, it keeps exactly the newest
    [RetentionCount] completed backups of the policy (each kept one is at least as
    recent as each dropped one), removes the rows of the others, touches no row of
    another policy and no unfinished row, and reports no error; with a
    non-positive count it removes nothing. *)
Theorem backup_retention policyID keep rows (w : world P O) :
  bw_rec w = Some rows -> NoDup (rec_ID <$> rows) ->
  exists w' rows', pruneRetention policyID keep w = Some (None, w') /\ bw_rec w' = Some rows' /\
    (keep <= 0 -> rows' = rows) /\
    (0 < keep ->
       let before := ListVMBackupsForPolicy policyID rows in
       let dropped := take (length before - Z.to_nat keep) before in
       ListVMBackupsForPolicy policyID rows' ≡ₚ last_n (Z.to_nat keep) before /\
       (forall a b, a ∈ dropped -> b ∈ last_n (Z.to_nat keep) before -> older a b) /\
       filter (fun r => ~ mine policyID r) rows' = filter (fun r => ~ mine policyID r) rows).
Proof.
  clear clock conv newID tmp.
  intros Hr Hnd. set (before := ListVMBackupsForPolicy policyID rows).
  set (n := (length before - Z.to_nat keep)%nat).
  assert (NoDup (rec_ID <$> before)) as Hndb.
  { unfold before. rewrite policy_rows_perm. by apply NoDup_key_filter. }
  assert (forall r, r ∈ take n before -> r ∈ rows /\ mine policyID r) as Htake.
  { intros r Hin. apply subseteq_take in Hin. unfold before in Hin. rewrite policy_rows_perm in Hin.
    apply list_elem_of_filter in Hin. tauto. }
  set (rows' := filter (fun r => rec_ID r ∉ rec_ID <$> take n before) rows).
  assert (0 < keep -> exists w', pruneRetention policyID keep w = Some (None, w') /\ bw_rec w' = Some rows') as Hrun.
  { intros Hk. unfold pruneRetention. rewrite M_bind_gets, Hr. rewrite (proj2 (Z.leb_gt _ _)) by lia.
    fold before. destruct (Z.leb_spec (Z.of_nat (length before)) keep) as [Hle|Hgt].
    - exists w. split; [done|]. rewrite Hr. f_equal. unfold rows'. replace n with 0%nat by lia.
      symmetry. apply filter_all, Forall_forall. intros x _. apply not_elem_of_nil.
    - fold n. destruct (wp_inv _ _ _ (delete_all_wp (take n before) rows w Hr
        ltac:(by apply NoDup_key_take)
        ltac:(intros r Hin; apply list_elem_of_fmap_2; by apply Htake))) as (e & w' & Hd & -> & Hr').
      by exists w'. }
  destruct (decide (0 < keep)) as [Hk|Hk].
  - destruct (Hrun Hk) as (w' & Hp & Hr'). exists w', rows'. split; [done|]. split; [done|].
    split; [lia|]. intros _. cbv zeta. fold before n.
    assert (last_n (Z.to_nat keep) before = drop n before) as -> by done. split_and!.
    + rewrite policy_rows_perm. unfold rows'.
      rewrite list_filter_filter, (list_filter_iff _ (fun r => (rec_ID r ∉ rec_ID <$> take n before) /\ mine policyID r)) by tauto.
      rewrite <- (list_filter_filter _ (mine policyID)), <- policy_rows_perm. fold before.
      pose proof (filter_not_front rec_ID (take n before) (drop n before)) as Hf.
      rewrite take_drop in Hf. by rewrite Hf.
    + intros a b Ha Hb. by eapply sorted_split; [apply policy_rows_sorted| |].
    + unfold rows'. rewrite list_filter_filter. apply filter_ext_in. intros x Hx. split; [tauto|].
      intros Hm. split; [done|]. intros (r & Hid & Hin)%list_elem_of_fmap. apply Hm.
      destruct (Htake r Hin) as [Hrin Hmine].
      by rewrite (NoDup_key_inj rec_ID rows x r Hnd Hx Hrin Hid).
  - exists w, rows. split; [|split; [done|split; [done|lia]]].
    unfold pruneRetention. rewrite M_bind_gets, Hr. by rewrite (proj2 (Z.leb_le _ _)) by lia.
Qed.

(** Deleting a backup removes its row and no other, succeeds, and touches no
    object of another backend and, in its own, only objects under the backup's key
    prefix or in its list of disks: every other backup's artifacts survive. *)
Theorem backup_delete_scope id rows rec (w : world P O) :
  bw_rec w = Some rows -> GetVMBackup id rows = Ok rec ->
  exists w', DeleteBackup id w = Some (None, w') /\
    bw_rec w' = Some (filter (fun r => rec_ID r <> id) rows) /\ same_elsewhere rec w w'.
Proof.
  intros Hr Hg.
  assert (rec ∈ rows /\ rec_ID rec = id) as [Hin Hid].
  { unfold GetVMBackup in Hg. destruct (list_find _ rows) as [[i r]|] eqn:E; [|done].
    injection Hg as ->. apply list_find_Some in E as (Hl & Hid & _).
    split; [by eapply list_elem_of_lookup_2|done]. }
  destruct (wp_inv _ _ _ (delete_one_wp rec rows w Hr ltac:(by apply list_elem_of_fmap_2)))
    as (e & w' & Hd & -> & Hr' & Hs).
  exists w'. split; [|split; [by rewrite <- Hid|done]].
  unfold DeleteBackup. by rewrite M_bind_gets, Hr, Hg.
Qed.

(** Backups collide: two backups taken in the same second of VMs with the same
    id (of two hypervisors, or one VM twice) into the same backend share their
    keys, so after the second one the first backup's disks and manifest hold the
    second VM's image and metadata. *)
Theorem backup_same_second_collides req1 req2 (w w1 w2 : world P O) rec1 rec2 `{!HypervisorLaws P} :
  BackupNow clock conv newID tmp req1 w = Some ((Some rec1, None), w1) ->
  BackupNow clock conv newID tmp req2 w1 = Some ((Some rec2, None), w2) ->
  br_VMID req1 = br_VMID req2 -> br_BackendID req1 = br_BackendID req2 ->
  rec_CreatedAt rec1 = rec_CreatedAt rec2 ->
  exists data2 o, stored req2 rec2 data2 w1 w2 /\ bw_backends w2 !! rec_BackendID rec1 = Some o /\
    (forall d, d ∈ rec_Disks rec1 -> os_view o !! da_Key d = Some (Blob data2)) /\
    os_view o !! (rec_KeyPrefix rec1 +:+ manifestKey) = Some (Manifest (backup_manifest rec2)).
Proof.
  intros Hb1 Hb2 Hvm Hbe Hts.
  destruct (wlp_elim _ _ _ _ _ (backup_wlp req1 w) Hb1) as ((_ & _ & Hbid1 & _ & Hkp1 & n1 & Hd1) & _).
  destruct (wlp_elim _ _ _ _ _ (backup_wlp req2 w1) Hb2) as ((_ & _ & _ & _ & Hkp2 & _) & (data2 & src2 & _ & _ & Hst) & _).
  pose proof Hst as (o & o' & _ & Hb & Hv). exists data2, o'. split; [exact Hst|].
  assert (rec_KeyPrefix rec1 = rec_KeyPrefix rec2) as Hkp by (by rewrite Hkp1, Hkp2, Hvm, Hts).
  split; [by rewrite Hbid1, Hbe, Hb, lookup_insert_eq|]. rewrite Hd1, Hkp. split.
  - intros d Hd%list_elem_of_singleton. subst d. simpl.
    rewrite Hv, lookup_insert_ne by apply disk_manifest_keys. by rewrite lookup_insert_eq.
  - by rewrite Hv, lookup_insert_eq.
Qed.
End Facts.

(** ** The in-memory store obeys the contract *)

#[export] Instance memStore_laws : ObjectStoreLaws (gmap string body).
Proof.
  constructor; simpl.
  - by intros k b o n o' [= _ <-].
  - intros k b o k' Hne. by rewrite lookup_insert_ne.
  - intros k o b. by destruct (o !! k); intros [=->].
  - intros k o ->. by eexists.
  - intros p o l k [= <-]. rewrite elem_of_sort_strings, list_elem_of_filter. split.
    + intros [Hp ([k' b] & -> & Hin)%list_elem_of_fmap]. apply elem_of_map_to_list in Hin.
      split; [by eexists|done].
    + intros [[b Hb] Hp]. split; [done|]. apply list_elem_of_fmap. exists (k, b).
      split; [done|]. by apply elem_of_map_to_list.
  - by intros k o o' [= <-].
  - intros k o k' Hne. by rewrite lookup_delete_ne.
Qed.

(** ** Concrete runs *)

Definition bk_world : world sim (gmap string body) :=
  mkWorld (mkEnv {[ "src" := New "src" []; "dst" := set_seq 3 (New "dst" []) ]} 0)
    {[ "s3" := ∅ ]} (Some []) ∅ ∅ false 0.
Definition bk_now (n : nat) : time := (unix_epoch + 1000) * Second + Z.of_nat n.
Definition bk_id (n : nat) : string := "bkp-" +:+ itoa (Z.of_nat n).
Definition bk_tmp : tmp_os := mkTmp None None None None.
Abbreviation bk_run req w := (BackupNow bk_now Passthrough_Convert bk_id bk_tmp req w) (only parsing).
Definition bk_req (provider : string) : BackupRequest := mkBackupRequest provider "vm-1" "s3" "pol".

(** Did a run succeed?  (Evaluated instead of the run's whole final state.) *)
Definition bk_completes {A W} (r : option ((option A * option string) * W)) : bool :=
  match r with Some ((Some _, None), _) => true | _ => false end.

Lemma bk_completes_inv {A W} (r : option ((option A * option string) * W)) :
  bk_completes r = true -> exists a w, r = Some ((Some a, None), w).
Proof. destruct r as [[[[a|] [e|]] w]|]; try done. by exists a, w. Qed.

(** What a run's record says of its backup. *)
Definition bk_summary {W} (r : option ((option BackupRecord * option string) * W)) :=
  '((rec, _), _) ← r; rec ← rec; Some (rec_CreatedAt rec, rec_ProviderID rec, rec_BackendID rec).

Lemma backup_restore_roundtrip_witness :
  exists rec w1 data res w2, bk_run (bk_req "src") bk_world = Some ((Some rec, None), w1) /\
    taken_from Passthrough_Convert (bk_req "src") rec data (New "src" []) /\
    Restore bk_now Passthrough_Convert bk_tmp (mkRestoreRequest (rec_ID rec) "dst" "" "copy" false) w1
      = Some (res, w2) /\
    res = Ok "vm-4".
Proof.
  destruct (bk_completes_inv (bk_run (bk_req "src") bk_world)) as (rec & w1 & E); [by vm_compute|].
  destruct (backup_restore_roundtrip bk_now Passthrough_Convert bk_id bk_tmp (bk_req "src") bk_world w1 []
              rec (mkRestoreRequest (rec_ID rec) "dst" "" "copy" false) (set_seq 3 (New "dst" [])) E)
    as (_ & _ & data & src & Hsrc & Ht & _ & Hd).
  - reflexivity.
  - reflexivity.
  - transitivity ('(_, w) ← bk_run (bk_req "src") bk_world; env_reg (bw_env w) !! "dst");
      [by rewrite E|by vm_compute].
  - by vm_compute.
  - intros o k b _. simpl. by intros ->.
  - reflexivity.
  - reflexivity.
  - destruct (Hd data eq_refl) as (res & w2 & Hr & _ & _ & Hm).
    assert (src = New "src" []) as -> by (vm_compute in Hsrc |- *; by injection Hsrc).
    exists rec, w1, data, res, w2. split; [exact E|]. split; [exact Ht|]. split; [exact Hr|].
    exact Hm.
Defined.

Definition bk_row (i ts : Z) : BackupRecord :=
  mkRecord ("b" +:+ itoa i) "vm-1" "" "src" "s3" "pol" ("vm/vm-1/" +:+ itoa ts +:+ "/") 0 0 [] "" ""
    "completed" "" ts.
Definition bk_pruned : world sim (gmap string body) :=
  mkWorld (mkEnv ∅ 0) {[ "s3" := ∅ ]} (Some [bk_row 1 10; bk_row 2 20; bk_row 3 30]) ∅ ∅ false 0.

Lemma backup_retention_witness :
  exists w', pruneRetention "pol" 2 bk_pruned = Some (None, w').
Proof.
  destruct (backup_retention "pol" 2 [bk_row 1 10; bk_row 2 20; bk_row 3 30] bk_pruned)
    as (w' & rows' & H & _).
  - reflexivity.
  - apply (bool_decide_unpack _). by vm_compute.
  - by exists w'.
Defined.

Lemma backup_delete_scope_witness :
  exists w', DeleteBackup "b2" bk_pruned = Some (None, w').
Proof.
  destruct (backup_delete_scope "b2" [bk_row 1 10; bk_row 2 20; bk_row 3 30] (bk_row 2 20) bk_pruned)
    as (w' & H & _); [reflexivity|by vm_compute|by exists w'].
Defined.

(** vm-1 of two hypervisors, backed up in the same second. *)
Lemma backup_same_second_collides_witness :
  exists rec1 rec2 w1 w2 data2 o,
    bk_run (bk_req "src") bk_world = Some ((Some rec1, None), w1) /\
    bk_run (bk_req "dst") w1 = Some ((Some rec2, None), w2) /\
    rec_ProviderID rec1 <> rec_ProviderID rec2 /\
    bw_backends w2 !! "s3" = Some o /\
    forall d, d ∈ rec_Disks rec1 -> os_view o !! da_Key d = Some (Blob data2).
Proof.
  destruct (bk_completes_inv (bk_run (bk_req "src") bk_world)) as (rec1 & w1 & E1); [by vm_compute|].
  assert (('(_, w) ← bk_run (bk_req "src") bk_world; bk_run (bk_req "dst") w) = bk_run (bk_req "dst") w1)
    as E by (by rewrite E1).
  destruct (bk_completes_inv (bk_run (bk_req "dst") w1)) as (rec2 & w2 & E2);
    [by rewrite <-E; vm_compute|].
  assert (bk_summary (bk_run (bk_req "src") bk_world) = Some (1000, "src", "s3")) as S1 by by vm_compute.
  assert (bk_summary (bk_run (bk_req "dst") w1) = Some (1000, "dst", "s3")) as S2
    by (by rewrite <-E; vm_compute).
  rewrite E1 in S1. rewrite E2 in S2. simpl in S1, S2.
  injection S1 as H1 Hp1 Hb1. injection S2 as H2 Hp2 _.
  destruct (backup_same_second_collides bk_now Passthrough_Convert bk_id bk_tmp (bk_req "src") (bk_req "dst")
              bk_world w1 w2 rec1 rec2 E1 E2 eq_refl eq_refl) as (data2 & o & _ & Ho & Hd & _); [congruence|].
  exists rec1, rec2, w1, w2, data2, o. split; [exact E1|]. split; [exact E2|].
  split; [congruence|]. split; [by rewrite <-Hb1|exact Hd].
Defined.
