(* ===== verification/Alarms.v ===== *)
(** * The alarm engine

    server/internal/alarms/alarms.go: threshold rules evaluated on a ticker, the
    per-(definition, object) state machine of [Evaluate], the readings collected
    from the inventory, the notifications a tick fires, and the active list. *)
From S2P Require Import Prelude GoStd VProvider.

(** ** Data *)

Definition SeverityInfo := "info".
Definition SeverityWarning := "warning".
Definition SeverityCritical := "critical".
Definition Severity_Valid (s : string) : bool :=
  bool_decide (s ∈ [SeverityInfo; SeverityWarning; SeverityCritical]).

Definition TargetVM := "vm".
Definition TargetHost := "host".
Definition TargetDatastore := "datastore".
Definition TargetType_Valid (t : string) : bool :=
  bool_decide (t ∈ [TargetVM; TargetHost; TargetDatastore]).

Definition MetricCPU := "cpu".
Definition MetricMemory := "memory".
Definition MetricDisk := "disk".
Definition MetricStoragePct := "storage_pct".
Definition MetricState := "state".
Definition Metric_Valid (m : string) : bool :=
  bool_decide (m ∈ [MetricCPU; MetricMemory; MetricDisk; MetricStoragePct; MetricState]).

Definition CmpGT := "gt".
Definition CmpLT := "lt".
Definition CmpEQ := "eq".
Definition Comparator_Valid (c : string) : bool := bool_decide (c ∈ [CmpGT; CmpLT; CmpEQ]).

Definition ChannelWebhook := "webhook".
Definition ChannelEmail := "email-stub".
Definition ChannelSMTP := "smtp".
Definition ChannelType_Valid (c : string) : bool :=
  bool_decide (c ∈ [ChannelWebhook; ChannelEmail; ChannelSMTP]).

Record AlarmDef := mkDef {
  def_ID : string; def_Name : string; def_Target : string; def_Metric : string;
  def_Comparator : string; def_Threshold : f64; def_StateValue : string; def_DurationSec : Z;
  def_Severity : string; def_Enabled : bool; def_NotifyChannelIDs : list string }.

Record Channel := mkChannel {
  ch_ID : string; ch_Name : string; ch_Type : string; ch_Config : string; ch_Secret : string }.

Record SMTPConfig := mkSMTP {
  smtp_Host : string; smtp_Port : Z; smtp_Username : string; smtp_From : string; smtp_To : string;
  smtp_UseTLS : bool; smtp_StartTLS : bool }.

Definition StateActive := "active".
Definition StateCleared := "cleared".

Record AlarmInst := mkInst {
  in_ID : string; in_DefinitionID : string; in_DefinitionName : string; in_ObjectID : string;
  in_ObjectName : string; in_ObjectType : string; in_Severity : string; in_Metric : string;
  in_State : string; in_Value : f64; in_StateRaw : string; in_RaisedAt : time;
  in_ClearedAt : time; in_LastNotifiedAt : time; in_breachSince : time }.

Record NotifyEvent := mkEvent {
  ev_Event : string; ev_AlarmID : string; ev_Definition : string; ev_Severity : string;
  ev_ObjectID : string; ev_ObjectName : string; ev_ObjectType : string; ev_Metric : string;
  ev_Value : f64; ev_StateRaw : string; ev_Message : string; ev_Timestamp : time }.

Record reading := mkReading {
  rd_objectID : string; rd_objectName : string; rd_objectType : string; rd_value : f64;
  rd_stateRaw : string; rd_hasData : bool }.

(** ** Configuration of an smtp channel *)

(** [ParseSMTPConfig]; [decode] is [json.Unmarshal]. *)
Definition ParseSMTPConfig (decode : string -> result string SMTPConfig) (raw : string)
  : result string SMTPConfig :=
  let raw := trim_space raw in
  if bool_decide (raw = "") then Err "smtp channel config is empty"
  else match decode raw with
  | Err e => Err ("smtp channel config is not valid JSON: " +:+ e)
  | Ok c =>
      if bool_decide (trim_space (smtp_Host c) = "") then Err "smtp host is required"
      else if bool_decide (trim_space (smtp_From c) = "") then Err "smtp from address is required"
      else if bool_decide (trim_space (smtp_To c) = "") then Err "smtp to address is required"
      else Ok (mkSMTP (smtp_Host c) (if smtp_Port c <=? 0 then 587 else smtp_Port c)
                 (smtp_Username c) (smtp_From c) (smtp_To c) (smtp_UseTLS c) (smtp_StartTLS c))
  end.

Definition splitAddrs (s : string) : list string :=
  filter (fun t => t <> "") (trim_space <$> split_on "," s).

(** ** The evaluation core *)

(** [Definition.breaches]. *)
Definition breaches (d : AlarmDef) (r : reading) : bool :=
  if negb (rd_hasData r) then false
  else if bool_decide (def_Metric d = MetricState) then equal_fold (rd_stateRaw r) (def_StateValue d)
  else if bool_decide (def_Comparator d = CmpGT) then f64_lt (def_Threshold d) (rd_value r)
  else if bool_decide (def_Comparator d = CmpLT) then f64_lt (rd_value r) (def_Threshold d)
  else if bool_decide (def_Comparator d = CmpEQ) then f64_eq (rd_value r) (def_Threshold d)
  else false.

Definition alarm_key (d : AlarmDef) (r : reading) : string := def_ID d +:+ ":" +:+ rd_objectID r.

(** The [Instance] literal of a reading, with what is carried over from [cur]. *)
Definition new_inst (d : AlarmDef) (r : reading) (cur : option AlarmInst) : AlarmInst :=
  mkInst (alarm_key d r) (def_ID d) (def_Name d) (rd_objectID r) (rd_objectName r) (rd_objectType r)
    (def_Severity d) (def_Metric d) "" (rd_value r) (rd_stateRaw r)
    (match cur with Some c => in_RaisedAt c | None => 0 end) 0
    (match cur with Some c => in_LastNotifiedAt c | None => 0 end)
    (match cur with Some c => in_breachSince c | None => 0 end).

Definition inst_set (state : string) (raised cleared notified since : time) (i : AlarmInst) : AlarmInst :=
  mkInst (in_ID i) (in_DefinitionID i) (in_DefinitionName i) (in_ObjectID i) (in_ObjectName i)
    (in_ObjectType i) (in_Severity i) (in_Metric i) state (in_Value i) (in_StateRaw i) raised cleared
    notified since.

Definition duration_of (d : AlarmDef) : duration := dur_of (def_DurationSec d) Second.

(** One iteration of the inner loop, on the maps and slices built so far. *)
Definition visit (prior : gmap string AlarmInst) (now : time)
    (acc : gmap string AlarmInst * list AlarmInst * list AlarmInst) (dr : AlarmDef * reading)
  : gmap string AlarmInst * list AlarmInst * list AlarmInst :=
  let '(next, raised, cleared) := acc in
  let '(d, r) := dr in
  let key := alarm_key d r in
  let cur := prior !! key in
  let breaching := breaches d r in
  let inst := new_inst d r cur in
  let cur_state (s : string) := match cur with Some c => bool_decide (in_State c = s) | None => false end in
  if breaching && (negb (bool_decide (is_Some cur)) || cur_state StateCleared) then
    let since := if is_zero_time (in_breachSince inst) then now else in_breachSince inst in
    if duration_of d <=? time_sub now since then
      let i := inst_set StateActive now (in_ClearedAt inst) now since inst in
      (<[key := i]> next, raised ++ [i], cleared)
    else
      let i := inst_set StateCleared (in_RaisedAt inst) (in_ClearedAt inst) (in_LastNotifiedAt inst)
                 since inst in
      (<[key := i]> next, raised, cleared)
  else if breaching && cur_state StateActive then
    let i := inst_set StateActive (in_RaisedAt inst) (in_ClearedAt inst) (in_LastNotifiedAt inst)
               (in_breachSince inst) inst in
    (<[key := i]> next, raised, cleared)
  else if negb breaching && cur_state StateActive then
    let i := inst_set StateCleared (in_RaisedAt inst) now now 0 inst in
    (next, raised, cleared ++ [i])
  else (next, raised, cleared).

(** The (definition, reading) pairs in the order the loops take them. *)
Definition pairs_of (defs : list AlarmDef) (readings : gmap string (list reading))
  : list (AlarmDef * reading) :=
  d ← filter (fun d => def_Enabled d = true) defs;
  (fun r => (d, r)) <$> default [] (readings !! def_ID d).

Definition Evaluate (defs : list AlarmDef) (readings : gmap string (list reading))
    (prior : gmap string AlarmInst) (now : time)
  : gmap string AlarmInst * list AlarmInst * list AlarmInst :=
  foldl (visit prior now) (∅, [], []) (pairs_of defs readings).

(** ** Readings *)

Definition metricValue (m : string) (s : MetricSample) : f64 :=
  if bool_decide (m = MetricCPU) then ms_CPUPercent s
  else if bool_decide (m = MetricMemory) then
    if 0 <? ms_MemLimitBytes s
    then f64_mul (f64_div (f64_of_Z (ms_MemUsageBytes s)) (f64_of_Z (ms_MemLimitBytes s))) (f64_of_Z 100)
    else f64_zero
  else if bool_decide (m = MetricDisk)
       then f64_of_Z ((ms_DiskReadBytes s + ms_DiskWriteBytes s) mod 2 ^ 64)
  else f64_zero.

(** [MetricsSource.LatestSample]; a nil source is [None]. *)
Definition metrics_source : Type := option (string -> string -> option MetricSample).

Definition sampled (src : metrics_source) (d : AlarmDef) (providerID entityID : string) (r : reading)
  : reading :=
  match src with
  | None => r
  | Some f =>
      match f providerID entityID with
      | None => r
      | Some s => mkReading (rd_objectID r) (rd_objectName r) (rd_objectType r)
                    (metricValue (def_Metric d) s) (rd_stateRaw r) true
      end
  end.

Definition vmReading (src : metrics_source) (d : AlarmDef) (vm : VM) : reading :=
  if bool_decide (def_Metric d = MetricState)
  then mkReading (vm_ID vm) (vm_Name vm) TargetVM f64_zero (vm_State vm) true
  else sampled src d (vm_ProviderID vm) (vm_ID vm)
         (mkReading (vm_ID vm) (vm_Name vm) TargetVM f64_zero "" false).

Definition hostReading (src : metrics_source) (d : AlarmDef) (h : Host) : reading :=
  if bool_decide (def_Metric d = MetricState)
  then mkReading (host_ID h) (host_Name h) TargetHost f64_zero (host_State h) true
  else if bool_decide (def_Metric d = MetricMemory) && (0 <? host_MemoryMB h)
  then mkReading (host_ID h) (host_Name h) TargetHost
         (f64_mul (f64_div (f64_of_Z (host_MemUsedMB h)) (f64_of_Z (host_MemoryMB h))) (f64_of_Z 100))
         "" true
  else sampled src d (host_ProviderID h) (host_ID h)
         (mkReading (host_ID h) (host_Name h) TargetHost f64_zero "" false).

Definition dsReading (d : AlarmDef) (sp : StoragePool) : reading :=
  if bool_decide (def_Metric d = MetricStoragePct) && f64_lt f64_zero (sp_CapacityGB sp) then
    let used := f64_sub (sp_CapacityGB sp) (sp_FreeGB sp) in
    let used := if f64_lt used f64_zero then f64_zero else used in
    mkReading (sp_ID sp) (sp_Name sp) TargetDatastore
      (f64_mul (f64_div used (sp_CapacityGB sp)) (f64_of_Z 100)) "" true
  else mkReading (sp_ID sp) (sp_Name sp) TargetDatastore f64_zero "" false.

(** The part of [inventory.Unified] the engine reads. *)
Record Unified := mkUnified {
  u_VMs : list VM; u_Hosts : list Host; u_Storage : list StoragePool }.

Definition target_readings (src : metrics_source) (u : Unified) (d : AlarmDef) : list reading :=
  if bool_decide (def_Target d = TargetVM) then vmReading src d <$> u_VMs u
  else if bool_decide (def_Target d = TargetHost) then hostReading src d <$> u_Hosts u
  else if bool_decide (def_Target d = TargetDatastore) then dsReading d <$> u_Storage u
  else [].

Definition collect (src : metrics_source) (defs : list AlarmDef) (u : Unified)
  : gmap string (list reading) :=
  foldl (fun out d =>
           if def_Enabled d then
             match target_readings src u d with
             | [] => out
             | rs => <[def_ID d := default [] (out !! def_ID d) ++ rs]> out
             end
           else out) ∅ defs.

(** ** The engine *)

(** The live instances, what was last persisted, and the notifications sent. *)
Record engine := mkEngine {
  eng_instances : gmap string AlarmInst;
  eng_saved : list AlarmInst;
  eng_sent : list (Channel * NotifyEvent) }.

Definition New_engine : engine := mkEngine ∅ [] [].

(** The store: definitions (or the listing's error) and channels. *)
Record state_store := mkStore {
  ss_Definitions : result string (list AlarmDef);
  ss_Channels : gmap string Channel }.

Definition activeOnly (l : list AlarmInst) : list AlarmInst :=
  filter (fun x => in_State x = StateActive) l.

(** [Resume]: the persisted instances. *)
Definition Resume (loaded : result string (list AlarmInst)) (e : engine) : engine :=
  match loaded with
  | Err _ => e
  | Ok insts =>
      mkEngine (foldl (fun m i => <[in_ID i := i]> m) (eng_instances e) insts) (eng_saved e) (eng_sent e)
  end.

(** [strings.ToUpper] on ASCII: severities are ASCII words. *)
Definition upper_byte (c : ascii) : ascii :=
  let n := N_of_ascii c in
  if ((97 <=? n) && (n <=? 122))%N then ascii_of_N (n - 32) else c.

Definition buildMessage (i : AlarmInst) (event : string) : string :=
  let verb := if bool_decide (event = "cleared") then "CLEARED" else "RAISED" in
  "[" +:+ string_map upper_byte (in_Severity i) +:+ "] alarm " +:+ verb +:+ ": "
  +:+ in_DefinitionName i +:+ " on " +:+ in_ObjectType i +:+ " " +:+ in_ObjectName i
  +:+ (if bool_decide (in_Metric i = MetricState) then " (state=" +:+ in_StateRaw i +:+ ")" else "").

(** [fire]: the events it hands to the notifier, in order. *)
Definition fire (st : state_store) (i : AlarmInst) (event : string) (now : time)
  : list (Channel * NotifyEvent) :=
  let ev := mkEvent event (in_ID i) (in_DefinitionName i) (in_Severity i) (in_ObjectID i)
              (in_ObjectName i) (in_ObjectType i) (in_Metric i) (in_Value i) (in_StateRaw i)
              (buildMessage i event) now in
  let defs := match ss_Definitions st with Ok defs => defs | Err _ => [] end in
  let chIDs := match list_find (fun d => def_ID d = in_DefinitionID i) defs with
               | Some (_, d) => def_NotifyChannelIDs d
               | None => [] end in
  (fun ch => (ch, ev)) <$> omap (fun id => ss_Channels st !! id) chIDs.

(** [Tick]; [fired] is the clock reading each notification carries. *)
Definition Tick (st : state_store) (src : metrics_source) (u : Unified) (now fired : time) (e : engine)
  : engine :=
  match ss_Definitions st with
  | Err _ => e
  | Ok defs =>
      let '(next, raised, cleared) := Evaluate defs (collect src defs u) (eng_instances e) now in
      mkEngine next (activeOnly (map_to_list next).*2)
        (eng_sent e ++ (i ← raised; fire st i "raised" fired) ++ (i ← cleared; fire st i "cleared" fired))
  end.

(** ** The active list *)

Definition sevRank (s : string) : Z :=
  if bool_decide (s = SeverityCritical) then 0 else if bool_decide (s = SeverityWarning) then 1 else 2.

(** The order of [Active]: severity, then object name, then id. *)
Definition inst_le (a b : AlarmInst) : Prop :=
  sevRank (in_Severity a) < sevRank (in_Severity b) \/
  (sevRank (in_Severity a) = sevRank (in_Severity b) /\
   ((in_ObjectName a <> in_ObjectName b /\ str_le (in_ObjectName a) (in_ObjectName b)) \/
    (in_ObjectName a = in_ObjectName b /\ str_le (in_ID a) (in_ID b)))).
#[export] Instance inst_le_dec a b : Decision (inst_le a b).
Proof. unfold inst_le. apply _. Defined.

Definition Active (e : engine) : list AlarmInst :=
  merge_sort inst_le (activeOnly (map_to_list (eng_instances e)).*2).

(** ** Messages *)

(** [BuildEmailMessage]; [date], [value] and [stamp] are the rendered [now]
    (RFC 1123), [ev.Value] ([%.2f]) and [ev.Timestamp] (RFC 3339). *)
Definition crlf : string := bytes [13%N; 10%N].
Definition BuildEmailMessage (from to subject : string) (ev : NotifyEvent) (date value stamp : string)
  : string :=
  "From: " +:+ from +:+ crlf +:+ "To: " +:+ to +:+ crlf +:+ "Subject: " +:+ subject +:+ crlf
  +:+ "Date: " +:+ date +:+ crlf +:+ "MIME-Version: 1.0" +:+ crlf
  +:+ "Content-Type: text/plain; charset=utf-8" +:+ crlf +:+ crlf
  +:+ ev_Message ev +:+ crlf +:+ crlf
  +:+ "Event: " +:+ ev_Event ev +:+ crlf
  +:+ (if bool_decide (ev_AlarmID ev = "") then "" else "Alarm ID: " +:+ ev_AlarmID ev +:+ crlf)
  +:+ "Definition: " +:+ ev_Definition ev +:+ crlf
  +:+ "Object: " +:+ ev_ObjectType ev +:+ " " +:+ ev_ObjectName ev +:+ crlf
  +:+ "Severity: " +:+ ev_Severity ev +:+ crlf
  +:+ (if bool_decide (ev_Metric ev = "") then ""
       else "Metric: " +:+ ev_Metric ev +:+ crlf +:+ "Value: " +:+ value +:+ crlf)
  +:+ (if bool_decide (ev_StateRaw ev = "") then "" else "State: " +:+ ev_StateRaw ev +:+ crlf)
  +:+ "Timestamp: " +:+ stamp +:+ crlf.

(** [sendSMTP] up to the connection: what is sent and how, or the error. *)
Inductive smtp_mode : Type := ImplicitTLS | StartTLSUpgrade | PlainSMTP.

Definition sendSMTP (decode : string -> result string SMTPConfig) (ch : Channel) (ev : NotifyEvent)
    (date value stamp : string)
  : result string (smtp_mode * string * option (string * string) * string * list string * string) :=
  match ParseSMTPConfig decode (ch_Config ch) with
  | Err e => Err ("smtp channel " +:+ quote (ch_Name ch) +:+ ": " +:+ e)
  | Ok cfg =>
      let recipients := splitAddrs (smtp_To cfg) in
      if bool_decide (recipients = [])
      then Err ("smtp channel " +:+ quote (ch_Name ch) +:+ ": no recipients")
      else
        let subject := if bool_decide (ev_Event ev = "test") then "UniHV alarms test: " +:+ ch_Name ch
                       else "UniHV alarm: " +:+ ev_Definition ev in
        let msg := BuildEmailMessage (smtp_From cfg) (smtp_To cfg) subject ev date value stamp in
        let addr := smtp_Host cfg +:+ ":" +:+ itoa (smtp_Port cfg) in
        let auth := if bool_decide (smtp_Username cfg = "") || bool_decide (ch_Secret ch = "")
                    then None else Some (smtp_Username cfg, ch_Secret ch) in
        let mode := if smtp_UseTLS cfg then ImplicitTLS
                    else if smtp_StartTLS cfg then StartTLSUpgrade else PlainSMTP in
        Ok (mode, addr, auth, smtp_From cfg, recipients, msg)
  end.
