(* ===== verification/AlarmsProps.v ===== *)
(** * What the alarm engine guarantees

    [Evaluate] refines a small state machine per (definition, object) pair, the
    one drawn in the package comment; the notifications a pair receives account for
    its state; a breach becomes an alarm exactly when it has lasted the duration;
    and two objects that share an id break this, since they share a key. *)
From S2P Require Import Prelude GoStd VProvider Alarms.

(** ** The abstract machine *)

Inductive phase : Type :=
| Healthy
| Pending (since : time)
| Firing.

Inductive event : Type := Raised | Cleared.
#[export] Instance event_eq_dec : EqDecision event.
Proof. solve_decision. Defined.

Definition machine (dur : duration) (now : time) (breaching : bool) (s : phase) : phase * option event :=
  match s, breaching with
  | Firing, true => (Firing, None)
  | Firing, false => (Healthy, Some Cleared)
  | Healthy, true => if dur <=? 0 then (Firing, Some Raised) else (Pending now, None)
  | Pending t, true => if dur <=? time_sub now t then (Firing, Some Raised) else (Pending t, None)
  | _, false => (Healthy, None)
  end.

(** What an instance of the engine stands for. *)
Definition phase_of (o : option AlarmInst) : phase :=
  match o with
  | None => Healthy
  | Some i => if bool_decide (in_State i = StateActive) then Firing
              else if is_zero_time (in_breachSince i) then Healthy else Pending (in_breachSince i)
  end.

Definition inst_ok (m : gmap string AlarmInst) : Prop :=
  forall k i, m !! k = Some i -> in_ID i = k /\ (in_State i = StateActive \/ in_State i = StateCleared).

(** ** One iteration of the loop *)

Definition ids (l : list AlarmInst) : list string := in_ID <$> l.

(** The event an iteration records for its key. *)
Definition recorded (k : string) (raised cleared : list AlarmInst) : list event :=
  (if bool_decide (k ∈ ids raised) then [Raised] else [])
  ++ (if bool_decide (k ∈ ids cleared) then [Cleared] else []).

Lemma time_sub_self t : time_sub t t = 0.
Proof. rewrite time_sub_exact; unfold int64_range; lia. Qed.

(** What one iteration adds: the instance kept, and the event with its instance. *)
Definition visit_result (prior : gmap string AlarmInst) (now : time) (dr : AlarmDef * reading)
  : option AlarmInst * option (event * AlarmInst) :=
  let '(next, raised, cleared) := visit prior now (∅, [], []) dr in
  (next !! alarm_key dr.1 dr.2,
   match raised, cleared with
   | i :: _, _ => Some (Raised, i)
   | [], i :: _ => Some (Cleared, i)
   | [], [] => None
   end).

Definition raised_of (e : option (event * AlarmInst)) : list AlarmInst :=
  match e with Some (Raised, i) => [i] | _ => [] end.
Definition cleared_of (e : option (event * AlarmInst)) : list AlarmInst :=
  match e with Some (Cleared, i) => [i] | _ => [] end.

Lemma visit_eq prior now next raised cleared dr :
  visit prior now (next, raised, cleared) dr =
    let '(o, e) := visit_result prior now dr in
    (match o with Some i => <[alarm_key dr.1 dr.2 := i]> next | None => next end,
     raised ++ raised_of e, cleared ++ cleared_of e).
Proof.
  destruct dr as [d r]. unfold visit_result, visit. cbv zeta. cbn [fst snd].
  repeat case_match; simplify_eq; rewrite ?lookup_insert_eq in *; simplify_eq/=; by rewrite ?app_nil_r.
Qed.

(** Normalize the closed tests of the states. *)
Ltac states :=
  repeat match goal with
  | |- context [bool_decide (StateActive = StateCleared)] =>
      replace (bool_decide (StateActive = StateCleared)) with false by done
  | |- context [bool_decide (StateCleared = StateActive)] =>
      replace (bool_decide (StateCleared = StateActive)) with false by done
  | |- context [bool_decide (StateActive = StateActive)] =>
      replace (bool_decide (StateActive = StateActive)) with true by done
  | |- context [bool_decide (StateCleared = StateCleared)] =>
      replace (bool_decide (StateCleared = StateCleared)) with true by done
  | |- context [bool_decide (is_Some (Some ?c))] =>
      replace (bool_decide (is_Some (Some c))) with true by (symmetry; apply bool_decide_eq_true; by eexists)
  | |- context [bool_decide (is_Some (@None ?A))] =>
      replace (bool_decide (is_Some (@None A))) with false
        by (symmetry; apply bool_decide_eq_false; by intros [? ?])
  end.

Ltac finish_visit :=
  cbn; rewrite ?lookup_insert_eq, ?lookup_empty; cbn; states; cbn; split_and!; try done;
  try (intros; simplify_eq; cbn; auto; done).

Lemma is_zero_time_false t : t <> 0 -> is_zero_time t = false.
Proof. apply Z.eqb_neq. Qed.

Lemma visit_result_spec prior now d r :
  inst_ok prior -> now <> 0 ->
  let k := alarm_key d r in
  let '(o, e) := visit_result prior now (d, r) in
  let '(s, ev) := machine (duration_of d) now (breaches d r) (phase_of (prior !! k)) in
  phase_of o = s /\ fst <$> e = ev /\
  (forall i, o = Some i -> in_ID i = k /\ (in_State i = StateActive \/ in_State i = StateCleared)) /\
  (forall ev' i, e = Some (ev', i) -> in_ID i = k).
Proof.
  intros Hok Hnow k. pose proof (is_zero_time_false now Hnow) as Hz.
  unfold visit_result, visit, new_inst, inst_set. cbn [fst snd]. fold k.
  generalize (duration_of d). intros dur.
  destruct (prior !! k) as [c|] eqn:Hc; unfold phase_of.
  - destruct (Hok _ _ Hc) as [_ Hs]. destruct Hs as [Hs|Hs]; rewrite Hs; states;
      destruct (breaches d r); cbn [andb orb negb in_breachSince].
    + finish_visit.
    + finish_visit.
    + destruct (is_zero_time (in_breachSince c)) eqn:Hb.
      * cbn [machine]. rewrite time_sub_self. destruct (dur <=? 0); finish_visit. by rewrite Hz.
      * cbn [machine]. destruct (dur <=? time_sub now (in_breachSince c)); finish_visit. by rewrite Hb.
    + destruct (is_zero_time (in_breachSince c)); finish_visit.
  - states. destruct (breaches d r); cbn [andb orb negb in_breachSince machine].
    + change (is_zero_time 0) with true. cbv iota. rewrite time_sub_self.
      destruct (dur <=? 0); finish_visit. by rewrite Hz.
    + finish_visit.
Qed.

(** ** The whole loop *)

Definition key_of (dr : AlarmDef * reading) : string := alarm_key dr.1 dr.2.

Lemma ids_event k (e : option (event * AlarmInst)) :
  (forall ev i, e = Some (ev, i) -> in_ID i = k) ->
  recorded k (raised_of e) (cleared_of e) = option_list (fst <$> e) /\
  (forall k', k' <> k -> (k' ∉ ids (raised_of e)) /\ (k' ∉ ids (cleared_of e))).
Proof.
  intros He. unfold recorded, ids.
  destruct e as [[[] i]|]; cbn; try rewrite (He _ _ eq_refl);
    rewrite ?(bool_decide_true (k ∈ [k])) by (by left);
    rewrite ?(bool_decide_false (k ∈ [])) by (by intros ?%elem_of_nil);
    (split; [done|]); intros k' Hne; split; rewrite ?list_elem_of_singleton; try done;
    by apply not_elem_of_nil.
Qed.

Section Loop.
Context (prior : gmap string AlarmInst) (now : time).
Context (Hprior : inst_ok prior) (Hnow : now <> 0).

Lemma visit_event_ids dr : forall ev i, (visit_result prior now dr).2 = Some (ev, i) -> in_ID i = key_of dr.
Proof.
  destruct dr as [d r]. intros ev i He. pose proof (visit_result_spec prior now d r Hprior Hnow) as Hs.
  cbv zeta in Hs. destruct (visit_result prior now (d, r)) as [o e]. simpl in He.
  destruct (machine _ _ _ _) as [s e']. destruct Hs as (_ & _ & _ & Hid). by eapply Hid.
Qed.

Definition outcome_of (acc : gmap string AlarmInst * list AlarmInst * list AlarmInst) (k : string)
  : option AlarmInst * bool * bool :=
  (acc.1.1 !! k, bool_decide (k ∈ ids acc.1.2), bool_decide (k ∈ ids acc.2)).

Lemma bool_decide_app (k : string) l1 l2 :
  bool_decide (k ∈ l1 ++ l2) = bool_decide (k ∈ l1) || bool_decide (k ∈ l2).
Proof.
  apply eq_true_iff_eq. rewrite orb_true_iff, !bool_decide_eq_true. apply elem_of_app.
Qed.

(** Another object's iteration does not touch key [k]. *)
Lemma visit_other acc dr k :
  k <> key_of dr -> outcome_of (visit prior now acc dr) k = outcome_of acc k.
Proof.
  intros Hne. destruct acc as [[next raised] cleared]. rewrite visit_eq.
  pose proof (ids_event (key_of dr) _ (visit_event_ids dr)) as [_ Hother].
  destruct (visit_result prior now dr) as [o e]. simpl in Hother. destruct (Hother k Hne) as [Hr Hc].
  unfold outcome_of. cbn [fst snd]. unfold ids. rewrite !fmap_app, !bool_decide_app.
  rewrite (bool_decide_false _ Hr), (bool_decide_false _ Hc), !orb_false_r.
  destruct o; [|done]. by rewrite lookup_insert_ne by (intros E; by apply Hne; rewrite <- E).
Qed.

Lemma visits_other l acc k :
  (k ∉ key_of <$> l) -> outcome_of (foldl (visit prior now) acc l) k = outcome_of acc k.
Proof.
  revert acc. induction l as [|dr l IH]; intros acc Hk; [done|]. rewrite fmap_cons, not_elem_of_cons in Hk.
  destruct Hk as [Hne Hk]. simpl. rewrite IH by done. by apply visit_other.
Qed.

(** An object's own iteration, on accumulators that have not met its key. *)
Lemma visit_own acc d r :
  outcome_of acc (alarm_key d r) = (None, false, false) ->
  let '(s, ev) := machine (duration_of d) now (breaches d r) (phase_of (prior !! alarm_key d r)) in
  let o := outcome_of (visit prior now acc (d, r)) (alarm_key d r) in
  phase_of o.1.1 = s /\ o.1.2 = bool_decide (ev = Some Raised) /\ o.2 = bool_decide (ev = Some Cleared) /\
  (forall i, o.1.1 = Some i -> in_ID i = alarm_key d r /\ (in_State i = StateActive \/ in_State i = StateCleared)).
Proof.
  intros Hacc. destruct acc as [[next raised] cleared]. rewrite visit_eq.
  pose proof (visit_result_spec prior now d r Hprior Hnow) as Hs. cbv zeta in Hs.
  destruct (visit_result prior now (d, r)) as [o e].
  destruct (machine _ _ _ _) as [s ev]. destruct Hs as (Hph & Hev & Hok & Hid).
  unfold outcome_of in *. cbn [fst snd] in *. injection Hacc as Hn Hr Hc.
  unfold ids in *. rewrite !fmap_app, !bool_decide_app, Hr, Hc. cbn [orb].
  destruct (ids_event (alarm_key d r) e Hid) as [Hrec _]. unfold recorded, ids in Hrec.
  assert (match o with Some i => <[alarm_key d r := i]> next | None => next end !! alarm_key d r = o) as Hl
    by (destruct o; [apply lookup_insert_eq|done]).
  rewrite Hl. split; [done|]. rewrite <- Hev. clear - Hrec Hok.
  destruct e as [[[] i]|]; cbn [option_list fst fmap option_fmap option_map] in *;
    repeat case_bool_decide; by simplify_eq.
Qed.
End Loop.

Lemma evaluate_spec defs readings prior now d r :
  inst_ok prior -> now <> 0 -> NoDup (key_of <$> pairs_of defs readings) -> (d, r) ∈ pairs_of defs readings ->
  let '(next, raised, cleared) := Evaluate defs readings prior now in
  let '(s, ev) := machine (duration_of d) now (breaches d r) (phase_of (prior !! alarm_key d r)) in
  phase_of (next !! alarm_key d r) = s /\
  (alarm_key d r ∈ ids raised <-> ev = Some Raised) /\ (alarm_key d r ∈ ids cleared <-> ev = Some Cleared).
Proof.
  intros Hok Hnow Hnd Hin. unfold Evaluate.
  apply list_elem_of_split in Hin as (l1 & l2 & Hl). rewrite Hl in Hnd |- *.
  rewrite fmap_app, fmap_cons in Hnd. apply NoDup_app in Hnd as (_ & Hd & Hnd).
  apply NoDup_cons in Hnd as [Hn2 _]. rewrite foldl_app. cbn [foldl].
  set (acc := foldl (visit prior now) (∅, [], []) l1).
  assert (outcome_of acc (alarm_key d r) = (None, false, false)) as Hacc.
  { unfold acc. rewrite visits_other; [done|done|done|].
    intros Hk. apply (Hd _ Hk). by left. }
  pose proof (visit_own prior now Hok Hnow acc d r Hacc) as Hv.
  rewrite <- (visits_other prior now Hok Hnow l2) in Hv by exact Hn2.
  destruct (foldl (visit prior now) (visit prior now acc (d, r)) l2) as [[next raised] cleared].
  destruct (machine _ _ _ _) as [s ev]. unfold outcome_of in Hv. cbn [fst snd] in Hv.
  destruct Hv as (Hp & Hr & Hc & _). split; [done|].
  split; [rewrite <- (bool_decide_eq_true (_ ∈ ids raised)), Hr|
          rewrite <- (bool_decide_eq_true (_ ∈ ids cleared)), Hc]; apply bool_decide_eq_true.
Qed.

Lemma evaluate_ok defs readings prior now :
  inst_ok prior -> now <> 0 -> inst_ok (Evaluate defs readings prior now).1.1.
Proof.
  intros Hok Hnow. unfold Evaluate.
  assert (inst_ok (∅, [] : list AlarmInst, [] : list AlarmInst).1.1) as H0 by (intros k i Hk; done).
  revert H0. generalize ((∅, [], []) : gmap string AlarmInst * list AlarmInst * list AlarmInst).
  induction (pairs_of defs readings) as [|[d r] l IH]; intros acc Hacc; [done|]. simpl. apply IH.
  destruct acc as [[next raised] cleared]. rewrite visit_eq.
  pose proof (visit_result_spec prior now d r Hok Hnow) as Hs. cbv zeta in Hs.
  destruct (visit_result prior now (d, r)) as [o e]. destruct (machine _ _ _ _) as [s ev].
  destruct Hs as (_ & _ & Hio & _). cbn [fst snd] in *. destruct o as [i|]; [|done].
  intros k i' Hk. apply lookup_insert_Some in Hk as [[<- <-]|[_ Hk]]; [by apply Hio|by apply Hacc].
Qed.

Lemma evaluate_other defs readings prior now k :
  inst_ok prior -> now <> 0 -> (k ∉ key_of <$> pairs_of defs readings) ->
  let '(next, raised, cleared) := Evaluate defs readings prior now in
  next !! k = None /\ (k ∉ ids raised) /\ (k ∉ ids cleared).
Proof.
  intros Hok Hnow Hk. unfold Evaluate.
  pose proof (visits_other prior now Hok Hnow (pairs_of defs readings) (∅, [], []) k Hk) as Ho.
  destruct (foldl _ _ _) as [[next raised] cleared]. unfold outcome_of in Ho. cbn [fst snd] in Ho.
  injection Ho as Hn Hr Hc. split_and!; [done|by apply bool_decide_eq_false in Hr|by apply bool_decide_eq_false in Hc].
Qed.

(** C24 [Evaluate] refines the per-object machine: when no two readings of a tick
    share a key, each (definition, object) pair takes exactly the step of
    [machine] from the state its prior instance stands for, the pair is in the
    raised (cleared) list exactly when that step raises (clears), and a pair that
    is not read is dropped without any event. *)
Theorem alarms_refine_machine defs readings prior now :
  inst_ok prior -> now <> 0 -> NoDup (key_of <$> pairs_of defs readings) ->
  let '(next, raised, cleared) := Evaluate defs readings prior now in
  inst_ok next /\
  (forall d r, (d, r) ∈ pairs_of defs readings ->
     let '(s, ev) := machine (duration_of d) now (breaches d r) (phase_of (prior !! alarm_key d r)) in
     phase_of (next !! alarm_key d r) = s /\
     (alarm_key d r ∈ ids raised <-> ev = Some Raised) /\
     (alarm_key d r ∈ ids cleared <-> ev = Some Cleared)) /\
  (forall k, (k ∉ key_of <$> pairs_of defs readings) ->
     next !! k = None /\ (k ∉ ids raised) /\ (k ∉ ids cleared)).
Proof.
  intros Hok Hnow Hnd. pose proof (evaluate_ok defs readings prior now Hok Hnow) as Hok'.
  pose proof (fun d r => evaluate_spec defs readings prior now d r Hok Hnow Hnd) as Hin.
  pose proof (fun k => evaluate_other defs readings prior now k Hok Hnow) as Hout.
  destruct (Evaluate defs readings prior now) as [[next raised] cleared]. split_and!; done.
Qed.

(** ** Sequences of ticks *)

Record tick := mkTick {
  tk_defs : list AlarmDef; tk_readings : gmap string (list reading); tk_now : time }.

(** A tick in which no two readings share a key. *)
Definition tick_good (t : tick) : Prop :=
  tk_now t <> 0 /\ NoDup (key_of <$> pairs_of (tk_defs t) (tk_readings t)).

(** The tick reads the pair of key [k], with this duration and verdict. *)
Definition watches (k : string) (dur : duration) (br : bool) (t : tick) : Prop :=
  exists d r, (d, r) ∈ pairs_of (tk_defs t) (tk_readings t) /\ alarm_key d r = k /\
    dur = duration_of d /\ br = breaches d r.

(** The instances after each tick, with how often [k] was raised and cleared. *)
Definition tick_run (k : string) (acc : gmap string AlarmInst * nat * nat) (t : tick)
  : gmap string AlarmInst * nat * nat :=
  let '(m, nr, nc) := acc in
  let '(next, raised, cleared) := Evaluate (tk_defs t) (tk_readings t) m (tk_now t) in
  (next, if bool_decide (k ∈ ids raised) then S nr else nr,
   if bool_decide (k ∈ ids cleared) then S nc else nc).
Definition ticks_run (k : string) (ts : list tick) (m : gmap string AlarmInst) :=
  foldl (tick_run k) (m, 0%nat, 0%nat) ts.

Lemma tick_run_spec k dur br t m nr nc :
  inst_ok m -> tick_good t -> watches k dur br t ->
  let '(m', nr', nc') := tick_run k (m, nr, nc) t in
  let '(s, ev) := machine dur (tk_now t) br (phase_of (m !! k)) in
  inst_ok m' /\ phase_of (m' !! k) = s /\
  nr' = (if bool_decide (ev = Some Raised) then S nr else nr) /\
  nc' = (if bool_decide (ev = Some Cleared) then S nc else nc).
Proof.
  intros Hok [Hnow Hnd] (d & r & Hin & <- & -> & ->). unfold tick_run.
  pose proof (evaluate_ok (tk_defs t) (tk_readings t) m (tk_now t) Hok Hnow) as Hok'.
  pose proof (evaluate_spec _ _ m _ d r Hok Hnow Hnd Hin) as Hs.
  destruct (Evaluate _ _ _ _) as [[next raised] cleared].
  destruct (machine _ _ _ _) as [s ev]. destruct Hs as (Hp & Hr & Hc). split_and!; [done|done| |];
    repeat case_bool_decide; tauto.
Qed.

Definition firing (s : phase) : nat := match s with Firing => 1 | _ => 0 end.

Lemma alternate_run k ts m nr nc :
  Forall (fun t => tick_good t /\ exists dur br, watches k dur br t) ts -> inst_ok m ->
  nr = (nc + firing (phase_of (m !! k)))%nat ->
  let '(m, nr, nc) := foldl (tick_run k) (m, nr, nc) ts in nr = (nc + firing (phase_of (m !! k)))%nat.
Proof.
  intros Hts. revert m nr nc.
  induction Hts as [|t ts [Hg (dur & br & Hw)] Hts IH]; intros m nr nc Hok Hc; [done|]. cbn [foldl].
  pose proof (tick_run_spec k dur br t m nr nc Hok Hg Hw) as Hs.
  destruct (tick_run k (m, nr, nc) t) as [[m' nr'] nc'].
  destruct (machine dur (tk_now t) br (phase_of (m !! k))) as [s ev] eqn:Em.
  destruct Hs as (Hok' & Hp & Hr & Hcl). apply IH; [done|]. rewrite Hp. subst nr' nc'. clear - Hc Em.
  destruct (phase_of (m !! k)), br; cbn in Em; repeat case_match; simplify_eq; cbn; lia.
Qed.

(** Notifications account for the state: over any sequence of ticks that all
    read the pair, the alarms raised for it are as many as those cleared, plus one
    exactly while the alarm is active; so the two alternate, starting with a
    raise, and none is sent twice. *)
Theorem alarms_notifications_alternate k ts :
  Forall (fun t => tick_good t /\ exists dur br, watches k dur br t) ts ->
  let '(m, nr, nc) := ticks_run k ts ∅ in
  nr = (nc + firing (phase_of (m !! k)))%nat.
Proof.
  intros Hts. by apply (alternate_run k ts ∅ 0 0).
Qed.

(** The times of a sequence of ticks, in order from [t0]. *)
Fixpoint ordered_from (t0 : time) (ts : list tick) : Prop :=
  match ts with [] => True | t :: ts => t0 <= tk_now t /\ ordered_from (tk_now t) ts end.
Definition last_now (t0 : time) (ts : list tick) : time := foldl (fun _ t => tk_now t) t0 ts.

Lemma ordered_last t0 ts : ordered_from t0 ts -> t0 <= last_now t0 ts.
Proof.
  revert t0. induction ts as [|t ts IH]; intros t0; [done|]. intros [H1 H2].
  specialize (IH _ H2). unfold last_now in *. simpl. lia.
Qed.

Lemma breach_run k dur t0 ts last m nr nc :
  Forall (fun t => tick_good t /\ watches k dur true t) ts -> ordered_from last ts -> t0 <= last ->
  last_now last ts - t0 < 2 ^ 63 -> inst_ok m ->
  phase_of (m !! k) = (if dur <=? last - t0 then Firing else Pending t0) ->
  let '(m', nr', nc') := foldl (tick_run k) (m, nr, nc) ts in
  phase_of (m' !! k) = (if dur <=? last_now last ts - t0 then Firing else Pending t0) /\ nc' = nc /\
  nr' = (if (dur <=? last_now last ts - t0) && negb (dur <=? last - t0) then S nr else nr).
Proof.
  intros Hts. revert last m nr. induction Hts as [|t ts [Hg Hw] Hts IH]; intros last m nr Hord Hle Hb Hok Hph.
  - simpl. split_and!; [done..|]. by destruct (dur <=? last - t0).
  - destruct Hord as [Hlt Hord]. cbn [foldl]. pose proof (ordered_last _ _ Hord) as Hl.
    change (last_now last (t :: ts)) with (last_now (tk_now t) ts) in *.
    pose proof (tick_run_spec k dur true t m nr nc Hok Hg Hw) as Hs. rewrite Hph in Hs.
    destruct (tick_run k (m, nr, nc) t) as [[m' nr'] nc'].
    assert (time_sub (tk_now t) t0 = tk_now t - t0) as Hsub by (apply time_sub_exact; unfold int64_range; lia).
    destruct (Z.leb_spec dur (last - t0)) as [H1|H1]; cbn [machine] in Hs.
    + destruct Hs as (Hok' & Hp & -> & ->). cbn. specialize (IH (tk_now t) m' nr Hord ltac:(lia) Hb Hok').
      rewrite (proj2 (Z.leb_le dur (tk_now t - t0))) in IH by lia. specialize (IH Hp).
      destruct (foldl _ _ ts) as [[m2 nr2] nc2]. by rewrite andb_false_r in *.
    + rewrite Hsub in Hs. specialize (IH (tk_now t) m' nr' Hord ltac:(lia) Hb).
      destruct (Z.leb_spec dur (tk_now t - t0)) as [H2|H2].
      * destruct Hs as (Hok' & Hp & -> & ->). cbn in IH |- *. specialize (IH Hok' Hp).
        destruct (foldl _ _ ts) as [[m2 nr2] nc2]. rewrite andb_false_r in IH. cbn [negb].
        rewrite (proj2 (Z.leb_le dur (last_now (tk_now t) ts - t0))) in * by lia. exact IH.
      * destruct Hs as (Hok' & Hp & -> & ->). cbn in IH |- *. specialize (IH Hok' Hp).
        destruct (foldl _ _ ts) as [[m2 nr2] nc2]. exact IH.
Qed.

(** Duration: an object that breaches at every tick from [t0] on is pending
    until the breach has lasted the definition's duration and active from then on;
    exactly one alarm is raised, at that point, and none is cleared. *)
Theorem alarms_duration k dur t ts :
  tick_good t -> watches k dur true t -> Forall (fun t => tick_good t /\ watches k dur true t) ts ->
  ordered_from (tk_now t) ts -> last_now (tk_now t) ts - tk_now t < 2 ^ 63 ->
  let '(m, nr, nc) := ticks_run k (t :: ts) ∅ in
  let lasted := dur <=? last_now (tk_now t) ts - tk_now t in
  phase_of (m !! k) = (if lasted then Firing else Pending (tk_now t)) /\
  nr = (if lasted then 1 else 0)%nat /\ nc = 0%nat.
Proof.
  intros Hg Hw Hts Hord Hb. unfold ticks_run. cbn [foldl].
  assert (inst_ok ∅) as Hok by done. pose proof (ordered_last _ _ Hord) as Hl.
  pose proof (tick_run_spec k dur true t ∅ 0 0 Hok Hg Hw) as Hs.
  destruct (tick_run k (∅, 0%nat, 0%nat) t) as [[m nr] nc].
  rewrite lookup_empty in Hs. cbn [phase_of machine] in Hs.
  pose proof (breach_run k dur (tk_now t) ts (tk_now t) m nr nc Hts Hord ltac:(lia) Hb) as Hrun.
  rewrite Z.sub_diag in Hrun.
  destruct (Z.leb_spec dur 0) as [H1|H1]; destruct Hs as (Hok' & Hp & -> & ->); cbn in Hrun;
    specialize (Hrun Hok' Hp); destruct (foldl _ _ ts) as [[m2 nr2] nc2];
    destruct Hrun as (H2 & -> & ->); (split; [done|]); (split; [|done]).
  - rewrite andb_false_r. by rewrite (proj2 (Z.leb_le _ _)) by lia.
  - by rewrite andb_true_r.
Qed.

(** ** Objects that share an id *)

(** The key leaves out the provider: when two objects of one target type have
    the same id (say vm-1 of two hypervisors) and the first breaches while the
    second does not, an active alarm is reported cleared at every tick and yet
    stays active, for as long as the situation lasts. *)
Theorem alarms_shared_id_flaps d r1 r2 k ts m nr nc :
  def_Enabled d = true -> k = alarm_key d r1 -> k = alarm_key d r2 ->
  breaches d r1 = true -> breaches d r2 = false ->
  Forall (fun t => tk_defs t = [d] /\ tk_readings t !! def_ID d = Some [r1; r2]) ts ->
  (exists i, m !! k = Some i /\ in_State i = StateActive) ->
  let '(m', nr', nc') := foldl (tick_run k) (m, nr, nc) ts in
  (exists i, m' !! k = Some i /\ in_State i = StateActive) /\
  nr' = nr /\ nc' = (nc + length ts)%nat.
Proof.
  intros Hen Hk1 Hk2 Hb1 Hb2 Hts. revert m nr nc.
  induction Hts as [|t ts [Hd Hr] Hts IH]; intros m nr nc Hm; [by rewrite Nat.add_0_r|]. cbn [foldl length].
  assert (exists m', tick_run k (m, nr, nc) t = (m', nr, S nc) /\
            exists i, m' !! k = Some i /\ in_State i = StateActive) as (m' & Ht & Hm').
  { assert (pairs_of (tk_defs t) (tk_readings t) = [(d, r1); (d, r2)]) as Hp.
    { unfold pairs_of. rewrite Hd, (filter_all _ [d]) by (by constructor). cbn. by rewrite Hr. }
    destruct Hm as (i & Hi & Ha). unfold tick_run, Evaluate. rewrite Hp. cbn [foldl].
    unfold visit, new_inst, inst_set. rewrite <- Hk1, <- Hk2, Hi, Hb1, Hb2, Ha. states. cbn.
    rewrite bool_decide_false by (by intros ?%elem_of_nil).
    rewrite bool_decide_true by (by left).
    eexists. split; [reflexivity|]. rewrite lookup_insert_eq. by eexists. }
  rewrite Ht. specialize (IH m' nr (S nc) Hm'). destruct (foldl _ _ ts) as [[m2 nr2] nc2].
  destruct IH as (? & ? & ->). split_and!; [done|done|lia].
Qed.

(** ** The active list *)

#[export] Instance inst_le_total : Total inst_le.
Proof.
  intros a b. unfold inst_le.
  destruct (Z.lt_trichotomy (sevRank (in_Severity a)) (sevRank (in_Severity b))) as [?|[Hs|?]]; [by left; left| |by right; left].
  destruct (decide (in_ObjectName a = in_ObjectName b)) as [Hn|Hn].
  - destruct (str_le_total (in_ID a) (in_ID b)); [left|right]; right; (split; [congruence|]); right; auto.
  - destruct (str_le_total (in_ObjectName a) (in_ObjectName b)); [left|right]; right;
      (split; [congruence|]); left; auto.
Qed.

#[export] Instance inst_le_trans : Transitive inst_le.
Proof.
  intros a b c [H1|[E1 H1]] [H2|[E2 H2]]; [left; lia..|right]. split; [congruence|].
  destruct H1 as [[N1 L1]|[N1 L1]], H2 as [[N2 L2]|[N2 L2]].
  - left. split; [|by etransitivity]. intros N3. apply N1. apply (anti_symm str_le); [done|]. by rewrite N3.
  - left. rewrite <- N2. done.
  - left. rewrite N1. done.
  - right. split; [congruence|]. by etransitivity.
Qed.

Lemma inst_le_antisym a b : inst_le a b -> inst_le b a -> in_ID a = in_ID b.
Proof.
  intros [H1|[E1 H1]] [H2|[E2 H2]]; [lia..|].
  destruct H1 as [[N1 L1]|[N1 L1]], H2 as [[N2 L2]|[N2 L2]]; try congruence.
  - exfalso. apply N1. by apply (anti_symm str_le).
  - by apply (anti_symm str_le).
Qed.

(** The active list is exactly the active instances, most severe first, then by
    object name, then by id; and although it is collected from a map, it does not
    depend on the order in which the map is traversed. *)
Theorem alarms_active_list (e : engine) :
  inst_ok (eng_instances e) ->
  (forall i, i ∈ Active e <-> eng_instances e !! in_ID i = Some i /\ in_State i = StateActive) /\
  StronglySorted inst_le (Active e) /\
  (forall l, l ≡ₚ (map_to_list (eng_instances e)).*2 -> merge_sort inst_le (activeOnly l) = Active e).
Proof.
  intros Hok.
  assert (forall i, i ∈ Active e <-> eng_instances e !! in_ID i = Some i /\ in_State i = StateActive) as Hin.
  { intros i. unfold Active, activeOnly. rewrite merge_sort_Permutation, list_elem_of_filter. split.
    - intros [Hs ([k i'] & -> & Hk)%list_elem_of_fmap]. apply elem_of_map_to_list in Hk. simpl in *.
      destruct (Hok _ _ Hk) as [-> _]. done.
    - intros [Hi Hs]. split; [done|]. apply list_elem_of_fmap. exists (in_ID i, i). split; [done|].
      by apply elem_of_map_to_list. }
  split_and!; [done|apply StronglySorted_merge_sort; apply _|]. intros l Hl.
  assert (merge_sort inst_le (activeOnly l) ≡ₚ Active e) as Hp.
  { unfold Active, activeOnly. by rewrite !merge_sort_Permutation, Hl. }
  apply (StronglySorted_unique_strong inst_le);
    [|apply StronglySorted_merge_sort; apply _..|done].
  intros a b Ha Hb H1 H2. rewrite Hp in Ha. apply Hin in Ha as [Ha _]. apply Hin in Hb as [Hb _].
  pose proof (inst_le_antisym _ _ H1 H2). congruence.
Qed.

(** ** Concrete runs *)

Definition cpu_def : AlarmDef :=
  mkDef "d1" "cpu high" TargetVM MetricCPU CmpGT (f64_of_Z 90) "" 60 SeverityCritical true ["c1"].
Definition obj (id : string) (v : Z) : reading := mkReading id id TargetVM (f64_of_Z v) "" true.
Definition at_time (now : time) (rs : list reading) : tick := mkTick [cpu_def] {[ "d1" := rs ]} now.

Lemma at_time_good now r : now <> 0 -> tick_good (at_time now [r]).
Proof. intros Hn. split; [done|]. cbn. apply NoDup_singleton. Qed.

Lemma at_time_watches now id v br :
  breaches cpu_def (obj id v) = br -> watches ("d1:" +:+ id) (60 * Second) br (at_time now [obj id v]).
Proof. intros Hb. exists cpu_def, (obj id v). split_and!; [cbn; by left|done|by vm_compute|done]. Qed.

Lemma alarms_refine_machine_witness :
  inst_ok (Evaluate [cpu_def] {[ "d1" := [obj "a" 95; obj "b" 20] ]} ∅ (5 * Second)).1.1.
Proof.
  pose proof (alarms_refine_machine [cpu_def] {[ "d1" := [obj "a" 95; obj "b" 20] ]} ∅ (5 * Second)) as H.
  destruct (Evaluate _ _ _ _) as [[next raised] cleared]. apply H; [done|done|].
  cbn. apply (bool_decide_unpack _). by vm_compute.
Defined.

Definition sample_ticks : list tick :=
  [at_time (1 * Second) [obj "a" 95]; at_time (31 * Second) [obj "a" 95];
   at_time (61 * Second) [obj "a" 95]; at_time (91 * Second) [obj "a" 10]].

Lemma alarms_notifications_alternate_witness :
  (ticks_run "d1:a" sample_ticks ∅).1.2 = 1%nat /\
  let '(m, nr, nc) := ticks_run "d1:a" sample_ticks ∅ in
  nr = (nc + firing (phase_of (m !! "d1:a")))%nat.
Proof.
  split; [by vm_compute|]. apply (alarms_notifications_alternate "d1:a" sample_ticks).
  repeat (constructor; [split; [by apply at_time_good|
    eexists; eexists; apply (at_time_watches _ "a"); reflexivity]|]).
  constructor.
Defined.

Lemma alarms_duration_witness :
  (ticks_run "d1:a" (take 3 sample_ticks) ∅).1.2 = 1%nat.
Proof.
  pose proof (alarms_duration "d1:a" (60 * Second) (at_time (1 * Second) [obj "a" 95])
    [at_time (31 * Second) [obj "a" 95]; at_time (61 * Second) [obj "a" 95]]) as H.
  change (take 3 sample_ticks) with
    (at_time (1 * Second) [obj "a" 95] :: [at_time (31 * Second) [obj "a" 95]; at_time (61 * Second) [obj "a" 95]]).
  destruct (ticks_run _ _ _) as [[m nr] nc]. apply H.
  - by apply at_time_good.
  - apply (at_time_watches _ "a"). reflexivity.
  - repeat (constructor; [split; [by apply at_time_good|apply (at_time_watches _ "a"); reflexivity]|]). constructor.
  - cbn. unfold Second. lia.
  - cbn. unfold Second. lia.
Defined.

(** vm-1 of two hypervisors, collected from the inventory. *)
Definition twin (provider : string) : VM :=
  mkVM "vm-1" ("web-" +:+ provider) KindKVM provider "" "" StateRunning "" 1 1 "" "" [] [] [] ∅ 0 0 false.
Definition twin_samples : metrics_source := Some (fun provider _ =>
  Some (mkSample 0 (f64_of_Z (if bool_decide (provider = "a") then 95 else 5)) 0 0 0 0 0 0)).
Definition twin_tick (now : time) : tick :=
  mkTick [cpu_def] (collect twin_samples [cpu_def] (mkUnified [twin "a"; twin "b"] [] [])) now.
Definition twin_reading (provider : string) : reading := vmReading twin_samples cpu_def (twin provider).

Lemma alarms_shared_id_flaps_witness :
  let i := inst_set StateActive 1 0 1 1 (new_inst cpu_def (twin_reading "a") None) in
  (foldl (tick_run "d1:vm-1") ({[ "d1:vm-1" := i ]}, 1%nat, 0%nat)
     [twin_tick Second; twin_tick (2 * Second); twin_tick (3 * Second)]).2 = 3%nat.
Proof.
  intros i.
  pose proof (alarms_shared_id_flaps cpu_def (twin_reading "a") (twin_reading "b") "d1:vm-1"
    [twin_tick Second; twin_tick (2 * Second); twin_tick (3 * Second)] {[ "d1:vm-1" := i ]} 1 0) as H.
  destruct (foldl _ _ _) as [[m nr] nc]. apply H.
  - reflexivity.
  - reflexivity.
  - reflexivity.
  - by vm_compute.
  - by vm_compute.
  - repeat (constructor; [split; [reflexivity|by vm_compute]|]). constructor.
  - exists i. split; [apply lookup_singleton_eq|reflexivity].
Defined.

Lemma alarms_active_list_witness :
  StronglySorted inst_le (Active (mkEngine (Evaluate [cpu_def] {[ "d1" := [obj "a" 95] ]} ∅ Second).1.1 [] [])).
Proof.
  apply (alarms_active_list (mkEngine (Evaluate [cpu_def] {[ "d1" := [obj "a" 95] ]} ∅ Second).1.1 [] [])).
  by apply evaluate_ok.
Defined.
