(* ===== verification/AuthStore.v ===== *)
(** * The identity tables: users, roles, bindings, sessions, tokens, audit

    server/internal/store (records.go, users.go, roles.go, bindings.go,
    sessions.go, api_tokens.go, recovery.go, settings.go, audit.go, bootstrap.go,
    seed.go) over the schema of migrations 0001, 0003 and 0007.  A table is a map
    from its primary key to its rows; a statement is a function of the database
    (and of the reading of the clock it stores); what can fail is what the
    schema's constraints refuse.  I/O errors of SQLite are not modelled. *)
From S2P Require Import Prelude GoStd.

(** ** Rows (records.go, api_tokens.go, bindings.go) *)

Record StoreUser := mkUser {
  u_ID : string; u_Username : string; u_Email : string; u_PasswordHash : string;
  u_TOTPSecretEnc : string; u_TOTPEnabled : bool; u_TOTPConfirmedAt : option Z;
  u_IsActive : bool; u_MustChangePW : bool; u_FailedLogins : Z; u_LockedUntil : option Z;
  u_LastLoginAt : option Z; u_AuthSource : string; u_ExternalID : string;
  u_ExternalProviderID : string; u_CreatedAt : Z; u_UpdatedAt : Z }.

Record Session := mkSession {
  ss_ID : string; ss_UserID : string; ss_CSRFToken : string; ss_UserAgent : string;
  ss_IP : string; ss_AMR : string; ss_CreatedAt : Z; ss_LastSeenAt : Z;
  ss_ExpiresAt : Z; ss_RevokedAt : option Z }.

Record Role := mkRole {
  ro_ID : string; ro_Name : string; ro_Description : string; ro_IsBuiltin : bool;
  ro_Permissions : list string; ro_CreatedAt : Z; ro_UpdatedAt : Z }.

(** [bi_ScopeID] is the nullable column: [None] for the empty string. *)
Record Binding := mkBinding {
  bi_ID : string; bi_UserID : string; bi_RoleID : string; bi_ScopeType : string;
  bi_ScopeID : option string; bi_CreatedAt : Z }.

Record EffectiveRole := mkEffectiveRole {
  er_RoleID : string; er_RoleName : string; er_Permissions : list string;
  er_ScopeType : string; er_ScopeID : string }.

Record APIToken := mkToken {
  tk_ID : string; tk_Name : string; tk_UserID : string; tk_TokenHash : string;
  tk_Permissions : list string; tk_ExpiresAt : option Z; tk_LastUsedAt : option Z;
  tk_RevokedAt : option Z; tk_CreatedAt : Z }.

Record RecoveryCode := mkRecoveryCode {
  rc_ID : string; rc_UserID : string; rc_CodeHash : string; rc_UsedAt : option Z;
  rc_CreatedAt : Z }.

(** A row of audit_log; its detail is the JSON value, not its text. *)
Record AuditEntry := mkAudit {
  ae_TS : Z; ae_ActorID : string; ae_ActorName : string; ae_ActorIP : string;
  ae_Action : string; ae_TargetType : string; ae_TargetID : string; ae_TargetName : string;
  ae_ScopeType : string; ae_ScopeID : string; ae_Result : string; ae_HTTPStatus : Z;
  ae_Detail : option json; ae_RequestID : string }.

(** ** Rows of migration 0003 (authproviders.go, sso_states.go)

    A nullable column is the empty string when it is NULL, as the code reads it. *)

Record AuthProvider := mkProvider {
  ap_ID : string; ap_Name : string; ap_Kind : string; ap_Enabled : bool; ap_DefaultRoleID : string;
  ap_LDAPHost : string; ap_LDAPPort : Z; ap_LDAPTLS : string; ap_LDAPSkipVerify : bool; ap_LDAPBindDN : string;
  ap_LDAPBindPWEnc : string; ap_LDAPBaseDN : string; ap_LDAPUserFilter : string; ap_LDAPAttrUsername : string;
  ap_LDAPAttrEmail : string; ap_LDAPAttrDisplay : string; ap_LDAPGroupBaseDN : string; ap_LDAPGroupFilter : string;
  ap_LDAPAttrMember : string;
  ap_OIDCIssuer : string; ap_OIDCClientID : string; ap_OIDCClientSecretEnc : string; ap_OIDCRedirectURL : string;
  ap_OIDCScopes : string; ap_OIDCGroupsClaim : string; ap_OIDCUsernameClaim : string; ap_OIDCEmailClaim : string;
  ap_CreatedAt : Z; ap_UpdatedAt : Z }.
Record GroupRoleMapping := mkMapping {
  gm_ID : string; gm_ProviderID : string; gm_ExternalGroup : string; gm_RoleID : string; gm_CreatedAt : Z }.
Record OIDCAuthState := mkOIDCState {
  os_State : string; os_ProviderID : string; os_Nonce : string; os_PKCEVerifier : string;
  os_RedirectAfter : string; os_CreatedAt : Z; os_ExpiresAt : Z }.
Record sso_tables := mkSSO {
  so_providers : gmap string AuthProvider; so_mappings : gmap string GroupRoleMapping;
  so_states : gmap string OIDCAuthState }.
Definition no_sso : sso_tables := mkSSO ∅ ∅ ∅.

Record db := mkDB {
  db_users : gmap string StoreUser; db_roles : gmap string Role;
  db_bindings : gmap string Binding; db_sessions : gmap string Session;
  db_tokens : gmap string APIToken; db_recovery : gmap string RecoveryCode;
  db_settings : gmap string string; db_audit : list AuditEntry; db_sso : sso_tables }.

Definition set_users f (d : db) := mkDB (f (db_users d)) (db_roles d) (db_bindings d)
  (db_sessions d) (db_tokens d) (db_recovery d) (db_settings d) (db_audit d) (db_sso d).
Definition set_roles f (d : db) := mkDB (db_users d) (f (db_roles d)) (db_bindings d)
  (db_sessions d) (db_tokens d) (db_recovery d) (db_settings d) (db_audit d) (db_sso d).
Definition set_bindings f (d : db) := mkDB (db_users d) (db_roles d) (f (db_bindings d))
  (db_sessions d) (db_tokens d) (db_recovery d) (db_settings d) (db_audit d) (db_sso d).
Definition set_sessions f (d : db) := mkDB (db_users d) (db_roles d) (db_bindings d)
  (f (db_sessions d)) (db_tokens d) (db_recovery d) (db_settings d) (db_audit d) (db_sso d).
Definition set_tokens f (d : db) := mkDB (db_users d) (db_roles d) (db_bindings d)
  (db_sessions d) (f (db_tokens d)) (db_recovery d) (db_settings d) (db_audit d) (db_sso d).
Definition set_recovery f (d : db) := mkDB (db_users d) (db_roles d) (db_bindings d)
  (db_sessions d) (db_tokens d) (f (db_recovery d)) (db_settings d) (db_audit d) (db_sso d).
Definition set_settings f (d : db) := mkDB (db_users d) (db_roles d) (db_bindings d)
  (db_sessions d) (db_tokens d) (db_recovery d) (f (db_settings d)) (db_audit d) (db_sso d).
Definition set_audit f (d : db) := mkDB (db_users d) (db_roles d) (db_bindings d)
  (db_sessions d) (db_tokens d) (db_recovery d) (db_settings d) (f (db_audit d)) (db_sso d).
Definition set_sso f (d : db) := mkDB (db_users d) (db_roles d) (db_bindings d)
  (db_sessions d) (db_tokens d) (db_recovery d) (db_settings d) (db_audit d) (f (db_sso d)).

Inductive store_err := ErrNotFound | ErrConstraint | ErrBootstrapAlreadyDone.
#[export] Instance store_err_eq_dec : EqDecision store_err.
Proof. solve_decision. Defined.

Definition null_str (s : string) : option string := if bool_decide (s = "") then None else Some s.

(** [UPDATE t SET f WHERE p]: the rows of [t] that satisfy [p]. *)
Definition update_where {A} (p : A -> bool) (f : A -> A) (t : gmap string A) : gmap string A :=
  (fun a => if p a then f a else a) <$> t.
(** [DELETE FROM t WHERE p]. *)
Definition delete_where {A} (p : A -> bool) (t : gmap string A) : gmap string A :=
  filter (fun kv => p kv.2 = false) t.
(** [SELECT ... WHERE p]: in no particular order. *)
Definition select_where {A} (p : A -> bool) (t : gmap string A) : list A :=
  filter (fun a => p a = true) (map_to_list t).*2.

(** ** settings.go *)

Definition SettingBootstrapCompleted := "bootstrap.completed".
Definition SettingTOTPRequiredForMut := "security.totp_required_for_mutations".
Definition SettingSessionTTLSeconds := "session.ttl_seconds".
Definition SettingProtectedLabels := "security.protected_labels".

Definition GetSetting (key : string) (d : db) : result store_err string :=
  match db_settings d !! key with Some v => Ok v | None => Err ErrNotFound end.
Definition GetSettingDefault (key def : string) (d : db) : string :=
  match GetSetting key d with Ok v => v | Err _ => def end.
Definition SetSetting (key value : string) : db -> db := set_settings (<[key := value]>).
Definition BootstrapCompleted (d : db) : bool :=
  match GetSetting SettingBootstrapCompleted d with
  | Ok v => bool_decide (v = "true")
  | Err _ => false
  end.

(** ** users.go *)

Definition user_set_auth (enc : string) (enabled : bool) (confirmed : option Z) (now : Z) (u : StoreUser) :=
  mkUser (u_ID u) (u_Username u) (u_Email u) (u_PasswordHash u) enc enabled confirmed
    (u_IsActive u) (u_MustChangePW u) (u_FailedLogins u) (u_LockedUntil u) (u_LastLoginAt u)
    (u_AuthSource u) (u_ExternalID u) (u_ExternalProviderID u) (u_CreatedAt u) now.
Definition user_set_login (failed : Z) (locked last : option Z) (now : Z) (u : StoreUser) :=
  mkUser (u_ID u) (u_Username u) (u_Email u) (u_PasswordHash u) (u_TOTPSecretEnc u)
    (u_TOTPEnabled u) (u_TOTPConfirmedAt u) (u_IsActive u) (u_MustChangePW u) failed locked last
    (u_AuthSource u) (u_ExternalID u) (u_ExternalProviderID u) (u_CreatedAt u) now.
Definition user_set_profile (email : string) (active : bool) (now : Z) (u : StoreUser) :=
  mkUser (u_ID u) (u_Username u) email (u_PasswordHash u) (u_TOTPSecretEnc u)
    (u_TOTPEnabled u) (u_TOTPConfirmedAt u) active (u_MustChangePW u) (u_FailedLogins u)
    (u_LockedUntil u) (u_LastLoginAt u) (u_AuthSource u) (u_ExternalID u)
    (u_ExternalProviderID u) (u_CreatedAt u) now.
Definition user_set_password (hash : string) (now : Z) (u : StoreUser) :=
  mkUser (u_ID u) (u_Username u) (u_Email u) hash (u_TOTPSecretEnc u)
    (u_TOTPEnabled u) (u_TOTPConfirmedAt u) (u_IsActive u) false (u_FailedLogins u)
    (u_LockedUntil u) (u_LastLoginAt u) (u_AuthSource u) (u_ExternalID u)
    (u_ExternalProviderID u) (u_CreatedAt u) now.

(** The inserted row: second factor off, no failed login, a named source. *)
Definition new_user_row (u : StoreUser) (now : Z) : StoreUser :=
  mkUser (u_ID u) (u_Username u) (u_Email u) (u_PasswordHash u) "" false None (u_IsActive u)
    (u_MustChangePW u) 0 None None
    (if bool_decide (u_AuthSource u = "") then "local" else u_AuthSource u)
    (u_ExternalID u) (u_ExternalProviderID u) now now.

(** Refused by the primary key, the unique username, or the unique external
    identity. *)
Definition CreateUser (u : StoreUser) (now : Z) (d : db) : result store_err db :=
  let row := new_user_row u now in
  let clash v := bool_decide (u_Username v = u_Username row)
                 || (negb (bool_decide (u_ExternalID row = ""))
                     && bool_decide (u_AuthSource v = u_AuthSource row)
                     && bool_decide (u_ExternalID v = u_ExternalID row)) in
  if bool_decide (is_Some (db_users d !! u_ID u)) || existsb clash (map_to_list (db_users d)).*2
  then Err ErrConstraint
  else Ok (set_users (<[u_ID u := row]>) d).

Definition GetUserByID (id : string) (d : db) : result store_err StoreUser :=
  match db_users d !! id with Some u => Ok u | None => Err ErrNotFound end.
Definition GetUserByUsername (name : string) (d : db) : result store_err StoreUser :=
  match select_where (fun u => bool_decide (u_Username u = name)) (db_users d) with
  | u :: _ => Ok u
  | [] => Err ErrNotFound
  end.
Definition CountUsers (d : db) : Z := Z.of_nat (size (db_users d)).

Definition UpdateUserProfile (id : string) (email : option string) (isActive : option bool) (now : Z)
  : db -> db :=
  set_users (alter (fun u =>
    match email, isActive with
    | None, None => u
    | _, _ => user_set_profile (default (u_Email u) email) (default (u_IsActive u) isActive) now u
    end) id).
Definition SetPasswordHash (id hash : string) (now : Z) : db -> db :=
  set_users (alter (user_set_password hash now) id).
Definition SetTOTPPending (id enc : string) (now : Z) : db -> db :=
  set_users (alter (user_set_auth enc false None now) id).
Definition ConfirmTOTP (id : string) (now : Z) : db -> db :=
  set_users (alter (fun u => user_set_auth (u_TOTPSecretEnc u) true (Some now) now u) id).
Definition DisableTOTP (id : string) (now : Z) : db -> db :=
  set_users (alter (user_set_auth "" false None now) id).
Definition RecordLoginSuccess (id : string) (now : Z) : db -> db :=
  set_users (alter (user_set_login 0 None (Some now) now) id).
(** Counts the failure and, from the threshold on, locks the account. *)
Definition RecordLoginFailure (id : string) (threshold : Z) (lockFor : duration) (now : Z) : db -> db :=
  set_users (alter (fun u =>
    let failed := u_FailedLogins u + 1 in
    user_set_login failed
      (if threshold <=? failed then Some (now + f64_to_int64 (dur_seconds lockFor)) else None)
      (u_LastLoginAt u) now u) id).

(** The foreign keys of sessions, bindings, recovery codes and tokens cascade. *)
Definition DeleteUser (id : string) (d : db) : result store_err db :=
  match db_users d !! id with
  | None => Err ErrNotFound
  | Some _ =>
      Ok (mkDB (delete id (db_users d)) (db_roles d)
            (delete_where (fun b => bool_decide (bi_UserID b = id)) (db_bindings d))
            (delete_where (fun s => bool_decide (ss_UserID s = id)) (db_sessions d))
            (delete_where (fun t => bool_decide (tk_UserID t = id)) (db_tokens d))
            (delete_where (fun c => bool_decide (rc_UserID c = id)) (db_recovery d))
            (db_settings d) (db_audit d) (db_sso d))
  end.

(** ** roles.go *)

Definition RoleIDAdmin := "role-admin".

Definition CreateRole (r : Role) (now : Z) (d : db) : result store_err db :=
  if bool_decide (is_Some (db_roles d !! ro_ID r))
     || existsb (fun v => bool_decide (ro_Name v = ro_Name r)) (map_to_list (db_roles d)).*2
  then Err ErrConstraint
  else Ok (set_roles (<[ro_ID r := mkRole (ro_ID r) (ro_Name r) (ro_Description r) (ro_IsBuiltin r)
                                     (ro_Permissions r) now now]>) d).
Definition GetRole (id : string) (d : db) : result store_err Role :=
  match db_roles d !! id with Some r => Ok r | None => Err ErrNotFound end.
Definition UpdateRole (id : string) (description : option string) (permissions : option (list string))
    (now : Z) : db -> db :=
  set_roles (alter (fun r =>
    match description, permissions with
    | None, None => r
    | _, _ => mkRole (ro_ID r) (ro_Name r) (default (ro_Description r) description) (ro_IsBuiltin r)
                (default (ro_Permissions r) permissions) (ro_CreatedAt r) now
    end) id).
(** The foreign keys of the bindings and of the group mappings cascade; the
    default role of a provider is set to NULL. *)
Definition clear_default_role (id : string) (p : AuthProvider) : AuthProvider :=
  if bool_decide (ap_DefaultRoleID p = id) then
    mkProvider (ap_ID p) (ap_Name p) (ap_Kind p) (ap_Enabled p) "" (ap_LDAPHost p) (ap_LDAPPort p) (ap_LDAPTLS p)
      (ap_LDAPSkipVerify p) (ap_LDAPBindDN p) (ap_LDAPBindPWEnc p) (ap_LDAPBaseDN p) (ap_LDAPUserFilter p)
      (ap_LDAPAttrUsername p) (ap_LDAPAttrEmail p) (ap_LDAPAttrDisplay p) (ap_LDAPGroupBaseDN p) (ap_LDAPGroupFilter p)
      (ap_LDAPAttrMember p) (ap_OIDCIssuer p) (ap_OIDCClientID p) (ap_OIDCClientSecretEnc p) (ap_OIDCRedirectURL p)
      (ap_OIDCScopes p) (ap_OIDCGroupsClaim p) (ap_OIDCUsernameClaim p) (ap_OIDCEmailClaim p) (ap_CreatedAt p) (ap_UpdatedAt p)
  else p.
Definition sso_drop_role (id : string) (t : sso_tables) : sso_tables :=
  mkSSO (clear_default_role id <$> so_providers t) (delete_where (fun m => bool_decide (gm_RoleID m = id)) (so_mappings t))
    (so_states t).
Definition DeleteRole (id : string) (d : db) : result store_err db :=
  match db_roles d !! id with
  | None => Err ErrNotFound
  | Some _ => Ok (set_sso (sso_drop_role id)
                    (set_bindings (delete_where (fun b => bool_decide (bi_RoleID b = id)))
                      (set_roles (delete id) d)))
  end.

(** ** bindings.go *)

(** UNIQUE(user_id, role_id, scope_type, scope_id): SQLite holds two NULL scope
    ids distinct. *)
Definition binding_clash (a b : Binding) : bool :=
  bool_decide (bi_UserID a = bi_UserID b) && bool_decide (bi_RoleID a = bi_RoleID b)
  && bool_decide (bi_ScopeType a = bi_ScopeType b)
  && match bi_ScopeID a, bi_ScopeID b with
     | Some x, Some y => bool_decide (x = y)
     | _, _ => false
     end.
Definition CreateBinding (b : Binding) (d : db) : result store_err db :=
  if bool_decide (is_Some (db_bindings d !! bi_ID b))
     || negb (bool_decide (is_Some (db_users d !! bi_UserID b)))
     || negb (bool_decide (is_Some (db_roles d !! bi_RoleID b)))
     || existsb (binding_clash b) (map_to_list (db_bindings d)).*2
  then Err ErrConstraint
  else Ok (set_bindings (<[bi_ID b := b]>) d).
Definition DeleteBinding (userID bindingID : string) (d : db) : result store_err db :=
  match db_bindings d !! bindingID with
  | Some b => if bool_decide (bi_UserID b = userID) then Ok (set_bindings (delete bindingID) d)
              else Err ErrNotFound
  | None => Err ErrNotFound
  end.

(** The join of a user's bindings with the roles they name. *)
Definition EffectiveRolesForUser (userID : string) (d : db) : list EffectiveRole :=
  omap (fun b =>
    r ← db_roles d !! bi_RoleID b;
    Some (mkEffectiveRole (bi_RoleID b) (ro_Name r) (ro_Permissions r) (bi_ScopeType b)
            (default "" (bi_ScopeID b))))
    (select_where (fun b => bool_decide (bi_UserID b = userID)) (db_bindings d)).

Definition global_binding (roleID : string) (b : Binding) : bool :=
  bool_decide (bi_RoleID b = roleID) && bool_decide (bi_ScopeType b = "global").
Definition CountAdminBindings (adminRoleID : string) (d : db) : Z :=
  Z.of_nat (length (select_where (global_binding adminRoleID) (db_bindings d))).
Definition UserHasGlobalRole (userID roleID : string) (d : db) : bool :=
  0 <? Z.of_nat (length (select_where (fun b => bool_decide (bi_UserID b = userID)
                                               && global_binding roleID b) (db_bindings d))).

(** ** sessions.go *)

Definition ss_set (amr : string) (seen expires : Z) (revoked : option Z) (s : Session) : Session :=
  mkSession (ss_ID s) (ss_UserID s) (ss_CSRFToken s) (ss_UserAgent s) (ss_IP s) amr
    (ss_CreatedAt s) seen expires revoked.
Definition CreateSession (s : Session) (d : db) : result store_err db :=
  if bool_decide (is_Some (db_sessions d !! ss_ID s))
     || negb (bool_decide (is_Some (db_users d !! ss_UserID s)))
  then Err ErrConstraint else Ok (set_sessions (<[ss_ID s := s]>) d).
Definition GetSession (hashedID : string) (d : db) : result store_err Session :=
  match db_sessions d !! hashedID with Some s => Ok s | None => Err ErrNotFound end.
Definition TouchSession (hashedID : string) (newExpiry now : Z) : db -> db :=
  set_sessions (alter (fun s => ss_set (ss_AMR s) now newExpiry (ss_RevokedAt s) s) hashedID).
Definition UpgradeSessionAMR (hashedID amr : string) : db -> db :=
  set_sessions (alter (fun s => ss_set amr (ss_LastSeenAt s) (ss_ExpiresAt s) (ss_RevokedAt s) s) hashedID).
Definition revoke (now : Z) (s : Session) : Session :=
  match ss_RevokedAt s with
  | None => ss_set (ss_AMR s) (ss_LastSeenAt s) (ss_ExpiresAt s) (Some now) s
  | Some _ => s
  end.
Definition RevokeSession (hashedID : string) (now : Z) : db -> db :=
  set_sessions (alter (revoke now) hashedID).
Definition RevokeAllUserSessions (userID : string) (now : Z) : db -> db :=
  set_sessions (update_where (fun s => bool_decide (ss_UserID s = userID)) (revoke now)).
Definition RevokeOtherUserSessions (userID keep : string) (now : Z) : db -> db :=
  set_sessions (update_where (fun s => bool_decide (ss_UserID s = userID)
                                       && negb (bool_decide (ss_ID s = keep))) (revoke now)).
Definition DeleteExpiredSessions (now : Z) : db -> db :=
  set_sessions (delete_where (fun s => ss_ExpiresAt s <? now)).

(** ** api_tokens.go *)

Definition CreateAPIToken (t : APIToken) (d : db) : result store_err db :=
  if bool_decide (is_Some (db_tokens d !! tk_ID t))
     || negb (bool_decide (is_Some (db_users d !! tk_UserID t)))
     || existsb (fun v => bool_decide (tk_TokenHash v = tk_TokenHash t)) (map_to_list (db_tokens d)).*2
  then Err ErrConstraint
  else Ok (set_tokens (<[tk_ID t := mkToken (tk_ID t) (tk_Name t) (tk_UserID t) (tk_TokenHash t)
                                      (tk_Permissions t) (tk_ExpiresAt t) None None (tk_CreatedAt t)]>) d).
Definition token_live (now : Z) (t : APIToken) : bool :=
  bool_decide (tk_RevokedAt t = None)
  && match tk_ExpiresAt t with None => true | Some e => now <? e end.
Definition GetAPITokenByHash (hash : string) (now : Z) (d : db) : result store_err APIToken :=
  match select_where (fun t => bool_decide (tk_TokenHash t = hash) && token_live now t) (db_tokens d) with
  | t :: _ => Ok t
  | [] => Err ErrNotFound
  end.
Definition TouchAPIToken (id : string) (now : Z) : db -> db :=
  set_tokens (alter (fun t => mkToken (tk_ID t) (tk_Name t) (tk_UserID t) (tk_TokenHash t)
    (tk_Permissions t) (tk_ExpiresAt t) (Some now) (tk_RevokedAt t) (tk_CreatedAt t)) id).
Definition RevokeAPIToken (id userID : string) (now : Z) (d : db) : result store_err db :=
  match db_tokens d !! id with
  | Some t =>
      if bool_decide (tk_UserID t = userID) && bool_decide (tk_RevokedAt t = None)
      then Ok (set_tokens (<[id := mkToken (tk_ID t) (tk_Name t) (tk_UserID t) (tk_TokenHash t)
                 (tk_Permissions t) (tk_ExpiresAt t) (tk_LastUsedAt t) (Some now) (tk_CreatedAt t)]>) d)
      else Err ErrNotFound
  | None => Err ErrNotFound
  end.

(** ** recovery.go *)

(** [None]: the panic on lists of different lengths. *)
Definition ReplaceRecoveryCodes (userID : string) (ids hashes : list string) (now : Z) (d : db)
  : option db :=
  if bool_decide (length ids = length hashes) then
    let kept := delete_where (fun c => bool_decide (rc_UserID c = userID)) (db_recovery d) in
    Some (set_recovery (fun _ =>
      foldl (fun t c => <[c.1 := mkRecoveryCode c.1 userID c.2 None now]> t) kept (zip ids hashes)) d)
  else None.
Definition ListUnusedRecoveryCodes (userID : string) (d : db) : list RecoveryCode :=
  select_where (fun c => bool_decide (rc_UserID c = userID) && bool_decide (rc_UsedAt c = None))
    (db_recovery d).
Definition ConsumeRecoveryCode (id : string) (now : Z) (d : db) : result store_err db :=
  match db_recovery d !! id with
  | Some c =>
      if bool_decide (rc_UsedAt c = None)
      then Ok (set_recovery (<[id := mkRecoveryCode (rc_ID c) (rc_UserID c) (rc_CodeHash c) (Some now)
                                       (rc_CreatedAt c)]>) d)
      else Err ErrNotFound
  | None => Err ErrNotFound
  end.

(** ** audit.go: append-only *)

Definition InsertAudit (e : AuditEntry) : db -> db := set_audit (fun l => l ++ [e]).

(** ** bootstrap.go: one transaction *)

Definition BootstrapFirstAdmin (userID username email hash bindingID : string) (now : Z) (d : db)
  : result store_err db :=
  if BootstrapCompleted d then Err ErrBootstrapAlreadyDone
  else if 0 <? CountUsers d then Err ErrBootstrapAlreadyDone
  else
    let u := mkUser userID username email hash "" false None true false 0 None None "local" "" "" now now in
    match CreateBinding (mkBinding bindingID userID RoleIDAdmin "global" None now)
            (set_users (<[userID := u]>) d) with
    | Ok d => Ok (SetSetting SettingBootstrapCompleted "true" d)
    | Err e => Err e
    end.
