(* ===== verification/Rbac.v ===== *)
(** * Permissions: matching, effective grants, token scoping, the destructive guard

    server/internal/authz/rbac.go, context.go, guard.go, the permission part of
    bearer.go, and server/internal/api/permissions.go.  The set a Go map is used
    as is a [gset]; the two-level map of grants a [gmap] of sets. *)
From S2P Require Import Prelude GoStd AuthStore.

(** ** context.go *)

Record Scope := mkScope { sc_Type : string; sc_ID : string }.

Abbreviation grants := (gmap string (gset string)) (only parsing).

(** [User]: the stored user, its session and its grants by scope key. *)
Record User := mkPrincipal {
  pr_User : StoreUser; pr_SessionHashID : string; pr_AMR : string;
  pr_perms : grants; pr_roles : list EffectiveRole }.

(** Global scope keys to the empty string. *)
Definition scopeKey (typ id : string) : string :=
  if bool_decide (typ = "") || bool_decide (typ = "global") then "" else typ +:+ ":" +:+ id.

Definition add_role (m : grants) (r : EffectiveRole) : grants :=
  let key := scopeKey (er_ScopeType r) (er_ScopeID r) in
  <[key := default ∅ (m !! key) ∪ list_to_set (er_Permissions r)]> m.

Definition buildUser (su : StoreUser) (sessHashID amr : string) (roles : list EffectiveRole) : User :=
  mkPrincipal su sessHashID amr (foldl add_role ∅ roles) roles.

Definition HasGlobalSuperuser (u : User) : bool :=
  match pr_perms u !! "" with Some g => bool_decide ("*" ∈ g) | None => false end.

(** The flattened set; Go lists it in the order of the map. *)
Definition AllPermissions (u : User) : gset string := ⋃ (map_to_list (pr_perms u)).*2.

(** ** rbac.go *)

(** The wildcards tried for a permission: a.b.c gives a.b.* then a.*. *)
Definition wildcards (perm : string) : list string :=
  let parts := split_on "." perm in
  (fun i => join "." (take i parts) +:+ ".*") <$> rev (seq 1 (length parts - 1)).

Definition permSetGrants (set : gset string) (perm : string) : bool :=
  bool_decide ("*" ∈ set) || bool_decide (perm ∈ set)
  || existsb (fun w => bool_decide (w ∈ set)) (wildcards perm).

(** The keys a scope is looked up under. *)
Definition scope_keys (s : Scope) : list string :=
  let k := scopeKey (sc_Type s) (sc_ID s) in if bool_decide (k = "") then [""] else [""; k].

(** [None] is the nil user. *)
Definition Can (u : option User) (perm : string) (s : Scope) : bool :=
  match u with
  | None => false
  | Some u => existsb (fun key => match pr_perms u !! key with
                                  | Some set => permSetGrants set perm
                                  | None => false
                                  end) (scope_keys s)
  end.

Definition GlobalScope : Scope := mkScope "global" "".

(** ** bearer.go: scoping a token *)

(** What is kept of the owner's set in one scope: the token's own permissions
    when the owner holds everything, and the grants a token permission covers. *)
Definition restrict_set (tokenSet set : gset string) : gset string :=
  (if bool_decide ("*" ∈ set) then tokenSet else ∅)
  ∪ filter (fun p => p <> "*" /\ permSetGrants tokenSet p = true) set.

Definition restrictPerms (ownerPerms : grants) (tokenAllowed : list string) : grants :=
  let tokenSet : gset string := list_to_set tokenAllowed in
  if bool_decide ("*" ∈ tokenSet) then ownerPerms
  else filter (fun kv => kv.2 <> ∅) (restrict_set tokenSet <$> ownerPerms).

(** The principal a token stands for. *)
Definition token_user (su : StoreUser) (roles : list EffectiveRole) (allowed : list string) : User :=
  mkPrincipal su "" (u_AuthSource su)
    (restrictPerms (pr_perms (buildUser su "" (u_AuthSource su) roles)) allowed) roles.

(** ** api/permissions.go *)

Definition permissionCatalog : list string := [
  "*"; "docker.container.read"; "docker.container.start"; "docker.container.stop";
  "docker.container.restart"; "docker.container.pause"; "docker.container.unpause";
  "docker.container.remove"; "docker.container.logs"; "docker.container.stats";
  "docker.container.exec"; "docker.container.create"; "docker.container.inspect.secrets";
  "docker.image.read"; "docker.image.pull"; "docker.image.delete"; "docker.network.read";
  "docker.network.delete"; "docker.volume.read"; "docker.volume.remove"; "docker.volume.backup";
  "docker.volume.restore"; "swarm.service.read"; "swarm.task.read"; "swarm.node.read";
  "swarm.service.create"; "swarm.service.scale"; "swarm.service.update"; "swarm.service.remove";
  "swarm.node.update"; "swarm.secret.read"; "swarm.secret.write"; "swarm.config.read";
  "swarm.config.write"; "k8s.pod.read"; "k8s.deployment.read"; "k8s.node.read";
  "k8s.deployment.scale"; "k8s.deployment.restart"; "k8s.deployment.resources";
  "k8s.workload.delete"; "k8s.manifest.apply"; "k8s.hpa.read"; "k8s.hpa.write";
  "k8s.namespace.read"; "k8s.namespace.write"; "k8s.service.read"; "k8s.config.read";
  "k8s.ingress.read"; "k8s.ingress.write"; "k8s.metrics.read"; "k8s.storage.read";
  "k8s.storage.write"; "helm.repo.read"; "helm.repo.write"; "helm.release.read";
  "helm.release.install"; "helm.release.upgrade"; "helm.release.rollback";
  "helm.release.uninstall"; "rbac.user.create"; "rbac.user.read"; "rbac.user.update";
  "rbac.user.delete"; "rbac.role.create"; "rbac.role.read"; "rbac.role.update";
  "rbac.role.delete"; "rbac.binding.create"; "rbac.binding.delete"; "vm.read";
  "vm.cluster.read"; "vm.storage.read"; "vm.network.read"; "vm.metrics.read"; "inventory.read";
  "vm.power"; "vm.snapshot"; "vm.reconfigure"; "vm.clone"; "vm.migrate"; "vm.export";
  "vm.create"; "vm.delete"; "vm.host.maintenance"; "vm.console"; "vm.network.write";
  "vm.storage.read"; "vm.storage.write"; "vm.hotplug"; "vm.disk.resize"; "vm.resource";
  "vm.disk.qos"; "vm.storage.migrate"; "vm.template"; "v2v.read"; "v2v.migrate";
  "replication.read"; "replication.write"; "storage.backend.read"; "storage.backend.write";
  "vm.backup"; "vm.backup.restore"; "finops.read"; "insights.read"; "alarms.read";
  "alarms.write"; "audit.read"; "settings.read"; "settings.update"; "marketplace.registry.read";
  "marketplace.registry.write"; "marketplace.catalog.read"; "marketplace.catalog.write";
  "marketplace.template.create"; "marketplace.template.update"; "marketplace.template.delete";
  "auth.provider.read"; "auth.provider.write" ].

Definition hasDotPrefix (s prefix : string) : bool := has_prefix s (prefix +:+ ".").

(** [p] without its last two bytes, when they are dot and star. *)
Definition wildcard_prefix (p : string) : option string :=
  let n := (String.length p - 2)%nat in
  if bool_decide (2 < String.length p)%nat && bool_decide (string_drop n p = ".*")
  then Some (String.substring 0 n p) else None.

Definition isWildcardPermission (p : string) : bool :=
  match wildcard_prefix p with
  | None => false
  | Some prefix => existsb (fun known => bool_decide (known = prefix) || hasDotPrefix known prefix)
                     permissionCatalog
  end.

(** The first unknown permission, when there is one. *)
Fixpoint validatePermissions (perms : list string) : option string :=
  match perms with
  | [] => None
  | p :: ps =>
      if bool_decide (p ∈ permissionCatalog) || isWildcardPermission p
      then validatePermissions ps else Some p
  end.

(** ** guard.go *)

Record ContainerRef := mkRef {
  ref_ID : string; ref_Name : string; ref_Labels : gmap string string; ref_Protected : bool;
  ref_Kind : string; ref_IsDataVolume : bool }.

Record Guard := mkGuard { g_selfContainerID : string; g_selfResolved : bool }.

Definition isSelf (g : Guard) (ref : ContainerRef) : bool :=
  if ref_IsDataVolume ref then true
  else if negb (bool_decide (ref_Kind ref = "container")) then false
  else if bool_decide (g_selfContainerID g = "") then false
  else
    let a := ref_ID ref in let b := g_selfContainerID g in
    if bool_decide (a = b) then true
    else if bool_decide (12 <= String.length a)%nat && bool_decide (12 <= String.length b)%nat
         then has_prefix a b || has_prefix b a
         else false.

Section Protection.
(** The decoding of a JSON list of strings (encoding/json). *)
Context (parse_labels : string -> option (list string)).

Definition protectedLabels (d : db) : list string :=
  match parse_labels (GetSettingDefault SettingProtectedLabels
                        ("[" +:+ quote "io.castor.protected" +:+ "]") d) with
  | Some (l :: ls) => l :: ls
  | _ => ["io.castor.protected"]
  end.

Definition hasProtectedLabel (d : db) (ref : ContainerRef) : bool :=
  existsb (fun key => match ref_Labels ref !! key with
                      | Some v => equal_fold (trim_space v) "true"
                      | None => false
                      end) (protectedLabels d).

(** The verdict: allowed, allowed as an administrator's override (recorded with
    its reason), or denied, with what is recorded and the message. *)
Inductive verdict :=
| Allowed
| Override (reason : string)
| Denied (protected message : string).

Definition GuardDestructive (g : Guard) (d : db) (ref : ContainerRef) (actor : option User)
    (confirm : bool) (reason : string) : verdict :=
  if bool_decide (ref_Kind ref = "container") && negb (g_selfResolved g) then
    Denied "self_unresolved"
      "Refusing destructive action: Castor cannot positively identify its own container."
  else if isSelf g ref then
    Denied "self" "This is Castor's own resource and is permanently protected."
  else if hasProtectedLabel d ref || ref_Protected ref then
    if match actor with None => true | Some u => negb (HasGlobalSuperuser u) end then
      Denied "label" "This resource is marked protected. Only an administrator may modify it."
    else if negb confirm || bool_decide (trim_space reason = "") then
      Denied "label_admin_unconfirmed"
        "This resource is protected. Provide confirm=true and a reason to override."
    else Override reason
  else Allowed.
End Protection.
