(* ===== verification/Redact.v ===== *)
(** * Redaction of audit details

    server/internal/authz/redact.go over Go's [any]: the two container types
    [Redact] looks into, and everything else. *)
From S2P Require Import Prelude GoStd.

(** [AMap] is a [map[string]any] (distinct keys), [ASlice] an [[]any]; [AOther]
    any other value, given by what [encoding/json] makes of it. *)
Inductive any : Type :=
| AMap (m : list (string * any))
| ASlice (l : list any)
| AOther (v : json).

Definition redactSentinel := "[REDACTED]".

Definition secretKeyHints : list string :=
  ["password"; "passwd"; "secret"; "token"; "authorization"; "auth"; "apikey"; "api_key";
   "accesskey"; "access_key"; "privatekey"; "private_key"; "credential"; "session"; "cookie"; "_key"].

Definition IsSecretKey (key : string) : bool :=
  existsb (fun hint => contains (to_lower key) hint) secretKeyHints.

Fixpoint Redact (v : any) : any :=
  match v with
  | AMap m =>
      AMap ((fix go m :=
        match m with
        | [] => []
        | (k, val) :: m =>
            (k, if IsSecretKey k then AOther (JString redactSentinel) else Redact val) :: go m
        end) m)
  | ASlice l =>
      ASlice ((fix go l := match l with [] => [] | x :: l => Redact x :: go l end) l)
  | AOther v => AOther v
  end.

Definition RedactMap (m : list (string * any)) : list (string * any) :=
  match Redact (AMap m) with AMap m => m | _ => [] end.

(** [json.Marshal]. *)
Fixpoint to_json (v : any) : json :=
  match v with
  | AMap m => JObj ((fix go m := match m with [] => [] | (k, x) :: m => (k, to_json x) :: go m end) m)
  | ASlice l => JList ((fix go l := match l with [] => [] | x :: l => to_json x :: go l end) l)
  | AOther v => v
  end.

(** [m[k] = v]. *)
Fixpoint any_set (k : string) (v : any) (m : list (string * any)) : list (string * any) :=
  match m with
  | [] => [(k, v)]
  | (k', v') :: m => if bool_decide (k = k') then (k, v) :: m else (k', v') :: any_set k v m
  end.

(** ** What redaction does to a value *)

(** A position in a value: the keys and indices that lead to it. *)
Inductive sel := Key (k : string) | Idx (n : nat).

Fixpoint assoc (k : string) (m : list (string * any)) : option any :=
  match m with
  | [] => None
  | (k', v) :: m => if bool_decide (k = k') then Some v else assoc k m
  end.

Definition child (s : sel) (v : any) : option any :=
  match s, v with
  | Key k, AMap m => assoc k m
  | Idx n, ASlice l => l !! n
  | _, _ => None
  end.

Fixpoint at_path (p : list sel) (v : any) : option any :=
  match p with
  | [] => Some v
  | s :: p => v' ← child s v; at_path p v'
  end.

Definition secret_sel (s : sel) : bool := match s with Key k => IsSecretKey k | Idx _ => false end.

(** What is found at a position of a redacted value. *)
Fixpoint redacted_at (p : list sel) (v : any) : option any :=
  match p with
  | [] => Some (Redact v)
  | s :: p =>
      v' ← child s v;
      if secret_sel s then at_path p (AOther (JString redactSentinel)) else redacted_at p v'
  end.

Lemma redact_map m :
  Redact (AMap m) = AMap ((fun kv => (kv.1, if IsSecretKey kv.1 then AOther (JString redactSentinel)
                                           else Redact kv.2)) <$> m).
Proof. simpl. f_equal. induction m as [|[k v] m IH]; [done|]. by rewrite fmap_cons, <- IH. Qed.

Lemma redact_slice l : Redact (ASlice l) = ASlice (Redact <$> l).
Proof. reflexivity. Qed.

Lemma child_redact s v :
  child s (Redact v) =
    (fun c => if secret_sel s then AOther (JString redactSentinel) else Redact c) <$> child s v.
Proof.
  destruct v as [m|l|o]; [rewrite redact_map|rewrite redact_slice|]; destruct s as [k|n]; simpl; try done.
  - induction m as [|[k' v] m IH]; simpl; [done|].
    by case_bool_decide; simplify_eq.
  - by rewrite list_lookup_fmap.
Qed.

Lemma at_path_redact p v : at_path p (Redact v) = redacted_at p v.
Proof.
  revert v. induction p as [|s p IH]; intros v; simpl; [done|].
  rewrite child_redact. destruct (child s v) as [c|]; simpl; [|done].
  destruct (secret_sel s); [done|apply IH].
Qed.

(** Induction on values, through both containers. *)
Section AnyInd.
Context (P : any -> Prop) (Hm : forall m, Forall (fun kv => P kv.2) m -> P (AMap m))
  (Hl : forall l, Forall P l -> P (ASlice l)) (Ho : forall o, P (AOther o)).
Fixpoint any_nested_ind (v : any) : P v :=
  match v with
  | AMap m => Hm m ((fix go m : Forall (fun kv => P kv.2) m :=
      match m with
      | [] => Forall_nil_2 _
      | kv :: m => Forall_cons_2 _ kv m (any_nested_ind kv.2) (go m)
      end) m)
  | ASlice l => Hl l ((fix go l : Forall P l :=
      match l with [] => Forall_nil_2 _ | x :: l => Forall_cons_2 _ x l (any_nested_ind x) (go l) end) l)
  | AOther o => Ho o
  end.
End AnyInd.

Lemma redact_idemp v : Redact (Redact v) = Redact v.
Proof.
  induction v as [m IH|l IH|o] using any_nested_ind; [rewrite !redact_map|rewrite !redact_slice|done].
  - f_equal. rewrite <- list_fmap_compose. apply list_fmap_ext. intros i [k x] Hx. simpl.
    destruct (IsSecretKey k) eqn:E; [done|]. f_equal. rewrite Forall_lookup in IH. apply (IH i _ Hx).
  - f_equal. rewrite <- list_fmap_compose. apply list_fmap_ext. intros i x Hx.
    rewrite Forall_lookup in IH. apply (IH i _ Hx).
Qed.
