(* ===== verification/RbacProps.v ===== *)
(** * What permissions mean, and that a token never exceeds its owner

    The wildcard walk is shown equal to a plain relation between a grant and a
    permission, [covers]; everything else is stated with it. *)
From S2P Require Import Prelude GoStd AuthStore Rbac Redact.

(** A grant covers a permission: everything, itself, or by a dotted prefix. *)
Definition covers (g p : string) : Prop :=
  g = "*" \/ g = p \/ exists q rest, g = q +:+ ".*" /\ p = q +:+ "." +:+ rest.

(** ** Splitting at dots *)

Lemma wildcards_spec w p :
  w ∈ wildcards p <-> exists q rest, w = q +:+ ".*" /\ p = q +:+ "." +:+ rest.
Proof.
  unfold wildcards. rewrite list_elem_of_fmap. split.
  - intros (i & -> & Hi). apply list_elem_of_In, in_rev, in_seq in Hi.
    exists (join "." (take i (split_on "." p))), (join "." (drop i (split_on "." p))). split; [done|].
    rewrite <- join_app, take_drop, join_split; [done| |].
    + intros E%(f_equal length). rewrite length_take in E. simpl in E. lia.
    + intros E%(f_equal length). rewrite length_drop in E. simpl in E. lia.
  - intros (q & rest & -> & ->). change ("." +:+ rest) with (String "." rest).
    rewrite split_on_app. exists (length (split_on "." q)). split.
    + by rewrite take_app_length, join_split.
    + apply list_elem_of_In. rewrite <- in_rev. apply in_seq. rewrite length_app.
      pose proof (split_on_nonempty "." q). pose proof (split_on_nonempty "." rest).
      destruct (split_on "." q), (split_on "." rest); simpl; done || lia.
Qed.

Lemma permSetGrants_spec set p :
  permSetGrants set p = true <-> exists g, g ∈ set /\ covers g p.
Proof.
  unfold permSetGrants, covers. rewrite !orb_true_iff, !bool_decide_eq_true, existsb_exists.
  split.
  - intros [[H|H]|(w & Hw & Hs)]; [by exists "*"; auto|by exists p; auto|].
    rewrite bool_decide_eq_true in Hs. exists w. split; [done|]. right; right.
    by apply wildcards_spec, list_elem_of_In.
  - intros (g & Hg & [->|[->|Hw]]); [by left; left|by left; right|right].
    exists g. rewrite bool_decide_eq_true. split; [|done]. by apply list_elem_of_In, wildcards_spec.
Qed.

(** ** Grants by scope *)

Definition grant_at (m : gmap string (gset string)) (k g : string) : Prop :=
  exists s, m !! k = Some s /\ g ∈ s.

Definition role_key (r : EffectiveRole) : string := scopeKey (er_ScopeType r) (er_ScopeID r).

Lemma add_role_grant m r k g :
  grant_at (add_role m r) k g <-> grant_at m k g \/ (k = role_key r /\ g ∈ er_Permissions r).
Proof.
  unfold grant_at, add_role. fold (role_key r). destruct (decide (k = role_key r)) as [->|Hne].
  - rewrite lookup_insert_eq. split.
    + intros (s & [= <-] & Hg). apply elem_of_union in Hg as [Hg|Hg].
      * left. destruct (m !! role_key r); simpl in Hg; [by eexists|set_solver].
      * right. split; [done|set_solver].
    + intros [(s & Hs & Hg)|[_ Hg]]; (eexists; split; [done|]); [rewrite Hs; set_solver|set_solver].
  - rewrite lookup_insert_ne by done. naive_solver.
Qed.

Lemma add_roles_grant roles m k g :
  grant_at (foldl add_role m roles) k g <->
  grant_at m k g \/ exists r, r ∈ roles /\ k = role_key r /\ g ∈ er_Permissions r.
Proof.
  revert m. induction roles as [|r roles IH]; intros m; simpl; [set_solver|].
  rewrite IH, add_role_grant. set_solver.
Qed.

Lemma buildUser_grant su h amr roles k g :
  grant_at (pr_perms (buildUser su h amr roles)) k g <->
  exists r, r ∈ roles /\ k = role_key r /\ g ∈ er_Permissions r.
Proof.
  simpl. rewrite add_roles_grant. split; [|by right].
  intros [(s & Hs & _)|H]; [by rewrite lookup_empty in Hs|done].
Qed.

Lemma elem_of_scope_keys k s :
  k ∈ scope_keys s <-> k = "" \/ k = scopeKey (sc_Type s) (sc_ID s).
Proof. unfold scope_keys. case_bool_decide as E; [rewrite E|]; set_solver. Qed.

Lemma Can_spec u p s :
  Can (Some u) p s = true <->
  exists k g, (k = "" \/ k = scopeKey (sc_Type s) (sc_ID s)) /\ grant_at (pr_perms u) k g /\ covers g p.
Proof.
  simpl. rewrite existsb_exists. unfold grant_at. split.
  - intros (k & Hk & Hs). destruct (pr_perms u !! k) as [set|] eqn:E; [|done].
    apply permSetGrants_spec in Hs as (g & Hg & Hc). exists k, g.
    rewrite <- elem_of_scope_keys, list_elem_of_In. eauto.
  - intros (k & g & Hk & (set & E & Hg) & Hc). exists k.
    rewrite <- list_elem_of_In, elem_of_scope_keys, E, permSetGrants_spec. eauto.
Qed.

(** ** Covering is transitive *)

Lemma dot_star_inv q r rest :
  r +:+ ".*" = q +:+ "." +:+ rest -> q = r \/ exists r', r = q +:+ "." +:+ r'.
Proof.
  revert q. induction r as [|c r IH]; intros q H; destruct q as [|d q]; simpl in H.
  - by left.
  - unfold String.append in H. simpl in H. injection H as <- H.
    destruct q as [|e q]; [done|]. simpl in H. injection H as _ H. by destruct q.
  - unfold String.append in H. simpl in H. injection H as -> H. right. by exists r.
  - unfold String.append in *. simpl in *. injection H as -> H.
    destruct (IH q H) as [->|[r' ->]]; [by left|right]. by exists r'.
Qed.

Lemma star_inv q rest : "*" <> q +:+ "." +:+ rest.
Proof. destruct q as [|c [|d q]]; simpl; try done. all: intros H; injection H; done. Qed.

Lemma covers_trans a b c : covers a b -> covers b c -> covers a c.
Proof.
  intros [->|[->|(q & x & -> & ->)]]; [by left|done|].
  intros [H|[<-|(r & y & H & ->)]].
  - by destruct (star_inv q x).
  - right; right. by exists q, x.
  - right; right. exists q. symmetry in H. apply dot_star_inv in H as [->|[r' ->]].
    + by exists y.
    + exists (r' +:+ "." +:+ y). by rewrite !string_app_assoc.
Qed.

Lemma covers_refl p : covers p p.
Proof. right. by left. Qed.

Lemma covers_star p : covers "*" p.
Proof. by left. Qed.

(** ** Scoping a token *)

Lemma restrict_set_spec (tok set : gset string) g :
  g ∈ restrict_set tok set <->
  (g ∈ tok /\ "*" ∈ set) \/ (g ∈ set /\ g <> "*" /\ exists t, t ∈ tok /\ covers t g).
Proof.
  unfold restrict_set. rewrite elem_of_union, elem_of_filter, permSetGrants_spec.
  case_bool_decide; set_solver.
Qed.

Lemma restrict_grant m allowed k g :
  grant_at (restrictPerms m allowed) k g <->
  if bool_decide ("*" ∈ allowed) then grant_at m k g
  else (g ∈ allowed /\ grant_at m k "*")
       \/ (grant_at m k g /\ g <> "*" /\ exists t, t ∈ allowed /\ covers t g).
Proof.
  unfold restrictPerms, grant_at.
  rewrite (bool_decide_ext ("*" ∈ list_to_set allowed) ("*" ∈ allowed)) by set_solver.
  case_bool_decide as Hstar; [done|]. split.
  - intros (s & [Hs _]%map_lookup_filter_Some & Hg). rewrite lookup_fmap in Hs.
    apply fmap_Some in Hs as (set & E & ->). apply restrict_set_spec in Hg. set_solver.
  - intros H.
    assert (exists set, m !! k = Some set /\ g ∈ restrict_set (list_to_set allowed) set)
      as (set & E & Hg).
    { destruct H as [(Hg & set & E & Hs)|((set & E & Hs) & Hne & t & Ht & Hc)];
        exists set; (split; [done|]); apply restrict_set_spec; [left; set_solver|right]. set_solver. }
    exists (restrict_set (list_to_set allowed) set). split; [|done].
    apply map_lookup_filter_Some. rewrite lookup_fmap, E. split; [done|]. set_solver.
Qed.

(** A grant of the form q.*: it covers more than itself, but not everything. *)
Definition is_wildcard (g : string) : Prop := exists q, g = q +:+ ".*".

Lemma covers_plain g p : covers g p -> g <> "*" -> ~ is_wildcard g -> g = p.
Proof. intros [->|[->|(q & x & -> & _)]] Hs Hw; [done|done|]. by destruct Hw; exists q. Qed.

(** A token is bounded by its owner and by its own scopes: whatever it may do,
    its owner may do and one of its scopes covers.  The converse, the
    intersection, holds when every wildcard grant of the owner other than the
    full one is itself covered by a scope of the token; a wildcard grant that no
    scope covers as a whole is dropped, so when the owner has no other grant the
    token may do nothing at all, even what both the owner and its scopes allow. *)
Theorem token_bounded su roles h amr allowed p s :
  let tok := Can (Some (token_user su roles allowed)) p s in
  let own := Can (Some (buildUser su h amr roles)) p s in
  (tok = true -> own = true /\ exists t, t ∈ allowed /\ covers t p) /\
  (own = true -> (exists t, t ∈ allowed /\ covers t p) ->
     (forall r g, r ∈ roles -> g ∈ er_Permissions r -> is_wildcard g ->
        exists t, t ∈ allowed /\ covers t g) -> tok = true) /\
  ((forall r g, r ∈ roles -> g ∈ er_Permissions r ->
      g <> "*" /\ forall t, t ∈ allowed -> ~ covers t g) -> tok = false).
Proof.
  intros tok own. split; [|split].
  - intros (k & g & Hk & Hg & Hc)%Can_spec. apply restrict_grant in Hg.
    case_bool_decide as Hstar; [|destruct Hg as [[Ha Hg]|(Hg & _ & t & Ht & Htg)]].
    + split; [|exists "*"; split; [done|by left]]. apply Can_spec. by exists k, g.
    + split; [|by exists g]. apply Can_spec. exists k, "*". repeat split; [done|done|by left].
    + split; [|exists t; split; [done|by eapply covers_trans]]. apply Can_spec. by exists k, g.
  - intros (k & g & Hk & Hg & Hc)%Can_spec (t & Ht & Htp) Hw. apply Can_spec.
    pose proof Hg as (r & Hr & -> & Hin)%buildUser_grant.
    assert (forall x, grant_at (restrictPerms (pr_perms (buildUser su h amr roles)) allowed) (role_key r) x ->
      covers x p -> exists k g, (k = "" \/ k = scopeKey (sc_Type s) (sc_ID s)) /\
        grant_at (pr_perms (token_user su roles allowed)) k g /\ covers g p) as Huse
      by (intros x Hx Hxp; by exists (role_key r), x).
    destruct (decide ("*" ∈ allowed)) as [Hstar|Hstar].
    { apply (Huse g); [|done]. apply restrict_grant. by rewrite bool_decide_eq_true_2. }
    destruct (decide (g = "*")) as [->|Hne].
    { apply (Huse t); [|done]. apply restrict_grant. rewrite bool_decide_eq_false_2 by done. by left. }
    apply (Huse g); [|done]. apply restrict_grant. rewrite bool_decide_eq_false_2 by done. right.
    split; [done|split; [done|]]. destruct Hc as [->|[->|(q & x & -> & ->)]]; [done|by exists t|].
    apply (Hw r); [done|done|by exists q].
  - intros Hno. apply not_true_iff_false. intros (k & g & Hk & Hg & Hc)%Can_spec.
    apply restrict_grant in Hg. case_bool_decide as Hstar.
    + apply buildUser_grant in Hg as (r & Hr & -> & Hin). destruct (Hno r g Hr Hin) as [_ Hn].
      apply (Hn "*" Hstar). by left.
    + destruct Hg as [[_ Hg]|(Hg & _ & t & Ht & Htg)];
        apply buildUser_grant in Hg as (r & Hr & -> & Hin); destruct (Hno r _ Hr Hin) as [Hn1 Hn2];
        [done|by apply (Hn2 t)].
Qed.

Lemma token_bounded_witness :
  let u := mkUser "u" "ann" "" "" "" false None true false 0 None None "local" "" "" 0 0 in
  let roles := [mkEffectiveRole "r" "ops" ["vm.*"] "global" ""] in
  Can (Some (buildUser u "" "local" roles)) "vm.power" GlobalScope = true /\
  covers "vm.power" "vm.power" /\
  Can (Some (token_user u roles ["vm.power"])) "vm.power" GlobalScope = false.
Proof.
  intros u roles. split; [reflexivity|split; [apply covers_refl|]].
  apply (token_bounded u roles "" "local" ["vm.power"] "vm.power" GlobalScope).
  intros r g ->%list_elem_of_singleton ->%list_elem_of_singleton. split; [done|].
  intros t ->%list_elem_of_singleton [H|[H|(q & x & H & _)]]; [done..|].
  by destruct q as [|? [|? [|? [|? [|? [|? [|? [|? [|]]]]]]]]].
Defined.

(** ** Effective permissions from the tables *)

Lemma elem_of_select {A} (p : A -> bool) (t : gmap string A) a :
  a ∈ select_where p t <-> p a = true /\ exists k, t !! k = Some a.
Proof.
  unfold select_where. rewrite list_elem_of_filter. f_equiv. rewrite list_elem_of_fmap. split.
  - intros ([k b] & -> & Hin). exists k. by apply elem_of_map_to_list in Hin.
  - intros [k Hk]. exists (k, a). split; [done|]. by apply elem_of_map_to_list.
Qed.

(** What a binding of the user gives in a scope. *)
Definition bound (d : db) (userID g : string) (key : string) : Prop :=
  exists i b r, db_bindings d !! i = Some b /\ bi_UserID b = userID /\
    db_roles d !! bi_RoleID b = Some r /\ g ∈ ro_Permissions r /\
    key = scopeKey (bi_ScopeType b) (default "" (bi_ScopeID b)).

Lemma effective_grant d userID g key :
  (exists r, r ∈ EffectiveRolesForUser userID d /\ key = role_key r /\ g ∈ er_Permissions r) <->
  bound d userID g key.
Proof.
  unfold EffectiveRolesForUser, bound. split.
  - intros (r & (b & Hb & Hr)%list_elem_of_omap & -> & Hg).
    apply elem_of_select in Hb as [Hu [i Hi]]. apply bool_decide_eq_true in Hu.
    destruct (db_roles d !! bi_RoleID b) as [ro|] eqn:E; [|done]. injection Hr as <-.
    by exists i, b, ro.
  - intros (i & b & ro & Hi & Hu & E & Hg & ->).
    exists (mkEffectiveRole (bi_RoleID b) (ro_Name ro) (ro_Permissions ro) (bi_ScopeType b)
              (default "" (bi_ScopeID b))).
    split; [|done]. apply list_elem_of_omap. exists b. split; [|by rewrite E].
    apply elem_of_select. split; [by apply bool_decide_eq_true|by exists i].
Qed.


(** ** Redaction *)

(** Redaction is complete and changes nothing else: at a position whose path
    has a secret key the redacted value holds the sentinel in place of the first
    such key's value (and nothing below it); at any other position it holds the
    redaction of what was there, so every value that is not under a secret key is
    found unchanged; and redacting twice is redacting once. *)
Theorem redact_spec v :
  (forall p q k x, Forall (fun s => secret_sel s = false) p -> IsSecretKey k = true ->
     at_path (p ++ [Key k]) v = Some x ->
     at_path (p ++ Key k :: q) (Redact v) = at_path q (AOther (JString redactSentinel))) /\
  (forall p, Forall (fun s => secret_sel s = false) p -> at_path p (Redact v) = Redact <$> at_path p v) /\
  (forall o, Redact (AOther o) = AOther o) /\ Redact (Redact v) = Redact v.
Proof.
  split; [|split; [|split; [done|]]].
  - intros p q k x Hp Hk. rewrite at_path_redact. revert v. induction Hp as [|s p Hs Hp IH]; intros v Hx.
    + change (at_path [Key k] v) with (c ← child (Key k) v; Some c) in Hx. simpl in Hx |- *.
      rewrite Hk. by destruct v as [m| |]; [destruct (assoc k m)|..].
    + simpl in *. destruct (child s v) as [c|]; [|done]. simpl in *. rewrite Hs. by apply IH.
  - intros p Hp. rewrite at_path_redact. revert v. induction Hp as [|s p Hs Hp IH]; intros v; [done|].
    simpl. destruct (child s v) as [c|]; simpl; [|done]. by rewrite Hs, IH.
  - apply redact_idemp.
Qed.

Lemma redact_spec_witness :
  let v := AMap [("user", AMap [("apiToken", AOther (JString "s3cr3t")); ("name", AOther (JString "ann"))])] in
  at_path [Key "user"; Key "apiToken"] (Redact v) = Some (AOther (JString redactSentinel)) /\
  at_path [Key "user"; Key "name"] (Redact v) = Some (AOther (JString "ann")).
Proof.
  intros v. destruct (redact_spec v) as (H1 & H2 & _). split.
  - apply (H1 [Key "user"] [] "apiToken" (AOther (JString "s3cr3t"))); [|by vm_compute..].
    by repeat constructor.
  - rewrite (H2 [Key "user"; Key "name"]); [by vm_compute|by repeat constructor].
Defined.
