(* ===== verification/Middleware.v ===== *)
(** * Authentication and the middleware chain

    server/internal/authz/errors.go, session.go, audit.go, bearer.go and
    middleware.go, and the wiring of server/internal/api/router.go.  A handler
    maps a request and the server's state to an outcome (a reply, or a panic) and
    a new state; a middleware maps handlers to handlers.  The response writer's
    header map and cookies are part of the state, since they outlive a panic. *)
From S2P Require Import Prelude GoStd AuthStore Rbac Redact.

(** ** errors.go *)

Record APIError := mkErr { e_Status : Z; e_Code : string; e_Message : string }.

Definition ErrBootstrapRequired := mkErr 409 "bootstrap_required" "Castor has not been initialized yet.".
Definition ErrUnauthenticated := mkErr 401 "unauthenticated" "Authentication required.".
Definition ErrAALRequired := mkErr 403 "aal_required" "Two-factor verification required for this action.".
Definition ErrForbidden := mkErr 403 "forbidden" "You do not have permission to perform this action.".
Definition ErrCSRFFailed := mkErr 403 "csrf_failed" "CSRF validation failed.".
Definition ErrAPINotFound := mkErr 404 "not_found" "The requested resource was not found.".
Definition ErrConflict := mkErr 409 "conflict" "The request conflicts with the current state.".
Definition ErrValidation := mkErr 422 "validation_failed" "The request payload is invalid.".
Definition ErrInternal := mkErr 500 "internal" "An internal error occurred.".
Definition ErrAccountLocked :=
  mkErr 403 "account_locked" "This account is temporarily locked. Try again later.".

Definition Errorf (base : APIError) (msg : string) : APIError := mkErr (e_Status base) (e_Code base) msg.

Definition MapStoreError (e : store_err) : APIError :=
  match e with ErrNotFound => ErrAPINotFound | _ => ErrInternal end.

(** ** Requests, replies and the server's state *)

(** A request: what the client sent, and the context values the middlewares add
    ([rq_Audited]: an audit record is attached). *)
Record request := mkReq {
  rq_Method : string; rq_Path : string; rq_Host : string; rq_RemoteAddr : string; rq_TLS : bool;
  rq_Headers : gmap string string; rq_Cookies : list (string * string); rq_Params : gmap string string;
  rq_User : option User; rq_Bearer : bool; rq_RequestID : string; rq_Audited : bool }.

Definition with_ctx (u : option User) (bearer : bool) (r : request) : request :=
  mkReq (rq_Method r) (rq_Path r) (rq_Host r) (rq_RemoteAddr r) (rq_TLS r) (rq_Headers r)
    (rq_Cookies r) (rq_Params r) u bearer (rq_RequestID r) (rq_Audited r).
Definition WithUser (u : User) (r : request) : request := with_ctx (Some u) (rq_Bearer r) r.
Definition WithBearerAuth (r : request) : request := with_ctx (rq_User r) true r.
Definition WithRequestID (id : string) (r : request) : request :=
  mkReq (rq_Method r) (rq_Path r) (rq_Host r) (rq_RemoteAddr r) (rq_TLS r) (rq_Headers r)
    (rq_Cookies r) (rq_Params r) (rq_User r) (rq_Bearer r) id (rq_Audited r).
Definition with_remote (ip : string) (r : request) : request :=
  mkReq (rq_Method r) (rq_Path r) (rq_Host r) ip (rq_TLS r) (rq_Headers r)
    (rq_Cookies r) (rq_Params r) (rq_User r) (rq_Bearer r) (rq_RequestID r) (rq_Audited r).
Definition with_audited (r : request) : request :=
  mkReq (rq_Method r) (rq_Path r) (rq_Host r) (rq_RemoteAddr r) (rq_TLS r) (rq_Headers r)
    (rq_Cookies r) (rq_Params r) (rq_User r) (rq_Bearer r) (rq_RequestID r) true.

(** [r.Header.Get(name)] and the first cookie called [name]. *)
Definition header (name : string) (r : request) : string := default "" (rq_Headers r !! name).
Definition cookie (name : string) (r : request) : option string :=
  snd <$> head (filter (fun c => c.1 = name) (rq_Cookies r)).

Record response := mkResp { rsp_Status : Z; rsp_Body : json }.
Inductive outcome := Reply (r : response) | Panicked.

(** audit.go: the record a request accumulates. *)
Record auditRecord := mkRec {
  ar_Action : string; ar_TargetType : string; ar_TargetID : string; ar_TargetName : string;
  ar_ScopeType : string; ar_ScopeID : string; ar_Result : string;
  ar_Detail : list (string * any); ar_resultSet : bool }.
Definition withAudit (action : string) : auditRecord := mkRec action "" "" "" "" "" "" [] false.

Record world := mkWorld {
  aw_db : db; aw_tick : nat; aw_rand : nat; aw_rec : auditRecord;
  aw_hdr : gmap string string; aw_cookies : list (string * string * Z) }.
Definition on_db (f : db -> db) (w : world) : world :=
  mkWorld (f (aw_db w)) (aw_tick w) (aw_rand w) (aw_rec w) (aw_hdr w) (aw_cookies w).
Definition on_rec (f : auditRecord -> auditRecord) (w : world) : world :=
  mkWorld (aw_db w) (aw_tick w) (aw_rand w) (f (aw_rec w)) (aw_hdr w) (aw_cookies w).
Definition set_hdr (k v : string) (w : world) : world :=
  mkWorld (aw_db w) (aw_tick w) (aw_rand w) (aw_rec w) (<[k := v]> (aw_hdr w)) (aw_cookies w).
Definition add_cookie (c : string * string * Z) (w : world) : world :=
  mkWorld (aw_db w) (aw_tick w) (aw_rand w) (aw_rec w) (aw_hdr w) (aw_cookies w ++ [c]).

Abbreviation handler := (request -> world -> outcome * world) (only parsing).

(** ** A state monad with early exits, for the code with early returns *)

Definition SE (E A : Type) : Type := world -> result E A * world.
#[export] Instance SE_ret {E} : MRet (SE E) := fun A a w => (Ok a, w).
#[export] Instance SE_bind {E} : MBind (SE E) := fun A B f m w =>
  match m w with (Ok a, w') => f a w' | (Err e, w') => (Err e, w') end.
Definition throw {E A} (e : E) : SE E A := fun w => (Err e, w).
Definition ask {E A} (f : db -> A) : SE E A := fun w => (Ok (f (aw_db w)), w).
Definition exec {E} (f : db -> db) : SE E unit := fun w => (Ok tt, on_db f w).
(** [if cond { return e }]. *)
Definition guard {E} (cond : bool) (e : E) : SE E unit := if cond then throw e else mret tt.
(** A query or statement whose error is replaced by [e]. *)
Definition query {E A} (f : db -> result store_err A) (e : E) : SE E A := fun w =>
  match f (aw_db w) with Ok a => (Ok a, w) | Err _ => (Err e, w) end.
Definition stmt {E} (f : db -> result store_err db) (e : store_err -> E) : SE E unit := fun w =>
  match f (aw_db w) with Ok d => (Ok tt, on_db (fun _ => d) w) | Err x => (Err (e x), w) end.

(** ** Replies *)

Definition json_reply (status : Z) (body : json) (w : world) : outcome * world :=
  (Reply (mkResp status body), set_hdr "Cache-Control" "no-store" (set_hdr "Content-Type" "application/json" w)).
Definition WriteJSON (status : Z) (body : json) : world -> outcome * world := json_reply status body.
Definition error_body (r : request) (e : APIError) : json :=
  JObj [("error", JObj [("code", JString (e_Code e)); ("message", JString (e_Message e));
                        ("requestId", JString (rq_RequestID r))])].
Definition WriteError (r : request) (e : APIError) : world -> outcome * world :=
  json_reply (e_Status e) (error_body r e).
Definition noContent (w : world) : outcome * world :=
  (Reply (mkResp 204 JNull), set_hdr "Cache-Control" "no-store" w).

(** A handler written with early exits: an error is written as its envelope. *)
Definition handle (body : request -> SE APIError (world -> outcome * world)) : handler := fun r w =>
  match body r w with
  | (Ok reply, w') => reply w'
  | (Err e, w') => WriteError r e w'
  end.

(** ** audit.go *)

Definition on_audit (r : request) (f : auditRecord -> auditRecord) (w : world) : world :=
  if rq_Audited r then on_rec f w else w.
Definition rec_target (t i n : string) (a : auditRecord) :=
  mkRec (ar_Action a) t i n (ar_ScopeType a) (ar_ScopeID a) (ar_Result a) (ar_Detail a) (ar_resultSet a).
Definition rec_scope (t i : string) (a : auditRecord) :=
  mkRec (ar_Action a) (ar_TargetType a) (ar_TargetID a) (ar_TargetName a) t i (ar_Result a) (ar_Detail a)
    (ar_resultSet a).
Definition rec_detail (k : string) (v : any) (a : auditRecord) :=
  mkRec (ar_Action a) (ar_TargetType a) (ar_TargetID a) (ar_TargetName a) (ar_ScopeType a) (ar_ScopeID a)
    (ar_Result a) (any_set k v (ar_Detail a)) (ar_resultSet a).
Definition rec_result (res : string) (a : auditRecord) :=
  mkRec (ar_Action a) (ar_TargetType a) (ar_TargetID a) (ar_TargetName a) (ar_ScopeType a) (ar_ScopeID a)
    res (ar_Detail a) true.
Definition SetAuditTarget (r : request) (t i n : string) := on_audit r (rec_target t i n).
Definition SetAuditScope (r : request) (t i : string) := on_audit r (rec_scope t i).
Definition AddAuditDetail (r : request) (k : string) (v : any) := on_audit r (rec_detail k v).
Definition SetAuditResult (r : request) (res : string) := on_audit r (rec_result res).
Definition markDenied (r : request) (perm : string) :=
  on_audit r (fun a => rec_detail "missingPermission" (AOther (JString perm)) (rec_result "denied" a)).

(** ** session.go *)

Definition SessionCookieName := "castor_session".
Definition CSRFCookieName := "castor_csrf".
Definition CSRFHeaderName := "X-Castor-CSRF".
Definition AMRPassword := "pwd".
Definition AMRPasswordTOTP := "pwd+totp".

Record Deps := mkDeps {
  d_TrustProxy : bool; d_AllowedOrigins : list string;
  d_SessionTTL : duration; d_SessionAbsoluteTTL : duration }.

Definition isMutating (method : string) : bool :=
  existsb (fun m => bool_decide (method = m)) ["POST"; "PUT"; "PATCH"; "DELETE"].

(** [strings.TrimRight(s, "/")]. *)
Fixpoint trim_slashes (s : string) : string :=
  match s with
  | EmptyString => ""
  | String c s' =>
      match trim_slashes s' with
      | EmptyString => if Ascii.eqb c "/" then "" else String c ""
      | t => String c t
      end
  end.

(** [d.Seconds()] truncated to an [int64]. *)
Definition secs (d : duration) : Z := f64_to_int64 (dur_seconds d).

Definition minSessionTTL : duration := 300 * Second.
Definition defaultSessionTTL : duration := 12 * Hour.
Definition defaultAbsoluteTTL : duration := 24 * Hour.

Section Middleware.
(** [clock] and [random]: the successive readings of [time.Now().Unix()] and of
    [RandomToken] (crypto/rand); [sha256_hex]: the hex SHA-256 of a string;
    [url_Parse]: the scheme and host net/url finds, unless it fails;
    [split_host_port]: the host of net.SplitHostPort, unless it fails. *)
Context (clock : nat -> Z) (random : nat -> string) (sha256_hex : string -> string)
  (url_Parse : string -> option (string * string)) (split_host_port : string -> option string)
  (deps : Deps).

Definition now_unix {E} : SE E Z := fun w =>
  (Ok (clock (aw_tick w)),
   mkWorld (aw_db w) (S (aw_tick w)) (aw_rand w) (aw_rec w) (aw_hdr w) (aw_cookies w)).
Definition RandomToken {E} : SE E string := fun w =>
  (Ok (random (aw_rand w)),
   mkWorld (aw_db w) (aw_tick w) (S (aw_rand w)) (aw_rec w) (aw_hdr w) (aw_cookies w)).
(** A statement that stores the time. *)
Definition exec_now {E} (f : Z -> db -> db) : SE E unit := now ← now_unix; exec (f now).

(** ** Session lifetimes (middleware.go) *)

Definition absoluteTTL : duration :=
  if 0 <? d_SessionAbsoluteTTL deps then d_SessionAbsoluteTTL deps else defaultAbsoluteTTL.

Definition slidingTTL (d : db) : duration :=
  let ttl := if d_SessionTTL deps <=? 0 then defaultSessionTTL else d_SessionTTL deps in
  let ttl := match atoi (GetSettingDefault SettingSessionTTLSeconds "" d) with
             | Some s => if 0 <? s then dur_of s Second else ttl
             | None => ttl
             end in
  let ttl := if ttl <? minSessionTTL then minSessionTTL else ttl in
  if absoluteTTL <? ttl then absoluteTTL else ttl.

(** The expiry a request at [now] gives a session, unless it is already later. *)
Definition slide (d : db) (now : Z) (s : Session) : Z :=
  let newExpiry := now + secs (slidingTTL d) in
  let cap := ss_CreatedAt s + secs absoluteTTL in
  if cap <? newExpiry then cap else newExpiry.

Definition resolveUser (r : request) : SE APIError User :=
  match cookie SessionCookieName r with
  | None | Some "" => throw ErrUnauthenticated
  | Some raw =>
      let hashID := sha256_hex raw in
      sess ← query (GetSession hashID) ErrUnauthenticated;
      now ← now_unix;
      _ ← guard (bool_decide (is_Some (ss_RevokedAt sess)) || (ss_ExpiresAt sess <? now)) ErrUnauthenticated;
      su ← query (GetUserByID (ss_UserID sess)) ErrUnauthenticated;
      _ ← guard (negb (u_IsActive su)) ErrUnauthenticated;
      roles ← ask (EffectiveRolesForUser (u_ID su));
      newExpiry ← ask (fun d => slide d now sess);
      _ ← (if ss_ExpiresAt sess <? newExpiry then exec_now (TouchSession hashID newExpiry) else mret tt);
      mret (buildUser su hashID (ss_AMR sess) roles)
  end.

(** ** Bearer tokens (bearer.go) *)

Definition bearerToken (r : request) : string :=
  let h := header "Authorization" r in
  if bool_decide (String.length h <= 7)%nat || negb (equal_fold (String.substring 0 7 h) "Bearer ")
  then "" else trim_space (string_drop 7 h).

Definition resolveBearer (raw : string) : SE APIError User :=
  now ← now_unix;
  tok ← query (GetAPITokenByHash (sha256_hex raw) now) ErrUnauthenticated;
  su ← query (GetUserByID (tk_UserID tok)) ErrUnauthenticated;
  _ ← guard (negb (u_IsActive su)) ErrUnauthenticated;
  roles ← ask (EffectiveRolesForUser (u_ID su));
  _ ← exec_now (TouchAPIToken (tk_ID tok));
  mret (token_user su roles (tk_Permissions tok)).

Definition BearerOrSession (next : handler) : handler := fun r w =>
  let raw := bearerToken r in
  if bool_decide (raw = "") then
    match resolveUser r w with
    | (Ok u, w) => next (WithUser u r) w
    | (Err e, w) => WriteError r e w
    end
  else
    match resolveBearer raw w with
    | (Ok u, w) => next (WithBearerAuth (WithUser u r)) w
    | (Err e, w) => WriteError r e w
    end.

Definition SessionAuth (next : handler) : handler := fun r w =>
  match resolveUser r w with
  | (Ok u, w) => next (WithUser u r) w
  | (Err e, w) => WriteError r e w
  end.

(** ** Cross-site requests (middleware.go) *)

Definition originAllowed (r : request) : bool :=
  let origin := header "Origin" r in
  let origin :=
    if bool_decide (origin = "") then
      let ref := header "Referer" r in
      if bool_decide (ref = "") then ""
      else match url_Parse ref with Some (scheme, host) => scheme +:+ "://" +:+ host | None => "" end
    else origin in
  if bool_decide (origin = "") then false
  else match d_AllowedOrigins deps with
       | [] => match url_Parse origin with
               | None => false
               | Some (_, host) => equal_fold host (rq_Host r)
               end
       | allowed => existsb (fun a => equal_fold (trim_slashes a) (trim_slashes origin)) allowed
       end.

Definition CSRF (next : handler) : handler := fun r w =>
  if negb (isMutating (rq_Method r)) then next r w
  else if rq_Bearer r then next r w
  else if negb (originAllowed r) then WriteError r (Errorf ErrCSRFFailed "Origin not allowed.") w
  else match rq_User r with
       | None => WriteError r ErrUnauthenticated w
       | Some u =>
           match GetSession (pr_SessionHashID u) (aw_db w) with
           | Err _ => WriteError r ErrUnauthenticated w
           | Ok sess =>
               let h := header CSRFHeaderName r in
               if bool_decide (h = "") || negb (bool_decide (h = ss_CSRFToken sess))
               then WriteError r ErrCSRFFailed w
               else next r w
           end
       end.

(** ** Step-up and permissions *)

Definition totpRequiredForMutations (d : db) : bool :=
  bool_decide (GetSettingDefault SettingTOTPRequiredForMut "false" d = "true").

Definition StepUpRequired (d : db) (u : option User) : bool :=
  match u with
  | None => true
  | Some u => u_TOTPEnabled (pr_User u) && totpRequiredForMutations d
              && negb (bool_decide (pr_AMR u = AMRPasswordTOTP))
  end.

Definition RequireAAL (next : handler) : handler := fun r w =>
  if negb (isMutating (rq_Method r)) then next r w
  else match rq_User r with
       | None => WriteError r ErrUnauthenticated w
       | Some u =>
           if u_TOTPEnabled (pr_User u) && totpRequiredForMutations (aw_db w)
              && negb (bool_decide (pr_AMR u = AMRPasswordTOTP))
           then WriteError r ErrAALRequired w
           else next r w
       end.

Definition RequirePermission (perm : string) (scopeFn : request -> Scope) (next : handler) : handler :=
  fun r w =>
  match rq_User r with
  | None => WriteError r ErrUnauthenticated w
  | Some u =>
      if negb (Can (Some u) perm (scopeFn r)) then WriteError r ErrForbidden (markDenied r perm w)
      else next r w
  end.

(** ** The audit row *)

Definition inferred_result (status : Z) : string :=
  if (200 <=? status) && (status <? 300) then "success"
  else if (status =? 403) || (status =? 401) then "denied"
  else "error".

Definition audit_entry (r : request) (rec : auditRecord) (status ts : Z) : AuditEntry :=
  let '(actorID, actorName) := match rq_User r with
                               | Some u => (u_ID (pr_User u), u_Username (pr_User u))
                               | None => ("", "anonymous")
                               end in
  mkAudit ts actorID actorName (rq_RemoteAddr r) (ar_Action rec) (ar_TargetType rec) (ar_TargetID rec)
    (ar_TargetName rec) (ar_ScopeType rec) (ar_ScopeID rec)
    (if ar_resultSet rec then ar_Result rec else inferred_result status) status
    (match ar_Detail rec with [] => None | m => Some (to_json (AMap (RedactMap m))) end)
    (rq_RequestID r).

Definition persistAudit (r : request) (status : Z) (w : world) : world :=
  let ts := clock (aw_tick w) in
  on_db (InsertAudit (audit_entry r (aw_rec w) status ts))
    (mkWorld (aw_db w) (S (aw_tick w)) (aw_rand w) (aw_rec w) (aw_hdr w) (aw_cookies w)).

(** The row is written after the handler returns; a panic unwinds past it. *)
Definition AuditWrap (action : string) (next : handler) : handler := fun r w =>
  let r := with_audited r in
  match next r (on_rec (fun _ => withAudit action) w) with
  | (Reply rsp, w) => (Reply rsp, persistAudit r (rsp_Status rsp) w)
  | (Panicked, w) => (Panicked, w)
  end.

(** ** The base chain *)

Definition RequestID (next : handler) : handler := fun r w =>
  let '(id, w) := if bool_decide (header "X-Request-Id" r = "")
                  then (random (aw_rand w),
                        mkWorld (aw_db w) (aw_tick w) (S (aw_rand w)) (aw_rec w) (aw_hdr w) (aw_cookies w))
                  else (header "X-Request-Id" r, w) in
  next (WithRequestID id r) (set_hdr "X-Request-Id" id w).

Definition directIP (r : request) : string :=
  match split_host_port (rq_RemoteAddr r) with Some h => h | None => rq_RemoteAddr r end.

Definition RealIP (next : handler) : handler := fun r w =>
  let ip :=
    if d_TrustProxy deps then
      let xff := header "X-Forwarded-For" r in
      let xrip := header "X-Real-Ip" r in
      if negb (bool_decide (xff = "")) then trim_space (default "" (head (split_on "," xff)))
      else if negb (bool_decide (xrip = "")) then trim_space xrip
      else directIP r
    else directIP r in
  next (with_remote ip r) w.

Definition Recoverer (next : handler) : handler := fun r w =>
  match next r w with
  | (Panicked, w) => WriteError r ErrInternal w
  | x => x
  end.

Definition IsHTTPS (r : request) : bool :=
  rq_TLS r || (d_TrustProxy deps && bool_decide (header "X-Forwarded-Proto" r = "https")).

Definition SecurityHeaders (next : handler) : handler := fun r w =>
  let w := set_hdr "Referrer-Policy" "same-origin" (set_hdr "X-Frame-Options" "DENY"
             (set_hdr "X-Content-Type-Options" "nosniff" w)) in
  let w := set_hdr "Content-Security-Policy"
    ("default-src 'self'; img-src 'self' data:; style-src 'self' 'unsafe-inline'; " +:+
     "connect-src 'self' ws: wss:; frame-ancestors 'none'; base-uri 'self'; form-action 'self'") w in
  let w := if IsHTTPS r
           then set_hdr "Strict-Transport-Security" "max-age=31536000; includeSubDomains" w else w in
  let w := if has_prefix (rq_Path r) "/api/" then set_hdr "Cache-Control" "no-store" w else w in
  next r w.

(** ** router.go: the chains *)

Definition bootstrapRequired (d : db) : bool :=
  negb (BootstrapCompleted d) && (CountUsers d =? 0).

Definition bootstrapGate (next : handler) : handler := fun r w =>
  if bootstrapRequired (aw_db w) then WriteError r ErrBootstrapRequired w else next r w.

Definition base_chain (h : handler) : handler :=
  RequestID (RealIP (Recoverer (SecurityHeaders h))).
(** The protected group. *)
Definition protected_chain (h : handler) : handler :=
  base_chain (bootstrapGate (BearerOrSession (CSRF h))).
(** AuditWrap -> RequireAAL -> RequirePermission -> handler. *)
Definition gated (action perm : string) (scopeFn : request -> Scope) (h : handler) : handler :=
  AuditWrap action (RequireAAL (RequirePermission perm scopeFn h)).
Definition mutation_route (action perm : string) (scopeFn : request -> Scope) (h : handler) : handler :=
  protected_chain (gated action perm scopeFn h).
End Middleware.
