(* ===== verification/AuthApi.v ===== *)
(** * Sign-in, second factor, user and role administration, API tokens

    server/internal/api/auth.go, rbac.go, api_tokens.go and validate.go, each
    handler whole.  A handler takes its decoded body ([decodeJSON]'s result);
    password hashing (argon2), TOTP codes and AES-GCM are parameters. *)
From S2P Require Import Prelude GoStd AuthStore Rbac Redact Middleware.

(** ** Bodies *)

Record loginRequest := mkLogin { lg_Username : string; lg_Password : string }.
Record bootstrapRequest := mkBootstrap {
  bs_Username : string; bs_Password : string; bs_Email : string; bs_Token : string }.
Record passwordChangeRequest := mkPwChange { pc_Current : string; pc_New : string }.
Record createUserRequest := mkCreateUser {
  cu_Username : string; cu_Password : string; cu_Email : string; cu_MustChangePW : bool }.
Record updateUserRequest := mkUpdateUser { uu_Email : option string; uu_IsActive : option bool }.
Record createBindingRequest := mkCreateBinding {
  cb_RoleID : string; cb_ScopeType : string; cb_ScopeID : string }.
Record createRoleRequest := mkCreateRole {
  cr_Name : string; cr_Description : string; cr_Permissions : list string }.
Record updateRoleRequest := mkUpdateRole {
  ur_Description : option string; ur_Permissions : option (list string) }.
Record createTokenRequest := mkCreateToken {
  ct_Name : string; ct_Scopes : list string; ct_ExpiresInDays : Z }.

(** ** validate.go *)

Definition username_byte (c : ascii) : bool :=
  let n := N_of_ascii c in
  ((65 <=? n) && (n <=? 90) || (97 <=? n) && (n <=? 122) || (48 <=? n) && (n <=? 57)
   || (n =? 46) || (n =? 95) || (n =? 45))%N.
Fixpoint all_bytes (f : ascii -> bool) (s : string) : bool :=
  match s with EmptyString => true | String c s' => f c && all_bytes f s' end.
Definition validateUsername (u : string) : option APIError :=
  if bool_decide (3 <= String.length u <= 32)%nat && all_bytes username_byte u then None
  else Some (Errorf ErrValidation
               "Username must be 3-32 characters of letters, digits, '.', '-' or '_'.").
Definition validatePassword (p : string) : option APIError :=
  if bool_decide (String.length p < 12)%nat
  then Some (Errorf ErrValidation "Password must be at least 12 characters.")
  else if bool_decide (1024 < String.length p)%nat
  then Some (Errorf ErrValidation "Password is too long.")
  else None.

Definition check (e : option APIError) : SE APIError unit :=
  match e with Some e => throw e | None => mret tt end.
Definition decode {A} (body : result APIError A) : SE APIError A := fun w => (body, w).
Definition upd {E} (f : world -> world) : SE E unit := fun w => (Ok tt, f w).
Definition need_user (r : request) : SE APIError User :=
  match rq_User r with Some u => mret u | None => throw ErrUnauthenticated end.
Definition param (name : string) (r : request) : string := default "" (rq_Params r !! name).

Definition ok (v : json) : SE APIError (world -> outcome * world) := mret (WriteJSON 200 v).
Definition created (v : json) : SE APIError (world -> outcome * world) := mret (WriteJSON 201 v).

Definition toUserView (u : StoreUser) : json :=
  JObj [("id", JString (u_ID u)); ("username", JString (u_Username u)); ("email", JString (u_Email u));
        ("isActive", JBool (u_IsActive u)); ("mustChangePassword", JBool (u_MustChangePW u));
        ("totpEnabled", JBool (u_TOTPEnabled u))].
Definition json_strings (l : list string) : json := JList (JString <$> l).

(** Each permission once, in the order first seen. *)
Definition dedup (l : list string) : list string :=
  foldl (fun out p => if bool_decide (p ∈ out) then out else out ++ [p]) [] l.
Definition effectivePermissions (userID : string) (d : db) : list string :=
  dedup (mjoin (er_Permissions <$> EffectiveRolesForUser userID d)).

Definition loginFailThreshold : Z := 5.
Definition loginLockDuration : duration := 15 * Minute.
Definition recoveryCodeCount : nat := 10.

Section Api.
Context (clock : nat -> Z) (random : nat -> string) (sha256_hex : string -> string) (deps : Deps).
(** [new_uuid]: store.NewUUID; [hash_password salt p], [verify_password p hash]:
    argon2id behind HashPassword and VerifyPassword; [seal nonce s], [open_sealed]:
    AES-GCM under the instance's key; [totp_secret], [valid_totp]: the OTP library;
    [recovery_code]: base32 of random bytes, in groups. *)
Context (new_uuid : nat -> string) (hash_password : string -> string -> string)
  (verify_password : string -> string -> bool) (seal : string -> string -> string)
  (open_sealed : string -> option string) (totp_secret : string -> string -> string)
  (valid_totp : Z -> string -> string -> bool) (recovery_code : string -> string) (bootstrapToken : string).

Definition NewUUID {E} : SE E string := fun w =>
  (Ok (new_uuid (aw_rand w)),
   mkWorld (aw_db w) (aw_tick w) (S (aw_rand w)) (aw_rec w) (aw_hdr w) (aw_cookies w)).
Definition HashPassword (p : string) : SE APIError string :=
  salt ← RandomToken random; mret (hash_password salt p).

(** ** Sessions *)

Definition mintSession (r : request) (userID amr : string) : SE APIError (string * Session) :=
  rawID ← RandomToken random;
  csrf ← RandomToken random;
  now ← now_unix clock;
  let sess := mkSession (sha256_hex rawID) userID csrf (header "User-Agent" r) (rq_RemoteAddr r) amr
                now now (now + secs (d_SessionTTL deps)) None in
  _ ← stmt (CreateSession sess) (fun _ => ErrInternal);
  mret (rawID, sess).

Definition setAuthCookies (rawID csrf : string) : SE APIError unit :=
  let maxAge := secs (d_SessionAbsoluteTTL deps) in
  upd (fun w => add_cookie (CSRFCookieName, csrf, maxAge) (add_cookie (SessionCookieName, rawID, maxAge) w)).

Definition locked (now : Z) (u : StoreUser) : bool :=
  match u_LockedUntil u with Some t => now <? t | None => false end.

Definition Login (body : result APIError loginRequest) : handler := handle (fun r =>
  req ← decode body;
  u ← query (GetUserByUsername (lg_Username req)) ErrUnauthenticated;
  now ← now_unix clock;
  _ ← guard (locked now u) ErrAccountLocked;
  _ ← guard (negb (u_IsActive u)) ErrUnauthenticated;
  if negb (verify_password (lg_Password req) (u_PasswordHash u)) then
    _ ← exec_now clock (RecordLoginFailure (u_ID u) loginFailThreshold loginLockDuration);
    throw ErrUnauthenticated
  else
    _ ← exec_now clock (RecordLoginSuccess (u_ID u));
    ms ← mintSession r (u_ID u) AMRPassword;
    _ ← setAuthCookies ms.1 (ss_CSRFToken ms.2);
    if u_TOTPEnabled u then
      ok (JObj [("requiresTotp", JBool true); ("amr", JString AMRPassword);
                ("csrfToken", JString (ss_CSRFToken ms.2))])
    else
      perms ← ask (effectivePermissions (u_ID u));
      ok (JObj [("user", toUserView u); ("amr", JString AMRPassword);
                ("csrfToken", JString (ss_CSRFToken ms.2)); ("permissions", json_strings perms);
                ("requiresTotp", JBool false)])).

Definition Logout : handler := handle (fun r =>
  _ ← (match rq_User r with
       | Some u => exec_now clock (RevokeSession (pr_SessionHashID u))
       | None => mret tt
       end);
  _ ← upd (fun w => add_cookie (CSRFCookieName, "", -1) (add_cookie (SessionCookieName, "", -1) w));
  mret noContent).

Definition Bootstrap (body : result APIError bootstrapRequest) : handler := handle (fun r =>
  required ← ask bootstrapRequired;
  _ ← guard (negb required) ErrBootstrapRequired;
  req ← decode body;
  _ ← guard (negb (bool_decide (bootstrapToken = "")) && negb (bool_decide (bs_Token req = bootstrapToken)))
        ErrForbidden;
  _ ← check (validateUsername (bs_Username req));
  _ ← check (validatePassword (bs_Password req));
  hash ← HashPassword (bs_Password req);
  uid ← NewUUID;
  bid ← NewUUID;
  now ← now_unix clock;
  _ ← stmt (BootstrapFirstAdmin uid (bs_Username req) (bs_Email req) hash bid now)
        (fun e => match e with ErrBootstrapAlreadyDone => ErrBootstrapRequired | e => MapStoreError e end);
  created (JObj [("user", toUserView (mkUser uid (bs_Username req) (bs_Email req) "" "" false None true
                            false 0 None None "local" "" "" now now));
                 ("totpEnrollOffered", JBool true)])).

(** ** Second factor *)

Fixpoint try_recovery (code : string) (codes : list RecoveryCode) : SE APIError bool :=
  match codes with
  | [] => mret false
  | rc :: codes =>
      if verify_password code (rc_CodeHash rc) then
        now ← now_unix clock;
        consumed ← (fun w => match ConsumeRecoveryCode (rc_ID rc) now (aw_db w) with
                             | Ok d => (Ok true, on_db (fun _ => d) w)
                             | Err _ => (Ok false, w)
                             end);
        if consumed : bool then mret true else try_recovery code codes
      else try_recovery code codes
  end.

Definition verifyTOTPOrRecovery (u : User) (code : string) : SE APIError bool :=
  let code := trim_space code in
  if bool_decide (code = "") then mret false
  else
    now ← now_unix clock;
    if match open_sealed (u_TOTPSecretEnc (pr_User u)) with
       | Some secret => valid_totp now code secret
       | None => false
       end then mret true
    else
      codes ← ask (ListUnusedRecoveryCodes (u_ID (pr_User u)));
      try_recovery code codes.

Definition TOTPVerify (body : result APIError string) : handler := handle (fun r =>
  u ← need_user r;
  code ← decode body;
  _ ← guard (negb (u_TOTPEnabled (pr_User u)) || bool_decide (u_TOTPSecretEnc (pr_User u) = ""))
        (Errorf ErrValidation "TOTP is not enabled for this account.");
  good ← verifyTOTPOrRecovery u code;
  _ ← guard (negb good) ErrUnauthenticated;
  _ ← exec (UpgradeSessionAMR (pr_SessionHashID u) AMRPasswordTOTP);
  csrf ← ask (fun d => match GetSession (pr_SessionHashID u) d with Ok s => ss_CSRFToken s | Err _ => "" end);
  perms ← ask (effectivePermissions (u_ID (pr_User u)));
  ok (JObj [("user", toUserView (pr_User u)); ("amr", JString AMRPasswordTOTP);
            ("csrfToken", JString csrf); ("permissions", json_strings perms)])).

Definition TOTPEnroll : handler := handle (fun r =>
  u ← need_user r;
  seed ← RandomToken random;
  let secret := totp_secret (u_Username (pr_User u)) seed in
  nonce ← RandomToken random;
  _ ← exec_now clock (SetTOTPPending (u_ID (pr_User u)) (seal nonce secret));
  ok (JObj [("secret", JString secret)])).

(** Fresh codes with their hashes, and fresh row ids. *)
Fixpoint GenerateRecoveryCodes (n : nat) : SE APIError (list (string * string)) :=
  match n with
  | O => mret []
  | S n =>
      raw ← RandomToken random;
      h ← HashPassword (recovery_code raw);
      rest ← GenerateRecoveryCodes n;
      mret ((recovery_code raw, h) :: rest)
  end.
Fixpoint new_ids (n : nat) : SE APIError (list string) :=
  match n with
  | O => mret []
  | S n => id ← NewUUID; rest ← new_ids n; mret (id :: rest)
  end.

Definition TOTPConfirm (body : result APIError string) : handler := handle (fun r =>
  u ← need_user r;
  code ← decode body;
  let no_pending := Errorf ErrValidation "No pending TOTP enrollment. Start enrollment first." in
  fresh ← query (GetUserByID (u_ID (pr_User u))) no_pending;
  _ ← guard (bool_decide (u_TOTPSecretEnc fresh = "")) no_pending;
  now ← now_unix clock;
  _ ← guard (match open_sealed (u_TOTPSecretEnc fresh) with
             | Some secret => negb (valid_totp now (trim_space code) secret)
             | None => true
             end) ErrUnauthenticated;
  _ ← exec_now clock (ConfirmTOTP (u_ID (pr_User u)));
  codes ← GenerateRecoveryCodes recoveryCodeCount;
  ids ← new_ids (length codes);
  now ← now_unix clock;
  _ ← exec (fun d => default d (ReplaceRecoveryCodes (u_ID (pr_User u)) ids
                                  codes.*2 now d));
  _ ← exec (UpgradeSessionAMR (pr_SessionHashID u) AMRPasswordTOTP);
  ok (JObj [("recoveryCodes", json_strings codes.*1)])).

Definition TOTPDisable (body : result APIError string) : handler := handle (fun r =>
  u ← need_user r;
  password ← decode body;
  _ ← guard (negb (verify_password password (u_PasswordHash (pr_User u)))) ErrUnauthenticated;
  _ ← exec_now clock (DisableTOTP (u_ID (pr_User u)));
  _ ← exec_now clock (fun now d => default d (ReplaceRecoveryCodes (u_ID (pr_User u)) [] [] now d));
  _ ← exec (UpgradeSessionAMR (pr_SessionHashID u) AMRPassword);
  mret noContent).

Definition PasswordChange (body : result APIError passwordChangeRequest) : handler := handle (fun r =>
  u ← need_user r;
  req ← decode body;
  _ ← guard (negb (verify_password (pc_Current req) (u_PasswordHash (pr_User u)))) ErrUnauthenticated;
  _ ← check (validatePassword (pc_New req));
  hash ← HashPassword (pc_New req);
  _ ← exec_now clock (SetPasswordHash (u_ID (pr_User u)) hash);
  _ ← exec_now clock (RevokeOtherUserSessions (u_ID (pr_User u)) (pr_SessionHashID u));
  mret noContent).

(** ** Users and bindings (rbac.go) *)

Definition CreateUserHandler (body : result APIError createUserRequest) : handler := handle (fun r =>
  req ← decode body;
  _ ← check (validateUsername (cu_Username req));
  _ ← check (validatePassword (cu_Password req));
  hash ← HashPassword (cu_Password req);
  id ← NewUUID;
  let u := mkUser id (cu_Username req) (cu_Email req) hash "" false None true (cu_MustChangePW req)
             0 None None "" "" "" 0 0 in
  now ← now_unix clock;
  _ ← stmt (CreateUser u now) (fun _ => Errorf ErrConflict "A user with that username already exists.");
  _ ← upd (SetAuditTarget r "user" id (cu_Username req));
  created (toUserView u)).

Definition UpdateUserHandler (body : result APIError updateUserRequest) : handler := handle (fun r =>
  let id := param "id" r in
  req ← decode body;
  _ ← upd (SetAuditTarget r "user" id "");
  _ ← query (GetUserByID id) ErrAPINotFound;
  _ ← exec_now clock (UpdateUserProfile id (uu_Email req) (uu_IsActive req));
  u ← query (GetUserByID id) ErrInternal;
  ok (toUserView u)).

Definition DeleteUserHandler : handler := handle (fun r =>
  let id := param "id" r in
  _ ← upd (SetAuditTarget r "user" id "");
  _ ← guard (match rq_User r with Some a => bool_decide (u_ID (pr_User a) = id) | None => false end)
        (Errorf ErrConflict "You cannot delete your own account.");
  isAdmin ← ask (UserHasGlobalRole id RoleIDAdmin);
  n ← ask (CountAdminBindings RoleIDAdmin);
  _ ← guard (isAdmin && (n <=? 1)) (Errorf ErrConflict "Cannot delete the last administrator.");
  _ ← stmt (DeleteUser id) MapStoreError;
  mret noContent).

Definition unheldPermissions (actor : option User) (perms : list string) (scope : Scope) : list string :=
  filter (fun p => Can actor p scope = false) perms.

Definition requireActorHolds (r : request) (perms : list string) (scope : Scope) : SE APIError unit :=
  let bad := unheldPermissions (rq_User r) perms scope in
  if bool_decide (bad = []) then mret tt
  else
    _ ← upd (AddAuditDetail r "deniedPermissions" (AOther (json_strings bad)));
    _ ← upd (SetAuditResult r "denied");
    throw (Errorf ErrForbidden
             ("You cannot grant permissions you do not hold: " +:+ join ", " bad +:+ ".")).

Definition binding_scope (req : createBindingRequest) : string :=
  if bool_decide (cb_ScopeType req = "") then "global" else cb_ScopeType req.

Definition CreateBindingHandler (body : result APIError createBindingRequest) : handler := handle (fun r =>
  let userID := param "id" r in
  req ← decode body;
  let scopeType := binding_scope req in
  _ ← guard (negb (bool_decide (scopeType ∈ ["global"; "host"; "cluster"])))
        (Errorf ErrValidation "scopeType must be global, host or cluster.");
  _ ← query (GetUserByID userID) ErrAPINotFound;
  role ← query (GetRole (cb_RoleID req)) (Errorf ErrValidation "Unknown role.");
  _ ← requireActorHolds r (ro_Permissions role) (mkScope scopeType (cb_ScopeID req));
  id ← NewUUID;
  now ← now_unix clock;
  let b := mkBinding id userID (cb_RoleID req) scopeType (null_str (cb_ScopeID req)) now in
  _ ← stmt (CreateBinding b) (fun _ => Errorf ErrConflict "That role binding already exists.");
  _ ← upd (SetAuditTarget r "binding" id "");
  created (JObj [("id", JString id); ("userId", JString userID); ("roleId", JString (cb_RoleID req));
                 ("scopeType", JString scopeType); ("scopeId", JString (cb_ScopeID req));
                 ("createdAt", JNum now)])).

Definition DeleteBindingHandler : handler := handle (fun r =>
  let userID := param "id" r in
  let bindingID := param "bindingId" r in
  _ ← upd (SetAuditTarget r "binding" bindingID "");
  isAdmin ← ask (UserHasGlobalRole userID RoleIDAdmin);
  n ← ask (CountAdminBindings RoleIDAdmin);
  _ ← guard (isAdmin && (n <=? 1)) (Errorf ErrConflict "Cannot remove the last administrator binding.");
  _ ← stmt (DeleteBinding userID bindingID) MapStoreError;
  mret noContent).

(** ** Roles *)

Definition check_permissions (perms : list string) : SE APIError unit :=
  match validatePermissions perms with
  | Some p => throw (Errorf ErrValidation ("Unknown permission: " +:+ p))
  | None => mret tt
  end.

Definition role_json (x : Role) : json :=
  JObj [("id", JString (ro_ID x)); ("name", JString (ro_Name x)); ("description", JString (ro_Description x));
        ("isBuiltin", JBool (ro_IsBuiltin x)); ("permissions", json_strings (ro_Permissions x));
        ("createdAt", JNum (ro_CreatedAt x)); ("updatedAt", JNum (ro_UpdatedAt x))].

Definition CreateRoleHandler (body : result APIError createRoleRequest) : handler := handle (fun r =>
  req ← decode body;
  _ ← guard (bool_decide (cr_Name req = "")) (Errorf ErrValidation "Role name is required.");
  _ ← check_permissions (cr_Permissions req);
  _ ← requireActorHolds r (cr_Permissions req) GlobalScope;
  id ← NewUUID;
  now ← now_unix clock;
  let role := mkRole id (cr_Name req) (cr_Description req) false (cr_Permissions req) now now in
  _ ← stmt (CreateRole role now) (fun _ => Errorf ErrConflict "A role with that name already exists.");
  _ ← upd (SetAuditTarget r "role" id (cr_Name req));
  created (role_json role)).

Definition UpdateRoleHandler (body : result APIError updateRoleRequest) : handler := handle (fun r =>
  let id := param "id" r in
  req ← decode body;
  role ← query (GetRole id) ErrAPINotFound;
  _ ← guard (ro_IsBuiltin role) (Errorf ErrConflict "Built-in roles are immutable.");
  _ ← (match ur_Permissions req with
       | Some perms => _ ← check_permissions perms; requireActorHolds r perms GlobalScope
       | None => mret tt
       end);
  _ ← upd (SetAuditTarget r "role" id (ro_Name role));
  _ ← exec_now clock (UpdateRole id (ur_Description req) (ur_Permissions req));
  updated ← query (GetRole id) ErrInternal;
  ok (role_json updated)).

Definition DeleteRoleHandler : handler := handle (fun r =>
  let id := param "id" r in
  role ← query (GetRole id) ErrAPINotFound;
  _ ← guard (ro_IsBuiltin role) (Errorf ErrConflict "Built-in roles cannot be deleted.");
  _ ← upd (SetAuditTarget r "role" id (ro_Name role));
  _ ← stmt (DeleteRole id) MapStoreError;
  mret noContent).

(** ** api_tokens.go *)

Definition CreateAPITokenHandler (body : result APIError createTokenRequest) : handler := handle (fun r =>
  u ← need_user r;
  req ← decode body;
  _ ← guard (bool_decide (ct_Name req = "")) (Errorf ErrValidation "Token name is required.");
  _ ← guard (bool_decide (ct_Scopes req = [])) (Errorf ErrValidation "At least one scope is required.");
  _ ← check_permissions (ct_Scopes req);
  _ ← (match unheldPermissions (Some u) (ct_Scopes req) GlobalScope with
       | [] => mret tt
       | p :: _ => throw (Errorf ErrForbidden
                            ("You cannot grant a token a permission you do not hold: " +:+ p))
       end);
  raw ← RandomToken random;
  let raw := "uhv_" +:+ raw in
  id ← NewUUID;
  now ← now_unix clock;
  expires ← (if 0 <? ct_ExpiresInDays req
             then t ← now_unix clock; mret (Some (t + wrap64 (ct_ExpiresInDays req * (24 * Hour)) / Second))
             else mret None);
  let rec := mkToken id (ct_Name req) (u_ID (pr_User u)) (sha256_hex raw) (ct_Scopes req) expires None None now in
  _ ← stmt (CreateAPIToken rec) (fun _ => ErrInternal);
  created (JObj [("id", JString id); ("name", JString (ct_Name req)); ("userId", JString (u_ID (pr_User u)));
                 ("permissions", json_strings (ct_Scopes req));
                 ("expiresAt", match expires with Some t => JNum t | None => JNull end);
                 ("createdAt", JNum now); ("token", JString raw)])).

Definition DeleteAPITokenHandler : handler := handle (fun r =>
  u ← need_user r;
  now ← now_unix clock;
  _ ← stmt (RevokeAPIToken (param "id" r) (u_ID (pr_User u)) now) MapStoreError;
  mret noContent).
End Api.
