(* ===== verification/Router.v ===== *)
(** * The identity surface as a whole: settings, and the routes of router.go

    server/internal/api/settings.go and the part of router.go that mounts the
    handlers of AuthApi.v.  A [call] is one of those routes with its decoded
    body; [route] is the handler chi runs for it, the base chain included. *)
From S2P Require Import Prelude GoStd AuthStore Rbac Redact Middleware AuthApi.

Definition ErrMethodNotAllowed :=
  mkErr 405 "method_not_allowed" "This operation is not supported by the target orchestrator.".

(** ** settings.go *)

Definition sessionTTLFloorSeconds : Z := 300.
Definition defaultAbsoluteTTLSeconds : Z := 24 * 60 * 60.
Definition defaultSessionTTLSeconds : Z := 12 * 60 * 60.

Definition clampSessionTTLSeconds (v : Z) (absolute : duration) : Z :=
  let ceil := if secs absolute <=? 0 then defaultAbsoluteTTLSeconds else secs absolute in
  let v := if v <? sessionTTLFloorSeconds then sessionTTLFloorSeconds else v in
  if ceil <? v then ceil else v.

Record updateSettingsRequest := mkUpdateSettings {
  us_TOTPRequiredForMutations : option bool; us_SessionTTLSeconds : option Z;
  us_ProtectedLabels : option (list string) }.

Section Settings.
Context (deps : Deps) (parse_labels : string -> option (list string)) (encode_labels : list string -> string).

Definition parseIntDefault (s : string) (def : Z) : Z :=
  if bool_decide (s = "") then def else default def (atoi s).
Definition parseJSONStringList (s : string) : list string :=
  if bool_decide (s = "") then [] else default [] (parse_labels s).

Definition GetSettings : request -> world -> outcome * world := handle (fun r =>
  let setting k (d : db) := default "" (db_settings d !! k) in
  out ← ask (fun d =>
    let ttlDefault := if 0 <? d_SessionTTL deps then secs (d_SessionTTL deps) else defaultSessionTTLSeconds in
    JObj [("bootstrap.completed", JBool (bool_decide (setting SettingBootstrapCompleted d = "true")));
          ("instance.id", JString (setting "instance.id" d));
          (SettingTOTPRequiredForMut, JBool (bool_decide (setting SettingTOTPRequiredForMut d = "true")));
          ("session.ttl_seconds", JNum (parseIntDefault (setting SettingSessionTTLSeconds d) ttlDefault));
          ("security.protected_labels",
            json_strings (parseJSONStringList (setting SettingProtectedLabels d)))]);
  ok out).

(** The writes of a settings update, each present field in turn. *)
Definition store_settings (body : result APIError updateSettingsRequest) : SE APIError unit :=
  req ← decode body;
  _ ← (match us_TOTPRequiredForMutations req with
       | Some b => exec (SetSetting SettingTOTPRequiredForMut (if b : bool then "true" else "false"))
       | None => mret tt
       end);
  _ ← (match us_SessionTTLSeconds req with
       | Some v => exec (SetSetting SettingSessionTTLSeconds
                           (itoa (clampSessionTTLSeconds v (d_SessionAbsoluteTTL deps))))
       | None => mret tt
       end);
  match us_ProtectedLabels req with
  | Some l => exec (SetSetting SettingProtectedLabels (encode_labels l))
  | None => mret tt
  end.

(** The writes, then the settings as they now are. *)
Definition UpdateSettings (body : result APIError updateSettingsRequest)
  : request -> world -> outcome * world := fun r w =>
  match store_settings body w with
  | (Ok _, w) => GetSettings r w
  | (Err e, w) => WriteError r e w
  end.
End Settings.

(** ** router.go *)

Inductive call : Type :=
| CBootstrap (b : result APIError bootstrapRequest)
| CLogin (b : result APIError loginRequest)
| CLogout
| CTOTPVerify (b : result APIError string)
| CTOTPEnroll
| CTOTPConfirm (b : result APIError string)
| CTOTPDisable (b : result APIError string)
| CPasswordChange (b : result APIError passwordChangeRequest)
| CCreateUser (b : result APIError createUserRequest)
| CUpdateUser (b : result APIError updateUserRequest)
| CDeleteUser
| CCreateBinding (b : result APIError createBindingRequest)
| CDeleteBinding
| CCreateRole (b : result APIError createRoleRequest)
| CUpdateRole (b : result APIError updateRoleRequest)
| CDeleteRole
| CUpdateSettings (b : result APIError updateSettingsRequest)
| CCreateAPIToken (b : result APIError createTokenRequest)
| CDeleteAPIToken.

Definition call_method (c : call) : string :=
  match c with
  | CUpdateUser _ | CUpdateRole _ => "PATCH"
  | CDeleteUser | CDeleteBinding | CDeleteRole | CDeleteAPIToken => "DELETE"
  | CUpdateSettings _ => "PUT"
  | _ => "POST"
  end.

Section Router.
Context (clock : nat -> Z) (random : nat -> string) (sha256_hex : string -> string)
  (url_Parse : string -> option (string * string)) (split_host_port : string -> option string)
  (deps : Deps).
Context (new_uuid : nat -> string) (hash_password : string -> string -> string)
  (verify_password : string -> string -> bool) (seal : string -> string -> string)
  (open_sealed : string -> option string) (totp_secret : string -> string -> string)
  (valid_totp : Z -> string -> string -> bool) (recovery_code : string -> string) (bootstrapToken : string)
  (parse_labels : string -> option (list string)) (encode_labels : list string -> string).

Definition protect (h : request -> world -> outcome * world) : request -> world -> outcome * world :=
  bootstrapGate (BearerOrSession clock sha256_hex deps (CSRF url_Parse deps h)).
(** [With(AuditWrap(action), RequireAAL, RequirePermission(perm, global))]. *)
Definition admin (perm : string) (h : request -> world -> outcome * world) :=
  protect (gated clock perm perm (fun _ => GlobalScope) h).

(** The handler of a call, and the middlewares mounted around it. *)
Definition inner (c : call) : request -> world -> outcome * world :=
  match c with
  | CBootstrap b => Bootstrap clock random new_uuid hash_password bootstrapToken b
  | CLogin b => Login clock random sha256_hex deps verify_password b
  | CLogout => Logout clock
  | CTOTPVerify b => TOTPVerify clock verify_password open_sealed valid_totp b
  | CTOTPEnroll => TOTPEnroll clock random seal totp_secret
  | CTOTPConfirm b => TOTPConfirm clock random new_uuid hash_password open_sealed valid_totp recovery_code b
  | CTOTPDisable b => TOTPDisable clock verify_password b
  | CPasswordChange b => PasswordChange clock random hash_password verify_password b
  | CCreateUser b => CreateUserHandler clock random new_uuid hash_password b
  | CUpdateUser b => UpdateUserHandler clock b
  | CDeleteUser => DeleteUserHandler
  | CCreateBinding b => CreateBindingHandler clock new_uuid b
  | CDeleteBinding => DeleteBindingHandler
  | CCreateRole b => CreateRoleHandler clock new_uuid b
  | CUpdateRole b => UpdateRoleHandler clock b
  | CDeleteRole => DeleteRoleHandler
  | CUpdateSettings b => UpdateSettings deps parse_labels encode_labels b
  | CCreateAPIToken b => CreateAPITokenHandler clock random sha256_hex new_uuid b
  | CDeleteAPIToken => DeleteAPITokenHandler clock
  end.

Definition mounted (c : call) (h : request -> world -> outcome * world) : request -> world -> outcome * world :=
  match c with
  | CBootstrap _ => h
  | CLogin _ => bootstrapGate h
  | CLogout => protect (AuditWrap clock "auth.logout" h)
  | CTOTPVerify _ => protect (AuditWrap clock "auth.totp.verify" h)
  | CTOTPEnroll => protect (AuditWrap clock "auth.totp.enroll" h)
  | CTOTPConfirm _ => protect (AuditWrap clock "auth.totp.confirm" h)
  | CTOTPDisable _ => protect (AuditWrap clock "auth.totp.disable" (RequireAAL h))
  | CPasswordChange _ => protect (AuditWrap clock "auth.password.change" (RequireAAL h))
  | CCreateUser _ => admin "rbac.user.create" h
  | CUpdateUser _ => admin "rbac.user.update" h
  | CDeleteUser => admin "rbac.user.delete" h
  | CCreateBinding _ => admin "rbac.binding.create" h
  | CDeleteBinding => admin "rbac.binding.delete" h
  | CCreateRole _ => admin "rbac.role.create" h
  | CUpdateRole _ => admin "rbac.role.update" h
  | CDeleteRole => admin "rbac.role.delete" h
  | CUpdateSettings _ => admin "settings.update" h
  | CCreateAPIToken _ => protect (AuditWrap clock "apitoken.create" h)
  | CDeleteAPIToken => protect (AuditWrap clock "apitoken.delete" h)
  end.

Definition call_handler (c : call) : request -> world -> outcome * world := mounted c (inner c).

(** What chi serves for the call: the method must be the route's. *)
Definition route (c : call) : request -> world -> outcome * world :=
  base_chain random split_host_port deps (fun r w =>
    if bool_decide (rq_Method r = call_method c) then call_handler c r w
    else WriteError r ErrMethodNotAllowed w).

(** The state after a sequence of calls. *)
Fixpoint serve (l : list (call * request)) (w : world) : world :=
  match l with
  | [] => w
  | (c, r) :: l => serve l (route c r w).2
  end.
End Router.
