(* ===== verification/AuthDemo.v ===== *)
(** * A small instance: two accounts, three sessions, one setting

    Concrete readings of the parameters and a database, on which the theorems
    about the identity surface are shown not to be vacuous. *)
From S2P Require Import Prelude GoStd AuthStore Rbac Redact Middleware AuthApi Router.

Definition demo_clock (n : nat) : Z := 1000 + Z.of_nat n.
Definition demo_random (n : nat) : string := "rnd" +:+ itoa (Z.of_nat n).
Definition demo_sha (s : string) : string := "sha:" +:+ s.
Definition demo_url (s : string) : option (string * string) :=
  if has_prefix s "https://" then Some ("https", string_drop 8 s) else None.
Definition demo_split (s : string) : option string := None.
Definition demo_uuid (n : nat) : string := "id" +:+ itoa (Z.of_nat n).
Definition demo_hash (salt p : string) : string := "argon:" +:+ p.
Definition demo_verify (p h : string) : bool := bool_decide (h = "argon:" +:+ p).
Definition demo_seal (nonce s : string) : string := "gcm:" +:+ s.
Definition demo_open (s : string) : option string :=
  if has_prefix s "gcm:" then Some (string_drop 4 s) else None.
Definition demo_secret (user seed : string) : string := user +:+ "-" +:+ seed.
Definition demo_totp (now : Z) (code secret : string) : bool := bool_decide (code = secret +:+ "@" +:+ itoa now).
Definition demo_recovery (raw : string) : string := "rec-" +:+ raw.
Definition demo_parse (s : string) : option (list string) := None.
Definition demo_encode (l : list string) : string := join "," l.
Definition demo_deps : Deps := mkDeps false [] (12 * Hour) (24 * Hour).

Definition demo_user (id name pw : string) (totp : bool) : StoreUser :=
  mkUser id name "" ("argon:" +:+ pw) (if totp then "gcm:seed" else "") totp (if totp then Some 1 else None) true false 0
    None None "local" "" "" 0 0.
Definition demo_session (raw user csrf amr : string) (created expires : Z) : Session :=
  mkSession (demo_sha raw) user csrf "ua" "ip" amr created created expires None.

(** Ann is the administrator; Bob may delete accounts. *)
Definition demo_db (totp : bool) : db :=
  mkDB (<["ann" := demo_user "ann" "annie" "correct horse" totp]> (<["bob" := demo_user "bob" "bobby" "battery staple" false]> ∅))
    (<["role-admin" := mkRole "role-admin" "admin" "" true ["*"] 0 0]>
       (<["role-ops" := mkRole "role-ops" "ops" "" false ["rbac.user.delete"] 0 0]> ∅))
    (<["b1" := mkBinding "b1" "ann" "role-admin" "global" None 0]>
       (<["b2" := mkBinding "b2" "bob" "role-ops" "global" None 0]> ∅))
    (<["sha:cookie-ann" := demo_session "cookie-ann" "ann" "csrf-ann" "pwd" 500 5000]>
       (<["sha:cookie-bob" := demo_session "cookie-bob" "bob" "csrf-bob" "pwd" 500 5000]> ∅))
    ∅ ∅ (<["security.totp_required_for_mutations" := "true"]> ∅) [] no_sso.
Definition demo_world (totp : bool) : world := mkWorld (demo_db totp) 0 0 (withAudit "") ∅ [].

Definition demo_req (who : string) (c : call) (params : list (string * string)) : request :=
  mkReq (call_method c) "/api/v1" "castor.example" "10.0.0.7:5555" true
    (<["Origin" := "https://castor.example"]> (<["X-Castor-CSRF" := "csrf-" +:+ who]> ∅))
    [("castor_session", "cookie-" +:+ who)] (list_to_map params) None false "" false.

Abbreviation demo_route := (route demo_clock demo_random demo_sha demo_url demo_split demo_deps demo_uuid
  demo_hash demo_verify demo_seal demo_open demo_secret demo_totp demo_recovery "" demo_parse demo_encode)
  (only parsing).
Abbreviation demo_serve := (serve demo_clock demo_random demo_sha demo_url demo_split demo_deps demo_uuid
  demo_hash demo_verify demo_seal demo_open demo_secret demo_totp demo_recovery "" demo_parse demo_encode)
  (only parsing).

(** What a reply says, without the state. *)
Definition status_of (x : outcome * world) : Z :=
  match x.1 with Reply rsp => rsp_Status rsp | Panicked => 0 end.
