(* ===== verification/AuthFacts.v ===== *)
(** * Relating the database before and after a request

    [rel R m]: whatever [m] does to the database is a step of [R], it does not
    rename the audited action, and it marks the audit record only as denied and
    only when it refuses with a 403.  [hrel] says the same of a handler, and that
    it replies.  Every statement about what handlers may change is an instance,
    proved by the rules below and the hint database [rel]. *)
From S2P Require Import Prelude GoStd AuthStore Rbac RbacProps Redact Middleware AuthApi Router.

Definition evolves (R : relation db) (w w' : world) : Prop :=
  R (aw_db w) (aw_db w') /\ ar_Action (aw_rec w') = ar_Action (aw_rec w).
(** The audit result is set only on a refusal. *)
Definition tidy (w w' : world) (refused : Prop) : Prop :=
  ar_resultSet (aw_rec w') = true ->
  ar_resultSet (aw_rec w) = true \/ (ar_Result (aw_rec w') = "denied" /\ refused).
Definition refusal {A} (x : result APIError A) : Prop := exists e, x = Err e /\ e_Status e = 403.

Definition rel {A} (R : relation db) (m : SE APIError A) : Prop :=
  forall w, evolves R w (m w).2 /\ tidy w (m w).2 (refusal (m w).1).
Definition hrel (R : relation db) (h : world -> outcome * world) : Prop :=
  forall w, evolves R w (h w).2 /\ exists rsp, (h w).1 = Reply rsp /\ tidy w (h w).2 (rsp_Status rsp = 403).
(** The database alone: what survives a middleware that starts a new audit record. *)
Definition dbrel (R : relation db) (h : world -> outcome * world) : Prop :=
  forall w, R (aw_db w) (aw_db (h w).2).
Lemma hrel_dbrel R h : hrel R h -> dbrel R h.
Proof. intros H w. apply H. Qed.

#[export] Instance evolves_preorder R `{!PreOrder R} : PreOrder (evolves R).
Proof.
  split; [by split|]. intros w1 w2 w3 [H1 H2] [H3 H4]. split; [by etrans|by rewrite H4].
Qed.

Create HintDb rel.

Section Rel.
Context (R : relation db) `{!PreOrder R}.

Lemma tidy_same w w' P : aw_rec w' = aw_rec w -> tidy w w' P.
Proof. intros E H. left. by rewrite <- E. Qed.
(** A step that leaves the audit record alone. *)
Lemma rel_step {A} (m : SE APIError A) :
  (forall w, R (aw_db w) (aw_db (m w).2) /\ aw_rec (m w).2 = aw_rec w) -> rel R m.
Proof. intros H w. destruct (H w) as [Hd Hr]. split; [split; [done|by rewrite Hr]|by apply tidy_same]. Qed.

Lemma rel_ret {A} (a : A) : rel R (mret a).
Proof. apply rel_step. by intros w. Qed.
Lemma rel_throw {A} e : rel (A:=A) R (throw e).
Proof. apply rel_step. by intros w. Qed.
Lemma rel_ask {A} (f : db -> A) : rel R (ask f).
Proof. apply rel_step. by intros w. Qed.
Lemma rel_guard c e : rel R (guard c e).
Proof. apply rel_step. intros w. by destruct c. Qed.
Lemma rel_query {A} (f : db -> result store_err A) e : rel R (query f e).
Proof. apply rel_step. intros w. unfold query. by destruct (f (aw_db w)). Qed.
Lemma rel_now clock : rel R (now_unix clock).
Proof. apply rel_step. by intros w. Qed.
Lemma rel_random random : rel R (RandomToken random).
Proof. apply rel_step. by intros w. Qed.
Lemma rel_uuid new_uuid : rel R (NewUUID new_uuid).
Proof. apply rel_step. by intros w. Qed.
Lemma rel_decode {A} (b : result APIError A) : rel R (decode b).
Proof. apply rel_step. by intros w. Qed.
Lemma rel_check o : rel R (check o).
Proof. apply rel_step. intros w. by destruct o. Qed.
Lemma rel_need_user r : rel R (need_user r).
Proof. apply rel_step. intros w. unfold need_user. by destruct (rq_User r). Qed.
Lemma rel_exec f : (forall d, R d (f d)) -> rel R (exec f).
Proof. intros H. apply rel_step. intros w. split; [apply H|done]. Qed.
Lemma rel_exec_now clock f : (forall n d, R d (f n d)) -> rel R (exec_now clock f).
Proof. intros H. apply rel_step. intros w. split; [apply H|done]. Qed.
Lemma rel_stmt f e : (forall d d', f d = Ok d' -> R d d') -> rel R (stmt f e).
Proof.
  intros H. apply rel_step. intros w. unfold stmt. destruct (f (aw_db w)) eqn:E0; simpl; [|done].
  split; [by apply H|done].
Qed.
Lemma rel_upd f :
  (forall w, aw_db (f w) = aw_db w /\ ar_Action (aw_rec (f w)) = ar_Action (aw_rec w) /\
     ar_resultSet (aw_rec (f w)) = ar_resultSet (aw_rec w)) -> rel R (upd f).
Proof.
  intros H w. unfold upd, evolves, tidy. simpl. destruct (H w) as (-> & -> & ->).
  split; [split; reflexivity|by left].
Qed.
Lemma rel_bind {A B} (m : SE APIError A) (f : A -> SE APIError B) :
  rel R m -> (forall a, rel R (f a)) -> rel R (m ≫= f).
Proof.
  intros Hm Hf w. unfold mbind, SE_bind. specialize (Hm w) as [He Ht].
  destruct (m w) as [[a|e] w'] eqn:E; simpl in *.
  - destruct (Hf a w') as [He' Ht']. split; [by etrans|]. intros Hs.
    destruct (Ht' Hs) as [Hs'|?]; [|by right]. destruct (Ht Hs') as [?|[_ (x & Hx & _)]]; [by left|done].
  - split; [done|]. intros Hs. destruct (Ht Hs) as [?|[? (x & [= ->] & ?)]]; [by left|right].
    split; [done|by exists x].
Qed.
Lemma rel_hash random hash_password p : rel R (HashPassword random hash_password p).
Proof. apply rel_bind; [apply rel_random|intros; apply rel_ret]. Qed.

(** Handlers. *)
Lemma hrel_WriteError r e : hrel R (WriteError r e).
Proof. intros w. split; [split; reflexivity|]. eexists. split; [done|]. by left. Qed.
Lemma hrel_seq {A} (m : SE APIError A) k r :
  rel R m -> (forall a, hrel R (k a)) ->
  hrel R (fun w => match m w with (Ok a, w) => k a w | (Err e, w) => WriteError r e w end).
Proof.
  intros Hm Hk w. specialize (Hm w) as [He Ht]. destruct (m w) as [[a|e] w'] eqn:E; simpl in *.
  - destruct (Hk a w') as (He' & rsp & Hr & Ht'). split; [by etrans|]. exists rsp. split; [done|].
    intros Hs. destruct (Ht' Hs) as [Hs'|?]; [|by right].
    destruct (Ht Hs') as [?|[_ (x & Hx & _)]]; [by left|done].
  - split; [exact He|]. eexists. split; [done|]. intros Hs.
    destruct (Ht Hs) as [?|[? (x & [= ->] & ?)]]; [by left|by right].
Qed.
End Rel.

#[export] Hint Resolve rel_bind rel_ret rel_throw rel_ask rel_guard rel_query rel_now rel_random rel_uuid
  rel_decode rel_check rel_need_user rel_exec rel_exec_now rel_stmt rel_upd rel_hash hrel_WriteError : rel.

(** A body whose replies only write the response: [ok], [created], [noContent]. *)
Definition only_replies (reply : world -> outcome * world) : Prop :=
  forall w0, aw_db (reply w0).2 = aw_db w0 /\ aw_rec (reply w0).2 = aw_rec w0 /\
    exists rsp, (reply w0).1 = Reply rsp.
Definition replies (body : SE APIError (world -> outcome * world)) : Prop :=
  forall w reply w', body w = (Ok reply, w') -> only_replies reply.

Lemma replies_ret f : only_replies f -> replies (mret f).
Proof. intros H w reply w' [= <- <-]. exact H. Qed.
Lemma replies_throw e : replies (throw e).
Proof. intros w reply w' H. done. Qed.
Lemma replies_bind {A} (m : SE APIError A) f : (forall a, replies (f a)) -> replies (m ≫= f).
Proof.
  intros H w reply w'. unfold mbind, SE_bind. destruct (m w) as [[a|e] w1]; [|done]. apply H.
Qed.
Lemma replies_ok v : replies (ok v).
Proof. apply replies_ret. intros w. repeat split. by eexists. Qed.
Lemma replies_created v : replies (created v).
Proof. apply replies_ret. intros w. repeat split. by eexists. Qed.
Lemma replies_noContent : replies (mret noContent).
Proof. apply replies_ret. intros w. repeat split. by eexists. Qed.
#[export] Hint Resolve replies_bind replies_throw replies_ok replies_created replies_noContent : rel.

Lemma hrel_body R `{!PreOrder R} body r :
  rel R (body r) -> replies (body r) -> hrel R (handle body r).
Proof.
  intros Hb Hr w. unfold handle. specialize (Hb w) as [He Ht]. specialize (Hr w).
  destruct (body r w) as [[reply|e] w'] eqn:E; simpl in *.
  - destruct (Hr _ _ eq_refl w') as (Hd & Hrec & rsp & Hrsp). split.
    + unfold evolves. rewrite Hd, Hrec. exact He.
    + exists rsp. split; [done|]. intros Hs. rewrite Hrec in Hs.
      destruct (Ht Hs) as [?|[_ (x & Hx & _)]]; [by left|done].
  - split; [exact He|]. eexists. split; [done|]. intros Hs.
    destruct (Ht Hs) as [?|[? (x & [= ->] & ?)]]; [by left|by right].
Qed.

(** Break the conditionals a body has between its statements. *)
Ltac rel_cases :=
  repeat first
    [ progress intros
    | match goal with
      | |- rel _ (match ?x with _ => _ end) => destruct x
      | |- replies (match ?x with _ => _ end) => destruct x
      | |- rel _ (mbind _ _) => apply rel_bind
      | |- replies (mbind _ _) => apply replies_bind
      end ].
Ltac rel_auto := rel_cases; eauto with rel.

(** ** Who signed in *)

Section SignIn.
Context (clock : nat -> Z) (sha256_hex : string -> string) (deps : Deps).

(** A live session of an active user, as the cookie names it. *)
Definition live_session (r : request) (d : db) (now : Z) (raw : string) (s : Session) (su : StoreUser) : Prop :=
  cookie SessionCookieName r = Some raw /\ raw <> "" /\
  db_sessions d !! sha256_hex raw = Some s /\ ss_RevokedAt s = None /\ now <= ss_ExpiresAt s /\
  db_users d !! ss_UserID s = Some su /\ u_IsActive su = true.

(** What a signed-in request does to its session. *)
Definition touched (d : db) (now now2 : Z) (hash : string) (s : Session) : db :=
  let e := slide deps d now s in
  if ss_ExpiresAt s <? e then TouchSession hash e now2 d else d.

Lemma resolveUser_cases r w :
  let d := aw_db w in let now := clock (aw_tick w) in
  (exists raw s su w', live_session r d now raw s su /\
     resolveUser clock sha256_hex deps r w =
       (Ok (buildUser su (sha256_hex raw) (ss_AMR s) (EffectiveRolesForUser (u_ID su) d)), w') /\
     aw_db w' = touched d now (clock (S (aw_tick w))) (sha256_hex raw) s) \/
  (exists w', resolveUser clock sha256_hex deps r w = (Err ErrUnauthenticated, w') /\ aw_db w' = d /\
     forall raw s su, ~ live_session r d now raw s su).
Proof.
  intros d now. unfold resolveUser, live_session.
  destruct (cookie SessionCookieName r) as [[|c raw]|] eqn:Ec;
    [right; exists w; split; [done|split; [done|intros ??? (? & ? & _); congruence]]
    | |right; exists w; split; [done|split; [done|intros ??? (? & ? & _); congruence]]].
  unfold mbind, SE_bind, query, GetSession. fold d.
  destruct (db_sessions d !! sha256_hex (String c raw)) as [s|] eqn:Es;
    [|right; eexists; split; [done|split; [done|intros ??? (? & ? & ? & _); congruence]]].
  simpl. fold now. unfold guard.
  destruct (bool_decide (is_Some (ss_RevokedAt s)) || (ss_ExpiresAt s <? now)) eqn:Eg; simpl.
  { right. eexists. split; [done|split; [done|]]. intros raw' s' su (Hc & _ & Hs & Hr & He & _).
    injection Hc as <-. rewrite Es in Hs. injection Hs as <-.
    apply orb_true_iff in Eg as [Eg%bool_decide_eq_true|Eg%Z.ltb_lt]; [|lia].
    rewrite Hr in Eg. by destruct Eg. }
  apply orb_false_iff in Eg as [Er%bool_decide_eq_false Ee%Z.ltb_ge].
  unfold GetUserByID. simpl. fold d.
  destruct (db_users d !! ss_UserID s) as [su|] eqn:Eu;
    [|right; eexists; split; [done|split; [done|intros ??? (? & ? & ? & ? & ? & ? & _); congruence]]].
  simpl. destruct (u_IsActive su) eqn:Ea; simpl;
    [|right; eexists; split; [done|split; [done|intros ??? (? & ? & ? & ? & ? & ? & ?); congruence]]].
  left. exists (String c raw), s, su. unfold touched. fold d now.
  assert (ss_RevokedAt s = None) by (destruct (ss_RevokedAt s); [by destruct Er; eauto|done]).
  destruct (ss_ExpiresAt s <? slide deps d now s) eqn:Et; simpl;
    eexists; (split; [done|split; [reflexivity|reflexivity]]).
Qed.

(** A live token of an active user. *)
Lemma resolveBearer_cases raw w :
  let d := aw_db w in
  (exists t su w', GetAPITokenByHash (sha256_hex raw) (clock (aw_tick w)) d = Ok t /\
     db_users d !! tk_UserID t = Some su /\ u_IsActive su = true /\
     resolveBearer clock sha256_hex raw w =
       (Ok (token_user su (EffectiveRolesForUser (u_ID su) d) (tk_Permissions t)), w') /\
     aw_db w' = TouchAPIToken (tk_ID t) (clock (S (aw_tick w))) d) \/
  (exists w', resolveBearer clock sha256_hex raw w = (Err ErrUnauthenticated, w') /\ aw_db w' = d).
Proof.
  intros d. unfold resolveBearer, mbind, SE_bind, query. simpl. fold d.
  destruct (GetAPITokenByHash _ _ d) as [t|] eqn:Et; [|right; eexists; by split].
  unfold GetUserByID. simpl. fold d.
  destruct (db_users d !! tk_UserID t) as [su|] eqn:Eu; [|right; eexists; by split].
  simpl. unfold guard. destruct (u_IsActive su) eqn:Ea; simpl; [|right; eexists; by split].
  left. exists t, su. eexists. repeat split; done.
Qed.

(** The principal a request stands for. *)
Definition signed_in (r : request) (w : world) (u : User) : Prop :=
  exists w', (if bool_decide (bearerToken r = "") then resolveUser clock sha256_hex deps r w
              else resolveBearer clock sha256_hex (bearerToken r) w) = (Ok u, w').
End SignIn.

(** ** The protected group *)

Section Protect.
Context (clock : nat -> Z) (sha256_hex : string -> string) (url_Parse : string -> option (string * string))
  (deps : Deps).

(** The context the authentication adds to a request. *)
Definition authed (u : User) (r : request) : request :=
  if bool_decide (bearerToken r = "") then WithUser u r else WithBearerAuth (WithUser u r).

(** What authentication may write: the expiry of the session, or the date of last
    use of the token. *)
Definition auth_step (d d' : db) : Prop :=
  d' = d \/ (exists now now2 h s, db_sessions d !! h = Some s /\ d' = touched deps d now now2 h s) \/
  (exists id now, d' = TouchAPIToken id now d).

Definition csrf_ok (r : request) (u : User) (d : db) : Prop :=
  isMutating (rq_Method r) = true -> bearerToken r = "" ->
  originAllowed url_Parse deps r = true /\
  exists s, GetSession (pr_SessionHashID u) d = Ok s /\ header CSRFHeaderName r = ss_CSRFToken s /\
    header CSRFHeaderName r <> "".

(** The request is let in, as [u]. *)
Definition passes (r : request) (w : world) (u : User) : Prop :=
  bootstrapRequired (aw_db w) = false /\ signed_in clock sha256_hex deps r w u /\ csrf_ok r u (aw_db w).

Lemma auth_step_same d d' :
  auth_step d d' -> db_users d' = db_users d /\ db_roles d' = db_roles d /\ db_bindings d' = db_bindings d /\
    db_settings d' = db_settings d /\ db_recovery d' = db_recovery d /\ db_audit d' = db_audit d.
Proof.
  intros [->|[(n1 & n2 & h & s & _ & ->)|(id & n & ->)]]; [done| |done].
  unfold touched. by destruct (_ <? _).
Qed.

Lemma auth_step_csrf d d' h s :
  auth_step d d' -> GetSession h d = Ok s ->
  exists s', GetSession h d' = Ok s' /\ ss_CSRFToken s' = ss_CSRFToken s.
Proof.
  unfold GetSession. intros Hs Hg. destruct (db_sessions d !! h) as [s0|] eqn:E; [|done].
  injection Hg as <-. destruct Hs as [->|[(n1 & n2 & k & t & _ & ->)|(id & n & ->)]].
  - rewrite E. by exists s0.
  - unfold touched. destruct (_ <? _); simpl; [|rewrite E; by exists s0].
    destruct (decide (k = h)) as [->|Hne].
    + rewrite lookup_alter_eq, E. simpl. by eexists.
    + rewrite lookup_alter_ne, E by done. by exists s0.
  - simpl. rewrite E. by exists s0.
Qed.

Lemma auth_step_csrf_none d d' h e :
  auth_step d d' -> GetSession h d = Err e -> GetSession h d' = Err ErrNotFound.
Proof.
  unfold GetSession. intros Hs Hg. destruct (db_sessions d !! h) as [s0|] eqn:E; [done|].
  destruct Hs as [->|[(n1 & n2 & k & t & _ & ->)|(id & n & ->)]]; simpl; [by rewrite E| |by rewrite E].
  unfold touched. destruct (_ <? _); simpl; [|by rewrite E].
  destruct (decide (k = h)) as [->|Hne]; [by rewrite lookup_alter_eq, E|by rewrite lookup_alter_ne, E by done].
Qed.

(** The principal and what authentication wrote, or a refusal. *)
Lemma authenticate_cases r w :
  (exists u w1, signed_in clock sha256_hex deps r w u /\ auth_step (aw_db w) (aw_db w1) /\
     forall h, BearerOrSession clock sha256_hex deps h r w = h (authed u r) w1) \/
  ((forall u, ~ signed_in clock sha256_hex deps r w u) /\ exists w1, aw_db w1 = aw_db w /\
     forall h, BearerOrSession clock sha256_hex deps h r w = WriteError r ErrUnauthenticated w1).
Proof.
  unfold BearerOrSession, signed_in, authed, auth_step. case_bool_decide as Eb.
  - destruct (resolveUser_cases clock sha256_hex deps r w)
      as [(raw & s & su & w1 & (_ & _ & Hs & _) & -> & Hd)|(w1 & -> & Hd & _)].
    + left. eexists _, w1. split; [by eexists|split; [|done]]. right. left.
      exists (clock (aw_tick w)), (clock (S (aw_tick w))), (sha256_hex raw), s. by split.
    + right. split; [intros u [w' H]; done|]. exists w1. by split.
  - destruct (resolveBearer_cases clock sha256_hex (bearerToken r) w)
      as [(t & su & w1 & _ & _ & _ & -> & Hd)|(w1 & -> & Hd)].
    + left. eexists _, w1. split; [by eexists|split; [|done]]. right. right. by eexists _, _.
    + right. split; [intros u [w' H]; done|]. exists w1. by split.
Qed.

Lemma signed_in_unique r w u u' :
  signed_in clock sha256_hex deps r w u -> signed_in clock sha256_hex deps r w u' -> u = u'.
Proof. intros [w1 H1] [w2 H2]. rewrite H1 in H2. by injection H2. Qed.

(** The cross-site check on an authenticated request. *)
Lemma csrf_cases r u d w1 :
  rq_Bearer r = false -> auth_step d (aw_db w1) ->
  (csrf_ok r u d /\ forall h, CSRF url_Parse deps h (authed u r) w1 = h (authed u r) w1) \/
  (~ csrf_ok r u d /\ exists e, e_Status e ∈ [401; 403] /\
     forall h, CSRF url_Parse deps h (authed u r) w1 = WriteError (authed u r) e w1).
Proof.
  intros Hb Hd. unfold CSRF, csrf_ok.
  assert (rq_Method (authed u r) = rq_Method r) as -> by (unfold authed; by case_bool_decide).
  assert (header CSRFHeaderName (authed u r) = header CSRFHeaderName r) as ->
    by (unfold authed; by case_bool_decide).
  assert (originAllowed url_Parse deps (authed u r) = originAllowed url_Parse deps r) as ->
    by (unfold authed; by case_bool_decide).
  assert (rq_User (authed u r) = Some u) as -> by (unfold authed; by case_bool_decide).
  assert (rq_Bearer (authed u r) = negb (bool_decide (bearerToken r = ""))) as ->
    by (unfold authed; case_bool_decide; simpl; [by rewrite Hb|done]).
  destruct (isMutating (rq_Method r)); [simpl|left; by split].
  case_bool_decide as Eb; simpl; [|by left].
  destruct (originAllowed url_Parse deps r); simpl.
  2:{ right. split; [by intros [? _]|]. eexists. split; [|done]. simpl. set_solver. }
  destruct (GetSession (pr_SessionHashID u) d) as [s|e] eqn:Es.
  - destruct (auth_step_csrf _ _ _ _ Hd Es) as (s' & -> & ->).
    destruct (decide (header CSRFHeaderName r = ss_CSRFToken s /\ header CSRFHeaderName r <> "")) as [[H1 H2]|Hn].
    + left. rewrite (bool_decide_eq_false_2 _ H2), (bool_decide_eq_true_2 _ H1). split; [|done].
      intros _ _. split; [done|]. by exists s.
    + right. split; [intros H; destruct H as (_ & s2 & [= <-] & ?); tauto|].
      exists ErrCSRFFailed. split; [simpl; set_solver|]. intros h.
      destruct (bool_decide (header CSRFHeaderName r = "")) eqn:E1; [done|].
      destruct (bool_decide (header CSRFHeaderName r = ss_CSRFToken s)) eqn:E2; [|done].
      apply bool_decide_eq_false in E1. apply bool_decide_eq_true in E2. tauto.
  - right. rewrite (auth_step_csrf_none _ _ _ _ Hd Es).
    split; [intros H; destruct H as (_ & s2 & ? & _); done|].
    exists ErrUnauthenticated. split; [simpl; set_solver|done].
Qed.

(** The gate of the protected group: a request passes as exactly one principal, or
    is refused whatever the handler behind the gate. *)
Lemma protect_cases r w :
  rq_Bearer r = false ->
  (exists u w1, passes r w u /\ auth_step (aw_db w) (aw_db w1) /\
     forall h, protect clock sha256_hex url_Parse deps h r w = h (authed u r) w1) \/
  ((forall u, ~ passes r w u) /\ exists rsp w1, rsp_Status rsp ∈ [401; 403; 409] /\
     auth_step (aw_db w) (aw_db w1) /\
     forall h, protect clock sha256_hex url_Parse deps h r w = (Reply rsp, w1)).
Proof.
  intros Hb. unfold protect, bootstrapGate, passes. destruct (bootstrapRequired (aw_db w)) eqn:Eb.
  { right. split; [by intros u [? _]|]. eexists _, _. split; [|split; [|done]]; simpl; [set_solver|by left]. }
  destruct (authenticate_cases r w) as [(u & w1 & Hs & Hd & Hh)|(Hn & w1 & Hd & Hh)].
  - destruct (csrf_cases r u _ w1 Hb Hd) as [[Hc Hr]|(Hc & e & He & Hr)].
    + left. exists u, w1. split; [done|split; [done|]]. intros h. by rewrite Hh, Hr.
    + right. split; [intros u' (_ & Hs' & Hc'); by rewrite (signed_in_unique _ _ _ _ Hs' Hs) in Hc'|].
      exists (mkResp (e_Status e) (error_body (authed u r) e)), (WriteError (authed u r) e w1).2.
      split; [simpl; set_solver|split; [exact Hd|]]. intros h. by rewrite Hh, Hr.
  - right. split; [intros u (_ & Hs & _); by apply (Hn u)|].
    exists (mkResp 401 (error_body r ErrUnauthenticated)), (WriteError r ErrUnauthenticated w1).2.
    split; [simpl; set_solver|split; [by left|]]. intros h. by rewrite Hh.
Qed.
End Protect.

(** ** Every handler against a relation *)

Section Inner.
Context (clock : nat -> Z) (random : nat -> string) (sha256_hex : string -> string) (deps : Deps)
  (new_uuid : nat -> string) (hash_password : string -> string -> string)
  (verify_password : string -> string -> bool) (seal : string -> string -> string)
  (open_sealed : string -> option string) (totp_secret : string -> string -> string)
  (valid_totp : Z -> string -> string -> bool) (recovery_code : string -> string) (bootstrapToken : string)
  (parse_labels : string -> option (list string)) (encode_labels : list string -> string).

(** The statements the handlers run, as steps of [R]; the ones that delete accounts,
    bindings and roles, and the ones that give permissions, are apart. *)
Class Steps (R : relation db) : Prop := {
  step_pre :: PreOrder R;
  step_failure id d n : R d (RecordLoginFailure id loginFailThreshold loginLockDuration n d);
  step_success id d n : R d (RecordLoginSuccess id n d);
  step_session s d d' : ss_ExpiresAt s = ss_CreatedAt s + secs (d_SessionTTL deps) ->
    CreateSession s d = Ok d' -> R d d';
  step_revoke h n d : R d (RevokeSession h n d);
  step_revoke_other u h n d : R d (RevokeOtherUserSessions u h n d);
  step_amr h a d : R d (UpgradeSessionAMR h a d);
  step_consume id n d d' : ConsumeRecoveryCode id n d = Ok d' -> R d d';
  step_replace u ids hs n d : R d (default d (ReplaceRecoveryCodes u ids hs n d));
  step_pending id e n d : R d (SetTOTPPending id e n d);
  step_confirm id n d : R d (ConfirmTOTP id n d);
  step_disable id n d : R d (DisableTOTP id n d);
  step_password id h n d : R d (SetPasswordHash id h n d);
  step_create_user u n d d' : CreateUser u n d = Ok d' -> R d d';
  step_profile id e a n d : R d (UpdateUserProfile id e a n d);
  step_create_role x n d d' : CreateRole x n d = Ok d' -> R d d';
  step_setting k v d : R d (SetSetting k v d);
  step_token t d d' : CreateAPIToken t d = Ok d' -> R d d';
  step_revoke_token id u n d d' : RevokeAPIToken id u n d = Ok d' -> R d d' }.

Definition gives (c : call) : bool :=
  match c with CBootstrap _ | CCreateBinding _ | CUpdateRole _ => true | _ => false end.
Definition deletes (c : call) : bool :=
  match c with CDeleteUser | CDeleteBinding | CDeleteRole => true | _ => false end.

Context (R : relation db) `{!Steps R}.
Ltac step :=
  first [ apply step_failure | apply step_success | apply step_revoke | apply step_revoke_other
        | apply step_amr | apply step_replace | apply step_pending | apply step_confirm | apply step_disable
        | apply step_password | apply step_profile | apply step_setting
        | eapply step_session; [|eassumption] | eapply step_consume; eassumption
        | eapply step_create_user; eassumption | eapply step_create_role; eassumption
        | eapply step_token; eassumption
        | eapply step_revoke_token; eassumption | reflexivity ].
Hint Extern 1 (R _ _) => step : rel.
Hint Extern 1 (PreOrder R) => apply step_pre : rel.

Lemma rel_mint r id amr : rel R (mintSession clock random sha256_hex deps r id amr).
Proof. unfold mintSession. rel_auto. Qed.

Lemma rel_recovery code codes : rel R (try_recovery clock verify_password code codes).
Proof.
  induction codes as [|c codes IH]; simpl; rel_auto.
  apply rel_step. intros w. simpl. destruct (ConsumeRecoveryCode _ _ _) eqn:E; simpl; [by split; [eapply step_consume|]|done].
Qed.

Lemma rel_generate n :
  rel R (GenerateRecoveryCodes random hash_password recovery_code n).
Proof. induction n; simpl; rel_auto. Qed.
Lemma rel_new_ids n : rel R (new_ids new_uuid n).
Proof. induction n; simpl; rel_auto. Qed.
Hint Resolve rel_mint rel_recovery rel_generate rel_new_ids : rel.

Lemma rel_verify u code :
  rel R (verifyTOTPOrRecovery clock verify_password open_sealed valid_totp u code).
Proof. unfold verifyTOTPOrRecovery. rel_auto. Qed.
Lemma rel_holds r perms s : rel R (requireActorHolds r perms s).
Proof.
  unfold requireActorHolds. case_bool_decide; [by apply rel_ret, step_pre|]. intros w.
  unfold AddAuditDetail, SetAuditResult, on_audit, mbind, SE_bind, upd, throw. simpl.
  destruct (rq_Audited r); simpl; (split; [split; [reflexivity|done]|]).
  - intros _. right. split; [done|]. by eexists.
  - by left.
Qed.
Lemma rel_permissions perms : rel R (check_permissions perms).
Proof. unfold check_permissions. rel_auto. Qed.
Lemma rel_target r t i n : rel R (upd (SetAuditTarget r t i n)).
Proof. apply rel_upd; [apply _|]. intros w. unfold SetAuditTarget, on_audit. by destruct (rq_Audited r). Qed.
Hint Resolve rel_verify rel_holds rel_permissions rel_target : rel.

Lemma rel_settings b r : hrel R (UpdateSettings deps parse_labels encode_labels b r).
Proof.
  apply (hrel_seq R (store_settings deps encode_labels b) (fun _ => GetSettings deps parse_labels r)).
  - unfold store_settings. rel_auto.
  - intros _. unfold GetSettings. apply hrel_body; rel_auto.
Qed.

Lemma inner_rel c r :
  gives c = false -> deletes c = false ->
  hrel R (inner clock random sha256_hex deps new_uuid hash_password verify_password seal open_sealed
            totp_secret valid_totp recovery_code bootstrapToken parse_labels encode_labels c r).
Proof.
  destruct c; simpl; intros Hs Hs'; try done.
  - unfold Login. apply hrel_body; rel_auto.
  - unfold Logout. apply hrel_body; rel_auto.
  - unfold TOTPVerify. apply hrel_body; rel_auto.
  - unfold TOTPEnroll. apply hrel_body; rel_auto.
  - unfold TOTPConfirm. apply hrel_body; rel_auto.
  - unfold TOTPDisable. apply hrel_body; rel_auto.
  - unfold PasswordChange. apply hrel_body; rel_auto.
  - unfold CreateUserHandler. apply hrel_body; rel_auto.
  - unfold UpdateUserHandler. apply hrel_body; rel_auto.
  - unfold CreateRoleHandler. apply hrel_body; rel_auto.
  - apply rel_settings.
  - unfold CreateAPITokenHandler. apply hrel_body; rel_auto.
  - unfold DeleteAPITokenHandler. apply hrel_body; rel_auto.
Qed.

(** The deletions. *)
Class Steps_del : Prop := {
  step_delete_user id d d' : DeleteUser id d = Ok d' -> R d d';
  step_delete_binding u b d d' : DeleteBinding u b d = Ok d' -> R d d';
  step_delete_role id d d' : DeleteRole id d = Ok d' -> R d d' }.
Section Del.
Context `{!Steps_del}.
Hint Extern 1 (R _ _) => first [ eapply step_delete_user; eassumption | eapply step_delete_binding; eassumption
                               | eapply step_delete_role; eassumption ] : rel.
Lemma inner_rel_del c r :
  deletes c = true ->
  hrel R (inner clock random sha256_hex deps new_uuid hash_password verify_password seal open_sealed
            totp_secret valid_totp recovery_code bootstrapToken parse_labels encode_labels c r).
Proof.
  destruct c; try done; intros _; simpl.
  - unfold DeleteUserHandler. apply hrel_body; rel_auto.
  - unfold DeleteBindingHandler. apply hrel_body; rel_auto.
  - unfold DeleteRoleHandler. apply hrel_body; rel_auto.
Qed.
End Del.

(** What gives permissions. *)
Class Steps_give : Prop := {
  step_create_binding b d d' : CreateBinding b d = Ok d' -> R d d';
  step_update_role id de pe n d : R d (UpdateRole id de pe n d);
  step_bootstrap a b c e f n d d' : BootstrapFirstAdmin a b c e f n d = Ok d' -> R d d' }.
Section Give.
Context `{!Steps_give}.
Hint Extern 1 (R _ _) => first [ eapply step_create_binding; eassumption | apply step_update_role
                               | eapply step_bootstrap; eassumption ] : rel.
Lemma inner_rel_give c r :
  gives c = true ->
  hrel R (inner clock random sha256_hex deps new_uuid hash_password verify_password seal open_sealed
            totp_secret valid_totp recovery_code bootstrapToken parse_labels encode_labels c r).
Proof.
  destruct c; try done; intros _; simpl.
  - unfold Bootstrap. apply hrel_body; rel_auto.
  - unfold CreateBindingHandler. apply hrel_body; rel_auto.
  - unfold UpdateRoleHandler. apply hrel_body; rel_auto.
Qed.
End Give.

Lemma inner_rel_all `{!Steps_del, !Steps_give} c r :
  hrel R (inner clock random sha256_hex deps new_uuid hash_password verify_password seal open_sealed
            totp_secret valid_totp recovery_code bootstrapToken parse_labels encode_labels c r).
Proof.
  destruct (gives c) eqn:Eg; [by apply inner_rel_give|].
  destruct (deletes c) eqn:Ed; [by apply inner_rel_del|by apply inner_rel].
Qed.
End Inner.

(** ** The middlewares against a relation *)

Lemma hrel_aal R `{!PreOrder R} h r : hrel R (h r) -> hrel R (RequireAAL h r).
Proof.
  intros Hh w. unfold RequireAAL. destruct (negb _); [apply Hh|].
  destruct (rq_User r); [|by apply hrel_WriteError]. destruct (_ && _); [by apply hrel_WriteError|apply Hh].
Qed.
Lemma hrel_permission R `{!PreOrder R} perm f h r : hrel R (h r) -> hrel R (RequirePermission perm f h r).
Proof.
  intros Hh w. unfold RequirePermission. destruct (rq_User r); [|by apply hrel_WriteError].
  destruct (negb _); [|apply Hh].
  unfold markDenied, on_audit. destruct (rq_Audited r); [|by apply hrel_WriteError].
  split; [by split|]. eexists. split; [done|]. intros _. by right.
Qed.

Section Mounted.
Context (clock : nat -> Z) (sha256_hex : string -> string) (url_Parse : string -> option (string * string))
  (deps : Deps) (S : relation db) `{!PreOrder S}
  (Hauth : forall d d', auth_step deps d d' -> S d d') (Haudit : forall e d, S d (InsertAudit e d)).

Lemma audit_rel action h r : dbrel S (h (with_audited r)) -> dbrel S (AuditWrap clock action h r).
Proof.
  intros Hh w. unfold AuditWrap. specialize (Hh (on_rec (fun _ => withAudit action) w)). simpl in Hh.
  destruct (h (with_audited r) (on_rec (fun _ => withAudit action) w)) as [[rsp|] w']; [|exact Hh].
  simpl in *. etrans; [exact Hh|apply Haudit].
Qed.

Lemma aal_rel h r : dbrel S (h r) -> dbrel S (RequireAAL h r).
Proof.
  intros Hh w. unfold RequireAAL. destruct (negb _); [apply Hh|].
  destruct (rq_User r); [|reflexivity]. destruct (_ && _); [reflexivity|apply Hh].
Qed.

Lemma permission_rel perm f h r : dbrel S (h r) -> dbrel S (RequirePermission perm f h r).
Proof.
  intros Hh w. unfold RequirePermission. destruct (rq_User r); [|reflexivity].
  destruct (negb _); [|apply Hh]. simpl. unfold markDenied, on_audit. destruct (rq_Audited r); reflexivity.
Qed.

Definition public (c : call) : bool := match c with CBootstrap _ | CLogin _ => true | _ => false end.

Lemma protect_rel h r w :
  rq_Bearer r = false ->
  (forall u r', signed_in clock sha256_hex deps r w u -> rq_User r' = Some u -> dbrel S (h r')) ->
  S (aw_db w) (aw_db (protect clock sha256_hex url_Parse deps h r w).2).
Proof.
  intros Hb Hh.
  destruct (protect_cases clock sha256_hex url_Parse deps r w Hb)
    as [(u & w1 & (_ & Hs & _) & Hd & ->)|(_ & rsp & w1 & _ & Hd & ->)]; [|by apply Hauth].
  etrans; [by apply Hauth|]. apply (Hh u); [done|]. unfold authed. by case_bool_decide.
Qed.

Lemma mounted_rel c h r w :
  rq_Bearer r = false ->
  (forall r', (public c = false -> exists u, signed_in clock sha256_hex deps r w u /\ rq_User r' = Some u) ->
     dbrel S (h r')) ->
  S (aw_db w) (aw_db (mounted clock sha256_hex url_Parse deps c h r w).2).
Proof.
  intros Hb Hh.
  destruct c; simpl in *; unfold admin, gated;
    first [ by apply Hh
          | unfold bootstrapGate; destruct (bootstrapRequired _); [reflexivity|by apply Hh]
          | apply protect_rel; [done|]; intros u r' Hs Hu; apply audit_rel;
            try apply aal_rel; try apply permission_rel; apply Hh; intros _; exists u; by split ].
Qed.
End Mounted.

(** ** The base chain *)

Section Base.
Context (clock : nat -> Z) (random : nat -> string) (sha256_hex : string -> string)
  (url_Parse : string -> option (string * string)) (split_host_port : string -> option string) (deps : Deps).

Lemma signed_in_same r r' w w' u :
  rq_Headers r' = rq_Headers r -> rq_Cookies r' = rq_Cookies r ->
  aw_db w' = aw_db w -> aw_tick w' = aw_tick w ->
  signed_in clock sha256_hex deps r w u -> signed_in clock sha256_hex deps r' w' u.
Proof.
  intros Hh Hc Hd Ht [w1 H]. unfold signed_in.
  assert (bearerToken r' = bearerToken r) as -> by (unfold bearerToken, header; by rewrite Hh).
  revert H. generalize (bearerToken r) as raw. intros raw H. destruct (bool_decide _).
  - destruct (resolveUser_cases clock sha256_hex deps r w)
      as [(k & s & su & w2 & Hl & Hr & _)|(w2 & Hr & _)]; rewrite Hr in H; [|done].
    injection H as <- _.
    assert (live_session sha256_hex r' (aw_db w') (clock (aw_tick w')) k s su) as Hl'.
    { unfold live_session, cookie in *. by rewrite Hc, Hd, Ht. }
    destruct (resolveUser_cases clock sha256_hex deps r' w')
      as [(raw' & s' & su' & w3 & Hl2 & Hr' & _)|(w3 & _ & _ & Hn)]; [|by apply Hn in Hl'].
    exists w3. rewrite Hr', Hd. destruct Hl' as (C1 & _ & S1 & _ & _ & U1 & _).
    destruct Hl2 as (C2 & _ & S2 & _ & _ & U2 & _). by simplify_eq.
  - destruct w as [d t rnd rec hdr ck], w' as [d' t' rnd' rec' hdr' ck']. simpl in Hd, Ht. subst d' t'.
    unfold resolveBearer, mbind, SE_bind, query, now_unix, guard in *. simpl in *.
    destruct (GetAPITokenByHash _ _ _) as [tok|]; [|done]. simpl in *.
    destruct (GetUserByID _ _) as [su|]; [|done]. simpl in *.
    destruct (negb _); simpl in *; [done|]. injection H as <- _. by eexists.
Qed.

(** The handler runs on a request and in a state that differ only in the request
    id, the client's address and the response headers; a panic becomes a 500. *)
Lemma base_cases h r w :
  exists r' w', rq_Headers r' = rq_Headers r /\ rq_Cookies r' = rq_Cookies r /\
    rq_Method r' = rq_Method r /\ rq_Params r' = rq_Params r /\ rq_Host r' = rq_Host r /\
    rq_Bearer r' = rq_Bearer r /\ rq_User r' = rq_User r /\ rq_Audited r' = rq_Audited r /\
    aw_db w' = aw_db w /\ aw_tick w' = aw_tick w /\
    base_chain random split_host_port deps h r w =
      match h r' w' with (Panicked, w2) => WriteError r' ErrInternal w2 | x => x end.
Proof.
  unfold base_chain, RequestID, RealIP, Recoverer, SecurityHeaders.
  set (p := if bool_decide (header "X-Request-Id" r = "") then _ else _).
  assert (aw_db p.2 = aw_db w /\ aw_tick p.2 = aw_tick w) as [Hd Ht] by (unfold p; by case_bool_decide).
  destruct p as [id w0]. simpl in Hd, Ht.
  eexists (with_remote _ (WithRequestID id r)), _. do 8 (split; [reflexivity|]).
  split; [|split; [|reflexivity]]; repeat case_match; simpl; done.
Qed.
End Base.

(** ** Whole requests *)

Section Whole.
Context (clock : nat -> Z) (random : nat -> string) (sha256_hex : string -> string)
  (url_Parse : string -> option (string * string)) (split_host_port : string -> option string)
  (deps : Deps) (new_uuid : nat -> string) (hash_password : string -> string -> string)
  (verify_password : string -> string -> bool) (seal : string -> string -> string)
  (open_sealed : string -> option string) (totp_secret : string -> string -> string)
  (valid_totp : Z -> string -> string -> bool) (recovery_code : string -> string) (bootstrapToken : string)
  (parse_labels : string -> option (list string)) (encode_labels : list string -> string).

Abbreviation inner := (inner clock random sha256_hex deps new_uuid hash_password verify_password seal
  open_sealed totp_secret valid_totp recovery_code bootstrapToken parse_labels encode_labels) (only parsing).
Abbreviation route := (route clock random sha256_hex url_Parse split_host_port deps new_uuid hash_password
  verify_password seal open_sealed totp_secret valid_totp recovery_code bootstrapToken
  parse_labels encode_labels) (only parsing).
Abbreviation serve := (serve clock random sha256_hex url_Parse split_host_port deps new_uuid hash_password
  verify_password seal open_sealed totp_secret valid_totp recovery_code bootstrapToken
  parse_labels encode_labels) (only parsing).

Context (S : relation db) `{!PreOrder S}
  (Hauth : forall d d', auth_step deps d d' -> S d d') (Haudit : forall e d, S d (InsertAudit e d)).

(** One request: what its handler does, as a principal signed in when the route
    asks for one. *)
Lemma route_dbrel c r w :
  rq_Bearer r = false ->
  (forall r', (public c = false -> exists u, signed_in clock sha256_hex deps r w u /\ rq_User r' = Some u) ->
     dbrel S (inner c r')) ->
  S (aw_db w) (aw_db (route c r w).2).
Proof.
  intros Hb Hh. unfold Router.route.
  match goal with |- context [base_chain _ _ _ ?h r w] =>
    destruct (base_cases random split_host_port deps h r w)
      as (r' & w' & Hhd & Hck & Hm & _ & _ & Hb' & _ & _ & Hd & Ht & ->) end.
  rewrite <- Hd, Hm. case_bool_decide; [|reflexivity].
  assert (S (aw_db w') (aw_db (mounted clock sha256_hex url_Parse deps c (inner c) r' w').2)) as Hk.
  { apply mounted_rel; [done|done|done|by rewrite Hb'|]. intros r2 Hr. apply Hh. intros Hp.
    destruct (Hr Hp) as (u & Hs & Hu). exists u. split; [|done].
    by apply (signed_in_same clock sha256_hex deps r' r w' w). }
  unfold call_handler. by destruct (mounted _ _ _ _ _ _ r' w') as [[|] ?].
Qed.

(** Any run of requests, for a relation every statement is a step of. *)
Lemma serve_dbrel `{!Steps deps S, !Steps_del S, !Steps_give S} l w :
  Forall (fun x => rq_Bearer x.2 = false) l -> S (aw_db w) (aw_db (serve l w)).
Proof.
  intros Hl. revert w. induction Hl as [|[c r] l Hb Hl IH]; intros w; [reflexivity|]. simpl.
  etrans; [|apply IH]. apply route_dbrel; [done|]. intros r' _. by apply hrel_dbrel, inner_rel_all.
Qed.
End Whole.
