(* ===== verification/AuthzProps.v ===== *)
(** * What the identity surface guarantees

    The gate in front of every mutation and its audit row, the lifetime of
    sessions, sign-in and lockout, the second factor, and the administration of
    users, roles and bindings: nobody gains what the caller does not hold. *)
From S2P Require Import Prelude GoStd AuthStore Rbac RbacProps Redact Middleware AuthApi Router AuthDemo AuthFacts.

(** ** The gate and the audit row *)

Section Gate.
Context (clock : nat -> Z) (sha256_hex : string -> string)
  (url_Parse : string -> option (string * string)) (deps : Deps).

Lemma method_authed u r : rq_Method (with_audited (authed u r)) = rq_Method r.
Proof. unfold authed. by case_bool_decide. Qed.
Lemma user_authed u r : rq_User (with_audited (authed u r)) = Some u.
Proof. unfold authed. by case_bool_decide. Qed.

(** What a route of router.go asks for behind the session and origin check: an
    audit row, the second factor or not, and the permission it needs, with the
    scope it is looked up in, if it needs one. *)
Record demand := mkDemand {
  dm_Action : string; dm_StepUp : bool; dm_Perm : option (string * (request -> Scope)) }.
(** The chain the route is mounted with. *)
Definition chain_of (d : demand) (h : request -> world -> outcome * world) : request -> world -> outcome * world :=
  AuditWrap clock (dm_Action d)
    ((if dm_StepUp d then RequireAAL else fun h => h)
       (match dm_Perm d with Some (perm, scopeFn) => RequirePermission perm scopeFn h | None => h end)).
(** What it asks of the principal. *)
Definition meets (d : demand) (r : request) (u : User) (s : db) : Prop :=
  (dm_StepUp d = true -> StepUpRequired s (Some u) = false) /\
  (forall perm scopeFn, dm_Perm d = Some (perm, scopeFn) ->
     Can (Some u) perm (scopeFn (with_audited (authed u r))) = true).

(** A refusal of the chain, and its audit row. *)
Local Ltac denied_with Hu :=
  eexists _, _, _; split_and!; cycle -1; [intros h; reflexivity|..];
    [done|reflexivity|..]; unfold audit_entry; rewrite Hu; done.

(** Past the session: step-up, then the permission, then the handler. *)
Lemma chain_cases d r u w1 :
  isMutating (rq_Method r) = true ->
  meets d r u (aw_db w1) \/
  (~ meets d r u (aw_db w1) /\
   exists rsp w' e, rsp_Status rsp = 403 /\ aw_db w' = InsertAudit e (aw_db w1) /\
     ae_Result e = "denied" /\ ae_Action e = dm_Action d /\ ae_ActorID e = u_ID (pr_User u) /\
     forall h, chain_of d h (authed u r) w1 = (Reply rsp, w')).
Proof.
  intros Hm. destruct d as [action su perm]. unfold chain_of, meets, AuditWrap. cbn [dm_Action dm_StepUp dm_Perm].
  assert (rq_User (with_audited (authed u r)) = Some u) as Hu by apply user_authed.
  destruct (su && StepUpRequired (aw_db w1) (Some u)) eqn:Es.
  { apply andb_true_iff in Es as [-> Es]. right. split; [intros [H _]; by rewrite H in Es|].
    unfold RequireAAL. rewrite method_authed, Hm, Hu. unfold StepUpRequired in Es. simpl. rewrite Es.
    denied_with Hu. }
  assert (su = true -> StepUpRequired (aw_db w1) (Some u) = false) as Hs by (by intros ->).
  destruct perm as [[perm scopeFn]|]; [|by left].
  destruct (Can (Some u) perm (scopeFn (with_audited (authed u r)))) eqn:Ec.
  { left. split; [done|]. by intros ? ? [= <- <-]. }
  right. split; [intros [_ H]; specialize (H _ _ eq_refl); by rewrite Ec in H|].
  assert (forall h w2, aw_db w2 = aw_db w1 ->
    (if su then RequireAAL else fun h => h) (RequirePermission perm scopeFn h) (with_audited (authed u r)) w2
    = RequirePermission perm scopeFn h (with_audited (authed u r)) w2) as Hr.
  { intros h w2 Hw. destruct su; [|done]. specialize (Hs eq_refl). unfold StepUpRequired in Hs.
    unfold RequireAAL. rewrite method_authed, Hm, Hu, Hw. simpl. by rewrite Hs. }
  setoid_rewrite Hr; [|done]. unfold RequirePermission. rewrite Hu, Ec. denied_with Hu.
Qed.

(** The handler is reached as [AuditWrap] runs it. *)
Lemma chain_runs d r u w1 h :
  isMutating (rq_Method r) = true -> meets d r u (aw_db w1) ->
  chain_of d h (authed u r) w1 = AuditWrap clock (dm_Action d) h (authed u r) w1.
Proof.
  intros Hm. destruct d as [action su perm]. unfold chain_of, meets, AuditWrap. cbn [dm_Action dm_StepUp dm_Perm].
  intros [Hs Hc]. set (w2 := on_rec _ _).
  assert (match perm with Some (perm, scopeFn) => RequirePermission perm scopeFn h | None => h end
    (with_audited (authed u r)) w2 = h (with_audited (authed u r)) w2) as Hp.
  { destruct perm as [[perm scopeFn]|]; [|done]. unfold RequirePermission. by rewrite user_authed, (Hc _ _ eq_refl). }
  destruct su; [|by rewrite Hp]. specialize (Hs eq_refl). unfold StepUpRequired in Hs.
  unfold RequireAAL. rewrite method_authed, Hm, user_authed. simpl. by rewrite Hs, Hp.
Qed.

Lemma stepup_auth d d' u : auth_step deps d d' -> StepUpRequired d' u = StepUpRequired d u.
Proof.
  intros (_ & _ & _ & Hs & _)%auth_step_same. unfold StepUpRequired, totpRequiredForMutations,
    GetSettingDefault, GetSetting. by rewrite Hs.
Qed.

(** Every request to [serve h], a route that asks for [d], is either admitted, and
    then handled as its principal, or refused. *)
Definition guarded (d : demand) (serve : (request -> world -> outcome * world) -> request -> world -> outcome * world)
    (r : request) (w : world) : Prop :=
  let admitted u := passes clock sha256_hex url_Parse deps r w u /\ meets d r u (aw_db w) in
  (exists u w1, admitted u /\ auth_step deps (aw_db w) (aw_db w1) /\
     forall h, serve h r w = AuditWrap clock (dm_Action d) h (authed u r) w1) \/
  ((forall u, ~ admitted u) /\
   exists rsp w' d1, rsp_Status rsp ∈ [401; 403; 409] /\ auth_step deps (aw_db w) d1 /\
     (aw_db w' = d1 \/
      exists e, aw_db w' = InsertAudit e d1 /\ ae_Result e = "denied" /\ ae_Action e = dm_Action d) /\
     forall h, serve h r w = (Reply rsp, w')).

Lemma meets_auth d r u s s' : auth_step deps s s' -> meets d r u s' <-> meets d r u s.
Proof. intros H. unfold meets. by rewrite (stepup_auth _ _ _ H). Qed.

Lemma chain_guarded d r w :
  rq_Bearer r = false -> isMutating (rq_Method r) = true ->
  guarded d (fun h => protect clock sha256_hex url_Parse deps (chain_of d h)) r w.
Proof.
  intros Hb Hm. unfold guarded.
  destruct (protect_cases clock sha256_hex url_Parse deps r w Hb)
    as [(u & w1 & Hp & Hd & Hh)|(Hn & rsp & w1 & Hst & Hd & Hh)].
  - destruct (chain_cases d r u w1 Hm) as [Hc|(Hno & rsp & w' & e & Hst & Hw & Hres & Hact & _ & Hr)].
    + left. exists u, w1. split; [split; [done|by apply (meets_auth _ _ _ _ _ Hd)]|split; [done|]].
      intros h. rewrite Hh. by apply chain_runs.
    + right. split.
      * intros u' (Hp' & Hc). destruct Hp as (_ & Hsi & _), Hp' as (_ & Hsi' & _).
        rewrite (signed_in_unique _ _ _ _ _ _ _ Hsi' Hsi) in Hc. by apply Hno, (meets_auth _ _ _ _ _ Hd).
      * exists rsp, w', (aw_db w1). rewrite Hst. split; [set_solver|split; [done|split]].
        { right. by exists e. }
        intros h. by rewrite Hh, Hr.
  - right. split; [intros u (Hp & _); by apply (Hn u)|].
    exists rsp, w1, (aw_db w1). split; [done|split; [done|split; [by left|]]]. intros h. by rewrite Hh.
Qed.

(** The administration routes of the identity surface ask for their permission in
    the global scope, and for the second factor. *)
Definition administers (perm : string) : demand := mkDemand perm true (Some (perm, fun _ => GlobalScope)).
(** The routes of one's own account ask for no permission. *)
Definition own_account (action : string) (stepup : bool) : demand := mkDemand action stepup None.

(** What each signed-in route of the identity surface asks for. *)
Definition demands (c : call) : demand :=
  match c with
  | CBootstrap _ | CLogin _ => own_account "" false
  | CLogout => own_account "auth.logout" false
  | CTOTPVerify _ => own_account "auth.totp.verify" false
  | CTOTPEnroll => own_account "auth.totp.enroll" false
  | CTOTPConfirm _ => own_account "auth.totp.confirm" false
  | CTOTPDisable _ => own_account "auth.totp.disable" true
  | CPasswordChange _ => own_account "auth.password.change" true
  | CCreateAPIToken _ => own_account "apitoken.create" false
  | CDeleteAPIToken => own_account "apitoken.delete" false
  | CCreateUser _ => administers "rbac.user.create"
  | CUpdateUser _ => administers "rbac.user.update"
  | CDeleteUser => administers "rbac.user.delete"
  | CCreateBinding _ => administers "rbac.binding.create"
  | CDeleteBinding => administers "rbac.binding.delete"
  | CCreateRole _ => administers "rbac.role.create"
  | CUpdateRole _ => administers "rbac.role.update"
  | CDeleteRole => administers "rbac.role.delete"
  | CUpdateSettings _ => administers "settings.update"
  end.

Lemma mounted_chain c h : public c = false ->
  mounted clock sha256_hex url_Parse deps c h = protect clock sha256_hex url_Parse deps (chain_of (demands c) h).
Proof. by destruct c. Qed.

(** C1 The gate of a mutating request.  For every route of the account, user, role,
    binding, token and settings API that needs a signed-in caller, the table
    [demands] says what router.go asks for: the routes of one's own account no
    permission, and the second factor only to change the password or to turn the
    second factor off; the administration routes the second factor and their
    permission in the global scope.  The handler of such a route runs exactly when
    the instance is set up, the request is signed in, it comes with a bearer token
    or from an allowed origin with the session's CSRF token, and it meets what the
    route asks for; it then runs as that principal, under the audit row of the
    route's action.  In every other case the reply is the same whatever the
    handler, an error, and beyond the session's expiry (or the token's date of last
    use) the database gains at most one audit row, of a denial.  The same holds of
    any route of another part of the API that is mounted with the chain of the
    administration routes, whatever its action, permission and scope. *)
Theorem mutation_gate r w :
  rq_Bearer r = false -> isMutating (rq_Method r) = true ->
  (forall c, public c = false ->
     guarded (demands c) (mounted clock sha256_hex url_Parse deps c) r w) /\
  (forall action perm scopeFn,
     guarded (mkDemand action true (Some (perm, scopeFn)))
       (fun h => protect clock sha256_hex url_Parse deps (gated clock action perm scopeFn h)) r w).
Proof.
  intros Hb Hm. split; [|intros; by apply chain_guarded].
  intros c Hc. destruct (chain_guarded (demands c) r w Hb Hm) as [(u & w1 & Ha & Hd & Hh)|(Hn & rsp & w' & d1 & Hr)].
  - left. exists u, w1. split; [done|split; [done|]]. intros h. rewrite mounted_chain by done. apply Hh.
  - right. split; [done|]. exists rsp, w', d1. destruct Hr as (H1 & H2 & H3 & Hh). do 3 (split; [done|]).
    intros h. rewrite mounted_chain by done. apply Hh.
Qed.
End Gate.

Lemma mutation_gate_witness :
  let r := demo_req "ann" CDeleteUser [("id", "bob")] in
  exists u w1, StepUpRequired (aw_db (demo_world false)) (Some u) = false /\
    Can (Some u) "rbac.user.delete" GlobalScope = true /\
    forall h, mounted demo_clock demo_sha demo_url demo_deps CDeleteUser h r (demo_world false)
      = AuditWrap demo_clock "rbac.user.delete" h (authed u r) w1.
Proof.
  intros r.
  destruct (proj1 (mutation_gate demo_clock demo_sha demo_url demo_deps r (demo_world false)
    ltac:(reflexivity) ltac:(reflexivity)) CDeleteUser ltac:(reflexivity))
    as [(u & w1 & (_ & Hs & Hc) & _ & Hh)|(_ & rsp & w' & d1 & Hst & _ & _ & Hh)].
  - exists u, w1. split; [exact (Hs eq_refl)|split; [exact (Hc _ _ eq_refl)|exact Hh]].
  - exfalso. specialize (Hh (fun _ w => (Reply (mkResp 200 JNull), w))).
    apply (f_equal status_of) in Hh. change (status_of (Reply rsp, w')) with (rsp_Status rsp) in Hh.
    assert (rsp_Status rsp = 200) as E by (rewrite <- Hh; vm_compute; reflexivity).
    rewrite E in Hst. clear -Hst. set_solver.
Defined.

Section AuditRow.
Context (clock : nat -> Z).

(** What one call leaves in the audit table. *)
Definition keeps_audit (d d' : db) : Prop := db_audit d' = db_audit d.
#[export] Instance keeps_audit_preorder : PreOrder keeps_audit.
Proof. split; [done|]. intros x y z H1 H2. unfold keeps_audit in *. by rewrite H2. Qed.

(** The result that goes with a status. *)
Definition outcome (status : Z) (result : string) : Prop :=
  (200 <= status <= 299 /\ result = "success") \/ ((status = 401 \/ status = 403) /\ result = "denied") \/
  (~ 200 <= status <= 299 /\ status <> 401 /\ status <> 403 /\ result = "error").
Lemma inferred_outcome status : outcome status (inferred_result status).
Proof.
  unfold outcome, inferred_result.
  destruct (Z.leb_spec 200 status), (Z.ltb_spec status 300), (Z.eqb_spec status 403), (Z.eqb_spec status 401); simpl; lia || auto with lia.
  all: try (left; split; [lia|done]); try (right; left; split; [lia|done]); right; right; split_and!; lia || done.
Qed.

(** A key that speaks of a secret, in any case. *)
Definition names_secret (key : string) : Prop :=
  exists word, word ∈ ["password"; "passwd"; "secret"; "token"; "authorization"; "auth"; "apikey"; "api_key"; "accesskey";
    "access_key"; "privatekey"; "private_key"; "credential"; "session"; "cookie"; "_key"] /\ contains (to_lower key) word = true.
(** Nothing is left under such a key, at any depth. *)
Definition secrets_gone (v : any) : Prop :=
  forall path key x, names_secret key -> at_path (path ++ [Key key]) v = Some x -> x = AOther (JString "[REDACTED]").
Lemma redact_secrets_gone v : secrets_gone (Redact v).
Proof.
  intros path key x (word & Hw & Hc). rewrite at_path_redact.
  assert (IsSecretKey key = true) as Hk by (apply existsb_exists; exists word; split; [by apply list_elem_of_In|done]).
  revert v. induction path as [|s path IH]; intros v; cbn [app redacted_at].
  - change (secret_sel (Key key)) with (IsSecretKey key). rewrite Hk. destruct (child (Key key) v); simpl; [by intros [= <-]|done].
  - destruct (child s v) as [c|]; simpl; [|done]. destruct (secret_sel s); [|apply IH]. by destruct path as [|[]], s.
Qed.

(** The row of a request that [u] signed, replied to with [status]. *)
Definition row_of (action : string) (u : User) (r : request) (status : Z) (e : AuditEntry) : Prop :=
  ae_Action e = action /\ ae_ActorID e = u_ID (pr_User u) /\ ae_ActorName e = u_Username (pr_User u) /\
  ae_ActorIP e = rq_RemoteAddr r /\ ae_RequestID e = rq_RequestID r /\
  ae_HTTPStatus e = status /\ outcome status (ae_Result e) /\
  (ae_Detail e = None \/ exists detail, ae_Detail e = Some (to_json detail) /\ secrets_gone detail).

Lemma audit_wrap_row action h u r w :
  rq_User r = Some u -> hrel keeps_audit (h (with_audited r)) ->
  exists rsp w' e, AuditWrap clock action h r w = (Reply rsp, w') /\
    db_audit (aw_db w') = db_audit (aw_db w) ++ [e] /\ row_of action u r (rsp_Status rsp) e.
Proof.
  intros Hu Hh. unfold AuditWrap.
  destruct (Hh (on_rec (fun _ => withAudit action) w)) as ([Hd Ha] & rsp & Hr & Ht).
  destruct (h (with_audited r) _) as [o w'] eqn:E. simpl in Hd, Ha, Hr, Ht. subst o.
  eexists rsp, _, _. split; [done|]. split; [simpl; by rewrite Hd|].
  unfold row_of, audit_entry, with_audited. simpl. rewrite Hu. simpl. do 6 (split; [done|]). split.
  - destruct (ar_resultSet (aw_rec w')) eqn:Es; [|apply inferred_outcome].
    destruct (Ht Es) as [H|[-> ->]]; [by simpl in H|apply inferred_outcome].
  - destruct (ar_Detail (aw_rec w')) as [|kv detail]; [by left|right].
    exists (Redact (AMap (kv :: detail))). split; [|apply redact_secrets_gone]. unfold RedactMap. by rewrite redact_map.
Qed.
End AuditRow.

Section Calls.
Context (clock : nat -> Z) (random : nat -> string) (sha256_hex : string -> string)
  (url_Parse : string -> option (string * string)) (split_host_port : string -> option string)
  (deps : Deps).
Context (new_uuid : nat -> string) (hash_password : string -> string -> string)
  (verify_password : string -> string -> bool) (seal : string -> string -> string)
  (open_sealed : string -> option string) (totp_secret : string -> string -> string)
  (valid_totp : Z -> string -> string -> bool) (recovery_code : string -> string) (bootstrapToken : string)
  (parse_labels : string -> option (list string)) (encode_labels : list string -> string).

Abbreviation call_handler := (call_handler clock random sha256_hex url_Parse deps new_uuid hash_password
  verify_password seal open_sealed totp_secret valid_totp recovery_code bootstrapToken
  parse_labels encode_labels) (only parsing).
Abbreviation passes := (passes clock sha256_hex url_Parse deps) (only parsing).

#[local] Instance keeps_audit_steps : Steps deps keeps_audit.
Proof.
  constructor; try apply _; unfold keeps_audit; intros; try done.
  all: unfold CreateSession, ConsumeRecoveryCode, ReplaceRecoveryCodes, CreateUser,
    CreateRole, CreateAPIToken, RevokeAPIToken in *; repeat (case_match; simplify_eq; try done).
Qed.
#[local] Instance keeps_audit_del : Steps_del keeps_audit.
Proof.
  constructor; unfold keeps_audit, DeleteUser, DeleteBinding, DeleteRole; intros;
    repeat (case_match; simplify_eq; try done).
Qed.
#[local] Instance keeps_audit_give : Steps_give keeps_audit.
Proof.
  constructor; unfold keeps_audit; intros; try done.
  - unfold CreateBinding in *. by repeat (case_match; simplify_eq).
  - unfold BootstrapFirstAdmin, CreateBinding in *. by repeat (case_match; simplify_eq).
Qed.

(** C11 The audit trail of the identity surface: a request with a session cookie, on any
    route of [call] that is not public, that gets past the gate leaves exactly one
    row, whatever its handler decides; the row names the action of the route, the
    principal, the client's address and the request, carries the status replied and
    the result that goes with it (success for 2xx, denied for 401 and 403, error
    otherwise), and nothing is left in its detail under a key that speaks of a secret.
    A request the gate refuses leaves none.  A handler that panics leaves none either:
    the row is written on the normal way out only. *)
Theorem audit_row c r w :
  public c = false -> rq_Bearer r = false ->
  ((exists u rsp w' e, passes r w u /\ call_handler c r w = (Reply rsp, w') /\
      db_audit (aw_db w') = db_audit (aw_db w) ++ [e] /\
      row_of (dm_Action (demands c)) u r (rsp_Status rsp) e) \/
   ((forall u, ~ passes r w u) /\ db_audit (aw_db (call_handler c r w).2) = db_audit (aw_db w))) /\
  (forall action h, (forall r w, h r w = (Panicked, w)) ->
     aw_db (AuditWrap clock action h r w).2 = aw_db w).
Proof.
  intros Hp Hb. split; [|intros action h Hh; unfold AuditWrap; by rewrite Hh].
  assert (exists h, (forall r, hrel keeps_audit (h r)) /\
    call_handler c = protect clock sha256_hex url_Parse deps (AuditWrap clock (dm_Action (demands c)) h))
    as (h & Hh & ->).
  { pose proof (inner_rel_all clock random sha256_hex deps new_uuid hash_password verify_password seal
      open_sealed totp_secret valid_totp recovery_code bootstrapToken parse_labels encode_labels keeps_audit c)
      as Hi.
    destruct c; try done; (eexists; split; [|reflexivity]); intros r'; unfold gated;
      repeat first [apply hrel_aal; [apply _|] | apply hrel_permission; [apply _|]]; apply Hi. }
  destruct (protect_cases clock sha256_hex url_Parse deps r w Hb)
    as [(u & w1 & Hpass & Hd & ->)|(Hn & rsp & w1 & _ & Hd & ->)].
  - left. apply auth_step_same in Hd as (_ & _ & _ & _ & _ & Ha).
    destruct (audit_wrap_row clock (dm_Action (demands c)) h u (authed u r) w1) as (rsp & w' & e & -> & He & Hrow).
    { unfold authed. by case_bool_decide. }
    { apply Hh. }
    exists u, rsp, w', e. rewrite He, Ha. split; [done|split; [done|split; [done|]]].
    revert Hrow. unfold authed, row_of. by case_bool_decide.
  - right. split; [done|]. simpl. by apply auth_step_same in Hd as (_ & _ & _ & _ & _ & ->).
Qed.
End Calls.

Lemma audit_row_witness :
  let r := demo_req "ann" CDeleteUser [("id", "bob")] in
  exists w' e, call_handler demo_clock demo_random demo_sha demo_url demo_deps demo_uuid demo_hash demo_verify
      demo_seal demo_open demo_secret demo_totp demo_recovery "" demo_parse demo_encode CDeleteUser r (demo_world false)
      = (Reply (mkResp 204 JNull), w') /\
    db_audit (aw_db w') = [e] /\ ae_Action e = "rbac.user.delete" /\ ae_Result e = "success".
Proof.
  intros r.
  destruct (audit_row demo_clock demo_random demo_sha demo_url demo_deps demo_uuid demo_hash demo_verify
    demo_seal demo_open demo_secret demo_totp demo_recovery "" demo_parse demo_encode CDeleteUser r
    (demo_world false)) as [[(u & rsp & w' & e & _ & Hc & Ha & Hact & _ & _ & _ & _ & _ & Hres & _)|[_ Hn]] _].
  - reflexivity.
  - reflexivity.
  - exists w', e. assert (rsp = mkResp 204 JNull) as ->.
    { apply (f_equal (fun x => x.1)) in Hc. vm_compute in Hc. by injection Hc. }
    split; [exact Hc|split; [exact Ha|split; [exact Hact|destruct Hres as [[_ H]|[[[H|H] _]|[H _]]]; [exact H|discriminate H..|simpl in H; lia]]]].
  - exfalso. apply (f_equal length) in Hn. by vm_compute in Hn.
Defined.
