(* ===== verification/SessionProps.v ===== *)
(** * Sessions: how long they live, how they start, and the second factor

    The lifetime of a session over any run of the server, the outcomes of a
    sign-in and its lockout, and how the step-up gate is switched off. *)
From S2P Require Import Prelude GoStd AuthStore Rbac RbacProps Redact Middleware AuthApi Router AuthDemo AuthFacts.

(** ** Lifetime *)

Section Lifetime.
Context (clock : nat -> Z) (random : nat -> string) (sha256_hex : string -> string)
  (url_Parse : string -> option (string * string)) (split_host_port : string -> option string)
  (deps : Deps).
Context (new_uuid : nat -> string) (hash_password : string -> string -> string)
  (verify_password : string -> string -> bool) (seal : string -> string -> string)
  (open_sealed : string -> option string) (totp_secret : string -> string -> string)
  (valid_totp : Z -> string -> string -> bool) (recovery_code : string -> string) (bootstrapToken : string)
  (parse_labels : string -> option (list string)) (encode_labels : list string -> string).

Abbreviation serve := (serve clock random sha256_hex url_Parse split_host_port deps new_uuid hash_password
  verify_password seal open_sealed totp_secret valid_totp recovery_code bootstrapToken
  parse_labels encode_labels) (only parsing).

(** The longest a session may live, in seconds. *)
Definition max_life : Z := secs (absoluteTTL deps) `max` secs (d_SessionTTL deps).
Definition capped (d : db) : Prop :=
  forall h s, db_sessions d !! h = Some s -> ss_ExpiresAt s <= ss_CreatedAt s + max_life.
Definition keeps_capped (d d' : db) : Prop := capped d -> capped d'.
#[export] Instance keeps_capped_preorder : PreOrder keeps_capped.
Proof. split; [intros d H; exact H|]. intros x y z H1 H2 H. by apply H2, H1. Qed.

(** A row written over another keeps the dates of the one it replaces. *)
Lemma capped_alter f h d :
  (forall s, ss_CreatedAt (f s) = ss_CreatedAt s /\ ss_ExpiresAt (f s) = ss_ExpiresAt s) ->
  keeps_capped d (set_sessions (alter f h) d).
Proof.
  intros Hf Hc k s. simpl. rewrite lookup_alter. case_decide; [subst k|by apply Hc].
  intros (s0 & E & ->)%fmap_Some. destruct (Hf s0) as [-> ->]. by apply (Hc h).
Qed.
Lemma capped_update p f d :
  (forall s, ss_CreatedAt (f s) = ss_CreatedAt s /\ ss_ExpiresAt (f s) = ss_ExpiresAt s) ->
  keeps_capped d (set_sessions (update_where p f) d).
Proof.
  intros Hf Hc k s. simpl. unfold update_where. rewrite lookup_fmap. intros (s0 & E & ->)%fmap_Some.
  destruct (p s0); [destruct (Hf s0) as [-> ->]|]; by apply (Hc k).
Qed.
Lemma capped_delete p d d' : db_sessions d' = delete_where p (db_sessions d) -> keeps_capped d d'.
Proof.
  intros E Hc k s. rewrite E. unfold delete_where. intros [Hs _]%map_lookup_filter_Some. by apply (Hc k).
Qed.
Lemma revoke_dates n s :
  ss_CreatedAt (revoke n s) = ss_CreatedAt s /\ ss_ExpiresAt (revoke n s) = ss_ExpiresAt s.
Proof. unfold revoke. by destruct (ss_RevokedAt s). Qed.
Lemma capped_same d d' : db_sessions d' = db_sessions d -> keeps_capped d d'.
Proof. intros E Hc k s. rewrite E. apply Hc. Qed.

#[local] Instance capped_steps : Steps deps keeps_capped.
Proof.
  constructor; try apply _; intros; try by apply capped_same.
  - unfold CreateSession in H0. case_match; simplify_eq. intros Hc k t. simpl. rewrite lookup_insert.
    case_decide; [|by apply Hc]. intros [= <-]. unfold max_life. lia.
  - by apply capped_alter, revoke_dates.
  - by apply capped_update, revoke_dates.
  - by apply capped_alter.
  - unfold ConsumeRecoveryCode in H. repeat case_match; simplify_eq; by apply capped_same.
  - unfold ReplaceRecoveryCodes. case_match; by apply capped_same.
  - unfold CreateUser in H. case_match; simplify_eq; by apply capped_same.
  - unfold CreateRole in H. case_match; simplify_eq; by apply capped_same.
  - unfold CreateAPIToken in H. case_match; simplify_eq; by apply capped_same.
  - unfold RevokeAPIToken in H. repeat case_match; simplify_eq; by apply capped_same.
Qed.
#[local] Instance capped_del : Steps_del keeps_capped.
Proof.
  constructor; intros.
  - unfold DeleteUser in H. case_match; simplify_eq. by eapply capped_delete.
  - unfold DeleteBinding in H. repeat case_match; simplify_eq; by apply capped_same.
  - unfold DeleteRole in H. case_match; simplify_eq; by apply capped_same.
Qed.
#[local] Instance capped_give : Steps_give keeps_capped.
Proof.
  constructor; intros; try by apply capped_same.
  - unfold CreateBinding in H. case_match; simplify_eq; by apply capped_same.
  - unfold BootstrapFirstAdmin, CreateBinding in H. repeat (case_match; simplify_eq); by apply capped_same.
Qed.

Lemma capped_auth d d' : auth_step deps d d' -> keeps_capped d d'.
Proof.
  intros [->|[(now & now2 & h & s & Hs & ->)|(id & n & ->)]]; [done| |by apply capped_same].
  unfold touched. case_match; [|done]. intros Hc k t. simpl. rewrite lookup_alter.
  case_decide; [subst k|by apply Hc]. rewrite Hs. intros [= <-]. simpl. unfold slide, max_life. 
  case_match; lia.
Qed.

(** C30 Sessions die: whatever requests the server has handled, a session that
    signs anyone in is at most the configured absolute lifetime old, or at most
    the configured session lifetime when that is longer; activity extends a
    session only within that bound.  (The sliding lifetime of the settings and its
    cap apply to extensions only: a sign-in starts a session that lasts the
    configured session lifetime, whatever the settings say.) *)
Theorem session_lifetime l w r raw s su now :
  capped (aw_db w) -> Forall (fun x => rq_Bearer x.2 = false) l ->
  live_session sha256_hex r (aw_db (serve l w)) now raw s su ->
  now <= ss_CreatedAt s + max_life /\
  forall r' id amr w' raw' s' w2, mintSession clock random sha256_hex deps r' id amr w' = (Ok (raw', s'), w2) ->
    ss_ExpiresAt s' = ss_CreatedAt s' + secs (d_SessionTTL deps).
Proof.
  intros Hc Hl Hlive. split.
  - assert (capped (aw_db (serve l w))) as Hc'.
    { enough (keeps_capped (aw_db w) (aw_db (serve l w))) as Hk by exact (Hk Hc).
      apply serve_dbrel with (S := keeps_capped);
        [apply _|apply capped_auth|intros; by apply capped_same|apply _..|done]. }
    destruct Hlive as (_ & _ & Hs & _ & He & _). apply Hc' in Hs. lia.
  - intros r' id amr w' raw' s' w2. unfold mintSession, mbind, SE_bind, stmt. simpl.
    destruct (CreateSession _ _); simpl; [|done]. by intros [= _ <- _].
Qed.
End Lifetime.

Lemma session_lifetime_witness :
  (8 <= 500 + max_life demo_deps) /\
  live_session demo_sha (demo_req "ann" CDeleteUser [])
    (aw_db (demo_serve [(CDeleteUser, demo_req "ann" CDeleteUser [("id", "bob")])] (demo_world false)))
    8 "cookie-ann" (mkSession "sha:cookie-ann" "ann" "csrf-ann" "ua" "ip" "pwd" 500 1001 44200 None)
    (demo_user "ann" "annie" "correct horse" false).
Proof.
  assert (live_session demo_sha (demo_req "ann" CDeleteUser [])
    (aw_db (demo_serve [(CDeleteUser, demo_req "ann" CDeleteUser [("id", "bob")])] (demo_world false)))
    8 "cookie-ann" (mkSession "sha:cookie-ann" "ann" "csrf-ann" "ua" "ip" "pwd" 500 1001 44200 None)
    (demo_user "ann" "annie" "correct horse" false)) as Hl.
  { split; [by vm_compute|split; [done|]]. do 4 (split; [by vm_compute|]). by vm_compute. }
  split; [|exact Hl].
  apply (session_lifetime demo_clock demo_random demo_sha demo_url demo_split demo_deps demo_uuid
  demo_hash demo_verify demo_seal demo_open demo_secret demo_totp demo_recovery "" demo_parse demo_encode
  _ (demo_world false) _ "cookie-ann" _ _ 8) in Hl as [Hl _]; [exact Hl| |].
  - intros h s Hs. simpl in Hs. apply lookup_insert_Some in Hs as [[_ <-]|[_ Hs]]; [by vm_compute|].
    apply lookup_insert_Some in Hs as [[_ <-]|[_ Hs]]; [by vm_compute|]. by rewrite lookup_empty in Hs.
  - by repeat constructor.
Defined.

(** ** Signing in *)

(** The keys of the users table, and its unique usernames. *)
Record users_ok (d : db) : Prop := {
  uo_key id u : db_users d !! id = Some u -> u_ID u = id;
  uo_name i j u v : db_users d !! i = Some u -> db_users d !! j = Some v -> u_Username u = u_Username v -> i = j }.

Lemma by_username d id u :
  users_ok d -> db_users d !! id = Some u -> GetUserByUsername (u_Username u) d = Ok u.
Proof.
  intros Hok Hu. unfold GetUserByUsername.
  destruct (select_where _ (db_users d)) as [|v l] eqn:E.
  - assert (u ∈ select_where (fun x => bool_decide (u_Username x = u_Username u)) (db_users d)) as Hin.
    { apply elem_of_select. split; [by apply bool_decide_eq_true|by exists id]. }
    rewrite E in Hin. set_solver.
  - assert (v ∈ select_where (fun x => bool_decide (u_Username x = u_Username u)) (db_users d)) as Hin.
    { rewrite E. set_solver. }
    apply elem_of_select in Hin as [Hn%bool_decide_eq_true [j Hj]].
    rewrite (uo_name d Hok j id v u Hj Hu Hn) in Hj. rewrite Hu in Hj. by injection Hj as ->.
Qed.

Lemma user_by_name d name u :
  GetUserByUsername name d = Ok u -> u_Username u = name /\ exists id, db_users d !! id = Some u.
Proof.
  unfold GetUserByUsername. destruct (select_where _ _) as [|v l] eqn:E; [done|]. intros [= ->].
  assert (u ∈ select_where (fun x => bool_decide (u_Username x = name)) (db_users d)) as Hin by (rewrite E; set_solver).
  apply elem_of_select in Hin as [Hn%bool_decide_eq_true Hid]. by split.
Qed.

(** An update of one row that keeps its key and its name. *)
Lemma users_ok_alter f id d :
  (forall u, u_ID (f u) = u_ID u /\ u_Username (f u) = u_Username u) ->
  users_ok d -> users_ok (set_users (alter f id) d).
Proof.
  intros Hf Hok.
  assert (forall k v, db_users (set_users (alter f id) d) !! k = Some v ->
    exists u, db_users d !! k = Some u /\ u_ID v = u_ID u /\ u_Username v = u_Username u) as Hold.
  { intros k v. simpl. rewrite lookup_alter. case_decide; [subst k|by exists v].
    intros (u & Hu & ->)%fmap_Some. exists u. split; [done|apply Hf]. }
  split.
  - intros k v (u & Hu & -> & _)%Hold. by apply (uo_key d Hok).
  - intros i j v1 v2 (u1 & H1 & _ & E1)%Hold (u2 & H2 & _ & E2)%Hold. rewrite E1, E2. by apply (uo_name d Hok).
Qed.

Lemma users_ok_same d d' : db_users d' = db_users d -> users_ok d -> users_ok d'.
Proof. intros E Hok. split; rewrite E; apply Hok. Qed.
Lemma demo_users_ok totp : users_ok (demo_db totp).
Proof.
  split; unfold demo_db; cbn [db_users].
  - intros k v [[<- <-]|[_ [[<- <-]|[_ Hv]]%lookup_insert_Some]]%lookup_insert_Some; [done..|].
    by rewrite lookup_empty in Hv.
  - intros i j v v' [[<- <-]|[_ [[<- <-]|[_ Hv]]%lookup_insert_Some]]%lookup_insert_Some
      [[<- <-]|[_ [[<- <-]|[_ Hv']]%lookup_insert_Some]]%lookup_insert_Some; try done;
      try (by rewrite lookup_empty in Hv); by rewrite lookup_empty in Hv'.
Qed.
Lemma users_ok_single d id u : db_users d = <[id := u]> ∅ -> u_ID u = id -> users_ok d.
Proof.
  intros E Hid. split; rewrite E.
  - intros k v [[<- <-]|[_ Hv]]%lookup_insert_Some; [done|by rewrite lookup_empty in Hv].
  - intros i j v v' [[<- <-]|[_ Hv]]%lookup_insert_Some [[<- <-]|[_ Hv']]%lookup_insert_Some _;
      [done|by rewrite lookup_empty in Hv'|by rewrite lookup_empty in Hv..].
Qed.

Section SigningIn.
Context (clock : nat -> Z) (random : nat -> string) (sha256_hex : string -> string) (deps : Deps)
  (verify_password : string -> string -> bool).
Abbreviation Login := (Login clock random sha256_hex deps verify_password) (only parsing).

(** What a sign-in as [req] replies and leaves. *)
Definition login_spec (req : loginRequest) (w : world) (status : Z) (d' : db) : Prop :=
  let d := aw_db w in let now := clock (aw_tick w) in let now2 := clock (S (aw_tick w)) in
  match GetUserByUsername (lg_Username req) d with
  | Err _ => status = 401 /\ d' = d
  | Ok u =>
      if locked now u then status = 403 /\ d' = d
      else if negb (u_IsActive u) then status = 401 /\ d' = d
      else if negb (verify_password (lg_Password req) (u_PasswordHash u)) then
        status = 401 /\ d' = RecordLoginFailure (u_ID u) loginFailThreshold loginLockDuration now2 d
      else
        (exists s, status = 200 /\ ss_UserID s = u_ID u /\ ss_AMR s = AMRPassword /\ ss_RevokedAt s = None /\
           db_sessions d !! ss_ID s = None /\ CreateSession s (RecordLoginSuccess (u_ID u) now2 d) = Ok d') \/
        (status = 500 /\ d' = RecordLoginSuccess (u_ID u) now2 d)
  end.

Lemma login_meets req r w :
  exists rsp w', Login (Ok req) r w = (Reply rsp, w') /\ login_spec req w (rsp_Status rsp) (aw_db w').
Proof.
  unfold login_spec, AuthApi.Login, handle, mbind, SE_bind, query, decode. simpl.
  destruct (GetUserByUsername (lg_Username req) (aw_db w)) as [u|e]; simpl; [|by eexists _, _].
  unfold guard. destruct (locked _ u); simpl; [by eexists _, _|].
  destruct (u_IsActive u); simpl; [|by eexists _, _].
  destruct (verify_password _ _); simpl; [|by eexists _, _].
  unfold mintSession, mbind, SE_bind, stmt. simpl.
  destruct (CreateSession _ _) as [d'|e] eqn:E; simpl.
  2:{ eexists _, _. split; [done|by right]. }
  pose proof E as E'. unfold CreateSession in E'. simpl in E'. case_match eqn:Hg; [done|].
  apply orb_false_iff in Hg as [Hg%bool_decide_eq_false _].
  destruct (u_TOTPEnabled u); simpl; eexists _, _; (split; [done|left]); eexists; (split; [done|]);
    (split; [|split; [|split; [|split; [|exact E]]]]); try done;
    simpl; by apply eq_None_not_Some.
Qed.

End SigningIn.


(** ** The second factor *)

Section StepUp.
Context (clock : nat -> Z) (random : nat -> string) (sha256_hex : string -> string)
  (url_Parse : string -> option (string * string)) (deps : Deps).
Context (new_uuid : nat -> string) (hash_password : string -> string -> string)
  (verify_password : string -> string -> bool) (seal : string -> string -> string)
  (open_sealed : string -> option string) (totp_secret : string -> string -> string)
  (valid_totp : Z -> string -> string -> bool) (recovery_code : string -> string) (bootstrapToken : string)
  (parse_labels : string -> option (list string)) (encode_labels : list string -> string).

Abbreviation call_handler := (call_handler clock random sha256_hex url_Parse deps new_uuid hash_password
  verify_password seal open_sealed totp_secret valid_totp recovery_code bootstrapToken
  parse_labels encode_labels) (only parsing).

(** The user of a principal is its row. *)
Lemma signed_in_row r w u :
  users_ok (aw_db w) -> signed_in clock sha256_hex deps r w u ->
  db_users (aw_db w) !! u_ID (pr_User u) = Some (pr_User u).
Proof.
  intros Hok [w1 H]. destruct (bool_decide _) in H.
  - destruct (resolveUser_cases clock sha256_hex deps r w)
      as [(raw & s & su & w2 & Hl & Hr & _)|(w2 & Hr & _)]; rewrite Hr in H; [|done].
    injection H as <- _. destruct Hl as (_ & _ & _ & _ & _ & Hu & _). simpl.
    by rewrite (uo_key _ Hok _ _ Hu).
  - destruct (resolveBearer_cases clock sha256_hex (bearerToken r) w)
      as [(t & su & w2 & _ & Hu & _ & Hr & _)|(w2 & Hr & _)]; rewrite Hr in H; [|done].
    injection H as <- _. simpl. by rewrite (uo_key _ Hok _ _ Hu).
Qed.

(** The step-up gate can be switched off from the session it should stop: any
    request let in may start a second-factor enrolment, without presenting the
    factor already in place; that alone turns the account's second factor off, so
    that from then on no principal of the account is asked for one, under any
    settings. *)
Theorem totp_enroll_lifts_stepup r w u :
  rq_Bearer r = false -> users_ok (aw_db w) -> passes clock sha256_hex url_Parse deps r w u ->
  exists rsp w', call_handler CTOTPEnroll r w = (Reply rsp, w') /\ rsp_Status rsp = 200 /\
    (exists row, db_users (aw_db w') !! u_ID (pr_User u) = Some row /\
       u_TOTPEnabled row = false /\ u_TOTPConfirmedAt row = None) /\
    forall r2 w2 p, aw_db w2 = aw_db w' -> signed_in clock sha256_hex deps r2 w2 p ->
      u_ID (pr_User p) = u_ID (pr_User u) -> StepUpRequired (aw_db w2) (Some p) = false.
Proof.
  intros Hb Hok Hp. simpl.
  destruct (protect_cases clock sha256_hex url_Parse deps r w Hb)
    as [(u' & w1 & Hp' & Hd & Hh)|(Hn & _)]; [|by apply Hn in Hp].
  pose proof (signed_in_unique _ _ _ _ _ _ _ (proj1 (proj2 Hp')) (proj1 (proj2 Hp))) as ->.
  pose proof (signed_in_row _ _ _ Hok (proj1 (proj2 Hp))) as Hrow.
  apply auth_step_same in Hd as (Hu & _).
  assert (rq_User (with_audited (authed u r)) = Some u) as Hsu by (unfold authed; by case_bool_decide).
  assert (forall w2, exists enc t w3, TOTPEnroll clock random seal totp_secret (with_audited (authed u r)) w2
      = (Reply (mkResp 200 (JObj [("secret", JString (totp_secret (u_Username (pr_User u)) (random (aw_rand w2))))])), w3)
      /\ aw_db w3 = SetTOTPPending (u_ID (pr_User u)) enc t (aw_db w2)) as Hrun.
  { intros w2. unfold TOTPEnroll, handle, mbind, SE_bind, need_user. rewrite Hsu. by eexists _, _, _. }
  unfold Router.call_handler, mounted, inner. rewrite Hh. unfold AuditWrap.
  destruct (Hrun (on_rec (fun _ => withAudit "auth.totp.enroll") w1)) as (enc & t & w3 & -> & Hd3).
  eexists _, _. split; [done|split; [done|]].
  match goal with |- context [persistAudit ?c ?r ?s w3] =>
    assert (db_users (aw_db (persistAudit c r s w3)) =
      alter (user_set_auth enc false None t) (u_ID (pr_User u)) (db_users (aw_db w))) as Husers end.
  { simpl. rewrite Hd3. simpl. by rewrite Hu. }
  split.
  - rewrite Husers, lookup_alter_eq, Hrow. by eexists.
  - intros r2 w4 p Hw4 Hs Hid. apply signed_in_row in Hs.
    2:{ apply (users_ok_same (set_users (alter (user_set_auth enc false None t) (u_ID (pr_User u))) (aw_db w)));
          [by rewrite Hw4, Husers|by apply users_ok_alter]. }
    rewrite Hw4, Husers, Hid, lookup_alter_eq, Hrow in Hs. injection Hs as Hs.
    unfold StepUpRequired. by rewrite <- Hs.
Qed.
End StepUp.

Lemma totp_enroll_lifts_stepup_witness :
  let enroll := demo_req "ann" CTOTPEnroll [] in
  let kill := demo_req "ann" CDeleteUser [("id", "bob")] in
  status_of (demo_route CDeleteUser kill (demo_world true)) = 403 /\
  status_of (demo_route CDeleteUser kill (demo_serve [(CTOTPEnroll, enroll)] (demo_world true))) = 204 /\
  exists rsp w', call_handler demo_clock demo_random demo_sha demo_url demo_deps demo_uuid demo_hash demo_verify
      demo_seal demo_open demo_secret demo_totp demo_recovery "" demo_parse demo_encode CTOTPEnroll enroll
      (demo_world true) = (Reply rsp, w') /\ rsp_Status rsp = 200.
Proof.
  intros enroll kill. split; [by vm_compute|split; [by vm_compute|]].
  pose (u := buildUser (demo_user "ann" "annie" "correct horse" true) "sha:cookie-ann" "pwd"
    (EffectiveRolesForUser "ann" (demo_db true))).
  destruct (totp_enroll_lifts_stepup demo_clock demo_random demo_sha demo_url demo_deps demo_uuid demo_hash demo_verify
      demo_seal demo_open demo_secret demo_totp demo_recovery "" demo_parse demo_encode enroll (demo_world true) u)
    as (rsp & w' & Hr & Hst & _).
  - reflexivity.
  - apply demo_users_ok.
  - split; [reflexivity|split].
    + eexists. vm_compute. reflexivity.
    + intros _ _. split; [by vm_compute|]. eexists. split; [by vm_compute|split; [by vm_compute|]]. discriminate.
  - exists rsp, w'. split; [exact Hr|exact Hst].
Defined.
