(* ===== verification/AccountProps.v ===== *)
(** * Administration of accounts: nobody gains what the caller lacks

    Grants over a request, whatever the route; and the last administrator. *)
From S2P Require Import Prelude GoStd AuthStore Rbac RbacProps Redact Middleware AuthApi Router AuthDemo AuthFacts.

(** ** What an account may do, from the tables *)

(** The account's bindings allow [p] in [s] (RbacProps relates this to [Can]). *)
Definition may (d : db) (id p : string) (s : Scope) : Prop :=
  exists g key, bound d id g key /\ (key = "" \/ key = scopeKey (sc_Type s) (sc_ID s)) /\ covers g p.

(** Every binding names a role: the foreign key of the bindings. *)
Definition integrity (d : db) : Prop :=
  forall i b, db_bindings d !! i = Some b -> is_Some (db_roles d !! bi_RoleID b).

(** A principal holds a grant in a scope: some grant of its own, global or in that
    scope, covers it. *)
Definition held (u : User) (key g : string) : Prop :=
  exists k g', (k = "" \/ k = key) /\ grant_at (pr_perms u) k g' /\ covers g' g.

(** No account gains a grant but those [P] holds. *)
Definition grows (P : string -> string -> Prop) (d d' : db) : Prop :=
  integrity d -> integrity d' /\ forall id g key, bound d' id g key -> bound d id g key \/ P key g.

#[export] Instance grows_preorder P : PreOrder (grows P).
Proof.
  split; [intros d Hd; split; [done|by left]|].
  intros x y z H1 H2 Hx. destruct (H1 Hx) as [Hy B1]. destruct (H2 Hy) as [Hz B2].
  split; [done|]. intros id g key [H|H]%B2; [by apply B1|by right].
Qed.

Lemma grows_same P d d' :
  db_roles d' = db_roles d -> db_bindings d' = db_bindings d -> grows P d d'.
Proof.
  intros Hr Hb Hi. unfold integrity, bound. rewrite Hr, Hb. split; [exact Hi|]. intros id g key H. by left.
Qed.

(** Bindings only go, and the role under each that stays is the same. *)
Lemma grows_fewer P d d' :
  (integrity d -> forall i b, db_bindings d' !! i = Some b ->
     db_bindings d !! i = Some b /\ db_roles d' !! bi_RoleID b = db_roles d !! bi_RoleID b) ->
  grows P d d'.
Proof.
  intros Hb Hi. specialize (Hb Hi). split.
  - intros i b Hib. destruct (Hb i b Hib) as [H1 ->]. by eapply Hi.
  - intros id g key (i & b & r & Hib & Hu & Hr & Hg & Hk). left. destruct (Hb i b Hib) as [H1 E].
    rewrite E in Hr. by exists i, b, r.
Qed.

Lemma lookup_delete_where {A} (p : A -> bool) (t : gmap string A) k a :
  delete_where p t !! k = Some a -> t !! k = Some a /\ p a = false.
Proof. unfold delete_where. by intros [H1 H2]%map_lookup_filter_Some. Qed.

Lemma grows_create_role P x n d d' : CreateRole x n d = Ok d' -> grows P d d'.
Proof.
  unfold CreateRole. case_match eqn:E; [done|]. intros [= <-].
  apply orb_false_iff in E as [E%bool_decide_eq_false _]. apply grows_fewer. intros Hi i b Hb. split; [done|].
  simpl. rewrite lookup_insert_ne; [done|]. intros Hne. apply E. rewrite Hne. by apply (Hi i).
Qed.
Lemma grows_delete_role P id d d' : DeleteRole id d = Ok d' -> grows P d d'.
Proof.
  unfold DeleteRole. case_match; [|done]. intros [= <-]. apply grows_fewer. intros _ i b Hb. simpl in *.
  apply lookup_delete_where in Hb as [Hb Hne%bool_decide_eq_false]. split; [done|]. by rewrite lookup_delete_ne.
Qed.
Lemma grows_delete_user P id d d' : DeleteUser id d = Ok d' -> grows P d d'.
Proof.
  unfold DeleteUser. case_match; [|done]. intros [= <-]. apply grows_fewer. intros _ i b Hb. simpl in *.
  by apply lookup_delete_where in Hb as [Hb _].
Qed.
Lemma grows_delete_binding P u b d d' : DeleteBinding u b d = Ok d' -> grows P d d'.
Proof.
  unfold DeleteBinding. repeat case_match; try done. intros [= <-]. apply grows_fewer. intros _ i x Hb. simpl in *.
  by apply lookup_delete_Some in Hb as [_ Hb].
Qed.

(** A binding to a role whose every permission [P] has, in the binding's scope. *)
Lemma grows_create_binding (P : string -> string -> Prop) b d d' r :
  db_roles d !! bi_RoleID b = Some r ->
  (forall g, g ∈ ro_Permissions r -> P (scopeKey (bi_ScopeType b) (default "" (bi_ScopeID b))) g) ->
  CreateBinding b d = Ok d' -> grows P d d'.
Proof.
  intros Hr HP. unfold CreateBinding. case_match; [done|]. intros [= <-] Hi. simpl. split.
  - intros i x. simpl. intros [[<- <-]|[_ Hx]]%lookup_insert_Some; [by rewrite Hr|by apply (Hi i)].
  - intros id g key (i & x & ro & Hx & Hu & Hro & Hg & ->). simpl in *.
    apply lookup_insert_Some in Hx as [[<- <-]|[_ Hx]].
    + right. rewrite Hr in Hro. injection Hro as <-. by apply HP.
    + left. by exists i, x, ro.
Qed.

(** A role given permissions that [P] has everywhere. *)
Lemma grows_update_role (P : string -> string -> Prop) id desc perms n d :
  (forall l g key, perms = Some l -> g ∈ l -> P key g) -> grows P d (UpdateRole id desc perms n d).
Proof.
  intros HP Hi. unfold UpdateRole. simpl. split.
  - intros i b Hb. simpl in *. rewrite lookup_alter. case_decide; [|by apply (Hi i)].
    subst id. apply fmap_is_Some. by apply (Hi i).
  - intros u g key (i & b & r & Hb & Hu & Hr & Hg & ->). simpl in *. rewrite lookup_alter in Hr.
    case_decide; [|left; by exists i, b, r]. subst id. apply fmap_Some in Hr as (r0 & Hr0 & ->).
    destruct perms as [l|].
    + right. apply (HP l); [done|]. by destruct desc.
    + left. exists i, b, r0. split_and!; try done. by destruct desc.
Qed.

#[export] Instance grows_steps deps P : Steps deps (grows P).
Proof.
  constructor; try apply _; intros; try by apply grows_same.
  - unfold CreateSession in H0. case_match; simplify_eq; by apply grows_same.
  - unfold ConsumeRecoveryCode in H. repeat case_match; simplify_eq; by apply grows_same.
  - unfold ReplaceRecoveryCodes. case_match; by apply grows_same.
  - unfold CreateUser in H. case_match; simplify_eq; by apply grows_same.
  - by eapply grows_create_role.
  - unfold CreateAPIToken in H. case_match; simplify_eq; by apply grows_same.
  - unfold RevokeAPIToken in H. repeat case_match; simplify_eq; by apply grows_same.
Qed.

#[export] Instance grows_del P : Steps_del (grows P).
Proof.
  constructor; intros; [by eapply grows_delete_user|by eapply grows_delete_binding|by eapply grows_delete_role].
Qed.

Lemma grows_auth deps P d d' : auth_step deps d d' -> grows P d d'.
Proof. intros (_ & Hr & Hb & _)%auth_step_same. by apply grows_same. Qed.

(** ** The three handlers that can give *)

Lemma audit_target_db r t i n w : aw_db (SetAuditTarget r t i n w) = aw_db w.
Proof. unfold SetAuditTarget, on_audit. by destruct (rq_Audited r). Qed.

(** A check that passes changes nothing. *)
Lemma requireActorHolds_ok r perms s w x w' :
  requireActorHolds r perms s w = (Ok x, w') ->
  w' = w /\ forall p, p ∈ perms -> Can (rq_User r) p s = true.
Proof.
  unfold requireActorHolds. case_bool_decide as E; [|done]. intros [= <- <-]. split; [done|].
  intros p Hp. destruct (Can (rq_User r) p s) eqn:Ec; [done|]. exfalso.
  assert (p ∈ unheldPermissions (rq_User r) perms s) as Hin by (apply list_elem_of_filter; by split).
  rewrite E in Hin. set_solver.
Qed.
Lemma requireActorHolds_err r perms s w e w' :
  requireActorHolds r perms s w = (Err e, w') -> aw_db w' = aw_db w.
Proof.
  unfold requireActorHolds. case_bool_decide; [done|]. unfold AddAuditDetail, SetAuditResult, on_audit.
  simpl. destruct (rq_Audited r); by intros [= _ <-].
Qed.

(** What the caller may do covers what the check let through. *)
Lemma Can_held u p s : Can (Some u) p s = true -> held u (scopeKey (sc_Type s) (sc_ID s)) p.
Proof. intros (k & g & Hk & Hg & Hc)%Can_spec. by exists k, g. Qed.
Lemma Can_global_held u p key : Can (Some u) p GlobalScope = true -> held u key p.
Proof. intros (k & g & [->| ->] & Hg & Hc)%Can_spec; exists "", g; (split; [by left|done]). Qed.

Section Givers.
Context (clock : nat -> Z) (new_uuid : nat -> string).

Lemma create_binding_grows body r u :
  rq_User r = Some u -> dbrel (grows (held u)) (CreateBindingHandler clock new_uuid body r).
Proof.
  intros Hu w. unfold CreateBindingHandler, handle, mbind, SE_bind, decode, query, guard, stmt.
  destruct body as [req|]; simpl; [|reflexivity].
  destruct (negb _); simpl; [reflexivity|]. destruct (GetUserByID _ _); simpl; [|reflexivity].
  unfold GetRole. destruct (db_roles (aw_db w) !! cb_RoleID req) as [role|] eqn:Er; simpl; [|reflexivity].
  destruct (requireActorHolds _ _ _ w) as [[[]|e] w1] eqn:Eh; simpl.
  2:{ apply requireActorHolds_err in Eh. by rewrite Eh. }
  apply requireActorHolds_ok in Eh as [-> Hh]. rewrite Hu in Hh.
  set (b := mkBinding _ _ _ _ _ _). destruct (CreateBinding b (aw_db w)) as [d'|] eqn:Ec; simpl; [|reflexivity].
  assert (grows (held u) (aw_db w) d') as Hg.
  { eapply (grows_create_binding _ b); [exact Er| |exact Ec]. intros g Hg. simpl.
    replace (default "" (null_str (cb_ScopeID req))) with (cb_ScopeID req)
      by (unfold null_str; case_bool_decide; by simpl).
    by apply (Can_held u g (mkScope (binding_scope req) (cb_ScopeID req))), Hh. }
  unfold SetAuditTarget, on_audit. by destruct (rq_Audited r).
Qed.

(** The two checks on a new list of permissions. *)
Definition checked (r : request) (perms : option (list string)) : SE APIError unit :=
  match perms with
  | Some perms => _ ← check_permissions perms; requireActorHolds r perms GlobalScope
  | None => mret tt
  end.
Lemma checked_cases r perms u w :
  rq_User r = Some u ->
  (checked r perms w = (Ok tt, w) /\ forall l g key, perms = Some l -> g ∈ l -> held u key g) \/
  exists e w', checked r perms w = (Err e, w') /\ aw_db w' = aw_db w.
Proof.
  intros Hu. destruct perms as [l|]; [|by left]. unfold checked, check_permissions, mbind, SE_bind.
  destruct (validatePermissions l); simpl; [right; by eexists _, _|].
  destruct (requireActorHolds r l GlobalScope w) as [[[]|e] w1] eqn:Eh.
  - apply requireActorHolds_ok in Eh as [-> Hh]. left. split; [done|]. intros l' g key [= <-] Hg.
    apply Can_global_held. rewrite <- Hu. by apply Hh.
  - right. apply requireActorHolds_err in Eh. by exists e, w1.
Qed.

Lemma update_role_grows body r u :
  rq_User r = Some u -> dbrel (grows (held u)) (UpdateRoleHandler clock body r).
Proof.
  intros Hu w. unfold UpdateRoleHandler.
  destruct body as [req|]; [|reflexivity]. unfold handle, mbind, SE_bind, decode, query, guard.
  destruct (GetRole _ _) as [role|]; [|reflexivity]. destruct (ro_IsBuiltin role); [reflexivity|].
  cbn -[checked]. change (match ur_Permissions req with Some perms => _ | None => _ end) with (checked r (ur_Permissions req)).
  destruct (checked_cases r (ur_Permissions req) u w Hu) as [[-> Hp]|(e & w' & -> & Hd)].
  2:{ simpl. by rewrite Hd. }
  pose proof (audit_target_db r "role" (param "id" r) (ro_Name role) w) as Hd.
  simpl. destruct (GetRole (param "id" r) _); simpl; rewrite Hd; by apply grows_update_role.
Qed.
End Givers.

Lemma grows_mono (P Q : string -> string -> Prop) d d' :
  (forall key g, P key g -> Q key g) -> grows P d d' -> grows Q d d'.
Proof.
  intros H Hg Hi. destruct (Hg Hi) as [Hi' Hb]. split; [done|].
  intros id g key [?|?]%Hb; [by left|right; by apply H].
Qed.

Lemma demo_integrity totp : integrity (demo_db totp).
Proof.
  intros i b. cbn [demo_db db_bindings].
  intros [[<- <-]|[_ [[<- <-]|[_ Hv]]%lookup_insert_Some]]%lookup_insert_Some; [by eexists..|].
  by rewrite lookup_empty in Hv.
Qed.

(** ** The last administrator *)

Definition admin_builtin (d : db) : Prop :=
  exists r, db_roles d !! RoleIDAdmin = Some r /\ ro_IsBuiltin r = true.
Definition admin_binding (d : db) (i : string) (b : Binding) : Prop :=
  db_bindings d !! i = Some b /\ global_binding RoleIDAdmin b = true.
Definition has_admin (d : db) : Prop := exists i b, admin_binding d i b.

(** The administrator role stays, and so does some administrator. *)
Definition keeps_admin (d d' : db) : Prop := admin_builtin d /\ has_admin d -> admin_builtin d' /\ has_admin d'.
#[export] Instance keeps_admin_preorder : PreOrder keeps_admin.
Proof. split; [intros d H; exact H|]. intros x y z H1 H2 H. by apply H2, H1. Qed.

Lemma keeps_admin_mono d d' :
  (forall r, db_roles d !! RoleIDAdmin = Some r -> ro_IsBuiltin r = true ->
     exists r', db_roles d' !! RoleIDAdmin = Some r' /\ ro_IsBuiltin r' = true) ->
  (forall i b, db_bindings d !! i = Some b -> db_bindings d' !! i = Some b) -> keeps_admin d d'.
Proof.
  intros Hr Hb [(r & H1 & H2) (i & b & Hi & Hg)]. split; [by apply (Hr r)|]. exists i, b. split; [by apply Hb|done].
Qed.
Lemma keeps_admin_same d d' :
  db_roles d' = db_roles d -> db_bindings d' = db_bindings d -> keeps_admin d d'.
Proof. intros Hr Hb. apply keeps_admin_mono; rewrite ?Hr, ?Hb; eauto. Qed.

#[export] Instance keeps_admin_steps deps : Steps deps keeps_admin.
Proof.
  constructor; try apply _; intros; try by apply keeps_admin_same.
  - unfold CreateSession in H0. case_match; simplify_eq; by apply keeps_admin_same.
  - unfold ConsumeRecoveryCode in H. repeat case_match; simplify_eq; by apply keeps_admin_same.
  - unfold ReplaceRecoveryCodes. case_match; by apply keeps_admin_same.
  - unfold CreateUser in H. case_match; simplify_eq; by apply keeps_admin_same.
  - unfold CreateRole in H. case_match eqn:E; simplify_eq.
    apply orb_false_iff in E as [E%bool_decide_eq_false _]. apply keeps_admin_mono; [|done].
    intros r Hr Hbi. exists r. split; [|done]. simpl. rewrite lookup_insert_ne; [done|].
    intros Hne. apply E. rewrite Hne, Hr. by eexists.
  - unfold CreateAPIToken in H. case_match; simplify_eq; by apply keeps_admin_same.
  - unfold RevokeAPIToken in H. repeat case_match; simplify_eq; by apply keeps_admin_same.
Qed.
Lemma keeps_admin_binding b d d' : CreateBinding b d = Ok d' -> keeps_admin d d'.
Proof.
  unfold CreateBinding. case_match eqn:E; [done|]. intros [= <-]. apply keeps_admin_mono; [by eauto|].
  intros i x Hx. simpl. rewrite lookup_insert_ne; [done|]. intros <-.
  apply orb_false_iff in E as [E _]. apply orb_false_iff in E as [E _].
  apply orb_false_iff in E as [E%bool_decide_eq_false _]. apply E. by exists x.
Qed.
#[export] Instance keeps_admin_give : Steps_give keeps_admin.
Proof.
  constructor; intros.
  - by eapply keeps_admin_binding.
  - apply keeps_admin_mono; [|done]. intros r Hr Hbi. simpl. rewrite lookup_alter. case_decide; [|by exists r].
    subst id. rewrite Hr. eexists. split; [done|]. by destruct de, pe.
  - unfold BootstrapFirstAdmin in H. destruct (BootstrapCompleted d); [done|]. destruct (_ <? _); [done|].
    destruct (CreateBinding _ _) as [d2|] eqn:E; [|done]. injection H as <-.
    intros Hd. exact (keeps_admin_binding _ _ _ E Hd).
Qed.

(** Rows that match are found under distinct keys. *)
Lemma select_where_keys {A} (p : A -> bool) (t : gmap string A) :
  exists l, select_where p t = l.*2 /\ NoDup l.*1 /\ forall k a, (k, a) ∈ l -> t !! k = Some a /\ p a = true.
Proof.
  exists (filter (fun kv => p kv.2 = true) (map_to_list t)). split_and!.
  - unfold select_where. induction (map_to_list t) as [|[k a] l IH]; [done|]. cbn [fmap list_fmap].
    rewrite !filter_cons. simpl. case_decide; [|done]. cbn [fmap list_fmap]. by rewrite <- IH.
  - eapply sublist_NoDup; [apply (NoDup_fst_map_to_list t)|apply fmap_sublist, sublist_filter].
  - intros k a [Hp Hin]%list_elem_of_filter. by apply elem_of_map_to_list in Hin.
Qed.

(** Two administrator bindings: another than [i] stays. *)
Lemma another_admin d i :
  (CountAdminBindings RoleIDAdmin d <=? 1) = false -> exists j b, j <> i /\ admin_binding d j b.
Proof.
  unfold CountAdminBindings, admin_binding. intros H%Z.leb_gt.
  destruct (select_where_keys (global_binding RoleIDAdmin) (db_bindings d)) as (l & E & Hnd & Hin).
  rewrite E in H. destruct l as [|[k1 b1] [|[k2 b2] l]]; [done..|]. apply NoDup_cons in Hnd as [Hne _].
  destruct (decide (k1 = i)) as [->|]; [exists k2, b2|exists k1, b1]; (split; [|apply Hin; set_solver]); set_solver.
Qed.

(** The guard of both deletions: not the sole administrator's. *)
Lemma spared d id :
  UserHasGlobalRole id RoleIDAdmin d && (CountAdminBindings RoleIDAdmin d <=? 1) = false ->
  (forall i b, admin_binding d i b -> bi_UserID b <> id) \/ (CountAdminBindings RoleIDAdmin d <=? 1) = false.
Proof.
  intros [H|H]%andb_false_iff; [left|by right]. intros i b [Hi Hg] Hu. unfold UserHasGlobalRole in H.
  assert (b ∈ select_where (fun b => bool_decide (bi_UserID b = id) && global_binding RoleIDAdmin b) (db_bindings d))
    as Hin by (apply elem_of_select; split; [by rewrite bool_decide_eq_true_2|by exists i]).
  apply Z.ltb_ge in H. destruct (select_where _ _); [set_solver|]. simpl in H. lia.
Qed.

(** At most one administrator binding per account. *)
Definition admin_once (d : db) (id : string) : Prop :=
  forall i j b b', admin_binding d i b -> admin_binding d j b' -> bi_UserID b = id -> bi_UserID b' = id -> i = j.

Lemma delete_user_cases r w :
  let d := aw_db w in let id := param "id" r in
  aw_db (DeleteUserHandler r w).2 = d \/
  (UserHasGlobalRole id RoleIDAdmin d && (CountAdminBindings RoleIDAdmin d <=? 1) = false /\
   DeleteUser id d = Ok (aw_db (DeleteUserHandler r w).2)).
Proof.
  intros d id. unfold DeleteUserHandler, handle, mbind, SE_bind, upd, ask, guard, stmt. fold id.
  destruct (match rq_User r with Some _ => _ | None => _ end); simpl; rewrite ?audit_target_db; [by left|].
  destruct (_ && _) eqn:Eg; simpl; rewrite ?audit_target_db; [by left|]. fold d in Eg |- *.
  destruct (DeleteUser id d) eqn:E; simpl; [by right|]. left. apply audit_target_db.
Qed.

(** As long as no account has two administrator bindings. *)
Definition keeps_admins (d d' : db) : Prop :=
  (forall id, admin_once d id) -> (forall id, admin_once d' id) /\ keeps_admin d d'.
#[export] Instance keeps_admins_preorder : PreOrder keeps_admins.
Proof.
  split; [by intros d H|]. intros x y z H1 H2 H. destruct (H1 H) as [Hy K1]. destruct (H2 Hy) as [Hz K2].
  split; [done|by etrans].
Qed.
Lemma keeps_admins_same d d' :
  db_roles d' = db_roles d -> db_bindings d' = db_bindings d -> keeps_admins d d'.
Proof.
  intros Hr Hb H. split; [|by apply keeps_admin_same]. unfold admin_once, admin_binding. by rewrite Hb.
Qed.

Lemma delete_user_keeps r : dbrel keeps_admins (DeleteUserHandler r).
Proof.
  intros w Hone. destruct (delete_user_cases r w) as [->|[Eg Hdel]]; [by split|].
  unfold DeleteUser in Hdel. destruct (db_users (aw_db w) !! _); [|done]. injection Hdel as <-. split.
  - intros id i j b b' [Hi Hg] [Hj Hg'] Hu Hu'. simpl in *.
    apply lookup_delete_where in Hi as [Hi _]. apply lookup_delete_where in Hj as [Hj _]. by apply (Hone id i j b b').
  - intros [Hbi (i & b & Hi)]. split; [exact Hbi|].
    assert (exists j b', admin_binding (aw_db w) j b' /\ bi_UserID b' <> param "id" r) as (j & b' & [Hj Hg] & Hne).
    { apply spared in Eg as [Hno|H2]; [by exists i, b; split; [|by eapply Hno]|].
      destruct (decide (bi_UserID b = param "id" r)) as [E|]; [|by exists i, b].
      destruct (another_admin _ i H2) as (j & b' & Hji & Hj). exists j, b'. split; [done|]. intros E'.
      by apply Hji, (Hone (param "id" r) j i b' b). }
    exists j, b'. split; [|done]. simpl. unfold delete_where. apply map_lookup_filter_Some.
    split; [done|]. by apply bool_decide_eq_false.
Qed.

Lemma delete_binding_keeps r w : keeps_admin (aw_db w) (aw_db (DeleteBindingHandler r w).2).
Proof.
  intros [Hbi (i & b & Hi)]. unfold DeleteBindingHandler, handle, mbind, SE_bind, upd, ask, guard, stmt.
  pose proof (audit_target_db r "binding" (param "bindingId" r) "" w) as Hd.
  rewrite Hd. destruct (_ && _) eqn:Eg; simpl; rewrite Hd; [split; [done|by exists i, b]|].
  unfold DeleteBinding. destruct (db_bindings (aw_db w) !! param "bindingId" r) as [x|] eqn:Ex;
    simpl; [|rewrite Hd; split; [done|by exists i, b]].
  case_bool_decide as Hu; simpl; [|rewrite Hd; split; [done|by exists i, b]]. split; [exact Hbi|].
  assert (exists j b', admin_binding (aw_db w) j b' /\ j <> param "bindingId" r) as (j & b' & [Hj Hg] & Hne).
  { apply spared in Eg as [Hno|H2]; [|destruct (another_admin _ (param "bindingId" r) H2) as (j & b' & ? & ?); eauto].
    exists i, b. split; [done|]. intros ->. destruct Hi as [Hi Hg]. rewrite Ex in Hi. injection Hi as ->.
    by apply (Hno (param "bindingId" r) b). }
  exists j, b'. split; [|done]. simpl. by rewrite lookup_delete_ne.
Qed.

Lemma delete_role_keeps r w : keeps_admin (aw_db w) (aw_db (DeleteRoleHandler r w).2).
Proof.
  intros Hk. unfold DeleteRoleHandler, handle, mbind, SE_bind, upd, query, guard, stmt, GetRole.
  destruct (db_roles (aw_db w) !! param "id" r) as [role|] eqn:Er; simpl; [|exact Hk].
  destruct (ro_IsBuiltin role) eqn:Eb; simpl; [exact Hk|].
  pose proof (audit_target_db r "role" (param "id" r) (ro_Name role) w) as Hd.
  unfold DeleteRole. rewrite Hd, Er. simpl.
  destruct Hk as [(x & Hx & Hbi) (i & b & Hi & Hg)].
  assert (RoleIDAdmin <> param "id" r) as Hne by (intros E; rewrite <- E, Hx in Er; injection Er as ->; congruence).
  split.
  - exists x. split; [|done]. simpl. by rewrite lookup_delete_ne.
  - exists i, b. split; [|done]. simpl. unfold delete_where. apply map_lookup_filter_Some. split; [done|].
    apply bool_decide_eq_false. simpl. unfold global_binding in Hg. by apply andb_true_iff in Hg as [->%bool_decide_eq_true _].
Qed.

(** ** Any request *)

Section Accounts.
Context (clock : nat -> Z) (random : nat -> string) (sha256_hex : string -> string)
  (url_Parse : string -> option (string * string)) (split_host_port : string -> option string)
  (deps : Deps).
Context (new_uuid : nat -> string) (hash_password : string -> string -> string)
  (verify_password : string -> string -> bool) (seal : string -> string -> string)
  (open_sealed : string -> option string) (totp_secret : string -> string -> string)
  (valid_totp : Z -> string -> string -> bool) (recovery_code : string -> string) (bootstrapToken : string)
  (parse_labels : string -> option (list string)) (encode_labels : list string -> string).

Abbreviation route := (route clock random sha256_hex url_Parse split_host_port deps new_uuid hash_password
  verify_password seal open_sealed totp_secret valid_totp recovery_code bootstrapToken
  parse_labels encode_labels) (only parsing).
Abbreviation signed_in := (signed_in clock sha256_hex deps) (only parsing).

(** Once the instance is set up, its set-up page does nothing. *)
Lemma bootstrap_inert b r w :
  bootstrapRequired (aw_db w) = false -> aw_db (route (CBootstrap b) r w).2 = aw_db w.
Proof.
  intros Hbr. unfold Router.route.
  match goal with |- context [base_chain _ _ _ ?h r w] =>
    destruct (base_cases random split_host_port deps h r w)
      as (r' & w' & _ & _ & Hm & _ & _ & _ & _ & _ & Hd & _ & ->) end.
  case_bool_decide; [|by rewrite <- Hd].
  unfold call_handler, mounted, inner, Bootstrap, handle, mbind, SE_bind, ask. rewrite Hd, Hbr. simpl. exact Hd.
Qed.

(** C2 No request to the account, user, role, binding, token and settings API (the
    routes of [call]) of an instance that is already set up raises anybody's
    permissions above the caller's: whatever the route and its body, an account that
    may do something in some scope after the request could do it before, or the
    request was signed in by a principal who may do it in that scope.  Bindings keep
    naming existing roles.  Other parts of the API are not covered: a sign-in
    through a directory gives its account the roles the mappings name, whoever asks,
    and the first administrator is made before the instance is set up. *)
Theorem no_escalation c r w id p s :
  rq_Bearer r = false -> bootstrapRequired (aw_db w) = false -> integrity (aw_db w) ->
  integrity (aw_db (route c r w).2) /\
  (may (aw_db (route c r w).2) id p s ->
   may (aw_db w) id p s \/ exists u, signed_in r w u /\ Can (Some u) p s = true).
Proof.
  intros Hb Hbr Hi. set (P := fun key g => exists u, signed_in r w u /\ held u key g).
  assert (grows P (aw_db w) (aw_db (route c r w).2)) as Hg.
  { destruct (match c with CBootstrap _ => true | _ => false end) eqn:Hc.
    { destruct c; try done. by rewrite bootstrap_inert. }
    apply route_dbrel; [apply _|apply grows_auth|intros; by apply grows_same|done|]. intros r' Hu.
    destruct (gives c) eqn:Hs.
    2:{ apply hrel_dbrel. destruct (deletes c) eqn:Hd; [by apply inner_rel_del; [apply _..|]|by apply inner_rel; [apply _|..]]. }
    destruct c; try done; destruct (Hu eq_refl) as (u & Hsu & Hu'); intros w'; (eapply grows_mono;
      [|first [by eapply create_binding_grows|by eapply update_role_grows]]);
      intros key g Hh; exists u; by split. }
  destruct (Hg Hi) as [Hi' Hb']. split; [done|]. intros (g & key & Hbd & Hk & Hcov).
  destruct (Hb' _ _ _ Hbd) as [Hold|(u & Hsu & k' & g' & Hk' & Hg' & Hcov')].
  - left. by exists g, key.
  - right. exists u. split; [done|]. apply Can_spec. exists k', g'. split; [|split; [done|by eapply covers_trans]].
    destruct Hk' as [-> | ->]; [by left|done].
Qed.

(** C29 The last administrator stays, as far as the account, user, role, binding,
    token and settings API (the routes of [call]) goes: while the administrator
    role is built in and some account has it globally, no request to these routes
    takes it from the last account that has it.  For the deletion of an account
    this needs that the account is not bound to the role twice over, since the
    code counts bindings.  A sign-in through a directory is not one of these
    routes: it replaces the global bindings of its account without asking whether
    it is the last administrator's (see the findings). *)
Theorem last_admin_kept c r w :
  rq_Bearer r = false -> admin_builtin (aw_db w) -> has_admin (aw_db w) ->
  (c = CDeleteUser -> forall id, admin_once (aw_db w) id) ->
  admin_builtin (aw_db (route c r w).2) /\ has_admin (aw_db (route c r w).2).
Proof.
  intros Hb Hbi Ha Hone.
  destruct (match c with CDeleteUser => true | _ => false end) eqn:Ec.
  - destruct c; try done.
    assert (keeps_admins (aw_db w) (aw_db (route CDeleteUser r w).2)) as Hk.
    { apply route_dbrel; [apply _| |intros; by apply keeps_admins_same|done|intros; apply delete_user_keeps].
      intros d d' (_ & Hr & Hbs & _)%auth_step_same. by apply keeps_admins_same. }
    by apply (Hk (Hone eq_refl)).
  - enough (keeps_admin (aw_db w) (aw_db (route c r w).2)) as Hk by by apply Hk.
    apply route_dbrel; [apply _| |intros; by apply keeps_admin_same|done|].
    { intros d d' (_ & Hr & Hbs & _)%auth_step_same. by apply keeps_admin_same. }
    intros r' _. destruct (gives c) eqn:Eg; [apply hrel_dbrel; by apply inner_rel_give; [apply _..|]|].
    destruct (deletes c) eqn:Ed; [|apply hrel_dbrel; by apply inner_rel; [apply _|..]].
    destruct c; try done; intros w'; [apply delete_binding_keeps|apply delete_role_keeps].
Qed.
End Accounts.

Lemma demo_bindings totp i b :
  db_bindings (demo_db totp) !! i = Some b ->
  b = mkBinding "b1" "ann" "role-admin" "global" None 0 \/ b = mkBinding "b2" "bob" "role-ops" "global" None 0.
Proof.
  cbn [demo_db db_bindings].
  intros [[_ <-]|[_ [[_ <-]|[_ Hv]]%lookup_insert_Some]]%lookup_insert_Some; [by left|by right|].
  by rewrite lookup_empty in Hv.
Qed.
Lemma demo_admin totp i b : admin_binding (demo_db totp) i b -> i = "b1".
Proof.
  intros [Hb Hg]. cbn [demo_db db_bindings] in Hb.
  apply lookup_insert_Some in Hb as [[<- _]|[_ Hb]]; [done|].
  apply lookup_insert_Some in Hb as [[_ <-]|[_ Hb]]; [done|by rewrite lookup_empty in Hb].
Qed.
Lemma demo_bob_cannot totp : ~ may (demo_db totp) "bob" "vm.delete" GlobalScope.
Proof.
  intros (g & key & (i & b & ro & Hb & Hu & Hr & Hg & _) & _ & Hc).
  destruct (demo_bindings _ _ _ Hb) as [-> | ->]; [done|]. vm_compute in Hr. injection Hr as <-.
  simpl in Hg. apply list_elem_of_singleton in Hg as ->. destruct Hc as [H|[H|(q & x & H1 & H2)]]; [done..|].
  destruct q as [|a q]; [done|]. injection H1 as <- _. done.
Qed.

Lemma no_escalation_witness :
  let grant := CCreateBinding (Ok (mkCreateBinding "role-admin" "" "")) in
  let r := demo_req "ann" grant [("id", "bob")] in
  status_of (demo_route grant r (demo_world false)) = 201 /\ integrity (aw_db (demo_route grant r (demo_world false)).2) /\
  exists u, signed_in demo_clock demo_sha demo_deps r (demo_world false) u /\ Can (Some u) "vm.delete" GlobalScope = true.
Proof.
  intros grant r. split; [by vm_compute|].
  destruct (no_escalation demo_clock demo_random demo_sha demo_url demo_split demo_deps demo_uuid demo_hash
    demo_verify demo_seal demo_open demo_secret demo_totp demo_recovery "" demo_parse demo_encode grant r
    (demo_world false) "bob" "vm.delete" GlobalScope) as [Hi Hm].
  - reflexivity.
  - reflexivity.
  - apply demo_integrity.
  - split; [exact Hi|]. destruct Hm as [Hm|Hm]; [| |exact Hm].
    + exists "*", "". split; [|split; [by left|by left]].
      eexists "id1", _, _. split; [vm_compute; reflexivity|split; [done|split; [vm_compute; reflexivity|split; [|done]]]].
      simpl. set_solver.
    + exfalso. exact (demo_bob_cannot _ Hm).
Defined.

(** The guard counts bindings, not administrators: the table takes the same
    global binding of one account twice (its scope is NULL, and NULLs are distinct
    in the UNIQUE constraint), after which the sole administrator's account can be
    deleted by anyone who may delete accounts, and nobody administers the instance. *)
Theorem last_admin_lost :
  let grant := CCreateBinding (Ok (mkCreateBinding "role-admin" "" "")) in
  let again := demo_req "ann" grant [("id", "ann")] in
  let kill := demo_req "bob" CDeleteUser [("id", "ann")] in
  let w := demo_world false in
  has_admin (aw_db w) /\ (forall i b, admin_binding (aw_db w) i b -> bi_UserID b = "ann") /\
  status_of (demo_route CDeleteUser kill w) = 409 /\
  status_of (demo_route grant again w) = 201 /\
  status_of (demo_route CDeleteUser kill (demo_serve [(grant, again)] w)) = 204 /\
  ~ has_admin (aw_db (demo_serve [(grant, again); (CDeleteUser, kill)] w)) /\
  bootstrapRequired (aw_db (demo_serve [(grant, again); (CDeleteUser, kill)] w)) = false.
Proof.
  intros grant again kill w. split; [|split; [|split; [|split; [|split; [|split]]]]].
  - eexists "b1", _. split; vm_compute; reflexivity.
  - intros i b [Hb Hg]. by destruct (demo_bindings _ _ _ Hb) as [-> | ->].
  - vm_compute; reflexivity.
  - vm_compute; reflexivity.
  - vm_compute; reflexivity.
  - intros (i & b & Hb & Hg).
    assert (db_bindings (aw_db (demo_serve [(grant, again); (CDeleteUser, kill)] w)) =
      <["b2" := mkBinding "b2" "bob" "role-ops" "global" None 0]> ∅) as E by (vm_compute; reflexivity).
    rewrite E in Hb. clear E. apply lookup_insert_Some in Hb as [[_ <-]|[_ Hb]]; [done|by rewrite lookup_empty in Hb].
  - vm_compute; reflexivity.
Qed.

Lemma last_admin_kept_witness :
  let r := demo_req "bob" CDeleteUser [("id", "ann")] in
  status_of (demo_route CDeleteUser r (demo_world false)) = 409 /\
  has_admin (aw_db (demo_route CDeleteUser r (demo_world false)).2).
Proof.
  intros r. split; [vm_compute; reflexivity|].
  destruct (last_admin_kept demo_clock demo_random demo_sha demo_url demo_split demo_deps demo_uuid demo_hash
    demo_verify demo_seal demo_open demo_secret demo_totp demo_recovery "" demo_parse demo_encode CDeleteUser r
    (demo_world false)) as [_ Hadm]; [reflexivity| | | |exact Hadm].
  - eexists. split; vm_compute; reflexivity.
  - eexists "b1", _. split; vm_compute; reflexivity.
  - intros _ id i j b b' [Hb Hg] [Hb' Hg'] _ _.
    by rewrite (demo_admin false i b (conj Hb Hg)), (demo_admin false j b' (conj Hb' Hg')).
Defined.
