(* ===== verification/Compose.v ===== *)
(** * Compose stacks: the parser and the planner

    server/internal/compose/parse.go and plan.go, with the deployment types of
    provider/docker/deploy.go and the host-mount policy of
    provider/docker/mounts.go.  The YAML library is a parameter: it hands over a
    tree of nodes.  A Go map is ranged over in an order the language does not
    fix, so that order is a parameter too. *)
From S2P Require Import Prelude GoStd.

(** ** YAML nodes (gopkg.in/yaml.v3) *)

Inductive node_kind := KZero | KDocument | KSequence | KMapping | KScalar | KAlias.
#[export] Instance node_kind_eq_dec : EqDecision node_kind.
Proof. solve_decision. Defined.
Inductive node := mkNode (kind : node_kind) (tag value : string) (content : list node).
Definition n_Kind (n : node) := let 'mkNode k _ _ _ := n in k.
Definition n_Tag (n : node) := let 'mkNode _ t _ _ := n in t.
Definition n_Value (n : node) := let 'mkNode _ _ v _ := n in v.
Definition n_Content (n : node) := let 'mkNode _ _ _ c := n in c.
Definition is_null (n : node) : bool := bool_decide (n_Kind n = KScalar /\ n_Tag n = "!!null").

(** The key and value nodes of a mapping: [for i := 0; i+1 < len(c); i += 2]. *)
Fixpoint node_pairs (l : list node) : list (node * node) :=
  match l with k :: v :: l => (k, v) :: node_pairs l | _ => [] end.

(** ** parse.go: the model *)

Record Service := mkService {
  sv_Image : string; sv_ContainerName : string; sv_Ports : list string; sv_Environment : list string;
  sv_Volumes : list string; sv_Networks : list string; sv_Restart : string; sv_Command : list string;
  sv_DependsOn : list string }.
Definition zero_service : Service := mkService "" "" [] [] [] [] "" [] [].
Definition Model : Type := gmap string Service.

(** The fields of a decoded service that are used. *)
Record rawService := mkRaw {
  rs_Image : string; rs_ContainerName : string; rs_Ports : node; rs_Environment : node; rs_Volumes : node;
  rs_Networks : node; rs_Restart : string; rs_Command : node; rs_DependsOn : node }.
Definition zero_node : node := mkNode KZero "" "" [].
Definition zero_raw : rawService :=
  mkRaw "" "" zero_node zero_node zero_node zero_node "" zero_node zero_node.

(** A ValidationError is its message. *)
Abbreviation verr A := (result string A) (only parsing).

Definition oneLine (s : string) : string :=
  trim_space (replace_all (replace_all s (String (ascii_of_N 10) "") "; ") "  " " ").

Definition letter_or_digit (c : ascii) : bool :=
  let n := N_of_ascii c in
  ((97 <=? n) && (n <=? 122) || (65 <=? n) && (n <=? 90) || (48 <=? n) && (n <=? 57))%N.
Definition name_tail_byte (c : ascii) : bool :=
  letter_or_digit c || Ascii.eqb c "_" || Ascii.eqb c "." || Ascii.eqb c "-".
Fixpoint string_forall (f : ascii -> bool) (s : string) : bool :=
  match s with EmptyString => true | String c s' => f c && string_forall f s' end.
Definition valid_name (max : nat) (name : string) : bool :=
  match name with
  | EmptyString => false
  | String c rest => bool_decide (String.length name <= max)%nat && letter_or_digit c
                     && string_forall name_tail_byte rest
  end.
Definition validServiceName : string -> bool := valid_name 63.
Definition validContainerName : string -> bool := valid_name 255.

Definition knownServiceKeys : list string :=
  ["image"; "container_name"; "ports"; "environment"; "volumes"; "networks"; "restart"; "command"; "entrypoint";
   "depends_on"; "build"; "labels"; "healthcheck"; "deploy"; "expose"; "working_dir"; "user"; "hostname";
   "privileged"; "tty"; "stdin_open"].

Definition strictUnknownKeys (name : string) (n : node) : verr unit :=
  match n_Kind n with
  | KMapping =>
      match list_find (fun kv => n_Value kv.1 ∉ knownServiceKeys) (node_pairs (n_Content n)) with
      | Some (_, (k, _)) =>
          Err ("Service " +:+ quote name +:+ ": unsupported key " +:+ quote (n_Value k) +:+ ".")
      | None => Ok tt
      end
  | _ => if is_null n then Ok tt else Err ("Service " +:+ quote name +:+ " must be a mapping.")
  end.

(** The scalars of a sequence, or the message for the first other entry. *)
Definition scalars (msg : string) (l : list node) : verr (list string) :=
  first_err (fun it => if bool_decide (n_Kind it = KScalar) then Ok (n_Value it) else Err msg) l.
Definition nonempty (l : list string) : list string := filter (fun s => s <> "") l.

Definition normalizeStringList (svc field : string) (n : node) : verr (list string) :=
  match n_Kind n with
  | KZero => Ok []
  | KScalar =>
      if bool_decide (n_Tag n = "!!null") || bool_decide (trim_space (n_Value n) = "") then Ok []
      else Ok [trim_space (n_Value n)]
  | KSequence =>
      l ← scalars ("Service " +:+ quote svc +:+ ": " +:+ field +:+ " entries must be scalars.") (n_Content n);
      Ok (nonempty (trim_space <$> l))
  | _ => Err ("Service " +:+ quote svc +:+ ": " +:+ field +:+ " must be a list.")
  end.

(** The names of the list form or of the mapping form. *)
Definition names_of (svc field : string) (n : node) : verr (list string) :=
  if bool_decide (n_Kind n = KMapping)
  then Ok ((fun kv => trim_space (n_Value kv.1)) <$> node_pairs (n_Content n))
  else normalizeStringList svc field n.
Definition normalizeNetworks (svc : string) : node -> verr (list string) := names_of svc "networks".
Definition normalizeDependsOn (svc : string) : node -> verr (list string) := names_of svc "depends_on".

Definition normalizeCommand (svc field : string) (n : node) : verr (list string) :=
  match n_Kind n with
  | KZero => Ok []
  | KScalar => if bool_decide (n_Tag n = "!!null") then Ok [] else Ok (fields (n_Value n))
  | KSequence => scalars ("Service " +:+ quote svc +:+ ": " +:+ field +:+ " entries must be scalars.") (n_Content n)
  | _ => Err ("Service " +:+ quote svc +:+ ": " +:+ field +:+ " must be a string or list.")
  end.

(** [sort.Slice] by key; pairs with equal keys keep their order. *)
Definition pair_le (a b : string * string) : Prop := str_le a.1 b.1.
#[export] Instance pair_le_dec a b : Decision (pair_le a b).
Proof. unfold pair_le. apply _. Defined.

Definition normalizeEnvironment (svc : string) (n : node) : verr (list string) :=
  match n_Kind n with
  | KZero => Ok []
  | KMapping =>
      pairs ← first_err (fun kv =>
        let k := trim_space (n_Value kv.1) in
        let v := if bool_decide (n_Kind kv.2 = KScalar) && negb (bool_decide (n_Tag kv.2 = "!!null"))
                 then n_Value kv.2 else "" in
        if bool_decide (k = "")
        then Err ("Service " +:+ quote svc +:+ ": environment keys must be non-empty.") else Ok (k, v))
        (node_pairs (n_Content n));
      Ok ((fun p => p.1 +:+ "=" +:+ p.2) <$> merge_sort pair_le pairs)
  | KSequence =>
      l ← scalars ("Service " +:+ quote svc +:+ ": environment entries must be scalars.") (n_Content n);
      Ok ((fun e => if contains_char "=" e then e else e +:+ "=") <$> nonempty (trim_space <$> l))
  | _ => Err ("Service " +:+ quote svc +:+ ": environment must be a mapping or list.")
  end.

Section Parse.
(** [range]: the order in which a map is ranged over; [yaml_decode]: the services
    of a document, as nodes; [node_decode]: a node as a [rawService]. *)
Context (range : forall A, gmap string A -> list (string * A))
  (yaml_decode : string -> result string (gmap string node)) (node_decode : node -> result string rawService).

Definition decodeService (name : string) (n : node) : verr Service :=
  rs ← (if bool_decide (n_Kind n = KZero) then Ok zero_raw
        else match node_decode n with
             | Err e => Err ("Service " +:+ quote name +:+ ": " +:+ oneLine e)
             | Ok rs => _ ← strictUnknownKeys name n; Ok rs
             end);
  env ← normalizeEnvironment name (rs_Environment rs);
  ports ← normalizeStringList name "ports" (rs_Ports rs);
  vols ← normalizeStringList name "volumes" (rs_Volumes rs);
  nets ← normalizeNetworks name (rs_Networks rs);
  cmd ← normalizeCommand name "command" (rs_Command rs);
  deps ← normalizeDependsOn name (rs_DependsOn rs);
  Ok (mkService (trim_space (rs_Image rs)) (trim_space (rs_ContainerName rs)) ports env vols nets
        (trim_space (rs_Restart rs)) cmd deps).

Definition validate_service (m : Model) (name : string) (svc : Service) : verr unit :=
  if bool_decide (sv_Image svc = "")
  then Err ("Service " +:+ quote name +:+ ": 'image' is required (build is not supported).")
  else if negb (bool_decide (sv_ContainerName svc = "")) && negb (validContainerName (sv_ContainerName svc))
  then Err ("Service " +:+ quote name +:+ ": invalid container_name " +:+ quote (sv_ContainerName svc) +:+ ".")
  else
    _ ← first_err (fun dep =>
      if negb (bool_decide (is_Some (m !! dep)))
      then Err ("Service " +:+ quote name +:+ " depends_on unknown service " +:+ quote dep +:+ ".")
      else if bool_decide (dep = name)
      then Err ("Service " +:+ quote name +:+ " cannot depend on itself.")
      else Ok tt) (sv_DependsOn svc);
    Ok tt.
Definition validate (m : Model) : verr unit :=
  _ ← first_err (fun kv => validate_service m kv.1 kv.2) (range _ m); Ok tt.

Definition Parse (src : string) : verr Model :=
  if bool_decide (trim_space src = "") then Err "Compose document is empty."
  else match yaml_decode src with
       | Err e => Err ("Invalid compose YAML: " +:+ oneLine e)
       | Ok doc =>
           if bool_decide (doc = ∅) then Err "Compose document defines no services."
           else
             svcs ← first_err (fun kv =>
               if negb (validServiceName kv.1)
               then Err ("Invalid service name " +:+ quote kv.1
                         +:+ " (use letters, digits, '.', '_' or '-').")
               else svc ← decodeService kv.1 kv.2; Ok (kv.1, svc)) (range _ doc);
             let m : Model := list_to_map svcs in
             _ ← validate m; Ok m
       end.

Definition ServiceNamesSorted (m : Model) : list string := sort_strings (range _ m).*1.

(** ** plan.go: the order of deployment *)

(** The counts of unsatisfied dependencies, and who waits for whom. *)
Definition add_edge (n : string) (g : gmap string Z * gmap string (list string)) (dep : string) :=
  (alter (Z.add 1) n g.1, <[dep := default [] (g.2 !! dep) ++ [n]]> g.2).
Definition add_service (m : Model) (g : gmap string Z * gmap string (list string)) (n : string) :=
  foldl (add_edge n) (<[n := default 0 (g.1 !! n)]> g.1, g.2)
    (sv_DependsOn (default zero_service (m !! n))).
Definition graph (m : Model) : gmap string Z * gmap string (list string) :=
  foldl (add_service m) (∅, ∅) (ServiceNamesSorted m).

(** The index of the first smallest name, from the one at [best]. *)
Fixpoint min_index (best : nat) (name : string) (i : nat) (q : list string) : nat :=
  match q with
  | [] => best
  | x :: q => if str_lt x name then min_index i x (S i) q else min_index best name (S i) q
  end.
Definition pop_min (q : list string) : option (string * list string) :=
  match q with
  | [] => None
  | x :: rest =>
      let i := min_index 0 x 1 rest in
      n ← q !! i; Some (n, take i q ++ drop (S i) q)
  end.

Definition release (st : gmap string Z * list string) (x : string) : gmap string Z * list string :=
  let indeg := alter (fun d => d - 1) x st.1 in
  (indeg, if bool_decide (indeg !! x = Some 0) then st.2 ++ [x] else st.2).

(** The loop; a queue that is never emptied would need more fuel. *)
Fixpoint kahn (fuel : nat) (dependents : gmap string (list string)) (indeg : gmap string Z)
    (queue out : list string) : option (list string) :=
  match pop_min queue with
  | None => Some out
  | Some (n, rest) =>
      match fuel with
      | O => None
      | S fuel =>
          let '(indeg, queue) := foldl release (indeg, rest) (default [] (dependents !! n)) in
          kahn fuel dependents indeg queue (out ++ [n])
      end
  end.

Definition topo_fuel (m : Model) : nat := size m.
Definition topoSort (m : Model) : option (verr (list string)) :=
  let names := ServiceNamesSorted m in
  let '(indeg, dependents) := graph m in
  let queue := filter (fun n => indeg !! n = Some 0) names in
  out ← kahn (topo_fuel m) dependents indeg queue [];
  Some (if bool_decide (length out <> length names)
        then Err "depends_on contains a cycle; services cannot be ordered." else Ok out).
End Parse.

(** ** provider/docker/deploy.go: what is deployed *)

Record PortMap := mkPort { pm_Host : Z; pm_Container : Z; pm_Proto : string }.
Record VolMount := mkVol { vo_Source : string; vo_Target : string }.
#[export] Instance PortMap_eq_dec : EqDecision PortMap.
Proof. solve_decision. Defined.
#[export] Instance VolMount_eq_dec : EqDecision VolMount.
Proof. solve_decision. Defined.
Record DeploySpec := mkSpec {
  ds_Image : string; ds_Name : string; ds_Env : gmap string string; ds_Ports : list PortMap;
  ds_Volumes : list VolMount; ds_Labels : gmap string string; ds_RestartPolicy : string;
  ds_CpuLimit : f64; ds_MemoryLimitBytes : Z; ds_CpuReservation : f64; ds_MemoryReservationBytes : Z;
  ds_AllowHostMounts : bool }.
Definition with_AllowHostMounts (b : bool) (s : DeploySpec) : DeploySpec :=
  mkSpec (ds_Image s) (ds_Name s) (ds_Env s) (ds_Ports s) (ds_Volumes s) (ds_Labels s) (ds_RestartPolicy s)
    (ds_CpuLimit s) (ds_MemoryLimitBytes s) (ds_CpuReservation s) (ds_MemoryReservationBytes s) b.

(** ** provider/docker/mounts.go: the host-mount policy *)

Definition alwaysBlockedHostPaths : list string :=
  ["/var/run/docker.sock"; "/run/docker.sock"; "/"; "/etc"; "/root"; "/home"; "/boot"; "/var/lib/docker";
   "/var/run"; "/run"; "/proc"; "/sys"; "/dev"].

Definition backslash : ascii := ascii_of_N 92.
Definition isDriveLetter (c : ascii) : bool :=
  let n := N_of_ascii c in ((97 <=? n) && (n <=? 122) || (65 <=? n) && (n <=? 90))%N.
Definition slash_or_backslash (c : ascii) : bool := Ascii.eqb c backslash || Ascii.eqb c "/".
Definition isHostPath (source : string) : bool :=
  match trim_space source with
  | EmptyString => false
  | String c s =>
      slash_or_backslash c
      || match s with
         | String d (String e _) => isDriveLetter c && Ascii.eqb d ":" && slash_or_backslash e
         | _ => false
         end
  end.

Definition normalizeHostPath (source : string) : string :=
  let s := replace_all (to_lower (trim_space source)) (String backslash "") "/" in
  let s := if bool_decide (1 < String.length s)%nat then trim_right_set (Ascii.eqb "/") s else s in
  if bool_decide (s = "") then "/" else s.

Definition isAlwaysBlockedHostPath (source : string) : bool :=
  let n := normalizeHostPath source in
  existsb (fun blocked => if bool_decide (blocked = "/") then bool_decide (n = "/")
                          else bool_decide (n = blocked) || has_prefix n (blocked +:+ "/"))
    alwaysBlockedHostPaths.

Inductive mount_denied := ProtectedPath (source : string) | HostPathDenied (source : string).
Definition ValidateMounts (vols : list VolMount) (allowHostMounts : bool) : result mount_denied unit :=
  _ ← first_err (fun v =>
    if negb (isHostPath (vo_Source v)) then Ok tt
    else if isAlwaysBlockedHostPath (vo_Source v) then Err (ProtectedPath (vo_Source v))
    else if negb allowHostMounts then Err (HostPathDenied (vo_Source v)) else Ok tt) vols;
  Ok tt.
Definition HostMountSources (vols : list VolMount) : list string :=
  filter (fun s => isHostPath s = true) (vo_Source <$> vols).

(** ** plan.go: from a service to a spec *)

Definition LabelProject := "com.docker.compose.project".
Definition LabelService := "com.docker.compose.service".
Definition LabelContainerNum := "com.docker.compose.container-number".
Definition LabelCastorStack := "io.castor.stack".
Definition LabelCastorManaged := "io.castor.managed".

Definition parsePortNum (s : string) : option Z :=
  n ← atoi (trim_space s); if (n <? 1) || (65535 <? n) then None else Some n.

Definition parsePort (svc raw : string) : verr (list PortMap) :=
  let s := trim_space raw in
  if bool_decide (s = "") then Ok []
  else
    ps ← match cut_last "/" s with
         | Some (a, p) =>
             let proto := to_lower (trim_space p) in
             if bool_decide (proto ∈ ["tcp"; "udp"; "sctp"]) then Ok (proto, a)
             else Err ("Service " +:+ quote svc +:+ ": invalid port protocol " +:+ quote proto +:+ ".")
         | None => Ok ("tcp", s)
         end;
    hc ← match split_on ":" ps.2 with
         | [c] => Ok ("", c)
         | [h; c] => Ok (h, c)
         | [_; h; c] => Ok (h, c)
         | _ => Err ("Service " +:+ quote svc +:+ ": invalid port mapping " +:+ quote raw +:+ ".")
         end;
    if contains_char "-" hc.2 || contains_char "-" hc.1
    then Err ("Service " +:+ quote svc +:+ ": port ranges are not supported (" +:+ quote raw +:+ ").")
    else match parsePortNum hc.2 with
         | None => Err ("Service " +:+ quote svc +:+ ": invalid container port in " +:+ quote raw +:+ ".")
         | Some cont =>
             if bool_decide (trim_space hc.1 = "") then Ok [mkPort 0 cont ps.1]
             else match parsePortNum hc.1 with
                  | None => Err ("Service " +:+ quote svc +:+ ": invalid host port in " +:+ quote raw +:+ ".")
                  | Some host => Ok [mkPort host cont ps.1]
                  end
         end.
Definition parsePorts (svc : string) (specs : list string) : verr (list PortMap) :=
  l ← first_err (parsePort svc) specs; Ok (mjoin (M:=list) l).

Definition parseVolume (svc raw : string) : verr (list VolMount) :=
  let s := trim_space raw in
  if bool_decide (s = "") then Ok []
  else match split_on ":" s with
       | [t] => Ok [mkVol "" t]
       | [src; t] => Ok [mkVol src t]
       | [src; t; _] => Ok [mkVol src t]
       | _ => Err ("Service " +:+ quote svc +:+ ": invalid volume mapping " +:+ quote raw +:+ ".")
       end.
Definition parseVolumes (svc : string) (specs : list string) : verr (list VolMount) :=
  l ← first_err (parseVolume svc) specs; Ok (mjoin (M:=list) l).

Definition envMap (env : list string) : gmap string string :=
  foldl (fun m e =>
    let '(k, v) := match cut "=" e with Some (k, v) => (trim_space k, v) | None => (trim_space e, "") end in
    if bool_decide (k = "") then m else <[k := v]> m) ∅ env.

Definition normalizeRestart (v : string) : string :=
  let v := to_lower (trim_space v) in
  if bool_decide (v ∈ ["always"; "on-failure"; "unless-stopped"; "no"]) then v else "".

Definition is_sep (c : ascii) : bool := Ascii.eqb c "-" || Ascii.eqb c "_".
(** One byte of the name: what is written so far, and whether it ends in a separator. *)
Definition sanitize_byte (st : string * bool) (c : ascii) : string * bool :=
  let n := N_of_ascii c in
  if ((97 <=? n) && (n <=? 122) || (48 <=? n) && (n <=? 57))%N then (st.1 +:+ String c "", false)
  else if is_sep c then
    if bool_decide (st.1 <> "") && negb st.2 then (st.1 +:+ String c "", true) else st
  else if Ascii.eqb c " " || Ascii.eqb c "." || Ascii.eqb c "/" then
    if bool_decide (st.1 <> "") && negb st.2 then (st.1 +:+ "-", true) else st
  else st.
Fixpoint sanitize_bytes (st : string * bool) (s : string) : string * bool :=
  match s with EmptyString => st | String c s' => sanitize_bytes (sanitize_byte st c) s' end.
Definition SanitizeProjectName (s : string) : string :=
  let b := (sanitize_bytes ("", false) (to_lower (trim_space s))).1 in
  trim_right_set is_sep (trim_left_set is_sep b).
Definition SanitizeNetworkSuffix (s : string) : string :=
  let out := SanitizeProjectName s in if bool_decide (out = "") then "net" else out.

Record Plan := mkPlan {
  pl_Project : string; pl_Specs : list DeploySpec; pl_Aliases : gmap string (list string);
  pl_ExtraNetworks : gmap string (list string); pl_Networks : list string }.

Definition spec_of (project name : string) (svc : Service) : verr DeploySpec :=
  ports ← parsePorts name (sv_Ports svc);
  vols ← parseVolumes name (sv_Volumes svc);
  let containerName := if bool_decide (sv_ContainerName svc = "") then project +:+ "-" +:+ name
                       else sv_ContainerName svc in
  let labels : gmap string string :=
    <[LabelProject := project]> (<[LabelService := name]> (<[LabelContainerNum := "1"]>
      (<[LabelCastorStack := project]> (<[LabelCastorManaged := "true"]> ∅)))) in
  Ok (mkSpec (sv_Image svc) containerName (envMap (sv_Environment svc)) ports vols labels
        (normalizeRestart (sv_Restart svc)) f64_zero 0 f64_zero 0 false).

(** One service added to the plan; the set of networks is a map to unit. *)
Definition plan_service (m : Model) (project : string)
    (acc : verr (list DeploySpec * gmap string (list string) * gmap string (list string) * gmap string unit))
    (name : string) :=
  '(specs, aliases, extra, nets) ← acc;
  let svc := default zero_service (m !! name) in
  spec ← spec_of project name svc;
  let cn := ds_Name spec in
  let al := if bool_decide (cn = name) then [name] else [name; cn] in
  let pns := (fun n => project +:+ "_" +:+ SanitizeNetworkSuffix n) <$> sv_Networks svc in
  Ok (specs ++ [spec], <[cn := al]> aliases,
      match pns with [] => extra | _ => <[cn := default [] (extra !! cn) ++ pns]> extra end,
      foldl (fun s n => <[n := tt]> s) nets pns).

Section Plan.
Context (range : forall A, gmap string A -> list (string * A)).

Definition BuildPlan (rawProject : string) (m : Model) : option (verr Plan) :=
  let project := SanitizeProjectName rawProject in
  if bool_decide (project = "")
  then Some (Err "Invalid project name (use letters, digits, '-' or '_').")
  else
    order ← topoSort range m;
    Some ('(specs, aliases, extra, nets) ←
            (o ← order; foldl (plan_service m project) (Ok ([], ∅, ∅, ∅)) o);
          Ok (mkPlan project specs aliases extra (range _ nets).*1)).
End Plan.

Definition DefaultNetworkName (p : Plan) : string := pl_Project p +:+ "_default".
Definition Plan_HostMountSources (p : Plan) : list string :=
  mjoin ((fun s => HostMountSources (ds_Volumes s)) <$> pl_Specs p).
