(* ===== verification/GoFacts.v ===== *)
(** * Facts about Go strings: numbers, trimming, splitting *)
From S2P Require Import Prelude GoStd.

(** ** Bytes and predicates on them *)

Fixpoint every (f : ascii -> bool) (s : string) : bool :=
  match s with EmptyString => true | String c s' => f c && every f s' end.
Lemma append_nil (s : string) : s +:+ "" = s.
Proof. induction s as [|c s IH]; [done|]. change (String c (s +:+ "") = String c s). by rewrite IH. Qed.
Lemma append_cons c (s t : string) : String c s +:+ t = String c (s +:+ t).
Proof. done. Qed.
Lemma append_assoc (s t u : string) : (s +:+ t) +:+ u = s +:+ (t +:+ u).
Proof. apply string_app_assoc. Qed.
Lemma append_length (s t : string) : String.length (s +:+ t) = (String.length s + String.length t)%nat.
Proof. induction s as [|c s IH]; [done|]. rewrite append_cons. simpl. by rewrite IH. Qed.
Lemma every_app f s t : every f (s +:+ t) = every f s && every f t.
Proof. induction s as [|c s IH]; [done|]. simpl. by rewrite IH, andb_assoc. Qed.
Lemma every_impl (f g : ascii -> bool) s : (forall c, f c = true -> g c = true) -> every f s = true -> every g s = true.
Proof.
  intros Hfg. induction s as [|c s IH]; [done|]. simpl. rewrite !andb_true_iff. intros [Hc Hs]. split; auto.
Qed.

Definition is_digit (c : ascii) : bool := let n := N_of_ascii c in ((48 <=? n) && (n <=? 57))%N.
(** Not the first byte of a space rune. *)
Definition plain (c : ascii) : bool :=
  negb (existsb (N.eqb (N_of_ascii c)) [9; 10; 11; 12; 13; 32; 194; 225; 226; 227]%N).
Definition other_than (d c : ascii) : bool := negb (Ascii.eqb c d).

(** A property of all 256 bytes, by cases. *)
Ltac by_byte c := destruct c as [[] [] [] [] [] [] [] []]; vm_compute; intros; first [done|discriminate].
Lemma digit_plain c : is_digit c = true -> plain c = true.
Proof. by_byte c. Qed.
Definition is_sign (c : ascii) : bool := Ascii.eqb c "-" || Ascii.eqb c "+".
Lemma digit_no_sign c : is_digit c = true -> is_sign c = false.
Proof. by_byte c. Qed.
Lemma digit_other d c : is_digit d = false -> is_digit c = true -> other_than d c = true.
Proof. intros Hd Hc. unfold other_than. destruct (Ascii.eqb_spec c d) as [->|]; [congruence|done]. Qed.

(** ** TrimSpace leaves a string of plain bytes alone *)

Lemma strip_space_plain c s : plain c = true -> strip_space (String c s) = None.
Proof.
  intros Hc. unfold strip_space. destruct (list_find _ _) as [[i r]|] eqn:E; [|done]. exfalso.
  apply list_find_Some in E as (Hi & Hp & _). apply list_elem_of_lookup_2 in Hi.
  apply has_prefix_spec in Hp as [u Hu]. revert Hc. unfold plain.
  assert (exists n t, r = String (ascii_of_N n) t /\ n ∈ [9; 10; 11; 12; 13; 32; 194; 225; 226; 227]%N) as (n & t & -> & Hn).
  { clear -Hi. unfold space_runes in Hi. cbn [map app bytes foldr] in Hi.
    repeat (apply elem_of_cons in Hi as [->|Hi]; [eexists _, _; split; [reflexivity|]; vm_compute; repeat constructor|]).
    by apply elem_of_nil in Hi. }
  injection Hu as -> _. clear -Hn.
  repeat (apply elem_of_cons in Hn as [->|Hn]; [done|]). by apply elem_of_nil in Hn.
Qed.
Lemma trim_left_plain s : every plain s = true -> trim_left s = s.
Proof. destruct s as [|c s]; [done|]. simpl. intros [Hc _]%andb_true_iff. unfold trim_left. simpl. by rewrite strip_space_plain. Qed.
Lemma all_spaces_plain c s : plain c = true -> all_spaces (String c s) = false.
Proof. intros Hc. unfold all_spaces. simpl. by rewrite strip_space_plain. Qed.
Lemma trim_right_plain s : every plain s = true -> trim_right s = s.
Proof.
  induction s as [|c s IH]; [done|]. cbn [every]. intros [Hc Hs]%andb_true_iff. cbn [trim_right].
  by rewrite all_spaces_plain, IH.
Qed.
Lemma trim_space_plain s : every plain s = true -> trim_space s = s.
Proof. intros H. unfold trim_space. rewrite trim_left_plain by done. by apply trim_right_plain. Qed.

(** ** TrimSpace, twice *)

Lemma string_drop_app (r s : string) : string_drop (String.length r) (r +:+ s) = s.
Proof. by induction r. Qed.
Lemma append_prefix (a b x y : string) : a +:+ x = b +:+ y -> has_prefix a b = true \/ has_prefix b a = true.
Proof.
  rewrite !has_prefix_spec. revert b. induction a as [|c a IH]; intros [|d b] He; [by left; exists ""|by right; exists (String d b)|by left; exists (String c a)|].
  injection He as -> He. apply IH in He as [[u ->]|[u ->]]; [left|right]; by exists u.
Qed.

(** No space rune starts another. *)
Lemma space_runes_free : forallb (fun r => negb (bool_decide (r = "")) && forallb (fun r' => implb (has_prefix r r') (bool_decide (r = r'))) space_runes) space_runes = true.
Proof. vm_compute. reflexivity. Qed.
Lemma space_rune_unique r r' x y : r ∈ space_runes -> r' ∈ space_runes -> r +:+ x = r' +:+ y -> r = r' /\ x = y.
Proof.
  intros Hr Hr' He. pose proof space_runes_free as Hf. rewrite forallb_forall in Hf.
  assert (forall a b, a ∈ space_runes -> b ∈ space_runes -> has_prefix a b = true -> a = b) as Hu.
  { intros a b Ha Hb Hp. specialize (Hf a (proj1 (list_elem_of_In _ _) Ha)). apply andb_true_iff in Hf as [_ Hf].
    rewrite forallb_forall in Hf. specialize (Hf b (proj1 (list_elem_of_In _ _) Hb)). rewrite Hp in Hf.
    by apply bool_decide_eq_true in Hf. }
  assert (r = r') as -> by (destruct (append_prefix _ _ _ _ He); [|symmetry]; by apply Hu).
  split; [done|]. by apply string_app_inj_l in He.
Qed.
Lemma strip_space_iff s s' : strip_space s = Some s' <-> exists r, r ∈ space_runes /\ s = r +:+ s'.
Proof.
  unfold strip_space. split.
  - destruct (list_find _ _) as [[i r]|] eqn:E; [|done]. intros [= <-].
    apply list_find_Some in E as (Hi & [u ->]%has_prefix_spec & _). exists r. rewrite string_drop_app.
    split; [by eapply list_elem_of_lookup_2|done].
  - intros (r & Hr & ->). destruct (list_find _ _) as [[i r']|] eqn:E.
    + apply list_find_Some in E as (Hi & [u Hu]%has_prefix_spec & _). rewrite Hu, string_drop_app.
      apply list_elem_of_lookup_2 in Hi. by destruct (space_rune_unique _ _ _ _ Hr Hi Hu) as [_ ->].
    + apply list_find_None in E. rewrite Forall_forall in E. destruct (E r Hr). apply has_prefix_spec. by exists s'.
Qed.
Lemma strip_space_shorter s s' : strip_space s = Some s' -> (String.length s' < String.length s)%nat.
Proof.
  intros (r & Hr & ->)%strip_space_iff. rewrite append_length. pose proof space_runes_free as Hf. rewrite forallb_forall in Hf.
  specialize (Hf r (proj1 (list_elem_of_In _ _) Hr)). apply andb_true_iff in Hf as [Hne%negb_true_iff%bool_decide_eq_false _].
  destruct r; [done|simpl; lia].
Qed.

Lemma all_spaces_fuel_enough n s : (String.length s <= n)%nat -> all_spaces_fuel n s = all_spaces s.
Proof.
  unfold all_spaces. enough (forall m, String.length s <= n -> String.length s <= m -> all_spaces_fuel n s = all_spaces_fuel m s)%nat by auto.
  revert s. induction n as [|n IH]; intros s m Hn Hm; destruct s as [|c s]; simpl in *; try lia; [by destruct m..|].
  destruct m as [|m]; [simpl in *; lia|]. cbn [all_spaces_fuel]. destruct (strip_space (String c s)) as [s'|] eqn:E; [|done].
  apply strip_space_shorter in E. simpl in E. apply IH; lia.
Qed.
Lemma all_spaces_strip s s' : strip_space s = Some s' -> all_spaces s = all_spaces s'.
Proof.
  intros Hs. pose proof (strip_space_shorter _ _ Hs). destruct s as [|c s]; [simpl in *; lia|].
  unfold all_spaces at 1. cbn [String.length all_spaces_fuel]. rewrite Hs. apply all_spaces_fuel_enough. simpl in *. lia.
Qed.
Lemma all_spaces_none s : all_spaces s = true -> s <> "" -> exists s', strip_space s = Some s'.
Proof.
  destruct s as [|c s]; [done|]. unfold all_spaces. cbn [String.length all_spaces_fuel].
  destruct (strip_space (String c s)); [by eexists|done].
Qed.
Lemma all_spaces_app a t : all_spaces a = true -> all_spaces t = true -> all_spaces (a +:+ t) = true.
Proof.
  induction a as [a IH] using (induction_ltof1 _ String.length). intros Ha Ht. unfold ltof in IH.
  destruct (decide (a = "")) as [->|Hne]; [done|]. destruct (all_spaces_none a Ha Hne) as [a' Ha'].
  rewrite (all_spaces_strip _ _ Ha') in Ha. rewrite (all_spaces_strip (a +:+ t) (a' +:+ t)).
  - apply IH; [by apply strip_space_shorter|done|done].
  - apply strip_space_iff in Ha' as (r & Hr & ->). apply strip_space_iff. exists r. by rewrite append_assoc.
Qed.

Lemma trim_right_split s : exists t, s = trim_right s +:+ t /\ all_spaces t = true.
Proof.
  induction s as [|c s IH]; [by exists ""|]. cbn [trim_right]. destruct (all_spaces (String c s)) eqn:E; [by exists (String c s)|].
  destruct IH as (t & Ht & Ha). exists t. split; [|done]. rewrite append_cons. by rewrite <- Ht.
Qed.
Lemma trim_right_idem s : trim_right (trim_right s) = trim_right s.
Proof.
  induction s as [|c s IH]; [done|]. cbn [trim_right]. destruct (all_spaces (String c s)) eqn:E; [done|]. cbn [trim_right].
  destruct (all_spaces (String c (trim_right s))) eqn:E2; [|by rewrite IH].
  destruct (trim_right_split s) as (t & Ht & Ha). rewrite Ht in E. rewrite <- append_cons in E.
  by rewrite all_spaces_app in E.
Qed.
Lemma trim_left_none s : strip_space (trim_left s) = None.
Proof.
  unfold trim_left. enough (forall n, String.length s <= n -> strip_space (trim_left_fuel n s) = None)%nat as H by (by apply H).
  intros n. revert s. induction n as [|n IH]; intros s Hn; cbn [trim_left_fuel].
  - destruct s as [|]; [|simpl in *; lia]. by vm_compute.
  - destruct (strip_space s) as [s'|] eqn:E; [|done]. apply IH. apply strip_space_shorter in E. lia.
Qed.
Lemma trim_left_id s : strip_space s = None -> trim_left s = s.
Proof. unfold trim_left. intros H. destruct (String.length s); [done|]. simpl. by rewrite H. Qed.
Lemma trim_space_idem s : trim_space (trim_space s) = trim_space s.
Proof.
  unfold trim_space. rewrite (trim_left_id (trim_right (trim_left s))); [apply trim_right_idem|].
  destruct (strip_space (trim_right (trim_left s))) as [u|] eqn:E; [|done]. exfalso.
  destruct (trim_right_split (trim_left s)) as (t & Ht & _). apply strip_space_iff in E as (r & Hr & E).
  assert (strip_space (trim_left s) = Some (u +:+ t)) as Hs; [|by rewrite trim_left_none in Hs].
  apply strip_space_iff. exists r. split; [done|]. by rewrite Ht, E, append_assoc.
Qed.

(** ** Atoi and Itoa *)

Lemma pretty_N_char_digit n : (n < 10)%N -> is_digit (pretty_N_char n) = true /\ digit_val (pretty_N_char n) = Some (Z.of_N n).
Proof.
  intros Hn. destruct n as [|p]; [done|]. do 4 (try destruct p as [p|p|]); first [exfalso; lia|done].
Qed.

Lemma pretty_go_digits n s : (0 < n)%N -> every is_digit s = true ->
  every is_digit (pretty_N_go n s) = true /\ pretty_N_go n s <> "" /\ digits_val 0 (pretty_N_go n s) = digits_val (Z.of_N n) s.
Proof.
  revert s. induction (N.lt_wf_0 n) as [n _ IH]. intros s Hn Hs. rewrite pretty_N_go_step by done.
  destruct (pretty_N_char_digit (n `mod` 10)) as [Hc Hd]; [apply N.mod_lt; lia|].
  assert (every is_digit (String (pretty_N_char (n `mod` 10)) s) = true) as Hs' by (simpl; by rewrite Hc).
  pose proof (N.div_mod n 10 ltac:(lia)) as Hdm.
  destruct (decide (n / 10 = 0)%N) as [Hz|Hz].
  - rewrite Hz, pretty_N_go_0. split; [done|]. split; [done|]. cbn [digits_val]. rewrite Hd. simpl. f_equal. lia.
  - assert (n / 10 < n)%N as Hlt by (apply N.div_lt; lia).
    assert (0 < n / 10)%N as Hpos by (by apply N.neq_0_lt_0).
    destruct (IH _ Hlt (String (pretty_N_char (n `mod` 10)) s) Hpos Hs') as (H1 & H2 & H3). split; [done|]. split; [done|]. rewrite H3. cbn [digits_val]. rewrite Hd. simpl.
    f_equal. lia.
Qed.

Lemma itoa_spec z : 0 <= z -> every is_digit (itoa z) = true /\ itoa z <> "" /\ digits_val 0 (itoa z) = Some z.
Proof.
  intros Hz. destruct z as [|p|p]; [done| |lia]. change (itoa (Z.pos p)) with (pretty_N_go (N.pos p) "").
  by destruct (pretty_go_digits (N.pos p) "") as (H1 & H2 & H3).
Qed.

(** A decimal is not longer than its value (plus one, for 0). *)
Lemma pretty_go_length n s : (N.of_nat (String.length (pretty_N_go n s)) <= n + N.of_nat (String.length s))%N.
Proof.
  revert s. induction (N.lt_wf_0 n) as [n _ IH]. intros s. destruct (decide (n = 0)%N) as [->|Hn].
  - rewrite pretty_N_go_0. lia.
  - rewrite pretty_N_go_step by lia. assert (n / 10 < n)%N as Hlt by (apply N.div_lt; lia).
    etrans; [by apply IH|]. simpl. lia.
Qed.
Lemma itoa_length z : 0 <= z -> Z.of_nat (String.length (itoa z)) <= z + 1.
Proof.
  intros Hz. destruct z as [|p|p]; [done| |lia]. change (itoa (Z.pos p)) with (pretty_N_go (N.pos p) "").
  pose proof (pretty_go_length (N.pos p) "") as H. simpl in H. lia.
Qed.

(** Without a sign [atoi] reads the digits. *)
Lemma atoi_unsigned c s : is_sign c = false ->
  atoi (String c s) = (v ← digits_val 0 (String c s); if (- 2 ^ 63 <=? v) && (v <? 2 ^ 63) then Some v else None).
Proof. destruct c as [[] [] [] [] [] [] [] []]; intros Hc; [..]; first [discriminate Hc|reflexivity]. Qed.

Lemma atoi_itoa z : 0 <= z < 2 ^ 63 -> atoi (itoa z) = Some z.
Proof.
  intros [Hz Hmax]. destruct (itoa_spec z Hz) as (H1 & H2 & H3).
  destruct (itoa z) as [|c s]; [done|]. simpl in H1. apply andb_true_iff in H1 as [Hc _].
  rewrite atoi_unsigned, H3 by by apply digit_no_sign. cbn [mbind option_bind].
  by rewrite (proj2 (Z.leb_le _ _)), (proj2 (Z.ltb_lt _ _)) by lia.
Qed.

(** ** Split and Cut *)

Lemma split_on_none d s : every (other_than d) s = true -> split_on d s = [s].
Proof.
  induction s as [|c s IH]; [done|]. simpl. rewrite andb_true_iff. unfold other_than at 1. intros [Hc Hs].
  apply negb_true_iff in Hc. by rewrite Hc, IH.
Qed.
Lemma split_on_sep d s t : every (other_than d) s = true -> split_on d (s +:+ String d t) = s :: split_on d t.
Proof.
  induction s as [|c s IH]; simpl; [by rewrite Ascii.eqb_refl|]. rewrite andb_true_iff. unfold other_than at 1.
  intros [Hc Hs]. apply negb_true_iff in Hc. by rewrite Hc, IH.
Qed.
Lemma cut_app d s t : every (other_than d) s = true -> cut d (s +:+ String d t) = Some (s, t).
Proof.
  induction s as [|c s IH]; simpl; [by rewrite Ascii.eqb_refl|]. rewrite andb_true_iff. unfold other_than at 1.
  intros [Hc Hs]. apply negb_true_iff in Hc. by rewrite Hc, IH.
Qed.
Lemma cut_last_none d s : every (other_than d) s = true -> cut_last d s = None.
Proof.
  induction s as [|c s IH]; [done|]. simpl. rewrite andb_true_iff. unfold other_than at 1. intros [Hc Hs].
  apply negb_true_iff in Hc. by rewrite IH, Hc.
Qed.
Lemma cut_last_app d s t : every (other_than d) t = true -> cut_last d (s +:+ String d t) = Some (s, t).
Proof.
  intros Ht. induction s as [|c s IH]; simpl; [by rewrite cut_last_none, Ascii.eqb_refl|]. by rewrite IH.
Qed.
Lemma contains_none d s : every (other_than d) s = true -> contains_char d s = false.
Proof.
  induction s as [|c s IH]; [done|]. simpl. rewrite andb_true_iff. unfold other_than at 1. intros [Hc Hs].
  apply negb_true_iff in Hc. by rewrite Hc, IH.
Qed.
