(* ===== verification/Utf8.v ===== *)
(** * UTF-8 as Go decodes it: package unicode/utf8, and conversions to runes

    A rune is decoded from the bytes of a string; a byte that starts no
    well-formed sequence counts as one rune, U+FFFD.  A string is valid when the
    decoder never meets such a byte; then re-encoding its runes gives it back. *)
From S2P Require Import Prelude GoStd GoFacts.

(** ** DecodeRune *)

Definition RuneError : Z := 65533.
Definition byte_val (c : ascii) : Z := Z.of_N (N_of_ascii c).
Definition between (lo hi : Z) (c : ascii) : bool := (lo <=? byte_val c) && (byte_val c <=? hi).
Definition contb (c : ascii) : bool := between 128 191 c.

(** The second bytes a three- or four-byte sequence may have, by its first. *)
Definition second3 (c d : ascii) : bool :=
  between (if byte_val c =? 224 then 160 else 128) (if byte_val c =? 237 then 159 else 191) d.
Definition second4 (c d : ascii) : bool :=
  between (if byte_val c =? 240 then 144 else 128) (if byte_val c =? 244 then 143 else 191) d.
Definition low6 (c : ascii) : Z := byte_val c mod 64.

(** [utf8.DecodeRuneInString(s)] for a non-empty [s]: the rune and the rest; the
    boolean tells a U+FFFD that is in the string from one that stands for a byte. *)
Definition decode (s : string) : option (Z * bool * string) :=
  match s with
  | EmptyString => None
  | String c s1 =>
      let bad := Some (RuneError, false, s1) in
      if byte_val c <? 128 then Some (byte_val c, true, s1)
      else if between 194 223 c then
        match s1 with
        | String d s2 =>
            if contb d then Some ((byte_val c - 192) * 64 + low6 d, true, s2) else bad
        | _ => bad
        end
      else if between 224 239 c then
        match s1 with
        | String d (String e s3) =>
            if second3 c d && contb e
            then Some ((byte_val c - 224) * 4096 + low6 d * 64 + low6 e, true, s3) else bad
        | _ => bad
        end
      else if between 240 244 c then
        match s1 with
        | String d (String e (String f s4)) =>
            if second4 c d && contb e && contb f
            then Some ((byte_val c - 240) * 262144 + low6 d * 4096 + low6 e * 64 + low6 f, true, s4)
            else bad
        | _ => bad
        end
      else bad
  end.

(** [[]rune(s)], with fuel; every rune takes a byte, so the length is enough. *)
Fixpoint runes_fuel (n : nat) (s : string) : list (Z * bool) :=
  match n with
  | O => []
  | S n => match decode s with
           | Some (r, ok, s') => (r, ok) :: runes_fuel n s'
           | None => []
           end
  end.
Definition runes (s : string) : list (Z * bool) := runes_fuel (String.length s) s.
Definition rune_count (s : string) : Z := Z.of_nat (length (runes s)).
(** [utf8.ValidString(s)] and [string([]rune(s))]. *)
Definition valid_utf8 (s : string) : bool := forallb snd (runes s).
Definition string_of_runes (l : list Z) : string := foldr (fun r s => string_of_rune r +:+ s) "" l.
Definition scrub (s : string) : string := string_of_runes (runes s).*1.

(** ** What a step of the decoder does *)

Lemma byte_val_range c : 0 <= byte_val c < 256.
Proof. unfold byte_val. pose proof (N_ascii_bounded c). lia. Qed.
Lemma bytes_cons n l : bytes (n :: l) = String (ascii_of_N n) (bytes l).
Proof. done. Qed.
Lemma ascii_of_val c k : byte_val c = k -> ascii_of_N (Z.to_N k) = c.
Proof. intros <-. unfold byte_val. rewrite N2Z.id. apply ascii_N_embedding. Qed.

Lemma decode_shorter s r ok s' : decode s = Some (r, ok, s') -> (String.length s' < String.length s)%nat.
Proof.
  destruct s as [|c s1]; [done|]. unfold decode. cbv zeta.
  repeat match goal with
  | |- context [if ?b then _ else _] => destruct b
  | |- context [match ?t with EmptyString => _ | String _ _ => _ end] => is_var t; destruct t
  end; intros [= <- <- <-]; simpl; lia.
Qed.

Lemma between_spec lo hi c : between lo hi c = true <-> lo <= byte_val c <= hi.
Proof. unfold between. rewrite andb_true_iff, !Z.leb_le. lia. Qed.
Lemma second3_cont c d : second3 c d = true -> 128 <= byte_val d <= 191.
Proof. unfold second3. intros H%between_spec. destruct (_ =? 224), (_ =? 237); lia. Qed.
Lemma second4_cont c d : second4 c d = true -> 128 <= byte_val d <= 191.
Proof. unfold second4. intros H%between_spec. destruct (_ =? 240), (_ =? 244); lia. Qed.

(** The bytes [string_of_rune] writes, by the range of the rune. *)
Lemma rune_bytes r : 0 <= r <= 1114111 -> (r < 55296 \/ 57343 < r) ->
  string_of_rune r =
  bytes (Z.to_N <$>
    (if r <? 128 then [r]
     else if r <? 2048 then [192 + r / 64; 128 + r mod 64]
     else if r <? 65536 then [224 + r / 4096; 128 + (r / 64) mod 64; 128 + r mod 64]
     else [240 + r / 262144; 128 + (r / 4096) mod 64; 128 + (r / 64) mod 64; 128 + r mod 64])).
Proof.
  intros Hr Hs. unfold string_of_rune. cbv zeta.
  rewrite (Z.mod_small (r + 2 ^ 31)) by lia. replace (r + 2 ^ 31 - 2 ^ 31) with r by lia.
  destruct (Z.ltb_spec r 128), (Z.ltb_spec r 2048), (Z.ltb_spec r 65536), (Z.leb_spec 0 r), (Z.leb_spec 128 r),
    (Z.ltb_spec r 0), (Z.ltb_spec 1114111 r), (Z.leb_spec 55296 r), (Z.leb_spec r 57343); cbn [andb orb]; try lia; try reflexivity.
Qed.

Ltac byte_ranges :=
  repeat match goal with c : ascii |- _ =>
    lazymatch goal with _ : 0 <= byte_val c < 256 |- _ => fail | _ => pose proof (byte_val_range c) end end.

(** [lia] with the defining equations of the divisions in the goal. *)
Ltac mlia := Z.to_euclidean_division_equations; lia.

Lemma decode_reencode s r s' : decode s = Some (r, true, s') -> s = string_of_rune r +:+ s'.
Proof.
  destruct s as [|c s1]; [done|]. unfold decode. cbv zeta.
  destruct (Z.ltb_spec (byte_val c) 128) as [Hc|Hc].
  { intros [= <- <-]. byte_ranges. rewrite rune_bytes by mlia.
    destruct (Z.ltb_spec (byte_val c) 128); [|mlia]. simpl. by rewrite (ascii_of_val c). }
  destruct (between 194 223 c) eqn:H2; [|destruct (between 224 239 c) eqn:H3; [|destruct (between 240 244 c) eqn:H4; [|done]]].
  - destruct s1 as [|d s2]; [done|]. destruct (contb d) eqn:Hd; [|done]. intros [= <- <-].
    apply between_spec in H2, Hd. unfold low6. set (b := byte_val c) in *. set (b' := byte_val d) in *.
    rewrite rune_bytes by mlia. destruct (Z.ltb_spec ((b - 192) * 64 + b' mod 64) 128); [mlia|].
    destruct (Z.ltb_spec ((b - 192) * 64 + b' mod 64) 2048); [|mlia]. simpl.
    by rewrite (ascii_of_val c), (ascii_of_val d) by mlia.
  - destruct s1 as [|d [|e s3]]; [done..|]. destruct (second3 c d && contb e) eqn:Hde; [|done]. intros [= <- <-].
    apply andb_true_iff in Hde as [Hd He]. apply between_spec in H3, He. pose proof (second3_cont _ _ Hd) as Hd'.
    unfold second3 in Hd. apply between_spec in Hd. unfold low6.
    set (b := byte_val c) in *. set (b' := byte_val d) in *. set (b'' := byte_val e) in *.
    assert (2048 <= (b - 224) * 4096 + b' mod 64 * 64 + b'' mod 64 < 65536 /\
            ((b - 224) * 4096 + b' mod 64 * 64 + b'' mod 64 < 55296 \/
             57343 < (b - 224) * 4096 + b' mod 64 * 64 + b'' mod 64)) as [? ?].
    { destruct (Z.eqb_spec b 224), (Z.eqb_spec b 237); mlia. }
    rewrite rune_bytes by mlia. destruct (Z.ltb_spec ((b - 224) * 4096 + b' mod 64 * 64 + b'' mod 64) 128); [mlia|].
    destruct (Z.ltb_spec ((b - 224) * 4096 + b' mod 64 * 64 + b'' mod 64) 2048); [mlia|].
    destruct (Z.ltb_spec ((b - 224) * 4096 + b' mod 64 * 64 + b'' mod 64) 65536); [|mlia]. simpl.
    by rewrite (ascii_of_val c), (ascii_of_val d), (ascii_of_val e) by mlia.
  - destruct s1 as [|d [|e [|f s4]]]; [done..|]. destruct (second4 c d && contb e && contb f) eqn:Hde; [|done].
    intros [= <- <-].
    apply andb_true_iff in Hde as [[Hd He]%andb_true_iff Hf]. apply between_spec in H4, He, Hf.
    pose proof (second4_cont _ _ Hd) as Hd'. unfold second4 in Hd. apply between_spec in Hd. unfold low6.
    set (b := byte_val c) in *. set (b' := byte_val d) in *. set (b'' := byte_val e) in *. set (b3 := byte_val f) in *.
    set (r := (b - 240) * 262144 + b' mod 64 * 4096 + b'' mod 64 * 64 + b3 mod 64).
    assert (65536 <= r <= 1114111) by (subst r; destruct (Z.eqb_spec b 240), (Z.eqb_spec b 244); mlia).
    rewrite rune_bytes by mlia. destruct (Z.ltb_spec r 128); [mlia|].
    destruct (Z.ltb_spec r 2048); [mlia|]. destruct (Z.ltb_spec r 65536); [mlia|]. simpl. subst r.
    by rewrite (ascii_of_val c), (ascii_of_val d), (ascii_of_val e), (ascii_of_val f) by mlia.
Qed.

Lemma decode_bad s r s' : decode s = Some (r, false, s') -> r = RuneError /\ exists c, s = String c s'.
Proof.
  destruct s as [|c s1]; [done|]. unfold decode. cbv zeta.
  repeat match goal with
  | |- context [if ?b then _ else _] => destruct b
  | |- context [match ?t with EmptyString => _ | String _ _ => _ end] => is_var t; destruct t
  end; intros [= <- <-]; eauto.
Qed.
Lemma decode_nonempty c s : exists r ok s', decode (String c s) = Some (r, ok, s').
Proof.
  unfold decode. cbv zeta.
  repeat match goal with
  | |- context [if ?b then _ else _] => destruct b
  | |- context [match ?t with EmptyString => _ | String _ _ => _ end] => is_var t; destruct t
  end; eauto.
Qed.

(** A byte below 128 after a string does not change how the string decodes. *)
Lemma decode_before_ascii v r ok v' d t :
  byte_val d < 128 -> decode v = Some (r, ok, v') ->
  decode (v +:+ String d t) = Some (r, ok, v' +:+ String d t).
Proof.
  intros Hd.
  assert (contb d = false) as Hc by (apply not_true_iff_false; unfold contb; rewrite between_spec; lia).
  assert (forall c, second3 c d = false) as H3 by (intros c; apply not_true_iff_false; intros H%second3_cont; lia).
  assert (forall c, second4 c d = false) as H4 by (intros c; apply not_true_iff_false; intros H%second4_cont; lia).
  destruct v as [|c v1]; [done|]. change (String c v1 +:+ String d t) with (String c (v1 +:+ String d t)).
  unfold decode. cbv zeta. destruct (byte_val c <? 128); [by intros [= <- <- <-]|].
  destruct (between 194 223 c); [|destruct (between 224 239 c); [|destruct (between 240 244 c); [|by intros [= <- <- <-]]]].
  - destruct v1 as [|c1 v2]; simpl; [rewrite Hc|destruct (contb c1)]; by intros [= <- <- <-].
  - destruct v1 as [|c1 [|c2 v3]]; simpl.
    + intros [= <- <- <-]. destruct t; [done|]. by rewrite H3.
    + rewrite Hc, andb_false_r. by intros [= <- <- <-].
    + destruct (second3 c c1 && contb c2); by intros [= <- <- <-].
  - destruct v1 as [|c1 [|c2 [|c3 v4]]]; simpl.
    + intros [= <- <- <-]. destruct t as [|? [|? ?]]; [done..|]. by rewrite H4.
    + intros [= <- <- <-]. destruct t; [done|]. by rewrite Hc, andb_false_r.
    + rewrite Hc, andb_false_r. by intros [= <- <- <-].
    + destruct (second4 c c1 && contb c2 && contb c3); by intros [= <- <- <-].
Qed.

(** ** The runes of a string *)

Lemma runes_fuel_enough n s : (String.length s <= n)%nat -> runes_fuel n s = runes s.
Proof.
  unfold runes. revert s. assert (forall n m s, (String.length s <= n)%nat -> (String.length s <= m)%nat ->
    runes_fuel n s = runes_fuel m s) as H.
  { intros k. induction k as [|k IH]; intros m s Hn Hm.
    - destruct s; [|simpl in Hn; lia]. by destruct m.
    - destruct m as [|m]; [destruct s; [done|simpl in Hm; lia]|]. simpl.
      destruct (decode s) as [[[r ok] s']|] eqn:E; [|done]. apply decode_shorter in E. f_equal. apply IH; lia. }
  intros s Hs. by apply H.
Qed.
Lemma runes_decode s r ok s' : decode s = Some (r, ok, s') -> runes s = (r, ok) :: runes s'.
Proof.
  intros H. unfold runes at 1. pose proof (decode_shorter _ _ _ _ H) as Hl.
  destruct (String.length s) as [|n] eqn:E; [lia|]. simpl. rewrite H. f_equal. apply runes_fuel_enough. lia.
Qed.

(** Induction on the way a string decodes. *)
Lemma decode_ind (Q : string -> Prop) :
  Q "" -> (forall s r ok s', decode s = Some (r, ok, s') -> Q s' -> Q s) -> forall s, Q s.
Proof.
  intros H0 H1 s. remember (String.length s) as n eqn:E. revert s E.
  induction (lt_wf n) as [n _ IH]. intros [|c s] ->; [done|].
  destruct (decode_nonempty c s) as (r & ok & s' & H). apply (H1 _ _ _ _ H). pose proof (decode_shorter _ _ _ _ H).
  by eapply IH.
Qed.

(** The whole point of a valid string: its runes, re-encoded, are the string. *)
Lemma scrub_valid s : valid_utf8 s = true -> scrub s = s.
Proof.
  unfold valid_utf8, scrub. induction s as [|s r ok s' H IH] using decode_ind; [done|].
  rewrite (runes_decode _ _ _ _ H). cbn [forallb snd]. intros [-> Hv]%andb_true_iff.
  rewrite fmap_cons. cbn [fst string_of_runes foldr]. fold (string_of_runes (runes s').*1).
  rewrite IH by done. symmetry. by apply decode_reencode.
Qed.
Lemma rune_count_le s : rune_count s <= Z.of_nat (String.length s).
Proof.
  unfold rune_count. induction s as [|s r ok s' H IH] using decode_ind; [done|].
  rewrite (runes_decode _ _ _ _ H). apply decode_shorter in H. cbn [length]. lia.
Qed.

(** Strings of bytes below 128 are valid. *)
Definition is_ascii (c : ascii) : bool := byte_val c <? 128.
Lemma ascii_valid s : every is_ascii s = true -> valid_utf8 s = true.
Proof.
  unfold valid_utf8. induction s as [|c s IH]; [done|]. simpl. intros [Hc Hs]%andb_true_iff.
  rewrite (runes_decode (String c s) (byte_val c) true s); [by apply IH|].
  unfold decode. cbv zeta. unfold is_ascii in Hc. by rewrite Hc.
Qed.
Lemma itoa_valid z : 0 <= z -> valid_utf8 (itoa z) = true.
Proof.
  intros Hz. destruct (itoa_spec z Hz) as (H & _). apply ascii_valid. eapply every_impl; [|done].
  intros c. by_byte c.
Qed.
