(* ===== verification/ComposeFacts.v ===== *)
(** * Facts about the order of deployment

    Kahn's algorithm of plan.go is a refinement of a direct definition: place,
    again and again, the alphabetically least service whose dependencies are all
    placed.  The properties of the order are proved of that definition. *)
From S2P Require Import Prelude GoStd Compose.

(** ** The specification *)

Definition deps_of (m : Model) (n : string) : list string := sv_DependsOn (default zero_service (m !! n)).
Definition names_of_model (m : Model) : list string := sort_strings (map_to_list m).*1.

(** An order of deployment: every service once, after its dependencies. *)
Definition valid_order (m : Model) (o : list string) : Prop :=
  Permutation o (names_of_model m)
  /\ forall i n, o !! i = Some n -> Forall (.∈ take i o) (deps_of m n).

(** Lexicographic order of lists of names. *)
Definition lex_le (o o' : list string) : Prop :=
  o = o' \/ exists p a b s s', o = p ++ a :: s /\ o' = p ++ b :: s' /\ a <> b /\ str_le a b.

Definition ready (m : Model) (out : list string) (n : string) : Prop :=
  (n ∉ out) /\ Forall (.∈ out) (deps_of m n).
#[export] Instance ready_dec m out n : Decision (ready m out n).
Proof. unfold ready. apply _. Defined.

Fixpoint greedy (fuel : nat) (m : Model) (out : list string) : list string :=
  match fuel with
  | O => out
  | S fuel => match filter (ready m out) (names_of_model m) with
              | [] => out
              | n :: _ => greedy fuel m (out ++ [n])
              end
  end.
Definition order_ref (m : Model) : list string := greedy (size m) m [].

(** The Go map's iteration order is any permutation of its entries. *)
Definition range_ok (range : forall A, gmap string A -> list (string * A)) : Prop :=
  forall A (m : gmap string A), range A m ≡ₚ map_to_list m.

(** ** Counting *)

Definition occ (x : string) (l : list string) : nat := length (filter (x =.) l).
Lemma occ_cons x y l : occ x (y :: l) = ((if decide (x = y) then 1 else 0) + occ x l)%nat.
Proof. unfold occ. rewrite filter_cons. by case_decide. Qed.
Lemma occ_nil x : occ x [] = 0%nat.
Proof. done. Qed.
Lemma occ_app x l1 l2 : occ x (l1 ++ l2) = (occ x l1 + occ x l2)%nat.
Proof. unfold occ. by rewrite filter_app, length_app. Qed.
Lemma occ_pos x l : (0 < occ x l)%nat <-> x ∈ l.
Proof.
  induction l as [|y l IH]; [unfold occ; simpl; rewrite elem_of_nil; split; [lia|done]|].
  rewrite occ_cons, elem_of_cons, <- IH. case_decide; intuition (lia || done).
Qed.
Lemma occ_zero x l : occ x l = 0%nat <-> x ∉ l.
Proof. rewrite <- occ_pos. lia. Qed.

(** Dependencies that are not placed yet. *)
Definition missing (m : Model) (out : list string) (n : string) : nat :=
  length (filter (.∉ out) (deps_of m n)).

Lemma missing_zero m out n : missing m out n = 0%nat <-> Forall (.∈ out) (deps_of m n).
Proof.
  unfold missing. rewrite Forall_forall, length_zero_iff_nil. split.
  - intros H x Hx. destruct (decide (x ∈ out)) as [|Hn]; [done|].
    assert (x ∈ filter (.∉ out) (deps_of m n)) as Hf by by apply list_elem_of_filter.
    rewrite H in Hf. by apply elem_of_nil in Hf.
  - intros H. apply filter_none, Forall_forall. intros x Hx Hn. by apply Hn, H.
Qed.

Lemma missing_snoc m out n x : n ∉ out ->
  missing m out x = (missing m (out ++ [n]) x + occ n (deps_of m x))%nat.
Proof.
  intros Hn. unfold missing, occ. induction (deps_of m x) as [|d l IH]; [done|].
  rewrite !filter_cons.
  destruct (decide (d ∉ out)) as [Ho|Ho], (decide (d ∉ out ++ [n])) as [Hs|Hs], (decide (n = d)) as [<-|Hd];
    simpl; rewrite ?IH; try lia; exfalso; rewrite elem_of_app, list_elem_of_singleton in Hs; naive_solver.
Qed.

(** ** The graph *)

Lemma add_edges n deps g d :
  let r := foldl (add_edge n) (g, d) deps in
  (forall x, r.1 !! x = if decide (x = n) then (Z.add (Z.of_nat (length deps))) <$> g !! x else g !! x)
  /\ (forall e x, occ x (default [] (r.2 !! e))
        = (occ x (default [] (d !! e)) + if decide (x = n) then occ e deps else 0)%nat).
Proof.
  revert g d. induction deps as [|y deps IH]; intros g d; cbn -[occ].
  - split; [intros x; case_decide; [|done]; by destruct (g !! x)|]. intros e x. rewrite occ_nil. case_decide; lia.
  - destruct (IH (alter (Z.add 1) n g) (<[y := default [] (d !! y) ++ [n]]> d)) as [IH1 IH2].
    unfold add_edge at 2 4. cbn [fst snd]. split.
    + intros x. rewrite IH1. case_decide as Hx; [|by rewrite lookup_alter_ne].
      subst x. rewrite lookup_alter_eq. destruct (g !! n); simpl; [|done]. f_equal. lia.
    + intros e x. rewrite IH2, occ_cons.
      destruct (decide (e = y)) as [->|He].
      * rewrite lookup_insert_eq; simpl. rewrite occ_app, occ_cons, occ_nil.
        destruct (decide (x = n)), (decide (y = y)); lia || done.
      * rewrite lookup_insert_ne by done. destruct (decide (x = n)), (decide (e = y)); lia || done.
Qed.

Lemma add_services m names g d : NoDup names ->
  let r := foldl (add_service m) (g, d) names in
  (forall x, r.1 !! x = if decide (x ∈ names)
                        then Some (Z.of_nat (length (deps_of m x)) + default 0 (g !! x)) else g !! x)
  /\ (forall e x, occ x (default [] (r.2 !! e))
        = (occ x (default [] (d !! e)) + if decide (x ∈ names) then occ e (deps_of m x) else 0)%nat).
Proof.
  revert g d. induction names as [|n names IH]; intros g d Hnd; cbn [foldl].
  - split; intros; (rewrite decide_False by apply not_elem_of_nil); cbn [fst snd]; [done|lia].
  - apply NoDup_cons in Hnd as [Hn Hnd].
    destruct (add_edges n (deps_of m n) (<[n := default 0 (g !! n)]> g) d) as [E1 E2].
    unfold add_service at 2 4. cbn [fst snd]. fold (deps_of m n).
    destruct (foldl (add_edge n) _ (deps_of m n)) as [g1 d1]. cbn [fst snd] in E1, E2.
    destruct (IH g1 d1 Hnd) as [IH1 IH2]. split.
    + intros x. rewrite IH1, E1. destruct (decide (x = n)) as [->|Hx].
      * rewrite (decide_False (P := n ∈ names)) by done. rewrite decide_True by by left.
        by rewrite lookup_insert_eq.
      * rewrite lookup_insert_ne by done. destruct (decide (x ∈ names)).
        -- by rewrite decide_True by (by right).
        -- by rewrite decide_False by (by apply not_elem_of_cons).
    + intros e x. rewrite IH2, E2. destruct (decide (x = n)) as [->|Hx].
      * rewrite (decide_False (P := n ∈ names)) by done. rewrite (decide_True (P := n ∈ n :: names)) by by left. lia.
      * destruct (decide (x ∈ names)).
        -- rewrite decide_True by (by right). lia.
        -- rewrite decide_False by (by apply not_elem_of_cons). lia.
Qed.

(** ** The queue *)

Lemma min_index_spec q0 best name i q :
  q0 !! best = Some name -> q = drop i q0 -> (forall y, y ∈ take i q0 -> str_le name y) ->
  exists n, q0 !! min_index best name i q = Some n /\ forall y, y ∈ q0 -> str_le n y.
Proof.
  revert best name i. induction q as [|x q IH]; intros best name i Hb Hq Hmin; simpl.
  - exists name. split; [done|]. intros y Hy. apply Hmin.
    rewrite take_ge; [done|]. apply (f_equal length) in Hq. rewrite length_drop in Hq. simpl in Hq. lia.
  - symmetry in Hq.
    assert (q0 !! i = Some x) as Hi by (rewrite <- (Nat.add_0_r i), <- lookup_drop, Hq; done).
    assert (q = drop (S i) q0) as Hq' by (rewrite <- Nat.add_1_r, <- drop_drop, Hq; done).
    assert (forall y, y ∈ take (S i) q0 -> y ∈ take i q0 \/ y = x) as Hsplit.
    { intros y. rewrite (take_S_r _ _ x) by done. rewrite elem_of_app, list_elem_of_singleton. done. }
    destruct (str_lt x name) eqn:E; apply IH; try done.
    + apply str_lt_le in E. intros y [Hy| ->]%Hsplit; [|apply str_le_refl]. etrans; [done|by apply Hmin].
    + apply str_lt_false in E. by intros y [Hy| ->]%Hsplit; [apply Hmin|].
Qed.

Lemma pop_min_nil q : pop_min q = None <-> q = [].
Proof.
  destruct q as [|x q]; [done|]. split; [|done]. unfold pop_min.
  destruct (min_index_spec (x :: q) 0 x 1 q) as (n & Hn & _); [done|done| |by rewrite Hn].
  simpl. intros y ->%list_elem_of_singleton. apply str_le_refl.
Qed.

Lemma pop_min_some q n rest : pop_min q = Some (n, rest) ->
  q ≡ₚ (n :: rest) /\ forall y, y ∈ q -> str_le n y.
Proof.
  destruct q as [|x q]; [done|]. unfold pop_min.
  destruct (min_index_spec (x :: q) 0 x 1 q) as (n' & Hn & Hle); [done|done| |].
  { simpl. intros y ->%list_elem_of_singleton. apply str_le_refl. }
  rewrite Hn. intros [= <- <-]. split; [|done].
  rewrite <- (take_drop_middle (x :: q) _ n') at 1 by done. by rewrite Permutation_middle.
Qed.

Lemma release_all L g q :
  (forall x, x ∈ L -> exists k, g !! x = Some k /\ Z.of_nat (occ x L) <= k) ->
  let r := foldl release (g, q) L in
  (forall x, r.1 !! x = (fun k => k - Z.of_nat (occ x L)) <$> g !! x)
  /\ exists new, r.2 = q ++ new /\ NoDup new /\ forall x, x ∈ new <-> x ∈ L /\ r.1 !! x = Some 0.
Proof.
  revert g q. induction L as [|y L IH]; intros g q HL; cbn [foldl].
  - split; [intros x; rewrite occ_nil; cbn [fst]; destruct (g !! x); simpl; [|done]; f_equal; lia|].
    exists []. rewrite app_nil_r. split; [done|]. split; [constructor|].
    intros x. split; [intros []%elem_of_nil|intros [[]%elem_of_nil _]].
  - destruct (HL y) as (ky & Hky & Hle); [by left|]. rewrite occ_cons, decide_True in Hle by done.
    set (g1 := alter (fun d => d - 1) y g). set (q1 := if bool_decide (g1 !! y = Some 0) then q ++ [y] else q).
    change (release (g, q) y) with (g1, q1).
    assert (forall x, x ∈ L -> exists k, g1 !! x = Some k /\ Z.of_nat (occ x L) <= k) as HL1.
    { intros x Hx. destruct (HL x) as (k & Hk & Hk'); [by right|]. rewrite occ_cons in Hk'.
      unfold g1. destruct (decide (x = y)) as [->|Hne].
      - exists (ky - 1). rewrite lookup_alter_eq, Hky. split; [done|]. lia.
      - exists k. rewrite lookup_alter_ne by done. split; [done|]. lia. }
    destruct (IH g1 q1 HL1) as (IH1 & new & Hq & Hnd & Hnew).
    destruct (foldl release (g1, q1) L) as [gr qr]. cbn [fst snd] in *. split.
    + intros x. rewrite IH1, occ_cons. unfold g1. destruct (decide (x = y)) as [->|Hne].
      * rewrite lookup_alter_eq. destruct (g !! y); simpl; [|done]. f_equal. lia.
      * by rewrite lookup_alter_ne.
    + assert (g1 !! y = Some (ky - 1)) as Hy by (unfold g1; rewrite lookup_alter_eq, Hky; done).
      unfold q1 in Hq. rewrite Hy in Hq. case_bool_decide as Hz.
      * assert (y ∉ L) as HyL by (apply occ_zero; injection Hz as Hz; lia).
        exists (y :: new). rewrite Hq, <- app_assoc. split; [done|]. split.
        { constructor; [|done]. by intros [? _]%Hnew. }
        intros x. rewrite !elem_of_cons, Hnew. split; [|intros [[->|Hx] Hx0]; [by left|by right]].
        intros [->|[Hx Hx0]]; [|split; [by right|done]].
        split; [by left|]. rewrite IH1, Hy; simpl. apply occ_zero in HyL. rewrite HyL. injection Hz as Hz. f_equal. lia.
      * exists new. split; [done|]. split; [done|]. intros x. rewrite Hnew, elem_of_cons.
        split; [intros [Hx Hx0]; split; [by right|done]|]. intros [[->|Hx] Hx0]; [|done]. split; [|done].
        apply occ_pos. destruct (occ y L) eqn:Ho; [|lia]. exfalso. apply Hz.
        rewrite IH1, Hy, Ho in Hx0. simplify_eq/=. f_equal. lia.
Qed.

(** ** Kahn's loop refines the specification *)

Lemma elem_of_names m x : x ∈ names_of_model m <-> is_Some (m !! x).
Proof.
  unfold names_of_model. rewrite elem_of_sort_strings. split.
  - intros ([k v] & -> & Hin)%list_elem_of_fmap. apply elem_of_map_to_list in Hin. by exists v.
  - intros [v Hv]. apply list_elem_of_fmap. exists (x, v). split; [done|by apply elem_of_map_to_list].
Qed.
Lemma names_NoDup m : NoDup (names_of_model m).
Proof. apply sort_strings_NoDup, NoDup_fst_map_to_list. Qed.
Lemma length_names m : length (names_of_model m) = size m.
Proof.
  unfold names_of_model. rewrite (Permutation_length (sort_strings_perm _)), length_fmap.
  apply length_map_to_list.
Qed.

(** What the loop has placed: distinct services, closed under dependencies. *)
Record placed (m : Model) (out : list string) : Prop := {
  pd_nodup : NoDup out;
  pd_sub : forall x, x ∈ out -> x ∈ names_of_model m;
  pd_closed : forall i n, out !! i = Some n -> Forall (.∈ take i out) (deps_of m n) }.

Record kahn_inv (m : Model) (dependents : gmap string (list string)) (indeg : gmap string Z)
    (queue out : list string) : Prop := {
  ki_placed : placed m out;
  ki_dep : forall e x, occ x (default [] (dependents !! e))
             = if decide (x ∈ names_of_model m) then occ e (deps_of m x) else 0%nat;
  ki_indeg : forall x, x ∈ names_of_model m -> indeg !! x = Some (Z.of_nat (missing m out x));
  ki_nodup : NoDup queue;
  ki_queue : forall x, x ∈ queue <-> x ∈ names_of_model m /\ ready m out x }.

Lemma placed_snoc m out n : placed m out -> n ∈ names_of_model m -> ready m out n -> placed m (out ++ [n]).
Proof.
  intros [Hnd Hsub Hcl] Hn [Hno Hd]. split.
  - apply NoDup_app. split; [done|]. split; [|apply NoDup_singleton].
    by intros x Hx ->%list_elem_of_singleton.
  - intros x [Hx|Hx]%elem_of_app; [by apply Hsub|]. apply list_elem_of_singleton in Hx. by subst.
  - intros i x Hi. apply lookup_app_Some in Hi as [Hi|[Hlen Hi]].
    + rewrite take_app_le by (apply lookup_lt_Some in Hi; lia). by apply Hcl.
    + destruct (i - length out)%nat eqn:Hil; [|done]. injection Hi as <-.
      replace i with (length out) by lia. by rewrite take_app_length.
Qed.

Lemma placed_length m out : placed m out -> (length out <= size m)%nat.
Proof.
  intros [Hnd Hsub _]. rewrite <- length_names. apply submseteq_length, NoDup_submseteq; [done|]. apply Hsub.
Qed.

(** A placed service has no missing dependency. *)
Lemma placed_done m out x : placed m out -> x ∈ out -> missing m out x = 0%nat.
Proof.
  intros [_ _ Hcl] [i Hi]%list_elem_of_lookup. apply missing_zero.
  eapply Forall_impl; [by apply Hcl|]. intros d Hd. simpl in *. by eapply elem_of_take in Hd as (? & ?%list_elem_of_lookup_2 & _).
Qed.

Lemma not_ready_missing m out x : x ∉ out -> ~ ready m out x -> (0 < missing m out x)%nat.
Proof.
  intros Hx Hr. destruct (missing m out x) eqn:Hm; [|lia]. exfalso. apply Hr. split; [done|]. by apply missing_zero.
Qed.

Lemma kahn_step m dependents indeg queue out n rest :
  kahn_inv m dependents indeg queue out -> Permutation queue (n :: rest) ->
  let r := foldl release (indeg, rest) (default [] (dependents !! n)) in
  kahn_inv m dependents r.1 r.2 (out ++ [n]).
Proof.
  intros [Hpl Hdep Hin Hnd Hq] Hperm.
  assert (n ∈ names_of_model m /\ ready m out n) as [Hnn Hrn] by (apply Hq; rewrite Hperm; by left).
  rewrite Hperm in Hnd. apply NoDup_cons in Hnd as [Hnr Hnd].
  assert (forall x, x ∈ rest <-> x <> n /\ x ∈ names_of_model m /\ ready m out x) as Hrest.
  { intros x. rewrite <- Hq, Hperm, elem_of_cons. naive_solver. }
  set (L := default [] (dependents !! n)).
  assert (forall x, x ∈ L <-> x ∈ names_of_model m /\ (0 < occ n (deps_of m x))%nat) as HL.
  { intros x. rewrite <- occ_pos. unfold L. rewrite Hdep. case_decide; intuition lia. }
  assert (forall x, x ∈ names_of_model m -> occ x L = occ n (deps_of m x)) as HoL.
  { intros x Hx. unfold L. by rewrite Hdep, decide_True. }
  destruct (release_all L indeg rest) as (R1 & new & R2 & Hndn & Hnew).
  { intros x [Hx Ho]%HL. exists (Z.of_nat (missing m out x)). split; [by apply Hin|].
    rewrite HoL, (missing_snoc m out n x) by (done || apply Hrn). lia. }
  destruct (foldl release (indeg, rest) L) as [g q]. cbn [fst snd] in *. subst q.
  assert (forall x, x ∈ names_of_model m -> g !! x = Some (Z.of_nat (missing m (out ++ [n]) x))) as Hg.
  { intros x Hx. rewrite R1, Hin, HoL by done. simpl. f_equal.
    rewrite (missing_snoc m out n x) by apply Hrn. lia. }
  assert (missing m out n = 0%nat) as Hmn by apply missing_zero, Hrn.
  assert (forall x, x ∈ new <-> x ∈ names_of_model m /\ (0 < missing m out x)%nat
                              /\ missing m (out ++ [n]) x = 0%nat) as Hnew'.
  { intros x. rewrite Hnew, HL. rewrite (missing_snoc m out n x) by apply Hrn.
    split; [intros [[Hx Ho] H0]|intros (Hx & Ho & H0)]; rewrite Hg in * by done; simplify_eq; intuition (lia || f_equal; lia). }
  split; [by apply placed_snoc|done|done| |].
  - apply NoDup_app. split; [done|]. split; [|done]. intros x Hx (_ & Hm & _)%Hnew'.
    apply Hrest in Hx as (_ & _ & _ & H0%missing_zero). lia.
  - intros x. rewrite elem_of_app, Hrest, Hnew'. unfold ready at 2. rewrite <- missing_zero, not_elem_of_app, list_elem_of_singleton.
    pose proof (missing_snoc m out n x (proj1 Hrn)) as Hms. split.
    + intros [(Hne & Hx & Ho & H0%missing_zero)|(Hx & Hm & H0)].
      * split; [done|]. split; [done|]. lia.
      * split; [done|]. split; [|done]. split; [|intros ->; lia].
        intros Ho%(placed_done m); [lia|done].
    + intros (Hx & [Ho Hne] & H0). destruct (decide (ready m out x)) as [Hr|Hr]; [by left|right].
      split; [done|]. split; [by apply not_ready_missing|done].
Qed.

(** The least ready name is the first one in alphabetical order. *)
Lemma filter_sorted_head (P : string -> Prop) `{forall x, Decision (P x)} l n rest :
  StronglySorted str_le l -> filter P l = n :: rest -> forall y, y ∈ filter P l -> str_le n y.
Proof.
  induction 1 as [|x l Hs IH Hx]; [done|]. rewrite filter_cons. case_decide; [|done].
  intros [= -> <-] y [->|Hy]%elem_of_cons; [apply str_le_refl|].
  apply list_elem_of_filter in Hy as [_ Hy]. rewrite Forall_forall in Hx. by apply Hx.
Qed.

Lemma ready_head m out n rest :
  filter (ready m out) (names_of_model m) = n :: rest ->
  n ∈ names_of_model m /\ ready m out n /\ forall y, y ∈ names_of_model m -> ready m out y -> str_le n y.
Proof.
  intros Hf. assert (n ∈ filter (ready m out) (names_of_model m)) as Hn by (rewrite Hf; by left).
  apply list_elem_of_filter in Hn as [Hr Hn]. split; [done|]. split; [done|]. intros y Hy Hry.
  eapply filter_sorted_head; [apply sort_strings_sorted|done|by apply list_elem_of_filter].
Qed.

Lemma ready_nil m out :
  filter (ready m out) (names_of_model m) = [] -> forall y, y ∈ names_of_model m -> ~ ready m out y.
Proof.
  intros Hf y Hy Hr. assert (y ∈ filter (ready m out) (names_of_model m)) as H by by apply list_elem_of_filter.
  rewrite Hf in H. by apply elem_of_nil in H.
Qed.

Lemma kahn_greedy m fuel dependents indeg queue out :
  kahn_inv m dependents indeg queue out -> (size m <= fuel + length out)%nat ->
  kahn fuel dependents indeg queue out = Some (greedy fuel m out).
Proof.
  revert indeg queue out. induction fuel as [|fuel IH]; intros indeg queue out Hinv Hf; cbn [kahn greedy].
  - destruct (pop_min queue) as [[n rest]|] eqn:Hp; [|done]. exfalso.
    apply pop_min_some in Hp as [Hp _]. pose proof (kahn_step _ _ _ _ _ _ _ Hinv Hp) as Hinv'.
    apply ki_placed, placed_length in Hinv'. rewrite length_app in Hinv'. simpl in *. lia.
  - destruct (pop_min queue) as [[n rest]|] eqn:Hp.
    + apply pop_min_some in Hp as [Hp Hmin]. pose proof (kahn_step _ _ _ _ _ _ _ Hinv Hp) as Hinv'.
      assert (n ∈ names_of_model m /\ ready m out n) as [Hnn Hrn] by (apply (ki_queue _ _ _ _ _ Hinv); rewrite Hp; by left).
      destruct (filter (ready m out) (names_of_model m)) as [|n' l] eqn:Hfl; [by eapply ready_nil in Hfl|].
      apply ready_head in Hfl as (Hn' & Hr' & Hle).
      assert (n = n') as <-.
      { apply (anti_symm str_le); [apply Hmin, (ki_queue _ _ _ _ _ Hinv); done|by apply Hle]. }
      destruct (foldl release (indeg, rest) _) as [g q]. apply IH; [done|]. rewrite length_app. simpl. lia.
    + apply pop_min_nil in Hp. subst queue.
      destruct (filter (ready m out) (names_of_model m)) as [|n' l] eqn:Hfl; [done|].
      apply ready_head in Hfl as (Hn' & Hr' & _).
      assert (n' ∈ []) as []%elem_of_nil by by apply (ki_queue _ _ _ _ _ Hinv).
Qed.

Lemma kahn_init m :
  let r := foldl (add_service m) (∅, ∅) (names_of_model m) in
  kahn_inv m r.2 r.1 (filter (fun n => r.1 !! n = Some 0) (names_of_model m)) [].
Proof.
  destruct (add_services m (names_of_model m) ∅ ∅ (names_NoDup m)) as [A1 A2].
  destruct (foldl _ _ _) as [g d]. cbn [fst snd] in *.
  assert (forall x, missing m [] x = length (deps_of m x)) as Hm.
  { intros x. unfold missing. rewrite filter_all; [done|]. apply Forall_true. intros y. apply not_elem_of_nil. }
  assert (forall x, x ∈ names_of_model m -> g !! x = Some (Z.of_nat (missing m [] x))) as Hg.
  { intros x Hx. rewrite A1, decide_True, lookup_empty, Hm by done. simpl. f_equal. lia. }
  split; [|..].
  - split; [constructor|by intros x ?%elem_of_nil|done].
  - intros e x. rewrite A2, lookup_empty. done.
  - done.
  - apply NoDup_filter, names_NoDup.
  - intros x. rewrite list_elem_of_filter. unfold ready. rewrite <- missing_zero. split.
    + intros [H0 Hx]. rewrite Hg in H0 by done. simplify_eq. split; [done|]. split; [apply not_elem_of_nil|lia].
    + intros (Hx & _ & H0). rewrite Hg, H0 by done. done.
Qed.

Lemma names_sorted_range range m : range_ok range -> ServiceNamesSorted range m = names_of_model m.
Proof. intros Hr. apply sort_strings_proper. by rewrite (Hr _ m). Qed.

Lemma topoSort_ref range m : range_ok range ->
  topoSort range m
  = Some (if bool_decide (length (order_ref m) <> size m)
          then Err "depends_on contains a cycle; services cannot be ordered." else Ok (order_ref m)).
Proof.
  intros Hr. unfold topoSort, graph. rewrite !names_sorted_range by done.
  pose proof (kahn_init m) as Hinv. destruct (foldl _ _ _) as [g d]. cbn [fst snd] in Hinv.
  erewrite kahn_greedy; [|done|unfold topo_fuel; simpl; lia].
  simpl. by rewrite length_names.
Qed.

(** ** The specification's order *)

(** Placed so far, each one the least that was ready. *)
Definition least_first (m : Model) (out : list string) : Prop :=
  forall i n, out !! i = Some n ->
    forall y, y ∈ names_of_model m -> ready m (take i out) y -> str_le n y.

Lemma greedy_spec m fuel out : placed m out -> least_first m out -> (size m <= fuel + length out)%nat ->
  let r := greedy fuel m out in
  placed m r /\ least_first m r /\ filter (ready m r) (names_of_model m) = [].
Proof.
  revert out. induction fuel as [|fuel IH]; intros out Hp Hl Hf; cbn [greedy].
  - split; [done|]. split; [done|]. destruct (filter _ _) as [|n l] eqn:Hfl; [done|]. exfalso.
    apply ready_head in Hfl as (Hn & Hr & _). pose proof (placed_length _ _ (placed_snoc _ _ _ Hp Hn Hr)) as Hlen.
    rewrite length_app in Hlen. simpl in *. lia.
  - destruct (filter _ _) as [|n l] eqn:Hfl; [by rewrite Hfl|].
    apply ready_head in Hfl as (Hn & Hr & Hle). apply IH.
    + by apply placed_snoc.
    + intros i x Hi. apply lookup_app_Some in Hi as [Hi|[Hlen Hi]].
      * rewrite take_app_le by (apply lookup_lt_Some in Hi; lia). by apply Hl.
      * destruct (i - length out)%nat eqn:Hil; [|done]. injection Hi as <-.
        replace i with (length out) by lia. by rewrite take_app_length.
    + rewrite length_app. simpl. lia.
Qed.

Lemma order_ref_spec m :
  placed m (order_ref m) /\ least_first m (order_ref m)
  /\ filter (ready m (order_ref m)) (names_of_model m) = [].
Proof.
  apply greedy_spec; [|done|simpl; lia]. split; [constructor|by intros x ?%elem_of_nil|done].
Qed.

Lemma placed_valid m out : placed m out -> length out = size m -> valid_order m out.
Proof.
  intros [Hnd Hsub Hcl] Hlen. split; [|done]. rewrite <- length_names in Hlen.
  apply submseteq_length_Permutation; [|lia]. apply NoDup_submseteq; [done|]. apply Hsub.
Qed.

(** What a valid order still has to place starts with a ready service. *)
Lemma valid_next m out o : valid_order m o -> (forall x, x ∈ o -> x ∈ out) \/ exists y, y ∈ names_of_model m /\ ready m out y.
Proof.
  intros [Hperm Hdep].
  destruct (list_find (.∉ out) o) as [[i y]|] eqn:E.
  - right. exists y. apply list_find_Some in E as (Hi & Hy & Hfirst).
    split; [rewrite <- Hperm; by eapply list_elem_of_lookup_2|]. split; [done|].
    eapply Forall_impl; [by apply Hdep|]. intros d (j & Hj & Hlt)%elem_of_take.
    destruct (decide (d ∈ out)) as [|Hn]; [done|]. exfalso. by apply (Hfirst j d).
  - left. apply list_find_None in E. rewrite Forall_forall in E. intros x Hx.
    destruct (decide (x ∈ out)) as [|Hn]; [done|]. by destruct (E x Hx).
Qed.

Lemma valid_complete m o : valid_order m o -> length (order_ref m) = size m.
Proof.
  intros Ho. destruct (order_ref_spec m) as (Hp & _ & Hnil).
  destruct (valid_next m (order_ref m) o Ho) as [Hall|(y & Hy & Hr)]; [|by destruct (ready_nil _ _ Hnil y Hy)].
  apply Nat.le_antisymm; [by apply placed_length|]. destruct Ho as [Hperm _].
  rewrite <- length_names. apply submseteq_length, NoDup_submseteq; [apply names_NoDup|].
  intros x Hx. apply Hall. by rewrite Hperm.
Qed.

(** Least first is least in lexicographic order. *)
Lemma least_first_lex m o o' :
  Permutation o (names_of_model m) -> least_first m o -> valid_order m o' -> lex_le o o'.
Proof.
  intros Hp Hl [Hp' Hd'].
  assert (forall k, take k o = take k o' -> (k <= length o)%nat -> lex_le o o') as Hk; [|by apply (Hk 0%nat); [|lia]].
  assert (length o = length o') as Hlen by (by rewrite Hp, Hp').
  intros k. remember (length o - k)%nat as d eqn:Hd. revert k Hd.
  induction d as [|d IH]; intros k Hd Heq Hk.
  - left. rewrite <- (take_ge o k), <- (take_ge o' k) by lia. done.
  - destruct (lookup_lt_is_Some_2 o k) as [a Ha]; [lia|]. destruct (lookup_lt_is_Some_2 o' k) as [b Hb]; [lia|].
    destruct (decide (a = b)) as [->|Hne].
    + apply (IH (S k)); [lia| |lia]. by rewrite (take_S_r _ _ b), (take_S_r _ _ b), Heq.
    + right. exists (take k o), a, b, (drop (S k) o), (drop (S k) o').
      split; [by rewrite take_drop_middle|]. split; [by rewrite Heq, take_drop_middle|]. split; [done|].
      apply (Hl k a Ha); [rewrite <- Hp'; by eapply list_elem_of_lookup_2|]. rewrite Heq. split; [|by apply Hd'].
      intros (j & Hj & Hlt)%elem_of_take. assert (j = k) as ->; [|lia].
      eapply NoDup_lookup; [|done|done]. rewrite Hp'. apply names_NoDup.
Qed.

Lemma topo_spec range m : range_ok range ->
  exists r, topoSort range m = Some r /\
  match r with
  | Ok o => valid_order m o /\ forall o', valid_order m o' -> lex_le o o'
  | Err e => e = "depends_on contains a cycle; services cannot be ordered." /\ forall o', ~ valid_order m o'
  end.
Proof.
  intros Hr. rewrite topoSort_ref by done. eexists. split; [done|].
  destruct (order_ref_spec m) as (Hp & Hl & _). case_bool_decide as Hlen.
  - split; [done|]. intros o' Ho. by apply Hlen, (valid_complete m o').
  - assert (length (order_ref m) = size m) as Hlen' by lia. pose proof (placed_valid _ _ Hp Hlen') as Hv.
    split; [done|]. intros o' Ho. apply (least_first_lex m); [apply Hv|done|done].
Qed.

(** ** The plan *)

Definition port_ok (p : PortMap) : Prop :=
  (1 <= pm_Container p <= 65535) /\ (0 <= pm_Host p <= 65535) /\ pm_Proto p ∈ ["tcp"; "udp"; "sctp"].

Lemma parsePortNum_range s n : parsePortNum s = Some n -> 1 <= n <= 65535.
Proof.
  unfold parsePortNum. destruct (atoi _) as [k|]; simpl; [|done]. destruct (_ || _) eqn:E; [done|].
  intros [= <-]. to_prop. lia.
Qed.

Lemma parsePort_ok svc raw l : parsePort svc raw = Ok l -> Forall port_ok l.
Proof.
  unfold parsePort. case_bool_decide; [by intros [= <-]|].
  destruct (match cut_last _ _ with Some _ => _ | None => _ end) as [[proto s]|e] eqn:Hp; cbn; [|done].
  assert (proto ∈ ["tcp"; "udp"; "sctp"]) as Hproto.
  { destruct (cut_last _ _) as [[a p]|]; [case_bool_decide as Hin; [|done]|]; injection Hp as <- <-; [done|by left]. }
  destruct (match split_on _ _ with [] => _ | _ :: _ => _ end) as [[h c]|e]; cbn; [|done].
  destruct (_ || _); [done|].
  destruct (parsePortNum c) as [cont|] eqn:Hc; [apply parsePortNum_range in Hc|done].
  case_bool_decide; [|destruct (parsePortNum h) as [host|] eqn:Hh; [apply parsePortNum_range in Hh|done]];
    intros [= <-]; (apply Forall_singleton; split; [done|]; split; [cbn; lia|done]).
Qed.

Lemma parsePorts_ok svc specs l : parsePorts svc specs = Ok l -> Forall port_ok l.
Proof.
  unfold parsePorts. destruct (first_err _ _) as [ls|] eqn:E; cbn; [|done]. intros [= <-].
  apply first_err_ok in E. induction E; cbn; [done|]. apply Forall_app. split; [by eapply parsePort_ok|done].
Qed.

(** What a spec says of its service. *)
Record spec_for (project n : string) (svc : Service) (s : DeploySpec) : Prop := {
  sf_image : ds_Image s = sv_Image svc;
  sf_name : ds_Name s = if bool_decide (sv_ContainerName svc = "") then project +:+ "-" +:+ n else sv_ContainerName svc;
  sf_env : ds_Env s = envMap (sv_Environment svc);
  sf_ports : parsePorts n (sv_Ports svc) = Ok (ds_Ports s) /\ Forall port_ok (ds_Ports s);
  sf_vols : parseVolumes n (sv_Volumes svc) = Ok (ds_Volumes s);
  sf_labels : ds_Labels s !! LabelProject = Some project /\ ds_Labels s !! LabelService = Some n
              /\ ds_Labels s !! LabelCastorStack = Some project;
  sf_mounts : ds_AllowHostMounts s = false }.

Lemma spec_of_ok project n svc s : spec_of project n svc = Ok s -> spec_for project n svc s.
Proof.
  unfold spec_of. destruct (parsePorts _ _) as [ports|] eqn:Hp; cbn -[parseVolumes]; [|done].
  destruct (parseVolumes _ _) as [vols|] eqn:Hv; cbn; [|done]. intros [= <-].
  split; cbn; try done. split; [done|by eapply parsePorts_ok].
Qed.

Lemma spec_of_err project n svc e : spec_of project n svc = Err e ->
  parsePorts n (sv_Ports svc) = Err e \/ parseVolumes n (sv_Volumes svc) = Err e.
Proof.
  unfold spec_of. destruct (parsePorts _ _) as [ports|] eqn:Hp; cbn -[parseVolumes]; [|intros [= ->]; by left].
  destruct (parseVolumes _ _) as [vols|] eqn:Hv; cbn; [done|intros [= ->]; by right].
Qed.

Definition svc_of (m : Model) (n : string) : Service := default zero_service (m !! n).
Definition nets_of (m : Model) (project n : string) : list string :=
  (fun x => project +:+ "_" +:+ SanitizeNetworkSuffix x) <$> sv_Networks (svc_of m n).
Definition alias_of (n : string) (s : DeploySpec) : list string :=
  if bool_decide (ds_Name s = n) then [n] else [n; ds_Name s].

Record plan_inv (m : Model) (project : string) (o : list string) (specs : list DeploySpec)
    (al ex : gmap string (list string)) (nets : gmap string unit) : Prop := {
  pi_specs : Forall2 (fun n s => spec_of project n (svc_of m n) = Ok s) o specs;
  pi_fresh : forall cn, cn ∉ ds_Name <$> specs -> ex !! cn = None;
  pi_names : NoDup (ds_Name <$> specs) -> forall i n s, o !! i = Some n -> specs !! i = Some s ->
    al !! ds_Name s = Some (alias_of n s) /\ default [] (ex !! ds_Name s) = nets_of m project n;
  pi_nets : forall x, is_Some (nets !! x) <-> exists n, n ∈ o /\ x ∈ nets_of m project n }.

Lemma lookup_nets (l : list string) (s : gmap string unit) x :
  is_Some (foldl (fun s n => <[n := tt]> s) s l !! x) <-> is_Some (s !! x) \/ x ∈ l.
Proof.
  revert s. induction l as [|y l IH]; intros s; simpl.
  - split; [by left|]. by intros [|[]%elem_of_nil].
  - rewrite IH, lookup_insert_is_Some, elem_of_cons. destruct (decide (x = y)); intuition.
Qed.

Lemma plan_step m project o specs al ex nets n specs' al' ex' nets' :
  plan_inv m project o specs al ex nets ->
  plan_service m project (Ok (specs, al, ex, nets)) n = Ok (specs', al', ex', nets') ->
  plan_inv m project (o ++ [n]) specs' al' ex' nets'.
Proof.
  intros [Hs Hf Hn Hx]. unfold plan_service. cbn -[spec_of]. fold (svc_of m n).
  destruct (spec_of _ _ _) as [spec|] eqn:Hspec; cbn -[spec_of]; [|done]. fold (nets_of m project n).
  intros [= <- <- <- <-]. pose proof (Forall2_length _ _ _ Hs) as Hlen. split.
  - apply Forall2_app; [done|]. by constructor.
  - intros cn. rewrite fmap_app, not_elem_of_app. intros [H1 H2]. specialize (Hf cn H1).
    destruct (nets_of m project n); [done|]. rewrite lookup_insert_ne; [done|]. intros <-. apply H2. by left.
  - rewrite fmap_app, NoDup_app. intros (Hnd & Hdis & _) i n' s' Hi Hs'.
    assert (ds_Name spec ∉ ds_Name <$> specs) as Hfresh by (intros Hin; apply (Hdis _ Hin); by left).
    apply lookup_app_Some in Hi as [Hi|[Hil Hi]].
    + rewrite lookup_app_l in Hs' by (rewrite <- Hlen; by eapply lookup_lt_Some).
      assert (ds_Name spec <> ds_Name s') as Hne.
      { intros Heq. apply Hfresh. rewrite Heq. clear Heq. apply list_elem_of_fmap_2. by eapply list_elem_of_lookup_2. }
      rewrite lookup_insert_ne by done. destruct (Hn Hnd _ _ _ Hi Hs') as [-> <-]. split; [done|].
      destruct (nets_of m project n); [done|]. by rewrite lookup_insert_ne.
    + rewrite lookup_app_r in Hs' by lia. rewrite <- Hlen in Hs'.
      destruct (i - length o)%nat; [|done]. injection Hi as <-. injection Hs' as <-.
      rewrite lookup_insert_eq. split; [done|].
      destruct (nets_of m project n) eqn:E; [by rewrite (Hf _ Hfresh)|].
      by rewrite lookup_insert_eq, (Hf _ Hfresh).
  - intros x. rewrite lookup_nets, Hx. split.
    + intros [(n' & Hn' & Hin)|Hin]; [exists n'|exists n]; (split; [apply elem_of_app|done]); [by left|right; by left].
    + intros (n' & [Hn'| ->%list_elem_of_singleton]%elem_of_app & Hin); [left; by exists n'|by right].
Qed.

Lemma plan_fold_err m project o e : foldl (plan_service m project) (Err e) o = Err e.
Proof. induction o as [|n o IH]; [done|]. simpl. apply IH. Qed.

Lemma plan_fold m project o :
  match foldl (plan_service m project) (Ok ([], ∅, ∅, ∅)) o with
  | Ok (specs, al, ex, nets) => plan_inv m project o specs al ex nets
  | Err e => exists n, n ∈ o /\ spec_of project n (svc_of m n) = Err e
  end.
Proof.
  induction o as [|n o IH] using rev_ind.
  - simpl. split; [constructor|done|done|]. intros x. rewrite lookup_empty. split.
    + by intros [? ?].
    + intros (n & Hn & _). by apply elem_of_nil in Hn.
  - rewrite foldl_snoc. destruct (foldl _ _ o) as [[[[specs al] ex] nets]|e].
    + destruct (plan_service _ _ _ n) as [[[[specs' al'] ex'] nets']|e] eqn:E; [by eapply plan_step|].
      exists n. split; [apply elem_of_app; right; by left|].
      revert E. unfold plan_service. cbn -[spec_of]. fold (svc_of m n). destruct (spec_of _ _ _); cbn; congruence.
    + destruct IH as (n' & Hn' & He). simpl. exists n'. split; [apply elem_of_app; by left|done].
Qed.

Lemma range_names (range : forall A, gmap string A -> list (string * A)) (nets : gmap string unit) : range_ok range ->
  NoDup (range _ nets).*1 /\ forall x, x ∈ (range _ nets).*1 <-> is_Some (nets !! x).
Proof.
  intros Hr. assert ((range _ nets).*1 ≡ₚ (map_to_list nets).*1) as Hp by (apply fmap_Permutation, Hr).
  split; [rewrite Hp; apply NoDup_fst_map_to_list|]. intros x. rewrite Hp. split.
  - intros ([k v] & -> & Hin)%list_elem_of_fmap. apply elem_of_map_to_list in Hin. by exists v.
  - intros [v Hv]. apply list_elem_of_fmap. exists (x, v). split; [done|by apply elem_of_map_to_list].
Qed.

Lemma plan_spec range raw m : range_ok range ->
  let project := SanitizeProjectName raw in
  exists r, BuildPlan range raw m = Some r /\
  match r with
  | Ok p =>
      pl_Project p = project /\ project <> "" /\
      exists o, (valid_order m o /\ forall o', valid_order m o' -> lex_le o o')
        /\ Forall2 (fun n s => spec_for project n (svc_of m n) s) o (pl_Specs p)
        /\ (NoDup (ds_Name <$> pl_Specs p) -> forall i n s, o !! i = Some n -> pl_Specs p !! i = Some s ->
             pl_Aliases p !! ds_Name s = Some (alias_of n s)
             /\ default [] (pl_ExtraNetworks p !! ds_Name s) = nets_of m project n)
        /\ NoDup (pl_Networks p)
        /\ forall x, x ∈ pl_Networks p <-> exists n, n ∈ o /\ x ∈ nets_of m project n
  | Err e =>
      project = "" \/ (forall o, ~ valid_order m o)
      \/ exists n, is_Some (m !! n) /\ (parsePorts n (sv_Ports (svc_of m n)) = Err e
                                        \/ parseVolumes n (sv_Volumes (svc_of m n)) = Err e)
  end.
Proof.
  intros Hr project. unfold BuildPlan. fold project. case_bool_decide as Hp; [eexists; split; [done|by left]|].
  destruct (topo_spec range m Hr) as (r & -> & Hr'). simpl. destruct r as [o|e]; simpl; [|eexists; split; [done|]; right; left; apply Hr'].
  pose proof (plan_fold m project o) as Hf. destruct (foldl _ _ o) as [[[[specs al] ex] nets]|e]; eexists; (split; [done|]); simpl.
  - destruct Hf as [Hs _ Hn Hx]. destruct (range_names range nets Hr) as [Hnd Hin].
    split; [done|]. split; [done|]. exists o. split; [done|]. split; [|split; [done|]; split; [done|]].
    + eapply Forall2_impl; [done|]. intros n s. apply spec_of_ok.
    + intros x. by rewrite Hin.
  - right. right. destruct Hf as (n & Hn & He). exists n. split; [|by eapply spec_of_err].
    apply elem_of_names. destruct Hr' as [[Hperm _] _]. by rewrite <- Hperm.
Qed.

(** One iteration order, for the examples. *)
Definition demo_range : forall A, gmap string A -> list (string * A) := fun A m => reverse (map_to_list m).
Lemma demo_range_ok : range_ok demo_range.
Proof. intros A m. apply reverse_Permutation. Qed.

(** ** What the parser accepts *)

Lemma list_to_map_pairs {A B} (f : string -> A -> result string B) (l : list (string * A)) out :
  NoDup l.*1 -> first_err (fun kv => x ← f kv.1 kv.2; Ok (kv.1, x)) l = Ok out ->
  forall n x, (list_to_map out : gmap string B) !! n = Some x <-> exists y, (n, y) ∈ l /\ f n y = Ok x.
Proof.
  intros Hnd Hl n x. apply first_err_ok in Hl.
  assert (out.*1 = l.*1) as Hk.
  { clear Hnd. induction Hl as [|[k y] [k' z] l out Hf Hl IH]; [done|]. simpl in *. destruct (f k y); [|done].
    injection Hf as -> _. cbn. f_equal. exact IH. }
  assert (NoDup out.*1) as Hnd' by exact (eq_ind_r (fun k => NoDup k) Hnd Hk).
  rewrite <- (elem_of_list_to_map (M := gmap string) out n x Hnd'). split.
  - intros [i Hi]%list_elem_of_lookup. destruct (Forall2_lookup_r _ _ _ _ _ Hl Hi) as ([k y] & Hy & Hf). simpl in Hf.
    destruct (f k y) as [z|] eqn:E; [|done]. simpl in Hf. injection Hf as -> ->. exists y. split; [by eapply list_elem_of_lookup_2|done].
  - intros (y & [i Hi]%list_elem_of_lookup & Hf). destruct (Forall2_lookup_l _ _ _ _ _ Hl Hi) as ([k z] & Hz & Hk').
    simpl in Hk'. rewrite Hf in Hk'. simpl in Hk'. injection Hk' as <- <-. by eapply list_elem_of_lookup_2.
Qed.

(** A well-formed document: what BuildPlan and the deployment rely on. *)
Record service_wf (m : Model) (n : string) (svc : Service) : Prop := {
  sw_name : validServiceName n = true;
  sw_image : sv_Image svc <> "";
  sw_container : sv_ContainerName svc = "" \/ validContainerName (sv_ContainerName svc) = true;
  sw_deps : forall d, d ∈ sv_DependsOn svc -> is_Some (m !! d) /\ d <> n }.

Lemma validate_service_ok m n svc u : validate_service m n svc = Ok u ->
  sv_Image svc <> "" /\ (sv_ContainerName svc = "" \/ validContainerName (sv_ContainerName svc) = true)
  /\ forall d, d ∈ sv_DependsOn svc -> is_Some (m !! d) /\ d <> n.
Proof.
  unfold validate_service. case_bool_decide as Hi; [done|]. destruct (_ && _) eqn:Hc; [done|].
  destruct (first_err _ _) as [ys|] eqn:E; [|done]. intros _. split; [done|]. split.
  - case_bool_decide; [by left|]. right. simpl in Hc. by apply negb_false_iff in Hc.
  - intros d [i Hd]%list_elem_of_lookup. apply first_err_ok in E.
    destruct (Forall2_lookup_l _ _ _ _ _ E Hd) as (y & _ & Hy). simpl in Hy. repeat case_bool_decide; done.
Qed.

Lemma Parse_ok range yaml_decode node_decode src m : range_ok range ->
  Parse range yaml_decode node_decode src = Ok m -> m <> ∅ /\ forall n svc, m !! n = Some svc -> service_wf m n svc.
Proof.
  intros Hr. unfold Parse. case_bool_decide; [done|]. destruct (yaml_decode src) as [doc|]; [|done].
  case_bool_decide as Hdoc; [done|].
  destruct (first_err _ (range _ doc)) as [out|] eqn:E; cbn [mbind result_bind]; [|done].
  destruct (validate range _) as [u|] eqn:Hv; cbn [mbind result_bind]; [|done]. intros [= <-].
  set (f := fun n y => if negb (validServiceName n)
    then Err ("Invalid service name " +:+ quote n +:+ " (use letters, digits, '.', '_' or '-').")
    else decodeService node_decode n y).
  assert (first_err (fun kv => x ← f kv.1 kv.2; Ok (kv.1, x)) (range _ doc) = Ok out) as E'.
  { rewrite <- E. clear. induction (range _ doc) as [|kv l IH]; [done|]. cbn [first_err]. rewrite IH. unfold f.
    destruct (negb _); [done|]. destruct (decodeService _ _ _); done. }
  assert (NoDup (range _ doc).*1) as Hnd.
  { assert ((range _ doc).*1 ≡ₚ (map_to_list doc).*1) as Hp by (apply fmap_Permutation, Hr). rewrite Hp. apply NoDup_fst_map_to_list. }
  pose proof (list_to_map_pairs f _ _ Hnd E') as Hm. split.
  - intros He. destruct (map_choose doc Hdoc) as (n & y & Hy).
    assert ((n, y) ∈ range _ doc) as Hin by (rewrite (Hr _ doc); by apply elem_of_map_to_list).
    apply first_err_ok in E'. apply list_elem_of_lookup in Hin as [i Hi].
    destruct (Forall2_lookup_l _ _ _ _ _ E' Hi) as (z & Hz & _). apply list_elem_of_lookup_2 in Hz.
    destruct out as [|[k v] out]; [by apply elem_of_nil in Hz|]. simpl in He. by apply insert_non_empty in He.
  - intros n svc Hn. pose proof Hn as (y & Hy & Hf)%Hm. unfold f in Hf.
    destruct (validServiceName n) eqn:Hname; [|done].
    unfold validate in Hv. destruct (first_err _ (range _ _)) as [us|] eqn:Eu in Hv; [|done]. apply first_err_ok in Eu.
    assert ((n, svc) ∈ range _ (list_to_map out : Model)) as Hin by (rewrite (Hr _ _); by apply elem_of_map_to_list).
    apply list_elem_of_lookup in Hin as [i Hi]. destruct (Forall2_lookup_l _ _ _ _ _ Eu Hi) as (u' & _ & Hu).
    apply validate_service_ok in Hu as (H1 & H2 & H3). by split.
Qed.
