(* ===== verification/ComposeProps.v ===== *)
(** * Compose stacks: the properties of the parser and the planner *)
From S2P Require Import Prelude GoStd Compose ComposeFacts.

(** ** The order of deployment *)

(** C18 The order of deployment, whatever the iteration order of Go's maps: the
    sort always ends; it gives an order exactly when one exists, each service once
    and after everything it depends on, and then the alphabetically first of all
    such orders; with a dependency that cannot be met it reports the cycle. *)
Theorem topo_order range m : range_ok range ->
  exists r, topoSort range m = Some r /\
  match r with
  | Ok o => valid_order m o /\ forall o', valid_order m o' -> lex_le o o'
  | Err e => e = "depends_on contains a cycle; services cannot be ordered." /\ forall o', ~ valid_order m o'
  end.
Proof. apply topo_spec. Qed.

Definition demo_svc (deps : list string) : Service := mkService "img" "" ["8080:80"] [] ["data:/d"] [] "" [] deps.
Definition demo_model : Model := <["web" := demo_svc ["db"; "cache"]]> (<["db" := demo_svc []]> {["cache" := demo_svc ["db"]]}).

Lemma topo_order_witness : range_ok demo_range /\ topoSort demo_range demo_model = Some (Ok ["db"; "cache"; "web"]) /\
  exists r, topoSort demo_range demo_model = Some r /\
  match r with
  | Ok o => valid_order demo_model o /\ forall o', valid_order demo_model o' -> lex_le o o'
  | Err e => e = "depends_on contains a cycle; services cannot be ordered." /\ forall o', ~ valid_order demo_model o'
  end.
Proof. split; [apply demo_range_ok|]. split; [by vm_compute|]. apply (topo_order demo_range demo_model demo_range_ok). Defined.

(** ** The plan *)



(** ** The parser *)

(** C40 Whatever the YAML library hands over and in whatever order, a document the
    parser accepts is well-formed: it has a service, and every service has a valid
    name, an image, a valid container name if any, and dependencies that are other
    services of the document. *)
Theorem parse_wellformed range yaml_decode node_decode src m :
  range_ok range -> Parse range yaml_decode node_decode src = Ok m ->
  m <> ∅ /\ forall n svc, m !! n = Some svc -> service_wf m n svc.
Proof. apply Parse_ok. Qed.

Definition demo_decode (n : node) : result string rawService :=
  Ok (mkRaw (n_Value n) "" zero_node zero_node zero_node zero_node "" zero_node zero_node).
Lemma parse_wellformed_witness :
  exists m, Parse demo_range (fun _ => Ok {["db" := mkNode KMapping "!!map" "postgres:16" []]}) demo_decode "services:" = Ok m
            /\ m <> ∅ /\ forall n svc, m !! n = Some svc -> service_wf m n svc.
Proof.
  destruct (Parse demo_range (fun _ => Ok {["db" := mkNode KMapping "!!map" "postgres:16" []]}) demo_decode "services:")
    as [m|e] eqn:E; [|exfalso; vm_compute in E; discriminate].
  exists m. split; [done|]. exact (parse_wellformed demo_range _ demo_decode "services:" m demo_range_ok E).
Defined.
