(* ===== verification/Docker.v ===== *)
(** * The Docker provider: containers, images, networks, volumes

    server/internal/provider/docker: deploy.go, stack_net.go, the mutating
    methods of docker.go, map.go and resources.go, over an abstract daemon.  The
    daemon is a parameter that may do anything with its state and answer anything
    to each API call; every call is logged with its answer, so that a theorem can say what the
    program asked of it. *)
From S2P Require Import Prelude GoStd Compose.

(** ** The Docker Engine API *)

Inductive mount_type := TypeBind | TypeVolume.
#[export] Instance mount_type_eq_dec : EqDecision mount_type.
Proof. solve_decision. Defined.
Record Mount := mkMount { mt_Type : mount_type; mt_Source : string; mt_Target : string }.
Record Resources := mkRes { re_NanoCPUs : Z; re_Memory : Z; re_MemoryReservation : Z; re_CPUShares : Z }.

(** The configuration of a new container (Config, HostConfig and name). *)
Record ContainerConfig := mkCC {
  cc_Name : string; cc_Image : string; cc_Env : list string; cc_ExposedPorts : gmap string unit;
  cc_Labels : gmap string string; cc_PortBindings : gmap string (list string); cc_Mounts : list Mount;
  cc_RestartPolicy : string; cc_Resources : Resources }.

(** The entries of a container list that are used. *)
Record Summary := mkSum {
  sm_ID : string; sm_Names : list string; sm_Labels : gmap string string; sm_State : string; sm_Status : string;
  sm_Image : string; sm_Ports : list (Z * Z * string); sm_Created : Z }.

(** An error of the daemon: its class (cerrdefs) and its text. *)
Record derr := mkDerr { de_notFound : bool; de_conflict : bool; de_msg : string }.

Inductive call : Type -> Type :=
| ImageList (reference : string) : call nat
| ImagePull (ref : string) : call unit
| ContainerCreate (cfg : ContainerConfig) : call string
| ContainerStart (id : string) : call unit
| ContainerStop (id : string) (timeout : option Z) : call unit
| ContainerRestart (id : string) (timeout : option Z) : call unit
| ContainerRemove (id : string) (force volumes : bool) : call unit
| ContainerList (all : bool) (labels : list string) : call (list Summary)
| NetworkInspect (name : string) : call string
| NetworkCreate (name : string) (labels : gmap string string) : call string
| NetworkConnect (network container : string) (aliases : list string) : call unit
| NetworkRemove (id : string) : call unit
| VolumeInspect (name : string) : call string
| VolumeRemove (name : string) (force : bool) : call unit
| ImageRemove (id : string) (force : bool) : call unit.
(** A call that was made, with the answer it got. *)
Inductive anycall := Called (A : Type) (c : call A) (r : result derr A).
Arguments Called {A} c r.

(** ** Errors (provider/provider.go, docker.go) *)

Inductive perr := PNotFound | PConflict | PContainerRunning | PForbidden (msg : string) | POther.
#[export] Instance perr_eq_dec : EqDecision perr.
Proof. solve_decision. Defined.

Definition mentions (e : derr) (sub : string) : bool := contains (to_lower (de_msg e)) sub.

Definition mapNotFound (e : derr) : perr :=
  if de_notFound e || mentions e "no such container" then PNotFound else POther.

Definition mapRemoveErr (e : derr) : perr :=
  if de_notFound e || mentions e "no such container" then PNotFound
  else
    let running := mentions e "running container" || mentions e "force" && mentions e "remov" in
    if de_conflict e || running then if running then PContainerRunning else PConflict else POther.

Definition mapResourceErr (e : derr) : perr :=
  if de_notFound e || mentions e "no such" then PNotFound
  else if existsb (mentions e) ["conflict"; "in use"; "being used"; "active endpoints"; "dependent child"; "must be forced"]
       then PConflict else POther.

Definition host_mount_denied : string := "provider: operation forbidden by policy: host bind mounts are not permitted".
Definition mount_error (e : mount_denied) : perr :=
  PForbidden (match e with
              | ProtectedPath p => host_mount_denied +:+ " (" +:+ quote p
                                     +:+ " is a protected host path and can never be mounted)"
              | HostPathDenied p => host_mount_denied +:+ " (" +:+ quote p
                  +:+ " is a host path; only an administrator may mount host paths, and never as a one-click/compose deploy)"
              end).

(** ** deploy.go: from a spec to a configuration *)

Definition buildMounts (vols : list VolMount) : list Mount :=
  (fun v => mkMount (if isHostPath (vo_Source v) then TypeBind else TypeVolume) (vo_Source v) (vo_Target v))
  <$> filter (fun v => vo_Target v <> "") vols.

Definition buildResources (s : DeploySpec) : Resources :=
  mkRes (if f64_lt f64_zero (ds_CpuLimit s) then f64_to_int64 (f64_mul (ds_CpuLimit s) (f64_of_Z 1000000000)) else 0)
    (if 0 <? ds_MemoryLimitBytes s then ds_MemoryLimitBytes s else 0)
    (if 0 <? ds_MemoryReservationBytes s then ds_MemoryReservationBytes s else 0)
    (if f64_lt f64_zero (ds_CpuReservation s) then f64_to_int64 (f64_mul (ds_CpuReservation s) (f64_of_Z 1024)) else 0).

Definition restartPolicy (name : string) : string :=
  if bool_decide (name ∈ ["always"; "on-failure"; "unless-stopped"]) then name else "no".

Section Config.
(** [NewPort]: go-connections' nat.NewPort (protocol, number); [range]: the
    order in which a map is ranged over. *)
Context (NewPort : string -> string -> option string) (range : forall A, gmap string A -> list (string * A)).

Definition envSlice (env : gmap string string) : list string :=
  (fun kv => kv.1 +:+ "=" +:+ kv.2) <$> range _ env.

Definition add_port (acc : option (gmap string unit * gmap string (list string))) (pm : PortMap) :=
  '(exposed, bindings) ← acc;
  if pm_Container pm <=? 0 then Some (exposed, bindings)
  else
    let proto := if bool_decide (pm_Proto pm = "") then "tcp" else pm_Proto pm in
    port ← NewPort proto (itoa (pm_Container pm));
    let hostPort := if 0 <? pm_Host pm then itoa (pm_Host pm) else "" in
    Some (<[port := tt]> exposed, <[port := default [] (bindings !! port) ++ [hostPort]]> bindings).
Definition buildPortMaps (ports : list PortMap) : option (gmap string unit * gmap string (list string)) :=
  foldl add_port (Some (∅, ∅)) ports.
End Config.

(** ** map.go, resources.go *)

Definition castorProtectedLabel := "io.castor.protected".
Definition isProtected (selfContainerID id : string) (labels : gmap string string) : bool :=
  negb (bool_decide (selfContainerID = ""))
  && (bool_decide (id = selfContainerID)
      || bool_decide (12 <= String.length id)%nat && bool_decide (12 <= String.length selfContainerID)%nat
         && (has_prefix id selfContainerID || has_prefix selfContainerID id))
  || match labels !! castorProtectedLabel with Some v => equal_fold (trim_space v) "true" | None => false end.

Definition image_byte (c : ascii) : bool :=
  letter_or_digit c || existsb (Ascii.eqb c) ["."; "-"; "_"; "/"; ":"; "@"]%char.
Definition ValidImageRef (ref : string) : bool :=
  let ref := trim_space ref in
  negb (bool_decide (ref = "")) && bool_decide (String.length ref <= 255)%nat
  && negb (contains ref "://") && string_forall image_byte ref.

Record StackContainer := mkSC { sc_ID : string; sc_Name : string; sc_Service : string; sc_State : string }.

(** The first name, without its leading slash. *)
Definition first_name (names : list string) : string :=
  match names with
  | [] => ""
  | n :: _ => match n with String "/" n' => n' | _ => n end
  end.

Section Provider.
Context (NewPort : string -> string -> option string) (range : forall A, gmap string A -> list (string * A))
  {D : Type} (daemon : forall A, call A -> D -> result derr A * D).

(** ** The provider's methods: each one threads the daemon and the log of calls *)

Definition dstate : Type := D * list anycall.
Definition DM (E A : Type) : Type := dstate -> result E A * dstate.
#[export] Instance DM_ret {E} : MRet (DM E) := fun A a s => (Ok a, s).
#[export] Instance DM_bind {E} : MBind (DM E) := fun A B f m s =>
  match m s with (Ok a, s') => f a s' | (Err e, s') => (Err e, s') end.
Definition fail {E A} (e : E) : DM E A := fun s => (Err e, s).
(** One API call, whatever its outcome. *)
Definition try {E A} (c : call A) : DM E (result derr A) := fun s =>
  let '(r, d) := daemon A c s.1 in (Ok r, (d, s.2 ++ [Called c r])).
(** One API call whose error ends the method. *)
Definition perform {E A} (c : call A) (onErr : derr -> E) : DM E A :=
  r ← try c; match r with Ok a => mret a | Err e => fail (onErr e) end.

Definition ensureImage (ref : string) : DM perr unit :=
  imgs ← try (ImageList ref);
  match imgs with
  | Ok (S _) => mret tt
  | _ => perform (ImagePull ref) (fun _ => POther)
  end.

Definition ContainerCreateAndStart (spec : DeploySpec) : DM perr string :=
  if bool_decide (ds_Image spec = "") then fail POther
  else match ValidateMounts (ds_Volumes spec) (ds_AllowHostMounts spec) with
       | Err e => fail (mount_error e)
       | Ok _ =>
           _ ← ensureImage (ds_Image spec);
           match buildPortMaps NewPort (ds_Ports spec) with
           | None => fail POther
           | Some (exposed, bindings) =>
               id ← perform (ContainerCreate (mkCC (ds_Name spec) (ds_Image spec) (envSlice range (ds_Env spec)) exposed
                      (ds_Labels spec) bindings (buildMounts (ds_Volumes spec)) (restartPolicy (ds_RestartPolicy spec))
                      (buildResources spec))) mapResourceErr;
               started ← try (ContainerStart id);
               match started with
               | Ok _ => mret id
               | Err e => _ ← try (ContainerRemove id true false); fail (mapNotFound e)
               end
           end
       end.

(** ** stack_net.go *)

Definition EnsureProjectNetwork (name : string) (labels : gmap string string) : DM perr string :=
  if bool_decide (name = "") then fail POther
  else
    existing ← try (NetworkInspect name);
    match existing with
    | Ok id => mret id
    | Err _ =>
        resp ← try (NetworkCreate name labels);
        match resp with
        | Ok id => mret id
        | Err _ =>
            existing ← try (NetworkInspect name);
            match existing with Ok id => mret id | Err _ => fail POther end
        end
    end.

Definition ConnectToNetwork (networkID containerID : string) (aliases : list string) : DM perr unit :=
  perform (NetworkConnect networkID containerID aliases) (fun _ => POther).

Definition ListProjectContainers (project : string) : DM perr (list StackContainer) :=
  summaries ← perform (ContainerList true ["com.docker.compose.project=" +:+ project]) (fun _ => POther);
  mret ((fun s => mkSC (sm_ID s) (first_name (sm_Names s))
                    (default "" (sm_Labels s !! LabelService)) (sm_State s)) <$> summaries).

(** [mapNotFound(err) == nil] never holds of an error: a container that is gone
    is reported like any other failure. *)
Definition StopAndRemoveContainer (id : string) : DM perr unit :=
  _ ← try (ContainerStop id None);
  perform (ContainerRemove id true true) mapResourceErr.

Definition RemoveNetworkByName (name : string) : DM perr unit :=
  n ← try (NetworkInspect name);
  match n with
  | Err _ => mret tt
  | Ok id => perform (NetworkRemove id) mapResourceErr
  end.

(** ** docker.go, resources.go: single containers, images, networks, volumes *)

(** The optional timeout as whole seconds, [int(timeout.Seconds())]. *)
Definition timeout_secs (timeout : option duration) : option Z :=
  (fun t => f64_to_int64 (dur_seconds t)) <$> timeout.
Definition Start (id : string) : DM perr unit := perform (ContainerStart id) mapNotFound.
Definition Stop (id : string) (timeout : option duration) : DM perr unit :=
  perform (ContainerStop id (timeout_secs timeout)) mapNotFound.
Definition Restart (id : string) (timeout : option duration) : DM perr unit :=
  perform (ContainerRestart id (timeout_secs timeout)) mapNotFound.
Definition Remove (id : string) (force removeVolumes : bool) : DM perr unit :=
  perform (ContainerRemove id force removeVolumes) mapRemoveErr.
Definition DeleteImage (id : string) (force : bool) : DM perr unit := perform (ImageRemove id force) mapResourceErr.
Definition DeleteNetwork (id : string) : DM perr unit := perform (NetworkRemove id) mapResourceErr.
Definition DeleteVolume (name : string) (force : bool) : DM perr unit := perform (VolumeRemove name force) mapResourceErr.
Definition VolumeMountpoint {E} (name : string) : DM E string :=
  v ← try (VolumeInspect name); mret (match v with Ok m => m | Err _ => "" end).
End Provider.
Arguments DM D E A : clear implicits.
Arguments dstate D : clear implicits.
