(* ===== verification/Stacks.v ===== *)
(** * Deployment handlers: stacks, one-click templates, container actions

    server/internal/api/stacks.go, templates.go, workloads.go, volumes.go,
    images.go and networks.go with store/stacks.go and store/templates.go: the
    handlers, whole, over the provider of [Docker] and the guard of [Rbac].  A
    handler takes its decoded body; its reply is a status and a body. *)
From S2P Require Import Prelude GoStd AuthStore Rbac Redact Middleware Compose Docker.

(** ** The tables (store/stacks.go, store/templates.go) *)

Record Stack := mkStack {
  sk_ID : string; sk_Name : string; sk_ProjectName : string; sk_HostID : string; sk_ComposeYAML : string;
  sk_Status : string; sk_ServiceCount : Z; sk_CreatedBy : string; sk_CreatedAt : Z; sk_UpdatedAt : Z }.
Record templateEnv := mkTEnv { te_Key : string; te_Value : string; te_Required : bool }.
Record CustomTemplate := mkTpl {
  tp_ID : string; tp_Name : string; tp_Slug : string; tp_Category : string; tp_Image : string;
  tp_Description : string; tp_Ports : list Z; tp_Env : list templateEnv; tp_Volumes : list string;
  tp_LogoURL : string; tp_CreatedBy : string; tp_CreatedAt : Z }.

Definition find_row {A} (P : A -> Prop) `{forall x, Decision (P x)} (l : list A) : result store_err A :=
  match list_find P l with Some (_, x) => Ok x | None => Err ErrNotFound end.
Definition update_rows {A} (P : A -> Prop) `{forall x, Decision (P x)} (f : A -> A) (l : list A) : result store_err (list A) :=
  match filter P l with [] => Err ErrNotFound | _ => Ok ((fun x => if decide (P x) then f x else x) <$> l) end.
Definition delete_rows {A} (P : A -> Prop) `{forall x, Decision (P x)} (l : list A) : result store_err (list A) :=
  match filter P l with [] => Err ErrNotFound | _ => Ok (filter (fun x => ~ P x) l) end.

(** Rows are kept in insertion order. *)
Definition GetStack (id : string) := find_row (fun s => sk_ID s = id).
Definition GetStackByProject (project : string) := find_row (fun s => sk_ProjectName s = project).
Definition stack_le (a b : Stack) : Prop :=
  sk_CreatedAt b < sk_CreatedAt a \/ sk_CreatedAt a = sk_CreatedAt b /\ str_le (sk_Name a) (sk_Name b).
#[export] Instance stack_le_dec a b : Decision (stack_le a b).
Proof. unfold stack_le. apply _. Defined.
Definition StoreListStacks (hostID : string) (l : list Stack) : list Stack :=
  merge_sort stack_le (filter (fun s => sk_HostID s = hostID) l).
Definition stamp_stack (now : Z) (s : Stack) : Stack :=
  mkStack (sk_ID s) (sk_Name s) (sk_ProjectName s) (if bool_decide (sk_HostID s = "") then "local" else sk_HostID s)
    (sk_ComposeYAML s) (if bool_decide (sk_Status s = "") then "pending" else sk_Status s) (sk_ServiceCount s)
    (sk_CreatedBy s) now now.
(** The rows of registered_hosts: the one that is seeded, nothing adds another. *)
Definition registered_hosts : list string := ["local"].
(** A nullable column that refers to the table of users. *)
Definition user_fk (users : gmap string StoreUser) (id : string) : bool :=
  bool_decide (id = "") || bool_decide (is_Some (users !! id)).
Definition InsertStack (users : gmap string StoreUser) (s : Stack) (now : Z) (l : list Stack) : result store_err (list Stack) :=
  let row := stamp_stack now s in
  if bool_decide (sk_HostID row ∈ registered_hosts) && user_fk users (sk_CreatedBy row) then
    match filter (fun s' => sk_ID s' = sk_ID s \/ sk_ProjectName s' = sk_ProjectName s) l with
    | [] => Ok (l ++ [row])
    | _ => Err ErrConstraint
    end
  else Err ErrConstraint.
Definition UpdateStackStatus (id status : string) (now : Z) : list Stack -> result store_err (list Stack) :=
  update_rows (fun s => sk_ID s = id) (fun s =>
    mkStack (sk_ID s) (sk_Name s) (sk_ProjectName s) (sk_HostID s) (sk_ComposeYAML s) status (sk_ServiceCount s)
      (sk_CreatedBy s) (sk_CreatedAt s) now).
Definition StoreDeleteStack (id : string) := delete_rows (fun s => sk_ID s = id).

Definition GetCustomTemplate (id : string) := find_row (fun t => tp_ID t = id).
Definition tpl_le (a b : CustomTemplate) : Prop :=
  tp_CreatedAt b < tp_CreatedAt a \/ tp_CreatedAt a = tp_CreatedAt b /\ str_le (tp_Name a) (tp_Name b).
#[export] Instance tpl_le_dec a b : Decision (tpl_le a b).
Proof. unfold tpl_le. apply _. Defined.
Definition ListCustomTemplates (l : list CustomTemplate) : list CustomTemplate := merge_sort tpl_le l.
Definition stamp_tpl (created : Z) (by_ : string) (t : CustomTemplate) : CustomTemplate :=
  mkTpl (tp_ID t) (tp_Name t) (tp_Slug t) (if bool_decide (tp_Category t = "") then "Custom" else tp_Category t)
    (tp_Image t) (tp_Description t) (tp_Ports t) (tp_Env t) (tp_Volumes t) (tp_LogoURL t) by_ created.
Definition CreateCustomTemplate (users : gmap string StoreUser) (t : CustomTemplate) (now : Z) (l : list CustomTemplate) :=
  match filter (fun t' => tp_ID t' = tp_ID t \/ tp_Slug t' = tp_Slug t) l with
  | [] => if user_fk users (tp_CreatedBy t) then Ok (l ++ [stamp_tpl now (tp_CreatedBy t) t]) else Err ErrConstraint
  | _ => Err ErrConstraint
  end.
Definition UpdateCustomTemplate (t : CustomTemplate) (l : list CustomTemplate) : result store_err (list CustomTemplate) :=
  match filter (fun t' => tp_ID t' = tp_ID t) l, filter (fun t' => tp_ID t' <> tp_ID t /\ tp_Slug t' = tp_Slug t) l with
  | [], _ => Err ErrNotFound
  | _, [] => update_rows (fun t' => tp_ID t' = tp_ID t) (fun t' => stamp_tpl (tp_CreatedAt t') (tp_CreatedBy t') t) l
  | _, _ => Err ErrConstraint
  end.
Definition DeleteCustomTemplate (id : string) := delete_rows (fun t => tp_ID t = id).

(** ** Errors *)

Definition ErrMethodNotAllowed := mkErr 405 "method_not_allowed" "This operation is not supported by the target orchestrator.".
Definition ErrProtected := mkErr 409 "protected_resource" "This resource is protected and cannot be modified.".
Definition MsgContainerRunning : string :=
  "Container is running " +:+ bytes [226; 128; 148]%N +:+ " stop it first, or remove with force.".

Definition mapError (e : perr) : APIError :=
  match e with
  | PNotFound => ErrAPINotFound
  | PContainerRunning => Errorf ErrConflict MsgContainerRunning
  | PConflict => ErrConflict
  | PForbidden msg => Errorf ErrForbidden msg
  | POther => ErrInternal
  end.
Definition mapStackConflict (e : store_err) : APIError :=
  match e with
  | ErrConstraint => Errorf ErrConflict "A stack with that project name already exists."
  | e => MapStoreError e
  end.
Definition mapTemplateConflict (e : store_err) : APIError :=
  match e with
  | ErrConstraint => Errorf ErrConflict "A template with that slug already exists."
  | e => MapStoreError e
  end.

(** ** The builder's strings (stacks.go) *)

Record builderService := mkBuilder {
  bd_Name : string; bd_Image : string; bd_ContainerName : string; bd_Ports : list PortMap;
  bd_Env : list (string * string); bd_Volumes : list VolMount; bd_Networks : list string;
  bd_Restart : string; bd_Command : list string; bd_DependsOn : list string }.

Definition builderPortString (p : PortMap) : string :=
  let s := if 0 <? pm_Host p then itoa (pm_Host p) +:+ ":" +:+ itoa (pm_Container p) else itoa (pm_Container p) in
  let proto := to_lower (trim_space (pm_Proto p)) in
  if negb (bool_decide (proto = "")) && negb (bool_decide (proto = "tcp")) then s +:+ "/" +:+ proto else s.
Definition builderPortStrings (ports : list PortMap) : list string :=
  builderPortString <$> filter (fun p => 0 < pm_Container p) ports.
Definition builderEnvStrings (env : list (string * string)) : list string :=
  (fun e => trim_space e.1 +:+ "=" +:+ e.2) <$> filter (fun e => trim_space e.1 <> "") env.
Definition builderVolumeStrings (vols : list VolMount) : list string :=
  (fun v => let t := trim_space (vo_Target v) in let src := trim_space (vo_Source v) in
            if bool_decide (src = "") then t else src +:+ ":" +:+ t)
  <$> filter (fun v => trim_space (vo_Target v) <> "") vols.
Definition trimAll (l : list string) : list string := filter (fun s => s <> "") (trim_space <$> l).

Definition builder_service (b : builderService) : Service :=
  mkService (trim_space (bd_Image b)) (trim_space (bd_ContainerName b)) (builderPortStrings (bd_Ports b))
    (builderEnvStrings (bd_Env b)) (builderVolumeStrings (bd_Volumes b)) (trimAll (bd_Networks b))
    (trim_space (bd_Restart b)) (bd_Command b) (trimAll (bd_DependsOn b)).
Definition builder_add (acc : result APIError Model) (b : builderService) : result APIError Model :=
  m ← acc;
  let name := trim_space (bd_Name b) in
  if bool_decide (name = "") then Err (Errorf ErrValidation "Every service needs a name.")
  else if bool_decide (is_Some (m !! name)) then Err (Errorf ErrValidation ("Duplicate service name: " +:+ name))
  else if bool_decide (trim_space (bd_Image b) = "")
  then Err (Errorf ErrValidation ("Service " +:+ name +:+ " needs an image."))
  else Ok (<[name := builder_service b]> m).
Definition builder_model (services : list builderService) : result APIError Model :=
  match services with
  | [] => Err (Errorf ErrValidation "At least one service is required.")
  | _ => foldl builder_add (Ok ∅) services
  end.

(** ** Slugs and templates (templates.go) *)

Definition slug_byte (st : string * bool) (c : ascii) : string * bool :=
  let n := N_of_ascii c in
  if ((97 <=? n) && (n <=? 122) || (48 <=? n) && (n <=? 57))%N then (st.1 +:+ String c "", false)
  else if existsb (Ascii.eqb c) ["-"; "_"; " "; "."; "/"]%char then
    if negb st.2 && bool_decide (st.1 <> "") then (st.1 +:+ "-", true) else st
  else st.
Fixpoint slug_bytes (st : string * bool) (s : string) : string * bool :=
  match s with EmptyString => st | String c s' => slug_bytes (slug_byte st c) s' end.
Definition normalizeSlug (s : string) : string :=
  let dash := Ascii.eqb "-" in
  trim_right_set dash (trim_left_set dash (slug_bytes ("", false) (to_lower (trim_space s))).1).

Record templateWriteRequest := mkTWrite {
  tw_Name : string; tw_Slug : string; tw_Category : string; tw_Image : string; tw_Description : string;
  tw_Ports : list Z; tw_Env : list templateEnv; tw_Volumes : list string; tw_LogoURL : string }.
Definition validateTemplateWrite (q : templateWriteRequest) : option APIError :=
  if bool_decide (trim_space (tw_Name q) = "") then Some (Errorf ErrValidation "Template name is required.")
  else if bool_decide (normalizeSlug (tw_Slug q) = "")
  then Some (Errorf ErrValidation "A valid slug (a-z, 0-9, -) is required.")
  else let img := trim_space (tw_Image q) in
  if bool_decide (img = "") then Some (Errorf ErrValidation "Template image is required.")
  else if negb (ValidImageRef img) then Some (Errorf ErrValidation "Invalid image reference.")
  else if existsb (fun e => bool_decide (trim_space (te_Key e) = "")) (tw_Env q)
  then Some (Errorf ErrValidation "Env entries must have a key.")
  else None.
Definition written_template (id by_ : string) (q : templateWriteRequest) : CustomTemplate :=
  mkTpl id (trim_space (tw_Name q)) (normalizeSlug (tw_Slug q)) (trim_space (tw_Category q)) (trim_space (tw_Image q))
    (tw_Description q) (tw_Ports q) (tw_Env q) (tw_Volumes q) (trim_space (tw_LogoURL q)) by_ 0.

(** ** The server's state and the handlers' monad *)

Record Workload := mkWl {
  wl_ID : string; wl_Name : string; wl_ProviderID : string; wl_Labels : gmap string string; wl_Protected : bool }.
(** The writable Docker provider, or one whose container actions are all
    unsupported (Swarm, Kubernetes). *)
Inductive provider_kind := KDocker | KOther.

Record createStackRequest := mkCSR { cs_Name : string; cs_ComposeYAML : string; cs_AllowHostMounts : bool }.
Record deployRequest := mkDReq {
  dr_TemplateSlug : string; dr_Image : string; dr_Name : string; dr_Env : gmap string string;
  dr_Ports : option (list PortMap); dr_Volumes : option (list VolMount); dr_Labels : gmap string string;
  dr_RestartPolicy : string; dr_CpuLimit : f64; dr_MemoryLimitBytes : Z; dr_CpuReservation : f64;
  dr_MemoryReservationBytes : Z; dr_AllowHostMounts : bool }.
Record resolvedTemplate := mkRT {
  rt_Image : string; rt_Env : list templateEnv; rt_Ports : list Z; rt_Volumes : list string }.

Section Handlers.
(** [range], [NewPort], [daemon]: as in [Compose] and [Docker]; [yaml_decode],
    [node_decode], [yaml_marshal]: gopkg.in/yaml.v3; [parse_labels]:
    encoding/json; [known_host], [find_workload], [registry]: the snapshot cache
    and the provider registry, read only here; [builtin]: the embedded catalogue by
    slug; [clock], [uuid]: the readings of the clock and of crypto/rand. *)
Context (range : forall A, gmap string A -> list (string * A)) (NewPort : string -> string -> option string)
  (yaml_decode : string -> result string (gmap string node)) (node_decode : node -> result string rawService)
  (yaml_marshal : Model -> option string) (parse_labels : string -> option (list string))
  (known_host : string -> bool) (find_workload : string -> string -> option Workload)
  (registry : string -> option provider_kind) (builtin : string -> option resolvedTemplate)
  (clock : nat -> Z) (uuid : nat -> string) (guardian : Guard)
  {D : Type} (daemon : forall A, call A -> D -> result derr A * D).

Record srv := mkSrv {
  sv_db : db; sv_stacks : list Stack; sv_templates : list CustomTemplate; sv_docker : dstate D;
  sv_rec : auditRecord; sv_tick : nat }.
Definition HM (A : Type) : Type := srv -> result APIError A * srv.
#[export] Instance HM_ret : MRet HM := fun A a s => (Ok a, s).
#[export] Instance HM_bind : MBind HM := fun A B f m s =>
  match m s with (Ok a, s') => f a s' | (Err e, s') => (Err e, s') end.
Definition herr {A} (e : APIError) : HM A := fun s => (Err e, s).
Definition get {A} (f : srv -> A) : HM A := fun s => (Ok (f s), s).
Definition of_result {A} (r : result APIError A) : HM A := fun s => (r, s).
Definition hguard (cond : bool) (e : APIError) : HM unit := if cond then herr e else mret tt.

Definition set_docker (d : dstate D) (s : srv) : srv :=
  mkSrv (sv_db s) (sv_stacks s) (sv_templates s) d (sv_rec s) (sv_tick s).
Definition set_stacks (l : list Stack) (s : srv) : srv :=
  mkSrv (sv_db s) l (sv_templates s) (sv_docker s) (sv_rec s) (sv_tick s).
Definition set_templates (l : list CustomTemplate) (s : srv) : srv :=
  mkSrv (sv_db s) (sv_stacks s) l (sv_docker s) (sv_rec s) (sv_tick s).
Definition tick (s : srv) : srv :=
  mkSrv (sv_db s) (sv_stacks s) (sv_templates s) (sv_docker s) (sv_rec s) (S (sv_tick s)).

(** A provider method; its error mapped, or its result looked at. *)
Definition docker_try {E A} (m : DM D E A) : HM (result E A) := fun s =>
  let '(r, d) := m (sv_docker s) in (Ok r, set_docker d s).
Definition docker {A} (m : DM D perr A) : HM A :=
  r ← docker_try m; of_result (match r with Ok a => Ok a | Err e => Err (mapError e) end).

Definition NewUUID : HM string := fun s => (Ok (uuid (sv_tick s)), tick s).
Definition Now : HM Z := fun s => (Ok (clock (sv_tick s)), tick s).
Definition on_stacks (f : list Stack -> result store_err (list Stack)) : HM (result store_err unit) := fun s =>
  match f (sv_stacks s) with Ok l => (Ok (Ok tt), set_stacks l s) | Err e => (Ok (Err e), s) end.
Definition on_templates (f : list CustomTemplate -> result store_err (list CustomTemplate)) (e : store_err -> APIError) : HM unit :=
  fun s => match f (sv_templates s) with Ok l => (Ok tt, set_templates l s) | Err x => (Err (e x), s) end.
Definition store_read {A} (f : srv -> result store_err A) : HM A := fun s =>
  (match f s with Ok a => Ok a | Err e => Err (MapStoreError e) end, s).

(** The audit record, when the route attached one. *)
Definition audit (r : request) (f : auditRecord -> auditRecord) : HM unit := fun s =>
  (Ok tt, if rq_Audited r
          then mkSrv (sv_db s) (sv_stacks s) (sv_templates s) (sv_docker s) (f (sv_rec s)) (sv_tick s) else s).
Definition urlParam (name : string) (r : request) : string := default "" (rq_Params r !! name).
Definition ids (l : list string) : any := AOther (JList (JString <$> l)).

Definition reply : Type := Z * json.
Definition ok_ : reply := (200, JObj [("ok", JBool true)]).

(** ** Stacks (stacks.go) *)

Definition stack_json (s : Stack) : list (string * json) :=
  [("id", JString (sk_ID s)); ("name", JString (sk_Name s)); ("projectName", JString (sk_ProjectName s));
   ("hostId", JString (sk_HostID s)); ("composeYaml", JString (sk_ComposeYAML s)); ("status", JString (sk_Status s));
   ("serviceCount", JNum (sk_ServiceCount s)); ("createdBy", JString (sk_CreatedBy s));
   ("createdAt", JNum (sk_CreatedAt s)); ("updatedAt", JNum (sk_UpdatedAt s))].
Definition strs (l : list string) : json := JList (JString <$> l).
Definition service_json (m : Model) (n : string) : json :=
  let svc := default zero_service (m !! n) in
  JObj [("name", JString n); ("image", JString (sv_Image svc)); ("containerName", JString (sv_ContainerName svc));
        ("ports", strs (sv_Ports svc)); ("environment", strs (sv_Environment svc)); ("volumes", strs (sv_Volumes svc));
        ("networks", strs (sv_Networks svc)); ("restart", JString (sv_Restart svc)); ("command", strs (sv_Command svc));
        ("dependsOn", strs (sv_DependsOn svc))].
Definition serviceViews (m : Model) : json := JList (service_json m <$> ServiceNamesSorted range m).
Definition deployOrder (p : Plan) : list string := (fun s => default "" (ds_Labels s !! LabelService)) <$> pl_Specs p.

(** A [ValidationError] is a 422; the planner always answers. *)
Definition parseAndPlan (yamlSrc project : string) : result APIError (Model * Plan) :=
  match Parse range yaml_decode node_decode yamlSrc with
  | Err e => Err (Errorf ErrValidation e)
  | Ok m => match BuildPlan range project m with
            | None => Err ErrInternal
            | Some (Err e) => Err (Errorf ErrValidation e)
            | Some (Ok p) => Ok (m, p)
            end
  end.

Definition ValidateStack (r : request) (body : result APIError string) : HM reply :=
  _ ← hguard (negb (known_host (urlParam "hostID" r))) ErrAPINotFound;
  yaml ← of_result body;
  '(m, p) ← of_result (parseAndPlan yaml "validate");
  mret (200, JObj [("valid", JBool true); ("serviceCount", JNum (Z.of_nat (size m)));
                   ("services", serviceViews m); ("deployOrder", strs (deployOrder p))]).

Definition is_admin (r : request) : bool :=
  match rq_User r with Some u => HasGlobalSuperuser u | None => false end.

(** Shared by the two guards: refuse, or say whether host mounts are allowed. *)
Definition authorize_mounts (r : request) (hostPaths : list string) (requested : bool) (msg : string) : HM bool :=
  if negb (is_admin r) && (negb (bool_decide (hostPaths = [])) || requested) then
    _ ← audit r (rec_detail "denied" (AOther (JString "host_mount")));
    _ ← (if bool_decide (hostPaths = []) then mret tt else audit r (rec_detail "hostPaths" (ids hostPaths)));
    _ ← audit r (rec_result "denied");
    herr (Errorf ErrForbidden msg)
  else
    _ ← (if bool_decide (hostPaths = []) then mret tt else audit r (rec_detail "hostMounts" (ids hostPaths)));
    mret (is_admin r && requested).

Definition authorizePlanHostMounts (r : request) (p : Plan) (requested : bool) : HM Plan :=
  allow ← authorize_mounts r (Plan_HostMountSources p) requested
    "This stack declares host bind mounts, which require administrator privileges; use named volumes instead.";
  mret (mkPlan (pl_Project p) (with_AllowHostMounts allow <$> pl_Specs p) (pl_Aliases p) (pl_ExtraNetworks p) (pl_Networks p)).

(** Joining the extra networks that were created. *)
Fixpoint connect_all (extraNetIDs : gmap string string) (id : string) (aliases names : list string) : DM D perr unit :=
  match names with
  | [] => mret tt
  | n :: names =>
      _ ← match extraNetIDs !! n with
          | Some nid => ConnectToNetwork daemon nid id aliases
          | None => mret tt
          end;
      connect_all extraNetIDs id aliases names
  end.

(** One service: its container, then its networks; an error comes with the
    status it leaves the stack in. *)
Definition deploy_one (p : Plan) (defaultNet : string) (extraNetIDs : gmap string string) (deployed : nat)
    (spec : DeploySpec) : DM D (string * perr) unit := fun s =>
  match ContainerCreateAndStart NewPort range daemon spec s with
  | (Err e, s) => (Err (if bool_decide (deployed = 0%nat) then "error" else "partial", e), s)
  | (Ok id, s) =>
      let aliases := default [] (pl_Aliases p !! ds_Name spec) in
      match ConnectToNetwork daemon defaultNet id aliases s with
      | (Err e, s) => (Err ("partial", e), s)
      | (Ok _, s) =>
          match connect_all extraNetIDs id aliases (default [] (pl_ExtraNetworks p !! ds_Name spec)) s with
          | (Err e, s) => (Err ("partial", e), s)
          | (Ok _, s) => (Ok tt, s)
          end
      end
  end.
Fixpoint deploy_specs (p : Plan) (defaultNet : string) (extraNetIDs : gmap string string) (deployed : nat)
    (specs : list DeploySpec) : DM D (string * perr) unit :=
  match specs with
  | [] => mret tt
  | spec :: specs =>
      _ ← deploy_one p defaultNet extraNetIDs deployed spec;
      deploy_specs p defaultNet extraNetIDs (S deployed) specs
  end.

Definition failing {A} (status : string) (m : DM D perr A) : DM D (string * perr) A := fun s =>
  match m s with (Ok a, s) => (Ok a, s) | (Err e, s) => (Err (status, e), s) end.
Fixpoint ensure_networks (labels ids : gmap string string) (names : list string) : DM D perr (gmap string string) :=
  match names with
  | [] => mret ids
  | n :: names =>
      id ← EnsureProjectNetwork daemon n labels;
      ensure_networks labels (<[n := id]> ids) names
  end.
Definition deployPlan (p : Plan) : DM D (string * perr) unit :=
  let netLabels : gmap string string :=
    <[LabelProject := pl_Project p]> (<[LabelCastorStack := pl_Project p]> (<[LabelCastorManaged := "true"]> ∅)) in
  defaultNet ← failing "error" (EnsureProjectNetwork daemon (DefaultNetworkName p) netLabels);
  extraNetIDs ← failing "error" (ensure_networks netLabels ∅ (pl_Networks p));
  deploy_specs p defaultNet extraNetIDs 0 (pl_Specs p).

Definition CreateStack (r : request) (body : result APIError createStackRequest) : HM reply :=
  let hostID := urlParam "hostID" r in
  _ ← hguard (negb (known_host hostID)) ErrAPINotFound;
  req ← of_result body;
  let name := trim_space (cs_Name req) in
  _ ← hguard (bool_decide (name = "")) (Errorf ErrValidation "Stack name is required.");
  '(m, plan) ← of_result (parseAndPlan (cs_ComposeYAML req) name);
  _ ← audit r (rec_target "stack" (pl_Project plan) name);
  plan ← authorizePlanHostMounts r plan (cs_AllowHostMounts req);
  existing ← get (fun s => GetStackByProject (pl_Project plan) (sv_stacks s));
  _ ← hguard (is_ok existing) (Errorf ErrConflict ("A stack with project name " +:+ pl_Project plan +:+ " already exists."));
  id ← NewUUID;
  now ← Now;
  users ← get (fun s => db_users (sv_db s));
  ins ← on_stacks (InsertStack users (mkStack id name (pl_Project plan) hostID (cs_ComposeYAML req) "pending"
          (Z.of_nat (size m)) (match rq_User r with Some u => u_ID (pr_User u) | None => "" end) 0 0) now);
  _ ← of_result (match ins with Ok _ => Ok tt | Err e => Err (mapStackConflict e) end);
  deployed ← docker_try (deployPlan plan);
  now ← Now;
  _ ← on_stacks (UpdateStackStatus id (match deployed with Ok _ => "running" | Err (status, _) => status end) now);
  _ ← of_result (match deployed with Ok _ => Ok tt | Err (_, e) => Err (mapError e) end);
  stored ← store_read (fun s => GetStack id (sv_stacks s));
  mret (201, JObj (stack_json stored)).

Definition ListStacks (r : request) : HM reply :=
  let hostID := urlParam "hostID" r in
  _ ← hguard (negb (known_host hostID)) ErrAPINotFound;
  rows ← get (fun s => StoreListStacks hostID (sv_stacks s));
  mret (200, JList ((fun st => JObj (stack_json st)) <$> rows)).

Definition StackDetail (r : request) : HM reply :=
  st ← store_read (fun s => GetStack (urlParam "id" r) (sv_stacks s));
  _ ← hguard (negb (bool_decide (sk_HostID st = urlParam "hostID" r))) ErrAPINotFound;
  conts ← docker_try (ListProjectContainers daemon (sk_ProjectName st));
  let views := match conts with
               | Ok l => (fun c => JObj [("id", JString (sc_ID c)); ("name", JString (sc_Name c));
                                         ("service", JString (sc_Service c)); ("state", JString (sc_State c))]) <$> l
               | Err _ => []
               end in
  mret (200, JObj (stack_json st ++ [("containers", JList views)])).

Fixpoint remove_all (l : list StackContainer) : DM D perr unit :=
  match l with
  | [] => mret tt
  | c :: l => _ ← StopAndRemoveContainer daemon (sc_ID c); remove_all l
  end.
Fixpoint remove_networks (names : list string) : DM D perr unit := fun s =>
  match names with
  | [] => (Ok tt, s)
  | n :: names => remove_networks names (RemoveNetworkByName daemon n s).2
  end.

Definition DeleteStack (r : request) : HM reply :=
  st ← store_read (fun s => GetStack (urlParam "id" r) (sv_stacks s));
  _ ← hguard (negb (bool_decide (sk_HostID st = urlParam "hostID" r))) ErrAPINotFound;
  _ ← audit r (rec_target "stack" (sk_ProjectName st) (sk_Name st));
  conts ← docker (ListProjectContainers daemon (sk_ProjectName st));
  _ ← docker (remove_all conts);
  _ ← docker_try (RemoveNetworkByName daemon (sk_ProjectName st +:+ "_default"));
  _ ← match parseAndPlan (sk_ComposeYAML st) (sk_Name st) with
      | Ok (_, p) => docker (remove_networks (pl_Networks p))
      | Err _ => mret tt
      end;
  del ← on_stacks (StoreDeleteStack (sk_ID st));
  _ ← of_result (match del with Ok _ => Ok tt | Err e => Err (MapStoreError e) end);
  mret ok_.

Definition BuilderGenerate (body : result APIError (list builderService)) : HM reply :=
  services ← of_result body;
  m ← of_result (builder_model services);
  doc ← of_result (match yaml_marshal m with Some doc => Ok doc | None => Err ErrInternal end);
  mret (200, JObj [("yaml", JString doc)]).

(** ** One-click templates (templates.go) *)

Definition resolveTemplate (slug : string) (customs : list CustomTemplate) : option resolvedTemplate :=
  match builtin slug with
  | Some t => Some t
  | None => match list_find (fun c => tp_Slug c = slug) (ListCustomTemplates customs) with
            | Some (_, c) => Some (mkRT (tp_Image c) (tp_Env c) (tp_Ports c) (tp_Volumes c))
            | None => None
            end
  end.

(** The request over the template's defaults; a template that is not named has none. *)
Definition merge_spec (q : deployRequest) (t : resolvedTemplate) : DeploySpec :=
  let image := trim_space (dr_Image q) in
  mkSpec (if bool_decide (image = "") then rt_Image t else image) (trim_space (dr_Name q))
    (dr_Env q ∪ foldl (fun m e => <[te_Key e := te_Value e]> m) ∅ (rt_Env t))
    (default ((fun p => mkPort p p "tcp") <$> rt_Ports t) (dr_Ports q))
    (default ((fun v => mkVol "" v) <$> rt_Volumes t) (dr_Volumes q))
    (dr_Labels q) (dr_RestartPolicy q) (dr_CpuLimit q) (dr_MemoryLimitBytes q) (dr_CpuReservation q)
    (dr_MemoryReservationBytes q) false.

Definition buildDeploySpec (r : request) (q : deployRequest) : HM DeploySpec :=
  let slug := normalizeSlug (dr_TemplateSlug q) in
  customs ← get sv_templates;
  tpl ← of_result (if bool_decide (slug = "") then Ok (mkRT "" [] [] [])
                   else match resolveTemplate slug customs with
                        | Some t => Ok t
                        | None => Err (Errorf ErrValidation ("Unknown template: " +:+ slug))
                        end);
  let spec := merge_spec q tpl in
  _ ← hguard (bool_decide (ds_Image spec = "")) (Errorf ErrValidation "An image or a known templateSlug is required.");
  _ ← hguard (negb (ValidImageRef (ds_Image spec))) (Errorf ErrValidation "Invalid image reference.");
  _ ← hguard (negb (bool_decide (ds_Name spec = "")) && negb (validContainerName (ds_Name spec)))
        (Errorf ErrValidation "Invalid container name.");
  allow ← authorize_mounts r (HostMountSources (ds_Volumes spec)) (dr_AllowHostMounts q)
    "Host bind mounts require administrator privileges; only named volumes are allowed.";
  mret (with_AllowHostMounts allow spec).

Definition DeployTemplate (r : request) (body : result APIError deployRequest) : HM reply :=
  _ ← hguard (negb (known_host (urlParam "hostID" r))) ErrAPINotFound;
  q ← of_result body;
  spec ← buildDeploySpec r q;
  _ ← audit r (rec_target "container" (ds_Name spec) (ds_Name spec));
  id ← docker (ContainerCreateAndStart NewPort range daemon spec);
  _ ← audit r (rec_target "container" id (ds_Name spec));
  mret (201, JObj [("ok", JBool true); ("containerId", JString id); ("name", JString (ds_Name spec));
                   ("image", JString (ds_Image spec))]).

Definition template_json (t : CustomTemplate) : json :=
  JObj [("id", JString (tp_ID t)); ("source", JString "custom"); ("name", JString (tp_Name t)); ("slug", JString (tp_Slug t));
        ("category", JString (tp_Category t)); ("image", JString (tp_Image t)); ("description", JString (tp_Description t));
        ("ports", JList (JNum <$> tp_Ports t));
        ("env", JList ((fun e => JObj [("key", JString (te_Key e)); ("value", JString (te_Value e));
                                       ("required", JBool (te_Required e))]) <$> tp_Env t));
        ("volumes", strs (tp_Volumes t)); ("logo", JString (tp_LogoURL t)); ("createdAt", JNum (tp_CreatedAt t))].

Definition CreateTemplate (r : request) (body : result APIError templateWriteRequest) : HM reply :=
  q ← of_result body;
  _ ← of_result (match validateTemplateWrite q with Some e => Err e | None => Ok tt end);
  id ← NewUUID;
  let t := written_template id (match rq_User r with Some u => u_ID (pr_User u) | None => "" end) q in
  _ ← audit r (rec_target "template" id (tp_Name t));
  now ← Now;
  users ← get (fun s => db_users (sv_db s));
  _ ← on_templates (CreateCustomTemplate users t now) mapTemplateConflict;
  stored ← store_read (fun s => GetCustomTemplate id (sv_templates s));
  mret (201, template_json stored).

Definition UpdateTemplate (r : request) (body : result APIError templateWriteRequest) : HM reply :=
  let id := urlParam "id" r in
  q ← of_result body;
  _ ← of_result (match validateTemplateWrite q with Some e => Err e | None => Ok tt end);
  let t := written_template id "" q in
  _ ← audit r (rec_target "template" id (tp_Name t));
  _ ← on_templates (UpdateCustomTemplate t) mapTemplateConflict;
  stored ← store_read (fun s => GetCustomTemplate id (sv_templates s));
  mret (200, template_json stored).

Definition DeleteTemplate (r : request) : HM reply :=
  let id := urlParam "id" r in
  _ ← audit r (rec_target "template" id id);
  _ ← on_templates (DeleteCustomTemplate id) MapStoreError;
  mret ok_.

(** ** Container actions (workloads.go) and single resources *)

Definition resolveForMutation (r : request) (id : string) : HM (provider_kind * Workload) :=
  wl ← of_result (match find_workload (urlParam "hostID" r) id with Some w => Ok w | None => Err ErrAPINotFound end);
  _ ← audit r (rec_target "container" (wl_ID wl) (wl_Name wl));
  p ← of_result (match registry (wl_ProviderID wl) with Some p => Ok p | None => Err ErrAPINotFound end);
  mret (p, wl).

(** The guard's verdict, recorded. *)
Definition guard_ref (r : request) (ref : ContainerRef) (confirm : bool) (reason : string) : HM unit :=
  d ← get sv_db;
  match GuardDestructive parse_labels guardian d ref (rq_User r) confirm reason with
  | Allowed => mret tt
  | Override reason =>
      _ ← audit r (rec_detail "override" (AOther (JBool true)));
      _ ← audit r (rec_detail "reason" (AOther (JString reason)));
      audit r (rec_detail "protected" (AOther (JString "label_admin_override")))
  | Denied p msg =>
      _ ← audit r (fun a => rec_detail "protected" (AOther (JString p)) (rec_result "denied" a));
      herr (Errorf ErrProtected msg)
  end.
Definition guardContainer (r : request) (wl : Workload) : bool -> string -> HM unit :=
  guard_ref r (mkRef (wl_ID wl) (wl_Name wl) (wl_Labels wl) (wl_Protected wl) "container" false).

(** The action of a provider: Docker's, or unsupported. *)
Definition act (p : provider_kind) (m : DM D perr unit) : HM unit :=
  match p with KDocker => docker m | KOther => herr ErrMethodNotAllowed end.

(** [time.Duration(n) * time.Second] of the optional body. *)
Definition durationPtr (seconds : option Z) : option duration := (fun n => dur_of n Second) <$> seconds.

Definition StartWorkload (r : request) (id : string) : HM reply :=
  '(p, wl) ← resolveForMutation r id;
  _ ← act p (Start daemon (wl_ID wl));
  mret ok_.
Definition StopWorkload (r : request) (id : string) (timeoutSeconds : option Z) : HM reply :=
  '(p, wl) ← resolveForMutation r id;
  _ ← guardContainer r wl false "";
  _ ← act p (Stop daemon (wl_ID wl) (durationPtr timeoutSeconds));
  mret ok_.
Definition RestartWorkload (r : request) (id : string) (timeoutSeconds : option Z) : HM reply :=
  '(p, wl) ← resolveForMutation r id;
  _ ← guardContainer r wl false "";
  _ ← act p (Restart daemon (wl_ID wl) (durationPtr timeoutSeconds));
  mret ok_.
Definition RemoveWorkload (r : request) (id : string) (force volumes confirm : bool) (reason : string) : HM reply :=
  '(p, wl) ← resolveForMutation r id;
  _ ← guardContainer r wl confirm reason;
  _ ← act p (Remove daemon (wl_ID wl) force volumes);
  mret ok_.

Definition nameLooksLikeData (name : string) : bool :=
  let n := to_lower name in contains n "castor-data" || bool_decide (n = "castor_data").
(** The mountpoint is read and never counts. *)
Definition volumeHoldsData (mountpoint : string) : bool := false.
Definition DeleteVolumeHandler (r : request) (force : bool) : HM reply :=
  let name := urlParam "name" r in
  _ ← audit r (rec_target "volume" name name);
  mountpoint ← docker_try (VolumeMountpoint (E := perr) daemon name);
  let isData := volumeHoldsData (match mountpoint with Ok m => m | Err _ => "" end) || nameLooksLikeData name in
  _ ← guard_ref r (mkRef name name ∅ false "volume" isData) false "";
  _ ← docker (DeleteVolume daemon name force);
  mret ok_.
Definition DeleteImageHandler (r : request) (force : bool) : HM reply :=
  let id := urlParam "id" r in
  _ ← audit r (rec_target "image" id id);
  _ ← docker (DeleteImage daemon id force);
  mret ok_.
Definition DeleteNetworkHandler (r : request) : HM reply :=
  let id := urlParam "id" r in
  _ ← audit r (rec_target "network" id id);
  _ ← docker (DeleteNetwork daemon id);
  mret ok_.
(** The pull itself goes on after the reply. *)
Definition PullImageHandler (r : request) (body : result APIError string) : HM reply :=
  ref ← of_result body;
  _ ← hguard (negb (ValidImageRef ref)) (Errorf ErrValidation "Invalid image reference.");
  _ ← audit r (rec_target "image" ref ref);
  _ ← docker (perform daemon (ImagePull ref) (fun _ => POther));
  mret (202, JObj [("ok", JBool true); ("ref", JString ref)]).

(** ** The routes of this file (router.go), with what the handlers decode *)

Inductive op :=
| OValidateStack (body : result APIError string)
| OCreateStack (body : result APIError createStackRequest)
| OListStacks
| OStackDetail
| ODeleteStack
| OBuilderGenerate (body : result APIError (list builderService))
| ODeployTemplate (body : result APIError deployRequest)
| OCreateTemplate (body : result APIError templateWriteRequest)
| OUpdateTemplate (body : result APIError templateWriteRequest)
| ODeleteTemplate
| OStart (id : string)
| OStop (id : string) (timeoutSeconds : option Z)
| ORestart (id : string) (timeoutSeconds : option Z)
| ORemove (id : string) (force volumes confirm : bool) (reason : string)
| ODeleteVolume (force : bool)
| ODeleteImage (force : bool)
| ODeleteNetwork
| OPullImage (body : result APIError string).
Definition serve_op (o : op) (r : request) : HM reply :=
  match o with
  | OValidateStack body => ValidateStack r body
  | OCreateStack body => CreateStack r body
  | OListStacks => ListStacks r
  | OStackDetail => StackDetail r
  | ODeleteStack => DeleteStack r
  | OBuilderGenerate body => BuilderGenerate body
  | ODeployTemplate body => DeployTemplate r body
  | OCreateTemplate body => CreateTemplate r body
  | OUpdateTemplate body => UpdateTemplate r body
  | ODeleteTemplate => DeleteTemplate r
  | OStart id => StartWorkload r id
  | OStop id t => StopWorkload r id t
  | ORestart id t => RestartWorkload r id t
  | ORemove id f v c reason => RemoveWorkload r id f v c reason
  | ODeleteVolume f => DeleteVolumeHandler r f
  | ODeleteImage f => DeleteImageHandler r f
  | ODeleteNetwork => DeleteNetworkHandler r
  | OPullImage body => PullImageHandler r body
  end.
End Handlers.
Arguments srv D : clear implicits.
Arguments HM D A : clear implicits.
