(* ===== verification/BuilderFacts.v ===== *)
(** * The stack builder's strings parse back

    What builderPortStrings, builderVolumeStrings and builderEnvStrings of
    stacks.go write is read back by parsePorts, parseVolumes and envMap of plan.go;
    the document the builder writes is parsed back to the model it was written for,
    given a YAML library that reads what it writes ([YamlLaws]), of which there is one. *)
From S2P Require Import Prelude GoStd GoFacts Utf8 Compose ComposeFacts Stacks.

Lemma itoa_plain z : 0 <= z -> every plain (itoa z) = true.
Proof. intros Hz. destruct (itoa_spec z Hz) as (H & _). by eapply every_impl; [apply digit_plain|]. Qed.
Lemma itoa_other d z : is_digit d = false -> 0 <= z -> every (other_than d) (itoa z) = true.
Proof. intros Hd Hz. destruct (itoa_spec z Hz) as (H & _). eapply every_impl; [|done]. intros c. by apply digit_other. Qed.
Lemma itoa_nonempty z : 0 <= z -> itoa z <> "".
Proof. intros Hz. by destruct (itoa_spec z Hz) as (_ & H & _). Qed.

Lemma parsePortNum_itoa z : 1 <= z <= 65535 -> parsePortNum (itoa z) = Some z.
Proof.
  intros Hz. unfold parsePortNum. rewrite trim_space_plain by (apply itoa_plain; lia).
  rewrite atoi_itoa by lia. simpl.
  destruct (Z.ltb_spec z 1), (Z.ltb_spec 65535 z); simpl; lia || done.
Qed.

(** The host and container part of a port. *)
Definition port_body (p : PortMap) : string :=
  if 0 <? pm_Host p then itoa (pm_Host p) +:+ ":" +:+ itoa (pm_Container p) else itoa (pm_Container p).

Lemma port_body_every f p : port_ok p -> f ":"%char = true -> (forall c, is_digit c = true -> f c = true) ->
  every f (port_body p) = true.
Proof.
  intros ((? & ?) & (? & ?) & _) Hc Hf. unfold port_body.
  assert (every f (itoa (pm_Container p)) = true) as Hcont.
  { destruct (itoa_spec (pm_Container p)) as (H' & _); [lia|]. by eapply every_impl. }
  destruct (0 <? _); [|done]. rewrite !every_app. cbn [every]. rewrite Hc, Hcont.
  destruct (itoa_spec (pm_Host p)) as (H' & _); [done|]. by rewrite (every_impl is_digit f).
Qed.

Definition proto_suffix (proto : string) : string := if bool_decide (proto = "tcp") then "" else "/" +:+ proto.
Lemma builder_port_string p : port_ok p -> builderPortString p = port_body p +:+ proto_suffix (pm_Proto p).
Proof.
  intros (_ & _ & Hp). unfold builderPortString, port_body, proto_suffix.
  repeat (apply elem_of_cons in Hp as [->|Hp]; [vm_compute (to_lower _); cbv zeta; rewrite ?append_nil; done|]).
  by apply elem_of_nil in Hp.
Qed.

(** The parser on a body without a protocol, or after it. *)
Lemma parse_body svc raw p :
  port_ok p -> (
    hc ← match split_on ":" (port_body p) with
         | [c] => Ok ("", c)
         | [h; c] => Ok (h, c)
         | [_; h; c] => Ok (h, c)
         | _ => Err ("Service " +:+ quote svc +:+ ": invalid port mapping " +:+ quote raw +:+ ".")
         end;
    if contains_char "-" hc.2 || contains_char "-" hc.1
    then Err ("Service " +:+ quote svc +:+ ": port ranges are not supported (" +:+ quote raw +:+ ").")
    else match parsePortNum hc.2 with
         | None => Err ("Service " +:+ quote svc +:+ ": invalid container port in " +:+ quote raw +:+ ".")
         | Some cont =>
             if bool_decide (trim_space hc.1 = "") then Ok [mkPort 0 cont (pm_Proto p)]
             else match parsePortNum hc.1 with
                  | None => Err ("Service " +:+ quote svc +:+ ": invalid host port in " +:+ quote raw +:+ ".")
                  | Some host => Ok [mkPort host cont (pm_Proto p)]
                  end
         end) = Ok [p].
Proof.
  intros ((Hc1 & Hc2) & (Hh1 & Hh2) & _). unfold port_body.
  assert (contains_char "-" (itoa (pm_Container p)) = false) as Hcd by (apply contains_none, itoa_other; [done|lia]).
  destruct (Z.ltb_spec 0 (pm_Host p)).
  - change (itoa (pm_Host p) +:+ ":" +:+ itoa (pm_Container p)) with (itoa (pm_Host p) +:+ String ":" (itoa (pm_Container p))).
    rewrite split_on_sep, split_on_none by (apply itoa_other; [done|lia]). simpl.
    rewrite Hcd, contains_none by (apply itoa_other; [done|lia]). simpl.
    rewrite !parsePortNum_itoa by lia. rewrite trim_space_plain by (apply itoa_plain; lia).
    rewrite bool_decide_false by (apply itoa_nonempty; lia). by destruct p.
  - rewrite split_on_none by (apply itoa_other; [done|lia]). simpl. rewrite Hcd. simpl.
    rewrite parsePortNum_itoa by lia. destruct p as [h c pr]. simpl in *. by replace h with 0 by lia.
Qed.

Lemma parse_builder_port svc p : port_ok p -> parsePort svc (builderPortString p) = Ok [p].
Proof.
  intros Hp. rewrite builder_port_string by done. pose proof (parse_body svc (port_body p +:+ proto_suffix (pm_Proto p)) p Hp) as Hb.
  assert (every plain (port_body p) = true) as Hpl by (apply port_body_every; [done|done|apply digit_plain]).
  assert (every (other_than "/") (port_body p) = true) as Hns by (apply port_body_every; [done|done|intros c; by apply digit_other]).
  assert (port_body p <> "") as Hne.
  { unfold port_body. destruct Hp as ((? & ?) & (? & ?) & _). destruct (0 <? _); [|by apply itoa_nonempty; lia].
    destruct (itoa (pm_Host p)) eqn:E; [|done]. by apply itoa_nonempty in E. }
  assert (forall t, port_body p +:+ t <> "") as Hne' by (intros t; by destruct (port_body p)).
  unfold parsePort, proto_suffix in *. destruct Hp as (_ & _ & Hp).
  assert (every plain (port_body p +:+ proto_suffix (pm_Proto p)) = true) as Hall.
  { rewrite every_app, Hpl. unfold proto_suffix.
    repeat (apply elem_of_cons in Hp as [->|Hp]; [by vm_compute|]). by apply elem_of_nil in Hp. }
  unfold proto_suffix in Hall. rewrite (trim_space_plain _ Hall), bool_decide_false by apply Hne'.
  case_bool_decide as Ht.
  - rewrite cut_last_none; [|by rewrite every_app, Hns]. rewrite Ht in Hb.
    rewrite append_nil in *. exact Hb.
  - change ("/" +:+ pm_Proto p) with (String "/" (pm_Proto p)) in *.
    rewrite cut_last_app.
    + assert (to_lower (trim_space (pm_Proto p)) = pm_Proto p) as Hl.
      { repeat (apply elem_of_cons in Hp as [->|Hp]; [by vm_compute|]). by apply elem_of_nil in Hp. }
      cbv zeta. rewrite Hl, (bool_decide_true (_ ∈ _)) by done. exact Hb.
    + repeat (apply elem_of_cons in Hp as [->|Hp]; [by vm_compute|]). by apply elem_of_nil in Hp.
Qed.

Lemma join_singletons {A} (l : list A) : mjoin (M := list) ((fun x => [x]) <$> l) = l.
Proof. induction l as [|x l IH]; [done|]. rewrite fmap_cons. change (x :: mjoin (M := list) ((fun x => [x]) <$> l) = x :: l). by rewrite IH. Qed.

Lemma parse_builder_ports svc ps : Forall port_ok ps -> parsePorts svc (builderPortStrings ps) = Ok ps.
Proof.
  intros H. unfold parsePorts, builderPortStrings.
  rewrite filter_all by (eapply Forall_impl; [done|]; intros p ((? & ?) & _); simpl; lia).
  assert (first_err (parsePort svc) (builderPortString <$> ps) = Ok ((fun p => [p]) <$> ps)) as ->.
  { apply first_err_ok. rewrite Forall2_fmap. apply Forall_Forall2_diag. eapply Forall_impl; [done|]. apply parse_builder_port. }
  cbn [mbind result_bind]. by rewrite join_singletons.
Qed.

(** A volume whose parts have no space and no colon. *)
Definition vol_ok (v : VolMount) : Prop :=
  vo_Target v <> "" /\ (every plain (vo_Target v) && every (other_than ":") (vo_Target v)
                        && every plain (vo_Source v) && every (other_than ":") (vo_Source v) = true).

Lemma parse_builder_volumes svc vs : Forall vol_ok vs -> parseVolumes svc (builderVolumeStrings vs) = Ok vs.
Proof.
  intros H. unfold parseVolumes, builderVolumeStrings.
  rewrite filter_all.
  2: { eapply Forall_impl; [done|]. intros v (Hne & Hv). rewrite !andb_true_iff in Hv. by rewrite trim_space_plain by apply Hv. }
  rewrite (proj2 (first_err_ok _ _ ((fun v => [v]) <$> vs))); [cbn [mbind result_bind]; by rewrite join_singletons|].
  rewrite Forall2_fmap. apply Forall_Forall2_diag. eapply Forall_impl; [done|].
  intros [src t] (Hne & Hv). rewrite !andb_true_iff in Hv. destruct Hv as (((Ht & Htc) & Hs) & Hsc). cbn [vo_Target vo_Source] in *.
  rewrite !trim_space_plain by done. unfold parseVolume. destruct (decide (src = "")) as [He|He].
  - rewrite (bool_decide_true (src = "")) by done. subst src. rewrite trim_space_plain by done. rewrite bool_decide_false by done. by rewrite split_on_none.
  - rewrite (bool_decide_false (src = "")) by done. change (src +:+ ":" +:+ t) with (src +:+ String ":" t).
    rewrite trim_space_plain by (rewrite every_app; cbn [every]; by rewrite Hs, Ht).
    rewrite bool_decide_false by (by destruct src). by rewrite split_on_sep, split_on_none.
Qed.

Definition env_ok (e : string * string) : Prop :=
  e.1 <> "" /\ (every plain e.1 && every (other_than "=") e.1 = true).

Lemma env_builder env : Forall env_ok env ->
  envMap (builderEnvStrings env) = foldl (fun (m : gmap string string) e => <[e.1 := e.2]> m) ∅ env.
Proof.
  intros H. unfold envMap, builderEnvStrings.
  rewrite filter_all.
  2: { eapply Forall_impl; [done|]. intros v (Hne & Hv). rewrite !andb_true_iff in Hv. by rewrite trim_space_plain by apply Hv. }
  generalize (∅ : gmap string string). induction H as [|[k v] env (Hne & Hk) _ IH]; intros m; [done|].
  simpl. rewrite <- IH. f_equal. simpl in *. rewrite !andb_true_iff in Hk. destruct Hk as [Hp Ho].
  rewrite (trim_space_plain k) by done. change (k +:+ "=" +:+ v) with (k +:+ String "=" v). rewrite cut_app by done.
  rewrite (trim_space_plain k) by done. by rewrite bool_decide_false.
Qed.

(** ** The document *)

(** The strings of a model. *)
Definition svc_texts (svc : Service) : list string :=
  [sv_Image svc; sv_ContainerName svc; sv_Restart svc] ++ sv_Ports svc ++ sv_Environment svc ++ sv_Volumes svc ++
  sv_Networks svc ++ sv_Command svc ++ sv_DependsOn svc.
Definition texts (m : Model) : Prop :=
  forall n svc, m !! n = Some svc -> Forall (fun s => valid_utf8 s = true) (n :: svc_texts svc).

(** The yaml tags of [compose.Service]. *)
Definition service_keys : list string :=
  ["image"; "container_name"; "ports"; "environment"; "volumes"; "networks"; "restart"; "command"; "depends_on"].
Definition seq_node (l : list string) (n : node) : Prop :=
  n_Kind n = KSequence /\ Forall2 (fun s c => n_Kind c = KScalar /\ n_Value c = s) l (n_Content n).
(** The node of a service that was written: a mapping with the tags as keys, whose
    fields decode to what was written, a slice as a sequence of scalars. *)
Record service_node (node_decode : node -> result string rawService) (svc : Service) (n : node) : Prop := {
  sn_kind : n_Kind n = KMapping;
  sn_keys : forall kv, kv ∈ node_pairs (n_Content n) -> n_Value kv.1 ∈ service_keys;
  sn_fields : exists rs, node_decode n = Ok rs /\
    rs_Image rs = sv_Image svc /\ rs_ContainerName rs = sv_ContainerName svc /\ rs_Restart rs = sv_Restart svc /\
    seq_node (sv_Ports svc) (rs_Ports rs) /\ seq_node (sv_Environment svc) (rs_Environment rs) /\
    seq_node (sv_Volumes svc) (rs_Volumes rs) /\ seq_node (sv_Networks svc) (rs_Networks rs) /\
    seq_node (sv_Command svc) (rs_Command rs) /\ seq_node (sv_DependsOn svc) (rs_DependsOn rs) }.

(** What the YAML library promises of strings in UTF-8: it writes them, and reads back
    what it wrote. *)
Class YamlLaws (yaml_decode : string -> result string (gmap string node)) (node_decode : node -> result string rawService)
    (yaml_marshal : Model -> option string) : Prop := {
  yaml_reads_back : forall m, m <> ∅ -> texts m ->
    exists doc nodes, yaml_marshal m = Some doc /\ trim_space doc <> "" /\ yaml_decode doc = Ok nodes /\
      (forall n, is_Some (nodes !! n) <-> is_Some (m !! n)) /\
      (forall n svc nd, m !! n = Some svc -> nodes !! n = Some nd -> service_node node_decode svc nd) }.

(** ** Reading a service back *)

(** A list of entries with no space around them, none of them empty. *)
Definition trimmed (l : list string) : Prop := Forall (fun s => s <> "" /\ trim_space s = s) l.
Lemma trimmed_fix l : trimmed l -> nonempty (trim_space <$> l) = l.
Proof.
  unfold nonempty. induction 1 as [|s l [Hne Ht] _ IH]; [done|]. rewrite fmap_cons, Ht, filter_cons_True by done. by rewrite IH.
Qed.
Lemma trimAll_trimmed l : trimmed (trimAll l).
Proof.
  apply Forall_forall. unfold trimAll. intros s [Hne (x & -> & _)%list_elem_of_fmap]%list_elem_of_filter.
  split; [done|apply trim_space_idem].
Qed.
Lemma scalars_seq msg l n : seq_node l n -> scalars msg (n_Content n) = Ok l.
Proof.
  intros [_ H]. apply first_err_ok. apply Forall2_flip. eapply Forall2_impl; [done|]. intros s c [Hk Hv]. simpl.
  by rewrite bool_decide_eq_true_2, Hv.
Qed.
Lemma read_list svc field l n : seq_node l n -> trimmed l -> normalizeStringList svc field n = Ok l.
Proof.
  intros Hs Ht. unfold normalizeStringList. rewrite (proj1 Hs), (scalars_seq _ l) by done. cbn [mbind result_bind].
  by rewrite trimmed_fix.
Qed.
Lemma read_names svc field l n : seq_node l n -> trimmed l -> names_of svc field n = Ok l.
Proof. intros Hs Ht. unfold names_of. rewrite (proj1 Hs), bool_decide_eq_false_2 by done. by apply read_list. Qed.
Lemma read_command svc field l n : seq_node l n -> normalizeCommand svc field n = Ok l.
Proof. intros Hs. unfold normalizeCommand. by rewrite (proj1 Hs), (scalars_seq _ l). Qed.
Lemma read_env svc l n : seq_node l n -> trimmed l -> Forall (fun e => contains_char "=" e = true) l ->
  normalizeEnvironment svc n = Ok l.
Proof.
  intros Hs Ht He. unfold normalizeEnvironment. rewrite (proj1 Hs), (scalars_seq _ l) by done. cbn [mbind result_bind].
  rewrite trimmed_fix by done. f_equal. clear Hs Ht. induction He as [|e l Hc _ IH]; [done|]. rewrite fmap_cons, Hc. by rewrite IH.
Qed.

(** A service whose strings the parser leaves as they are. *)
Record settled (svc : Service) : Prop := {
  st_image : trim_space (sv_Image svc) = sv_Image svc;
  st_container : trim_space (sv_ContainerName svc) = sv_ContainerName svc;
  st_restart : trim_space (sv_Restart svc) = sv_Restart svc;
  st_lists : trimmed (sv_Ports svc) /\ trimmed (sv_Volumes svc) /\ trimmed (sv_Networks svc) /\ trimmed (sv_DependsOn svc);
  st_env : trimmed (sv_Environment svc) /\ Forall (fun e => contains_char "=" e = true) (sv_Environment svc) }.

Lemma known_keys kvs : (forall kv, kv ∈ kvs -> n_Value kv.1 ∈ service_keys) ->
  list_find (fun kv : node * node => n_Value kv.1 ∉ knownServiceKeys) kvs = None.
Proof.
  intros H. apply list_find_None, Forall_forall. intros kv Hkv Hn. apply H in Hkv. apply Hn. revert Hkv.
  unfold service_keys, knownServiceKeys. rewrite !elem_of_cons, elem_of_nil. naive_solver.
Qed.
Lemma decode_written node_decode name svc n : service_node node_decode svc n -> settled svc ->
  decodeService node_decode name n = Ok svc.
Proof.
  intros [Hk Hks (rs & Hd & Hi & Hc & Hr & Hp & He & Hv & Hn & Hcm & Hdp)] [Ti Tc Tr (Tp & Tv & Tn & Td) (Te & Te')].
  unfold decodeService. rewrite Hk, bool_decide_eq_false_2 by done. rewrite Hd. unfold strictUnknownKeys. rewrite Hk, known_keys by done.
  unfold normalizeNetworks, normalizeDependsOn.
  cbn [mbind result_bind]. rewrite (read_env name _ _ He Te Te'). cbn [mbind result_bind]. rewrite (read_list name "ports" _ _ Hp Tp). cbn [mbind result_bind].
  rewrite (read_list name "volumes" _ _ Hv Tv). cbn [mbind result_bind]. rewrite (read_names name "networks" _ _ Hn Tn). cbn [mbind result_bind].
  rewrite (read_command name "command" _ _ Hcm). cbn [mbind result_bind]. rewrite (read_names name "depends_on" _ _ Hdp Td).
  cbn [mbind result_bind]. rewrite Hi, Hc, Hr, Ti, Tc, Tr. by destruct svc.
Qed.

Lemma validate_service_wf m n svc : service_wf m n svc -> validate_service m n svc = Ok tt.
Proof.
  intros [_ Hi Hc Hd]. unfold validate_service. rewrite bool_decide_eq_false_2 by done.
  assert (negb (bool_decide (sv_ContainerName svc = "")) && negb (validContainerName (sv_ContainerName svc)) = false) as ->.
  { destruct Hc as [->| ->]; [done|]. by rewrite andb_false_r. }
  assert (first_err (fun dep => if negb (bool_decide (is_Some (m !! dep)))
      then Err ("Service " +:+ quote n +:+ " depends_on unknown service " +:+ quote dep +:+ ".")
      else if bool_decide (dep = n) then Err ("Service " +:+ quote n +:+ " cannot depend on itself.") else Ok tt) (sv_DependsOn svc)
    = Ok ((fun _ => tt) <$> sv_DependsOn svc)) as ->; [|done].
  apply first_err_ok. rewrite Forall2_fmap_r. apply Forall_Forall2_diag, Forall_forall. intros d Hin.
  destruct (Hd d Hin) as [H1 H2]. by rewrite bool_decide_eq_true_2, bool_decide_eq_false_2.
Qed.

Lemma svc_of_some m n svc : m !! n = Some svc -> svc_of m n = svc.
Proof. unfold svc_of. by intros ->. Qed.
(** A well-formed model is read back from the document that is written for it. *)
Lemma parse_written range yaml_decode node_decode yaml_marshal m :
  YamlLaws yaml_decode node_decode yaml_marshal -> range_ok range -> m <> ∅ -> texts m ->
  (forall n svc, m !! n = Some svc -> service_wf m n svc /\ settled svc) ->
  exists doc, yaml_marshal m = Some doc /\ Parse range yaml_decode node_decode doc = Ok m.
Proof.
  intros [Hy] Hr Hne Ht Hwf. destruct (Hy m Hne Ht) as (doc & nodes & Hm & Hd & Hn & Hdom & Hs). exists doc. split; [done|].
  unfold Parse. rewrite bool_decide_eq_false_2, Hn by done.
  assert (nodes <> ∅) as Hnn.
  { intros ->. destruct (map_choose m Hne) as (n & svc & Hsv). destruct (proj2 (Hdom n)) as [x Hx]; [by eexists|]. by rewrite lookup_empty in Hx. }
  rewrite bool_decide_eq_false_2 by done.
  set (out := (fun kv : string * node => (kv.1, svc_of m kv.1)) <$> range _ nodes).
  assert (forall n nd, (n, nd) ∈ range _ nodes <-> nodes !! n = Some nd) as Hin.
  { intros n nd. rewrite (Hr _ nodes). apply elem_of_map_to_list. }
  match goal with |- (first_err ?f _ ≫= _) = _ => assert (first_err f (range _ nodes) = Ok out) as -> end.
  { apply first_err_ok. unfold out. rewrite Forall2_fmap_r. apply Forall_Forall2_diag, Forall_forall. intros [n nd] Hkv. simpl.
    apply Hin in Hkv. destruct (proj1 (Hdom n)) as [svc Hsv]; [by eexists|]. destruct (Hwf n svc Hsv) as [[Hname _ _ _] Hset].
    rewrite Hname. cbn [negb]. rewrite (decode_written _ _ svc) by eauto. cbn [mbind result_bind]. unfold svc_of. by rewrite Hsv. }
  cbn [mbind result_bind].
  assert ((list_to_map out : Model) = m) as Hout.
  { assert (NoDup out.*1) as Hnd.
    { unfold out. rewrite <- list_fmap_compose. change (NoDup (range _ nodes).*1).
      assert ((range _ nodes).*1 ≡ₚ (map_to_list nodes).*1) as Hp by (apply fmap_Permutation, Hr). rewrite Hp. apply NoDup_fst_map_to_list. }
    apply map_eq. intros n. apply option_eq. intros svc. rewrite <- (elem_of_list_to_map out n svc Hnd). unfold out. split.
    - intros ([k nd] & [= -> ->] & Hkv)%list_elem_of_fmap. apply Hin in Hkv. destruct (proj1 (Hdom k)) as [svc Hsv]; [by eexists|].
      unfold svc_of. simpl. by rewrite Hsv.
    - intros Hsv. destruct (proj2 (Hdom n)) as [nd Hnd']; [by eexists|]. apply list_elem_of_fmap. exists (n, nd).
      split; [cbn [fst]; by rewrite (svc_of_some m n svc Hsv)|by apply Hin]. }
  rewrite Hout. unfold validate.
  assert (first_err (fun kv => validate_service m kv.1 kv.2) (range _ m) = Ok ((fun _ => tt) <$> range _ m)) as ->; [|done].
  apply first_err_ok. rewrite Forall2_fmap_r. apply Forall_Forall2_diag, Forall_forall. intros [n svc] Hkv. simpl.
  rewrite (Hr _ m) in Hkv. apply elem_of_map_to_list in Hkv. by apply validate_service_wf, Hwf.
Qed.

(** ** What the builder writes *)

Lemma trim_right_keep a s : every plain a = true -> trim_right s = s -> trim_right (a +:+ s) = a +:+ s.
Proof.
  induction a as [|c a IH]; [done|]. cbn [every]. intros [Hc Ha]%andb_true_iff Hs.
  change (String c a +:+ s) with (String c (a +:+ s)). cbn [trim_right]. by rewrite (all_spaces_plain c), IH.
Qed.
Lemma trim_space_keep a s : a <> "" -> every plain a = true -> trim_right s = s -> trim_space (a +:+ s) = a +:+ s.
Proof.
  intros Hne Ha Hs. unfold trim_space. rewrite trim_left_id; [by apply trim_right_keep|].
  destruct a as [|c a]; [done|]. cbn [every] in Ha. apply andb_true_iff in Ha as [Hc _]. by apply strip_space_plain.
Qed.
Lemma plain_trimmed {A} (f : A -> string) l : Forall (fun x => f x <> "" /\ every plain (f x) = true) l -> trimmed (f <$> l).
Proof.
  intros H. apply Forall_fmap. eapply Forall_impl; [exact H|]. intros x [Hne Hp]. split; [done|by apply trim_space_plain].
Qed.

Lemma builder_ports_trimmed ps : Forall port_ok ps -> trimmed (builderPortStrings ps).
Proof.
  intros H. unfold builderPortStrings. rewrite filter_all by (eapply Forall_impl; [done|]; intros p ((? & ?) & _); simpl; lia).
  apply plain_trimmed. eapply Forall_impl; [done|]. intros p Hp. rewrite builder_port_string by done. split.
  - unfold port_body. destruct Hp as ((? & ?) & (? & ?) & _). destruct (Z.ltb_spec 0 (pm_Host p)).
    + pose proof (itoa_nonempty (pm_Host p) ltac:(lia)). by destruct (itoa (pm_Host p)).
    + pose proof (itoa_nonempty (pm_Container p) ltac:(lia)). by destruct (itoa (pm_Container p)).
  - rewrite every_app, (port_body_every plain) by (done || apply digit_plain). destruct Hp as (_ & _ & Hp). unfold proto_suffix.
    repeat (apply elem_of_cons in Hp as [->|Hp]; [by vm_compute|]). by apply elem_of_nil in Hp.
Qed.
Lemma builder_volumes_trimmed vs : Forall vol_ok vs -> trimmed (builderVolumeStrings vs).
Proof.
  intros H. unfold builderVolumeStrings.
  rewrite filter_all.
  2: { eapply Forall_impl; [done|]. intros v (Hne & Hv). rewrite !andb_true_iff in Hv. by rewrite trim_space_plain by apply Hv. }
  apply plain_trimmed. eapply Forall_impl; [done|]. intros [src t] (Hne & Hv). rewrite !andb_true_iff in Hv.
  destruct Hv as (((Ht & _) & Hs) & _). cbn [vo_Target vo_Source] in *. rewrite !trim_space_plain by done.
  case_bool_decide; [done|]. split; [by destruct src|]. by rewrite !every_app, Hs, Ht.
Qed.
Lemma builder_env_trimmed env : Forall env_ok env -> Forall (fun e => trim_right e.2 = e.2) env ->
  trimmed (builderEnvStrings env) /\ Forall (fun e => contains_char "=" e = true) (builderEnvStrings env).
Proof.
  intros H Hv. unfold builderEnvStrings.
  rewrite filter_all.
  2: { eapply Forall_impl; [exact H|]. intros v (Hne & Hk). rewrite !andb_true_iff in Hk. by rewrite trim_space_plain by apply Hk. }
  assert (forall e, e ∈ env -> trim_space e.1 +:+ "=" +:+ e.2 <> "" /\ trim_space (trim_space e.1 +:+ "=" +:+ e.2) = trim_space e.1 +:+ "=" +:+ e.2
    /\ contains_char "=" (trim_space e.1 +:+ "=" +:+ e.2) = true) as He.
  { intros [k v] Hin. rewrite Forall_forall in H, Hv. destruct (H _ Hin) as [Hne Hk]. apply Hv in Hin. simpl in *.
    rewrite !andb_true_iff in Hk. destruct Hk as [Hp _]. rewrite (trim_space_plain k) by done. split_and!; [by destruct k| |].
    - apply trim_space_keep; [done..|]. change ("=" +:+ v) with ("=" +:+ v). by apply (trim_right_keep "=").
    - clear. induction k as [|c k IH]; [done|]. simpl. by rewrite IH, orb_true_r. }
  split; apply Forall_fmap, Forall_forall; intros e Hin; [split; by apply He|by apply He].
Qed.

Record builder_ok (services : list builderService) (b : builderService) : Prop := {
  bo_name : validServiceName (trim_space (bd_Name b)) = true;
  bo_container : trim_space (bd_ContainerName b) = "" \/ validContainerName (trim_space (bd_ContainerName b)) = true;
  bo_ports : Forall port_ok (bd_Ports b);
  bo_volumes : Forall vol_ok (bd_Volumes b);
  bo_env : Forall env_ok (bd_Env b);
  bo_values : Forall (fun e => trim_right e.2 = e.2) (bd_Env b);
  bo_deps : forall d, d ∈ trimAll (bd_DependsOn b) ->
    d <> trim_space (bd_Name b) /\ exists b', b' ∈ services /\ trim_space (bd_Name b') = d }.

Lemma builder_settled services b : builder_ok services b -> settled (builder_service b).
Proof.
  intros [_ _ Hp Hv He Ht _]. constructor; cbn [builder_service sv_Image sv_ContainerName sv_Restart sv_Ports sv_Volumes sv_Networks sv_DependsOn sv_Environment];
    try apply trim_space_idem.
  - split_and!; [by apply builder_ports_trimmed|by apply builder_volumes_trimmed|apply trimAll_trimmed..].
  - by apply builder_env_trimmed.
Qed.

Lemma builder_add_err services e : foldl builder_add (Err e) services = Err e.
Proof. induction services as [|b l IH]; [done|exact IH]. Qed.
(** The services of an accepted request, by name. *)
Lemma builder_add_ok services m0 m : foldl builder_add (Ok m0) services = Ok m ->
  (forall n svc, m !! n = Some svc <-> m0 !! n = Some svc \/ exists b, b ∈ services /\ n = trim_space (bd_Name b) /\ svc = builder_service b) /\
  Forall (fun b => trim_space (bd_Image b) <> "") services.
Proof.
  revert m0. induction services as [|b services IH]; intros m0; [intros [= <-]; split; [set_solver|done]|].
  cbn [foldl]. unfold builder_add at 2. cbn [mbind result_bind].
  repeat case_bool_decide; try (rewrite builder_add_err; done). intros Hf. destruct (IH _ Hf) as [Hm Hi]. split; [|by constructor].
  intros n svc. rewrite Hm. split.
  - intros [[[<- <-]|[_ Hn]]%lookup_insert_Some|(b' & Hb & Hn)]; [right; exists b; set_solver|by left|right; exists b'; set_solver].
  - intros [Hn|(b' & [->|Hb]%elem_of_cons & -> & ->)].
    + left. apply lookup_insert_Some. right. split; [|done]. intros Heq. rewrite Heq in *. destruct (m0 !! n) eqn:E; [|done].
      match goal with Hx : ~ is_Some _ |- _ => apply Hx; by eexists end.
    + left. apply lookup_insert_Some. by left.
    + right. by exists b'.
Qed.
Lemma builder_model_ok services m : builder_model services = Ok m ->
  m <> ∅ /\ (forall n svc, m !! n = Some svc <-> exists b, b ∈ services /\ n = trim_space (bd_Name b) /\ svc = builder_service b) /\
  Forall (fun b => trim_space (bd_Image b) <> "") services.
Proof.
  unfold builder_model. destruct services as [|b services]; [done|]. intros [Hm Hi]%builder_add_ok.
  assert (forall n svc, m !! n = Some svc <-> exists b', b' ∈ b :: services /\ n = trim_space (bd_Name b') /\ svc = builder_service b') as Hm'.
  { intros n svc. rewrite Hm. split; [intros [Hx|Hx]; [by apply (lookup_empty_Some (M := gmap string)) in Hx|done]|by right]. }
  split_and!; [|done|done]. intros ->.
  assert ((∅ : Model) !! trim_space (bd_Name b) = Some (builder_service b)) as Hx by (apply Hm'; exists b; set_solver).
  by apply (lookup_empty_Some (M := gmap string)) in Hx.
Qed.
Lemma builder_wf services m : builder_model services = Ok m -> Forall (builder_ok services) services ->
  forall n svc, m !! n = Some svc -> service_wf m n svc /\ settled svc.
Proof.
  intros Hm Hok n svc Hn. destruct (builder_model_ok _ _ Hm) as (_ & Hs & Hi). pose proof Hn as (b & Hb & -> & ->)%Hs.
  rewrite Forall_forall in Hok, Hi. pose proof (Hok b Hb) as Hbo. split; [|by eapply builder_settled].
  destruct Hbo as [Hname Hcont _ _ _ _ Hd]. constructor; cbn [builder_service sv_Image sv_ContainerName sv_DependsOn]; [done|by apply Hi|done|].
  intros d Hin. destruct (Hd d Hin) as [Hne (b' & Hb' & <-)]. split; [|done]. eexists. apply Hs. by exists b'.
Qed.

(** A well-formed model with an order is planned, a spec for every service. *)
Lemma planned range project m : range_ok range -> SanitizeProjectName project <> "" -> forall o, valid_order m o ->
  (forall n svc, m !! n = Some svc ->
     (exists ps, parsePorts n (sv_Ports svc) = Ok ps) /\ exists vs, parseVolumes n (sv_Volumes svc) = Ok vs) ->
  exists p, BuildPlan range project m = Some (Ok p) /\
    exists order, order ≡ₚ names_of_model m /\
      Forall2 (fun n s => spec_for (SanitizeProjectName project) n (svc_of m n) s) order (pl_Specs p).
Proof.
  intros Hr Hp o Ho Hparse. destruct (plan_spec range project m Hr) as ([p|e] & Hb & H).
  - exists p. split; [done|]. destruct H as (_ & _ & order & ([Hperm _] & _) & Hs & _). by exists order.
  - exfalso. destruct H as [H|[H|(n & [svc Hn] & He)]]; [done|by eapply H|].
    rewrite (svc_of_some _ _ _ Hn) in He. destruct (Hparse n svc Hn) as [[ps Hps] [vs Hvs]]. destruct He; congruence.
Qed.

(** ** A library that keeps the promise *)

Module DemoYaml.
(** A document is the bits of its model, after a letter. *)
Fixpoint bits (p : positive) : string :=
  match p with xH => "" | xO p => String "0" (bits p) | xI p => String "1" (bits p) end.
Fixpoint unbits (s : string) : positive :=
  match s with "" => xH | String c s => if Ascii.eqb c "0" then xO (unbits s) else xI (unbits s) end.
Lemma unbits_bits p : unbits (bits p) = p.
Proof. induction p as [p IH|p IH|]; simpl; congruence. Qed.
#[global] Instance Service_eq_dec : EqDecision Service.
Proof. solve_decision. Defined.
#[global] Instance Service_countable : Countable Service.
Proof.
  apply (inj_countable' (fun s => (sv_Image s, sv_ContainerName s, sv_Ports s, sv_Environment s, sv_Volumes s,
           sv_Networks s, sv_Restart s, sv_Command s, sv_DependsOn s))
         (fun '(i, c, p, e, v, n, r, m, d) => mkService i c p e v n r m d)). by intros [].
Defined.
Definition demo_marshal (m : Model) : option string := Some (String "m" (bits (countable.encode (m : gmap string Service)))).

Definition str (s : string) : node := mkNode KScalar "!!str" s [].
Definition seq (l : list string) : node := mkNode KSequence "!!seq" "" (str <$> l).
(** A service as the mapping of its tags. *)
Definition demo_service_node (s : Service) : node :=
  mkNode KMapping "!!map" "" [
    str "image"; str (sv_Image s); str "container_name"; str (sv_ContainerName s); str "ports"; seq (sv_Ports s);
    str "environment"; seq (sv_Environment s); str "volumes"; seq (sv_Volumes s); str "networks"; seq (sv_Networks s);
    str "restart"; str (sv_Restart s); str "command"; seq (sv_Command s); str "depends_on"; seq (sv_DependsOn s)].
Definition demo_unmarshal (src : string) : result string (gmap string node) :=
  match countable.decode (unbits (string_drop 1 src)) : option (gmap string Service) with
  | Some m => Ok (demo_service_node <$> m)
  | None => Err "not a document"
  end.
Definition field (n : node) (key : string) : node :=
  match list_find (fun kv => n_Value kv.1 = key) (node_pairs (n_Content n)) with Some (_, kv) => kv.2 | None => zero_node end.
Definition demo_node_decode (n : node) : result string rawService :=
  Ok (mkRaw (n_Value (field n "image")) (n_Value (field n "container_name")) (field n "ports") (field n "environment")
        (field n "volumes") (field n "networks") (n_Value (field n "restart")) (field n "command") (field n "depends_on")).
Lemma seq_seq l : seq_node l (seq l).
Proof. split; [done|]. apply Forall2_fmap_r, Forall_Forall2_diag, Forall_forall. by intros s _. Qed.
#[global] Instance demo_yaml_laws : YamlLaws demo_unmarshal demo_node_decode demo_marshal.
Proof.
  constructor. intros m _ _. eexists _, (demo_service_node <$> (m : gmap string Service)). split; [reflexivity|]. split; [|split; [|split]].
  - intros E. assert (trim_right (String "m" (bits (countable.encode (m : gmap string Service)))) = "") as E'; [|].
    { unfold trim_space in E. rewrite trim_left_id in E by by apply strip_space_plain. exact E. }
    cbn [trim_right] in E'. by rewrite all_spaces_plain in E'.
  - unfold demo_unmarshal. cbn [string_drop]. by rewrite unbits_bits, countable.decode_encode.
  - intros n. by rewrite lookup_fmap, fmap_is_Some.
  - intros n svc nd Hn Hnd. rewrite lookup_fmap in Hnd. apply fmap_Some in Hnd as (svc' & Hn' & ->). assert (svc' = svc) as -> by (unfold Model in *; congruence). constructor; [done| |].
    + intros kv Hkv. unfold service_keys. simpl in Hkv. set_solver.
    + eexists. split; [reflexivity|]. cbn. split_and!; try done; apply seq_seq.
Qed.
End DemoYaml.
