(* ===== verification/StackFacts.v ===== *)
(** * Facts about the calls the deployment handlers make

    [emits] and [hemits] say what a provider method or a handler adds to the log
    of daemon calls; [deploys] is what deploying one service adds. *)
From S2P Require Import Prelude GoStd GoFacts AuthStore Rbac Redact Middleware Compose ComposeFacts Docker Stacks.

Section Emits.
Context {D : Type}.

(** Whatever the outcome, the log grows by calls that satisfy [Q]. *)
Definition emits {E A} (Q : anycall -> Prop) (m : DM D E A) : Prop :=
  forall s r s', m s = (r, s') -> exists new, s'.2 = s.2 ++ new /\ Forall Q new.

Lemma emits_ret {E A} Q (a : A) : emits Q (mret a : DM D E A).
Proof. intros s r s' [= <- <-]. exists []. by rewrite app_nil_r. Qed.
Lemma emits_fail {E A} Q (e : E) : emits Q (fail e : DM D E A).
Proof. intros s r s' [= <- <-]. exists []. by rewrite app_nil_r. Qed.
Lemma emits_bind {E A B} Q (m : DM D E A) (f : A -> DM D E B) :
  emits Q m -> (forall a, emits Q (f a)) -> emits Q (m ≫= f).
Proof.
  intros Hm Hf s r s'. unfold mbind, DM_bind. destruct (m s) as [[a|e] s1] eqn:E1.
  - intros H2. apply Hm in E1 as (n1 & E1 & Q1). apply Hf in H2 as (n2 & E2 & Q2).
    exists (n1 ++ n2). rewrite E2, E1, app_assoc. split; [done|]. by apply Forall_app.
  - intros [= <- <-]. by eapply Hm.
Qed.
Context (daemon : forall A, call A -> D -> result derr A * D).
Lemma emits_try {E A} (Q : anycall -> Prop) (c : call A) : (forall r, Q (Called c r)) -> emits (E := E) Q (try daemon c).
Proof.
  intros HQ s r s'. unfold try. destruct (daemon A c s.1) as [a d]. intros [= <- <-].
  exists [Called c a]. split; [done|]. by constructor.
Qed.
Lemma emits_perform {E A} (Q : anycall -> Prop) (c : call A) (f : derr -> E) :
  (forall r, Q (Called c r)) -> emits Q (perform daemon c f).
Proof.
  intros HQ. apply emits_bind; [by apply emits_try|]. intros [a|e]; [apply emits_ret|apply emits_fail].
Qed.
Lemma emits_mono {E A} (P Q : anycall -> Prop) (m : DM D E A) :
  emits P m -> (forall c, P c -> Q c) -> emits Q m.
Proof.
  intros Hm HPQ s r s' H. destruct (Hm _ _ _ H) as (new & E1 & F). exists new. split; [done|].
  by eapply Forall_impl.
Qed.
End Emits.

Create HintDb emits.
#[export] Hint Resolve emits_ret emits_fail emits_bind emits_try emits_perform : emits.

(** ** Host paths, as they may be written *)

Definition separator (c : ascii) : Prop := c = "/"%char \/ c = backslash.
Definition letter (c : ascii) : Prop := (65 <= N_of_ascii c <= 90)%N \/ (97 <= N_of_ascii c <= 122)%N.
(** [a] may stand for [b]: in either case, a separator for a separator. *)
Definition same_char (a b : ascii) : Prop := b = lower_byte a \/ (separator a /\ b = "/"%char).
(** [s] writes [p] or a path under it. *)
Definition spelled (s p : string) : Prop :=
  exists body rest, s = body +:+ rest /\
    Forall2 same_char (String.list_ascii_of_string body) (String.list_ascii_of_string p) /\
    (rest = "" \/ exists c r, rest = String c r /\ separator c).
(** The paths no container gets, from the comment of mounts.go and its list. *)
Definition protected_paths : list string :=
  ["/etc"; "/root"; "/home"; "/boot"; "/proc"; "/sys"; "/dev"; "/run"; "/var/run"; "/var/lib/docker";
   "/run/docker.sock"; "/var/run/docker.sock"].
Definition protected_source (src : string) : Prop :=
  let s := trim_space src in
  (exists p, p ∈ protected_paths /\ spelled s p) \/
  (s <> "" /\ Forall separator (String.list_ascii_of_string s)).
(** What Docker takes for a path of the host: an absolute path, of Unix or Windows. *)
Definition host_source (src : string) : Prop :=
  exists c s, trim_space src = String c s /\
    (separator c \/ (letter c /\ exists e s', s = String ":" (String e s') /\ separator e)).

Lemma separator_spec c : slash_or_backslash c = true <-> separator c.
Proof.
  unfold slash_or_backslash, separator. rewrite orb_true_iff, !Ascii.eqb_eq. tauto.
Qed.
Lemma letter_spec c : isDriveLetter c = true <-> letter c.
Proof.
  unfold isDriveLetter, letter. rewrite orb_true_iff, !andb_true_iff, !N.leb_le. tauto.
Qed.
Lemma isHostPath_spec src : isHostPath src = true <-> host_source src.
Proof.
  unfold isHostPath, host_source. destruct (trim_space src) as [|c s]; [split; [done|by intros (? & ? & ? & _)]|].
  rewrite orb_true_iff, separator_spec. split.
  - intros [H|H]; [by exists c, s; eauto|]. exists c, s. split; [done|]. right.
    destruct s as [|d [|e s']]; [done..|]. rewrite !andb_true_iff, letter_spec, Ascii.eqb_eq, separator_spec in H.
    destruct H as [[H1 ->] H2]. eauto.
  - intros (c' & s' & [= <- <-] & [H|(H & e & t & -> & He)]); [by left|]. right.
    rewrite !andb_true_iff, letter_spec, Ascii.eqb_eq, separator_spec. tauto.
Qed.

Definition slash (c : ascii) : ascii := if Ascii.eqb c backslash then "/"%char else c.
Definition low (c : ascii) : Prop := (N_of_ascii c < 128)%N.

Lemma replace_cons c s pat rep : has_prefix (String c s) pat = false ->
  replace_all (String c s) pat rep = String c (replace_all s pat rep).
Proof. intros H. unfold replace_all. cbn [String.length replace_fuel]. by rewrite H. Qed.
Lemma prefix_high c s b x : low c -> (128 <= N_of_ascii b)%N -> has_prefix (String c s) (String b x) = false.
Proof. unfold low, has_prefix. intros Hc Hb. simpl. destruct (Ascii.ascii_dec b c) as [->|]; [lia|done]. Qed.
Lemma to_lower_cons c s : low c -> to_lower (String c s) = String (lower_byte c) (to_lower s).
Proof.
  intros Hc. unfold to_lower.
  rewrite (replace_cons _ _ kelvin) by (by apply prefix_high). rewrite (replace_cons _ _ dotted_I) by (by apply prefix_high).
  done.
Qed.
Lemma slashes s : replace_all s (String backslash "") "/" = string_map slash s.
Proof.
  induction s as [|c s IH]; [done|]. simpl. unfold slash at 1.
  destruct (Ascii.eqb_spec c backslash) as [->|Hc].
  - unfold replace_all at 1. cbn [String.length replace_fuel].
    assert (has_prefix (String backslash s) (String backslash "") = true) as -> by (by destruct s).
    change (string_drop (String.length (String backslash "")) (String backslash s)) with s.
    change (replace_fuel _ _ _ _) with (replace_all s (String backslash "") "/"). by rewrite IH.
  - rewrite replace_cons, IH; [done|]. unfold has_prefix. cbn [String.prefix]. destruct (Ascii.ascii_dec backslash c) as [E|]; [by destruct Hc|done].
Qed.
Lemma string_map_app f s t : string_map f (s +:+ t) = string_map f s +:+ string_map f t.
Proof. induction s as [|c s IH]; [done|]. simpl. by rewrite IH. Qed.
Lemma trim_right_app set s t : trim_right_set set (s +:+ t) =
  if bool_decide (trim_right_set set t = "") then trim_right_set set s else s +:+ trim_right_set set t.
Proof.
  induction s as [|c s IH]; simpl.
  - by case_bool_decide.
  - rewrite IH. case_bool_decide as E; [done|]. destruct s; simpl; [|done]. by destruct (trim_right_set set t).
Qed.
(** A character of a listed path. *)
Definition listed_char (b : ascii) : bool := bool_decide (N_of_ascii b < 128)%N && negb (Ascii.eqb b backslash).
Lemma lower_low a : low (lower_byte a) -> low a.
Proof.
  unfold low, lower_byte. destruct ((65 <=? N_of_ascii a)%N && (N_of_ascii a <=? 90)%N) eqn:E; [|done].
  apply andb_true_iff in E as [_ E%N.leb_le]. lia.
Qed.
Lemma same_char_slash a b : listed_char b = true -> same_char a b -> low a /\ slash (lower_byte a) = b.
Proof.
  intros [Hb%bool_decide_eq_true Hn]%andb_true_iff [->|[[-> | ->] ->]]; [|done|done].
  split; [by apply lower_low|]. unfold slash. by destruct (Ascii.eqb _ backslash).
Qed.
(** The code's normal form of a source that writes a listed path. *)
Lemma normal_spelled body p rest : every listed_char p = true ->
  Forall2 same_char (String.list_ascii_of_string body) (String.list_ascii_of_string p) ->
  string_map slash (to_lower (body +:+ rest)) = p +:+ string_map slash (to_lower rest).
Proof.
  revert p. induction body as [|a body IH]; intros [|b p] Hp H; inversion H as [|? ? ? ? Hab Ht]; subst; [done|].
  simpl in Hp. apply andb_true_iff in Hp as [Hb Hp]. destruct (same_char_slash a b Hb Hab) as [Ha Hs].
  change (String a body +:+ rest) with (String a (body +:+ rest)). rewrite to_lower_cons by done.
  simpl. by rewrite Hs, (IH _ Hp Ht).
Qed.
Lemma separator_slash c : separator c -> low c /\ slash (lower_byte c) = "/"%char.
Proof. by intros [-> | ->]. Qed.

Definition trims (p : string) : bool :=
  every listed_char p && bool_decide (1 < String.length p)%nat && bool_decide (trim_right_set (Ascii.eqb "/") p = p)
  && negb (bool_decide (p = "/")).
Lemma spelled_normal src p : trims p = true -> spelled (trim_space src) p ->
  normalizeHostPath src = p \/ has_prefix (normalizeHostPath src) (p +:+ "/") = true.
Proof.
  unfold trims. rewrite !andb_true_iff, !bool_decide_eq_true. intros [[[Hl Hn] Ht] _] (body & rest & Hs & Hb & Hr).
  unfold normalizeHostPath. rewrite slashes, Hs.
  assert (trim_space src <> "") as Hne.
  { rewrite Hs. intros E. destruct body; [|done]. inversion Hb as [E1|]. destruct p; [simpl in Hn; lia|done]. }
  rewrite (normal_spelled body p rest Hl Hb).
  assert (string_map slash (to_lower rest) = "" \/ exists t, string_map slash (to_lower rest) = String "/" t) as Hr'.
  { destruct Hr as [-> |(c & r & -> & [Hc Hsl]%separator_slash)]; [by left|right].
    rewrite to_lower_cons by done. simpl. rewrite Hsl. eauto. }
  set (t := string_map slash (to_lower rest)) in *. rewrite (bool_decide_eq_true_2 (1 < _)%nat) by (rewrite append_length; lia).
  assert (p <> "") as Hp by (intros ->; simpl in Hn; lia).
  rewrite trim_right_app, Ht. destruct (decide (trim_right_set (Ascii.eqb "/") t = "")) as [Et|Et].
  - rewrite (bool_decide_eq_true_2 _ Et), (bool_decide_eq_false_2 _ Hp). by left.
  - rewrite (bool_decide_eq_false_2 _ Et). right. destruct Hr' as [E|[t' E]]; [by rewrite E in Et|].
    rewrite bool_decide_eq_false_2 by (by destruct p). rewrite E in *. simpl in Et |- *.
    destruct (trim_right_set (Ascii.eqb "/") t') as [|x y] eqn:E'; [done|].
    apply has_prefix_spec. exists (String x y). by rewrite append_assoc.
Qed.
Lemma separators_normal s : Forall separator (String.list_ascii_of_string s) ->
  trim_right_set (Ascii.eqb "/") (string_map slash (to_lower s)) = "" /\
  String.length (string_map slash (to_lower s)) = String.length s.
Proof.
  induction s as [|c s IH]; intros H; [done|]. inversion H as [|? ? Hc Hs]; subst.
  apply separator_slash in Hc as [Hl Hc]. rewrite to_lower_cons by done. destruct (IH Hs) as [E1 E2].
  simpl. by rewrite Hc, E1, E2.
Qed.
Lemma root_normal src : trim_space src <> "" -> Forall separator (String.list_ascii_of_string (trim_space src)) ->
  normalizeHostPath src = "/".
Proof.
  intros Hne H. unfold normalizeHostPath. rewrite slashes. destruct (trim_space src) as [|c s]; [done|].
  destruct (separators_normal _ H) as [E1 E2].
  destruct (decide (1 < String.length (string_map slash (to_lower (String c s))))%nat) as [Hl|Hl].
  - by rewrite (bool_decide_eq_true_2 _ Hl), E1.
  - rewrite (bool_decide_eq_false_2 _ Hl). rewrite E2 in Hl.
    destruct s; [|simpl in Hl; lia]. inversion H as [|? ? Hc _]; subst.
    apply separator_slash in Hc as [Hlo Hc]. rewrite to_lower_cons by done. simpl. by rewrite Hc.
Qed.

(** The code's list refuses every way of writing a protected path. *)
Lemma protected_blocked src : protected_source src -> isAlwaysBlockedHostPath src = true.
Proof.
  intros H. apply existsb_exists. destruct H as [(p & Hp & Hs)|[Hne Hs]].
  - exists p. assert (Forall (fun p => trims p = true /\ p ∈ alwaysBlockedHostPaths) protected_paths) as Hl.
    { unfold protected_paths. repeat constructor; try (by vm_compute); unfold alwaysBlockedHostPaths; set_solver. }
    rewrite Forall_forall in Hl. destruct (Hl _ Hp) as [Ht Hin]. split; [by apply list_elem_of_In|].
    rewrite bool_decide_eq_false_2. 2:{ intros ->. by vm_compute in Ht. }
    apply orb_true_iff. rewrite bool_decide_eq_true. by apply spelled_normal.
  - exists "/". split; [apply list_elem_of_In; unfold alwaysBlockedHostPaths; set_solver|].
    rewrite bool_decide_eq_true_2 by done. apply bool_decide_eq_true. by apply root_normal.
Qed.

(** A container is only created with host paths that the policy lets through. *)
Definition mounts_allowed (allow : bool) (c : anycall) : Prop :=
  match c with
  | Called (ContainerCreate cfg) _ =>
      forall mt, mt ∈ cc_Mounts cfg -> mt_Type mt = TypeBind \/ host_source (mt_Source mt) ->
        allow = true /\ isAlwaysBlockedHostPath (mt_Source mt) = false
  | _ => True
  end.

Lemma ValidateMounts_ok vols allow u : ValidateMounts vols allow = Ok u ->
  forall v, v ∈ vols -> isHostPath (vo_Source v) = true ->
    allow = true /\ isAlwaysBlockedHostPath (vo_Source v) = false.
Proof.
  unfold ValidateMounts. destruct (first_err _ _) as [ys|e] eqn:E; cbn [mbind result_bind]; [|done].
  intros _ v Hv Hh.
  apply first_err_ok in E. apply list_elem_of_lookup in Hv as [i Hi].
  destruct (Forall2_lookup_l _ _ _ _ _ E Hi) as (y & _ & Hy). cbv beta in Hy. rewrite Hh in Hy. cbn [negb] in Hy.
  destruct (isAlwaysBlockedHostPath (vo_Source v)); [discriminate Hy|]. destruct allow; [by split|discriminate Hy].
Qed.

Lemma buildMounts_bind vols mt : mt ∈ buildMounts vols -> mt_Type mt = TypeBind \/ host_source (mt_Source mt) ->
  exists v, v ∈ vols /\ isHostPath (vo_Source v) = true /\ mt_Source mt = vo_Source v.
Proof.
  intros (v & -> & Hv)%list_elem_of_fmap Ht. apply list_elem_of_filter in Hv as [_ Hv].
  exists v. cbn in *. rewrite <- isHostPath_spec in Ht. split; [done|]. split; [|done].
  by destruct (isHostPath _), Ht.
Qed.

Section Policy.
Context (NewPort : string -> string -> option string) (range : forall A, gmap string A -> list (string * A))
  {D : Type} (daemon : forall A, call A -> D -> result derr A * D).

Lemma create_emits allow spec : ds_AllowHostMounts spec = allow ->
  emits (mounts_allowed allow) (ContainerCreateAndStart NewPort range daemon spec).
Proof.
  intros Ha. unfold ContainerCreateAndStart. case_bool_decide; [apply emits_fail|].
  destruct (ValidateMounts _ _) as [u|e] eqn:Hv; [|apply emits_fail]. rewrite Ha in Hv.
  apply emits_bind.
  { apply emits_bind; [by apply emits_try|]. intros [[|n]|e]; [by apply emits_perform|apply emits_ret|by apply emits_perform]. }
  intros _. destruct (buildPortMaps _ _) as [[ex bi]|]; [|apply emits_fail].
  apply emits_bind.
  { apply emits_perform. intros r mt Hin Ht. destruct (buildMounts_bind _ _ Hin Ht) as (v & Hvin & Hh & ->).
    by eapply ValidateMounts_ok. }
  intros id. apply emits_bind; [by apply emits_try|]. intros [u'|e]; [apply emits_ret|].
  apply emits_bind; [by apply emits_try|]. intros _. apply emits_fail.
Qed.

Lemma ensure_emits Q name labels :
  (forall A (c : call A) r, match c with ContainerCreate _ => True | _ => Q (Called c r) end) ->
  emits Q (EnsureProjectNetwork daemon name labels).
Proof.
  intros HQ. unfold EnsureProjectNetwork. case_bool_decide; [apply emits_fail|].
  apply emits_bind; [apply emits_try; intros r; apply (HQ _ (NetworkInspect name))|].
  intros [id|e]; [apply emits_ret|].
  apply emits_bind; [apply emits_try; intros r; apply (HQ _ (NetworkCreate name labels))|].
  intros [id|e']; [apply emits_ret|].
  apply emits_bind; [apply emits_try; intros r; apply (HQ _ (NetworkInspect name))|].
  intros [id|e'']; [apply emits_ret|apply emits_fail].
Qed.
End Policy.

(** ** Handlers *)

Section Hemits.
Context {D : Type}.

Definition hemits {A} (Q : anycall -> Prop) (m : HM D A) : Prop :=
  forall s r s', m s = (r, s') -> exists new, (sv_docker s').2 = (sv_docker s).2 ++ new /\ Forall Q new.

(** A step that leaves the daemon alone. *)
Definition quiet {A} (m : HM D A) : Prop := forall s, sv_docker (m s).2 = sv_docker s.

Lemma hemits_quiet {A} Q (m : HM D A) : quiet m -> hemits Q m.
Proof. intros Hq s r s' H. exists []. specialize (Hq s). rewrite H in Hq. by rewrite app_nil_r, <- Hq. Qed.
Lemma hemits_bind {A B} Q (m : HM D A) (f : A -> HM D B) :
  hemits Q m -> (forall a, hemits Q (f a)) -> hemits Q (m ≫= f).
Proof.
  intros Hm Hf s r s'. unfold mbind, HM_bind. destruct (m s) as [[a|e] s1] eqn:E1.
  - intros H2. apply Hm in E1 as (n1 & E1 & Q1). apply Hf in H2 as (n2 & E2 & Q2).
    exists (n1 ++ n2). rewrite E2, E1, app_assoc. split; [done|]. by apply Forall_app.
  - intros [= <- <-]. by eapply Hm.
Qed.
(** Binding a value and what is known of it. *)
Lemma hemits_bind_val {A B} Q (m : HM D A) (f : A -> HM D B) :
  hemits Q m -> (forall s a s', m s = (Ok a, s') -> hemits Q (f a)) -> hemits Q (m ≫= f).
Proof.
  intros Hm Hf s r s'. unfold mbind, HM_bind. destruct (m s) as [[a|e] s1] eqn:E1.
  - intros H2. pose proof (Hf _ _ _ E1) as Hfa. apply Hm in E1 as (n1 & E1 & Q1). apply Hfa in H2 as (n2 & E2 & Q2).
    exists (n1 ++ n2). rewrite E2, E1, app_assoc. split; [done|]. by apply Forall_app.
  - intros [= <- <-]. by eapply Hm.
Qed.
Lemma hemits_try {E A} Q (m : DM D E A) : emits Q m -> hemits Q (docker_try m).
Proof.
  intros Hm s r s'. unfold docker_try. destruct (m (sv_docker s)) as [a d] eqn:E1. intros [= <- <-].
  by eapply Hm.
Qed.
Lemma quiet_bind {A B} (m : HM D A) (f : A -> HM D B) : quiet m -> (forall a, quiet (f a)) -> quiet (m ≫= f).
Proof.
  intros Hm Hf s. unfold mbind, HM_bind. specialize (Hm s). destruct (m s) as [[a|e] s1]; [|done].
  by rewrite Hf.
Qed.
Lemma quiet_result {A} (r : result APIError A) : quiet (of_result r).
Proof. done. Qed.
Lemma quiet_ret {A} (a : A) : quiet (mret a).
Proof. done. Qed.
Lemma quiet_err {A} e : quiet (herr e : HM D A).
Proof. done. Qed.
Lemma quiet_get {A} (f : srv D -> A) : quiet (get f).
Proof. done. Qed.
Lemma quiet_guard c e : quiet (hguard (D := D) c e).
Proof. intros s. by destruct c. Qed.
Lemma quiet_audit r f : quiet (audit (D := D) r f).
Proof. intros s. unfold audit. simpl. by destruct (rq_Audited r). Qed.
Lemma quiet_read {A} (f : srv D -> result store_err A) : quiet (store_read f).
Proof. done. Qed.
Lemma quiet_stacks f : quiet (on_stacks (D := D) f).
Proof. intros s. unfold on_stacks. by destruct (f _). Qed.
Lemma quiet_templates f e : quiet (on_templates (D := D) f e).
Proof. intros s. unfold on_templates. by destruct (f _). Qed.
Lemma quiet_uuid g : quiet (NewUUID g (D := D)).
Proof. done. Qed.
Lemma quiet_clock g : quiet (Now g (D := D)).
Proof. done. Qed.
Lemma hemits_docker {A} Q (m : DM D perr A) : emits Q m -> hemits Q (docker m).
Proof. intros Hm. apply hemits_bind; [by apply hemits_try|]. intros a. apply hemits_quiet, quiet_result. Qed.
End Hemits.

#[export] Hint Resolve quiet_result quiet_ret quiet_err quiet_get quiet_guard quiet_audit quiet_read quiet_stacks
  quiet_templates quiet_uuid quiet_clock : emits.

(** Walk through a handler or method; what is left are the calls themselves. *)
Ltac emits_walk :=
  repeat match goal with
  | |- forall _, _ => intros ?
  | |- emits _ (mret _) => apply emits_ret
  | |- emits _ (fail _) => apply emits_fail
  | |- emits _ (try _ _) => apply emits_try
  | |- emits _ (perform _ _ _) => apply emits_perform
  | |- emits _ (_ ≫= _) => apply emits_bind
  | |- emits _ (match ?x with _ => _ end) => destruct x
  | |- hemits _ (docker _) => apply hemits_docker
  | |- hemits _ (docker_try _) => apply hemits_try
  | |- hemits _ _ => apply hemits_quiet; solve [auto with emits]
  | |- hemits _ (_ ≫= _) => apply hemits_bind_val
  | |- hemits _ (match ?x with _ => _ end) => destruct x
  end.

(** A predicate that holds of every call but a container's creation. *)
Definition harmless (Q : anycall -> Prop) : Prop :=
  forall A (c : call A) r, match c with ContainerCreate _ => True | _ => Q (Called c r) end.
Lemma mounts_harmless allow : harmless (mounts_allowed allow).
Proof. intros A c r. by destruct c. Qed.

Section Served.
Context (range : forall A, gmap string A -> list (string * A)) (NewPort : string -> string -> option string)
  (yaml_decode : string -> result string (gmap string node)) (node_decode : node -> result string rawService)
  (yaml_marshal : Model -> option string) (parse_labels : string -> option (list string))
  (known_host : string -> bool) (find_workload : string -> string -> option Workload)
  (registry : string -> option provider_kind) (builtin : string -> option resolvedTemplate)
  (clock : nat -> Z) (uuid : nat -> string) (guardian : Guard)
  {D : Type} (daemon : forall A, call A -> D -> result derr A * D).

Ltac harm Hq := intros; match goal with |- _ (Called ?c ?r) => exact (Hq _ c r) end.

Lemma connect_emits Q ex id al names : harmless Q -> emits Q (connect_all daemon ex id al names).
Proof. intros Hq. induction names as [|n names IH]; simpl; unfold ConnectToNetwork; emits_walk; try done; harm Hq. Qed.
Lemma networks_emits Q labels ids names : harmless Q -> emits Q (ensure_networks daemon labels ids names).
Proof.
  intros Hq. revert ids. induction names as [|n names IH]; intros ids; cbn [ensure_networks]; emits_walk; [|done].
  by apply ensure_emits.
Qed.
Lemma remove_all_emits Q l : harmless Q -> emits Q (remove_all daemon l).
Proof.
  intros Hq. induction l as [|c l IH]; cbn [remove_all]; unfold StopAndRemoveContainer; emits_walk; try done; harm Hq.
Qed.
Lemma remove_network_emits Q n : harmless Q -> emits Q (RemoveNetworkByName daemon n).
Proof. intros Hq. unfold RemoveNetworkByName. emits_walk; harm Hq. Qed.
Lemma remove_networks_emits Q l : harmless Q -> emits Q (remove_networks daemon l).
Proof.
  intros Hq. induction l as [|n l IH]; intros s r s'; cbn [remove_networks]; [by intros H; eapply emits_ret|].
  intros H2. destruct (RemoveNetworkByName daemon n s) as [a s1] eqn:E1. simpl in H2.
  apply (remove_network_emits Q n Hq) in E1 as (n1 & E1 & Q1). apply IH in H2 as (n2 & E2 & Q2).
  exists (n1 ++ n2). rewrite E2, E1, app_assoc. split; [done|]. by apply Forall_app.
Qed.
Lemma list_emits Q p : harmless Q -> emits Q (ListProjectContainers daemon p).
Proof. intros Hq. unfold ListProjectContainers. emits_walk. harm Hq. Qed.

Lemma failing_emits {A} Q status (m : DM D perr A) : emits Q m -> emits Q (failing status m).
Proof.
  intros Hm s r s'. unfold failing. destruct (m s) as [[a|e] s1] eqn:E1; intros [= <- <-]; by eapply Hm.
Qed.

Lemma deploy_one_emits Q p net ex k spec :
  harmless Q -> emits Q (ContainerCreateAndStart NewPort range daemon spec) ->
  emits Q (deploy_one range NewPort daemon p net ex k spec).
Proof.
  intros Hq Hc s r s'. unfold deploy_one.
  destruct (ContainerCreateAndStart _ _ _ _ s) as [[id|e] s1] eqn:E1; apply Hc in E1 as (n1 & E1 & Q1); [|intros [= <- <-]; by exists n1].
  destruct (ConnectToNetwork _ _ _ _ s1) as [[u|e] s2] eqn:E2.
  all: eapply (emits_perform daemon Q) in E2 as (n2 & E2 & Q2); [|harm Hq].
  2: { intros [= <- <-]. exists (n1 ++ n2). rewrite E2, E1, app_assoc. split; [done|]. by apply Forall_app. }
  destruct (connect_all _ _ _ _ _ s2) as [[u'|e] s3] eqn:E3; apply (connect_emits Q) in E3 as (n3 & E3 & Q3); try done;
    intros [= <- <-]; exists (n1 ++ n2 ++ n3); rewrite E3, E2, E1, !app_assoc; (split; [done|]); by rewrite !Forall_app.
Qed.

Lemma deployPlan_emits Q p :
  harmless Q -> (forall spec, spec ∈ pl_Specs p -> emits Q (ContainerCreateAndStart NewPort range daemon spec)) ->
  emits Q (deployPlan range NewPort daemon p).
Proof.
  intros Hq Hc. unfold deployPlan. apply emits_bind; [by apply failing_emits, ensure_emits|]. intros net.
  apply emits_bind; [by apply failing_emits, networks_emits|]. intros ex.
  generalize 0%nat. induction (pl_Specs p) as [|spec specs IH]; intros k; cbn [deploy_specs]; [apply emits_ret|].
  apply emits_bind; [apply deploy_one_emits; [done|]; apply Hc; by left|]. intros _. apply IH.
  intros sp Hsp. apply Hc. by right.
Qed.

Lemma authorize_spec r paths req msg s a s' : authorize_mounts (D := D) r paths req msg s = (Ok a, s') -> a = is_admin r && req.
Proof.
  unfold authorize_mounts. destruct (_ && _).
  - unfold mbind, HM_bind. repeat (destruct (audit _ _ _) as [[]?] || case_bool_decide; simpl); done.
  - unfold mbind, HM_bind. case_bool_decide; [by intros [= <- _]|]. destruct (audit _ _ _) as [[]?]; [|done]. by intros [= <- _].
Qed.
Lemma quiet_authorize r paths req msg : quiet (authorize_mounts (D := D) r paths req msg).
Proof.
  intros s. unfold authorize_mounts, mbind, HM_bind, audit. destruct (_ && _), (bool_decide _), (rq_Audited r); done.
Qed.

Definition opted_in (o : op) : bool :=
  match o with
  | OCreateStack (Ok q) => cs_AllowHostMounts q
  | ODeployTemplate (Ok q) => dr_AllowHostMounts q
  | _ => false
  end.


Lemma specs_flagged r p req s q s' spec :
  authorizePlanHostMounts (D := D) r p req s = (Ok q, s') -> spec ∈ pl_Specs q ->
  ds_AllowHostMounts spec = is_admin r && req.
Proof.
  unfold authorizePlanHostMounts, mbind at 1, HM_bind. destruct (authorize_mounts _ _ _ _ _) as [[a|e] s1] eqn:E; [|done].
  apply authorize_spec in E as ->. intros [= <- _] (sp & -> & _)%list_elem_of_fmap. done.
Qed.
Lemma quiet_authorize_plan r p req : quiet (authorizePlanHostMounts (D := D) r p req).
Proof.
  intros s. unfold authorizePlanHostMounts, mbind, HM_bind.
  pose proof (quiet_authorize r (Plan_HostMountSources p) req
    "This stack declares host bind mounts, which require administrator privileges; use named volumes instead." s) as H.
  by destruct (authorize_mounts _ _ _ _ _) as [[a|e] s1].
Qed.

Lemma create_stack_emits r body :
  hemits (mounts_allowed (is_admin r && opted_in (OCreateStack body)))
    (CreateStack range NewPort yaml_decode node_decode known_host clock uuid daemon r body).
Proof.
  pose proof quiet_authorize_plan. unfold CreateStack. emits_walk.
  apply deployPlan_emits; [apply mounts_harmless|]. intros spec Hspec. apply create_emits.
  match goal with H : of_result body _ = _, Hp : authorizePlanHostMounts _ _ _ _ = _ |- _ =>
    injection H as -> _; exact (specs_flagged _ _ _ _ _ _ _ Hp Hspec) end.
Qed.

Lemma quiet_build r q : quiet (buildDeploySpec (D := D) builtin r q).
Proof.
  unfold buildDeploySpec. repeat (apply quiet_bind; [by auto using quiet_authorize with emits|intros ?]). apply quiet_ret.
Qed.

Lemma build_flagged r q s spec s' : buildDeploySpec (D := D) builtin r q s = (Ok spec, s') ->
  ds_AllowHostMounts spec = is_admin r && dr_AllowHostMounts q.
Proof.
  unfold buildDeploySpec. cbv zeta. unfold mbind, HM_bind, get, of_result. destruct (if bool_decide _ then _ else _) as [t|e]; [|done].
  unfold hguard, mret, HM_ret, herr. repeat (destruct (_ : bool); [done|]).
  destruct (authorize_mounts _ _ _ _ _) as [[a|e] s1] eqn:E; [|done]. apply authorize_spec in E as ->. by intros [= <- _].
Qed.

Lemma deploy_emits r body :
  hemits (mounts_allowed (is_admin r && opted_in (ODeployTemplate body)))
    (DeployTemplate range NewPort known_host builtin daemon r body).
Proof.
  pose proof quiet_build. unfold DeployTemplate. emits_walk. apply create_emits.
  match goal with H : of_result body _ = _, Hp : buildDeploySpec _ _ _ _ = _ |- _ =>
    injection H as -> _; exact (build_flagged _ _ _ _ _ Hp) end.
Qed.

(** What any handler asks of the daemon respects the mount policy. *)
Lemma serve_emits o r :
  hemits (mounts_allowed (is_admin r && opted_in o))
    (serve_op range NewPort yaml_decode node_decode yaml_marshal parse_labels known_host find_workload registry builtin
       clock uuid guardian daemon o r).
Proof.
  destruct o; cbn [serve_op]; [|apply create_stack_emits| | | | |apply deploy_emits|..].
  all: unfold ValidateStack, ListStacks, StackDetail, DeleteStack, BuilderGenerate, CreateTemplate, UpdateTemplate,
    DeleteTemplate, StartWorkload, StopWorkload, RestartWorkload, RemoveWorkload, DeleteVolumeHandler,
    DeleteImageHandler, DeleteNetworkHandler, PullImageHandler, resolveForMutation, guardContainer, guard_ref, act,
    Start, Stop, Restart, Remove, DeleteVolume, DeleteImage, DeleteNetwork, VolumeMountpoint; emits_walk; try done;
    first [apply list_emits|apply remove_all_emits|apply remove_network_emits|apply remove_networks_emits];
    apply mounts_harmless.
Qed.
End Served.

(** ** What deploying asks of the daemon, in order *)

Definition started (c : anycall) : option string :=
  match c with
  | Called c r =>
      match c in call A return result derr A -> option string with
      | ContainerStart id => fun r => if is_ok r then Some id else None
      | _ => fun _ => None
      end r
  end.
Definition creates (c : anycall) : option ContainerConfig :=
  match c with Called (ContainerCreate cfg) _ => Some cfg | _ => None end.
Definition starts (l : list anycall) : list string := omap started l.

(** The configuration a spec stands for. *)
Record cfg_for (s : DeploySpec) (cfg : ContainerConfig) : Prop := {
  cf_name : cc_Name cfg = ds_Name s;
  cf_image : cc_Image cfg = ds_Image s;
  cf_labels : cc_Labels cfg = ds_Labels s;
  cf_mounts : cc_Mounts cfg = buildMounts (ds_Volumes s);
  cf_restart : cc_RestartPolicy cfg = restartPolicy (ds_RestartPolicy s) }.

(** The spec's container was created and started. *)
Definition up (l : list anycall) (s : DeploySpec) : Prop :=
  exists cfg id, cfg_for s cfg /\ Called (ContainerCreate cfg) (Ok id) ∈ l /\ Called (ContainerStart id) (Ok tt) ∈ l.
Lemma up_app_l l1 l2 s : up l1 s -> up (l1 ++ l2) s.
Proof. intros (cfg & id & Hc & H1 & H2). exists cfg, id. rewrite !elem_of_app. naive_solver. Qed.
Lemma up_app_r l1 l2 s : up l2 s -> up (l1 ++ l2) s.
Proof. intros (cfg & id & Hc & H1 & H2). exists cfg, id. rewrite !elem_of_app. naive_solver. Qed.

(** Every container is created for one of the specs, once all those before it are up. *)
Definition ordered (specs : list DeploySpec) (new : list anycall) : Prop :=
  forall l1 c cfg l2, new = l1 ++ c :: l2 -> creates c = Some cfg ->
    exists i s, specs !! i = Some s /\ cfg_for s cfg /\ Forall (up l1) (take i specs).

Definition nocreate (c : anycall) : Prop := creates c = None /\ started c = None.
Lemma starts_app l1 l2 : starts (l1 ++ l2) = starts l1 ++ starts l2.
Proof. apply omap_app. Qed.
Lemma starts_none l : Forall nocreate l -> starts l = [].
Proof. unfold starts. induction 1 as [|c l [_ H] _ IH]; [done|]. simpl. by rewrite H. Qed.

(** Calls that create for the one spec only. *)
Definition only (s : DeploySpec) (c : anycall) : Prop := forall cfg, creates c = Some cfg -> cfg_for s cfg.
Lemma nocreate_only s c : nocreate c -> only s c.
Proof. intros [H _] cfg Hc. congruence. Qed.

Lemma ordered_cons s specs b new : Forall (only s) b -> up b s -> ordered specs new -> ordered (s :: specs) (b ++ new).
Proof.
  intros Hb Hu Ho l1 c cfg l2 Heq Hc. symmetry in Heq.
  apply app_eq_app in Heq as (l & [[-> Hl]|[-> Hl]]).
  - destruct (Ho l c cfg l2 Hl Hc) as (i & s' & Hi & Hf & Hup). exists (S i), s'. split; [done|]. split; [done|].
    simpl. constructor; [by apply up_app_l|]. eapply Forall_impl; [done|]. intros x. apply up_app_r.
  - destruct l as [|c' l]; simpl in Hl.
    + destruct (Ho [] c cfg l2 (eq_sym Hl) Hc) as (i & s' & Hi & Hf & Hup). exists (S i), s'.
      split; [done|]. split; [done|]. rewrite app_nil_r in Hu. simpl. constructor; [done|].
      eapply Forall_impl; [done|]. intros x Hx. by apply (up_app_r l1 []) in Hx; rewrite app_nil_r in Hx.
    + injection Hl as -> _. exists 0%nat, s. split; [done|]. split; [|constructor].
      apply Forall_app in Hb as [_ [Hb _]%Forall_cons]. by apply Hb.
Qed.
Lemma ordered_one s specs b : Forall (only s) b -> ordered (s :: specs) b.
Proof.
  intros Hb l1 c cfg l2 -> Hc. apply Forall_app in Hb as [_ [Hb _]%Forall_cons].
  exists 0%nat, s. split; [done|]. split; [by apply Hb|constructor].
Qed.
Lemma ordered_nil specs b : Forall nocreate b -> ordered specs b.
Proof. intros Hb l1 c cfg l2 -> Hc. apply Forall_app in Hb as [_ [[Hb _] _]%Forall_cons]. congruence. Qed.
Lemma ordered_app specs b new : Forall nocreate b -> ordered specs new -> ordered specs (b ++ new).
Proof.
  intros Hb Ho l1 c cfg l2 Heq Hc. symmetry in Heq.
  apply app_eq_app in Heq as (l & [[-> Hl]|[-> Hl]]).
  - destruct (Ho l c cfg l2 Hl Hc) as (i & s' & Hi & Hf & Hup). exists i, s'. split; [done|]. split; [done|].
    eapply Forall_impl; [done|]. intros x. apply up_app_r.
  - destruct l as [|c' l]; simpl in Hl.
    + destruct (Ho [] c cfg l2 (eq_sym Hl) Hc) as (i & s' & Hi & Hf & Hup). exists i, s'.
      split; [done|]. split; [done|].
      eapply Forall_impl; [done|]. intros x Hx. by apply (up_app_r l1 []) in Hx; rewrite app_nil_r in Hx.
    + injection Hl as -> _. apply Forall_app in Hb as [_ [[Hb _] _]%Forall_cons]. congruence.
Qed.

(** [logs P m]: what [m] adds to the log, by its outcome. *)
Definition logs {D E A} (P : result E A -> list anycall -> Prop) (m : DM D E A) : Prop :=
  forall s r s', m s = (r, s') -> exists new, s'.2 = s.2 ++ new /\ P r new.

Lemma logs_ret {D E A} P (a : A) : P (Ok a) [] -> logs P (mret a : DM D E A).
Proof. intros HP s r s' [= <- <-]. exists []. by rewrite app_nil_r. Qed.
Lemma logs_fail {D E A} P (e : E) : P (Err e) [] -> logs P (fail e : DM D E A).
Proof. intros HP s r s' [= <- <-]. exists []. by rewrite app_nil_r. Qed.
Lemma logs_bind {D E A B} (P : result E A -> list anycall -> Prop) Q (m : DM D E A) (f : A -> DM D E B) :
  logs P m -> (forall e new, P (Err e) new -> Q (Err e) new) ->
  (forall a new, P (Ok a) new -> logs (fun r new' => Q r (new ++ new')) (f a)) -> logs Q (m ≫= f).
Proof.
  intros Hm He Hf s r s'. unfold mbind, DM_bind. destruct (m s) as [[a|e] s1] eqn:E1.
  - intros H2. apply Hm in E1 as (n1 & E1 & P1). apply (Hf _ _ P1) in H2 as (n2 & E2 & Q2).
    exists (n1 ++ n2). by rewrite E2, E1, app_assoc.
  - intros [= <- <-]. apply Hm in E1 as (n1 & E1 & P1). exists n1. split; [done|]. by apply He.
Qed.
Lemma logs_emits {D E A} Q (m : DM D E A) : emits Q m -> logs (fun _ new => Forall Q new) m.
Proof. done. Qed.
Lemma logs_mono {D E A} (P Q : result E A -> list anycall -> Prop) (m : DM D E A) :
  logs P m -> (forall r new, P r new -> Q r new) -> logs Q m.
Proof. intros Hm HPQ s r s' H. destruct (Hm _ _ _ H) as (new & E1 & HP). exists new. auto. Qed.

Section Deploys.
Context (range : forall A, gmap string A -> list (string * A)) (NewPort : string -> string -> option string)
  {D : Type} (daemon : forall A, call A -> D -> result derr A * D).

Lemma logs_try {E A} (c : call A) :
  logs (E := E) (fun r new => exists a, r = Ok a /\ new = [Called c a]) (try daemon c).
Proof.
  intros s r s'. unfold try. destruct (daemon A c s.1) as [a d]. intros [= <- <-]. exists [Called c a].
  split; [done|]. by exists a.
Qed.
Lemma logs_perform {E A} (c : call A) (f : derr -> E) :
  logs (fun r new => exists a, new = [Called c a] /\ r = match a with Ok x => Ok x | Err e => Err (f e) end)
    (perform daemon c f).
Proof.
  eapply logs_bind; [apply logs_try|by intros e new (a & ? & _)|]. intros a new (a' & [= <-] & ->).
  destruct a; [apply logs_ret|apply logs_fail]; eexists; by rewrite app_nil_r.
Qed.

(** The log of one service: its container only; up, or nothing started. *)
Definition one_log (spec : DeploySpec) (r : result perr string) (new : list anycall) : Prop :=
  Forall (only spec) new
  /\ match r with Ok id => starts new = [id] /\ up new spec | Err _ => starts new = [] end.

Lemma create_logs spec : logs (one_log spec) (ContainerCreateAndStart NewPort range daemon spec).
Proof.
  assert (forall e : perr, one_log spec (Err e) []) as Hnil by (intros e; split; [constructor|done]).
  unfold ContainerCreateAndStart. case_bool_decide; [by apply logs_fail|].
  destruct (ValidateMounts _ _) as [u|e]; [|by apply logs_fail].
  eapply logs_bind; [apply (logs_emits nocreate)| |].
  { unfold ensureImage. emits_walk; done. }
  { intros e new H1. split; [by eapply Forall_impl; [|apply nocreate_only]|by apply starts_none]. }
  intros [] new1 H1. cbn beta in H1. assert (Forall (only spec) new1) as Ho1 by (by eapply Forall_impl; [|apply nocreate_only]).
  assert (forall e, one_log spec (Err e) (new1 ++ [])) as Hfail.
  { intros e. rewrite app_nil_r. split; [done|by apply starts_none]. }
  destruct (buildPortMaps _ _) as [[ex bi]|]; [|by apply logs_fail].
  set (cfg := mkCC _ _ _ _ _ _ _ _ _).
  assert (cfg_for spec cfg) as Hcfg by done. clearbody cfg.
  assert (forall r, only spec (Called (ContainerCreate cfg) r)) as Hoc by (intros r c [= <-]; done).
  eapply logs_bind; [apply logs_perform|intros e ? (ans & -> & Ha)|intros id ? (ans & -> & Ha)].
  { split; [by apply Forall_app; split; [|constructor; [|constructor]]|]. rewrite starts_app, starts_none by done. done. }
  destruct ans as [x|x]; simplify_eq.
  eapply logs_bind; [apply logs_try|by intros e new (a & ? & _)|]. intros st new (st' & [= <-] & ->).
  destruct st as [[]|e].
  - apply logs_ret. split.
    + repeat (apply Forall_app; split); try done; (constructor; [|constructor]); done.
    + rewrite app_nil_r, !starts_app, starts_none by done. split; [done|].
      exists cfg, x. split; [done|]. rewrite !elem_of_app. split; [right; left|right; right]; by left.
  - eapply logs_bind; [apply logs_try|by intros e' new (a & ? & _)|]. intros y new (y' & [= <-] & ->).
    apply logs_fail. split.
    + repeat (apply Forall_app; split); try done; (constructor; [|constructor]); done.
    + rewrite !starts_app, starts_none by done. done.
Qed.

Definition status_of_count (n : nat) : string := if bool_decide (n = 0%nat) then "error" else "partial".

(** The log of one service that fails leaves the stack in the status that the
    number of running containers calls for. *)
Definition service_log (spec : DeploySpec) (deployed : nat) (r : result (string * perr) unit) (new : list anycall) : Prop :=
  Forall (only spec) new
  /\ match r with
     | Ok _ => length (starts new) = 1%nat /\ up new spec
     | Err (status, _) => (length (starts new) <= 1)%nat /\ status = status_of_count (deployed + length (starts new))
     end.

Lemma connect_nocreate ex id al names : emits nocreate (connect_all daemon ex id al names).
Proof. induction names as [|n names IH]; simpl; unfold ConnectToNetwork; emits_walk; done. Qed.

Lemma deploy_one_logs p net ex k spec : logs (service_log spec k) (deploy_one range NewPort daemon p net ex k spec).
Proof.
  intros s r s'. unfold deploy_one.
  destruct (ContainerCreateAndStart _ _ _ _ s) as [[id|e] s1] eqn:E1; apply create_logs in E1 as (n1 & E1 & Q1 & R1).
  2: { intros [= <- <-]. exists n1. split; [done|]. split; [done|]. rewrite R1. split; [simpl; lia|].
       unfold status_of_count. simpl. by rewrite Nat.add_0_r. }
  destruct R1 as [R1 U1].
  assert (forall n2, Forall nocreate n2 -> Forall (only spec) (n1 ++ n2) /\ starts (n1 ++ n2) = [id] /\ up (n1 ++ n2) spec) as Hext.
  { intros n2 H2. split; [apply Forall_app; split; [done|by eapply Forall_impl; [|apply nocreate_only]]|].
    rewrite starts_app, R1, starts_none by done. split; [done|by apply up_app_l]. }
  assert (status_of_count (k + 1) = "partial") as Hst by (unfold status_of_count; rewrite bool_decide_false by lia; done).
  destruct (ConnectToNetwork _ _ _ _ s1) as [[u|e] s2] eqn:E2.
  all: eapply (emits_perform daemon nocreate) in E2 as (n2 & E2 & Q2); [|done].
  2: { intros [= <- <-]. exists (n1 ++ n2). destruct (Hext n2 Q2) as (A1 & A2 & _).
       rewrite E2, E1, app_assoc. split; [done|]. split; [done|]. rewrite A2. simpl. by rewrite Hst. }
  destruct (connect_all _ _ _ _ _ s2) as [[u'|e] s3] eqn:E3; apply connect_nocreate in E3 as (n3 & E3 & Q3);
    intros [= <- <-]; exists (n1 ++ n2 ++ n3); destruct (Hext (n2 ++ n3)) as (A1 & A2 & A3); try (by apply Forall_app);
    (rewrite E3, E2, E1, !app_assoc; split; [done|]); rewrite <- !app_assoc; (split; [done|]); rewrite A2; simpl;
    rewrite ?Hst; done || lia || idtac.
Qed.

Definition plan_log (specs : list DeploySpec) (deployed : nat) (r : result (string * perr) unit) (new : list anycall) : Prop :=
  ordered specs new /\ (length (starts new) <= length specs)%nat
  /\ match r with
     | Ok _ => length (starts new) = length specs /\ Forall (up new) specs
     | Err (status, _) => status = status_of_count (deployed + length (starts new))
     end.

Lemma deploy_specs_logs p net ex specs k :
  logs (plan_log specs k) (deploy_specs range NewPort daemon p net ex k specs).
Proof.
  revert k. induction specs as [|spec specs IH]; intros k; cbn [deploy_specs].
  - apply logs_ret. split; [by apply ordered_nil|]. by split.
  - eapply logs_bind; [apply deploy_one_logs| |].
    + intros [st e] new (Ho & Hn & Hst). split; [by apply ordered_one|]. split; [simpl; lia|done].
    + intros [] new (Ho & Hn & Hu). eapply logs_mono; [apply IH|]. intros r new' (Ho' & Hn' & Hr).
      unfold plan_log. rewrite starts_app, length_app, Hn. split; [by apply ordered_cons|]. split; [simpl; lia|].
      destruct r as [u|[st e]].
      * destruct Hr as [Hr Hup]. split; [simpl; lia|]. constructor; [by apply up_app_l|].
        eapply Forall_impl; [done|]. intros x. apply up_app_r.
      * rewrite Hr. f_equal. lia.
Qed.

Lemma ensure_nocreate name labels : emits nocreate (EnsureProjectNetwork daemon name labels).
Proof. unfold EnsureProjectNetwork. emits_walk; done. Qed.
Lemma networks_nocreate labels ids names : emits nocreate (ensure_networks daemon labels ids names).
Proof.
  revert ids. induction names as [|n names IH]; intros ids; cbn [ensure_networks]; emits_walk; [|done].
  apply ensure_nocreate.
Qed.
Lemma failing_logs {A} (Q : anycall -> Prop) status (m : DM D perr A) : emits Q m ->
  logs (fun r new => Forall Q new /\ match r with Err (st, _) => st = status | _ => True end) (failing status m).
Proof.
  intros Hm s r s'. unfold failing. destruct (m s) as [[a|e] s1] eqn:E1; intros [= <- <-];
    apply Hm in E1 as (new & E1 & F); by exists new.
Qed.

Lemma deployPlan_logs p : logs (plan_log (pl_Specs p) 0) (deployPlan range NewPort daemon p).
Proof.
  assert (forall e new, Forall nocreate new /\ e.1 = "error" -> plan_log (pl_Specs p) 0 (Err e) new) as Herr.
  { intros [st e] new [H1 H2]. simpl in H2. subst. split; [by apply ordered_nil|].
    rewrite (starts_none new) by done. split; [simpl; lia|done]. }
  unfold deployPlan. eapply logs_bind; [apply failing_logs, ensure_nocreate|intros [st e] new H1; by apply Herr|].
  intros net new1 [H1 _].
  eapply logs_bind; [apply failing_logs, networks_nocreate|intros [st e] new [H2 H3]; apply Herr; split; [by apply Forall_app|done]|].
  intros ex new2 [H2 _]. eapply logs_mono; [apply deploy_specs_logs|]. intros r new (Ho & Hn & Hr).
  unfold plan_log. rewrite app_assoc, !starts_app, !(starts_none new1), !(starts_none new2) by done. simpl.
  split; [apply ordered_app; [by apply Forall_app|done]|]. split; [done|].
  destruct r as [u|[st e]]; [|done]. destruct Hr as [Hr Hup]. split; [done|].
  eapply Forall_impl; [done|]. intros x. apply up_app_r.
Qed.
End Deploys.
