(* ===== verification/StackProps.v ===== *)
(** * Deployment: the properties of stacks, templates and container actions *)
From S2P Require Import Prelude GoStd Utf8 AuthStore Rbac Redact Middleware Compose ComposeFacts Docker Stacks BuilderFacts StackFacts.

(** ** Stacks come up in dependency order *)

Definition service_up (l : list anycall) (n : string) : Prop :=
  exists cfg id, cc_Labels cfg !! LabelService = Some n
    /\ Called (ContainerCreate cfg) (Ok id) ∈ l /\ Called (ContainerStart id) (Ok tt) ∈ l.
Definition deps_first (m : Model) (new : list anycall) : Prop :=
  forall l1 c cfg l2, new = l1 ++ c :: l2 -> creates c = Some cfg ->
    exists n, cc_Labels cfg !! LabelService = Some n /\ is_Some (m !! n)
              /\ forall d, d ∈ deps_of m n -> service_up l1 d.

Section Facts.
Context (range : forall A, gmap string A -> list (string * A)) (NewPort : string -> string -> option string)
  (yaml_decode : string -> result string (gmap string node)) (node_decode : node -> result string rawService)
  (known_host : string -> bool) (clock : nat -> Z) (uuid : nat -> string)
  {D : Type} (daemon : forall A, call A -> D -> result derr A * D).

Lemma plan_ordered m project allow p new :
  range_ok range -> BuildPlan range project m = Some (Ok p) ->
  ordered (with_AllowHostMounts allow <$> pl_Specs p) new -> deps_first m new.
Proof.
  intros Hr Hp Ho l1 c cfg l2 Hnew Hc.
  destruct (plan_spec range project m Hr) as (r & Hr' & Hspec). rewrite Hp in Hr'. injection Hr' as <-.
  destruct Hspec as (_ & _ & o & [[Hperm Hdep] _] & Hf & _).
  destruct (Ho _ _ _ _ Hnew Hc) as (i & s & Hi & Hcfg & Hup).
  apply list_lookup_fmap_Some in Hi as (sp & -> & Hi).
  destruct (Forall2_lookup_r _ _ _ _ _ Hf Hi) as (n & Hn & Hsf).
  exists n. rewrite (cf_labels _ _ Hcfg). split; [apply Hsf|]. split.
  { apply elem_of_names. rewrite <- Hperm. by eapply list_elem_of_lookup_2. }
  intros d Hd. specialize (Hdep i n Hn). rewrite Forall_forall in Hdep. apply Hdep in Hd.
  apply elem_of_take in Hd as (j & Hj & Hlt). destruct (Forall2_lookup_l _ _ _ _ _ Hf Hj) as (sd & Hsd & Hsfd).
  rewrite Forall_forall in Hup. destruct (Hup (with_AllowHostMounts allow sd)) as (cfg' & id & Hc' & H1 & H2).
  { apply elem_of_take. exists j. split; [|done]. by rewrite list_lookup_fmap, Hsd. }
  exists cfg', id. split; [|done]. rewrite (cf_labels _ _ Hc'). apply Hsfd.
Qed.

Lemma plan_all_up m project allow p new :
  range_ok range -> BuildPlan range project m = Some (Ok p) ->
  Forall (up new) (with_AllowHostMounts allow <$> pl_Specs p) -> forall n, is_Some (m !! n) -> service_up new n.
Proof.
  intros Hr Hp Hup n Hn.
  destruct (plan_spec range project m Hr) as (r & Hr' & Hspec). rewrite Hp in Hr'. injection Hr' as <-.
  destruct Hspec as (_ & _ & o & [[Hperm _] _] & Hf & _).
  apply elem_of_names in Hn. rewrite <- Hperm in Hn. apply list_elem_of_lookup in Hn as [i Hi].
  destruct (Forall2_lookup_l _ _ _ _ _ Hf Hi) as (s & Hs & Hsf).
  rewrite Forall_fmap, Forall_forall in Hup. destruct (Hup s) as (cfg & id & Hc & H1 & H2); [by eapply list_elem_of_lookup_2|].
  exists cfg, id. split; [|done]. rewrite (cf_labels _ _ Hc). apply Hsf.
Qed.

(** A step that leaves the daemon and the stacks alone. *)
Definition calm {A} (m : HM D A) : Prop :=
  forall s, sv_docker (m s).2 = sv_docker s /\ sv_stacks (m s).2 = sv_stacks s.
Definition refused {A} (s s' : srv D) (r : result APIError A) : Prop :=
  is_ok r = false /\ sv_stacks s' = sv_stacks s /\ sv_docker s' = sv_docker s.

Lemma calm_step {A B} (m : HM D A) (f : A -> HM D B) s0 s r s' :
  sv_stacks s = sv_stacks s0 -> sv_docker s = sv_docker s0 -> calm m -> (m ≫= f) s = (r, s') ->
  refused s0 s' r \/ exists a s1, m s = (Ok a, s1) /\ sv_stacks s1 = sv_stacks s0 /\ sv_docker s1 = sv_docker s0
                                  /\ f a s1 = (r, s').
Proof.
  intros H1 H2 Hm. unfold mbind, HM_bind. destruct (Hm s) as [C1 C2]. destruct (m s) as [[a|e] s1]; simpl in C1, C2.
  - intros Hf. right. exists a, s1. rewrite C1, C2. done.
  - intros [= <- <-]. left. split; [done|]. by rewrite C1, C2.
Qed.
Lemma calm_audit r f : calm (audit (D := D) r f).
Proof. intros s. unfold audit. simpl. by destruct (rq_Audited r). Qed.
Lemma calm_guard c e : calm (hguard (D := D) c e).
Proof. intros s. by destruct c. Qed.
Lemma calm_authorize r paths req msg : calm (authorize_mounts (D := D) r paths req msg).
Proof.
  intros s. unfold authorize_mounts, mbind, HM_bind, audit. destruct (_ && _), (bool_decide _), (rq_Audited r); done.
Qed.
Lemma calm_authorize_plan r p req : calm (authorizePlanHostMounts (D := D) r p req).
Proof.
  intros s. unfold authorizePlanHostMounts, mbind, HM_bind.
  pose proof (calm_authorize r (Plan_HostMountSources p) req
    "This stack declares host bind mounts, which require administrator privileges; use named volumes instead." s) as H.
  by destruct (authorize_mounts _ _ _ _ _) as [[a|e] s1].
Qed.

Lemma authorized_plan r p req s p' s' : authorizePlanHostMounts (D := D) r p req s = (Ok p', s') ->
  pl_Project p' = pl_Project p /\ pl_Specs p' = with_AllowHostMounts (is_admin r && req) <$> pl_Specs p.
Proof.
  unfold authorizePlanHostMounts, mbind at 1, HM_bind. destruct (authorize_mounts _ _ _ _ _) as [[a|e] s1] eqn:E; [|done].
  apply authorize_spec in E as ->. by intros [= <- _].
Qed.
Lemma parseAndPlan_ok src project m p : parseAndPlan range yaml_decode node_decode src project = Ok (m, p) ->
  BuildPlan range project m = Some (Ok p).
Proof. unfold parseAndPlan. destruct (Parse _ _ _ _) as [m'|]; [|done]. destruct (BuildPlan _ _ m') as [[p'|]|] eqn:E; [|done..]. by intros [= <- <-]. Qed.

Lemma InsertStack_ok users st now l l' : InsertStack users st now l = Ok l' ->
  l' = l ++ [stamp_stack now st] /\ forall x, x ∈ l -> sk_ID x <> sk_ID st /\ sk_ProjectName x <> sk_ProjectName st.
Proof.
  unfold InsertStack. destruct (_ && _); [|done]. destruct (filter _ l) as [|y ys] eqn:E; [|done]. intros [= <-]. split; [done|]. intros x Hx.
  destruct (decide (sk_ID x = sk_ID st \/ sk_ProjectName x = sk_ProjectName st)) as [Hd|Hd]; [|tauto].
  assert (x ∈ filter (fun s' => sk_ID s' = sk_ID st \/ sk_ProjectName s' = sk_ProjectName st) l) as Hin by by apply list_elem_of_filter.
  rewrite E in Hin. by apply elem_of_nil in Hin.
Qed.

Lemma update_last id status now l row : sk_ID row = id -> (forall x, x ∈ l -> sk_ID x <> id) ->
  exists row', UpdateStackStatus id status now (l ++ [row]) = Ok (l ++ [row']) /\ sk_Status row' = status
    /\ sk_ID row' = id /\ sk_ProjectName row' = sk_ProjectName row /\ sk_ServiceCount row' = sk_ServiceCount row.
Proof.
  intros Hid Hl. unfold UpdateStackStatus, update_rows. rewrite filter_app, filter_none, filter_cons_True by (done || by apply Forall_forall).
  simpl. rewrite fmap_app. simpl. rewrite decide_True by done. eexists. split; [f_equal; f_equal|repeat split; done].
  rewrite <- (list_fmap_id l) at 2. apply list_fmap_ext. intros i x Hx. rewrite decide_False; [done|].
  by apply Hl, (list_elem_of_lookup_2 _ i).
Qed.

Lemma get_last id l row : sk_ID row = id -> (forall x, x ∈ l -> sk_ID x <> id) -> GetStack id (l ++ [row]) = Ok row.
Proof.
  intros Hid Hl. unfold GetStack, find_row. rewrite list_find_app_r; [|by apply list_find_None, Forall_forall].
  simpl. by rewrite decide_True.
Qed.
End Facts.

(** C31 Deploying a stack, whatever the daemon does and answers: a request either is
    refused, and then neither the table nor the daemon is touched, or it records one
    row for a project that had none and deploys.  Then a container is created only
    for a service of the document, when the containers of all its dependencies
    have been created and started; the row ends as running, with a container
    started for every service, as partial, with at least one container started, or
    as error, with none; and the reply is a success exactly when it is running. *)
Theorem create_stack range NewPort yaml_decode node_decode known_host clock uuid
    {D} (daemon : forall A, call A -> D -> result derr A * D) r body s reply s' :
  range_ok range ->
  CreateStack range NewPort yaml_decode node_decode known_host clock uuid daemon r body s = (reply, s') ->
  refused s s' reply \/
  exists q m p row new,
    body = Ok q /\ parseAndPlan range yaml_decode node_decode (cs_ComposeYAML q) (trim_space (cs_Name q)) = Ok (m, p)
    /\ (forall st, st ∈ sv_stacks s -> sk_ProjectName st <> pl_Project p)
    /\ sv_stacks s' = sv_stacks s ++ [row] /\ sk_ProjectName row = pl_Project p /\ sk_ServiceCount row = Z.of_nat (size m)
    /\ (sv_docker s').2 = (sv_docker s).2 ++ new /\ deps_first m new
    /\ (is_ok reply = true <-> sk_Status row = "running")
    /\ (sk_Status row = "running" /\ (forall n, is_Some (m !! n) -> service_up new n)
        \/ sk_Status row = "partial" /\ starts new <> []
        \/ sk_Status row = "error" /\ starts new = []).
Proof.
  intros Hr H. unfold CreateStack in H. cbv zeta in H.
  apply (calm_step _ _ s) in H as [H|(u & s1 & _ & S1 & D1 & H)]; [by left| |done|done|apply calm_guard].
  apply (calm_step _ _ s) in H as [H|(q & s2 & Hq & S2 & D2 & H)]; [by left| |done|done|done].
  apply (calm_step _ _ s) in H as [H|(u3 & s3 & _ & S3 & D3 & H)]; [by left| |done|done|apply calm_guard].
  apply (calm_step _ _ s) in H as [H|([m p] & s4 & Hp & S4 & D4 & H)]; [by left| |done|done|done].
  apply (calm_step _ _ s) in H as [H|(u5 & s5 & _ & S5 & D5 & H)]; [by left| |done|done|apply calm_audit].
  apply (calm_step _ _ s) in H as [H|(p' & s6 & Hp' & S6 & D6 & H)]; [by left| |done|done|apply calm_authorize_plan].
  apply (calm_step _ _ s) in H as [H|(ex & s7 & _ & S7 & D7 & H)]; [by left| |done|done|done].
  apply (calm_step _ _ s) in H as [H|(u8 & s8 & _ & S8 & D8 & H)]; [by left| |done|done|apply calm_guard].
  apply (calm_step _ _ s) in H as [H|(id & s9 & _ & S9 & D9 & H)]; [by left| |done|done|done].
  apply (calm_step _ _ s) in H as [H|(now & sz & _ & Sz & Dz & H)]; [by left| |done|done|done].
  apply (calm_step _ _ s) in H as [H|(users & sa & _ & Sa & Da & H)]; [by left| |done|done|done].
  injection Hq as -> _. injection Hp as Hp _.
  assert (pl_Project p' = pl_Project p /\ pl_Specs p' = with_AllowHostMounts (is_admin r && cs_AllowHostMounts q) <$> pl_Specs p)
    as [Hpp Hps] by (by eapply authorized_plan).
  unfold mbind, HM_bind, on_stacks at 1 in H. rewrite Sa in H.
  destruct (InsertStack _ _ now (sv_stacks s)) as [l|e] eqn:Hins; [|left; by injection H as <- <-].
  apply InsertStack_ok in Hins as [-> Hfresh]. cbn [of_result] in H.
  set (row := stamp_stack now _) in H. unfold docker_try in H. cbn [set_stacks sv_docker] in H. rewrite Da in H.
  destruct (deployPlan range NewPort daemon p' (sv_docker s)) as [dep d] eqn:Hdep.
  apply (deployPlan_logs range NewPort daemon p') in Hdep as (new & Hnew & Ho & Hlen & Hres).
  rewrite Hps in Ho, Hres. cbn -[UpdateStackStatus GetStack mapError stack_json] in H.
  destruct (update_last id (match dep with Ok _ => "running" | Err (status, _) => status end) (clock (sv_tick sa)) (sv_stacks s) row)
    as (row' & Hup & Hst & Hid & Hproj & Hcnt); [done|by intros x Hx; apply Hfresh|].
  unfold on_stacks in H. cbn [tick set_docker set_stacks sv_stacks] in H. rewrite Hup in H. cbn -[GetStack mapError stack_json] in H.
  right. exists q, m, p, row', new. split; [done|]. split; [done|].
  assert (BuildPlan range (trim_space (cs_Name q)) m = Some (Ok p)) as Hbp by (by eapply parseAndPlan_ok).
  split; [intros st Hin; rewrite <- Hpp; by apply Hfresh|].
  rewrite Hproj, Hcnt, Hst. destruct dep as [[]|[status e]].
  - cbn -[GetStack mapError stack_json] in H. rewrite get_last in H by (done || by intros x Hx; apply Hfresh).
    injection H as <- <-. split; [done|]. split; [done|]. split; [done|]. split; [done|]. split; [by eapply plan_ordered|].
    split; [done|]. left. split; [done|]. eapply plan_all_up; [done|done|apply Hres].
  - cbn -[GetStack mapError stack_json] in H. injection H as <- <-.
    split; [done|]. split; [done|]. split; [done|]. split; [done|]. split; [by eapply plan_ordered|].
    subst status. unfold status_of_count. destruct (starts new) as [|x xs]; simpl; [|].
    + split; [done|]. right. by right.
    + split; [done|]. right. by left.
Qed.

(** ** Host paths *)

(** C3 The host-mount policy holds on every route of the stacks, templates,
    container and network API, whatever the daemon: a container is created with a
    bind mount, or with a mount whose source is an absolute path of Unix or Windows,
    only for a signed-in global superuser who asked for host mounts in that very
    request.  And never from a protected path: the source, less the spaces around
    it, is not a run of separators, and is not one of the twelve protected paths or
    a path under one, written in either case and with either kind of slash.  (Dot
    segments and doubled slashes inside the path do get past the list: see the
    findings.) *)
Theorem host_mount_policy range NewPort yaml_decode node_decode yaml_marshal parse_labels known_host find_workload
    registry builtin clock uuid guardian {D} (daemon : forall A, call A -> D -> result derr A * D) o r s :
  let s' := (serve_op range NewPort yaml_decode node_decode yaml_marshal parse_labels known_host find_workload
               registry builtin clock uuid guardian daemon o r s).2 in
  exists new, (sv_docker s').2 = (sv_docker s).2 ++ new /\
  forall cfg ans mt, Called (ContainerCreate cfg) ans ∈ new -> mt ∈ cc_Mounts cfg ->
    mt_Type mt = TypeBind \/ host_source (mt_Source mt) ->
    (exists u, rq_User r = Some u /\ HasGlobalSuperuser u = true) /\ opted_in o = true /\
    ~ protected_source (mt_Source mt).
Proof.
  destruct (serve_op _ _ _ _ _ _ _ _ _ _ _ _ _ _ o r s) as [reply s'] eqn:E. simpl.
  apply serve_emits in E as (new & Hnew & HQ). exists new. split; [done|]. intros cfg ans mt Hin Hmt Ht.
  rewrite Forall_forall in HQ. destruct (HQ _ Hin mt Hmt Ht) as [Ha Hb].
  apply andb_true_iff in Ha as [Hadm Ho]. unfold is_admin in Hadm. destruct (rq_User r) as [u|]; [|done].
  split; [by exists u|]. split; [done|]. intros Hp%protected_blocked. congruence.
Qed.

(** Doubled slashes and dot segments name a protected directory past the list:
    the daemon is asked to bind-mount what the kernel resolves to /etc. *)
Lemma host_mount_respelled :
  Forall (fun src => isHostPath src = true /\ isAlwaysBlockedHostPath src = false /\ path_clean src = "/etc")
    ["//etc"; "/./etc"; "/srv/../etc"]
  /\ isAlwaysBlockedHostPath "/etc" = true.
Proof. split; [repeat constructor; vm_compute; done|by vm_compute]. Qed.

(** ** Destructive actions on containers *)

Inductive container_action :=
| AStop (timeoutSeconds : option Z)
| ARestart (timeoutSeconds : option Z)
| ARemove (force volumes confirm : bool) (reason : string).
Definition action_op (id : string) (a : container_action) : op :=
  match a with
  | AStop t => OStop id t
  | ARestart t => ORestart id t
  | ARemove f v c reason => ORemove id f v c reason
  end.
Definition overrides (a : container_action) : bool :=
  match a with ARemove _ _ c reason => c && negb (bool_decide (trim_space reason = "")) | _ => false end.
(** The one call the action makes. *)
Definition action_call (id : string) (a : container_action) (ans : result derr unit) : anycall :=
  match a with
  | AStop t => Called (ContainerStop id (timeout_secs (durationPtr t))) ans
  | ARestart t => Called (ContainerRestart id (timeout_secs (durationPtr t))) ans
  | ARemove f v _ _ => Called (ContainerRemove id f v) ans
  end.

Section Guarded.
Context (parse_labels : string -> option (list string)) (guardian : Guard)
  {D : Type} (daemon : forall A, call A -> D -> result derr A * D).

Definition container_ref (wl : Workload) : ContainerRef :=
  mkRef (wl_ID wl) (wl_Name wl) (wl_Labels wl) (wl_Protected wl) "container" false.

(** A refusal, recorded. *)
Ltac refuse r := unfold audit, herr; destruct (rq_Audited r); refine (conj eq_refl (conj eq_refl (conj _ _))); [done| |done|].

(** What the guard lets through. *)
Definition guard_passes (d : db) (actor : option User) (wl : Workload) (override : bool) : Prop :=
  g_selfResolved guardian = true /\ isSelf guardian (container_ref wl) = false /\
  (hasProtectedLabel parse_labels d (container_ref wl) || wl_Protected wl = true ->
   (exists u, actor = Some u /\ HasGlobalSuperuser u = true) /\ override = true).

Lemma guard_spec r wl confirm reason (s : srv D) :
  let '(a, s') := guard_ref parse_labels guardian r (container_ref wl) confirm reason s in
  sv_docker s' = sv_docker s /\ sv_db s' = sv_db s /\
  (is_ok a = true <-> guard_passes (sv_db s) (rq_User r) wl (confirm && negb (bool_decide (trim_space reason = "")))).
Proof.
  unfold guard_ref, mbind, HM_bind, get, GuardDestructive, guard_passes. cbn [ref_Kind container_ref].
  rewrite bool_decide_true by done. cbn [andb].
  destruct (g_selfResolved guardian); cbn [negb].
  2: { refuse r; by intros (? & _). }
  destruct (isSelf guardian _) eqn:Hs.
  { refuse r; by intros (_ & ? & _). }
  cbn [ref_Protected container_ref]. fold (container_ref wl).
  destruct (hasProtectedLabel parse_labels (sv_db s) (container_ref wl) || wl_Protected wl) eqn:Hp.
  2: { refine (conj eq_refl (conj eq_refl (conj _ _))); done. }
  destruct (rq_User r) as [u|]; [destruct (HasGlobalSuperuser u) eqn:Hu|]; cbn [negb].
  2,3: refuse r; intros (_ & _ & H); destruct (H eq_refl) as [(u' & ? & ?) _]; congruence.
  destruct confirm; cbn [negb orb andb]; [case_bool_decide as Hr|]; cbn [negb].
  1,3: refuse r; intros (_ & _ & H); by destruct (H eq_refl) as [_ ?].
  unfold audit. destruct (rq_Audited r); refine (conj eq_refl (conj eq_refl (conj _ _))); try done;
    intros _; (split; [done|]; split; [done|]); intros _; (split; [by exists u|done]).
Qed.
End Guarded.

Lemma perform_log {D E A} (daemon : forall A, call A -> D -> result derr A * D) (c : call A) (f : derr -> E) d :
  let '(a, d') := perform daemon c f d in
  exists ans, d'.2 = d.2 ++ [Called c ans] /\ a = match ans with Ok x => Ok x | Err e => Err (f e) end.
Proof.
  unfold perform, try, mbind, DM_bind. destruct (daemon A c d.1) as [[x|e] d1] eqn:E1; simpl; [exists (Ok x)|exists (Err e)]; done.
Qed.

Lemma HM_bind_eq {D A B} (m : HM D A) (f : A -> HM D B) s :
  (m ≫= f) s = match m s with (Ok a, s') => f a s' | (Err e, s') => (Err e, s') end.
Proof. done. Qed.
Lemma resolve_spec find_workload registry {D} r id (s : srv D) :
  exists s1, sv_docker s1 = sv_docker s /\ sv_db s1 = sv_db s /\
    resolveForMutation find_workload registry r id s
    = (match find_workload (urlParam "hostID" r) id with
       | None => Err ErrAPINotFound
       | Some wl => match registry (wl_ProviderID wl) with None => Err ErrAPINotFound | Some k => Ok (k, wl) end
       end, s1).
Proof.
  unfold resolveForMutation. rewrite HM_bind_eq. unfold of_result at 1.
  destruct (find_workload _ id) as [wl|]; [|by exists s].
  rewrite HM_bind_eq. unfold audit. eexists. split; [|split; [|rewrite HM_bind_eq; unfold of_result]].
  3: by destruct (registry _). all: by destruct (rq_Audited r).
Qed.
Lemma guarded_step parse_labels guardian find_workload registry {D} (daemon : forall A, call A -> D -> result derr A * D)
    (mk : string -> call unit) (f : derr -> perr) r id confirm reason s :
  let '(reply, s') := ('(p, wl) ← resolveForMutation find_workload registry (D := D) r id;
                       _ ← guardContainer parse_labels guardian r wl confirm reason;
                       _ ← act p (perform daemon (mk (wl_ID wl)) f); mret ok_) s in
  let lets wl := find_workload (urlParam "hostID" r) id = Some wl /\ registry (wl_ProviderID wl) = Some KDocker /\
    guard_passes parse_labels guardian (sv_db s) (rq_User r) wl (confirm && negb (bool_decide (trim_space reason = ""))) in
  sv_docker s' = sv_docker s /\ is_ok reply = false /\ (forall wl, ~ lets wl)
  \/ exists wl ans, lets wl /\ (sv_docker s').2 = (sv_docker s).2 ++ [Called (mk (wl_ID wl)) ans].
Proof.
  cbv zeta. destruct (resolve_spec find_workload registry r id s) as (s1 & Hd1 & Hb1 & Hres).
  rewrite HM_bind_eq, Hres. destruct (find_workload _ id) as [wl|] eqn:Hw.
  2: { left. split; [done|]. split; [done|]. by intros wl (? & _). }
  destruct (registry (wl_ProviderID wl)) as [k|] eqn:Hreg.
  2: { left. split; [done|]. split; [done|]. intros wl' ([= <-] & ? & _). congruence. }
  rewrite HM_bind_eq.
  pose proof (guard_spec parse_labels guardian r wl confirm reason s1) as Hg. 
  change (guardContainer parse_labels guardian r wl confirm reason s1)
    with (guard_ref parse_labels guardian r (container_ref wl) confirm reason s1).
  destruct (guard_ref parse_labels guardian r (container_ref wl) confirm reason s1) as [a2 s2]. destruct Hg as (Hd2 & _ & Hg).
  rewrite Hb1 in Hg. destruct a2 as [u|e].
  2: { left. split; [congruence|]. split; [done|]. intros wl' ([= <-] & _ & Hp%Hg). done. }
  assert (guard_passes parse_labels guardian (sv_db s) (rq_User r) wl (confirm && negb (bool_decide (trim_space reason = "")))) as Hp by by apply Hg.
  destruct k; cbn [act].
  - rewrite HM_bind_eq. unfold docker. rewrite HM_bind_eq. unfold docker_try.
    pose proof (perform_log daemon (mk (wl_ID wl)) f (sv_docker s2)) as Hl.
    destruct (perform _ _ _ _) as [a3 d3]. destruct Hl as (ans & Hl & ->). rewrite Hd2, Hd1 in Hl.
    unfold of_result. destruct ans as [x|x]; cbn -[guard_passes isSelf]; right; exists wl; [exists (Ok x)|exists (Err x)]; done.
  - rewrite HM_bind_eq. left. split; [simpl; congruence|]. split; [done|]. intros wl' ([= <-] & ? & _). congruence.
Qed.

(** Stopping, restarting or removing a container: either the daemon is asked for
    that one action on the container the cache knows under that id, or it is asked
    for nothing and the reply is an error.  It is asked exactly when the container's
    provider is Docker and the guard lets it: the server knows which container it
    runs in and this is not it, and, if the container is protected, the action is a
    removal which a global superuser confirmed with a reason. *)
Theorem container_guard range NewPort yaml_decode node_decode yaml_marshal parse_labels known_host find_workload
    registry builtin clock uuid guardian {D} (daemon : forall A, call A -> D -> result derr A * D) r id a s :
  let '(reply, s') := serve_op range NewPort yaml_decode node_decode yaml_marshal parse_labels known_host find_workload
                        registry builtin clock uuid guardian daemon (action_op id a) r s in
  let lets wl := find_workload (urlParam "hostID" r) id = Some wl /\ registry (wl_ProviderID wl) = Some KDocker /\
    guard_passes parse_labels guardian (sv_db s) (rq_User r) wl (overrides a) in
  sv_docker s' = sv_docker s /\ is_ok reply = false /\ (forall wl, ~ lets wl)
  \/ exists wl ans, lets wl /\ (sv_docker s').2 = (sv_docker s).2 ++ [action_call (wl_ID wl) a ans].
Proof.
  destruct a; cbn [action_op serve_op overrides action_call];
    unfold StopWorkload, RestartWorkload, RemoveWorkload, Stop, Restart, Remove.
  - apply (guarded_step _ _ _ _ _ (fun id => ContainerStop id _)).
  - apply (guarded_step _ _ _ _ _ (fun id => ContainerRestart id _)).
  - apply (guarded_step _ _ _ _ _ (fun id => ContainerRemove id _ _)).
Qed.

(** ** Teardown *)

Section Teardown.
Context {D : Type} (daemon : forall A, call A -> D -> result derr A * D).

Definition removal (c : anycall) : option string :=
  match c with Called (ContainerRemove id _ _) _ => Some id | _ => None end.
Definition force_removed (id : string) (a : result derr unit) : anycall := Called (ContainerRemove id true true) a.

Definition removes_log (l : list StackContainer) (r : result perr unit) (new : list anycall) : Prop :=
  (forall c id, c ∈ new -> removal c = Some id -> exists x, x ∈ l /\ id = sc_ID x)
  /\ match r with
     | Ok _ => forall x, x ∈ l -> force_removed (sc_ID x) (Ok tt) ∈ new
     | Err p => exists x e, x ∈ l /\ force_removed (sc_ID x) (Err e) ∈ new /\ p = mapResourceErr e
     end.

Lemma remove_all_logs l : logs (removes_log l) (remove_all daemon l).
Proof.
  induction l as [|x l IH]; cbn [remove_all].
  { apply logs_ret. split; [by intros c id []%elem_of_nil|by intros c []%elem_of_nil]. }
  unfold StopAndRemoveContainer.
  assert (forall c id a1 a2, c ∈ [Called (ContainerStop (sc_ID x) None) a1] ++ [force_removed (sc_ID x) a2] ->
    removal c = Some id -> id = sc_ID x) as Hone.
  { intros c id a1 a2 [->|[->|[]%elem_of_nil]%elem_of_cons]%elem_of_cons H; simpl in H; congruence. }
  eapply logs_bind.
  - eapply (logs_bind _ (fun r new => exists a1 a2, new = [Called (ContainerStop (sc_ID x) None) a1] ++ [force_removed (sc_ID x) a2]
                                        /\ r = match a2 with Ok u => Ok u | Err e => Err (mapResourceErr e) end));
      [apply logs_try|by intros e new (a & ? & _)|].
    intros a new (a1 & _ & ->). eapply logs_mono; [apply logs_perform|]. intros r new (a2 & -> & ->). by exists a1, a2.
  - intros e new (a1 & a2 & -> & Ha). destruct a2 as [u|e']; [done|]. injection Ha as ->. split.
    + intros c id Hc Hr. exists x. split; [by left|by eapply Hone].
    + exists x, e'. split; [by left|]. split; [by right; left|done].
  - intros u new (a1 & a2 & -> & Ha). destruct a2 as [[]|e']; [|done].
    eapply logs_mono; [apply IH|]. intros r new (H1 & H2). split.
    + intros c id [Hc|Hc]%elem_of_app Hr; [exists x; split; [by left|by eapply Hone]|].
      destruct (H1 c id Hc Hr) as (y & Hy & ->). exists y. split; [by right|done].
    + destruct r as [u'|p].
      * intros y [->|Hy]%elem_of_cons; apply elem_of_app; [left; by right; left|right; by apply H2].
      * destruct H2 as (y & e & Hy & Hc & ->). exists y, e. split; [by right|]. split; [|done]. apply elem_of_app. by right.
Qed.

Lemma networks_no_removal l : emits (fun c => removal c = None) (remove_networks daemon l).
Proof.
  induction l as [|n l IH]; intros s r s'; cbn [remove_networks]; [by intros H; eapply emits_ret|].
    intros H2. destruct (RemoveNetworkByName daemon n s) as [a s1] eqn:E1. simpl in H2.
    assert (emits (fun c => removal c = None) (RemoveNetworkByName daemon n)) as Hn by (unfold RemoveNetworkByName; emits_walk; done).
    apply Hn in E1 as (n1 & E1 & Q1). apply IH in H2 as (n2 & E2 & Q2).
    exists (n1 ++ n2). rewrite E2, E1, app_assoc. split; [done|]. by apply Forall_app.
Qed.
End Teardown.

Lemma list_logs {D} (daemon : forall A, call A -> D -> result derr A * D) project :
  logs (fun r new => exists ans, new = [Called (ContainerList true ["com.docker.compose.project=" +:+ project]) ans]
          /\ r = match ans with
                 | Ok sums => Ok ((fun s => mkSC (sm_ID s) (first_name (sm_Names s))
                                              (default "" (sm_Labels s !! LabelService)) (sm_State s)) <$> sums)
                 | Err _ => Err POther
                 end) (ListProjectContainers daemon project).
Proof.
  eapply logs_bind; [apply logs_perform|intros e ? (ans & -> & Ha)|intros sums ? (ans & -> & Ha)].
  - exists ans. split; [done|]. destruct ans; [done|]. congruence.
  - apply logs_ret. exists ans. rewrite app_nil_r. split; [done|]. destruct ans; congruence.
Qed.
Lemma audit_calm {D} r f (s : srv D) :
  exists s1, audit r f s = (Ok tt, s1) /\ sv_docker s1 = sv_docker s /\ sv_stacks s1 = sv_stacks s.
Proof. unfold audit. eexists. split; [done|]. by destruct (rq_Audited r). Qed.
Lemma remove_networks_ok {D} (daemon : forall A, call A -> D -> result derr A * D) l d :
  (remove_networks daemon l d).1 = Ok tt.
Proof. revert d. induction l as [|n l IH]; intros d; [done|]. apply IH. Qed.
Lemma delete_found id st l : GetStack id l = Ok st ->
  StoreDeleteStack (sk_ID st) l = Ok (filter (fun x => sk_ID x <> sk_ID st) l).
Proof.
  unfold GetStack, find_row. destruct (list_find _ l) as [[i x]|] eqn:E; [|done]. intros [= ->].
  apply list_find_Some in E as (Hi & Hid & _). unfold StoreDeleteStack, delete_rows.
  destruct (filter (fun s => sk_ID s = sk_ID st) l) as [|y ys] eqn:Ef; [|done].
  assert (st ∈ filter (fun s => sk_ID s = sk_ID st) l) as Hin
    by (apply list_elem_of_filter; split; [done|by eapply list_elem_of_lookup_2]).
  rewrite Ef in Hin. by apply elem_of_nil in Hin.
Qed.

(** Tearing a stack down: an unknown stack, or one of another host, is a 404 and
    nothing happens.  Otherwise the daemon is asked for every container that carries
    the project's label, whoever made it, and only those are ever removed.  On
    success each of them has been force-removed with its anonymous volumes and the
    row is gone, and the guard for destructive actions had no say in it; on failure
    the row stays, and the reply is the daemon's refusal to remove one of them, a
    container that had vanished in the meantime included. *)
Theorem delete_stack range yaml_decode node_decode {D} (daemon : forall A, call A -> D -> result derr A * D) r s :
  let '(reply, s') := DeleteStack range yaml_decode node_decode daemon r s in
  match GetStack (urlParam "id" r) (sv_stacks s) with
  | Err _ => reply = Err ErrAPINotFound /\ refused s s' reply
  | Ok st =>
      if bool_decide (sk_HostID st <> urlParam "hostID" r) then reply = Err ErrAPINotFound /\ refused s s' reply
      else exists ans new,
        (sv_docker s').2 = (sv_docker s).2
          ++ [Called (ContainerList true ["com.docker.compose.project=" +:+ sk_ProjectName st]) ans] ++ new /\
        match ans with
        | Err _ => reply = Err ErrInternal /\ new = [] /\ sv_stacks s' = sv_stacks s
        | Ok sums =>
            (forall c id, c ∈ new -> removal c = Some id -> exists x, x ∈ sums /\ id = sm_ID x) /\
            match reply with
            | Ok _ => sv_stacks s' = filter (fun x => sk_ID x <> sk_ID st) (sv_stacks s)
                      /\ forall x, x ∈ sums -> force_removed (sm_ID x) (Ok tt) ∈ new
            | Err e => sv_stacks s' = sv_stacks s
                       /\ exists x de, x ∈ sums /\ force_removed (sm_ID x) (Err de) ∈ new /\ e = mapError (mapResourceErr de)
            end
        end
  end.
Proof.
  unfold DeleteStack. rewrite HM_bind_eq. unfold store_read.
  destruct (GetStack _ _) as [st|e] eqn:Hst.
  2: { unfold GetStack, find_row in Hst. destruct (list_find _ _) as [[]|]; simplify_eq. done. }
  cbv beta iota. rewrite HM_bind_eq. unfold hguard.
  destruct (decide (sk_HostID st = urlParam "hostID" r)) as [Hh|Hh].
  2: { rewrite (bool_decide_false (sk_HostID st = _)), bool_decide_true by done. done. }
  rewrite (bool_decide_true (sk_HostID st = _)), bool_decide_false by (done || by intros ?). cbn [negb]. unfold mret at 1, HM_ret at 1. cbv beta iota.
  destruct (audit_calm r (rec_target "stack" (sk_ProjectName st) (sk_Name st)) s) as (s1 & Ha & Hd1 & Hs1).
  rewrite HM_bind_eq, Ha. cbv beta iota. rewrite HM_bind_eq. unfold docker at 1. rewrite HM_bind_eq. unfold docker_try at 1.
  destruct (ListProjectContainers daemon _ (sv_docker s1)) as [conts d2] eqn:El.
  apply list_logs in El as (n & El & ans & -> & Hc). rewrite Hd1 in El. unfold of_result at 1.
  destruct ans as [sums|e]; subst conts.
  2: { exists (Err e), []. split; [exact El|]. split; [done|]. split; [done|exact Hs1]. }
  cbv beta iota. rewrite HM_bind_eq. unfold docker at 1. rewrite HM_bind_eq. unfold docker_try at 1. cbn [set_docker sv_docker].
  destruct (remove_all daemon _ d2) as [rm d3] eqn:Er. apply remove_all_logs in Er as (n3 & Er & Hrem & Hrm). unfold of_result at 1.
  rewrite El, <- app_assoc in Er.
  assert (forall c id, c ∈ n3 -> removal c = Some id -> exists x, x ∈ sums /\ id = sm_ID x) as Hrem'.
  { intros c id H1 H2. destruct (Hrem c id H1 H2) as (x & (y & -> & Hy)%list_elem_of_fmap & ->). by exists y. }
  destruct rm as [u|p].
  2: { exists (Ok sums), n3. split; [exact Er|]. split; [exact Hrem'|]. split; [exact Hs1|].
       destruct Hrm as (x & de & (y & -> & Hy)%list_elem_of_fmap & Hc & ->). by exists y, de. }
  cbv beta iota. rewrite HM_bind_eq. unfold docker_try at 1. cbn [set_docker sv_docker].
  destruct (RemoveNetworkByName daemon _ d3) as [u4 d4] eqn:E4.
  assert (emits (fun c => removal c = None) (RemoveNetworkByName daemon (sk_ProjectName st +:+ "_default"))) as Hn
    by (unfold RemoveNetworkByName; emits_walk; done).
  apply Hn in E4 as (n4 & E4 & Q4). cbv beta iota. rewrite HM_bind_eq.
  set (s4 := set_docker d4 _).
  assert (exists s5 n5, (match parseAndPlan range yaml_decode node_decode (sk_ComposeYAML st) (sk_Name st) with
      | Ok (_, p) => docker (remove_networks daemon (pl_Networks p)) | Err _ => mret tt end) s4 = (Ok tt, s5)
      /\ sv_stacks s5 = sv_stacks s /\ (sv_docker s5).2 = d4.2 ++ n5 /\ Forall (fun c => removal c = None) n5)
    as (s5 & n5 & -> & Hs5 & E5 & Q5).
  { destruct (parseAndPlan _ _ _ _ _) as [[m p]|e]; [|by exists s4, []; rewrite app_nil_r].
    unfold docker. rewrite HM_bind_eq. unfold docker_try.
    destruct (remove_networks daemon (pl_Networks p) (sv_docker s4)) as [u5 d5] eqn:E5.
    pose proof (remove_networks_ok daemon (pl_Networks p) (sv_docker s4)) as Hok. rewrite E5 in Hok. simpl in Hok. subst u5.
    apply networks_no_removal in E5 as (n5 & E5 & Q5). eexists _, n5. split; [done|]. done. }
  cbv beta iota. rewrite HM_bind_eq. unfold on_stacks. rewrite Hs5. rewrite (delete_found _ _ _ Hst). cbn.
  exists (Ok sums), (n3 ++ n4 ++ n5). split; [transitivity ((sv_docker s5).2); [done|]; rewrite E5, E4, Er, <- !app_assoc; done|]. split.
  - intros c id [Hc|[Hc|Hc]%elem_of_app]%elem_of_app Hr; [by eapply Hrem'| |]; rewrite Forall_forall in *; exfalso;
      [specialize (Q4 _ Hc)|specialize (Q5 _ Hc)]; simpl in *; congruence.
  - split; [done|]. intros x Hx. apply elem_of_app. left. eapply (Hrm (mkSC (sm_ID x) _ _ _)).
    apply list_elem_of_fmap. by exists x.
Qed.

(** ** The builder *)

(** C38 The stack builder round-trips through the document it writes, given a YAML
    library that reads back what it writes of strings in UTF-8.  For services that the
    builder accepts, with valid names and container names, ports in range with a known
    protocol, volumes and environment keys without white space or separators, values
    that do not end in white space, and dependencies among the services, other than
    themselves, the reply is 200 with a document, and parsing it gives the services
    the builder made of them, networks, commands, restart policies and dependencies
    included.  Under any usable project name, and when the dependencies have an order,
    the document is planned, and the plan has for every service a container with
    exactly its image, ports, volumes and environment.  (White space at the end of a
    value does not come back: see the findings.) *)
Theorem builder_roundtrip range yaml_decode node_decode yaml_marshal {D} (s : srv D) services m :
  YamlLaws yaml_decode node_decode yaml_marshal -> range_ok range ->
  builder_model services = Ok m -> texts m -> Forall (builder_ok services) services ->
  exists doc, (BuilderGenerate yaml_marshal (Ok services) s).1 = Ok (200, JObj [("yaml", JString doc)]) /\
    Parse range yaml_decode node_decode doc = Ok m /\
    forall project, SanitizeProjectName project <> "" -> (exists o, valid_order m o) ->
      exists p, parseAndPlan range yaml_decode node_decode doc project = Ok (m, p) /\
        length (pl_Specs p) = size m /\
        forall b, b ∈ services -> exists spec, spec ∈ pl_Specs p /\
          ds_Image spec = trim_space (bd_Image b) /\ ds_Ports spec = bd_Ports b /\ ds_Volumes spec = bd_Volumes b /\
          ds_Env spec = foldl (fun m e => <[e.1 := e.2]> m) ∅ (bd_Env b).
Proof.
  intros Hy Hr Hm Ht Hok. destruct (builder_model_ok _ _ Hm) as (Hne & Hs & _).
  destruct (parse_written range yaml_decode node_decode yaml_marshal m Hy Hr Hne Ht) as (doc & Hd & Hp); [by apply (builder_wf services)|].
  exists doc. split; [|split; [done|]].
  { unfold BuilderGenerate, mbind, HM_bind, of_result. rewrite Hm. by rewrite Hd. }
  intros project Hpr [o Ho]. destruct (planned range project m Hr Hpr o Ho) as (p & Hbp & order & Hperm & Hspecs).
  { intros n svc (b & Hb & -> & ->)%Hs. rewrite Forall_forall in Hok. destruct (Hok b Hb).
    split; [eexists; by apply parse_builder_ports|eexists; by apply parse_builder_volumes]. }
  exists p. unfold parseAndPlan. rewrite Hp, Hbp. split; [done|].
  split; [by rewrite <- (Forall2_length _ _ _ Hspecs), Hperm, length_names|].
  intros b Hb. assert (m !! trim_space (bd_Name b) = Some (builder_service b)) as Hn by (apply Hs; by exists b).
  assert (trim_space (bd_Name b) ∈ order) as [i Hi]%list_elem_of_lookup by (rewrite Hperm; apply elem_of_names; by eexists).
  destruct (Forall2_lookup_l _ _ _ _ _ Hspecs Hi) as (spec & Hsp & [Him _ He [Hpo _] Hvo _ _]).
  rewrite (svc_of_some _ _ _ Hn) in Him, He, Hpo, Hvo. rewrite Forall_forall in Hok. destruct (Hok b Hb) as [_ _ Op Ov Oe _ _].
  exists spec. split; [by eapply list_elem_of_lookup_2|]. cbn [builder_service sv_Image sv_Ports sv_Volumes sv_Environment] in *.
  rewrite parse_builder_ports in Hpo by done. rewrite parse_builder_volumes in Hvo by done. rewrite env_builder in He by done.
  split_and!; congruence.
Qed.

Definition demo_services : list builderService :=
  [mkBuilder " web " "nginx " "" [mkPort 8080 80 "tcp"; mkPort 0 53 "udp"] [("TZ", "Europe/Paris"); ("MODE", " a=b")]
     [mkVol "data" "/srv/data"; mkVol "" "/tmp"] ["front"] "always" ["nginx"; "-g"] [" db"];
   mkBuilder "db" "postgres:16" "shop.db" [] [] [] [] "" [] []].
Lemma demo_services_ok : Forall (builder_ok demo_services) demo_services.
Proof.
  apply Forall_cons_2; [|apply Forall_cons_2; [|by constructor]].
  - constructor; [by vm_compute|by left|..|].
    1-4: repeat constructor; simpl; try lia; try (by vm_compute); vm_compute; repeat constructor.
    intros d Hd. vm_compute in Hd. apply elem_of_cons in Hd as [->|Hd]; [|by apply elem_of_nil in Hd]. split; [by vm_compute|].
    eexists. split; [by right; left|by vm_compute].
  - constructor; [by vm_compute|by right; vm_compute|by constructor..|]. intros d Hd. vm_compute in Hd. by apply elem_of_nil in Hd.
Qed.
Lemma builder_roundtrip_witness : exists m doc p spec,
  builder_model demo_services = Ok m /\ DemoYaml.demo_marshal m = Some doc /\
  parseAndPlan demo_range DemoYaml.demo_unmarshal DemoYaml.demo_node_decode doc "Shop" = Ok (m, p) /\
  spec ∈ pl_Specs p /\ ds_Image spec = "nginx" /\ ds_Ports spec = [mkPort 8080 80 "tcp"; mkPort 0 53 "udp"].
Proof.
  destruct (builder_model demo_services) as [m|e] eqn:Em; [|by vm_compute in Em].
  destruct (builder_roundtrip demo_range DemoYaml.demo_unmarshal DemoYaml.demo_node_decode DemoYaml.demo_marshal
    (mkSrv (mkDB ∅ ∅ ∅ ∅ ∅ ∅ ∅ [] no_sso) [] [] (0%nat, []) (withAudit "") 0) demo_services m) as (doc & Hd & _ & Hp).
  - apply DemoYaml.demo_yaml_laws.
  - apply demo_range_ok.
  - exact Em.
  - assert (bool_decide (map_Forall (fun n svc => Forall (fun s => valid_utf8 s = true) (n :: svc_texts svc)) (m : gmap string Service)) = true) as Ht.
    { assert (match builder_model demo_services with
        | Ok m => bool_decide (map_Forall (fun n svc => Forall (fun s => valid_utf8 s = true) (n :: svc_texts svc)) (m : gmap string Service))
        | Err _ => true end = true) as Hx by by vm_compute. by rewrite Em in Hx. }
    apply bool_decide_eq_true in Ht. exact Ht.
  - apply demo_services_ok.
  - destruct (Hp "Shop") as (p & Hpp & _ & Hs); [by vm_compute| |].
    + exists ["db"; "web"]. assert (match builder_model demo_services with
        | Ok m => names_of_model m = ["db"; "web"] /\ deps_of m "db" = [] /\ deps_of m "web" = ["db"] | Err _ => True end) as Hx by by vm_compute.
      rewrite Em in Hx. destruct Hx as (Hn & H1 & H2). split; [by rewrite Hn|]. intros [|[|i]] n Hi; simplify_eq/=; [by rewrite H1|].
      rewrite H2. repeat constructor.
    + destruct (Hs (mkBuilder " web " "nginx " "" [mkPort 8080 80 "tcp"; mkPort 0 53 "udp"] [("TZ", "Europe/Paris"); ("MODE", " a=b")]
         [mkVol "data" "/srv/data"; mkVol "" "/tmp"] ["front"] "always" ["nginx"; "-g"] [" db"])) as (spec & Hin & Hi & Hports & _); [by left|].
      assert (DemoYaml.demo_marshal m = Some doc) as Hdoc.
      { unfold BuilderGenerate, mbind, HM_bind, of_result in Hd. rewrite Em in Hd. by injection Hd as <-. }
      exists m, doc, p, spec. split; [reflexivity|]. split; [exact Hdoc|]. split; [exact Hpp|]. split; [exact Hin|]. split; [exact Hi|exact Hports].
Defined.

(** White space at the end of a value is lost on the way back. *)
Example trailing_space_lost :
  normalizeEnvironment "web" (DemoYaml.seq (builderEnvStrings [("PROMPT", "> ")])) = Ok ["PROMPT=>"].
Proof. by vm_compute. Qed.

(** ** A concrete server *)

Definition demo_node (v : string) : node := mkNode KMapping "!!map" v [].
Definition demo_yaml (src : string) : result string (gmap string node) :=
  Ok (<["web" := demo_node "db"]> {["db" := demo_node ""]}).
Definition demo_raw (n : node) : result string rawService :=
  Ok (mkRaw "img" "" zero_node zero_node zero_node zero_node "" zero_node
        (if bool_decide (n_Value n = "") then zero_node else mkNode KSequence "!!seq" "" [mkNode KScalar "!!str" (n_Value n) []])).
(** Names containers after how many there are, and knows no network yet. *)
Definition demo_engine (A : Type) (c : call A) : nat -> result derr A * nat :=
  match c in call A return nat -> result derr A * nat with
  | ImageList _ => fun d => (Ok 1%nat, d)
  | ContainerCreate cfg => fun d => (Ok ("id-" +:+ cc_Name cfg), S d)
  | NetworkInspect n => fun d => (Ok ("net-" +:+ n), d)
  | NetworkCreate n _ => fun d => (Ok ("net-" +:+ n), d)
  | ContainerList _ _ => fun d => (Ok [], d)
  | VolumeInspect _ => fun d => (Ok "", d)
  | ImagePull _ | ContainerStart _ | ContainerStop _ _ | ContainerRestart _ _ | ContainerRemove _ _ _
  | NetworkConnect _ _ _ | NetworkRemove _ | VolumeRemove _ _ | ImageRemove _ _ => fun d => (Ok tt, d)
  end.
Definition demo_srv : srv nat := mkSrv (mkDB ∅ ∅ ∅ ∅ ∅ ∅ ∅ [] no_sso) [] [] (0%nat, []) (withAudit "docker.container.create") 0.
Definition demo_req : request :=
  mkReq "POST" "/hosts/local/stacks" "" "" false ∅ [] {["hostID" := "local"]} None false "" true.
Definition demo_create :=
  CreateStack demo_range (fun p n => Some (n +:+ "/" +:+ p)) demo_yaml demo_raw (fun _ => true) Z.of_nat
    (fun n => "u" +:+ itoa (Z.of_nat n)) demo_engine demo_req (Ok (mkCSR "Shop" "services: ..." false)) demo_srv.

Lemma create_stack_witness :
  range_ok demo_range /\ is_ok demo_create.1 = true /\ sk_Status <$> sv_stacks demo_create.2 = ["running"]
  /\ cc_Name <$> omap creates (sv_docker demo_create.2).2 = ["shop-db"; "shop-web"]
  /\ exists m new, (sv_docker demo_create.2).2 = [] ++ new /\ deps_first m new.
Proof.
  split; [apply demo_range_ok|]. split; [by vm_compute|]. split; [by vm_compute|]. split; [by vm_compute|].
  destruct (create_stack demo_range (fun p n => Some (n +:+ "/" +:+ p)) demo_yaml demo_raw (fun _ => true) Z.of_nat
    (fun n => "u" +:+ itoa (Z.of_nat n)) demo_engine demo_req (Ok (mkCSR "Shop" "services: ..." false)) demo_srv
    demo_create.1 demo_create.2 demo_range_ok) as [(Hr & _)|(q & m & p & row & new & _ & _ & _ & _ & _ & _ & Hlog & Hd & _)].
  - exact (surjective_pairing demo_create).
  - exfalso. assert (is_ok demo_create.1 = true) as Ht by by vm_compute. rewrite Hr in Ht. discriminate Ht.
  - exists m, new. split; [exact Hlog|exact Hd].
Defined.
