(* ===== verification/Contract.v ===== *)
(** * The provider contract as an abstract machine

    server/internal/vprovider/vprovider.go: what the comments of
    [HypervisorProvider] promise of the operations on virtual machines, as a
    function on a table of VMs that knows nothing of tasks, counters, domain
    states or backends.  Drivers may differ in the points a [dialect] lists; the
    name of a new VM is the driver's choice, as long as it is not in use. *)
From S2P Require Import Prelude GoStd VProvider.

(** What a client sees of a VM: its snapshots are ids with the current mark. *)
Record cvm := mkC {
  c_name : string; c_host : string; c_state : string; c_vcpus : Z; c_mem : Z;
  c_snaps : list (string * bool) }.

Definition c_set_state (st : string) (v : cvm) : cvm :=
  mkC (c_name v) (c_host v) st (c_vcpus v) (c_mem v) (c_snaps v).
Definition c_set_host (h : string) (v : cvm) : cvm :=
  mkC (c_name v) h (c_state v) (c_vcpus v) (c_mem v) (c_snaps v).
Definition c_set_hw (n m : Z) (v : cvm) : cvm :=
  mkC (c_name v) (c_host v) (c_state v) n m (c_snaps v).
Definition c_set_snaps (l : list (string * bool)) (v : cvm) : cvm :=
  mkC (c_name v) (c_host v) (c_state v) (c_vcpus v) (c_mem v) l.

Inductive contract_op : Type :=
| CCreate (spec : VMSpec)
| CPower (vm pop : string)
| CDelete (vm : string) (opts : DeleteOptions)
| CReconfigure (vm : string) (spec : VMReconfigureSpec)
| CSnapshot (vm : string) (opts : SnapshotOptions)
| CRevert (vm snap : string)
| CClone (vm : string) (spec : CloneSpec)
| CMigrate (vm host : string) (opts : MigrateOptions).

(** Where drivers may differ: which specifications they refuse, how they count
    the vCPUs of one, and whether a clone may be placed on another host. *)
Record dialect := mkDialect {
  dl_create_ok : VMSpec -> bool;
  dl_vcpus : VMSpec -> Z;
  dl_reconfigure_ok : VMReconfigureSpec -> bool;
  dl_clone_ok : CloneSpec -> bool;
  dl_clone_host : CloneSpec -> string -> string }.

(** The state each power operation leads to, from any state. *)
Definition power_state (pop : string) : string :=
  if bool_decide (pop = PowerStop) then StateStopped
  else if bool_decide (pop = PowerSuspend) then StateSuspended
  else StateRunning.

(** The table, the driver's capabilities and hosts, and the ids it would give
    to a new VM and to a new snapshot. *)
Section Contract.
Context (dl : dialect) (caps : Z) (hosts : string -> bool) (newvm newsnap : string).

Definition need (cap : Z) (c : gmap string cvm)
    (k : result verr string * gmap string cvm) : result verr string * gmap string cvm :=
  if Has caps cap then k else (Err ErrUnsupported, c).
Definition on_vm (vm : string) (c : gmap string cvm)
    (k : cvm -> result verr string * gmap string cvm) : result verr string * gmap string cvm :=
  match c !! vm with Some v => k v | None => (Err ErrNotFound, c) end.

Definition contract (o : contract_op) (c : gmap string cvm)
  : result verr string * gmap string cvm :=
  match o with
  | CCreate spec =>
      need CapCreateVM c
        (if dl_create_ok dl spec
         then (Ok newvm, <[newvm := mkC (vs_Name spec) (vs_HostID spec) StateStopped
                                      (dl_vcpus dl spec) (vs_MemoryMB spec) []]> c)
         else (Err ErrInvalidSpec, c))
  | CPower vm pop =>
      if PowerOp_Valid pop
      then need (PowerOpCapability pop) c (on_vm vm c (fun v =>
             (Ok vm, <[vm := c_set_state (power_state pop) v]> c)))
      else (Err ErrInvalidSpec, c)
  | CDelete vm opts =>
      need CapDeleteVM c (on_vm vm c (fun v =>
        if bool_decide (c_state v = StateRunning) && negb (do_Force opts) then (Err ErrConflict, c)
        else (Ok vm, delete vm c)))
  | CReconfigure vm spec =>
      need CapReconfigureVM c (on_vm vm c (fun v =>
        if dl_reconfigure_ok dl spec
        then (Ok vm, <[vm := c_set_hw (default (c_vcpus v) (rs_VCPUs spec))
                               (default (c_mem v) (rs_MemoryMB spec)) v]> c)
        else (Err ErrInvalidSpec, c)))
  | CSnapshot vm opts =>
      need CapSnapshot c (on_vm vm c (fun v =>
        (Ok vm, <[vm := c_set_snaps (((fun s => (s.1, false)) <$> c_snaps v) ++ [(newsnap, true)]) v]> c)))
  | CRevert vm snap =>
      need CapRevertSnapshot c (on_vm vm c (fun v =>
        if existsb (fun s => bool_decide (s.1 = snap)) (c_snaps v)
        then (Ok vm, <[vm := c_set_snaps ((fun s => (s.1, bool_decide (s.1 = snap))) <$> c_snaps v) v]> c)
        else (Err ErrNotFound, c)))
  | CClone vm spec =>
      need CapClone c (on_vm vm c (fun v =>
        if dl_clone_ok dl spec
        then (Ok newvm, <[newvm := mkC (cs_Name spec) (dl_clone_host dl spec (c_host v))
                                     (if cs_PowerOn spec then StateRunning else StateStopped)
                                     (c_vcpus v) (c_mem v) []]> c)
        else (Err ErrInvalidSpec, c)))
  | CMigrate vm host opts =>
      need CapMigrate c (on_vm vm c (fun v =>
        if hosts host then (Ok vm, <[vm := c_set_host host v]> c) else (Err ErrInvalidSpec, c)))
  end.

(** Where the drivers leave the contract: a revert to a snapshot that the VM does
    not have is refused, but takes the current mark off the VM's snapshots.  What
    is left of the table [c] after an operation answered with [r]. *)
Definition unmarked (v : cvm) : cvm := c_set_snaps ((fun s => (s.1, false)) <$> c_snaps v) v.
Definition forgets (o : contract_op) (r : result verr string) (c : gmap string cvm) : gmap string cvm :=
  match o, r with CRevert vm _, Err ErrNotFound => alter unmarked vm c | _, _ => c end.

(** The contract and the deviation in one function. *)
Definition performs (o : contract_op) (c : gmap string cvm) : result verr string * gmap string cvm :=
  match o with
  | CRevert vm snap =>
      need CapRevertSnapshot c (on_vm vm c (fun v =>
        let found := existsb (fun s => bool_decide (s.1 = snap)) (c_snaps v) in
        let c' := <[vm := c_set_snaps ((fun s => (s.1, bool_decide (s.1 = snap))) <$> c_snaps v) v]> c in
        (if found then Ok vm else Err ErrNotFound, c')))
  | _ => contract o c
  end.
End Contract.

Lemma unmarked_not_found (snap : string) (l : list (string * bool)) :
  existsb (fun s => bool_decide (s.1 = snap)) l = false ->
  (fun s => (s.1, bool_decide (s.1 = snap))) <$> l = (fun s => (s.1, false)) <$> l.
Proof.
  induction l as [|s l IH]; [done|]. intros [H1 H2]%orb_false_iff. by rewrite !fmap_cons, H1, (IH H2).
Qed.
Lemma performs_spec dl caps hosts newvm newsnap o c r c' :
  performs dl caps hosts newvm newsnap o c = (r, c') ->
  exists c1, contract dl caps hosts newvm newsnap o c = (r, c1) /\ c' = forgets o r c1.
Proof.
  destruct o; try (intros H; exists c'; split; [exact H|by destruct r as [|[]]]).
  simpl. unfold need, on_vm. destruct (Has caps CapRevertSnapshot); [|intros [= <- <-]; by exists c].
  destruct (c !! vm) as [v|] eqn:Hv.
  2:{ intros [= <- <-]. exists c. split; [done|]. simpl. symmetry. apply alter_id. intros v. by rewrite Hv. }
  destruct (existsb _ _) eqn:Hf; intros [= <- <-]; [by eexists|]. exists c. split; [done|]. simpl.
  apply map_eq. intros k. destruct (decide (vm = k)) as [<-|Hne].
  - rewrite lookup_insert_eq, lookup_alter_eq, Hv. simpl. unfold unmarked. by rewrite (unmarked_not_found snap _ Hf).
  - by rewrite lookup_insert_ne, lookup_alter_ne.
Qed.

(** A run of the machine: each operation with its outcome, and ids that were not
    in use when they were given out. *)
Inductive contract_trace (dl : dialect) (caps : Z) (hosts : string -> bool)
  : gmap string cvm -> list (contract_op * result verr string) -> gmap string cvm -> Prop :=
| trace_nil c : contract_trace dl caps hosts c [] c
| trace_cons c o r c1 tr c2 newvm newsnap :
    c !! newvm = None ->
    (forall vm v, c !! vm = Some v -> newsnap ∉ (c_snaps v).*1) ->
    contract dl caps hosts newvm newsnap o c = (r, c1) ->
    contract_trace dl caps hosts (forgets o r c1) tr c2 ->
    contract_trace dl caps hosts c ((o, r) :: tr) c2.

(** The contract's view of a VM and of its snapshots. *)
Definition cvm_of (v : VM) (snaps : list Snapshot) : cvm :=
  mkC (vm_Name v) (vm_HostID v) (vm_State v) (vm_VCPUs v) (vm_MemoryMB v)
    ((fun s => (snap_ID s, snap_IsCurrent s)) <$> snaps).

(** What an operation reports: the entity its task names. *)
Definition entity_of {E} (r : result E (option Task)) : result E string :=
  match r with
  | Ok (Some t) => Ok (task_EntityID t)
  | Ok None => Ok ""
  | Err e => Err e
  end.

(** The contract's errors are the sentinels; a driver wraps them in errors of
    its own type. *)
Definition map_err {E F A} (f : E -> F) (r : result E A) : result F A :=
  match r with Ok a => Ok a | Err e => Err (f e) end.

(** A driver that follows the machine step by step, as long as an invariant of
    its own holds and its counter, which an operation advances by at most [step],
    stays below [lim], follows it on every run. *)
Section Runs.
Context {P E : Type} (emb : verr -> E)
  (exec : time -> contract_op -> P -> result E (option Task) * P)
  (view : P -> gmap string cvm) (inv : P -> Prop) (seq : P -> Z)
  (dl : dialect) (caps : Z) (hosts : string -> bool) (ok : contract_op -> Prop)
  (step lim : Z).

Definition follows (o : contract_op) (p : P) (r : result E (option Task) * P) : Prop :=
  exists newvm newsnap out,
    view p !! newvm = None /\
    (forall vm v, view p !! vm = Some v -> newsnap ∉ (c_snaps v).*1) /\
    performs dl caps hosts newvm newsnap o (view p) = (out, view r.2) /\
    entity_of r.1 = map_err emb out.

Definition refines_step : Prop := forall now o p,
  inv p -> seq p + step < lim -> ok o ->
  inv (exec now o p).2 /\ seq (exec now o p).2 <= seq p + step /\ follows o p (exec now o p).

Fixpoint run_ops (l : list (time * contract_op)) (p : P) : list (result E string) * P :=
  match l with
  | [] => ([], p)
  | (now, o) :: l =>
      let '(r, p) := exec now o p in
      let '(outs, p) := run_ops l p in (entity_of r :: outs, p)
  end.

(** The run [l] from [p], seen as a run of the machine. *)
Definition follows_run (l : list (time * contract_op)) (p : P) : Prop :=
  exists tr, contract_trace dl caps hosts (view p) tr (view (run_ops l p).2) /\
    tr.*1 = l.*2 /\ (run_ops l p).1 = map_err emb <$> tr.*2.

Lemma run_refines l p :
  0 <= step -> refines_step -> inv p -> seq p + step * Z.of_nat (length l) < lim -> Forall (fun o => ok o.2) l ->
  follows_run l p /\ inv (run_ops l p).2.
Proof.
  unfold follows_run. intros H0 Hstep. revert p.
  induction l as [|[now o] l IH]; intros p Hinv Hs Hall.
  { split; [|done]. exists []. split; [constructor|done]. }
  apply Forall_cons in Hall as [Ho Hall]. simpl in Hs, Ho.
  destruct (Hstep now o p Hinv ltac:(nia) Ho) as (Hinv' & Hseq & newvm & newsnap & out & Hvm & Hsn & Hc & Hout).
  simpl. destruct (exec now o p) as [r p'] eqn:Er. simpl in *.
  destruct (IH p' Hinv' ltac:(nia) Hall) as ((tr & Htr & H1 & H2) & Hend).
  destruct (run_ops l p') as [outs p2]. simpl in *. split; [|done].
  destruct (performs_spec _ _ _ _ _ _ _ _ _ Hc) as (c1 & Hc1 & Hf).
  exists ((o, out) :: tr). split; [eapply trace_cons; [done..|]; by rewrite <- Hf|].
  split; [exact (f_equal (cons o) H1)|]. exact (f_equal2 cons Hout H2).
Qed.
End Runs.

(** An update of one key. *)
Lemma map_update_eq {A} (m m' : gmap string A) k v :
  m' !! k = Some v -> (forall k', k <> k' -> m' !! k' = m !! k') -> m' = <[k := v]> m.
Proof.
  intros Hk Hne. apply map_eq. intros k'. destruct (decide (k = k')) as [<-|Hk'].
  - by rewrite Hk, lookup_insert_eq.
  - by rewrite Hne, lookup_insert_ne.
Qed.

Lemma alter_some {A} (f : A -> A) (m : gmap string A) k x :
  m !! k = Some x -> alter f k m = <[k := f x]> m.
Proof.
  intros Hx. apply map_update_eq; [by rewrite lookup_alter_eq, Hx|].
  intros k' Hne. by rewrite lookup_alter_ne.
Qed.
