(* ===== verification/SimContract.v ===== *)
(** * The simulator follows the provider contract

    The write operations of [Sim] on virtual machines, seen as steps of the
    machine of Contract.v. *)
From S2P Require Import Prelude GoStd VProvider Sim SimFacts Contract.

(** The simulator refuses only what has no name, vCPU or memory, counts the flat
    vCPUs, checks no reconfiguration and no clone, and keeps clones in place. *)
Definition sim_dialect : dialect := {|
  dl_create_ok spec :=
    negb (bool_decide (trim_space (vs_Name spec) = "") || (vs_VCPUs spec <=? 0) || (vs_MemoryMB spec <=? 0));
  dl_vcpus := vs_VCPUs;
  dl_reconfigure_ok _ := true;
  dl_clone_ok _ := true;
  dl_clone_host _ h := h |}.

Definition sim_op_of (o : contract_op) : sim_op :=
  match o with
  | CCreate spec => OpCreateVM spec
  | CPower vm pop => OpPower vm pop
  | CDelete vm opts => OpDeleteVM vm opts
  | CReconfigure vm spec => OpReconfigure vm spec
  | CSnapshot vm opts => OpSnapshot vm opts
  | CRevert vm snap => OpRevert vm snap
  | CClone vm spec => OpClone vm spec
  | CMigrate vm host opts => OpMigrate vm host opts
  end.

Definition sim_step (now : time) (o : contract_op) : sim -> result verr (option Task) * sim :=
  match o with
  | CCreate spec => CreateVM spec now
  | CPower vm pop => PowerOp vm pop now
  | CDelete vm opts => DeleteVM vm opts now
  | CReconfigure vm spec => ReconfigureVM vm spec now
  | CSnapshot vm opts => CreateSnapshot vm opts now now
  | CRevert vm snap => RevertSnapshot vm snap now
  | CClone vm spec => Clone vm spec now
  | CMigrate vm host opts => MigrateVM vm host opts now
  end.

Lemma sim_step_exec now o p : (sim_step now o p).2 = (sim_exec now (sim_op_of o) p).2.
Proof. by destruct o. Qed.

Definition sim_view (p : sim) : gmap string cvm :=
  map_imap (fun id v => Some (cvm_of v (vm_snapshots id p))) (sim_vms p).

Lemma sim_view_lookup p k :
  sim_view p !! k = (fun v => cvm_of v (vm_snapshots k p)) <$> sim_vms p !! k.
Proof. unfold sim_view. rewrite map_lookup_imap. by destruct (sim_vms p !! k). Qed.

(** No operation protects a VM, so none of a run is protected. *)
Definition unprotected (p : sim) : Prop := forall k v, sim_vms p !! k = Some v -> vm_Protected v = false.

Record sim_inv (caps : Z) (hosts : gmap string Host) (p : sim) : Prop := {
  si_wf : wf p;
  si_seq : 3 <= sim_seq p;
  si_open : unprotected p;
  si_caps : sim_caps p = caps;
  si_hosts : sim_hosts p = hosts }.

Lemma sim_hosts_step now o p : sim_hosts (sim_step now o p).2 = sim_hosts p.
Proof. destruct o; simpl; sim_cases; done. Qed.

Lemma sim_unprotected_step now o p : unprotected p -> unprotected (sim_step now o p).2.
Proof.
  intros Hu. destruct o; simpl; sim_cases; try done;
    try (intros k w Hk; simpl in Hk;
         first [apply lookup_insert_Some in Hk as [[_ <-]|[_ Hk]]
               |apply lookup_delete_Some in Hk as [_ Hk]]; simpl; by eauto).
  intros k w Hk. simpl in Hk. apply lookup_insert_Some in Hk as [[_ <-]|[_ Hk]]; [|by eauto].
  unfold power_target. repeat case_match; simpl; by eauto.
Qed.

Lemma sim_inv_step caps hosts now o p :
  sim_inv caps hosts p -> sim_seq p + 2 < 2 ^ 63 ->
  sim_inv caps hosts (sim_step now o p).2 /\ sim_seq (sim_step now o p).2 <= sim_seq p + 2.
Proof.
  intros [Hwf H3 Hu Hc Hh] Hs. pose proof (wf_seq p Hwf) as H0.
  pose proof (seq_bound now (sim_op_of o) p H0 Hs) as Hb.
  split; [|rewrite sim_step_exec; lia]. constructor.
  - rewrite sim_step_exec. by apply sim_exec_wf.
  - rewrite sim_step_exec. lia.
  - by apply sim_unprotected_step.
  - by rewrite sim_step_exec, sim_exec_caps.
  - by rewrite sim_hosts_step.
Qed.

Section Steps.
Context (caps : Z) (hosts : gmap string Host).
Definition sim_host (h : string) : bool := bool_decide (is_Some (hosts !! h)).
Local Abbreviation table p :=
  (performs sim_dialect caps sim_host ("vm" +:+ "-" +:+ itoa (sim_seq p + 1))
     ("snap" +:+ "-" +:+ itoa (sim_seq p + 1))).

Lemma sim_follows now o p out :
  sim_inv caps hosts p ->
  table p o (sim_view p) = (out, sim_view (sim_step now o p).2) ->
  entity_of (sim_step now o p).1 = out ->
  follows id sim_view sim_dialect caps sim_host o p (sim_step now o p).
Proof.
  intros [Hwf H3 _ _ _] Hc Hout. do 2 eexists. exists out.
  split; [by rewrite sim_view_lookup, (vm_slot_free p Hwf H3)|]. split; [|split; [exact Hc|]].
  - intros vm v Hv. rewrite sim_view_lookup in Hv. apply fmap_Some in Hv as (w & _ & ->). simpl.
    rewrite <- list_fmap_compose. intros (s & Hs & Hin)%list_elem_of_fmap.
    unfold vm_snapshots in Hin. destruct (sim_snapshots p !! vm) as [l|] eqn:El; simpl in Hin; [|set_solver].
    destruct (wf_snaps p Hwf _ _ El) as (_ & Hall & _). rewrite Forall_forall in Hall.
    destruct (Hall s Hin) as [_ Hiss]. change ("snap" +:+ "-" +:+ itoa (sim_seq p + 1) = snap_ID s) in Hs. rewrite <- Hs in Hiss.
    by apply issued_fresh in Hiss.
  - rewrite Hout. by destruct out.
Qed.

Lemma sim_view_same p p' : sim_vms p' = sim_vms p -> sim_snapshots p' = sim_snapshots p ->
  sim_view p' = sim_view p.
Proof.
  intros H1 H2. apply map_eq. intros k. rewrite !sim_view_lookup. unfold vm_snapshots. by rewrite H1, H2.
Qed.

Lemma done_view kind e now p : sim_view (done_with kind e now p).2 = sim_view p.
Proof. rewrite done_with_eq. by apply sim_view_same. Qed.

Lemma done_entity kind e now p : entity_of (done_with kind e now p).1 = Ok e.
Proof. by rewrite done_with_eq. Qed.

(** The view after one VM, its snapshots included, was written. *)
Lemma sim_view_put p p' k v snaps :
  sim_vms p' = <[k := v]> (sim_vms p) ->
  vm_snapshots k p' = snaps -> (forall k', k <> k' -> vm_snapshots k' p' = vm_snapshots k' p) ->
  sim_view p' = <[k := cvm_of v snaps]> (sim_view p).
Proof.
  intros H1 H2 H3. apply map_update_eq.
  - by rewrite sim_view_lookup, H1, lookup_insert_eq, H2.
  - intros k' Hk. by rewrite !sim_view_lookup, H1, lookup_insert_ne, H3.
Qed.

Lemma sim_table_lookup p vm v : sim_vms p !! vm = Some v ->
  sim_view p !! vm = Some (cvm_of v (vm_snapshots vm p)).
Proof. intros H. by rewrite sim_view_lookup, H. Qed.

Lemma sim_table_missing p vm : sim_vms p !! vm = None -> sim_view p !! vm = None.
Proof. intros H. by rewrite sim_view_lookup, H. Qed.

Local Abbreviation step_ok o p := (forall now, sim_inv caps hosts p -> sim_seq p + 2 < 2 ^ 63 ->
  exists out, table p o (sim_view p) = (out, sim_view (sim_step now o p).2) /\
              entity_of (sim_step now o p).1 = out).

Lemma sim_create_step spec p : step_ok (CCreate spec) p.
Proof.
  intros now [Hwf H3 _ Hcaps _] Hs. pose proof (wf_seq p Hwf). simpl. unfold need, CreateVM.
  rewrite Hcaps. destruct (Has caps CapCreateVM); cbn [negb]; [|by eexists].
  destruct (_ || _ || _) eqn:Hok; cbn [negb]; [by eexists|].
  rewrite nextID_eq by lia. eexists. split; [|apply done_entity]. rewrite done_view. f_equal.
  symmetry. erewrite (sim_view_put p _ _ _ []); [|reflexivity| |reflexivity]; [reflexivity|].
  apply (no_orphan_snapshots p); [done|]. by apply vm_slot_free.
Qed.

Lemma sim_power_step vm pop p : step_ok (CPower vm pop) p.
Proof.
  intros now [Hwf H3 _ Hcaps _] Hs. simpl. unfold need, on_vm, PowerOp. rewrite Hcaps.
  destruct (PowerOp_Valid pop) eqn:Hv; simpl; [|by eexists].
  destruct (Has caps (PowerOpCapability pop)); simpl; [|by eexists].
  rewrite sim_view_lookup. destruct (sim_vms p !! vm) as [v|]; simpl; [|by eexists].
  eexists. split; [|apply done_entity]. rewrite done_view. f_equal. symmetry.
  erewrite (sim_view_put p); [|done|done|done]. f_equal. unfold power_target, power_state.
  apply bool_decide_eq_true in Hv. rewrite !elem_of_cons, elem_of_nil in Hv.
  destruct Hv as [->|[->|[->|[->|[->|[]]]]]]; done.
Qed.

Lemma sim_delete_step vm opts p : step_ok (CDelete vm opts) p.
Proof.
  intros now [Hwf H3 Hu Hcaps _] Hs. simpl. unfold need, on_vm, DeleteVM. rewrite Hcaps.
  destruct (Has caps CapDeleteVM); simpl; [|by eexists].
  rewrite sim_view_lookup. destruct (sim_vms p !! vm) as [v|] eqn:Hv; simpl; [|by eexists].
  rewrite (Hu vm v Hv). destruct (_ && _); [by eexists|]. eexists. split; [|apply done_entity]. rewrite done_view.
  f_equal. apply map_eq. intros k. rewrite sim_view_lookup. simpl. unfold vm_snapshots. simpl.
  destruct (decide (vm = k)) as [<-|Hne]; [by rewrite !lookup_delete_eq|].
  by rewrite !lookup_delete_ne, sim_view_lookup.
Qed.

Lemma sim_reconfigure_step vm spec p : step_ok (CReconfigure vm spec) p.
Proof.
  intros now [Hwf H3 _ Hcaps _] Hs. simpl. unfold need, on_vm, ReconfigureVM. rewrite Hcaps.
  destruct (Has caps CapReconfigureVM); simpl; [|by eexists].
  rewrite sim_view_lookup. destruct (sim_vms p !! vm) as [v|]; simpl; [|by eexists].
  eexists. split; [|apply done_entity]. rewrite done_view. f_equal. symmetry.
  by erewrite (sim_view_put p); [|reflexivity|reflexivity|reflexivity].
Qed.

Lemma sim_migrate_step vm host opts p : step_ok (CMigrate vm host opts) p.
Proof.
  intros now [Hwf H3 _ Hcaps Hh] Hs. simpl. unfold need, on_vm, MigrateVM, sim_host. rewrite Hcaps, <- Hh.
  destruct (Has caps CapMigrate); simpl; [|by eexists].
  rewrite sim_view_lookup. destruct (sim_vms p !! vm) as [v|]; simpl; [|by eexists].
  destruct (sim_hosts p !! host); simpl; [|by eexists].
  eexists. split; [|apply done_entity]. rewrite done_view. f_equal. symmetry.
  by erewrite (sim_view_put p); [|reflexivity|reflexivity|reflexivity].
Qed.

Lemma sim_clone_step vm spec p : step_ok (CClone vm spec) p.
Proof.
  intros now [Hwf H3 _ Hcaps _] Hs. pose proof (wf_seq p Hwf). simpl. unfold need, on_vm, Clone.
  rewrite Hcaps. destruct (Has caps CapClone); cbn [negb]; [|by eexists].
  rewrite sim_view_lookup. destruct (sim_vms p !! vm) as [v|]; cbn [fmap option_fmap option_map]; [|by eexists].
  rewrite nextID_eq by lia. eexists. split; [|apply done_entity]. rewrite done_view. f_equal.
  symmetry. erewrite (sim_view_put p _ _ _ []); [|reflexivity| |reflexivity]; [reflexivity|].
  apply (no_orphan_snapshots p); [done|]. by apply vm_slot_free.
Qed.

Lemma sim_snapshot_step vm opts p : step_ok (CSnapshot vm opts) p.
Proof.
  intros now [Hwf H3 _ Hcaps _] Hs. pose proof (wf_seq p Hwf). simpl. unfold need, on_vm, CreateSnapshot.
  rewrite Hcaps. destruct (Has caps CapSnapshot); cbn [negb]; [|by eexists].
  rewrite sim_view_lookup. destruct (sim_vms p !! vm) as [v|]; cbn [fmap option_fmap option_map]; [|by eexists].
  rewrite nextID_eq by lia. eexists. split; [|apply done_entity]. rewrite done_view. f_equal. symmetry.
  erewrite (sim_view_put p _ vm); [|done|unfold vm_snapshots; simpl; by rewrite lookup_insert_eq|].
  - f_equal. unfold cvm_of, c_set_snaps. simpl. by rewrite fmap_app, <- !list_fmap_compose.
  - intros k Hk. unfold vm_snapshots. simpl. by rewrite lookup_insert_ne.
Qed.

Lemma sim_revert_step vm snap p : step_ok (CRevert vm snap) p.
Proof.
  intros now [Hwf H3 _ Hcaps _] Hs. simpl. unfold need, on_vm, RevertSnapshot. rewrite Hcaps.
  destruct (Has caps CapRevertSnapshot); simpl; [|by eexists].
  rewrite sim_view_lookup. destruct (sim_snapshots p !! vm) as [l|] eqn:Hl.
  - destruct (wf_snapdom p Hwf vm) as [v Hv]; [by eexists|]. rewrite Hv. simpl.
    assert (vm_snapshots vm p = l) as El by (unfold vm_snapshots; by rewrite Hl). rewrite El.
    replace (existsb (fun s : string * bool => bool_decide (s.1 = snap)) ((fun s => (snap_ID s, snap_IsCurrent s)) <$> l))
      with (existsb (fun s => bool_decide (snap_ID s = snap)) l)
      by (clear; induction l as [|s l IH]; [done|simpl; by rewrite IH]).
    set (p1 := set_snapshots _ p).
    assert (sim_view p1 = <[vm := c_set_snaps ((fun s => (s.1, bool_decide (s.1 = snap))) <$>
              ((fun s => (snap_ID s, snap_IsCurrent s)) <$> l)) (cvm_of v l)]> (sim_view p)) as Hview.
    { erewrite (sim_view_put p _ vm v); [|unfold p1; simpl; by rewrite insert_id
                                        |unfold p1, vm_snapshots; simpl; by rewrite lookup_insert_eq|].
      - f_equal. unfold cvm_of, c_set_snaps. simpl. by rewrite <- !list_fmap_compose.
      - intros k Hk. unfold p1, vm_snapshots. simpl. by rewrite lookup_insert_ne. }
    destruct (existsb _ l); simpl.
    + eexists. split; [|apply done_entity]. rewrite done_view. f_equal. by rewrite <- Hview.
    + eexists. split; [|done]. by rewrite <- Hview.
  - destruct (sim_vms p !! vm) as [v|] eqn:Hv; simpl; [|by eexists].
    assert (vm_snapshots vm p = []) as El by (unfold vm_snapshots; by rewrite Hl). rewrite El. simpl.
    eexists. split; [|done]. f_equal. apply insert_id. by rewrite sim_view_lookup, Hv, El.
Qed.

Lemma sim_refines_step :
  refines_step id sim_step sim_view (sim_inv caps hosts) sim_seq sim_dialect caps sim_host (fun _ => True) 2 (2 ^ 63).
Proof.
  intros now o p Hinv Hs _. destruct (sim_inv_step caps hosts now o p Hinv Hs) as [Hi Hq].
  split; [done|]. split; [done|].
  assert (exists out, table p o (sim_view p) = (out, sim_view (sim_step now o p).2) /\
                      entity_of (sim_step now o p).1 = out) as (out & H1 & H2)
    by (destruct o; auto using sim_create_step, sim_power_step, sim_delete_step, sim_reconfigure_step,
          sim_snapshot_step, sim_revert_step, sim_clone_step, sim_migrate_step).
  by apply (sim_follows now o p out).
Qed.
End Steps.
