(* ===== verification/Kvm.v ===== *)
(** * The KVM driver: libvirt-native data, normalization, operations

    server/internal/vprovider/kvm/{libvirt,kvm,kvm_maintenance,sim_backend}.go:
    the core of the KVM provider over a backend.  The seam [libvirtBackend] is a
    class over the type of backend states; the in-memory backend the default
    build uses is an instance of it.  A method that reads the clock takes its
    readings as arguments, in the order it takes them. *)
From S2P Require Import Prelude GoStd VProvider Sim.

(** ** libvirt's enumeration of domain states *)

Definition domNostate : Z := 0.
Definition domRunning : Z := 1.
Definition domBlocked : Z := 2.
Definition domPaused : Z := 3.
Definition domShutdown : Z := 4.
Definition domShutoff : Z := 5.
Definition domCrashed : Z := 6.
Definition domPMSuspended : Z := 7.

(** [libvirtState.raw]. *)
Definition raw (s : Z) : string :=
  if s =? domNostate then "nostate"
  else if s =? domRunning then "running"
  else if s =? domBlocked then "blocked"
  else if s =? domPaused then "paused"
  else if s =? domShutdown then "shutdown"
  else if s =? domShutoff then "shutoff"
  else if s =? domCrashed then "crashed"
  else if s =? domPMSuspended then "pmsuspended"
  else "unknown".

Definition normalizeState (s : Z) : string :=
  if (s =? domRunning) || (s =? domBlocked) then StateRunning
  else if (s =? domShutoff) || (s =? domShutdown) then StateStopped
  else if s =? domPaused then StatePaused
  else if s =? domPMSuspended then StateSuspended
  else if s =? domCrashed then StateError
  else StateUnknown.

(** ** libvirt-native data *)

Record libvirtDisk := mkLDisk {
  ld_Target : string; ld_Driver : string; ld_Source : string; ld_Pool : string;
  ld_CapBytes : Z; ld_QoS : option DiskQoS; ld_Provisioning : string; ld_Discard : bool }.

Record libvirtNIC := mkLNIC {
  ln_MAC : string; ln_Network : string; ln_Model : string; ln_Link : bool }.

Record libvirtPool := mkLPool {
  lp_UUID : string; lp_Name : string; lp_Type : string; lp_CapBytes : Z; lp_AvailBytes : Z;
  lp_Active : bool; lp_Hosts : list string }.

Record libvirtNet := mkLNet {
  lw_UUID : string; lw_Name : string; lw_Mode : string; lw_VLAN : Z }.

Record libvirtNode := mkLNode {
  lnd_ID : string; lnd_Name : string; lnd_Online : bool; lnd_CPUs : Z; lnd_MHz : Z;
  lnd_MemoryKB : Z; lnd_UsedKB : Z; lnd_Version : string }.

(** A nil map of labels is the empty one. *)
Record libvirtDomain := mkDom {
  d_UUID : string; d_Name : string; d_State : Z; d_HostID : string; d_VCPUs : Z; d_MemoryKB : Z;
  d_OSType : string; d_Firmware : string; d_TPM : bool; d_SecureBoot : bool;
  d_Disks : list libvirtDisk; d_NICs : list libvirtNIC; d_IPs : list string;
  d_Labels : gmap string string; d_Created : Z; d_BootISO : string;
  d_CloudInit : option CloudInitSpec; d_SeedISO : string; d_CPU : option CPUSpec;
  d_IsTemplate : bool; d_Sysprep : option SysprepSpec; d_SysprepISO : string;
  d_Resources : option ResourceSpec }.

(** Assignments through a [*libvirtDomain]. *)
Definition dom_set_UUID (v : string) (d : libvirtDomain) : libvirtDomain :=
  mkDom v (d_Name d) (d_State d) (d_HostID d) (d_VCPUs d) (d_MemoryKB d) (d_OSType d)
    (d_Firmware d) (d_TPM d) (d_SecureBoot d) (d_Disks d) (d_NICs d) (d_IPs d) (d_Labels d)
    (d_Created d) (d_BootISO d) (d_CloudInit d) (d_SeedISO d) (d_CPU d) (d_IsTemplate d)
    (d_Sysprep d) (d_SysprepISO d) (d_Resources d).
Definition dom_set_Name (v : string) (d : libvirtDomain) : libvirtDomain :=
  mkDom (d_UUID d) v (d_State d) (d_HostID d) (d_VCPUs d) (d_MemoryKB d) (d_OSType d)
    (d_Firmware d) (d_TPM d) (d_SecureBoot d) (d_Disks d) (d_NICs d) (d_IPs d) (d_Labels d)
    (d_Created d) (d_BootISO d) (d_CloudInit d) (d_SeedISO d) (d_CPU d) (d_IsTemplate d)
    (d_Sysprep d) (d_SysprepISO d) (d_Resources d).
Definition dom_set_State (v : Z) (d : libvirtDomain) : libvirtDomain :=
  mkDom (d_UUID d) (d_Name d) v (d_HostID d) (d_VCPUs d) (d_MemoryKB d) (d_OSType d)
    (d_Firmware d) (d_TPM d) (d_SecureBoot d) (d_Disks d) (d_NICs d) (d_IPs d) (d_Labels d)
    (d_Created d) (d_BootISO d) (d_CloudInit d) (d_SeedISO d) (d_CPU d) (d_IsTemplate d)
    (d_Sysprep d) (d_SysprepISO d) (d_Resources d).
Definition dom_set_HostID (v : string) (d : libvirtDomain) : libvirtDomain :=
  mkDom (d_UUID d) (d_Name d) (d_State d) v (d_VCPUs d) (d_MemoryKB d) (d_OSType d)
    (d_Firmware d) (d_TPM d) (d_SecureBoot d) (d_Disks d) (d_NICs d) (d_IPs d) (d_Labels d)
    (d_Created d) (d_BootISO d) (d_CloudInit d) (d_SeedISO d) (d_CPU d) (d_IsTemplate d)
    (d_Sysprep d) (d_SysprepISO d) (d_Resources d).
Definition dom_set_VCPUs (v : Z) (d : libvirtDomain) : libvirtDomain :=
  mkDom (d_UUID d) (d_Name d) (d_State d) (d_HostID d) v (d_MemoryKB d) (d_OSType d)
    (d_Firmware d) (d_TPM d) (d_SecureBoot d) (d_Disks d) (d_NICs d) (d_IPs d) (d_Labels d)
    (d_Created d) (d_BootISO d) (d_CloudInit d) (d_SeedISO d) (d_CPU d) (d_IsTemplate d)
    (d_Sysprep d) (d_SysprepISO d) (d_Resources d).
Definition dom_set_MemoryKB (v : Z) (d : libvirtDomain) : libvirtDomain :=
  mkDom (d_UUID d) (d_Name d) (d_State d) (d_HostID d) (d_VCPUs d) v (d_OSType d) (d_Firmware d)
    (d_TPM d) (d_SecureBoot d) (d_Disks d) (d_NICs d) (d_IPs d) (d_Labels d) (d_Created d)
    (d_BootISO d) (d_CloudInit d) (d_SeedISO d) (d_CPU d) (d_IsTemplate d) (d_Sysprep d)
    (d_SysprepISO d) (d_Resources d).
Definition dom_set_Disks (v : list libvirtDisk) (d : libvirtDomain) : libvirtDomain :=
  mkDom (d_UUID d) (d_Name d) (d_State d) (d_HostID d) (d_VCPUs d) (d_MemoryKB d) (d_OSType d)
    (d_Firmware d) (d_TPM d) (d_SecureBoot d) v (d_NICs d) (d_IPs d) (d_Labels d) (d_Created d)
    (d_BootISO d) (d_CloudInit d) (d_SeedISO d) (d_CPU d) (d_IsTemplate d) (d_Sysprep d)
    (d_SysprepISO d) (d_Resources d).
Definition dom_set_NICs (v : list libvirtNIC) (d : libvirtDomain) : libvirtDomain :=
  mkDom (d_UUID d) (d_Name d) (d_State d) (d_HostID d) (d_VCPUs d) (d_MemoryKB d) (d_OSType d)
    (d_Firmware d) (d_TPM d) (d_SecureBoot d) (d_Disks d) v (d_IPs d) (d_Labels d) (d_Created d)
    (d_BootISO d) (d_CloudInit d) (d_SeedISO d) (d_CPU d) (d_IsTemplate d) (d_Sysprep d)
    (d_SysprepISO d) (d_Resources d).
Definition dom_set_Labels (v : gmap string string) (d : libvirtDomain) : libvirtDomain :=
  mkDom (d_UUID d) (d_Name d) (d_State d) (d_HostID d) (d_VCPUs d) (d_MemoryKB d) (d_OSType d)
    (d_Firmware d) (d_TPM d) (d_SecureBoot d) (d_Disks d) (d_NICs d) (d_IPs d) v (d_Created d)
    (d_BootISO d) (d_CloudInit d) (d_SeedISO d) (d_CPU d) (d_IsTemplate d) (d_Sysprep d)
    (d_SysprepISO d) (d_Resources d).
Definition dom_set_IsTemplate (v : bool) (d : libvirtDomain) : libvirtDomain :=
  mkDom (d_UUID d) (d_Name d) (d_State d) (d_HostID d) (d_VCPUs d) (d_MemoryKB d) (d_OSType d)
    (d_Firmware d) (d_TPM d) (d_SecureBoot d) (d_Disks d) (d_NICs d) (d_IPs d) (d_Labels d)
    (d_Created d) (d_BootISO d) (d_CloudInit d) (d_SeedISO d) (d_CPU d) v (d_Sysprep d)
    (d_SysprepISO d) (d_Resources d).
Definition dom_set_Resources (v : option ResourceSpec) (d : libvirtDomain) : libvirtDomain :=
  mkDom (d_UUID d) (d_Name d) (d_State d) (d_HostID d) (d_VCPUs d) (d_MemoryKB d) (d_OSType d)
    (d_Firmware d) (d_TPM d) (d_SecureBoot d) (d_Disks d) (d_NICs d) (d_IPs d) (d_Labels d)
    (d_Created d) (d_BootISO d) (d_CloudInit d) (d_SeedISO d) (d_CPU d) (d_IsTemplate d)
    (d_Sysprep d) (d_SysprepISO d) v.

(** [exportDisk] fails with [errNoRealDisk] or with another error. *)
Inductive export_err : Type :=
| ErrNoRealDisk
| ExportErr (e : kerr).

(** ** The seam: what the core calls of a backend

    The read methods are observations of the backend's state (the live
    transport, whose reads may drop a broken connection, is not modelled); the
    write methods and the whole extension surface transform it. *)

Record extBackend (B : Type) := mkExt {
  ext_console : string -> B -> result kerr ConsoleEndpoint * B;
  ext_createNetwork : NetworkSpec -> B -> result kerr unit * B;
  ext_deleteNetwork : string -> B -> result kerr unit * B;
  ext_listVolumes : string -> B -> result kerr (list Volume) * B;
  ext_createVolume : VolumeSpec -> B -> result kerr unit * B;
  ext_deleteVolume : string -> string -> B -> result kerr unit * B;
  ext_uploadISO : string -> string -> Z -> string * option string -> B -> result kerr Volume * B;
  ext_exportDisk : string -> string -> B -> result export_err ((string * option string) * Z) * B;
  ext_attachDisk : string -> DiskSpec -> B -> result kerr unit * B;
  ext_detachDisk : string -> string -> B -> result kerr unit * B;
  ext_attachNIC : string -> NICSpec -> B -> result kerr unit * B;
  ext_detachNIC : string -> string -> B -> result kerr unit * B;
  ext_mountISO : string -> string -> B -> result kerr unit * B;
  ext_unmountISO : string -> B -> result kerr unit * B;
  ext_guestInfo : string -> B -> result kerr GuestInfo * B;
  ext_guestShutdown : string -> B -> result kerr bool * B;
  ext_deleteSnapshot : string -> string -> B -> result kerr unit * B;
  ext_resizeDisk : string -> string -> f64 -> B -> result kerr unit * B;
  ext_setResources : string -> ResourceSpec -> B -> result kerr unit * B;
  ext_setDiskQoS : string -> string -> DiskQoS -> B -> result kerr unit * B;
  ext_migrateStorage : string -> string -> string -> B -> result kerr unit * B }.
Arguments ext_console {B} _. Arguments ext_createNetwork {B} _. Arguments ext_deleteNetwork {B} _.
Arguments ext_listVolumes {B} _. Arguments ext_createVolume {B} _. Arguments ext_deleteVolume {B} _.
Arguments ext_uploadISO {B} _. Arguments ext_exportDisk {B} _. Arguments ext_attachDisk {B} _.
Arguments ext_detachDisk {B} _. Arguments ext_attachNIC {B} _. Arguments ext_detachNIC {B} _.
Arguments ext_mountISO {B} _. Arguments ext_unmountISO {B} _. Arguments ext_guestInfo {B} _.
Arguments ext_guestShutdown {B} _. Arguments ext_deleteSnapshot {B} _. Arguments ext_resizeDisk {B} _.
Arguments ext_setResources {B} _. Arguments ext_setDiskQoS {B} _. Arguments ext_migrateStorage {B} _.

(** [be_defineDomain] also returns the UUID its argument carries when the call
    is over (a live backend writes the one libvirt assigned).  [be_assign] is
    what assignments through the pointer [getDomain] returned do to the backend:
    the pointer may be the backend's own object or a copy.  [be_ext] and
    [be_metrics] are the type assertions to the optional interfaces. *)
Class libvirtBackend (B : Type) := {
  be_version : B -> string;
  be_healthy : B -> bool;
  be_close : B -> result kerr unit * B;
  be_listNodes : B -> list libvirtNode;
  be_getNode : string -> B -> option libvirtNode;
  be_listDomains : B -> list libvirtDomain;
  be_getDomain : string -> B -> option libvirtDomain;
  be_assign : string -> (libvirtDomain -> libvirtDomain) -> B -> B;
  be_listPools : B -> list libvirtPool;
  be_listNets : B -> list libvirtNet;
  be_defineDomain : libvirtDomain -> B -> result kerr string * B;
  be_undefineDomain : string -> B -> result kerr unit * B;
  be_setDomainState : string -> Z -> B -> result kerr unit * B;
  be_reconfigureDomain : string -> option Z -> option Z -> B -> result kerr unit * B;
  be_domainsOnHost : string -> B -> Z;
  be_markTemplate : string -> bool -> B -> result kerr unit * B;
  be_listSnapshots : string -> B -> list Snapshot;
  be_createSnapshot : string -> Snapshot -> SnapshotOptions -> B -> result kerr unit * B;
  be_setCurrentSnapshot : string -> string -> B -> result kerr bool * B;
  be_hostIDs : B -> list string;
  be_clusterName : B -> string;
  be_ext : option (extBackend B);
  be_metrics : option (string -> MetricWindow -> B -> option (string * list MetricSample)) }.

(** ** The provider *)

(** Every bit but those of the live extension surface. *)
Definition FullCaps : Z :=
  foldr Z.lor 0
    [CapListHosts; CapListVMs; CapGetVM; CapListClusters; CapListStorage; CapListNetworks;
     CapCreateVM; CapPowerStart; CapPowerStop; CapPowerReset; CapPowerSuspend; CapDeleteVM;
     CapReconfigureVM; CapSnapshot; CapRevertSnapshot; CapClone; CapMigrate; CapExport;
     CapClusterTopology; CapNodeState; CapMetrics; CapEvents; CapMaintenance; CapTemplates].

Definition labelTemplate : string := "unihv.template".

Record kvm (B : Type) := mkKvm {
  k_id : string; k_kind : string; k_caps : Z; k_clusterID : string; k_backend : B;
  k_tracker : gmap string Task; k_seq : Z; k_closed : bool; k_maint : gmap string bool }.
Arguments mkKvm {B} _ _ _ _ _ _ _ _ _.
Arguments k_id {B} _. Arguments k_kind {B} _. Arguments k_caps {B} _. Arguments k_clusterID {B} _.
Arguments k_backend {B} _. Arguments k_tracker {B} _. Arguments k_seq {B} _. Arguments k_closed {B} _.
Arguments k_maint {B} _.

(** [normalizeDiskFormat] and [putI64]. *)
Definition normalizeDiskFormat (driver : string) : string :=
  if bool_decide (driver = "qcow2") then DiskQcow2
  else if bool_decide (driver = "raw") then DiskRaw
  else DiskQcow2.

Definition putI64 (key : string) (v : Z) (lbls : gmap string string) : gmap string string :=
  if 0 <? v then <[key := itoa v]> lbls else lbls.

Definition diskHasQoS (disks : list libvirtDisk) : bool :=
  existsb (fun d => bool_decide (is_Some (ld_QoS d))) disks.

(** The labels [normalizeDomain] materializes. *)
Definition cpu_labels (c : CPUSpec) (l : gmap string string) : gmap string string :=
  let l := putI64 "unihv.cpu.sockets" (cpu_Sockets c) l in
  let l := putI64 "unihv.cpu.cores" (cpu_CoresPerSocket c) l in
  let l := putI64 "unihv.cpu.threads" (cpu_ThreadsPerCore c) l in
  if bool_decide (cpu_Model c = "") then l else <["unihv.cpu.model" := cpu_Model c]> l.

Definition res_labels (r : ResourceSpec) (l : gmap string string) : gmap string string :=
  let l := putI64 "unihv.res.cpu.shares" (res_CPUShares r) l in
  let l := putI64 "unihv.res.cpu.reservationMhz" (res_CPUReservationMHz r) l in
  let l := putI64 "unihv.res.cpu.limitMhz" (res_CPULimitMHz r) l in
  let l := putI64 "unihv.res.mem.shares" (res_MemoryShares r) l in
  let l := putI64 "unihv.res.mem.reservationMb" (res_MemoryReservationMB r) l in
  putI64 "unihv.res.mem.limitMb" (res_MemoryLimitMB r) l.

Definition qos_labels (dk : libvirtDisk) (l : gmap string string) : gmap string string :=
  match ld_QoS dk with
  | None => l
  | Some q =>
      let prefix := "unihv.qos." +:+ ld_Target dk +:+ "." in
      let l := putI64 (prefix +:+ "readIops") (qos_ReadIOPS q) l in
      let l := putI64 (prefix +:+ "writeIops") (qos_WriteIOPS q) l in
      let l := putI64 (prefix +:+ "totalIops") (qos_TotalIOPS q) l in
      let l := putI64 (prefix +:+ "readBps") (qos_ReadBytesSec q) l in
      let l := putI64 (prefix +:+ "writeBps") (qos_WriteBytesSec q) l in
      putI64 (prefix +:+ "totalBps") (qos_TotalBytesSec q) l
  end.

Definition domain_labels (d : libvirtDomain) : gmap string string :=
  if d_IsTemplate d || bool_decide (is_Some (d_CPU d)) || bool_decide (is_Some (d_Resources d))
     || diskHasQoS (d_Disks d)
  then
    let l := d_Labels d in
    let l := if d_IsTemplate d then <[labelTemplate := "true"]> l else l in
    let l := match d_CPU d with Some c => cpu_labels c l | None => l end in
    let l := match d_Resources d with Some r => res_labels r l | None => l end in
    foldl (fun l dk => qos_labels dk l) l (d_Disks d)
  else d_Labels d.

Definition normalizeDisk (uuid : string) (dk : libvirtDisk) : Disk :=
  mkDisk (uuid +:+ "-" +:+ ld_Target dk) (ld_Target dk) (normalizeDiskFormat (ld_Driver dk))
    (gib_of_bytes (ld_CapBytes dk)) (ld_Pool dk) (ld_Source dk).

(** [cpuTopologyVCPUs]: products of Go [int]s. *)
Definition cpuTopologyVCPUs (c : option CPUSpec) : Z :=
  match c with
  | None => 0
  | Some c =>
      let s := cpu_Sockets c in let co := cpu_CoresPerSocket c in let t := cpu_ThreadsPerCore c in
      if (s <=? 0) || (co <=? 0) || (t <=? 0) then 0 else wrap64 (wrap64 (s * co) * t)
  end.

(** The [<disk>] of a [DiskSpec], and the device name of the [n]-th letter. *)
Definition disk_target (n : Z) : string := "vd" +:+ string_of_rune (97 + n).
Definition libvirt_disk (target : string) (dk : DiskSpec) : libvirtDisk :=
  mkLDisk target (normalizeDiskFormat (dsk_Format dk)) (dsk_SourcePath dk) (dsk_StorageID dk)
    (f64_to_int64 (f64_mul (dsk_CapacityGB dk) (f64_of_Z bytesPerGB)))
    (dsk_QoS dk) (dsk_Provisioning dk) (dsk_Discard dk).
Definition libvirt_nic (n : NICSpec) : libvirtNIC :=
  mkLNIC (nics_MAC n) (nics_NetworkID n) (nics_Model n) true.

(** The loop over [spec.AddDisks]: the length is read again at each iteration. *)
Fixpoint add_disks (i : Z) (specs : list DiskSpec) (disks : list libvirtDisk) : list libvirtDisk :=
  match specs with
  | [] => disks
  | dk :: specs =>
      add_disks (i + 1) specs
        (disks ++ [libvirt_disk (disk_target (Z.of_nat (length disks) + i)) dk])
  end.

Definition mapExportErr (e : kerr) : kerr := Wrapped ErrInvalidSpec (kerr_Error e).

(** The native view [GetVM] marshals; [json.Marshal] sorts the keys of a map. *)
Definition domain_raw (d : libvirtDomain) : json :=
  JObj [("firmware", JString (d_Firmware d)); ("memoryKiB", JNum (d_MemoryKB d));
        ("name", JString (d_Name d)); ("osType", JString (d_OSType d));
        ("state", JString (raw (d_State d))); ("stateInt", JNum (d_State d));
        ("uuid", JString (d_UUID d)); ("vcpu", JNum (d_VCPUs d))].

(** The label a template carries. *)
Definition set_template (isTemplate : bool) (d : libvirtDomain) : libvirtDomain :=
  dom_set_Labels (if isTemplate then <[labelTemplate := "true"]> (d_Labels d)
                  else delete labelTemplate (d_Labels d)) (dom_set_IsTemplate isTemplate d).

(** The domain [CreateVM] defines, and the copy [Clone] defines. *)
Definition domain_of_spec (uuid : string) (spec : VMSpec) (created : time) : libvirtDomain :=
  let n := cpuTopologyVCPUs (vs_CPU spec) in
  mkDom uuid (vs_Name spec) domShutoff (vs_HostID spec)
    (if 0 <? n then n else vs_VCPUs spec) (wrap64 (vs_MemoryMB spec * 1024)) (vs_GuestOS spec)
    (if vs_SecureBoot spec then FirmwareUEFI else vs_Firmware spec)
    (vs_TPM spec) (vs_SecureBoot spec)
    (imap (fun i dk => libvirt_disk (disk_target (Z.of_nat i)) dk) (vs_Disks spec))
    (libvirt_nic <$> vs_NICs spec) []
    (if vs_IsTemplate spec then <[labelTemplate := "true"]> (vs_Labels spec) else vs_Labels spec)
    (unix created) (vs_BootISO spec) (vs_CloudInit spec) "" (vs_CPU spec) (vs_IsTemplate spec)
    (vs_Sysprep spec) "" None.

Definition domain_clone (uuid : string) (spec : CloneSpec) (src : libvirtDomain) : libvirtDomain :=
  let c := dom_set_Name (cs_Name spec) (dom_set_UUID uuid src) in
  let c := dom_set_State (if cs_PowerOn spec then domRunning else domShutoff) c in
  let c := if bool_decide (cs_HostID spec = "") then c else dom_set_HostID (cs_HostID spec) c in
  set_template false c.

Section Provider.
Context {B : Type} `{libvirtBackend B}.

Definition set_backend (b : B) (p : kvm B) : kvm B :=
  mkKvm (k_id p) (k_kind p) (k_caps p) (k_clusterID p) b (k_tracker p) (k_seq p) (k_closed p)
    (k_maint p).
Definition set_tracker (t : gmap string Task) (p : kvm B) : kvm B :=
  mkKvm (k_id p) (k_kind p) (k_caps p) (k_clusterID p) (k_backend p) t (k_seq p) (k_closed p)
    (k_maint p).
Definition set_seq (n : Z) (p : kvm B) : kvm B :=
  mkKvm (k_id p) (k_kind p) (k_caps p) (k_clusterID p) (k_backend p) (k_tracker p) n (k_closed p)
    (k_maint p).
Definition set_closed (c : bool) (p : kvm B) : kvm B :=
  mkKvm (k_id p) (k_kind p) (k_caps p) (k_clusterID p) (k_backend p) (k_tracker p) (k_seq p) c
    (k_maint p).
Definition set_maint (m : gmap string bool) (p : kvm B) : kvm B :=
  mkKvm (k_id p) (k_kind p) (k_caps p) (k_clusterID p) (k_backend p) (k_tracker p) (k_seq p)
    (k_closed p) m.

(** [New] with [WithCaps] (when given) and [WithBackend]. *)
Definition New (id : string) (caps : option Z) (b : B) : kvm B :=
  mkKvm id KindKVM (default FullCaps caps) "kvm-logical-cluster" b ∅ 0 false ∅.

Definition kop (A : Type) : Type := kvm B -> result kerr A * kvm B.
Definition kfail {A} (e : verr) : kop A := fun p => (Err (Sentinel e), p).

Definition nextID (prefix : string) (p : kvm B) : string * kvm B :=
  let seq := wrap64 (k_seq p + 1) in
  (prefix +:+ "-" +:+ itoa seq, set_seq seq p).

Definition finishTask (kind entity : string) (now : time) : kop (option Task) := fun p =>
  let '(tid, p) := nextID "task" p in
  let '(t, tr) := tt_Start tid kind (k_id p) entity now (k_tracker p) in
  let '(t', tr) := tt_Finish (task_ID t) TaskSucceeded "" now tr in
  (Ok t', set_tracker tr p).

(** A method gated by a capability bit; one that needs the VM to exist; a write
    of the backend, whose error ends the method. *)
Definition gated {A} (cap : Z) (m : kop A) : kop A := fun p =>
  if negb (Has (k_caps p) cap) then kfail ErrUnsupported p else m p.
Definition with_domain {A} (vmID : string) (m : libvirtDomain -> kop A) : kop A := fun p =>
  match be_getDomain vmID (k_backend p) with
  | None => kfail ErrNotFound p
  | Some d => m d p
  end.
Definition backend_call {R A} (f : B -> result kerr R * B) (m : R -> kop A) : kop A := fun p =>
  let '(r, b) := f (k_backend p) in
  match r with
  | Err e => (Err e, set_backend b p)
  | Ok a => m a (set_backend b p)
  end.
(** Assignments through the pointer [getDomain] returned. *)
Definition assign {A} (vmID : string) (f : libvirtDomain -> libvirtDomain) (m : kop A) : kop A :=
  fun p => m (set_backend (be_assign vmID f (k_backend p)) p).

(** *** Identity, health *)

Definition HealthCheck (now : time) (p : kvm B) : HealthStatus :=
  if k_closed p || negb (be_healthy (k_backend p))
  then mkHealth false "libvirt connection unavailable" "" now
  else mkHealth true "" (be_version (k_backend p)) now.

Definition Close (p : kvm B) : result kerr unit * kvm B :=
  if k_closed p then (Ok tt, p)
  else let '(r, b) := be_close (k_backend p) in (r, set_backend b (set_closed true p)).

(** *** Normalization *)

Definition normalizeDomain (p : kvm B) (d : libvirtDomain) : VM :=
  mkVM (d_UUID d) (d_Name d) (k_kind p) (k_id p) (d_HostID d) (k_clusterID p)
    (normalizeState (d_State d)) (raw (d_State d)) (d_VCPUs d) (Z.quot (d_MemoryKB d) 1024)
    (d_OSType d) (d_Firmware d)
    (normalizeDisk (d_UUID d) <$> d_Disks d)
    (imap (fun i n => mkNIC (d_UUID d +:+ "-nic" +:+ itoa (Z.of_nat i)) (ln_MAC n) (ln_Network n)
                        (ln_Model n) (ln_Link n)) (d_NICs d))
    (d_IPs d) (domain_labels d)
    (Z.of_nat (length (be_listSnapshots (d_UUID d) (k_backend p))))
    (if 0 <? d_Created d then (d_Created d + unix_epoch) * Second else 0) false.

Definition normalizePool (p : kvm B) (pl : libvirtPool) : StoragePool :=
  mkStoragePool (lp_UUID pl) (lp_Name pl) (k_kind p) (k_id p) (lp_Type pl)
    (gib_of_bytes (lp_CapBytes pl)) (gib_of_bytes (lp_AvailBytes pl)) (lp_Hosts pl) (lp_Active pl).

Definition normalizeNet (p : kvm B) (n : libvirtNet) : Network :=
  mkNetwork (lw_UUID n) (lw_Name n) (k_kind p) (k_id p) (lw_Mode n) (lw_VLAN n).

Definition isMaint (hostID : string) (p : kvm B) : bool := default false (k_maint p !! hostID).

Definition normalizeNode (p : kvm B) (n : libvirtNode) : Host :=
  let state := if lnd_Online n then NodeUp else NodeDown in
  let state := if isMaint (lnd_ID n) p then NodeMaintenance else state in
  mkHost (lnd_ID n) (lnd_Name n) (k_kind p) (k_id p) (k_clusterID p) state (lnd_CPUs n) (lnd_MHz n)
    (Z.quot (lnd_MemoryKB n) 1024) (Z.quot (lnd_UsedKB n) 1024)
    (be_domainsOnHost (lnd_ID n) (k_backend p)) (lnd_Version n) ∅.

(** *** Inventory *)

Definition listing {A} (cap : Z) (l : kvm B -> list A) (p : kvm B) : result kerr (list A) :=
  if negb (Has (k_caps p) cap) then Err (Sentinel ErrUnsupported) else Ok (l p).

Definition ListHosts : kvm B -> result kerr (list Host) :=
  listing CapListHosts (fun p => normalizeNode p <$> be_listNodes (k_backend p)).

Definition ListVMs (opts : ListOptions) : kvm B -> result kerr (list VM) :=
  listing CapListVMs (fun p =>
    filter (fun v => vm_listed opts v = true)
      (normalizeDomain p <$> be_listDomains (k_backend p))).

Definition GetVM (id : string) (p : kvm B) : result kerr (VM * json) :=
  if negb (Has (k_caps p) CapGetVM) then Err (Sentinel ErrUnsupported)
  else match be_getDomain id (k_backend p) with
       | None => Err (Sentinel ErrNotFound)
       | Some d => Ok (normalizeDomain p d, domain_raw d)
       end.

Definition ListClusters : kvm B -> result kerr (list Cluster) :=
  listing CapListClusters (fun p =>
    [mkCluster (k_clusterID p) (be_clusterName (k_backend p)) (k_kind p) (k_id p)
       (be_hostIDs (k_backend p)) false false]).

Definition ListStorage : kvm B -> result kerr (list StoragePool) :=
  listing CapListStorage (fun p => normalizePool p <$> be_listPools (k_backend p)).
Definition ListNetworks : kvm B -> result kerr (list Network) :=
  listing CapListNetworks (fun p => normalizeNet p <$> be_listNets (k_backend p)).

(** *** Lifecycle *)

Definition CreateVM (spec : VMSpec) (created now : time) : kop (option Task) :=
  gated CapCreateVM (fun p =>
    if bool_decide (trim_space (vs_Name spec) = "") || (vs_MemoryMB spec <=? 0)
       || ((vs_VCPUs spec <=? 0) && (cpuTopologyVCPUs (vs_CPU spec) <=? 0))
    then kfail ErrInvalidSpec p
    else
      let '(uuid, p) := nextID "dom" p in
      backend_call (be_defineDomain (domain_of_spec uuid spec created))
        (fun uuid => finishTask "createVM" uuid now) p).

(** The state change each power operation asks of the backend; a stop goes
    through the guest agent when there is one. *)
Definition power_call (vmID pop : string) (caps : Z) (b : B) : result kerr unit * B :=
  if bool_decide (pop = PowerStart) || bool_decide (pop = PowerResume) || bool_decide (pop = PowerReset)
  then be_setDomainState vmID domRunning b
  else if bool_decide (pop = PowerStop) then
    match be_ext with
    | Some e =>
        if Has caps CapGuestAgent then
          let '(r, b) := ext_guestShutdown e vmID b in (match r with Ok _ => Ok tt | Err e => Err e end, b)
        else be_setDomainState vmID domShutoff b
    | None => be_setDomainState vmID domShutoff b
    end
  else if bool_decide (pop = PowerSuspend) then be_setDomainState vmID domPMSuspended b
  else (Ok tt, b).

Definition PowerOp (vmID pop : string) (now : time) : kop (option Task) := fun p =>
  if negb (PowerOp_Valid pop) then kfail ErrInvalidSpec p
  else gated (PowerOpCapability pop) (with_domain vmID (fun _ p =>
         backend_call (power_call vmID pop (k_caps p)) (fun _ => finishTask "powerOp" vmID now) p)) p.

Definition DeleteVM (vmID : string) (opts : DeleteOptions) (now : time) : kop (option Task) :=
  gated CapDeleteVM (with_domain vmID (fun d p =>
    let running := bool_decide (normalizeState (d_State d) = StateRunning) in
    let undefine := backend_call (be_undefineDomain vmID) (fun _ => finishTask "deleteVM" vmID now) in
    if running && negb (do_Force opts) then kfail ErrConflict p
    else if running && do_Force opts
         then backend_call (be_setDomainState vmID domShutoff) (fun _ => undefine) p
    else undefine p)).

(** The tail of [ReconfigureVM]: devices, resources, labels. *)
Definition reconfigure_labels (vmID : string) (spec : VMReconfigureSpec) (now : time)
  : kop (option Task) :=
  assign vmID (fun d => dom_set_Labels (rs_Labels spec ∪ d_Labels d) d)
    (finishTask "reconfigureVM" vmID now).

Definition reconfigure_resources (vmID : string) (spec : VMReconfigureSpec) (now : time)
  : kop (option Task) := fun p =>
  match rs_Resources spec with
  | None => reconfigure_labels vmID spec now p
  | Some r =>
      let keep := assign vmID (dom_set_Resources (Some r)) (reconfigure_labels vmID spec now) in
      match be_ext with
      | Some e =>
          if Has (k_caps p) CapResourceControl
          then backend_call (ext_setResources e vmID r) (fun _ => keep) p
          else keep p
      | None => keep p
      end
  end.

Definition reconfigure_devices (vmID : string) (spec : VMReconfigureSpec) (now : time)
  : kop (option Task) :=
  assign vmID (fun d =>
      let d := dom_set_Disks (add_disks 0 (rs_AddDisks spec) (d_Disks d)) d in
      dom_set_NICs (d_NICs d ++ (libvirt_nic <$> rs_AddNICs spec)) d)
    (reconfigure_resources vmID spec now).

Definition set_hardware (spec : VMReconfigureSpec) (d : libvirtDomain) : libvirtDomain :=
  let d := match rs_VCPUs spec with Some n => dom_set_VCPUs n d | None => d end in
  match rs_MemoryMB spec with Some m => dom_set_MemoryKB (wrap64 (m * 1024)) d | None => d end.

Definition ReconfigureVM (vmID : string) (spec : VMReconfigureSpec) (now : time)
  : kop (option Task) :=
  gated CapReconfigureVM (with_domain vmID (fun _ p =>
    if not_positive (rs_VCPUs spec) || not_positive (rs_MemoryMB spec) then kfail ErrInvalidSpec p
    else if bool_decide (is_Some (rs_VCPUs spec)) || bool_decide (is_Some (rs_MemoryMB spec)) then
      backend_call (be_reconfigureDomain vmID (rs_VCPUs spec) (rs_MemoryMB spec)) (fun _ =>
        assign vmID (set_hardware spec) (reconfigure_devices vmID spec now)) p
    else reconfigure_devices vmID spec now p)).

(** *** Snapshots, clones, templates *)

Definition CreateSnapshot (vmID : string) (opts : SnapshotOptions) (created now : time)
  : kop (option Task) :=
  gated CapSnapshot (with_domain vmID (fun _ p =>
    let '(sid, p) := nextID "snap" p in
    let snap := mkSnapshot sid vmID (so_Name opts) (so_Description opts) "" (so_Memory opts) true
                  created in
    backend_call (be_createSnapshot vmID snap opts) (fun _ => finishTask "snapshot" vmID now) p)).

Definition RevertSnapshot (vmID snapID : string) (now : time) : kop (option Task) :=
  gated CapRevertSnapshot (with_domain vmID (fun _ =>
    backend_call (be_setCurrentSnapshot vmID snapID) (fun ok p =>
      if negb ok then kfail ErrNotFound p else finishTask "revertSnapshot" vmID now p))).

Definition ListSnapshots (vmID : string) (p : kvm B) : result kerr (list Snapshot) :=
  if negb (Has (k_caps p) CapSnapshot) then Err (Sentinel ErrUnsupported)
  else match be_getDomain vmID (k_backend p) with
       | None => Err (Sentinel ErrNotFound)
       | Some _ => Ok (be_listSnapshots vmID (k_backend p))
       end.

Definition Clone (vmID : string) (spec : CloneSpec) (now : time) : kop (option Task) :=
  gated CapClone (with_domain vmID (fun src p =>
    if bool_decide (trim_space (cs_Name spec) = "") then kfail ErrInvalidSpec p
    else
      let '(uuid, p) := nextID "dom" p in
      backend_call (be_defineDomain (domain_clone uuid spec src))
        (fun uuid => finishTask "clone" uuid now) p)).

Definition MarkTemplate (vmID : string) (isTemplate : bool) (now : time) : kop (option Task) :=
  gated CapTemplates (with_domain vmID (fun d p =>
    if bool_decide (normalizeState (d_State d) = StateRunning) then kfail ErrConflict p
    else backend_call (be_markTemplate vmID isTemplate) (fun _ =>
           assign vmID (set_template isTemplate) (finishTask "markTemplate" vmID now)) p)).

(** *** Migration, export, cluster *)

Definition MigrateVM (vmID targetHost : string) (opts : MigrateOptions) (now : time)
  : kop (option Task) :=
  gated CapMigrate (with_domain vmID (fun _ p =>
    match be_getNode targetHost (k_backend p) with
    | None => kfail ErrInvalidSpec p
    | Some _ => assign vmID (dom_set_HostID targetHost) (finishTask "migrate" vmID now) p
    end)).

(** The placeholder a backend without disks exports. *)
Definition sim_payload (id vmID format : string) : string :=
  let nul := bytes [0%N] in
  "KVMEXPORT" +:+ nul +:+ "provider=" +:+ id +:+ nul +:+ "domain=" +:+ vmID +:+ nul
    +:+ "format=" +:+ format +:+ bytes [10%N].

Definition ExportVM (vmID format : string) : kop ((string * option string) * option ExportInfo) :=
  gated CapExport (fun p =>
    if negb (DiskFormat_Valid format) then kfail ErrInvalidSpec p
    else with_domain vmID (fun d p =>
      let info size := mkExportInfo format size (Z.of_nat (length (d_Disks d))) vmID (d_OSType d)
                         (d_Firmware d) in
      match be_ext with
      | Some e =>
          let '(r, b) := ext_exportDisk e vmID format (k_backend p) in
          (match r with
           | Ok (rc, size) => Ok (rc, Some (info size))
           | Err ErrNoRealDisk => Err (Wrapped ErrUnsupported
               "disk source type not supported for export; only file-backed disks can be exported")
           | Err (ExportErr e) => Err (mapExportErr e)
           end, set_backend b p)
      | None =>
          let payload := sim_payload (k_id p) vmID format in
          (Ok ((payload, None), Some (info (Z.of_nat (String.length payload)))), p)
      end) p).

Definition GetClusterTopology (clusterID : string) (now : nat -> time) (p : kvm B)
  : result kerr Topology :=
  if negb (Has (k_caps p) CapClusterTopology) then Err (Sentinel ErrUnsupported)
  else if bool_decide (clusterID <> k_clusterID p) then Err (Sentinel ErrNotFound)
  else
    Ok (mkTopology clusterID
          (imap (fun i n => let h := normalizeNode p n in
                   mkNodeState (host_ID h) (host_State h) "" (host_VMCount h) (now i))
             (be_listNodes (k_backend p)))
          (foldl (fun m d => <[d_UUID d := d_HostID d]> m) ∅ (be_listDomains (k_backend p)))).

Definition GetNodeState (nodeID : string) (now : time) (p : kvm B) : result kerr NodeState :=
  if negb (Has (k_caps p) CapNodeState) then Err (Sentinel ErrUnsupported)
  else match be_getNode nodeID (k_backend p) with
       | None => Err (Sentinel ErrNotFound)
       | Some n => let h := normalizeNode p n in
                   Ok (mkNodeState nodeID (host_State h) "" (host_VMCount h) now)
       end.

(** *** Metrics and events *)

Definition GetMetrics (entityID : string) (window : MetricWindow) (now : time) (p : kvm B)
  : result kerr (string * list MetricSample) :=
  if negb (Has (k_caps p) CapMetrics) then Err (Sentinel ErrUnsupported)
  else match be_metrics with
  | Some mb =>
      match mb entityID window (k_backend p) with
      | None => Err (Sentinel ErrNotFound)
      | Some series => Ok series
      end
  | None =>
      let dom := be_getDomain entityID (k_backend p) in
      match dom, be_getNode entityID (k_backend p) with
      | None, None => Err (Sentinel ErrNotFound)
      | _, _ =>
          if match dom with
             | Some d => bool_decide (normalizeState (d_State d) <> StateRunning)
             | None => false
             end
          then Ok (entityID, [])
          else
            let base := if is_zero_time (mw_Since window) then now - 5 * Minute else mw_Since window in
            let step := if mw_StepSecond window <=? 0 then 30 else mw_StepSecond window in
            let memLimit := match dom with
                            | Some d => (d_MemoryKB d * 1024) mod 2 ^ 64
                            | None => Z.shiftl 4 30
                            end in
            let sample i :=
              mkSample (base + dur_of (wrap64 (i * step)) Second) (f64_of_Z (8 + i * 7))
                (Z.shiftl 1 30 + Z.shiftl i 20) memLimit (i * 1500) (i * 1100) (i * 4096) (i * 8192) in
            Ok (entityID, sample <$> [0; 1; 2; 3; 4])
      end
  end.

(** [streamSnapshotEvents]: what it sends, in order, until the receiver leaves. *)
Definition streamSnapshotEvents (now : time) (p : kvm B) : list Event :=
  match be_listDomains (k_backend p) with
  | [] => [mkEvent EventAlert (k_id p) "" "event stream established (no domains)" now]
  | doms =>
      (fun d => let v := normalizeDomain p d in
         mkEvent EventVMStateChanged (k_id p) (vm_ID v) (vm_Name v +:+ " is " +:+ vm_State v) now)
      <$> doms
  end.

(** *** The extension surface, serviced by backends that have one *)

Definition with_ext {A} (cap : Z) (m : extBackend B -> kop A) : kop A :=
  gated cap (fun p => match be_ext with None => kfail ErrUnsupported p | Some e => m e p end).
Definition ext_return {A} (f : B -> result kerr A * B) : kop A :=
  backend_call f (fun a p => (Ok a, p)).
Definition ext_write (f : B -> result kerr unit * B) (kind entity : string) (now : time)
  : kop (option Task) := backend_call f (fun _ => finishTask kind entity now).
(** A method on an existing VM whose arguments must pass [ok]. *)
Definition device_op (cap : Z) (vmID : string) (ok : bool) (kind : string) (now : time)
    (f : extBackend B -> B -> result kerr unit * B) : kop (option Task) :=
  with_ext cap (fun e => with_domain vmID (fun _ p =>
    if negb ok then kfail ErrInvalidSpec p else ext_write (f e) kind vmID now p)).

Definition Console (vmID : string) : kop ConsoleEndpoint :=
  with_ext CapConsole (fun e => with_domain vmID (fun _ => ext_return (ext_console e vmID))).

Definition CreateNetwork (spec : NetworkSpec) (now : time) : kop (option Task) :=
  with_ext CapNetworkWrite (fun e p =>
    if blank (nsp_Name spec) then kfail ErrInvalidSpec p
    else ext_write (ext_createNetwork e spec) "createNetwork" (nsp_Name spec) now p).

Definition DeleteNetwork (networkID : string) (now : time) : kop (option Task) :=
  with_ext CapNetworkWrite (fun e =>
    ext_write (ext_deleteNetwork e networkID) "deleteNetwork" networkID now).

Definition ListVolumes (storageID : string) : kop (list Volume) :=
  with_ext CapListStorage (fun e => ext_return (ext_listVolumes e storageID)).

Definition CreateVolume (spec : VolumeSpec) (now : time) : kop (option Task) :=
  with_ext CapStorageWrite (fun e p =>
    if blank (vsp_Name spec) || f64_le (vsp_CapacityGB spec) f64_zero then kfail ErrInvalidSpec p
    else ext_write (ext_createVolume e spec) "createVolume" (vsp_Name spec) now p).

Definition DeleteVolume (storageID volumeID : string) (now : time) : kop (option Task) :=
  with_ext CapStorageWrite (fun e =>
    ext_write (ext_deleteVolume e storageID volumeID) "deleteVolume" volumeID now).

Definition UploadISO (storageID name : string) (size : Z) (r : string * option string) : kop Volume :=
  with_ext CapStorageWrite (fun e p =>
    if blank name then kfail ErrInvalidSpec p
    else ext_return (ext_uploadISO e storageID name size r) p).

Definition AttachDisk (vmID : string) (spec : DiskSpec) : time -> kop (option Task) := fun now =>
  device_op CapHotPlug vmID
    (negb (bool_decide (dsk_SourcePath spec = "") && f64_le (dsk_CapacityGB spec) f64_zero))
    "attachDisk" now (fun e => ext_attachDisk e vmID spec).

Definition DetachDisk (vmID diskID : string) (now : time) : kop (option Task) :=
  device_op CapHotPlug vmID (negb (blank diskID)) "detachDisk" now
    (fun e => ext_detachDisk e vmID diskID).

Definition AttachNIC (vmID : string) (spec : NICSpec) (now : time) : kop (option Task) :=
  device_op CapHotPlug vmID (negb (blank (nics_NetworkID spec))) "attachNIC" now
    (fun e => ext_attachNIC e vmID spec).

Definition DetachNIC (vmID nicID : string) (now : time) : kop (option Task) :=
  device_op CapHotPlug vmID (negb (blank nicID)) "detachNIC" now
    (fun e => ext_detachNIC e vmID nicID).

Definition MountISO (vmID isoPath : string) (now : time) : kop (option Task) :=
  device_op CapHotPlug vmID (negb (blank isoPath)) "mountISO" now
    (fun e => ext_mountISO e vmID isoPath).

Definition UnmountISO (vmID : string) (now : time) : kop (option Task) :=
  device_op CapHotPlug vmID true "unmountISO" now (fun e => ext_unmountISO e vmID).

Definition GetGuestInfo (vmID : string) : kop GuestInfo :=
  with_ext CapGuestAgent (fun e => with_domain vmID (fun _ => ext_return (ext_guestInfo e vmID))).

Definition DeleteSnapshot (vmID snapID : string) (now : time) : kop (option Task) :=
  device_op CapSnapshot vmID (negb (blank snapID)) "deleteSnapshot" now
    (fun e => ext_deleteSnapshot e vmID snapID).

Definition ResizeDisk (vmID diskID : string) (newCapacityGB : f64) (now : time) : kop (option Task) :=
  device_op CapDiskResize vmID (negb (blank diskID || f64_le newCapacityGB f64_zero)) "resizeDisk" now
    (fun e => ext_resizeDisk e vmID diskID newCapacityGB).

Definition SetResources (vmID : string) (spec : ResourceSpec) (now : time) : kop (option Task) :=
  device_op CapResourceControl vmID true "setResources" now (fun e => ext_setResources e vmID spec).

Definition SetDiskQoS (vmID diskID : string) (qos : DiskQoS) (now : time) : kop (option Task) :=
  device_op CapDiskQoS vmID (negb (blank diskID)) "setDiskQoS" now
    (fun e => ext_setDiskQoS e vmID diskID qos).

Definition MigrateStorage (vmID diskID targetStorageID : string) (now : time) : kop (option Task) :=
  device_op CapStorageMigrate vmID (negb (blank diskID || blank targetStorageID)) "migrateStorage" now
    (fun e => ext_migrateStorage e vmID diskID targetStorageID).

(** *** Host maintenance (kvm_maintenance.go) *)

Definition with_node {A} (hostID : string) (m : kop A) : kop A := fun p =>
  match be_getNode hostID (k_backend p) with None => kfail ErrNotFound p | Some _ => m p end.

(** The evacuation loop; the pass over the [i]-th domain reads the clock at most
    once ([now i]).  A domain is listed once, so what the loop reads of it is
    what the listing says. *)
Fixpoint evacuate (hostID target : string) (now : nat -> time) (i : nat)
    (doms : list libvirtDomain) (migrated failed : Z) (p : kvm B) : (Z * Z) * kvm B :=
  match doms with
  | [] => ((migrated, failed), p)
  | d :: doms =>
      if bool_decide (d_HostID d <> hostID)
         || bool_decide (normalizeState (d_State d) <> StateRunning)
      then evacuate hostID target now (S i) doms migrated failed p
      else
        let '(r, p) := MigrateVM (d_UUID d) target (mkMigrateOptions true "") (now i) p in
        match r with
        | Err _ => evacuate hostID target now (S i) doms migrated (failed + 1) p
        | Ok _ => evacuate hostID target now (S i) doms (migrated + 1) failed p
        end
  end.

(** The target of an evacuation: the first other node, or none. *)
Definition evacuation_target (hostID : string) (b : B) : string :=
  match filter (fun n => lnd_ID n <> hostID) (be_listNodes b) with
  | n :: _ => lnd_ID n
  | [] => ""
  end.

Definition task_set_Message (msg : string) (t : Task) : Task :=
  mkTask (task_ID t) (task_Kind t) (task_ProviderID t) (task_EntityID t) (task_State t)
    (task_Progress t) msg (task_Error t) (task_StartedAt t) (task_UpdatedAt t) (task_FinishedAt t).

(** The mark, the task, and the note on the copy of the task that is returned. *)
Definition mark_maintenance (hostID note : string) (now : time) : kop (option Task) := fun p =>
  let p := set_maint (<[hostID := true]> (k_maint p)) p in
  let '(t, p) := finishTask "enterMaintenance" hostID now p in
  (match t with Ok t => Ok (task_set_Message note <$> t) | Err e => Err e end, p).

(** The dash of the note is U+2014. *)
Definition note_single_host : string :=
  "host marked maintenance; no evacuation target (single host) " +:+ bytes [226; 128; 148]%N
    +:+ " running VMs left in place".

Definition note_evacuated (migrated failed : Z) (target : string) : string :=
  "host marked maintenance; evacuated " +:+ itoa migrated +:+ " running VM(s) to " +:+ target
    +:+ (if 0 <? failed then " (" +:+ itoa failed +:+ " failed to migrate)" else "").

Definition EnterMaintenance (hostID : string) (evac : bool) (now : nat -> time)
  : kop (option Task) :=
  gated CapMaintenance (with_node hostID (fun p =>
    if negb evac
    then mark_maintenance hostID "host marked maintenance (no evacuation requested)" (now 0%nat) p
    else
      let target := evacuation_target hostID (k_backend p) in
      if bool_decide (target = "") then mark_maintenance hostID note_single_host (now 0%nat) p
      else
        let doms := be_listDomains (k_backend p) in
        let '((migrated, failed), p) := evacuate hostID target now 0 doms 0 0 p in
        mark_maintenance hostID (note_evacuated migrated failed target) (now (length doms)) p)).

Definition ExitMaintenance (hostID : string) (now : time) : kop (option Task) :=
  gated CapMaintenance (with_node hostID (fun p =>
    finishTask "exitMaintenance" hostID now (set_maint (delete hostID (k_maint p)) p))).
End Provider.

(** ** The in-memory backend (sim_backend.go) *)

Record simBackend := mkSimBackend {
  sb_closed : bool;
  sb_nodes : gmap string libvirtNode;
  sb_domains : gmap string libvirtDomain;
  sb_pools : list libvirtPool;
  sb_nets : list libvirtNet;
  sb_snapshots : gmap string (list Snapshot);
  sb_order : list string }.

Definition set_domains (m : gmap string libvirtDomain) (b : simBackend) : simBackend :=
  mkSimBackend (sb_closed b) (sb_nodes b) m (sb_pools b) (sb_nets b) (sb_snapshots b) (sb_order b).
Definition set_snapshots (m : gmap string (list Snapshot)) (b : simBackend) : simBackend :=
  mkSimBackend (sb_closed b) (sb_nodes b) (sb_domains b) (sb_pools b) (sb_nets b) m (sb_order b).
Definition set_order (l : list string) (b : simBackend) : simBackend :=
  mkSimBackend (sb_closed b) (sb_nodes b) (sb_domains b) (sb_pools b) (sb_nets b) (sb_snapshots b) l.

Definition sb_close (b : simBackend) : simBackend :=
  mkSimBackend true (sb_nodes b) (sb_domains b) (sb_pools b) (sb_nets b) (sb_snapshots b)
    (sb_order b).

(** [seed]. *)
Definition seed_node (id name : string) (used : Z) : libvirtNode :=
  mkLNode id name true 32 3400 (128 * 1024 * 1024) used "QEMU-8.2.0/libvirt-10.0.0".

Definition seed_domain (i : Z) (st : Z) (host : string) : libvirtDomain :=
  let uuid := "dom-seed-" +:+ itoa (i + 1) in
  mkDom uuid ("kvm-vm-" +:+ itoa (i + 1)) st host 2 (4 * 1024 * 1024) "linux" FirmwareUEFI false false
    [mkLDisk "vda" "qcow2" ("/var/lib/libvirt/images/" +:+ uuid +:+ ".qcow2") "pool-default"
       (40 * bytesPerGB) None "" false]
    [mkLNIC ("52:54:00:00:00:0" +:+ itoa (i + 1)) "net-default" "virtio" true]
    ["192.168.122.1" +:+ itoa (i + 1)] ∅ 1700000000 "" None "" None false None "" None.

Definition newSimBackend : simBackend :=
  let doms := [seed_domain 0 domRunning "node-1"; seed_domain 1 domRunning "node-1";
               seed_domain 2 domShutoff "node-2"] in
  mkSimBackend false
    {[ "node-1" := seed_node "node-1" "kvm-node-1" (32 * 1024 * 1024);
       "node-2" := seed_node "node-2" "kvm-node-2" (16 * 1024 * 1024) ]}
    (list_to_map ((fun d => (d_UUID d, d)) <$> doms))
    [mkLPool "pool-default" "default" "dir" (4 * 1024 * bytesPerGB) (3 * 1024 * bytesPerGB) true
       ["node-1"; "node-2"]]
    [mkLNet "net-default" "default" "nat" 0] ∅ (d_UUID <$> doms).

(** The nodes are a Go map: the order of a listing is unspecified, and the model
    fixes one. *)
Definition sb_listNodes (b : simBackend) : list libvirtNode := (map_to_list (sb_nodes b)).*2.
Definition sb_hostIDs (b : simBackend) : list string := (map_to_list (sb_nodes b)).*1.

Definition sb_listDomains (b : simBackend) : list libvirtDomain :=
  omap (fun uuid => sb_domains b !! uuid) (sb_order b).

(** The pointer handed out is the backend's own object. *)
Definition sb_assign (uuid : string) (f : libvirtDomain -> libvirtDomain) (b : simBackend)
  : simBackend := set_domains (alter f uuid (sb_domains b)) b.

Definition sb_defineDomain (d : libvirtDomain) (b : simBackend) : simBackend :=
  let order := if bool_decide (is_Some (sb_domains b !! d_UUID d)) then sb_order b
               else sb_order b ++ [d_UUID d] in
  set_domains (<[d_UUID d := d]> (sb_domains b)) (set_order order b).

Definition sb_undefineDomain (uuid : string) (b : simBackend) : simBackend :=
  let b := set_domains (delete uuid (sb_domains b)) b in
  let b := set_snapshots (delete uuid (sb_snapshots b)) b in
  set_order (remove_first uuid (sb_order b)) b.

Definition sb_setDomainState (uuid : string) (s : Z) (b : simBackend) : simBackend :=
  set_domains (alter (dom_set_State s) uuid (sb_domains b)) b.

Definition sb_reconfigureDomain (uuid : string) (vcpus memMB : option Z) (b : simBackend)
  : result kerr unit * simBackend :=
  match sb_domains b !! uuid with
  | None => (Err (Sentinel ErrNotFound), b)
  | Some d =>
      let d := match vcpus with Some n => dom_set_VCPUs n d | None => d end in
      let d := match memMB with Some m => dom_set_MemoryKB (wrap64 (m * 1024)) d | None => d end in
      (Ok tt, set_domains (<[uuid := d]> (sb_domains b)) b)
  end.

Definition sb_markTemplate (uuid : string) (isTemplate : bool) (b : simBackend)
  : result kerr unit * simBackend :=
  match sb_domains b !! uuid with
  | None => (Err (Sentinel ErrNotFound), b)
  | Some d => (Ok tt, set_domains (<[uuid := set_template isTemplate d]> (sb_domains b)) b)
  end.

Definition sb_domainsOnHost (hostID : string) (b : simBackend) : Z :=
  Z.of_nat (size (filter (fun kv => d_HostID kv.2 = hostID) (sb_domains b))).

Definition sb_listSnapshots (uuid : string) (b : simBackend) : list Snapshot :=
  default [] (sb_snapshots b !! uuid).

Definition snap_set_parent (parent : string) (mem : bool) (s : Snapshot) : Snapshot :=
  mkSnapshot (snap_ID s) (snap_VMID s) (snap_Name s) (snap_Description s) parent mem
    (snap_IsCurrent s) (snap_CreatedAt s).

(** The parent is the last snapshot that was current. *)
Definition sb_createSnapshot (uuid : string) (snap : Snapshot) (opts : SnapshotOptions)
    (b : simBackend) : simBackend :=
  let old := sb_listSnapshots uuid b in
  let parent := foldl (fun acc s => if snap_IsCurrent s then snap_ID s else acc)
                  (snap_ParentID snap) old in
  let snap := snap_set_parent parent (so_Memory opts) snap in
  set_snapshots (<[uuid := (snap_set_current false <$> old) ++ [snap]]> (sb_snapshots b)) b.

(** A domain without snapshots gets no entry in the map. *)
Definition sb_setCurrentSnapshot (uuid snapID : string) (b : simBackend) : bool * simBackend :=
  let old := sb_listSnapshots uuid b in
  let isCur s := bool_decide (snap_ID s = snapID) in
  (existsb isCur old,
   set_snapshots (alter (fmap (fun s => snap_set_current (isCur s) s)) uuid (sb_snapshots b)) b).

#[export] Instance sim_backend : libvirtBackend simBackend := {|
  be_version _ := "QEMU-8.2.0/libvirt-10.0.0";
  be_healthy b := negb (sb_closed b);
  be_close b := (Ok tt, sb_close b);
  be_listNodes := sb_listNodes;
  be_getNode id b := sb_nodes b !! id;
  be_listDomains := sb_listDomains;
  be_getDomain uuid b := sb_domains b !! uuid;
  be_assign := sb_assign;
  be_listPools := sb_pools;
  be_listNets := sb_nets;
  be_defineDomain d b := (Ok (d_UUID d), sb_defineDomain d b);
  be_undefineDomain uuid b := (Ok tt, sb_undefineDomain uuid b);
  be_setDomainState uuid s b := (Ok tt, sb_setDomainState uuid s b);
  be_reconfigureDomain := sb_reconfigureDomain;
  be_domainsOnHost := sb_domainsOnHost;
  be_markTemplate := sb_markTemplate;
  be_listSnapshots := sb_listSnapshots;
  be_createSnapshot uuid snap opts b := (Ok tt, sb_createSnapshot uuid snap opts b);
  be_setCurrentSnapshot uuid snapID b :=
    let '(found, b) := sb_setCurrentSnapshot uuid snapID b in (Ok found, b);
  be_hostIDs := sb_hostIDs;
  be_clusterName _ := "kvm-lab";
  be_ext := None;
  be_metrics := None |}.

(** The provider of the default build. *)
Definition New_sim (id : string) (caps : option Z) : kvm simBackend := New id caps newSimBackend.
