(* ===== verification/KvmFacts.v ===== *)
(** * The KVM driver: lemmas

    The tail every write shares, the invariant of the in-memory backend, and what
    each operation does to the table of VMs the API shows. *)
From S2P Require Import Prelude GoStd VProvider Sim SimFacts GoFacts Contract Kvm Hypervisor.

Abbreviation kvm_sim := (kvm simBackend) (only parsing).

Lemma kvm_finishTask_eq kind entity now (p : kvm_sim) :
  let seq := wrap64 (k_seq p + 1) in
  let tid := "task-" +:+ itoa seq in
  let t := mkTask tid kind (k_id p) entity TaskSucceeded 100 "" "" now now now in
  finishTask kind entity now p =
    (Ok (Some t), Kvm.set_tracker (<[tid := t]> (k_tracker p)) (Kvm.set_seq seq p)).
Proof.
  cbn zeta. unfold finishTask, Kvm.nextID, tt_Start, tt_Finish. simpl.
  by rewrite lookup_insert_eq, insert_insert_eq.
Qed.

Lemma kvm_nextID_eq prefix (p : kvm_sim) :
  k_seq p + 1 < 2 ^ 63 -> 0 <= k_seq p ->
  Kvm.nextID prefix p = (prefix +:+ "-" +:+ itoa (k_seq p + 1), Kvm.set_seq (k_seq p + 1) p).
Proof. intros H1 H2. unfold Kvm.nextID. rewrite wrap64_id; [done|]. unfold int64_range. lia. Qed.

(** ** The operations of the contract *)

Definition kvm_exec (now : time) (o : contract_op) : kvm_sim -> result kerr (option Task) * kvm_sim :=
  match o with
  | CCreate spec => Kvm.CreateVM spec now now
  | CPower vm pop => Kvm.PowerOp vm pop now
  | CDelete vm opts => Kvm.DeleteVM vm opts now
  | CReconfigure vm spec => Kvm.ReconfigureVM vm spec now
  | CSnapshot vm opts => Kvm.CreateSnapshot vm opts now now
  | CRevert vm snap => Kvm.RevertSnapshot vm snap now
  | CClone vm spec => Kvm.Clone vm spec now
  | CMigrate vm host opts => Kvm.MigrateVM vm host opts now
  end.

(** The table the API shows. *)
Definition kvm_view (p : kvm_sim) : gmap string cvm :=
  map_imap (fun id d => Some (cvm_of (normalizeDomain p d) (sb_listSnapshots id (k_backend p))))
    (sb_domains (k_backend p)).

Lemma kvm_view_lookup p k :
  kvm_view p !! k =
    (fun d => mkC (d_Name d) (d_HostID d) (normalizeState (d_State d)) (d_VCPUs d)
                (Z.quot (d_MemoryKB d) 1024)
                ((fun s => (snap_ID s, snap_IsCurrent s)) <$> sb_listSnapshots k (k_backend p)))
    <$> sb_domains (k_backend p) !! k.
Proof. unfold kvm_view. rewrite map_lookup_imap. by destruct (sb_domains (k_backend p) !! k). Qed.

Definition kvm_dialect : dialect := {|
  dl_create_ok spec :=
    negb (bool_decide (trim_space (vs_Name spec) = "") || (vs_MemoryMB spec <=? 0)
          || ((vs_VCPUs spec <=? 0) && (cpuTopologyVCPUs (vs_CPU spec) <=? 0)));
  dl_vcpus spec :=
    let n := cpuTopologyVCPUs (vs_CPU spec) in if 0 <? n then n else vs_VCPUs spec;
  dl_reconfigure_ok spec := negb (not_positive (rs_VCPUs spec) || not_positive (rs_MemoryMB spec));
  dl_clone_ok spec := negb (bool_decide (trim_space (cs_Name spec) = ""));
  dl_clone_host spec h := if bool_decide (cs_HostID spec = "") then h else cs_HostID spec |}.

(** Memory sizes whose number of KiB fits in an [int64]. *)
Definition mem_fits (m : Z) : Prop := - 2 ^ 53 <= m < 2 ^ 53.
Definition op_fits (o : contract_op) : Prop :=
  match o with
  | CCreate spec => mem_fits (vs_MemoryMB spec)
  | CReconfigure _ spec => forall m, rs_MemoryMB spec = Some m -> mem_fits m
  | _ => True
  end.

Lemma mem_round m : mem_fits m -> Z.quot (wrap64 (m * 1024)) 1024 = m.
Proof.
  unfold mem_fits. intros Hm. rewrite wrap64_id by (unfold int64_range; lia). by apply Z.quot_mul.
Qed.

(** ** The invariant *)

Definition seeded (id : string) : Prop := exists i, id = "dom-seed-" +:+ itoa i.

Lemma seeded_not_issued n id : seeded id -> ~ issued "dom" n id.
Proof.
  intros [i ->] (k & Hk & Hr). apply (string_app_inj_l "dom-") in Hk.
  destruct (itoa_spec k) as (Hd & _); [lia|]. rewrite <- Hk in Hd. by vm_compute in Hd.
Qed.

(** On the counter and the backend, the rest of the provider being constant. *)
Record kwf (n : Z) (b : simBackend) : Prop := {
  kwf_seq : 0 <= n;
  kwf_key : forall k d, sb_domains b !! k = Some d -> d_UUID d = k;
  kwf_issued : forall k, is_Some (sb_domains b !! k) -> seeded k \/ issued "dom" n k;
  kwf_snapdom : forall k, is_Some (sb_snapshots b !! k) -> is_Some (sb_domains b !! k);
  kwf_snaps : forall k l, sb_snapshots b !! k = Some l -> snaps_ok k n l;
  kwf_nodup : NoDup (sb_order b);
  kwf_order : forall k, k ∈ sb_order b <-> is_Some (sb_domains b !! k) }.

Lemma kvm_free n b : kwf n b -> sb_domains b !! ("dom" +:+ "-" +:+ itoa (n + 1)) = None.
Proof.
  intros Hwf. apply eq_None_not_Some. intros H. pose proof (kwf_seq n b Hwf) as Hn.
  apply (kwf_issued n b Hwf) in H as [H|H].
  - exact (seeded_not_issued _ _ H (issued_next "dom" _ Hn)).
  - by apply issued_fresh in H.
Qed.

Lemma kwf_mono n m b : n <= m -> kwf n b -> kwf m b.
Proof.
  intros Hle []. constructor; try done; [lia| |].
  - intros k Hk. destruct (kwf_issued0 k Hk) as [|]; [by left|right]. by eapply issued_mono.
  - intros k l Hk. eapply snaps_ok_mono; [done|]. by apply kwf_snaps0.
Qed.

Lemma kwf_update n b k d : is_Some (sb_domains b !! k) -> d_UUID d = k -> kwf n b ->
  kwf n (set_domains (<[k := d]> (sb_domains b)) b).
Proof.
  intros Hk Hd []. assert (forall k', is_Some (<[k := d]> (sb_domains b) !! k') <-> is_Some (sb_domains b !! k')) as Hdom.
  { intros k'. rewrite lookup_insert_is_Some. destruct (decide (k = k')) as [<-|Hne]; naive_solver. }
  constructor; simpl; try done; try (setoid_rewrite Hdom; done).
  intros k' d' H. apply lookup_insert_Some in H as [[<- <-]|[_ H]]; eauto.
Qed.

Lemma kwf_alter n b k f : (forall d, d_UUID (f d) = d_UUID d) -> kwf n b ->
  kwf n (set_domains (alter f k (sb_domains b)) b).
Proof.
  intros Hf Hwf. destruct (sb_domains b !! k) as [d|] eqn:Hd.
  - assert (alter f k (sb_domains b) = <[k := f d]> (sb_domains b)) as ->.
    { apply map_update_eq; [by rewrite lookup_alter_eq, Hd|]. intros k' Hne. by rewrite lookup_alter_ne. }
    apply kwf_update; [by rewrite Hd|by rewrite Hf; apply (kwf_key n b Hwf)|done].
  - rewrite alter_id; [by destruct b|]. intros d. by rewrite Hd.
Qed.

Lemma kwf_put_snaps n b k l : is_Some (sb_domains b !! k) -> snaps_ok k n l -> kwf n b ->
  kwf n (Kvm.set_snapshots (<[k := l]> (sb_snapshots b)) b).
Proof.
  intros Hk Hl []. constructor; simpl; try done.
  - intros k' [l' H]. apply lookup_insert_Some in H as [[<- <-]|[_ H]]; eauto.
  - intros k' l' H. apply lookup_insert_Some in H as [[<- <-]|[_ H]]; eauto.
Qed.

Lemma kwf_define n b d : sb_domains b !! d_UUID d = None -> issued "dom" n (d_UUID d) -> kwf n b ->
  kwf n (sb_defineDomain d b).
Proof.
  intros Hd Hiss []. unfold sb_defineDomain. rewrite Hd, bool_decide_false by (by intros [? ?]).
  constructor; simpl; try done.
  - intros k' d' H. apply lookup_insert_Some in H as [[<- <-]|[_ H]]; eauto.
  - intros k' H. apply lookup_insert_is_Some in H as [<-|[_ H]]; eauto.
  - intros k' H. apply lookup_insert_is_Some. destruct (decide (d_UUID d = k')); eauto.
  - apply NoDup_app. split_and!; [done| |by apply NoDup_singleton].
    intros x Hx ->%list_elem_of_singleton. apply kwf_order0 in Hx as [? ?]. congruence.
  - intros k'. rewrite elem_of_app, list_elem_of_singleton, lookup_insert_is_Some, kwf_order0.
    destruct (decide (d_UUID d = k')); naive_solver.
Qed.

Lemma kwf_undefine n b k : kwf n b -> kwf n (sb_undefineDomain k b).
Proof.
  intros []. destruct (remove_first_spec k (sb_order b) kwf_nodup0) as [H1 H2].
  constructor; simpl; try done.
  - intros k' d H. apply lookup_delete_Some in H as [_ H]. eauto.
  - intros k' H. apply lookup_delete_is_Some in H as [_ H]. eauto.
  - intros k' H. apply lookup_delete_is_Some in H as [Hne H]. apply lookup_delete_is_Some. eauto.
  - intros k' l H. apply lookup_delete_Some in H as [_ H]. eauto.
  - intros k'. rewrite H2, kwf_order0, lookup_delete_is_Some. naive_solver.
Qed.

(** A new snapshot, and the marks a revert sets. *)
Lemma kwf_old_snaps n b k : kwf n b -> snaps_ok k n (sb_listSnapshots k b).
Proof.
  intros Hwf. unfold sb_listSnapshots. destruct (sb_snapshots b !! k) as [l|] eqn:E; simpl.
  - by apply (kwf_snaps n b Hwf).
  - apply snaps_ok_nil.
Qed.

Lemma snaps_ok_add_child vm n l name desc parent mem now :
  0 <= n -> snaps_ok vm n l ->
  snaps_ok vm (n + 1)
    ((snap_set_current false <$> l)
     ++ [mkSnapshot ("snap" +:+ "-" +:+ itoa (n + 1)) vm name desc parent mem true now]).
Proof.
  intros Hn Hl. destruct (snaps_ok_add vm n l name desc mem now Hn Hl) as (H1 & H2 & H3).
  rewrite fmap_app in H1. apply Forall_app in H2 as [H2 H2']. rewrite Forall_singleton in H2'.
  rewrite current_count_app in H3. split_and!; [by rewrite fmap_app| |by rewrite current_count_app].
  apply Forall_app. split; [exact H2|]. apply Forall_singleton. exact H2'.
Qed.

(** ** The tail of a write *)

Lemma finish_entity kind e now (p : kvm_sim) : entity_of (finishTask kind e now p).1 = Ok e.
Proof. by rewrite kvm_finishTask_eq. Qed.
Lemma finish_backend kind e now (p : kvm_sim) : k_backend (finishTask kind e now p).2 = k_backend p.
Proof. by rewrite kvm_finishTask_eq. Qed.
Lemma finish_caps kind e now (p : kvm_sim) : k_caps (finishTask kind e now p).2 = k_caps p.
Proof. by rewrite kvm_finishTask_eq. Qed.
Lemma finish_seq kind e now (p : kvm_sim) : k_seq (finishTask kind e now p).2 = wrap64 (k_seq p + 1).
Proof. by rewrite kvm_finishTask_eq. Qed.
#[export] Hint Rewrite finish_entity finish_backend finish_caps finish_seq : castor_rw.

(** ** Updates of one domain *)

(** The provider with one domain replaced, and assignments to it. *)
Definition with_dom (vm : string) (d : libvirtDomain) (p : kvm_sim) : kvm_sim :=
  Kvm.set_backend (set_domains (<[vm := d]> (sb_domains (k_backend p))) (k_backend p)) p.

Lemma with_dom_same vm d (p : kvm_sim) : sb_domains (k_backend p) !! vm = Some d -> with_dom vm d p = p.
Proof. intros Hd. unfold with_dom. rewrite insert_id by done. by destruct p as [? ? ? ? []]. Qed.

Lemma assign_dom {A} vm f (m : kop A) d p : assign vm f m (with_dom vm d p) = m (with_dom vm (f d) p).
Proof.
  unfold assign, with_dom. simpl. unfold sb_assign. simpl.
  by rewrite (alter_some _ _ _ d), insert_insert_eq by apply lookup_insert_eq.
Qed.

(** What [ReconfigureVM] makes of a domain, its hardware apart. *)
Definition reconfigured (spec : VMReconfigureSpec) (d : libvirtDomain) : libvirtDomain :=
  let d := dom_set_NICs (d_NICs d ++ (libvirt_nic <$> rs_AddNICs spec))
             (dom_set_Disks (add_disks 0 (rs_AddDisks spec) (d_Disks d)) d) in
  let d := match rs_Resources spec with Some r => dom_set_Resources (Some r) d | None => d end in
  dom_set_Labels (rs_Labels spec ∪ d_Labels d) d.

Lemma reconfigure_devices_eq vm spec now d p :
  reconfigure_devices vm spec now (with_dom vm d p) =
    finishTask "reconfigureVM" vm now (with_dom vm (reconfigured spec d) p).
Proof.
  unfold reconfigure_devices. rewrite assign_dom. unfold reconfigure_resources, reconfigured.
  cbv zeta. cbn [be_ext sim_backend]. destruct (rs_Resources spec) as [r|].
  - rewrite assign_dom. unfold reconfigure_labels. by rewrite assign_dom.
  - unfold reconfigure_labels. by rewrite assign_dom.
Qed.

Lemma reconfigured_view spec d :
  let d' := reconfigured spec d in
  d_UUID d' = d_UUID d /\ d_Name d' = d_Name d /\ d_HostID d' = d_HostID d /\ d_State d' = d_State d /\
  d_VCPUs d' = d_VCPUs d /\ d_MemoryKB d' = d_MemoryKB d.
Proof. unfold reconfigured. by destruct (rs_Resources spec). Qed.

(** ** One step of the driver, seen from the contract *)

Definition kinv (caps : Z) (nodes : gmap string libvirtNode) (p : kvm_sim) : Prop :=
  kwf (k_seq p) (k_backend p) /\ k_caps p = caps /\ sb_nodes (k_backend p) = nodes.
Definition kvm_hosts (nodes : gmap string libvirtNode) (h : string) : bool :=
  bool_decide (is_Some (nodes !! h)).
Definition next_vm (p : kvm_sim) : string := "dom" +:+ "-" +:+ itoa (k_seq p + 1).
Definition next_snap (p : kvm_sim) : string := "snap" +:+ "-" +:+ itoa (k_seq p + 1).

Section Steps.
Context (caps : Z) (nodes : gmap string libvirtNode).
Local Abbreviation table := (performs kvm_dialect caps (kvm_hosts nodes)).

Definition kstep (o : contract_op) (p : kvm_sim) (r : result kerr (option Task) * kvm_sim) : Prop :=
  kinv caps nodes r.2 /\ k_seq r.2 <= k_seq p + 2 /\
  follows Sentinel kvm_view kvm_dialect caps (kvm_hosts nodes) o p r.

Lemma kvm_view_backend p q : k_backend p = k_backend q -> kvm_view p = kvm_view q.
Proof. intros H. apply map_eq. intros k. by rewrite !kvm_view_lookup, H. Qed.

Lemma view_fresh p : kinv caps nodes p -> kvm_view p !! next_vm p = None.
Proof. intros (Hwf & _). unfold next_vm. by rewrite kvm_view_lookup, (kvm_free _ _ Hwf). Qed.

Lemma snap_fresh p vm v : kinv caps nodes p -> kvm_view p !! vm = Some v -> next_snap p ∉ (c_snaps v).*1.
Proof.
  intros (Hwf & _) Hv. rewrite kvm_view_lookup in Hv.
  apply fmap_Some in Hv as (d & _ & ->). simpl. rewrite <- list_fmap_compose. simpl.
  intros (s & Hs & Hin)%list_elem_of_fmap. destruct (kwf_old_snaps _ _ vm Hwf) as (_ & Hall & _).
  rewrite Forall_forall in Hall. destruct (Hall s Hin) as [_ Hiss].
  change (next_snap p = snap_ID s) in Hs. rewrite <- Hs in Hiss. by apply issued_fresh in Hiss.
Qed.

(** A step that is refused, and one that runs to its task. *)
Lemma step_refused o p e :
  kinv caps nodes p -> table (next_vm p) (next_snap p) o (kvm_view p) = (Err e, kvm_view p) ->
  kstep o p (kfail e p).
Proof.
  intros Hinv Hc. split; [done|]. split; [simpl; lia|].
  exists (next_vm p), (next_snap p), (Err e). split; [by apply view_fresh|].
  split; [intros vm v; by apply snap_fresh|done].
Qed.

Lemma step_done o p p1 kind e now :
  kinv caps nodes p -> k_seq p + 2 < 2 ^ 63 -> k_seq p <= k_seq p1 <= k_seq p + 1 ->
  kinv caps nodes p1 ->
  table (next_vm p) (next_snap p) o (kvm_view p) = (Ok e, kvm_view p1) ->
  kstep o p (finishTask kind e now p1).
Proof.
  intros Hinv Hs Hle (Hwf1 & Hcaps & Hnodes) Hc.
  pose proof (kwf_seq _ _ Hwf1) as H0.
  assert (kvm_view (finishTask kind e now p1).2 = kvm_view p1) as Hv
    by (apply kvm_view_backend; apply finish_backend).
  unfold kstep, kinv. autorewrite with castor_rw. rewrite wrap_next by lia. split_and!.
  - by apply (kwf_mono (k_seq p1)); [lia|].
  - done.
  - done.
  - lia.
  - exists (next_vm p), (next_snap p), (Ok e). split; [by apply view_fresh|].
    split; [intros vm v; by apply snap_fresh|]. rewrite Hv, finish_entity. done.
Qed.

(** The backend after an update of one existing VM. *)
Lemma view_update p b' vm v :
  kvm_view (Kvm.set_backend b' p) !! vm = Some v ->
  (forall k, vm <> k -> sb_domains b' !! k = sb_domains (k_backend p) !! k /\
                        sb_snapshots b' !! k = sb_snapshots (k_backend p) !! k) ->
  kvm_view (Kvm.set_backend b' p) = <[vm := v]> (kvm_view p).
Proof.
  intros Hv Hne. apply map_update_eq; [done|]. intros k Hk.
  destruct (Hne k Hk) as [H1 H2]. rewrite !kvm_view_lookup. simpl. unfold sb_listSnapshots. by rewrite H1, H2.
Qed.

Lemma table_lookup p vm d : sb_domains (k_backend p) !! vm = Some d ->
  kvm_view p !! vm = Some (cvm_of (normalizeDomain p d) (sb_listSnapshots vm (k_backend p))).
Proof. intros H. by rewrite kvm_view_lookup, H. Qed.

Lemma table_missing p vm : sb_domains (k_backend p) !! vm = None -> kvm_view p !! vm = None.
Proof. intros H. by rewrite kvm_view_lookup, H. Qed.

(** A gate that is closed, and a VM that is not there. *)
Lemma step_gated o cap p m :
  kinv caps nodes p ->
  (Has caps cap = false -> table (next_vm p) (next_snap p) o (kvm_view p) = (Err ErrUnsupported, kvm_view p)) ->
  (Has caps cap = true -> kstep o p (m p)) -> kstep o p (gated cap m p).
Proof.
  intros Hinv Hno Hyes. pose proof Hinv as (_ & Hcaps & _). unfold gated. rewrite Hcaps.
  destruct (Has caps cap); simpl; [by apply Hyes|]. apply step_refused; [done|by apply Hno].
Qed.

Lemma step_domain o vm p m :
  kinv caps nodes p ->
  (kvm_view p !! vm = None -> table (next_vm p) (next_snap p) o (kvm_view p) = (Err ErrNotFound, kvm_view p)) ->
  (forall d, sb_domains (k_backend p) !! vm = Some d -> kstep o p (m d p)) -> kstep o p (with_domain vm m p).
Proof.
  intros Hinv Hno Hyes. unfold with_domain. simpl. destruct (sb_domains (k_backend p) !! vm) as [d|] eqn:Hd.
  - by apply Hyes.
  - apply step_refused; [done|]. apply Hno. by apply table_missing.
Qed.

(** The same provider with another backend or counter. *)
Lemma kinv_backend p b n : kinv caps nodes p -> kwf n b -> sb_nodes b = nodes ->
  kinv caps nodes (Kvm.set_backend b (Kvm.set_seq n p)).
Proof. by intros (_ & ? & _) ? ?. Qed.

Lemma step_write o p b' kind vm v now :
  kinv caps nodes p -> k_seq p + 2 < 2 ^ 63 -> kwf (k_seq p) b' -> sb_nodes b' = nodes ->
  kvm_view (Kvm.set_backend b' p) !! vm = Some v ->
  (forall k, vm <> k -> sb_domains b' !! k = sb_domains (k_backend p) !! k /\
                        sb_snapshots b' !! k = sb_snapshots (k_backend p) !! k) ->
  table (next_vm p) (next_snap p) o (kvm_view p) = (Ok vm, <[vm := v]> (kvm_view p)) ->
  kstep o p (finishTask kind vm now (Kvm.set_backend b' p)).
Proof.
  intros Hinv Hs Hwf Hn Hv Hne Hc. apply step_done; [done|done|simpl; lia| |].
  - destruct Hinv as (_ & ? & _). done.
  - by rewrite (view_update _ _ _ _ Hv Hne).
Qed.

Lemma step_create spec now p :
  kinv caps nodes p -> k_seq p + 2 < 2 ^ 63 -> mem_fits (vs_MemoryMB spec) ->
  kstep (CCreate spec) p (Kvm.CreateVM spec now now p).
Proof.
  intros Hinv Hs Hm. pose proof Hinv as (Hwf & _ & Hn). pose proof (kwf_seq _ _ Hwf).
  apply step_gated; [done|simpl; unfold need; by intros ->|]. intros Hc.
  destruct (_ || _) eqn:Hok.
  { apply step_refused; [done|]. simpl. unfold need. by rewrite Hc, Hok. }
  rewrite kvm_nextID_eq by lia. unfold backend_call. cbn [be_defineDomain sim_backend].
  set (d := domain_of_spec _ _ _). fold (next_vm p) in d.
  assert (sb_domains (k_backend p) !! d_UUID d = None) as Hfree by (apply (kvm_free _ _ Hwf)).
  apply step_done; [done|done|simpl; lia| |].
  - apply (kinv_backend p); [done| |done]. apply kwf_define; [done| |by apply (kwf_mono (k_seq p)); [lia|]].
    by apply issued_next.
  - unfold performs, contract, need. cbn [kvm_dialect dl_create_ok]. rewrite Hc, Hok. cbn [negb]. f_equal.
    symmetry. apply map_update_eq.
    + rewrite kvm_view_lookup. simpl. rewrite lookup_insert_eq. simpl.
      unfold sb_listSnapshots. simpl.
      destruct (sb_snapshots (k_backend p) !! next_vm p) as [l|] eqn:El.
      { destruct (kwf_snapdom _ _ Hwf (next_vm p)) as [d' Hd']; [by eexists|]. simpl in Hfree. congruence. }
      simpl. by rewrite mem_round.
    + intros k Hk. rewrite !kvm_view_lookup. simpl. by rewrite lookup_insert_ne.
Qed.

(** One existing domain is replaced, its snapshots are not touched. *)
Lemma step_domain_write o p kind vm d d' now :
  kinv caps nodes p -> k_seq p + 2 < 2 ^ 63 ->
  sb_domains (k_backend p) !! vm = Some d -> d_UUID d' = d_UUID d ->
  table (next_vm p) (next_snap p) o (kvm_view p) =
    (Ok vm, <[vm := cvm_of (normalizeDomain p d') (sb_listSnapshots vm (k_backend p))]> (kvm_view p)) ->
  kstep o p (finishTask kind vm now
    (with_dom vm d' p)).
Proof.
  intros Hinv Hs Hd Hid Hc. pose proof Hinv as (Hwf & _ & Hn).
  eapply step_write; [done|done| |done| | |exact Hc].
  - apply kwf_update; [by rewrite Hd| |done]. rewrite Hid. by apply (kwf_key _ _ Hwf).
  - rewrite kvm_view_lookup. simpl. rewrite lookup_insert_eq. done.
  - intros k Hk. simpl. by rewrite lookup_insert_ne.
Qed.

Lemma power_call_eq vm pop b c d :
  PowerOp_Valid pop = true -> sb_domains b !! vm = Some d ->
  exists s, power_call vm pop c b = (Ok tt, set_domains (<[vm := dom_set_State s d]> (sb_domains b)) b) /\
    normalizeState s = power_state pop.
Proof.
  intros Hv Hd. unfold power_call, power_state. cbn [be_setDomainState be_ext sim_backend].
  unfold sb_setDomainState. rewrite !(alter_some _ _ _ _ Hd).
  apply bool_decide_eq_true in Hv. rewrite !elem_of_cons, elem_of_nil in Hv.
  destruct Hv as [->|[->|[->|[->|[->|[]]]]]]; simpl; eexists; done.
Qed.

Lemma step_power vm pop now p :
  kinv caps nodes p -> k_seq p + 2 < 2 ^ 63 -> kstep (CPower vm pop) p (Kvm.PowerOp vm pop now p).
Proof.
  intros Hinv Hs. unfold Kvm.PowerOp. destruct (PowerOp_Valid pop) eqn:Hv; simpl negb; cbv iota.
  2: { apply step_refused; [done|]. simpl. by rewrite Hv. }
  apply step_gated; [done|simpl; rewrite Hv; unfold need; by intros ->|]. intros Hc.
  apply step_domain; [done|simpl; unfold need, on_vm; by rewrite Hv, Hc; intros ->|]. intros d Hd.
  destruct (power_call_eq vm pop (k_backend p) (k_caps p) d Hv Hd) as (s & Hcall & Hst).
  unfold backend_call. rewrite Hcall. apply (step_domain_write _ _ _ _ d); [done..|].
  simpl. unfold need, on_vm. rewrite Hv, Hc, (table_lookup _ _ _ Hd). by rewrite <- Hst.
Qed.

Lemma step_delete vm opts now p :
  kinv caps nodes p -> k_seq p + 2 < 2 ^ 63 -> kstep (CDelete vm opts) p (Kvm.DeleteVM vm opts now p).
Proof.
  intros Hinv Hs. pose proof Hinv as (Hwf & _ & Hn).
  apply step_gated; [done|simpl; unfold need; by intros ->|]. intros Hc.
  apply step_domain; [done|simpl; unfold need, on_vm; by rewrite Hc; intros ->|]. intros d Hd.
  cbv zeta. destruct (bool_decide (normalizeState (d_State d) = StateRunning) && negb (do_Force opts)) eqn:Hr.
  { apply step_refused; [done|]. simpl. unfold need, on_vm. rewrite Hc, (table_lookup _ _ _ Hd).
    simpl. by rewrite Hr. }
  assert (forall b, kwf (k_seq p) b -> sb_nodes b = nodes ->
            delete vm (sb_domains b) = delete vm (sb_domains (k_backend p)) ->
            sb_snapshots b = sb_snapshots (k_backend p) ->
            kstep (CDelete vm opts) p
              (finishTask "deleteVM" vm now (Kvm.set_backend (sb_undefineDomain vm b) p))) as Hgo.
  { intros b Hb Hnb Hdom Hsn. apply step_done; [done|done|simpl; lia| |].
    - destruct Hinv as (_ & Hcaps & _). split; [|done]. by apply kwf_undefine.
    - simpl. unfold need, on_vm. rewrite Hc, (table_lookup _ _ _ Hd). simpl. rewrite Hr. f_equal.
      apply map_eq. intros k. rewrite kvm_view_lookup. simpl. unfold sb_listSnapshots. simpl.
      rewrite Hdom, Hsn. destruct (decide (vm = k)) as [<-|Hne].
      + by rewrite !lookup_delete_eq.
      + by rewrite !lookup_delete_ne, kvm_view_lookup. }
  destruct (bool_decide (normalizeState (d_State d) = StateRunning)); simpl in *.
  - apply negb_false_iff in Hr. rewrite Hr. unfold backend_call. simpl. apply Hgo; [|done| |done].
    + by apply kwf_alter.
    + simpl. apply map_eq. intros k. rewrite !lookup_delete. case_decide; [done|].
      by rewrite lookup_alter_ne.
  - apply Hgo; done.
Qed.

Lemma step_reconfigure vm spec now p :
  kinv caps nodes p -> k_seq p + 2 < 2 ^ 63 -> (forall m, rs_MemoryMB spec = Some m -> mem_fits m) ->
  kstep (CReconfigure vm spec) p (Kvm.ReconfigureVM vm spec now p).
Proof.
  intros Hinv Hs Hm.
  apply step_gated; [done|simpl; unfold need; by intros ->|]. intros Hc.
  apply step_domain; [done|simpl; unfold need, on_vm; by rewrite Hc; intros ->|]. intros d Hd.
  destruct (not_positive (rs_VCPUs spec) || not_positive (rs_MemoryMB spec)) eqn:Hpos.
  { apply step_refused; [done|]. simpl. unfold need, on_vm. by rewrite Hc, (table_lookup _ _ _ Hd), Hpos. }
  assert (forall d', d_UUID d' = d_UUID d -> d_Name d' = d_Name d -> d_HostID d' = d_HostID d ->
            d_State d' = d_State d -> d_VCPUs d' = default (d_VCPUs d) (rs_VCPUs spec) ->
            Z.quot (d_MemoryKB d') 1024 = default (Z.quot (d_MemoryKB d) 1024) (rs_MemoryMB spec) ->
            kstep (CReconfigure vm spec) p (finishTask "reconfigureVM" vm now (with_dom vm d' p))) as Hgo.
  { intros d' H1 H2 H3 H4 H5 H6. apply (step_domain_write _ _ _ _ d); [done..|].
    simpl. unfold need, on_vm. rewrite Hc, (table_lookup _ _ _ Hd), Hpos. cbn [negb].
    unfold cvm_of, c_set_hw. simpl. by rewrite H2, H3, H4, H5, H6. }
  destruct (reconfigured_view spec d) as (G1 & G2 & G3 & G4 & G5 & G6).
  destruct (bool_decide (is_Some (rs_VCPUs spec)) || bool_decide (is_Some (rs_MemoryMB spec))) eqn:Hhw.
  - unfold backend_call. simpl (be_reconfigureDomain _ _ _ _). unfold sb_reconfigureDomain. rewrite Hd.
    change (set_domains _ _) with (set_domains (<[vm := set_hardware spec d]> (sb_domains (k_backend p))) (k_backend p)).
    fold (with_dom vm (set_hardware spec d) p). rewrite assign_dom, reconfigure_devices_eq.
    destruct (reconfigured_view spec (set_hardware spec (set_hardware spec d))) as (F1 & F2 & F3 & F4 & F5 & F6).
    unfold set_hardware in *.
    destruct (rs_VCPUs spec) as [n|], (rs_MemoryMB spec) as [m|];
      (apply Hgo; rewrite ?F1, ?F2, ?F3, ?F4, ?F5, ?F6); simpl; try done; apply mem_round; by apply Hm.
  - apply orb_false_iff in Hhw as [Hv Hmm]. apply bool_decide_eq_false in Hv, Hmm.
    rewrite <- (with_dom_same vm d p Hd) at 2. rewrite reconfigure_devices_eq. apply Hgo; try done.
    + rewrite G5. by destruct (rs_VCPUs spec); [destruct Hv|].
    + rewrite G6. by destruct (rs_MemoryMB spec); [destruct Hmm|].
Qed.

Lemma step_migrate vm host opts now p :
  kinv caps nodes p -> k_seq p + 2 < 2 ^ 63 ->
  kstep (CMigrate vm host opts) p (Kvm.MigrateVM vm host opts now p).
Proof.
  intros Hinv Hs. pose proof Hinv as (_ & _ & Hn).
  apply step_gated; [done|simpl; unfold need; by intros ->|]. intros Hc.
  apply step_domain; [done|simpl; unfold need, on_vm; by rewrite Hc; intros ->|]. intros d Hd.
  simpl. destruct (sb_nodes (k_backend p) !! host) as [nd|] eqn:Hnd.
  - rewrite <- (with_dom_same vm d p Hd) at 2. rewrite assign_dom.
    apply (step_domain_write _ _ _ _ d); [done..|].
    simpl. unfold need, on_vm. rewrite Hc, (table_lookup _ _ _ Hd). unfold kvm_hosts.
    rewrite bool_decide_true by (rewrite <- Hn, Hnd; by eexists). done.
  - apply step_refused; [done|]. simpl. unfold need, on_vm. rewrite Hc, (table_lookup _ _ _ Hd).
    unfold kvm_hosts. rewrite bool_decide_false; [done|]. rewrite <- Hn, Hnd. by intros [].
Qed.

Lemma step_clone vm spec now p :
  kinv caps nodes p -> k_seq p + 2 < 2 ^ 63 -> kstep (CClone vm spec) p (Kvm.Clone vm spec now p).
Proof.
  intros Hinv Hs. pose proof Hinv as (Hwf & _ & Hn). pose proof (kwf_seq _ _ Hwf).
  apply step_gated; [done|simpl; unfold need; by intros ->|]. intros Hc.
  apply step_domain; [done|simpl; unfold need, on_vm; by rewrite Hc; intros ->|]. intros d Hd.
  destruct (bool_decide (trim_space (cs_Name spec) = "")) eqn:Hok.
  { apply step_refused; [done|]. simpl. unfold need, on_vm. by rewrite Hc, (table_lookup _ _ _ Hd), Hok. }
  rewrite kvm_nextID_eq by lia. unfold backend_call. cbn [be_defineDomain sim_backend].
  fold (next_vm p). set (c := domain_clone _ _ _).
  assert (d_UUID c = next_vm p) as Hid by (unfold c, domain_clone; by destruct (bool_decide (cs_HostID spec = ""))).
  assert (cvm_of (normalizeDomain p c) [] =
          mkC (cs_Name spec) (if bool_decide (cs_HostID spec = "") then d_HostID d else cs_HostID spec)
            (if cs_PowerOn spec then StateRunning else StateStopped) (d_VCPUs d) (Z.quot (d_MemoryKB d) 1024) [])
    as Hview by (unfold c, domain_clone; by destruct (cs_PowerOn spec), (bool_decide (cs_HostID spec = ""))).
  clearbody c. rewrite Hid.
  assert (sb_domains (k_backend p) !! d_UUID c = None) as Hfree
    by (rewrite Hid; apply (kvm_free _ _ Hwf)).
  assert (issued "dom" (k_seq p + 1) (d_UUID c)) as Hiss by (rewrite Hid; by apply issued_next).
  apply step_done; [done|done|simpl; lia| |].
  - apply (kinv_backend p); [done| |done].
    apply (kwf_define _ _ c); [done|done|by apply (kwf_mono (k_seq p)); [lia|]].
  - unfold performs, contract, need, on_vm. cbn [kvm_dialect dl_clone_ok dl_clone_host].
    rewrite Hc, (table_lookup _ _ _ Hd), Hok. cbn [negb]. f_equal.
    symmetry. apply map_update_eq.
    + rewrite kvm_view_lookup. simpl. rewrite Hid, lookup_insert_eq. simpl.
      unfold sb_listSnapshots. simpl.
      destruct (sb_snapshots (k_backend p) !! next_vm p) as [l|] eqn:El.
      { destruct (kwf_snapdom _ _ Hwf (next_vm p)) as [d' Hd']; [by eexists|]. rewrite Hid in Hfree. congruence. }
      f_equal. exact Hview.
    + intros k Hk. rewrite !kvm_view_lookup. simpl. by rewrite Hid, lookup_insert_ne.
Qed.

Lemma step_snapshot vm opts now p :
  kinv caps nodes p -> k_seq p + 2 < 2 ^ 63 ->
  kstep (CSnapshot vm opts) p (Kvm.CreateSnapshot vm opts now now p).
Proof.
  intros Hinv Hs. pose proof Hinv as (Hwf & _ & Hn). pose proof (kwf_seq _ _ Hwf).
  apply step_gated; [done|simpl; unfold need; by intros ->|]. intros Hc.
  apply step_domain; [done|simpl; unfold need, on_vm; by rewrite Hc; intros ->|]. intros d Hd.
  rewrite kvm_nextID_eq by lia. unfold backend_call. cbn [be_createSnapshot sim_backend].
  unfold sb_createSnapshot. fold (next_snap p).
  set (old := sb_listSnapshots vm (k_backend (Kvm.set_seq (k_seq p + 1) p))).
  set (parent := foldl _ _ old). set (new := snap_set_parent _ _ _).
  assert (old = sb_listSnapshots vm (k_backend p)) as Hold by done.
  apply step_done; [done|done|simpl; lia| |].
  - apply (kinv_backend p); [done| |done]. apply (kwf_put_snaps _ (k_backend p)).
    + rewrite Hd. by eexists.
    + apply snaps_ok_add_child; [done|]. rewrite Hold. by apply kwf_old_snaps.
    + by apply (kwf_mono (k_seq p)); [lia|].
  - simpl. unfold need, on_vm. rewrite Hc, (table_lookup _ _ _ Hd). f_equal.
    symmetry. apply map_update_eq.
    + rewrite kvm_view_lookup. simpl. rewrite Hd. simpl. unfold sb_listSnapshots at 1. simpl.
      rewrite lookup_insert_eq. simpl. unfold c_set_snaps. simpl.
      rewrite fmap_app, Hold, <- !list_fmap_compose. done.
    + intros k Hk. rewrite !kvm_view_lookup. simpl. unfold sb_listSnapshots. simpl.
      by rewrite lookup_insert_ne.
Qed.

Lemma revert_snaps vm snap (b : simBackend) :
  sb_listSnapshots vm (sb_setCurrentSnapshot vm snap b).2 =
    (fun s => snap_set_current (bool_decide (snap_ID s = snap)) s) <$> sb_listSnapshots vm b.
Proof.
  unfold sb_setCurrentSnapshot, sb_listSnapshots. simpl. rewrite lookup_alter_eq.
  by destruct (sb_snapshots b !! vm).
Qed.

Lemma kwf_revert n vm snap b : kwf n b -> kwf n (sb_setCurrentSnapshot vm snap b).2.
Proof.
  intros Hwf. unfold sb_setCurrentSnapshot. simpl. destruct (sb_snapshots b !! vm) as [l|] eqn:Hl.
  - rewrite (alter_some _ _ _ _ Hl). apply kwf_put_snaps; [| |done].
    + apply (kwf_snapdom _ _ Hwf). by rewrite Hl.
    + apply snaps_ok_mark. by apply (kwf_snaps _ _ Hwf).
  - rewrite alter_id; [by destruct b|]. intros l. by rewrite Hl.
Qed.

Lemma step_revert vm snap now p :
  kinv caps nodes p -> k_seq p + 2 < 2 ^ 63 ->
  kstep (CRevert vm snap) p (Kvm.RevertSnapshot vm snap now p).
Proof.
  intros Hinv Hs. pose proof Hinv as (Hwf & Hcaps & Hn). pose proof (kwf_seq _ _ Hwf).
  apply step_gated; [done|simpl; unfold need; by intros ->|]. intros Hc.
  apply step_domain; [done|simpl; unfold need, on_vm; by rewrite Hc; intros ->|]. intros d Hd.
  unfold backend_call. cbn [be_setCurrentSnapshot sim_backend].
  destruct (sb_setCurrentSnapshot vm snap (k_backend p)) as [found b] eqn:Hb.
  pose proof (kwf_revert _ vm snap _ Hwf) as Hwf'. pose proof (revert_snaps vm snap (k_backend p)) as Hsn.
  rewrite Hb in Hwf', Hsn. simpl in Hwf', Hsn.
  assert (found = existsb (fun s => bool_decide (s.1 = snap))
            ((fun s => (snap_ID s, snap_IsCurrent s)) <$> sb_listSnapshots vm (k_backend p))) as Hf.
  { unfold sb_setCurrentSnapshot in Hb. injection Hb as <- _.
    generalize (sb_listSnapshots vm (k_backend p)). intros l. induction l as [|s l IH]; [done|]. simpl. by rewrite IH. }
  assert (b = Kvm.set_snapshots (sb_snapshots b) (k_backend p) /\
          forall k, vm <> k -> sb_snapshots b !! k = sb_snapshots (k_backend p) !! k) as [Hbeq Hother].
  { unfold sb_setCurrentSnapshot in Hb. injection Hb as _ <-. split; [done|].
    intros k Hk. simpl. by rewrite lookup_alter_ne. }
  set (v := c_set_snaps ((fun s => (s.1, bool_decide (s.1 = snap))) <$>
              ((fun s => (snap_ID s, snap_IsCurrent s)) <$> sb_listSnapshots vm (k_backend p)))
              (cvm_of (normalizeDomain p d) (sb_listSnapshots vm (k_backend p)))).
  assert (kvm_view (Kvm.set_backend b p) = <[vm := v]> (kvm_view p)) as Hview.
  { apply view_update.
    - rewrite kvm_view_lookup. simpl. rewrite Hsn. rewrite Hbeq at 1. simpl. rewrite Hd. simpl.
      unfold v, c_set_snaps. simpl. by rewrite <- !list_fmap_compose.
    - intros k Hk. split; [by rewrite Hbeq|by apply Hother]. }
  assert (table (next_vm p) (next_snap p) (CRevert vm snap) (kvm_view p) =
            (if found then Ok vm else Err ErrNotFound, kvm_view (Kvm.set_backend b p))) as Htab.
  { simpl. unfold need, on_vm. rewrite Hc, (table_lookup _ _ _ Hd), Hview. simpl. by rewrite <- Hf. }
  assert (sb_nodes b = nodes) as Hnb by (by rewrite Hbeq).
  destruct found; simpl negb; cbv iota.
  - apply step_done; [done|done|simpl; lia|done|done].
  - split; [done|]. split; [simpl; lia|]. exists (next_vm p), (next_snap p), (Err ErrNotFound).
    split; [by apply view_fresh|]. split; [intros k w; by apply snap_fresh|done].
Qed.

(** Every operation of the driver is a step of the contract. *)
Lemma kvm_refines_step :
  refines_step Sentinel kvm_exec kvm_view (kinv caps nodes) k_seq kvm_dialect caps (kvm_hosts nodes) op_fits 2 (2 ^ 63).
Proof.
  intros now o p Hinv Hs Hok. destruct o; simpl in Hok.
  - by apply step_create.
  - by apply step_power.
  - by apply step_delete.
  - by apply step_reconfigure.
  - by apply step_snapshot.
  - by apply step_revert.
  - by apply step_clone.
  - by apply step_migrate.
Qed.
End Steps.

(** ** The KVM driver under the engines

    The driver of the default build implements the interface the migration,
    replication and backup engines are written against, and so does a registry
    that mixes two kinds of providers. *)

Definition kvm_err {A} (r : result kerr A) : result string A :=
  match r with Ok a => Ok a | Err e => Err (kerr_Error e) end.
Definition kvm_op {A} (r : result kerr A * kvm_sim) : result string A * kvm_sim := (kvm_err r.1, r.2).

#[export] Instance kvm_hypervisor : Hypervisor (kvm simBackend) := {|
  hv_Kind := k_kind;
  hv_ID := k_id;
  hv_Capabilities := k_caps;
  hv_GetVM vm p :=
    (match Kvm.GetVM vm p with Ok d => Ok (Some d.1) | Err e => Err (kerr_Error e) end, p);
  hv_CreateVM spec now p := kvm_op (Kvm.CreateVM spec now now p);
  hv_PowerOp vm op now p := kvm_op (Kvm.PowerOp vm op now p);
  hv_Snapshot vm opts now p := kvm_op (Kvm.CreateSnapshot vm opts now now p);
  hv_ListSnapshots vm p := (kvm_err (Kvm.ListSnapshots vm p), p);
  hv_ExportVM vm fmt p := kvm_op (Kvm.ExportVM vm fmt p);
  hv_DeleteSnapshot := Some (fun vm snap now p => kvm_op (Kvm.DeleteSnapshot vm snap now p)) |}.

Lemma finish_done kind e now (p : kvm_sim) : exists t, (finishTask kind e now p).1 = Ok (Some t).
Proof. rewrite kvm_finishTask_eq. by eexists. Qed.

Ltac kvm_open :=
  unfold Kvm.CreateVM, Kvm.PowerOp, Kvm.CreateSnapshot, Kvm.ExportVM, gated, with_domain,
    backend_call, Kvm.nextID, power_call in *; cbn [be_ext be_getDomain be_defineDomain be_setDomainState
    be_createSnapshot sim_backend] in *.

#[export] Instance kvm_hypervisor_laws : HypervisorLaws (kvm simBackend).
Proof.
  constructor; simpl; try done.
  - intros p spec now Hc. unfold kvm_op, Kvm.CreateVM, gated. by rewrite Hc.
  - intros p vm fmt Hc. unfold kvm_op, Kvm.ExportVM, gated. by rewrite Hc.
  - intros p vm fmt. unfold kvm_op. simpl. kvm_open. by repeat case_match.
  - intros p spec now. unfold kvm_op. simpl. kvm_open. repeat case_match; simplify_eq/=; try done.
    match goal with |- context [finishTask ?k ?e ?t ?q] => destruct (finish_done k e t q) as [? ->] end. done.
  - intros p spec now e p'. unfold kvm_op. kvm_open.
    repeat case_match; simplify_eq/=; try (by intros [= _ <-]).
    match goal with |- context [finishTask ?k ?e ?t ?q] => destruct (finish_done k e t q) as [? ->] end. done.
  - intros p spec now. kvm_open. repeat case_match; simplify_eq/=; by rewrite ?kvm_finishTask_eq.
  - intros p vm op now. kvm_open. repeat case_match; simplify_eq/=; by rewrite ?kvm_finishTask_eq.
  - intros p vm opts now. kvm_open. repeat case_match; simplify_eq/=; by rewrite ?kvm_finishTask_eq.
Qed.

(** ** Registries of two kinds of providers *)

Section Sum.
Context {P Q : Type} `{HypervisorLaws P, HypervisorLaws Q}.

Definition on_side {A} (f : P -> A * P) (g : Q -> A * Q) (p : P + Q) : A * (P + Q) :=
  match p with
  | inl p => ((f p).1, inl (f p).2)
  | inr q => ((g q).1, inr (g q).2)
  end.

(** [DeleteSnapshot] is optional, and here offered when both kinds offer it. *)
#[export] Instance sum_hypervisor : Hypervisor (P + Q) := {|
  hv_Kind p := match p with inl p => hv_Kind p | inr q => hv_Kind q end;
  hv_ID p := match p with inl p => hv_ID p | inr q => hv_ID q end;
  hv_Capabilities p := match p with inl p => hv_Capabilities p | inr q => hv_Capabilities q end;
  hv_GetVM vm := on_side (hv_GetVM vm) (hv_GetVM vm);
  hv_CreateVM spec now := on_side (hv_CreateVM spec now) (hv_CreateVM spec now);
  hv_PowerOp vm op now := on_side (hv_PowerOp vm op now) (hv_PowerOp vm op now);
  hv_Snapshot vm opts now := on_side (hv_Snapshot vm opts now) (hv_Snapshot vm opts now);
  hv_ListSnapshots vm := on_side (hv_ListSnapshots vm) (hv_ListSnapshots vm);
  hv_ExportVM vm fmt := on_side (hv_ExportVM vm fmt) (hv_ExportVM vm fmt);
  hv_DeleteSnapshot :=
    match hv_DeleteSnapshot (P := P), hv_DeleteSnapshot (P := Q) with
    | Some f, Some g => Some (fun vm snap now => on_side (f vm snap now) (g vm snap now))
    | _, _ => None
    end |}.

#[export] Instance sum_hypervisor_laws : HypervisorLaws (P + Q).
Proof.
  constructor; intros [p|q]; simpl.
  - intros spec now Hc. by rewrite hv_create_gated.
  - intros spec now Hc. by rewrite hv_create_gated.
  - intros vm fmt Hc. by rewrite hv_export_gated.
  - intros vm fmt Hc. by rewrite hv_export_gated.
  - intros vm. by rewrite hv_get_reads.
  - intros vm. by rewrite hv_get_reads.
  - intros vm. by rewrite hv_list_reads.
  - intros vm. by rewrite hv_list_reads.
  - intros vm fmt. by rewrite hv_export_reads.
  - intros vm fmt. by rewrite hv_export_reads.
  - intros spec now. apply hv_create_task.
  - intros spec now. apply hv_create_task.
  - intros spec now e p'. destruct (hv_CreateVM spec now p) as [r p1] eqn:Hr. simpl.
    intros [= -> <-]. by rewrite (hv_create_failed p spec now e p1 Hr).
  - intros spec now e p'. destruct (hv_CreateVM spec now q) as [r p1] eqn:Hr. simpl.
    intros [= -> <-]. by rewrite (hv_create_failed q spec now e p1 Hr).
  - intros spec now. apply (hv_create_same p).
  - intros spec now. apply (hv_create_same q).
  - intros vm op now. apply (hv_power_same p).
  - intros vm op now. apply (hv_power_same q).
  - intros vm opts now. apply (hv_snapshot_same p).
  - intros vm opts now. apply (hv_snapshot_same q).
Qed.
End Sum.
