(* ===== verification/KvmProps.v ===== *)
(** * What the KVM driver guarantees

    The driver follows the provider contract on every run, what it makes of the
    hardware asked for, the names of its disks, host maintenance, and migration
    from another kind of hypervisor. *)
From S2P Require Import Prelude GoStd VProvider Sim SimFacts Contract SimContract Hypervisor Migrate.
From S2P Require Import MigrateProps Kvm KvmFacts.

(** ** A provider just built *)

Lemma New_kwf id caps : kwf 0 (k_backend (New_sim id caps)).
Proof.
  constructor; simpl; try done.
  - intros k d H. repeat (apply lookup_insert_Some in H as [[<- <-]|[_ H]]; [done|]). done.
  - intros k [d H]. left.
    apply lookup_insert_Some in H as [[<- _]|[_ H]]; [by exists 1|].
    apply lookup_insert_Some in H as [[<- _]|[_ H]]; [by exists 2|].
    apply lookup_insert_Some in H as [[<- _]|[_ H]]; [by exists 3|]. done.
  - intros k [l H]. done.
  - apply (bool_decide_unpack _). by vm_compute.
  - intros k. rewrite !elem_of_cons, elem_of_nil, !lookup_insert_is_Some. split.
    + intros [->|[->|[->|[]]]]; naive_solver.
    + intros [<-|[_ [<-|[_ [<-|[_ [? H]]]]]]]; try done; auto.
Qed.

Definition new_nodes : gmap string libvirtNode := sb_nodes newSimBackend.

(** C8 The driver of the default build follows the provider contract on every
    run: whatever operations are asked of a provider just built, short of the
    overflow of its counter and of memory sizes that do not fit, its answers and
    the table of VMs it shows are those of the abstract machine, which gives
    every new VM and snapshot an id not in use, refuses what the capabilities,
    the table or the specification do not allow without changing anything, and
    changes one VM otherwise.  There is one exception, which the runs make explicit
    as the step [forgets]: a revert to a snapshot that the VM does not have is
    refused as the machine refuses it, but then none of the snapshots of that VM is
    current any more; nothing else changes. *)
Theorem kvm_refines_contract id caps l :
  2 * Z.of_nat (length l) < 2 ^ 63 -> Forall (fun o => op_fits o.2) l ->
  follows_run Sentinel kvm_exec kvm_view kvm_dialect (default Kvm.FullCaps caps) (kvm_hosts new_nodes)
    l (New_sim id caps).
Proof.
  intros Hl Hall. eapply run_refines; [|apply kvm_refines_step| |simpl; lia|done]; [lia|].
  split; [apply New_kwf|done].
Qed.

Definition demo_disk : DiskSpec := mkDiskSpec (f64_of_Z 20) "qcow2" "" "" None "" false.
Definition demo_spec (name : string) : VMSpec := basic_VMSpec name "node-1" 2 4096 "linux" FirmwareUEFI [demo_disk].

Lemma kvm_refines_contract_witness :
  let l := [(1, CCreate (demo_spec "a")); (2, CPower "dom-1" PowerStart); (3, CSnapshot "dom-1" (mkSnapshotOptions "s" "" false false));
            (4, CRevert "dom-1" "snap-9"); (5, CDelete "dom-1" (mkDeleteOptions false true))] in
  follows_run Sentinel kvm_exec kvm_view kvm_dialect Kvm.FullCaps (kvm_hosts new_nodes) l (New_sim "k" None) /\
  (run_ops kvm_exec l (New_sim "k" None)).1 =
    [Ok "dom-1"; Ok "dom-1"; Ok "dom-1"; Err (Sentinel ErrNotFound); Err (Sentinel ErrConflict)].
Proof.
  split; [|by vm_compute].
  apply (kvm_refines_contract "k" None); [simpl; lia|].
  repeat constructor; simpl; unfold mem_fits; lia.
Defined.

(** The simulator follows the same contract, in its own dialect, on every run
    from a well-formed provider with no protected VM whose counter has passed its
    seeded ids. *)
Theorem sim_refines_contract p l :
  sim_inv (sim_caps p) (sim_hosts p) p -> sim_seq p + 2 * Z.of_nat (length l) < 2 ^ 63 ->
  follows_run id sim_step sim_view sim_dialect (sim_caps p) (sim_host (sim_hosts p)) l p.
Proof.
  intros Hinv Hl. eapply run_refines; [|apply sim_refines_step|done|done|]; [lia|].
  by apply Forall_true.
Qed.

Definition demo_sim : sim := Sim.set_seq 3 (Sim.New "dst" []).

Lemma demo_sim_inv : sim_inv (sim_caps demo_sim) (sim_hosts demo_sim) demo_sim.
Proof.
  constructor; try done.
  - pose proof (New_wf "dst" [] (Forall_nil_2 _)) as []. by constructor.
  - intros k v H. simpl in H. repeat (apply lookup_insert_Some in H as [[_ <-]|[_ H]]; [done|]). done.
Qed.

Lemma sim_refines_contract_witness :
  let l := [(1, CCreate (demo_spec "a")); (2, CPower "vm-4" PowerStart); (3, CDelete "vm-4" (mkDeleteOptions true true))] in
  follows_run id sim_step sim_view sim_dialect (sim_caps demo_sim) (sim_host (sim_hosts demo_sim)) l demo_sim /\
  (run_ops sim_step l demo_sim).1 = [Ok "vm-4"; Ok "vm-4"; Ok "vm-4"].
Proof.
  split; [|by vm_compute]. apply (sim_refines_contract demo_sim); [apply demo_sim_inv|simpl; lia].
Defined.

(** ** The hardware of a new VM *)

Lemma kvm_create_eq spec created now p :
  kwf (k_seq p) (k_backend p) -> k_seq p + 2 < 2 ^ 63 ->
  (exists t p', Kvm.CreateVM spec created now p = (Ok (Some t), p')) ->
  dl_create_ok kvm_dialect spec = true /\
  Kvm.CreateVM spec created now p =
    finishTask "createVM" (next_vm p) now
      (Kvm.set_backend (sb_defineDomain (domain_of_spec (next_vm p) spec created) (k_backend p))
         (Kvm.set_seq (k_seq p + 1) p)).
Proof.
  intros Hwf Hs (t & p' & Hr). pose proof (kwf_seq _ _ Hwf). unfold Kvm.CreateVM, gated in *.
  destruct (Has (k_caps p) CapCreateVM); [|done]. cbn [negb] in *.
  destruct (_ || _) eqn:Hok; [done|]. rewrite kvm_nextID_eq by lia. split; [|done].
  cbn [dl_create_ok kvm_dialect]. by rewrite Hok.
Qed.

Lemma topology_fits c :
  0 < cpu_Sockets c -> 0 < cpu_CoresPerSocket c -> 0 < cpu_ThreadsPerCore c ->
  cpu_Sockets c * cpu_CoresPerSocket c * cpu_ThreadsPerCore c < 2 ^ 63 ->
  cpuTopologyVCPUs (Some c) = cpu_Sockets c * cpu_CoresPerSocket c * cpu_ThreadsPerCore c.
Proof.
  intros Hs Hc Ht Hlt. unfold cpuTopologyVCPUs.
  destruct (Z.leb_spec (cpu_Sockets c) 0); [lia|]. destruct (Z.leb_spec (cpu_CoresPerSocket c) 0); [lia|].
  destruct (Z.leb_spec (cpu_ThreadsPerCore c) 0); [lia|]. simpl.
  assert (0 < cpu_Sockets c * cpu_CoresPerSocket c) by nia.
  rewrite (wrap64_id (cpu_Sockets c * _)) by (unfold int64_range; nia).
  apply wrap64_id. unfold int64_range. nia.
Qed.

Lemma mem_shown m :
  let w := Z.quot (wrap64 (m * 1024)) 1024 in
  - 2 ^ 53 <= w < 2 ^ 53 /\ (m mod 2 ^ 54 = 0 -> w = 0).
Proof.
  pose proof (wrap64_range (m * 1024)) as Hr. unfold int64_range in Hr. cbv zeta. split.
  - generalize dependent (wrap64 (m * 1024)). intros w Hr. Z.to_euclidean_division_equations. lia.
  - intros Hm. apply Z.mod_divide in Hm as [k ->]; [|done]. unfold wrap64.
    replace (k * 2 ^ 54 * 1024 + 2 ^ 63) with (2 ^ 63 + k * 2 ^ 64) by lia.
    by rewrite Z.mod_add by lia.
Qed.

(** The hardware of a new VM: it always has a vCPU, as many as the topology
    asks when that product is positive as a machine integer and else the flat
    count, and the exact product when it fits.  Its memory is what was asked
    below 2^53 MiB and is bounded by that anyway: the driver counts in KiB in 64
    bits, so that a larger size is accepted and wraps around, and a multiple of
    2^54 MiB gives a VM without memory. *)
Theorem kvm_hardware spec created now p t p' :
  kwf (k_seq p) (k_backend p) -> k_seq p + 2 < 2 ^ 63 -> Has (k_caps p) CapGetVM = true ->
  Kvm.CreateVM spec created now p = (Ok (Some t), p') ->
  exists v raw, Kvm.GetVM (task_EntityID t) p' = Ok (v, raw) /\
    0 < vm_VCPUs v /\
    (cpuTopologyVCPUs (vs_CPU spec) <= 0 -> vm_VCPUs v = vs_VCPUs spec) /\
    (forall c, vs_CPU spec = Some c ->
       0 < cpu_Sockets c -> 0 < cpu_CoresPerSocket c -> 0 < cpu_ThreadsPerCore c ->
       cpu_Sockets c * cpu_CoresPerSocket c * cpu_ThreadsPerCore c < 2 ^ 63 ->
       vm_VCPUs v = cpu_Sockets c * cpu_CoresPerSocket c * cpu_ThreadsPerCore c) /\
    (vs_MemoryMB spec < 2 ^ 53 -> vm_MemoryMB v = vs_MemoryMB spec) /\
    - 2 ^ 53 <= vm_MemoryMB v < 2 ^ 53 /\
    (vs_MemoryMB spec mod 2 ^ 54 = 0 -> vm_MemoryMB v = 0).
Proof.
  intros Hwf Hs Hg Hr. destruct (kvm_create_eq spec created now p Hwf Hs) as [Hok Heq]; [eauto|].
  rewrite Heq, kvm_finishTask_eq in Hr. injection Hr as <- <-. cbn [task_EntityID].
  unfold Kvm.GetVM. cbn [k_caps Kvm.set_tracker Kvm.set_seq Kvm.set_backend]. rewrite Hg.
  cbn [negb be_getDomain sim_backend k_backend Kvm.set_tracker Kvm.set_seq Kvm.set_backend].
  unfold sb_defineDomain. cbn [sb_domains set_domains]. change (d_UUID (domain_of_spec _ _ _)) with (next_vm p).
  rewrite lookup_insert_eq. do 2 eexists. split; [reflexivity|].
  cbn [normalizeDomain vm_VCPUs vm_MemoryMB domain_of_spec d_VCPUs d_MemoryKB].
  cbn [dl_create_ok kvm_dialect] in Hok. apply negb_true_iff, orb_false_iff in Hok as [Hm Hc].
  apply orb_false_iff in Hm as [_ Hm]. apply Z.leb_gt in Hm. apply andb_false_iff in Hc.
  rewrite !Z.leb_gt in Hc. destruct (mem_shown (vs_MemoryMB spec)) as [Hb Hz].
  split_and!; try done.
  - destruct (Z.ltb_spec 0 (cpuTopologyVCPUs (vs_CPU spec))); lia.
  - intros Hle. destruct (Z.ltb_spec 0 (cpuTopologyVCPUs (vs_CPU spec))); lia.
  - intros c Hcpu H1 H2 H3 H4. rewrite Hcpu, topology_fits by done.
    destruct (Z.ltb_spec 0 (cpu_Sockets c * cpu_CoresPerSocket c * cpu_ThreadsPerCore c)); [done|nia].
  - intros Hlt. apply mem_round. unfold mem_fits. lia.
  - apply Hb.
  - apply Hb.
Qed.

Lemma kvm_hardware_witness :
  let spec := mkVMSpec "big" "node-1" "" 1 (2 ^ 54) "" FirmwareUEFI [] [] ∅ "" false false None
                (Some (mkCPUSpec 2 4 2 "")) false None in
  exists v raw, Kvm.GetVM "dom-1" (Kvm.CreateVM spec 1 2 (New_sim "k" None)).2 = Ok (v, raw) /\
    vm_VCPUs v = 16 /\ vm_MemoryMB v = 0.
Proof.
  intros spec. destruct (Kvm.CreateVM spec 1 2 (New_sim "k" None)) as [r p'] eqn:Hr.
  assert (exists t, r = Ok (Some t) /\ task_EntityID t = "dom-1") as (t & -> & Ht).
  { assert (r = (Kvm.CreateVM spec 1 2 (New_sim "k" None)).1) as -> by (by rewrite Hr).
    eexists. split; [by vm_compute|done]. }
  destruct (kvm_hardware spec 1 2 (New_sim "k" None) t p') as (v & raw & Hg & _ & _ & Hc & _ & _ & Hz).
  - apply New_kwf.
  - done.
  - by vm_compute.
  - exact Hr.
  - rewrite Ht in Hg. exists v, raw. simpl. split; [exact Hg|]. split; [by apply (Hc _ eq_refl)|by apply Hz].
Defined.

(** ** The names of disks *)

(** The targets of a domain whose disks were named in order. *)
Definition letters (n : nat) : list string := (fun i => disk_target (Z.of_nat i)) <$> seq 0 n.
Definition lettered (d : libvirtDomain) : Prop := ld_Target <$> d_Disks d = letters (length (d_Disks d)).
Definition disk_ids (d : libvirtDomain) : list string :=
  disk_ID <$> (normalizeDisk (d_UUID d) <$> d_Disks d).

Lemma letters_NoDup n : (n <= 26)%nat -> NoDup (letters n).
Proof.
  intros Hn. assert (NoDup (letters 26)) as H by (apply (bool_decide_unpack _); by vm_compute).
  assert (letters 26 = letters n ++ ((fun i => disk_target (Z.of_nat i)) <$> seq n (26 - n))) as Heq.
  { unfold letters. rewrite <- fmap_app, <- seq_app. do 2 f_equal. lia. }
  rewrite Heq in H. by apply NoDup_app in H as [H _].
Qed.

Lemma letters_snoc n : letters (S n) = letters n ++ [disk_target (Z.of_nat n)].
Proof. unfold letters. by rewrite seq_S, fmap_app. Qed.

Lemma disk_ids_eq d : disk_ids d = (fun t => d_UUID d +:+ "-" +:+ t) <$> (ld_Target <$> d_Disks d).
Proof. unfold disk_ids. by rewrite <- !list_fmap_compose. Qed.

Lemma lettered_ids d : lettered d -> (length (d_Disks d) <= 26)%nat -> NoDup (disk_ids d).
Proof.
  intros Hl Hn. rewrite disk_ids_eq, Hl. apply NoDup_fmap_2; [|by apply letters_NoDup].
  intros a b H%string_app_inj_l. by apply (string_app_inj_l "-") in H.
Qed.

Lemma add_disks_targets i specs disks :
  ld_Target <$> add_disks i specs disks =
    (ld_Target <$> disks) ++
    ((fun k => disk_target (Z.of_nat (length disks) + i + 2 * Z.of_nat k)) <$> seq 0 (length specs)).
Proof.
  revert i disks. induction specs as [|dk specs IH]; intros i disks; simpl; [by rewrite app_nil_r|].
  rewrite IH, fmap_app, length_app, <- app_assoc. simpl. do 2 f_equal; [f_equal; lia|].
  rewrite <- seq_shift, <- list_fmap_compose. apply list_fmap_ext. intros k x _. simpl. f_equal. lia.
Qed.

Lemma length_add_disks i specs disks :
  length (add_disks i specs disks) = (length disks + length specs)%nat.
Proof.
  revert i disks. induction specs as [|dk specs IH]; intros i disks; simpl; [lia|].
  rewrite IH, length_app. simpl. lia.
Qed.

Lemma reconfigure_eq vm spec now p d :
  Has (k_caps p) CapReconfigureVM = true -> sb_domains (k_backend p) !! vm = Some d ->
  dl_reconfigure_ok kvm_dialect spec = true ->
  exists d', d_UUID d' = d_UUID d /\ d_Disks d' = add_disks 0 (rs_AddDisks spec) (d_Disks d) /\
    Kvm.ReconfigureVM vm spec now p = finishTask "reconfigureVM" vm now (with_dom vm d' p).
Proof.
  intros Hc Hd Hok. unfold Kvm.ReconfigureVM, gated, with_domain. rewrite Hc. cbn [negb be_getDomain sim_backend].
  rewrite Hd. simpl in Hok. apply negb_true_iff in Hok. rewrite Hok.
  destruct (bool_decide (is_Some (rs_VCPUs spec)) || bool_decide (is_Some (rs_MemoryMB spec))).
  - exists (reconfigured spec (set_hardware spec (set_hardware spec d))).
    split; [|split]; [unfold reconfigured, set_hardware; by destruct (rs_Resources spec), (rs_VCPUs spec), (rs_MemoryMB spec)..|].
    unfold backend_call. cbn [be_reconfigureDomain sim_backend]. unfold sb_reconfigureDomain. rewrite Hd.
    change (set_domains _ _) with (set_domains (<[vm := set_hardware spec d]> (sb_domains (k_backend p))) (k_backend p)).
    fold (with_dom vm (set_hardware spec d) p). by rewrite assign_dom, reconfigure_devices_eq.
  - exists (reconfigured spec d).
    split; [|split]; [unfold reconfigured; by destruct (rs_Resources spec)..|].
    rewrite <- (with_dom_same vm d p Hd) at 1. by rewrite reconfigure_devices_eq.
Qed.

Lemma reconfigure_lookup vm spec now p d :
  Has (k_caps p) CapReconfigureVM = true -> sb_domains (k_backend p) !! vm = Some d ->
  dl_reconfigure_ok kvm_dialect spec = true ->
  exists d', sb_domains (k_backend (Kvm.ReconfigureVM vm spec now p).2) !! vm = Some d' /\
    k_caps (Kvm.ReconfigureVM vm spec now p).2 = k_caps p /\
    d_Disks d' = add_disks 0 (rs_AddDisks spec) (d_Disks d).
Proof.
  intros Hc Hd Hok. destruct (reconfigure_eq vm spec now p d Hc Hd Hok) as (d' & _ & Hdk & ->).
  exists d'. rewrite finish_backend, finish_caps. split; [|done]. simpl. apply lookup_insert_eq.
Qed.

(** The names of disks.  The disks of a new VM are named in order, and adding
    at most one disk at a time keeps them so, which gives up to 26 disks distinct
    ids.  But the loop that adds several disks advances its letter twice per
    disk: adding two disks at once skips a letter, and adding a third one later
    gives it the name of the second, so that two disks of the VM have one id. *)
Theorem kvm_disk_ids vm p d :
  Has (k_caps p) CapReconfigureVM = true -> sb_domains (k_backend p) !! vm = Some d -> lettered d ->
  (forall uuid spec created, lettered (domain_of_spec uuid spec created)) /\
  (forall spec now, dl_reconfigure_ok kvm_dialect spec = true -> (length (rs_AddDisks spec) <= 1)%nat ->
     (length (d_Disks d) < 26)%nat ->
     exists d', sb_domains (k_backend (Kvm.ReconfigureVM vm spec now p).2) !! vm = Some d' /\
       lettered d' /\ NoDup (disk_ids d')) /\
  (forall spec1 spec2 now1 now2,
     dl_reconfigure_ok kvm_dialect spec1 = true -> dl_reconfigure_ok kvm_dialect spec2 = true ->
     length (rs_AddDisks spec1) = 2%nat -> length (rs_AddDisks spec2) = 1%nat ->
     exists d', sb_domains (k_backend (Kvm.ReconfigureVM vm spec2 now2
                             (Kvm.ReconfigureVM vm spec1 now1 p).2).2) !! vm = Some d' /\
       length (d_Disks d') = (length (d_Disks d) + 3)%nat /\ ~ NoDup (disk_ids d')).
Proof.
  intros Hc Hd Hl. split_and!.
  - intros uuid spec created. unfold lettered, domain_of_spec. simpl. rewrite length_imap.
    apply list_eq. intros i. unfold letters. rewrite !list_lookup_fmap, list_lookup_imap.
    destruct (vs_Disks spec !! i) as [dk|] eqn:Hi; simpl.
    + rewrite lookup_seq_lt by (by eapply lookup_lt_Some). done.
    + rewrite lookup_seq_ge; [done|]. by apply lookup_ge_None.
  - intros spec now Hok Hn Hlen. destruct (reconfigure_lookup vm spec now p d Hc Hd Hok) as (d' & Hd' & _ & Hdk).
    exists d'. split; [done|]. assert (lettered d') as Hl'.
    { unfold lettered. rewrite Hdk, length_add_disks, add_disks_targets, Hl.
      destruct (rs_AddDisks spec) as [|a [|? ?]]; simpl in *; [| |lia].
      - by rewrite app_nil_r, Nat.add_0_r.
      - rewrite Nat.add_1_r, letters_snoc. do 3 f_equal. lia. }
    split; [done|]. apply lettered_ids; [done|].
    rewrite Hdk, length_add_disks. lia.
  - intros spec1 spec2 now1 now2 Hok1 Hok2 Hn1 Hn2.
    destruct (reconfigure_lookup vm spec1 now1 p d Hc Hd Hok1) as (d1 & Hd1 & Hc1 & Hdk1).
    destruct (reconfigure_lookup vm spec2 now2 _ d1 ltac:(by rewrite Hc1) Hd1 Hok2) as (d2 & Hd2 & _ & Hdk2).
    exists d2. split; [done|].
    assert (ld_Target <$> d_Disks d2 = letters (length (d_Disks d)) ++
              [disk_target (Z.of_nat (length (d_Disks d))); disk_target (Z.of_nat (length (d_Disks d)) + 2);
               disk_target (Z.of_nat (length (d_Disks d)) + 2)]) as Ht.
    { assert (length (d_Disks d1) = (length (d_Disks d) + 2)%nat) as Hlen1
        by (by rewrite Hdk1, length_add_disks, Hn1).
      rewrite Hdk2, add_disks_targets, Hn2, Hlen1, Hdk1, add_disks_targets, Hn1, Hl, <- app_assoc.
      simpl. do 2 f_equal; [f_equal; lia|]. do 2 f_equal; f_equal; lia. }
    split.
    + rewrite Hdk2, length_add_disks, Hdk1, length_add_disks, Hn1, Hn2. lia.
    + rewrite disk_ids_eq, Ht, fmap_app. intros (_ & _ & Hnd)%NoDup_app. simpl in Hnd.
      apply NoDup_cons in Hnd as [_ Hnd]. apply NoDup_cons in Hnd as [Hni _]. apply Hni. by left.
Qed.

Definition add_n (n : nat) : VMReconfigureSpec := mkReconf None None (replicate n demo_disk) [] ∅ None.

Lemma kvm_disk_ids_witness :
  exists d, sb_domains (k_backend (Kvm.ReconfigureVM "dom-seed-3" (add_n 1) 2
                          (Kvm.ReconfigureVM "dom-seed-3" (add_n 2) 1 (New_sim "k" None)).2).2) !! "dom-seed-3" = Some d /\
    disk_ids d = ["dom-seed-3-vda"; "dom-seed-3-vdb"; "dom-seed-3-vdd"; "dom-seed-3-vdd"] /\ ~ NoDup (disk_ids d).
Proof.
  destruct (kvm_disk_ids "dom-seed-3" (New_sim "k" None) (seed_domain 2 domShutoff "node-2")) as (_ & _ & H);
    [by vm_compute|by vm_compute|by vm_compute|].
  destruct (H (add_n 2) (add_n 1) 1 2 eq_refl eq_refl eq_refl eq_refl) as (d & Hd & _ & Hnd).
  exists d. split; [exact Hd|]. split; [|exact Hnd].
  assert (disk_ids <$> (sb_domains (k_backend (Kvm.ReconfigureVM "dom-seed-3" (add_n 1) 2
            (Kvm.ReconfigureVM "dom-seed-3" (add_n 2) 1 (New_sim "k" None)).2).2) !! "dom-seed-3") =
          Some ["dom-seed-3-vda"; "dom-seed-3-vdb"; "dom-seed-3-vdd"; "dom-seed-3-vdd"]) as He by (by vm_compute).
  rewrite Hd in He. by injection He.
Defined.

(** A backend that hands out copies, as a live transport does, sees none of the
    assignments a reconfiguration makes: asked for anything but vCPUs, memory and
    resources, the method reports success and the backend is as it was. *)
Lemma reconfigure_lost {B} `{libvirtBackend B} vm spec now (p : kvm B) d :
  (forall u f b, be_assign u f b = b) ->
  Has (k_caps p) CapReconfigureVM = true -> be_getDomain vm (k_backend p) = Some d ->
  rs_VCPUs spec = None -> rs_MemoryMB spec = None -> rs_Resources spec = None ->
  exists t p', Kvm.ReconfigureVM vm spec now p = (Ok (Some t), p') /\
    task_State t = TaskSucceeded /\ k_backend p' = k_backend p.
Proof.
  intros Hcopy Hc Hd Hv Hm Hr. unfold Kvm.ReconfigureVM, gated, with_domain. rewrite Hc, Hd, Hv, Hm.
  cbn [negb not_positive orb]. rewrite !bool_decide_false by (by intros []). cbn [orb].
  unfold reconfigure_devices, reconfigure_resources, reconfigure_labels, assign. rewrite Hr, !Hcopy.
  unfold finishTask, Kvm.nextID, tt_Start, tt_Finish. simpl. rewrite lookup_insert_eq.
  do 2 eexists. split; [reflexivity|]. done.
Qed.

(** ** Host maintenance *)

(** What an evacuation does to one domain. *)
Definition leaves (hostID : string) (d : libvirtDomain) : bool :=
  bool_decide (d_HostID d = hostID) && bool_decide (normalizeState (d_State d) = StateRunning).
Definition moved (hostID target : string) (d : libvirtDomain) : libvirtDomain :=
  if leaves hostID d then dom_set_HostID target d else d.

(** Everything but the domains, the counter and the tracked tasks. *)
Definition same_but_domains (p q : kvm_sim) : Prop :=
  k_caps p = k_caps q /\ k_maint p = k_maint q /\ sb_nodes (k_backend p) = sb_nodes (k_backend q) /\
  sb_snapshots (k_backend p) = sb_snapshots (k_backend q) /\ sb_order (k_backend p) = sb_order (k_backend q).

Lemma kvm_migrate_eq vm host opts now p d nd :
  Has (k_caps p) CapMigrate = true -> sb_domains (k_backend p) !! vm = Some d ->
  sb_nodes (k_backend p) !! host = Some nd ->
  Kvm.MigrateVM vm host opts now p = finishTask "migrate" vm now (with_dom vm (dom_set_HostID host d) p).
Proof.
  intros Hc Hd Hn. unfold Kvm.MigrateVM, gated, with_domain. rewrite Hc. cbn [negb be_getDomain be_getNode sim_backend].
  rewrite Hd, Hn. rewrite <- (with_dom_same vm d p Hd) at 1. by rewrite assign_dom.
Qed.

Lemma evacuate_spec hostID target now nd doms : forall i mg fl p,
  Has (k_caps p) CapMigrate = true -> sb_nodes (k_backend p) !! target = Some nd ->
  NoDup (d_UUID <$> doms) -> (forall d, d ∈ doms -> sb_domains (k_backend p) !! d_UUID d = Some d) ->
  let r := evacuate hostID target now i doms mg fl p in
  r.1 = (mg + Z.of_nat (length (filter (fun d => leaves hostID d = true) doms)), fl) /\
  same_but_domains r.2 p /\
  forall k, sb_domains (k_backend r.2) !! k =
    if bool_decide (k ∈ d_UUID <$> doms) then moved hostID target <$> sb_domains (k_backend p) !! k
    else sb_domains (k_backend p) !! k.
Proof.
  induction doms as [|d doms IH]; intros i mg fl p Hc Hn Hnd Hin; [split; [simpl; f_equal; lia|done]|].
  cbn [evacuate]. cbv zeta.
  rewrite fmap_cons, NoDup_cons in Hnd. destruct Hnd as [Hni Hnd].
  pose proof (Hin d ltac:(by left)) as Hd.
  assert (bool_decide (d_HostID d <> hostID) || bool_decide (normalizeState (d_State d) <> StateRunning) =
          negb (leaves hostID d)) as ->.
  { unfold leaves. rewrite negb_andb. by rewrite !bool_decide_not. }
  rewrite filter_cons. destruct (leaves hostID d) eqn:Hl; cbn [negb].
  - rewrite (kvm_migrate_eq _ _ _ _ _ d nd Hc Hd Hn), kvm_finishTask_eq.
    set (q := Kvm.set_tracker _ _).
    assert (sb_domains (k_backend q) = <[d_UUID d := dom_set_HostID target d]> (sb_domains (k_backend p))) as Hq by done.
    destruct (IH (S i) (mg + 1) fl q Hc Hn Hnd) as (H1 & H2 & H3).
    { intros e He. rewrite Hq, lookup_insert_ne; [apply Hin; by right|].
      intros Heq. apply Hni. rewrite Heq. by apply list_elem_of_fmap_2. }
    split; [rewrite H1, decide_True by done; simpl; f_equal; lia|]. split; [exact H2|].
    intros k. rewrite H3, Hq. destruct (decide (k = d_UUID d)) as [->|Hne].
    + rewrite bool_decide_false by done. rewrite lookup_insert_eq, bool_decide_true by (by left).
      rewrite Hd. simpl. unfold moved. by rewrite Hl.
    + rewrite lookup_insert_ne by done.
      rewrite (bool_decide_ext (k ∈ d_UUID <$> d :: doms) (k ∈ d_UUID <$> doms)); [done|].
      rewrite fmap_cons, elem_of_cons. naive_solver.
  - rewrite decide_False by done. destruct (IH (S i) mg fl p Hc Hn Hnd) as (H1 & H2 & H3).
    { intros e He. apply Hin. by right. }
    split; [done|]. split; [exact H2|]. intros k. rewrite H3. destruct (decide (k = d_UUID d)) as [->|Hne].
    + rewrite bool_decide_false by done. rewrite bool_decide_true by (by left).
      rewrite Hd. simpl. unfold moved. by rewrite Hl.
    + rewrite (bool_decide_ext (k ∈ d_UUID <$> d :: doms) (k ∈ d_UUID <$> doms)); [done|].
      rewrite fmap_cons, elem_of_cons. naive_solver.
Qed.

(** The listing of a well-formed backend: each domain once. *)
Lemma listing_spec n b : kwf n b ->
  NoDup (d_UUID <$> sb_listDomains b) /\
  (forall d, d ∈ sb_listDomains b <-> sb_domains b !! d_UUID d = Some d).
Proof.
  intros Hwf. pose proof (kwf_nodup _ _ Hwf) as Hnd. pose proof (kwf_order _ _ Hwf) as Hord.
  unfold sb_listDomains. assert (d_UUID <$> omap (fun u => sb_domains b !! u) (sb_order b) = sb_order b) as Heq.
  { assert (forall k, k ∈ sb_order b -> is_Some (sb_domains b !! k)) as Hall by (intros k; apply Hord).
    clear Hnd Hord. induction (sb_order b) as [|k l IH]; [done|]. simpl.
    destruct (Hall k) as [d Hd]; [by left|]. rewrite Hd. simpl. rewrite (kwf_key _ _ Hwf k d Hd). f_equal.
    apply IH. intros k' Hk'. apply Hall. by right. }
  split; [by rewrite Heq|]. intros d. rewrite list_elem_of_omap. split.
  - intros (k & _ & Hk). by rewrite (kwf_key _ _ Hwf k d Hk).
  - intros Hd. exists (d_UUID d). split; [|done]. apply Hord. by eexists.
Qed.

(** The nodes are stored under their own, non-empty, ids. *)
Definition nodes_keyed (b : simBackend) : Prop :=
  forall k n, sb_nodes b !! k = Some n -> lnd_ID n = k /\ k <> "".

Lemma evacuation_target_spec hostID b : nodes_keyed b ->
  let t := evacuation_target hostID b in
  if bool_decide (t = "") then forall k, is_Some (sb_nodes b !! k) -> k = hostID
  else t <> hostID /\ is_Some (sb_nodes b !! t).
Proof.
  intros Hk. unfold evacuation_target. cbn [be_listNodes sim_backend]. unfold sb_listNodes.
  assert (forall n, n ∈ (map_to_list (sb_nodes b)).*2 <-> exists k, sb_nodes b !! k = Some n) as Hall.
  { intros n. rewrite list_elem_of_fmap. split.
    - intros ([k n'] & -> & Hin). exists k. by apply elem_of_map_to_list.
    - intros [k Hn]. exists (k, n). split; [done|]. by apply elem_of_map_to_list. }
  destruct (filter _ _) as [|n l] eqn:Ef; cbv zeta.
  - rewrite bool_decide_true by done. intros k [n Hn]. destruct (decide (k = hostID)) as [|Hne]; [done|].
    exfalso. assert (n ∈ []) as Hin; [|by apply elem_of_nil in Hin].
    rewrite <- Ef. apply list_elem_of_filter. destruct (Hk k n Hn) as [-> _]. split; [done|]. apply Hall. by exists k.
  - assert (n ∈ n :: l) as Hin by (by left). rewrite <- Ef in Hin.
    apply list_elem_of_filter in Hin as [Hne Hin]. apply Hall in Hin as [k Hn]. destruct (Hk k n Hn) as [Hid Hk0].
    rewrite bool_decide_false by congruence. split; [done|]. rewrite Hid. by eexists.
Qed.

Lemma mark_maintenance_eq hostID note now (p : kvm_sim) :
  exists t, (mark_maintenance hostID note now p).1 = Ok (Some t) /\
    task_State t = TaskSucceeded /\ task_EntityID t = hostID /\ task_Message t = note /\
    k_backend (mark_maintenance hostID note now p).2 = k_backend p /\
    k_caps (mark_maintenance hostID note now p).2 = k_caps p /\
    k_maint (mark_maintenance hostID note now p).2 = <[hostID := true]> (k_maint p).
Proof. unfold mark_maintenance. rewrite kvm_finishTask_eq. simpl. by eexists. Qed.

(** The table after an evacuation. *)
Definition c_moved (hostID target : string) (v : cvm) : cvm :=
  if bool_decide (c_host v = hostID) && bool_decide (c_state v = StateRunning)
  then c_set_host target v else v.

Lemma view_moved hostID target p q :
  kwf (k_seq p) (k_backend p) -> same_but_domains q p ->
  (forall k, sb_domains (k_backend q) !! k =
     if bool_decide (k ∈ d_UUID <$> sb_listDomains (k_backend p))
     then moved hostID target <$> sb_domains (k_backend p) !! k else sb_domains (k_backend p) !! k) ->
  kvm_view q = c_moved hostID target <$> kvm_view p.
Proof.
  intros Hwf (_ & _ & _ & Hsn & _) Hdom. destruct (listing_spec _ _ Hwf) as [_ Hlist].
  apply map_eq. intros k. rewrite lookup_fmap, !kvm_view_lookup, Hdom. unfold sb_listSnapshots. rewrite Hsn.
  destruct (sb_domains (k_backend p) !! k) as [d|] eqn:Hd; [|by case_bool_decide].
  rewrite bool_decide_true.
  - simpl. f_equal. unfold moved, leaves, c_moved. simpl. by destruct (_ && _).
  - apply list_elem_of_fmap. exists d. pose proof (kwf_key _ _ Hwf k d Hd) as Hid.
    split; [done|]. apply Hlist. by rewrite Hid.
Qed.

(** The host is marked, the other hosts keep the mark they had or had not; leaving
    takes the mark of the host off, and nothing else. *)
Definition in_maintenance (hostID : string) (p p' : kvm_sim) : Prop :=
  isMaint hostID p' = true /\ (forall h, h <> hostID -> isMaint h p' = isMaint h p) /\
  (forall now s, GetNodeState hostID now p' = Ok s -> ns_State s = NodeMaintenance) /\
  (forall now, exists t q, ExitMaintenance hostID now p' = (Ok (Some t), q) /\ k_backend q = k_backend p' /\
     isMaint hostID q = false /\ forall h, h <> hostID -> isMaint h q = isMaint h p).

Lemma marked hostID note now p q :
  nodes_keyed (k_backend p) -> Has (k_caps p) CapMaintenance = true ->
  is_Some (sb_nodes (k_backend p) !! hostID) ->
  k_caps q = k_caps p -> k_maint q = k_maint p -> sb_nodes (k_backend q) = sb_nodes (k_backend p) ->
  in_maintenance hostID p (mark_maintenance hostID note now q).2.
Proof.
  intros Hkeys Hcap [nd Hnd] Hq Hm Hnq.
  destruct (mark_maintenance_eq hostID note now q) as (_ & _ & _ & _ & _ & Hb & Hc & Hmm).
  generalize dependent ((mark_maintenance hostID note now q).2). intros p' Hb Hc Hmm.
  assert (isMaint hostID p' = true) as Hyes by (unfold isMaint; by rewrite Hmm, lookup_insert_eq).
  split_and!.
  - done.
  - intros h Hne. unfold isMaint. by rewrite Hmm, Hm, lookup_insert_ne.
  - intros t s. unfold GetNodeState. rewrite Hc, Hq. destruct (Has (k_caps p) CapNodeState); [|done]. simpl.
    rewrite Hb, Hnq, Hnd. intros [= <-]. simpl. by rewrite (proj1 (Hkeys _ _ Hnd)), Hyes.
  - intros t. unfold ExitMaintenance, gated, with_node. rewrite Hc, Hq, Hcap. simpl. rewrite Hb, Hnq, Hnd.
    rewrite kvm_finishTask_eq. unfold isMaint. simpl. do 2 eexists. split; [reflexivity|]. simpl. rewrite lookup_delete_eq.
    split_and!; [done|done|]. intros h Hne. by rewrite lookup_delete_ne, Hmm, lookup_insert_ne, Hm.
Qed.

(** No VM is left running on the host. *)
Lemma moved_away hostID target (c : gmap string cvm) k v : target <> hostID ->
  (c_moved hostID target <$> c) !! k = Some v -> c_host v = hostID -> c_state v <> StateRunning.
Proof.
  intros Hne Hk Hh Hrun. rewrite lookup_fmap in Hk. apply fmap_Some in Hk as (w & _ & ->).
  unfold c_moved in Hh, Hrun.
  destruct (bool_decide_reflect (c_host w = hostID)), (bool_decide_reflect (c_state w = StateRunning)); done.
Qed.

(** C32 Host maintenance with evacuation, on the in-memory KVM driver, always succeeds
    on a known host when the provider has the capabilities of maintenance and of
    migration: every running VM of the host, and nothing else, is moved to one other
    known host (or nothing is, when there is no other, and the task says so), so that
    none is left running there.  The host is then in maintenance, which is what its
    node state reports, and every other host is as it was, in maintenance or not.
    Leaving maintenance succeeds, and takes the mark off that host alone. *)
Theorem kvm_maintenance hostID now p :
  kwf (k_seq p) (k_backend p) -> nodes_keyed (k_backend p) ->
  Has (k_caps p) CapMaintenance = true -> Has (k_caps p) CapMigrate = true ->
  is_Some (sb_nodes (k_backend p) !! hostID) ->
  exists t p' target, Kvm.EnterMaintenance hostID true now p = (Ok (Some t), p') /\
    task_State t = TaskSucceeded /\ in_maintenance hostID p p' /\
    if bool_decide (target = "")
    then (forall h, is_Some (sb_nodes (k_backend p) !! h) -> h = hostID) /\
         kvm_view p' = kvm_view p /\ task_Message t = note_single_host
    else target <> hostID /\ is_Some (sb_nodes (k_backend p) !! target) /\
         kvm_view p' = c_moved hostID target <$> kvm_view p /\
         (forall k v, kvm_view p' !! k = Some v -> c_host v = hostID -> c_state v <> StateRunning) /\
         task_Message t = note_evacuated (Z.of_nat (length (filter (fun d => leaves hostID d = true)
                            (sb_listDomains (k_backend p))))) 0 target.
Proof.
  intros Hwf Hkeys Hc1 Hc2 Hn. pose proof (evacuation_target_spec hostID _ Hkeys) as Ht.
  pose proof Hn as [nd Hnd]. unfold Kvm.EnterMaintenance, gated, with_node. rewrite Hc1.
  cbn [negb be_getNode be_listDomains sim_backend]. rewrite Hnd. cbn [negb]. cbv zeta in Ht |- *.
  destruct (bool_decide (evacuation_target hostID (k_backend p) = "")) eqn:Hb.
  - destruct (mark_maintenance_eq hostID note_single_host (now 0%nat) p) as (t & Hr & Hs & _ & Hm & Hbk & _ & _).
    pose proof (marked hostID note_single_host (now 0%nat) p p Hkeys Hc1 Hn eq_refl eq_refl eq_refl) as Hin.
    destruct (mark_maintenance _ _ _ p) as [r p'] eqn:Em. simpl in Hr, Hbk, Hin. subst r.
    exists t, p', (evacuation_target hostID (k_backend p)). rewrite Hb. split_and!; try done.
    by apply kvm_view_backend.
  - destruct Ht as [Hne [ndt Hndt]]. destruct (listing_spec _ _ Hwf) as [Hnodup Hlist].
    destruct (evacuate_spec hostID _ now ndt (sb_listDomains (k_backend p)) 0 0 0 p Hc2 Hndt Hnodup)
      as (E1 & E2 & E3); [intros d Hd; by apply Hlist|].
    destruct (evacuate _ _ _ _ _ _ _ _) as [[mg fl] q] eqn:Eq. cbn [fst snd] in E1, E2, E3. injection E1 as -> ->.
    pose proof (view_moved hostID _ p q Hwf E2 E3) as Hview. destruct E2 as (Ec & Em & En & _ & _).
    rewrite Z.add_0_l. set (note := note_evacuated _ 0 _). set (tm := now _).
    destruct (mark_maintenance_eq hostID note tm q) as (t & Hr & Hs & _ & Hm & Hbk & _ & _).
    pose proof (marked hostID note tm p q Hkeys Hc1 Hn Ec Em En) as Hin.
    destruct (mark_maintenance _ _ _ q) as [r p'] eqn:Emk. simpl in Hr, Hbk, Hin. subst r.
    exists t, p', (evacuation_target hostID (k_backend p)). rewrite Hb.
    assert (kvm_view p' = kvm_view q) as Hv by (by apply kvm_view_backend). rewrite Hv, Hview.
    split_and!; try done. intros k v. by apply moved_away.
Qed.

Lemma new_nodes_keyed id caps : nodes_keyed (k_backend (New_sim id caps)).
Proof.
  intros k n H. simpl in H.
  apply lookup_insert_Some in H as [[<- <-]|[_ H]]; [done|].
  apply lookup_singleton_Some in H as [<- <-]. done.
Qed.

Lemma kvm_maintenance_witness :
  exists t p', Kvm.EnterMaintenance "node-1" true (fun _ => 0) (New_sim "k" None) = (Ok (Some t), p') /\
    in_maintenance "node-1" (New_sim "k" None) p' /\
    task_Message t = "host marked maintenance; evacuated 2 running VM(s) to node-2".
Proof.
  destruct (kvm_maintenance "node-1" (fun _ => 0) (New_sim "k" None)) as (t & p' & target & Hr & _ & Hin & _).
  - apply New_kwf.
  - apply new_nodes_keyed.
  - by vm_compute.
  - by vm_compute.
  - by eexists.
  - exists t, p'. split; [exact Hr|]. split; [exact Hin|].
    assert (match (Kvm.EnterMaintenance "node-1" true (fun _ => 0) (New_sim "k" None)).1 with
            | Ok (Some t) => task_Message t | _ => "" end =
            "host marked maintenance; evacuated 2 running VM(s) to node-2") as Hm by (by vm_compute).
    by rewrite Hr in Hm.
Defined.

(** ** Migration from the simulator to KVM *)

Abbreviation mixed := (sim + kvm simBackend)%type (only parsing).

Lemma mixed_preflight_ok req src dst :
  rq_SourceProviderID req <> rq_TargetProviderID req ->
  sim_caps src = Sim.FullCaps -> k_caps dst = Kvm.FullCaps -> is_Some (sim_vms src !! rq_SourceVMID req) ->
  preflight_issues (P := mixed) req (inl src) (inr dst) = [].
Proof.
  intros Hne Hcs Hct [v Hv]. unfold preflight_issues, issue. simpl. unfold Sim.GetVM. rewrite Hcs, Hct, Hv.
  replace (Has Sim.FullCaps CapExport) with true by (by vm_compute).
  replace (Has Kvm.FullCaps CapCreateVM) with true by (by vm_compute).
  replace (Has Sim.FullCaps CapGetVM) with true by (by vm_compute).
  by rewrite bool_decide_false.
Qed.

Lemma mixed_export req src (dst : kvm simBackend) v :
  Has (sim_caps src) CapExport = true -> sim_vms src !! rq_SourceVMID req = Some v ->
  exists data info, export_convert (P := mixed) Passthrough_Convert req (inl src) (inr dst) = Ok (data, Some info) /\
    ei_Firmware info = vm_Firmware v /\ ei_GuestOS info = vm_GuestOS v /\
    ei_DiskCount info = Z.of_nat (length (vm_Disks v)).
Proof.
  intros Hc Hv. unfold export_convert. simpl. unfold Sim.ExportVM. rewrite Hc, nativeFormat_valid, Hv.
  simpl. do 2 eexists. split; [reflexivity|]. done.
Qed.

Lemma kvm_start_eq vm now p d :
  Has (k_caps p) CapPowerStart = true -> sb_domains (k_backend p) !! vm = Some d ->
  Kvm.PowerOp vm PowerStart now p = finishTask "powerOp" vm now (with_dom vm (dom_set_State domRunning d) p).
Proof.
  intros Hc Hd. unfold Kvm.PowerOp, gated, with_domain, backend_call, power_call.
  replace (PowerOp_Valid PowerStart) with true by (by vm_compute).
  change (PowerOpCapability PowerStart) with CapPowerStart. rewrite Hc.
  cbn [negb be_getDomain be_setDomainState sim_backend]. rewrite Hd. simpl.
  unfold sb_setDomainState. by rewrite (alter_some _ _ _ _ Hd).
Qed.

(** The specification a migration to KVM asks for. *)
Definition mapped (req : Request) (info : ExportInfo) (spec : VMSpec) : Prop :=
  vs_Name spec = rq_TargetName req /\ vs_HostID spec = rq_TargetHostID req /\
  vs_Firmware spec = ei_Firmware info /\ vs_GuestOS spec = ei_GuestOS info /\
  vs_SecureBoot spec = false /\ vs_VCPUs spec = 2 /\ vs_MemoryMB spec = 4096 /\ vs_CPU spec = None /\
  Z.of_nat (length (vs_Disks spec)) = Z.max 1 (ei_DiskCount info) /\
  Forall (fun dk => dsk_Format dk = "qcow2") (vs_Disks spec).

Lemma mapped_spec req info n :
  rq_TargetName req <> "" -> ei_Firmware info <> "" ->
  mapped req info (mapToTargetSpec req (Some info) "qcow2" n).
Proof.
  intros Hn Hfw. unfold mapped, mapToTargetSpec, basic_VMSpec. simpl. rewrite !bool_decide_false by done.
  rewrite length_replicate. split_and!; try done; [destruct (Z.ltb_spec 0 (ei_DiskCount info)); lia|].
  by apply Forall_replicate.
Qed.

Definition imported (req : Request) (info : ExportInfo) (d : libvirtDomain) : Prop :=
  d_Name d = rq_TargetName req /\ d_HostID d = rq_TargetHostID req /\ d_Firmware d = ei_Firmware info /\
  d_OSType d = ei_GuestOS info /\ d_VCPUs d = 2 /\ d_MemoryKB d = 4096 * 1024 /\
  Z.of_nat (length (d_Disks d)) = Z.max 1 (ei_DiskCount info) /\
  Forall (fun dk => ld_Driver dk = "qcow2") (d_Disks d).

Lemma mapped_imported req info spec uuid created :
  mapped req info spec -> imported req info (domain_of_spec uuid spec created).
Proof.
  intros (S1 & S2 & S3 & S4 & S5 & S6 & S7 & S8 & S9 & S10). unfold imported, domain_of_spec. simpl.
  rewrite S5, S6, S7, S8, length_imap. split_and!; try done.
  apply Forall_lookup. intros i dk Hi. rewrite list_lookup_imap in Hi.
  apply fmap_Some in Hi as (x & Hx & ->). rewrite Forall_lookup in S10. simpl. by rewrite (S10 i x Hx).
Qed.

Lemma kvm_create_mapped req info spec tc dst :
  k_caps dst = Kvm.FullCaps -> 0 <= k_seq dst -> k_seq dst + 2 < 2 ^ 63 ->
  trim_space (rq_TargetName req) <> "" -> mapped req info spec ->
  Kvm.CreateVM spec tc tc dst =
    finishTask "createVM" (next_vm dst) tc
      (Kvm.set_backend (sb_defineDomain (domain_of_spec (next_vm dst) spec tc) (k_backend dst))
         (Kvm.set_seq (k_seq dst + 1) dst)).
Proof.
  intros Hc H0 Hs Hname (S1 & _ & _ & _ & _ & S6 & S7 & S8 & _).
  unfold Kvm.CreateVM, gated. rewrite Hc. replace (Has Kvm.FullCaps CapCreateVM) with true by (by vm_compute).
  cbn [negb]. rewrite S1, S6, S7, bool_decide_false by done. simpl ((_ || _) || _). cbv iota.
  by rewrite kvm_nextID_eq by lia.
Qed.

(** Creation on a fully capable driver, and the optional start. *)
Lemma kvm_import req data info tc tp dst :
  k_caps dst = Kvm.FullCaps -> k_kind dst = KindKVM -> kwf (k_seq dst) (k_backend dst) ->
  k_seq dst + 2 < 2 ^ 63 -> trim_space (rq_TargetName req) <> "" -> ei_Firmware info <> "" ->
  exists dst', import_vm (P := mixed) req data (Some info) tc tp (inr dst) = (Ok (next_vm dst), inr dst') /\
    exists d, sb_domains (k_backend dst') = <[next_vm dst := d]> (sb_domains (k_backend dst)) /\
      sb_snapshots (k_backend dst') = sb_snapshots (k_backend dst) /\
      imported req info d /\ d_State d = (if rq_PowerOnAfter req then domRunning else domShutoff).
Proof.
  intros Hc Hk Hwf Hs Hname Hfw. pose proof (kwf_seq _ _ Hwf) as H0.
  assert (rq_TargetName req <> "") as Hn by (intros E; rewrite E in Hname; by vm_compute in Hname).
  unfold import_vm. cbn [hv_Kind sum_hypervisor kvm_hypervisor hv_CreateVM on_side]. rewrite Hk.
  change (nativeFormat KindKVM) with "qcow2".
  pose proof (mapped_spec req info (Z.of_nat (String.length data)) Hn Hfw) as Hm.
  generalize dependent (mapToTargetSpec req (Some info) "qcow2" (Z.of_nat (String.length data))). intros spec Hm.
  rewrite (kvm_create_mapped req info spec tc dst) by done.
  set (d := domain_of_spec (next_vm dst) spec tc).
  pose proof (mapped_imported req info spec (next_vm dst) tc Hm : imported req info d) as Himp.
  rewrite kvm_finishTask_eq. unfold kvm_op. cbn [fst snd kvm_err task_EntityID hv_Capabilities k_caps
    Kvm.set_tracker Kvm.set_seq Kvm.set_backend hv_PowerOp on_side sum_hypervisor kvm_hypervisor].
  rewrite Hc. replace (Has Kvm.FullCaps CapPowerStart) with true by (by vm_compute). rewrite andb_true_r.
  assert (sb_domains (sb_defineDomain d (k_backend dst)) = <[next_vm dst := d]> (sb_domains (k_backend dst))) as Hdoms by done.
  destruct (rq_PowerOnAfter req).
  - rewrite (kvm_start_eq _ _ _ d); cycle 1.
    { simpl. rewrite Hc. by vm_compute. }
    { cbn [k_backend Kvm.set_tracker Kvm.set_seq Kvm.set_backend]. rewrite Hdoms. apply lookup_insert_eq. }
    eexists. split; [reflexivity|]. exists (dom_set_State domRunning d). unfold kvm_op.
    rewrite kvm_finishTask_eq. cbn [snd k_backend Kvm.set_tracker Kvm.set_seq Kvm.set_backend with_dom sb_domains set_domains].
    rewrite Hdoms, insert_insert_eq. split_and!; [done|done|exact Himp|done].
  - eexists. split; [reflexivity|]. exists d. cbn [k_backend Kvm.set_tracker Kvm.set_seq Kvm.set_backend].
    split_and!; [done|done|exact Himp|done].
Qed.

(** A migration across hypervisors, end to end: from a fully capable
    simulator to the KVM driver, in one registry that holds both, it always
    succeeds.  The driver's table gains one VM, under an id that was free, with
    the requested name and host, 2 vCPUs and 4096 MiB, running exactly when
    power-on was asked, and otherwise stays; its domain has the source's firmware
    and guest system and as many qcow2 disks as the source has (at least one);
    the source is untouched. *)
Theorem migrate_sim_to_kvm clock req (e : env mixed) jobs src dst v :
  rq_SourceProviderID req <> rq_TargetProviderID req ->
  env_reg e !! rq_SourceProviderID req = Some (inl src) ->
  env_reg e !! rq_TargetProviderID req = Some (inr dst) ->
  sim_caps src = Sim.FullCaps -> k_caps dst = Kvm.FullCaps -> k_kind dst = KindKVM ->
  sim_vms src !! rq_SourceVMID req = Some v ->
  vm_Firmware v <> "" -> trim_space (rq_TargetName req) <> "" ->
  kwf (k_seq dst) (k_backend dst) -> k_seq dst + 2 < 2 ^ 63 ->
  exists r w' j dst' d,
    Run clock Passthrough_Convert req (mkWorld e jobs) = Some (r, w') /\
    r.2 = None /\ r.1 = Some j /\ pg_Phase j = PhaseDone /\
    env_reg (w_env w') = <[rq_TargetProviderID req := inr dst']> (env_reg e) /\
    kvm_view dst !! pg_TargetVMID j = None /\
    kvm_view dst' = <[pg_TargetVMID j := mkC (rq_TargetName req) (rq_TargetHostID req)
        (if rq_PowerOnAfter req then StateRunning else StateStopped) 2 4096 []]> (kvm_view dst) /\
    sb_domains (k_backend dst') !! pg_TargetVMID j = Some d /\
    d_Firmware d = vm_Firmware v /\ d_OSType d = vm_GuestOS v /\
    length (d_Disks d) = Nat.max 1 (length (vm_Disks v)) /\
    Forall (fun dk => ld_Driver dk = "qcow2") (d_Disks d).
Proof.
  intros Hne Hs Ht Hcs Hct Hk Hv Hfw Hname Hwf Hlt.
  destruct (wp_inv _ _ _ (run_wp clock Passthrough_Convert req (mkWorld e jobs)))
    as (r & w' & Hrun & tc & tp & j & Hr & _ & Hreg & Ho).
  assert (preflight_issues (P := mixed) req (inl src) (inr dst) = []) as Hpre
    by (apply mixed_preflight_ok; [done..|by exists v]).
  destruct (mixed_export req src dst v) as (data & info & Hexp & Hifw & Hios & Hidisks);
    [rewrite Hcs; by vm_compute|done|].
  destruct (kvm_import req data info tc tp dst) as (dst' & Himp & d & Hdoms & Hsn & Hd & Hst); [done..|congruence|].
  destruct Hd as (D1 & D2 & D3 & D4 & D5 & D6 & D7 & D8).
  unfold transfer in Hreg, Ho. simpl in Hreg, Ho. rewrite Hs, Ht, Hpre, Hexp, Himp in *. simpl in *.
  destruct Ho as (Herr & Hph & _ & _ & Hvm).
  pose proof (kvm_free _ _ Hwf) as Hfree. fold (next_vm dst) in Hfree.
  exists r, w', j, dst', d. rewrite Hvm. split_and!; try done.
  - by rewrite kvm_view_lookup, Hfree.
  - apply map_update_eq.
    + rewrite kvm_view_lookup, Hdoms, lookup_insert_eq. simpl. unfold sb_listSnapshots. rewrite Hsn.
      destruct (sb_snapshots (k_backend dst) !! next_vm dst) as [l|] eqn:El.
      { destruct (kwf_snapdom _ _ Hwf (next_vm dst)) as [d' Hd']; [by eexists|]. congruence. }
      rewrite D1, D2, D5, D6, Hst. by destruct (rq_PowerOnAfter req).
    + intros k Hk'. rewrite !kvm_view_lookup, Hdoms, lookup_insert_ne by done. unfold sb_listSnapshots. by rewrite Hsn.
  - rewrite Hdoms. apply lookup_insert_eq.
  - congruence.
  - congruence.
  - lia.
Qed.

Definition sim_and_kvm : env mixed :=
  mkEnv {[ "src" := inl (Sim.New "src" []); "dst" := inr (New_sim "dst" None) ]} 0.

Lemma migrate_sim_to_kvm_witness :
  exists r w' j, Run (fun _ => 7) Passthrough_Convert (mkRequest "src" "vm-1" "dst" "node-2" "" "copy" true)
                   (mkWorld sim_and_kvm New_mig) = Some (r, w') /\ r.2 = None /\ r.1 = Some j /\ pg_Phase j = PhaseDone.
Proof.
  destruct (migrate_sim_to_kvm (fun _ => 7) (mkRequest "src" "vm-1" "dst" "node-2" "" "copy" true)
              sim_and_kvm New_mig (Sim.New "src" []) (New_sim "dst" None) (seed_vm (Sim.New "src" []) 0 StateRunning).2)
    as (r & w' & j & dst' & d & Hrun & Hr & Hj & Hph & _).
  - done.
  - done.
  - done.
  - done.
  - done.
  - done.
  - by vm_compute.
  - done.
  - by vm_compute.
  - apply New_kwf.
  - done.
  - exists r, w', j. split; [exact Hrun|]. split; [exact Hr|]. split; [exact Hj|exact Hph].
Defined.
