(* ===== verification/Guac.v ===== *)
(** * The console proxy's protocol with guacd

    server/internal/guac/guac.go, and guacParamsFor of api/console.go.  A
    connection is the bytes its peer will deliver (with the error that ends them),
    the outcomes of its successive writes, and the bytes written so far. *)
From S2P Require Import Prelude GoStd GoFacts VProvider Hypervisor Utf8.

(** ** Data *)

Record Params := mkParams {
  pr_Protocol : string; pr_Hostname : string; pr_Port : Z; pr_Password : string; pr_Username : string;
  pr_Width : Z; pr_Height : Z; pr_DPI : Z; pr_Extra : gmap string string }.

(** The error values of the package; the transport's own are [GIO]. *)
Inductive gerr : Type :=
| GIO (e : string)
| GDial (addr : string) (e : string)
| GBadLength (len : string)
| GBadSeparator (sep : ascii)
| GEmpty
| GReadArgs (e : gerr) | GExpectedArgs (got : string)
| GReadReady (e : gerr) | GExpectedReady (got : string).

(** [cn_writes] holds what [tcp.Write] answers next, an error or not; when it is
    empty writes succeed. *)
Record Conn := mkConn {
  cn_in : stream; cn_writes : list (option string); cn_out : string; cn_closed : bool }.
Definition set_in (s : string) (c : Conn) : Conn :=
  mkConn (s, (cn_in c).2) (cn_writes c) (cn_out c) (cn_closed c).
Definition set_closed (c : Conn) : Conn := mkConn (cn_in c) (cn_writes c) (cn_out c) true.

(** The error a read past the last byte answers: [io.EOF] when the peer closed. *)
Definition eof (c : Conn) : gerr := GIO (default "EOF" (cn_in c).2).

(** ** Wire encoding *)

Definition writeElem (v : string) : string := itoa (rune_count v) +:+ "." +:+ v.
Definition encode_instr (op : string) (rest : list string) : string :=
  writeElem op +:+ foldr (fun e s => String "," (writeElem e +:+ s)) ";" rest.
Definition tcp_Write (b : string) (c : Conn) : result gerr unit * Conn :=
  match cn_writes c with
  | Some e :: ws => (Err (GIO e), mkConn (cn_in c) ws (cn_out c) (cn_closed c))
  | None :: ws => (Ok tt, mkConn (cn_in c) ws (cn_out c +:+ b) (cn_closed c))
  | [] => (Ok tt, mkConn (cn_in c) [] (cn_out c +:+ b) (cn_closed c))
  end.
Definition writeInstr2 (op : string) (rest : list string) (c : Conn) : result gerr unit * Conn :=
  tcp_Write (encode_instr op rest) c.

(** [readUntil(delim)]: what precedes the first [delim]. *)
Definition readUntil (delim : ascii) (c : Conn) : result gerr string * Conn :=
  match cut delim (cn_in c).1 with
  | Some (s, rest) => (Ok s, set_in rest c)
  | None => (Err (eof c), set_in "" c)
  end.

(** [readRunes(n)]: a rune takes a byte at least, so the length of what is left
    plus one is enough fuel for the loop. *)
Fixpoint readRunes_fuel (k : nat) (n : Z) (acc : string) (c : Conn) : result gerr string * Conn :=
  match k with
  | O => (Err (eof c), c)
  | S k =>
      if n <=? 0 then (Ok acc, c)
      else match decode (cn_in c).1 with
           | None => (Err (eof c), c)
           | Some (r, _, rest) => readRunes_fuel k (n - 1) (acc +:+ string_of_rune r) (set_in rest c)
           end
  end.
Definition readRunes (n : Z) (c : Conn) : result gerr string * Conn :=
  readRunes_fuel (S (String.length (cn_in c).1)) n "" c.

(** [readInstr]: every round of the loop takes a byte at least; [None] means the
    fuel ran out. *)
Fixpoint readInstr_fuel (k : nat) (elems : list string) (c : Conn) :
    option (result gerr (string * list string) * Conn) :=
  match k with
  | O => None
  | S k =>
      match readUntil "." c with
      | (Err e, c) => Some (Err e, c)
      | (Ok lenStr, c) =>
          match atoi (trim_space lenStr) with
          | None => Some (Err (GBadLength lenStr), c)
          | Some n =>
              match readRunes n c with
              | (Err e, c) => Some (Err e, c)
              | (Ok val, c) =>
                  let elems := elems ++ [val] in
                  match (cn_in c).1 with
                  | EmptyString => Some (Err (eof c), c)
                  | String sep rest =>
                      let c := set_in rest c in
                      if bool_decide (sep = ";"%char) then
                        match elems with
                        | [] => Some (Err GEmpty, c)
                        | op :: _ => Some (Ok (op, elems), c)
                        end
                      else if bool_decide (sep = ","%char) then readInstr_fuel k elems c
                      else Some (Err (GBadSeparator sep), c)
                  end
              end
          end
      end
  end.
Definition readInstr (c : Conn) : result gerr (string * list string) * Conn :=
  default (Err (eof c), c) (readInstr_fuel (S (String.length (cn_in c).1)) [] c).

(** ** The handshake *)

Definition value (p : Params) (arg : string) : string :=
  let rest := default "" (pr_Extra p !! arg) in
  if bool_decide (arg = "hostname") then pr_Hostname p
  else if bool_decide (arg = "port") then itoa (pr_Port p)
  else if bool_decide (arg = "password") then pr_Password p
  else if bool_decide (arg = "username") then pr_Username p
  else if bool_decide (arg = "width") then itoa (pr_Width p)
  else if bool_decide (arg = "height") then itoa (pr_Height p)
  else if bool_decide (arg = "dpi") then itoa (pr_DPI p)
  else if bool_decide (arg ∈ ["ignore-cert"; "disable-auth"]) then
    if bool_decide (pr_Protocol p = "rdp") then "true" else rest
  else if bool_decide (arg = "security") then
    if bool_decide (pr_Protocol p = "rdp") then "any" else rest
  else if bool_decide (arg = "resize-method") then "display-update"
  else rest.

(** One value of the connect instruction: the version slot is echoed. *)
Definition connect_value (p : Params) (el : string) : string :=
  if has_prefix el "VERSION_" then el else value p el.

Definition handshake (p : Params) (c : Conn) : result gerr unit * Conn :=
  match writeInstr2 "select" [pr_Protocol p] c with
  | (Err e, c) => (Err e, c)
  | (Ok _, c) =>
  match readInstr c with
  | (Err e, c) => (Err (GReadArgs e), c)
  | (Ok (name, args), c) =>
  if bool_decide (name <> "args") then (Err (GExpectedArgs name), c) else
  match writeInstr2 "size" [itoa (pr_Width p); itoa (pr_Height p); itoa (pr_DPI p)] c with
  | (Err e, c) => (Err e, c)
  | (Ok _, c) =>
  match writeInstr2 "audio" [] c with
  | (Err e, c) => (Err e, c)
  | (Ok _, c) =>
  match writeInstr2 "video" [] c with
  | (Err e, c) => (Err e, c)
  | (Ok _, c) =>
  match writeInstr2 "image" [] c with
  | (Err e, c) => (Err e, c)
  | (Ok _, c) =>
  match writeInstr2 "connect" (connect_value p <$> tail args) c with
  | (Err e, c) => (Err e, c)
  | (Ok _, c) =>
  match readInstr c with
  | (Err e, c) => (Err (GReadReady e), c)
  | (Ok (rname, _), c) =>
  if bool_decide (rname <> "ready") then (Err (GExpectedReady rname), c) else (Ok tt, c)
  end end end end end end end end.

(** [Dial]: [dialled] is what [net.DialTimeout] answers, a connection or an
    error.  The connection is returned with its state, closed on an error. *)
Definition with_display (p : Params) : Params :=
  mkParams (pr_Protocol p) (pr_Hostname p) (pr_Port p) (pr_Password p) (pr_Username p)
    (if pr_Width p =? 0 then 1024 else pr_Width p) (if pr_Height p =? 0 then 768 else pr_Height p)
    (if pr_DPI p =? 0 then 96 else pr_DPI p) (pr_Extra p).
Definition Dial (guacdAddr : string) (p : Params) (dialled : result string Conn) :
    result gerr unit * option Conn :=
  match dialled with
  | Err e => (Err (GDial guacdAddr e), None)
  | Ok c => match handshake (with_display p) c with
            | (Err e, c) => (Err e, Some (set_closed c))
            | (Ok _, c) => (Ok tt, Some c)
            end
  end.

(** ** The endpoint of a console (api/console.go) *)

Definition guacParamsFor (ep : ConsoleEndpoint) : result string Params :=
  let host := if bool_decide (ce_Host ep ∈ [""; "0.0.0.0"; "::"]) then "127.0.0.1" else ce_Host ep in
  if bool_decide (ce_Kind ep ∈ [ConsoleVNC; ConsoleSPICE]) then
    Ok (mkParams "vnc" host (ce_Port ep) (ce_Password ep) "" 0 0 0 ∅)
  else if bool_decide (ce_Kind ep = ConsoleRDP) then
    Ok (mkParams "rdp" host (if ce_Port ep =? 0 then 3389 else ce_Port ep) (ce_Password ep) "" 0 0 0
          (<["ignore-cert" := "true"]> (<["security" := "any"]> (<["resize-method" := "display-update"]> ∅))))
  else Err ("unsupported console kind: " +:+ trim_space (ce_Kind ep)).
(** The size a browser may ask for (?w=, ?h=, ?dpi=). *)
Definition query_size (q : string) (old : Z) : Z :=
  match atoi q with Some v => if 0 <? v then v else old | None => old end.
Definition requested_size (w h dpi : string) (p : Params) : Params :=
  mkParams (pr_Protocol p) (pr_Hostname p) (pr_Port p) (pr_Password p) (pr_Username p)
    (query_size w (pr_Width p)) (query_size h (pr_Height p)) (query_size dpi (pr_DPI p)) (pr_Extra p).
