(* ===== verification/GuacProps.v ===== *)
(** * What the console proxy guarantees

    An instruction written is read back, whatever bytes its elements hold, and
    reading always ends; the handshake sends one value per announced parameter
    and leaves the bytes that follow it for the tunnel. *)
From S2P Require Import Prelude GoStd GoFacts VProvider Hypervisor Utf8 Guac.

(** ** The connection, by its next bytes *)

Lemma set_in_set_in s t c : set_in s (set_in t c) = set_in s c.
Proof. done. Qed.
(** A length prefix is read back. *)
Lemma readUntil_itoa n s c : 0 <= n ->
  readUntil "." (set_in (itoa n +:+ String "." s) c) = (Ok (itoa n), set_in s c).
Proof.
  intros Hn. unfold readUntil. simpl. rewrite cut_app; [done|].
  destruct (itoa_spec n Hn) as (H & _). eapply every_impl; [|done]. intros d. by apply digit_other.
Qed.
Lemma atoi_trim_itoa n : 0 <= n < 2 ^ 63 -> atoi (trim_space (itoa n)) = Some n.
Proof.
  intros Hn. destruct (itoa_spec n ltac:(lia)) as (H & _). rewrite trim_space_plain.
  - by apply atoi_itoa.
  - eapply every_impl; [|done]. apply digit_plain.
Qed.

(** Exactly the runes of [v] are read, each re-encoded. *)
Lemma readRunes_fuel_spec v d t : byte_val d < 128 -> forall k acc c,
  (String.length v < k)%nat ->
  readRunes_fuel k (rune_count v) acc (set_in (v +:+ String d t) c) =
  (Ok (acc +:+ scrub v), set_in (String d t) c).
Proof.
  intros Hd. induction v as [|v r ok v' H IH] using decode_ind; intros k acc c Hk.
  - destruct k; [simpl in Hk; lia|]. cbn. by rewrite append_nil.
  - pose proof (decode_shorter _ _ _ _ H). destruct k as [|k]; [lia|]. cbn [readRunes_fuel].
    assert (rune_count v = rune_count v' + 1) as ->.
    { unfold rune_count. rewrite (runes_decode _ _ _ _ H). cbn [length]. lia. }
    destruct (Z.leb_spec (rune_count v' + 1) 0) as [Hc|_]; [unfold rune_count in Hc; lia|].
    change (cn_in (set_in (v +:+ String d t) c)).1 with (v +:+ String d t).
    rewrite (decode_before_ascii _ _ _ _ _ _ Hd H). rewrite set_in_set_in.
    replace (rune_count v' + 1 - 1) with (rune_count v') by lia. rewrite IH by lia.
    unfold scrub. rewrite (runes_decode _ _ _ _ H). simpl. by rewrite append_assoc.
Qed.
Lemma readRunes_spec v d t c : byte_val d < 128 ->
  readRunes (rune_count v) (set_in (v +:+ String d t) c) = (Ok (scrub v), set_in (String d t) c).
Proof.
  intros Hd. unfold readRunes. rewrite readRunes_fuel_spec; [done|done|]. simpl. rewrite append_length. lia.
Qed.

(** ** Reading an instruction that was written *)

Definition fits (s : string) : Prop := rune_count s < 2 ^ 63.
Definition more (rest : list string) : string := foldr (fun e s => String "," (writeElem e +:+ s)) ";" rest.
Lemma encode_instr_eq op rest : encode_instr op rest = writeElem op +:+ more rest.
Proof. done. Qed.
Lemma more_length rest : (length rest < String.length (more rest))%nat.
Proof. induction rest as [|e rest IH]; [simpl; lia|].
  change (more (e :: rest)) with (String "," (writeElem e +:+ more rest)). simpl. rewrite append_length. lia.
Qed.
Lemma readInstr_fuel_spec t c : forall rest op acc k,
  (length rest < k)%nat -> Forall fits (op :: rest) ->
  readInstr_fuel k acc (set_in (writeElem op +:+ more rest +:+ t) c) =
  Some (Ok (default "" (head (acc ++ (scrub <$> op :: rest))), acc ++ (scrub <$> op :: rest)), set_in t c).
Proof.
  intros rest. induction rest as [|e rest IH]; intros op acc k Hk [Hf Hr]%Forall_cons; (destruct k as [|k]; [lia|]).
  all: cbn [readInstr_fuel]; unfold writeElem at 1; rewrite !append_assoc;
    change ("." +:+ ?x) with (String "." x);
    rewrite readUntil_itoa by (unfold rune_count; lia);
    rewrite atoi_trim_itoa by (split; [unfold rune_count; lia|exact Hf]).
  - change (more [] +:+ t) with (String ";" t). rewrite readRunes_spec by (by vm_compute). cbn.
    destruct acc; done.
  - change (more (e :: rest) +:+ t) with (String "," ((writeElem e +:+ more rest) +:+ t)).
    rewrite readRunes_spec by (by vm_compute).
    change (cn_in (set_in (String "," ?x) c)).1 with (String "," x). cbv beta iota zeta.
    rewrite bool_decide_false by done. rewrite bool_decide_true by done.
    rewrite set_in_set_in, append_assoc, IH by (done || simpl in Hk; lia).
    by rewrite <- app_assoc.
Qed.
Lemma readInstr_encode op rest t c : Forall fits (op :: rest) ->
  readInstr (set_in (encode_instr op rest +:+ t) c) = (Ok (scrub op, scrub <$> op :: rest), set_in t c).
Proof.
  intros Hf. unfold readInstr. rewrite encode_instr_eq, append_assoc, readInstr_fuel_spec; [done| |done].
  simpl. rewrite !append_length. pose proof (more_length rest). lia.
Qed.

(** ** Reading always ends *)

Lemma cut_shorter d s a b : cut d s = Some (a, b) -> (String.length b < String.length s)%nat.
Proof.
  revert a. induction s as [|x s IH]; intros a; [done|]. simpl. destruct (Ascii.eqb x d).
  - intros [= _ <-]. lia.
  - destruct (cut d s) as [[a' b']|] eqn:E; [|done]. intros [= _ <-]. specialize (IH a' eq_refl). lia.
Qed.
Definition left_bytes (c : Conn) : nat := String.length (cn_in c).1.
Lemma readUntil_left d c s c' : readUntil d c = (Ok s, c') -> (left_bytes c' < left_bytes c)%nat.
Proof.
  unfold readUntil. destruct (cut d _) as [[a b]|] eqn:E; [|done]. intros [= _ <-]. by apply cut_shorter in E.
Qed.
Lemma readRunes_fuel_left k : forall n acc c r c',
  readRunes_fuel k n acc c = (r, c') -> (left_bytes c' <= left_bytes c)%nat.
Proof.
  induction k as [|k IH]; intros n acc c r c'; cbn [readRunes_fuel]; [by intros [= _ <-]|].
  destruct (n <=? 0); [by intros [= _ <-]|]. destruct (decode _) as [[[x ok] s']|] eqn:E; [|by intros [= _ <-]].
  intros H%IH. apply decode_shorter in E. unfold left_bytes in *. simpl in H. lia.
Qed.
Lemma readInstr_ends k : forall elems c, (left_bytes c < k)%nat -> readInstr_fuel k elems c <> None.
Proof.
  induction k as [|k IH]; intros elems c Hk; [lia|]. cbn [readInstr_fuel].
  destruct (readUntil "." c) as [[s|e] c1] eqn:E1; [|done]. apply readUntil_left in E1.
  destruct (atoi (trim_space s)) as [n|]; [|done].
  destruct (readRunes n c1) as [[v|e] c2] eqn:E2; [|done]. apply readRunes_fuel_left in E2.
  destruct (cn_in c2).1 as [|sep rest] eqn:E3; [done|]. cbv zeta.
  case_bool_decide; [by destruct (elems ++ [v])|]. case_bool_decide; [|done]. apply IH.
  unfold left_bytes in *. rewrite E3 in E2. simpl in *. lia.
Qed.

Lemma scrub_all l : Forall (fun v => valid_utf8 v = true) l -> scrub <$> l = l.
Proof. induction 1 as [|v l Hv _ IH]; [done|]. rewrite fmap_cons, IH. by rewrite scrub_valid. Qed.

(** ** The properties *)

(** C28 Instructions survive the wire whatever their elements hold (commas,
    semicolons, dots, digits, any bytes): what one side writes, the other reads
    back, and stops right after it; bytes that are not UTF-8 come back as U+FFFD,
    valid text comes back as it was.  On any incoming bytes the reader ends. *)
Theorem guac_roundtrip (c : Conn) :
  readInstr_fuel (S (String.length (cn_in c).1)) [] c <> None /\
  forall op rest t e ws out,
    Forall fits (op :: rest) ->
    readInstr (mkConn (encode_instr op rest +:+ t, e) ws out false) =
      (Ok (scrub op, scrub <$> op :: rest), mkConn (t, e) ws out false) /\
    (Forall (fun v => valid_utf8 v = true) (op :: rest) ->
     readInstr (mkConn (encode_instr op rest +:+ t, e) ws out false) =
      (Ok (op, op :: rest), mkConn (t, e) ws out false)).
Proof.
  split; [apply readInstr_ends; unfold left_bytes; lia|]. intros op rest t e ws out Hf.
  assert (readInstr (mkConn (encode_instr op rest +:+ t, e) ws out false) =
          (Ok (scrub op, scrub <$> op :: rest), mkConn (t, e) ws out false)) as ->
    by exact (readInstr_encode op rest t (mkConn ("", e) ws out false) Hf).
  split; [done|]. intros Hv. rewrite scrub_all by done.
  apply Forall_cons in Hv as [Hv _]. by rewrite scrub_valid.
Qed.

Lemma guac_roundtrip_witness :
  let c := mkConn ("", None) [] "" false in
  Forall fits ["connect"; "a;b,1.c"; "é"] /\
  readInstr (mkConn (encode_instr "connect" ["a;b,1.c"; "é"] +:+ "5.ready;", None) [] "" false) =
    (Ok ("connect", ["connect"; "a;b,1.c"; "é"]), mkConn ("5.ready;", None) [] "" false) /\
  encode_instr "connect" ["a;b,1.c"; "é"] = "7.connect,7.a;b,1.c,1.é;".
Proof.
  assert (Forall fits ["connect"; "a;b,1.c"; "é"]) as H by (repeat constructor).
  split; [exact H|]. split; [|reflexivity].
  apply (guac_roundtrip (mkConn ("", None) [] "" false)); [exact H|repeat constructor].
Defined.

(** The six instructions the proxy sends, given the names [guacd] announced. *)
Definition sent (p : Params) (names : list string) : list (string * list string) :=
  [("select", [pr_Protocol p]);
   ("size", [itoa (pr_Width p); itoa (pr_Height p); itoa (pr_DPI p)]);
   ("audio", []); ("video", []); ("image", []);
   ("connect", connect_value p <$> names)].
Definition bytes_of (l : list (string * list string)) : string :=
  foldr (fun i s => encode_instr i.1 i.2 +:+ s) "" l.
(** A peer that reads the bytes it got, instruction after instruction. *)
Fixpoint read_all (n : nat) (c : Conn) : list (list string) * Conn :=
  match n with
  | O => ([], c)
  | S n => match readInstr c with
           | (Ok (_, elems), c) => let (l, c) := read_all n c in (elems :: l, c)
           | (Err _, c) => ([], c)
           end
  end.

(** Text that fits in a Go string of runes. *)
Definition text (v : string) : Prop := fits v /\ valid_utf8 v = true.
Lemma texts l : Forall text l -> Forall fits l /\ Forall (fun v => valid_utf8 v = true) l.
Proof. by rewrite <- Forall_and. Qed.
Lemma text_itoa z : 0 <= z < 2 ^ 62 -> text (itoa z).
Proof.
  intros Hz. split; [|apply itoa_valid; lia]. unfold fits. pose proof (rune_count_le (itoa z)).
  pose proof (itoa_length z). lia.
Qed.

Lemma readInstr_text op rest t c : Forall text (op :: rest) ->
  readInstr (set_in (encode_instr op rest +:+ t) c) = (Ok (op, op :: rest), set_in t c).
Proof.
  intros [Hf Hv]%texts. rewrite readInstr_encode, scrub_all by done.
  apply Forall_cons in Hv as [Hv _]. by rewrite scrub_valid.
Qed.
Lemma readInstr_conn op rest t e ws out cl : Forall text (op :: rest) ->
  readInstr (mkConn (encode_instr op rest +:+ t, e) ws out cl) = (Ok (op, op :: rest), mkConn (t, e) ws out cl).
Proof. intros H. exact (readInstr_text op rest t (mkConn ("", e) ws out cl) H). Qed.
Lemma read_all_spec l t c : Forall (fun i => Forall text (i.1 :: i.2)) l ->
  read_all (length l) (set_in (bytes_of l +:+ t) c) = ((fun i => i.1 :: i.2) <$> l, set_in t c).
Proof.
  induction l as [|[op rest] l IH]; intros Hl; [done|]. apply Forall_cons in Hl as [Hi Hl].
  cbn [length read_all bytes_of foldr fst snd] in *. fold (bytes_of l). rewrite append_assoc, readInstr_text by done.
  by rewrite IH.
Qed.

(** C27 The handshake with a guacd that announces its parameter names and then
    says ready succeeds, sends exactly six instructions (one value of connect per
    announced name, the version echoed), and leaves what follows to the tunnel.
    No text in the parameters, a password with separators included, makes the
    peer read anything else than these six. *)
Theorem guac_handshake p names id t e out :
  text (pr_Protocol p) -> Forall text names -> Forall text (connect_value p <$> names) -> text id ->
  0 <= pr_Width p < 2 ^ 62 -> 0 <= pr_Height p < 2 ^ 62 -> 0 <= pr_DPI p < 2 ^ 62 ->
  exists c',
    handshake p (mkConn (encode_instr "args" names +:+ encode_instr "ready" [id] +:+ t, e) [] out false) = (Ok tt, c') /\
    cn_in c' = (t, e) /\ cn_out c' = out +:+ bytes_of (sent p names) /\
    forall c, read_all 6 (set_in (bytes_of (sent p names)) c) =
              ((fun i => i.1 :: i.2) <$> sent p names, set_in "" c).
Proof.
  intros Hp Hn Hv Hid Hw Hh Hd.
  assert (forall op, op ∈ ["args"; "ready"; "select"; "size"; "audio"; "video"; "image"; "connect"] -> text op) as Hop.
  { intros op H. repeat (apply elem_of_cons in H as [->|H]; [by vm_compute|]). by apply elem_of_nil in H. }
  exists (mkConn (t, e) [] (out +:+ bytes_of (sent p names)) false). split; [|split; [done|split; [done|]]].
  - unfold handshake, writeInstr2, tcp_Write. cbn [cn_writes cn_in cn_out cn_closed].
    rewrite readInstr_conn by (constructor; [apply Hop; set_solver|done]).
    rewrite bool_decide_false by (intros Hne; by apply Hne). cbn [cn_writes cn_in cn_out cn_closed tail snd].
    rewrite readInstr_conn by (constructor; [apply Hop; set_solver|by constructor]).
    rewrite bool_decide_false by (intros Hne; by apply Hne). cbn [cn_writes cn_in cn_out cn_closed snd].
    do 2 f_equal. unfold sent, bytes_of. cbn [foldr fst snd]. by rewrite append_nil, !append_assoc.
  - intros c. rewrite <- (append_nil (bytes_of _)). apply (read_all_spec (sent p names) "" c).
    unfold sent. rewrite !Forall_cons. cbn [fst snd]. rewrite !Forall_cons, !Forall_nil.
    split_and!; first [done|by apply text_itoa|apply Hop; set_solver].
Qed.

Definition demo_params : Params := mkParams "vnc" "10.0.0.5" 5900 "a,b;1.c" "" 1024 768 96 ∅.
Definition demo_names : list string := ["VERSION_1_5_0"; "hostname"; "port"; "password"].
Lemma guac_handshake_witness :
  connect_value demo_params <$> demo_names = ["VERSION_1_5_0"; "10.0.0.5"; "5900"; "a,b;1.c"] /\
  exists c',
    handshake demo_params (mkConn (encode_instr "args" demo_names +:+ encode_instr "ready" ["$id"] +:+ "4.sync;", None) [] "" false)
      = (Ok tt, c') /\
    cn_in c' = ("4.sync;", None) /\ cn_out c' = "" +:+ bytes_of (sent demo_params demo_names) /\
    forall c, read_all 6 (set_in (bytes_of (sent demo_params demo_names)) c) =
              ((fun i => i.1 :: i.2) <$> sent demo_params demo_names, set_in "" c).
Proof.
  split; [reflexivity|].
  apply (guac_handshake demo_params demo_names "$id" "4.sync;" None ""); try (split; reflexivity);
    try (split; [discriminate|reflexivity]); repeat constructor.
Defined.
