(* ===== verification/Streams.v ===== *)
(** * Live streams: the per-session registry and the event broker

    server/internal/cache/streams.go and events.go.  A context is the list of its
    own id and its ancestors'; it is done when one of them was cancelled.  The
    registry hands out one object per session key, each with a lock of its own,
    so an operation is two steps: finding the object, then working on it. *)
From S2P Require Import Prelude GoStd.

(** ** Contexts (package context) *)

Abbreviation ctx := (list nat) (only parsing).
Record contexts := mkCtxs { cx_cancelled : gset nat; cx_next : nat }.
(** [ctx.Err() == nil]. *)
Definition live (cs : contexts) (c : ctx) : bool := forallb (fun i => bool_decide (i ∉ cx_cancelled cs)) c.
Definition WithCancel (parent : ctx) (cs : contexts) : ctx * contexts :=
  (cx_next cs :: parent, mkCtxs (cx_cancelled cs) (S (cx_next cs))).
Definition cancel (c : ctx) (cs : contexts) : contexts :=
  match c with [] => cs | i :: _ => mkCtxs ({[i]} ∪ cx_cancelled cs) (cx_next cs) end.

(** ** The registry (streams.go) *)

Definition MaxLiveStatsPerSession : Z := 1.

(** [statsHandle]; [sessionStreams] is its [activeStat]. *)
Record statsHandle := mkHandle { sh_subID : string; sh_ctx : ctx }.
Record StreamRegistry := mkReg {
  rg_sessions : gmap string nat;                      (* key to object *)
  rg_objs : gmap nat (option statsHandle);            (* the objects' activeStat *)
  rg_next : nat }.
Definition NewRegistry : StreamRegistry := mkReg ∅ ∅ 0.
Definition set_active (o : nat) (a : option statsHandle) (r : StreamRegistry) : StreamRegistry :=
  mkReg (rg_sessions r) (<[o := a]> (rg_objs r)) (rg_next r).
Definition active (o : nat) (r : StreamRegistry) : option statsHandle := mjoin (rg_objs r !! o).

(** [sessionFor], under the registry's lock. *)
Definition sessionFor (key : string) (r : StreamRegistry) : nat * StreamRegistry :=
  match rg_sessions r !! key with
  | Some o => (o, r)
  | None => (rg_next r, mkReg (<[key := rg_next r]> (rg_sessions r)) (<[rg_next r := None]> (rg_objs r))
                          (S (rg_next r)))
  end.

(** [AcquireStats] once it holds the object's lock: the stream it replaces is
    cancelled; the id to notify is that stream's, unless it is the same. *)
Definition AcquireStats_locked (parent : ctx) (o : nat) (subID : string) (r : StreamRegistry) (cs : contexts)
    : option string * ctx * StreamRegistry * contexts :=
  let '(superseded, cs) :=
    match active o r with
    | Some old => (if bool_decide (sh_subID old <> subID) then Some (sh_subID old) else None, cancel (sh_ctx old) cs)
    | None => (None, cs)
    end in
  let '(c, cs) := WithCancel parent cs in
  (superseded, c, set_active o (Some (mkHandle subID c)) r, cs).

(** [ReleaseStats] once it holds the object's lock. *)
Definition ReleaseStats_locked (o : nat) (subID : string) (r : StreamRegistry) (cs : contexts)
    : StreamRegistry * contexts :=
  match active o r with
  | Some a => if bool_decide (sh_subID a = subID) then (set_active o None r, cancel (sh_ctx a) cs) else (r, cs)
  | None => (r, cs)
  end.

(** [CloseSession]: the entry is deleted under the registry's lock; then the
    object, when there was one, is emptied under its own. *)
Definition CloseSession_forget (key : string) (r : StreamRegistry) : option nat * StreamRegistry :=
  (rg_sessions r !! key, mkReg (delete key (rg_sessions r)) (rg_objs r) (rg_next r)).
Definition CloseSession_locked (o : nat) (r : StreamRegistry) (cs : contexts) : StreamRegistry * contexts :=
  match active o r with
  | Some a => (set_active o None r, cancel (sh_ctx a) cs)
  | None => (r, cs)
  end.

(** ** The event broker (events.go) *)

Record StateEvent := mkStateEvent {
  se_HostID : string; se_Action : string; se_Kind : string; se_ID : string;
  se_SnapshotDelta : option (gmap string json) }.
(** A channel: what is buffered, and whether it is open. *)
Record Broker := mkBroker {
  bk_subs : gset nat; bk_chans : gmap nat (list StateEvent * bool); bk_next : nat }.
Definition NewBroker : Broker := mkBroker ∅ ∅ 0.
Definition chan_cap : nat := 64.

Definition Subscribe (b : Broker) : nat * Broker :=
  (bk_next b, mkBroker ({[bk_next b]} ∪ bk_subs b) (<[bk_next b := ([], true)]> (bk_chans b)) (S (bk_next b))).
(** The function [Subscribe] returns; closing twice would panic. *)
Definition Unsubscribe (id : nat) (b : Broker) : option Broker :=
  if bool_decide (id ∈ bk_subs b) then
    match bk_chans b !! id with
    | Some (buf, true) => Some (mkBroker (bk_subs b ∖ {[id]}) (<[id := (buf, false)]> (bk_chans b)) (bk_next b))
    | _ => None
    end
  else Some b.
(** A send that does not block; on a closed channel it panics ([None]). *)
Definition send (ev : StateEvent) (ch : list StateEvent * bool) : option (list StateEvent * bool) :=
  let (buf, open) := ch in
  if negb open then None
  else if bool_decide (length buf < chan_cap)%nat then Some (buf ++ [ev], true) else Some ch.
Fixpoint publish_to (ev : StateEvent) (ids : list nat) (chans : gmap nat (list StateEvent * bool))
    : option (gmap nat (list StateEvent * bool)) :=
  match ids with
  | [] => Some chans
  | id :: ids => ch ← chans !! id; ch' ← send ev ch; publish_to ev ids (<[id := ch']> chans)
  end.
Definition Publish (ev : StateEvent) (b : Broker) : option Broker :=
  chans ← publish_to ev (elements (bk_subs b)) (bk_chans b); Some (mkBroker (bk_subs b) chans (bk_next b)).
(** A receive: an event, or the end of a closed and empty channel; an empty open
    channel is not ready. *)
Definition receive (id : nat) (b : Broker) : option (option StateEvent * Broker) :=
  match bk_chans b !! id with
  | Some (ev :: buf, open) => Some (Some ev, mkBroker (bk_subs b) (<[id := (buf, open)]> (bk_chans b)) (bk_next b))
  | Some ([], false) => Some (None, b)
  | _ => None
  end.
