(* ===== verification/Ws.v ===== *)
(** * The WebSocket hub

    server/internal/api/ws.go and ws_envelope.go.  A connection (one browser tab)
    has a read pump; every stream it opens has a goroutine.  The hub is a table of
    such threads over the shared registry, broker and contexts; a thread's program
    counter says which of its locked regions runs next, and [tstep] runs one.
    What the outside decides (a frame, a provider's answer, which branch of a
    select is taken) is the step's input. *)
From S2P Require Import Prelude GoStd AuthStore Rbac Redact Middleware Streams.

(** ** Frames (ws_envelope.go) *)

Definition wsVersion : Z := 1.
Definition wsTypeSubscribe := "subscribe".
Definition wsTypeUnsubscribe := "unsubscribe".
Definition wsTypeData := "data".
Definition wsTypeAck := "ack".
Definition wsTypeError := "error".
Definition wsTypeEnd := "end".
Definition wsChannelStats := "stats".
Definition wsChannelLogs := "logs".
Definition wsChannelEvents := "events".
Definition wsChannelExec := "exec".
Definition wsErrSuperseded := "superseded".
Definition wsErrForbidden := "forbidden".
Definition wsErrNotFound := "not_found".
Definition wsErrUnsupported := "unsupported".
Definition wsErrSessionRevoked := "session_revoked".
Definition wsErrBadRequest := "bad_request".
Definition wsErrAALRequired := "aal_required".

Record wsRef := mkWsRef { wr_Kind : string; wr_ID : string }.
Record wsEnvelope := mkEnv {
  ev_V : Z; ev_Type : string; ev_Channel : string; ev_SubID : string; ev_HostID : string;
  ev_Ref : option wsRef; ev_TS : string; ev_Payload : option (gmap string json) }.

(** ** What the hub knows of workloads and their providers *)

Definition KindDocker := "docker".
Definition KindSwarm := "swarm".
Definition KindKubernetes := "kubernetes".
Record Workload := mkWorkload { w_ID : string; w_Name : string; w_Kind : string; w_ProviderID : string }.
(** provider/capability.go: the bits the hub asks for. *)
Definition CapStats : Z := 2 ^ 3.
Definition CapExec : Z := 2 ^ 8.
Definition CapReadOnly : Z := 2 ^ 13.
Definition cap_Has (c want : Z) : bool := Z.land c want =? want.
Definition DefaultHostID := "local".

Record LogOptions := mkLogOptions { lo_Follow : bool; lo_Tail : Z; lo_Container : string }.
Record ExecOptions := mkExecOptions {
  xo_Cmd : list string; xo_Tty : bool; xo_Env : list string; xo_WorkingDir : string; xo_Container : string }.
Inductive stream_err := SUnsupported | SNotFound | SOther.

(** The calls the hub makes on providers. *)
Inductive provider_call :=
| CStats (id : string)
| CLogs (id : string) (opts : LogOptions)
| CInspect (id : string)                             (* ContainerHasTTY, of the Docker provider *)
| CExec (id : string) (opts : ExecOptions)
| CStdin (subID : string) (data : string)
| CResize (subID : string) (rows cols : Z).

(** ** State *)

Record wsSub := mkSub { sb_channel : string; sb_cancel : ctx }.
Record wsConn := mkConn {
  wc_user : User; wc_sessionKey : string; wc_subs : gmap string wsSub; wc_exec : gset string;
  wc_ctx : ctx; wc_frames : list wsEnvelope }.

(** What a thread does after [ReleaseStats]. *)
Inductive after_release :=
| ThenRead
| ThenError (subID : string) (e : stream_err)
| ThenRemove (subID : string).

Inductive pc : Type :=
(* the read pump *)
| PRead
| PAcquire (env : wsEnvelope) (hostID : string) (wl : Workload) (obj : nat)
| PRegister (env : wsEnvelope) (hostID : string) (wl : Workload) (streamCtx : ctx)
| PStats (env : wsEnvelope) (hostID : string) (wl : Workload) (subCtx : ctx)
| PLogs (env : wsEnvelope) (hostID : string) (wl : Workload) (opts : LogOptions) (subCtx : ctx)
| PExec (env : wsEnvelope) (hostID : string) (wl : Workload) (opts : ExecOptions) (subCtx : ctx)
| PEvents (env : wsEnvelope) (subCtx : ctx)
| PTearSubs
| PTearSession
| PTearObj (obj : nat)
| PClosed
(* ReleaseStats, on either side of its first lock *)
| PRelease (subID : string) (k : after_release)
| PReleaseObj (obj : nat) (subID : string) (k : after_release)
(* the goroutine of a stream *)
| GStats (subID hostID wlID : string) (latest : option (gmap string json)) (subCtx : ctx)
| GLogs (subID hostID : string) (ref : wsRef) (subCtx : ctx)
| GExec (subID hostID : string) (ref : wsRef) (subCtx : ctx)
| GExecDelete (subID : string)
| GEvents (subID : string) (ch : nat) (subCtx : ctx)
| GUnsub (subID : string) (ch : nat)
| GRemove (subID : string)
| GDone.
Record thread := mkThread { th_conn : nat; th_pc : pc }.

Record hub := mkHub {
  hb_db : db; hb_ctxs : contexts; hb_reg : StreamRegistry; hb_broker : Broker;
  hb_conns : gmap nat wsConn; hb_threads : gmap nat thread; hb_next : nat;
  hb_log : list (nat * provider_call) }.

Definition set_ctxs (c : contexts) (h : hub) : hub :=
  mkHub (hb_db h) c (hb_reg h) (hb_broker h) (hb_conns h) (hb_threads h) (hb_next h) (hb_log h).
Definition set_reg (r : StreamRegistry) (h : hub) : hub :=
  mkHub (hb_db h) (hb_ctxs h) r (hb_broker h) (hb_conns h) (hb_threads h) (hb_next h) (hb_log h).
Definition set_broker (b : Broker) (h : hub) : hub :=
  mkHub (hb_db h) (hb_ctxs h) (hb_reg h) b (hb_conns h) (hb_threads h) (hb_next h) (hb_log h).
Definition on_hub_db (f : db -> db) (h : hub) : hub :=
  mkHub (f (hb_db h)) (hb_ctxs h) (hb_reg h) (hb_broker h) (hb_conns h) (hb_threads h) (hb_next h) (hb_log h).
Definition on_conn (c : nat) (f : wsConn -> wsConn) (h : hub) : hub :=
  mkHub (hb_db h) (hb_ctxs h) (hb_reg h) (hb_broker h) (alter f c (hb_conns h)) (hb_threads h) (hb_next h) (hb_log h).
Definition goto (tid : nat) (conn : nat) (p : pc) (h : hub) : hub :=
  mkHub (hb_db h) (hb_ctxs h) (hb_reg h) (hb_broker h) (hb_conns h) (<[tid := mkThread conn p]> (hb_threads h))
    (hb_next h) (hb_log h).
(** [go func() { ... }()] *)
Definition spawn (conn : nat) (p : pc) (h : hub) : hub :=
  mkHub (hb_db h) (hb_ctxs h) (hb_reg h) (hb_broker h) (hb_conns h)
    (<[hb_next h := mkThread conn p]> (hb_threads h)) (S (hb_next h)) (hb_log h).
Definition log_call (conn : nat) (c : provider_call) (h : hub) : hub :=
  mkHub (hb_db h) (hb_ctxs h) (hb_reg h) (hb_broker h) (hb_conns h) (hb_threads h) (hb_next h)
    (hb_log h ++ [(conn, c)]).

Definition set_subs (f : gmap string wsSub -> gmap string wsSub) (c : wsConn) : wsConn :=
  mkConn (wc_user c) (wc_sessionKey c) (f (wc_subs c)) (wc_exec c) (wc_ctx c) (wc_frames c).
Definition set_exec (f : gset string -> gset string) (c : wsConn) : wsConn :=
  mkConn (wc_user c) (wc_sessionKey c) (wc_subs c) (f (wc_exec c)) (wc_ctx c) (wc_frames c).
Definition add_frame (e : wsEnvelope) (c : wsConn) : wsConn :=
  mkConn (wc_user c) (wc_sessionKey c) (wc_subs c) (wc_exec c) (wc_ctx c) (wc_frames c ++ [e]).

(** ** Frame writers *)

(** A write under a context that is done fails; its error is dropped. *)
Definition writeFrame (conn : nat) (e : wsEnvelope) (h : hub) : hub :=
  match hb_conns h !! conn with
  | Some c => if live (hb_ctxs h) (wc_ctx c) then on_conn conn (add_frame e) h else h
  | None => h
  end.
Definition sendAck (conn : nat) (channel subID hostID : string) : hub -> hub :=
  writeFrame conn (mkEnv wsVersion wsTypeAck channel subID hostID None "" None).
Definition sendEnd (conn : nat) (channel subID : string) : hub -> hub :=
  writeFrame conn (mkEnv wsVersion wsTypeEnd channel subID "" None "" None).
Definition sendError (conn : nat) (channel subID code msg : string) : hub -> hub :=
  writeFrame conn (mkEnv wsVersion wsTypeError channel subID "" None ""
    (Some (<["code" := JString code]> (<["message" := JString msg]> ∅)))).
Definition sendStreamError (conn : nat) (channel subID : string) (e : stream_err) : hub -> hub :=
  sendError conn channel subID
    (match e with SUnsupported => wsErrUnsupported | SNotFound => wsErrNotFound | SOther => wsErrBadRequest end)
    "Stream error.".
Definition sendData (conn : nat) (channel subID hostID : string) (ref : option wsRef) (ts : string)
    (payload : gmap string json) : hub -> hub :=
  writeFrame conn (mkEnv wsVersion wsTypeData channel subID hostID ref ts (Some payload)).

(** ** Subscriptions *)

(** [registerSub]: [None] when the id is in use. *)
Definition registerSub (conn : nat) (subID channel : string) (c : ctx) (h : hub) : option hub :=
  match hb_conns h !! conn with
  | Some w => match wc_subs w !! subID with
              | Some _ => None
              | None => Some (on_conn conn (set_subs <[subID := mkSub channel c]>) h)
              end
  | None => None
  end.
Definition removeSub (conn : nat) (subID : string) : hub -> hub := on_conn conn (set_subs (delete subID)).
Definition hub_cancel (c : ctx) (h : hub) : hub := set_ctxs (cancel c (hb_ctxs h)) h.
Definition cancel_all (l : list ctx) (h : hub) : hub := foldr hub_cancel h l.
Definition newCtx (parent : ctx) (h : hub) : ctx * hub :=
  let (c, cs) := WithCancel parent (hb_ctxs h) in (c, set_ctxs cs h).

(** [sessionLive]. *)
Definition sessionLive (d : db) (now : Z) (key : string) : bool :=
  match GetSession key d with
  | Ok s => negb (bool_decide (is_Some (ss_RevokedAt s)) || (ss_ExpiresAt s <? now))
  | Err _ => false
  end.

(** ** Options of the client's payload *)

Definition toStringSlice (v : option json) : list string :=
  match v with
  | Some (JList l) => omap (fun e => match e with JString s => Some s | _ => None end) l
  | _ => []
  end.
Definition as_string (v : option json) (d : string) : string := match v with Some (JString s) => s | _ => d end.
Definition log_options (env : wsEnvelope) : LogOptions :=
  let p := default ∅ (ev_Payload env) in
  mkLogOptions true (match p !! "tail" with Some (JNum z) => z | _ => 200 end) (as_string (p !! "container") "").
Definition exec_options (env : wsEnvelope) : ExecOptions :=
  let p := default ∅ (ev_Payload env) in
  mkExecOptions
    (match toStringSlice (p !! "cmd") with [] => ["/bin/sh"] | l => l end)
    (match p !! "tty" with Some (JBool b) => b | _ => true end)
    (toStringSlice (p !! "env")) (as_string (p !! "workingDir") "") (as_string (p !! "container") "").
Definition refKind (k : string) : string :=
  if bool_decide (k = KindSwarm) then "task" else if bool_decide (k = KindKubernetes) then "pod" else "container".

(** ** Handling a client frame: up to the first lock *)

(** What the cache and the provider registry answer for a workload: it, with the
    capabilities of its provider ([resolveWorkload]). *)
Abbreviation lookup := (option (Workload * Z)) (only parsing).

Section Pump.
Context (tid conn : nat) (w : wsConn).

Definition refuse (env : wsEnvelope) (channel code msg : string) (h : hub) : hub :=
  goto tid conn PRead (sendError conn channel (ev_SubID env) code msg h).

Definition subscribeStats (env : wsEnvelope) (hostID : string) (ans : lookup) (h : hub) : hub :=
  if negb (Can (Some (wc_user w)) "docker.container.stats" GlobalScope)
  then refuse env wsChannelStats wsErrForbidden "Missing docker.container.stats." h
  else match ans with
  | None => refuse env wsChannelStats wsErrNotFound "Workload not found." h
  | Some (wl, caps) =>
      if negb (cap_Has caps CapStats)
      then refuse env wsChannelStats wsErrUnsupported "Stats unsupported for this orchestrator." h
      else let (o, r) := sessionFor (wc_sessionKey w) (hb_reg h) in
           goto tid conn (PAcquire env hostID wl o) (set_reg r h)
  end.

(** [subCtx, cancel := context.WithCancel(...)], then [registerSub]. *)
Definition register (env : wsEnvelope) (channel : string) (parent : ctx) (next : ctx -> pc) (h : hub) : hub :=
  let (c, h) := newCtx parent h in
  match registerSub conn (ev_SubID env) channel c h with
  | Some h => goto tid conn (next c) h
  | None => refuse env channel wsErrBadRequest "subId already in use." (hub_cancel c h)
  end.

Definition subscribeLogs (env : wsEnvelope) (hostID : string) (ans : lookup) (h : hub) : hub :=
  if negb (Can (Some (wc_user w)) "docker.container.logs" GlobalScope)
  then refuse env wsChannelLogs wsErrForbidden "Missing docker.container.logs." h
  else match ans with
  | None => refuse env wsChannelLogs wsErrNotFound "Workload not found." h
  | Some (wl, _) => register env wsChannelLogs (wc_ctx w) (PLogs env hostID wl (log_options env)) h
  end.

Definition subscribeEvents (env : wsEnvelope) (h : hub) : hub :=
  register env wsChannelEvents (wc_ctx w) (PEvents env) h.

Definition subscribeExec (env : wsEnvelope) (hostID : string) (ans : lookup) (h : hub) : hub :=
  if negb (Can (Some (wc_user w)) "docker.container.exec" GlobalScope)
  then refuse env wsChannelExec wsErrForbidden "Missing docker.container.exec." h
  else if StepUpRequired (hb_db h) (Some (wc_user w))
  then refuse env wsChannelExec wsErrAALRequired "Two-factor verification required to open a shell." h
  else match ans with
  | None => refuse env wsChannelExec wsErrNotFound "Workload not found." h
  | Some (wl, caps) =>
      if cap_Has caps CapReadOnly || negb (cap_Has caps CapExec)
      then refuse env wsChannelExec wsErrUnsupported "Exec unsupported for this orchestrator." h
      else register env wsChannelExec (wc_ctx w) (PExec env hostID wl (exec_options env)) h
  end.

Definition handleSubscribe (env : wsEnvelope) (ans : lookup) (h : hub) : hub :=
  let bad msg := refuse env (ev_Channel env) wsErrBadRequest msg h in
  if bool_decide (ev_SubID env = "") then bad "subscribe requires subId."
  else if bool_decide (ev_Channel env <> wsChannelEvents) && bool_decide (ev_Ref env = None)
  then bad "subscribe requires ref."
  else let hostID := if bool_decide (ev_HostID env = "") then DefaultHostID else ev_HostID env in
  if bool_decide (ev_Channel env = wsChannelStats) then subscribeStats env hostID ans h
  else if bool_decide (ev_Channel env = wsChannelLogs) then subscribeLogs env hostID ans h
  else if bool_decide (ev_Channel env = wsChannelEvents) then subscribeEvents env h
  else if bool_decide (ev_Channel env = wsChannelExec) then subscribeExec env hostID ans h
  else bad "Unknown channel.".

Definition handleUnsubscribe (env : wsEnvelope) (h : hub) : hub :=
  match wc_subs w !! ev_SubID env with
  | None => goto tid conn PRead h
  | Some sub =>
      let h := hub_cancel (sb_cancel sub) (removeSub conn (ev_SubID env) h) in
      if bool_decide (sb_channel sub = wsChannelStats)
      then goto tid conn (PRelease (ev_SubID env) ThenRead) h
      else goto tid conn PRead h
  end.

(** Keystrokes and window sizes for an exec stream ([uint16] keeps 16 bits). *)
Definition handleData (env : wsEnvelope) (h : hub) : hub :=
  let h := goto tid conn PRead h in
  if bool_decide (ev_Channel env <> wsChannelExec) then h
  else if bool_decide (ev_SubID env ∉ wc_exec w) then h
  else match ev_Payload env with
  | None => h
  | Some p =>
      let h := match p !! "stdin" with Some (JString s) => log_call conn (CStdin (ev_SubID env) s) h | _ => h end in
      match p !! "resize" with
      | Some (JObj fields) =>
          let num k := match (list_to_map fields : gmap string json) !! k with Some (JNum z) => z mod 65536 | _ => 0 end in
          log_call conn (CResize (ev_SubID env) (num "rows") (num "cols")) h
      | _ => h
      end
  end.

Definition dispatch (env : wsEnvelope) (ans : lookup) (h : hub) : hub :=
  if bool_decide (ev_Type env = wsTypeSubscribe) then handleSubscribe env ans h
  else if bool_decide (ev_Type env = wsTypeUnsubscribe) then handleUnsubscribe env h
  else if bool_decide (ev_Type env = wsTypeData) then handleData env h
  else refuse env (ev_Channel env) wsErrBadRequest "Unknown frame type." h.

(** The deferred tear-down starts by cancelling the connection. *)
Definition tear_down (h : hub) : hub := goto tid conn PTearSubs (hub_cancel (wc_ctx w) h).

(** One turn of [run]: a frame of a live session is dispatched. *)
Definition on_frame (now : Z) (env : wsEnvelope) (ans : lookup) (h : hub) : hub :=
  if sessionLive (hb_db h) now (wc_sessionKey w) then dispatch env ans h
  else tear_down (writeFrame conn (mkEnv wsVersion wsTypeError "" "" "" None ""
                    (Some (<["code" := JString wsErrSessionRevoked]> (<["message" := JString "Session revoked."]> ∅)))) h).
End Pump.

(** ** One step of a thread *)

Inductive input : Type :=
| IRun                                             (* nothing to choose *)
| IFrame (now : Z) (env : wsEnvelope) (ans : lookup)
| IReadError                                       (* the socket closed *)
| IAnswer (a : option stream_err) (now : Z)        (* of a provider: success or an error *)
| IDone                                            (* the branch of subCtx.Done() *)
| ISample (payload : gmap string json)
| ITick (ts : string)
| IChunk (ts : string) (payload : gmap string json)
| IEnd (last : option (string * gmap string json)) (* the stream's end *)
| IEvent (ts : string).

(** [auditExec]: the detail holds the command as it was sent. *)
Definition exec_audit (w : wsConn) (wl : Workload) (o : ExecOptions) (now : Z) : AuditEntry :=
  mkAudit now (u_ID (pr_User (wc_user w))) (u_Username (pr_User (wc_user w))) "" "docker.container.exec"
    (if bool_decide (w_Kind wl = KindKubernetes) then "pod" else "container") (w_ID wl) (w_Name wl) "" "" "success" 0
    (Some (JObj [("cmd", JList (JString <$> xo_Cmd o)); ("tty", JBool (xo_Tty o)); ("container", JString (xo_Container o))]))
    "".
Definition auditExec (w : wsConn) (wl : Workload) (o : ExecOptions) (now : Z) (h : hub) : hub :=
  if live (hb_ctxs h) (wc_ctx w) then on_hub_db (InsertAudit (exec_audit w wl o now)) h else h.

Definition event_payload (e : StateEvent) : gmap string json :=
  let p := <["action" := JString (se_Action e)]> (<["kind" := JString (se_Kind e)]> (<["id" := JString (se_ID e)]> ∅)) in
  match se_SnapshotDelta e with
  | Some d => <["snapshotDelta" := JObj (map_to_list d)]> p
  | None => p
  end.

Definition after (tid conn : nat) (k : after_release) (h : hub) : hub :=
  match k with
  | ThenRead => goto tid conn PRead h
  | ThenError subID e => goto tid conn PRead (sendStreamError conn wsChannelStats subID e h)
  | ThenRemove subID => goto tid conn (GRemove subID) h
  end.

(** Whether the container has a terminal is asked of the Docker provider only, whose
    workloads are of that kind. *)
Definition has_tty (conn : nat) (wl : Workload) (h : hub) : hub :=
  if bool_decide (w_Kind wl = KindDocker) then log_call conn (CInspect (w_ID wl)) h else h.

(** What an open of [p] on a provider leads to: its error, or its stream. *)
Definition pump_step (tid conn : nat) (w : wsConn) (p : pc) (i : input) (h : hub) : option hub :=
  match p, i with
  | PRead, IFrame now env ans => Some (on_frame tid conn w now env ans h)
  | PRead, IReadError => Some (tear_down tid conn w h)
  | PAcquire env hostID wl o, IRun =>
      let '(old, c, r, cs) := AcquireStats_locked (wc_ctx w) o (ev_SubID env) (hb_reg h) (hb_ctxs h) in
      let h := set_ctxs cs (set_reg r h) in
      let h := match old with
               | Some s => removeSub conn s (sendEnd conn wsChannelStats s
                             (sendError conn wsChannelStats s wsErrSuperseded "Superseded by a new stats subscription." h))
               | None => h
               end in
      Some (goto tid conn (PRegister env hostID wl c) h)
  | PRegister env hostID wl c, IRun => Some (register tid conn env wsChannelStats c (PStats env hostID wl) h)
  | PStats env hostID wl c, IAnswer a _ =>
      let h := log_call conn (CStats (w_ID wl)) h in
      Some match a with
           | Some e => goto tid conn (PRelease (ev_SubID env) (ThenError (ev_SubID env) e))
                         (removeSub conn (ev_SubID env) (hub_cancel c h))
           | None => goto tid conn PRead (spawn conn (GStats (ev_SubID env) hostID (w_ID wl) None c)
                       (sendAck conn wsChannelStats (ev_SubID env) hostID h))
           end
  | PLogs env hostID wl opts c, IAnswer a _ =>
      let h := log_call conn (CLogs (w_ID wl) opts) h in
      Some match a with
           | Some e => goto tid conn PRead (sendStreamError conn wsChannelLogs (ev_SubID env) e
                         (removeSub conn (ev_SubID env) (hub_cancel c h)))
           | None => goto tid conn PRead (spawn conn (GLogs (ev_SubID env) hostID (mkWsRef (refKind (w_Kind wl)) (w_ID wl)) c)
                       (has_tty conn wl (sendAck conn wsChannelLogs (ev_SubID env) hostID h)))
           end
  | PExec env hostID wl opts c, IAnswer a now =>
      let h := log_call conn (CExec (w_ID wl) opts) h in
      Some match a with
           | Some e => goto tid conn PRead (sendStreamError conn wsChannelExec (ev_SubID env) e
                         (removeSub conn (ev_SubID env) (hub_cancel c h)))
           | None => goto tid conn PRead (spawn conn (GExec (ev_SubID env) hostID (mkWsRef (refKind (w_Kind wl)) (w_ID wl)) c)
                       (on_conn conn (set_exec ({[ev_SubID env]} ∪.))
                         (sendAck conn wsChannelExec (ev_SubID env) hostID (auditExec w wl opts now h))))
           end
  | PEvents env c, IRun =>
      let (ch, b) := Subscribe (hb_broker h) in
      Some (goto tid conn PRead (spawn conn (GEvents (ev_SubID env) ch c)
              (sendAck conn wsChannelEvents (ev_SubID env) (ev_HostID env) (set_broker b h))))
  | PTearSubs, IRun =>
      Some (goto tid conn PTearSession
              (cancel_all (sb_cancel <$> (map_to_list (wc_subs w)).*2) (on_conn conn (set_subs (fun _ => ∅)) h)))
  | PTearSession, IRun =>
      let (o, r) := CloseSession_forget (wc_sessionKey w) (hb_reg h) in
      Some (goto tid conn (match o with Some o => PTearObj o | None => PClosed end) (set_reg r h))
  | PTearObj o, IRun =>
      let (r, cs) := CloseSession_locked o (hb_reg h) (hb_ctxs h) in
      Some (goto tid conn PClosed (set_ctxs cs (set_reg r h)))
  | _, _ => None
  end.

Definition stream_step (tid conn : nat) (w : wsConn) (p : pc) (i : input) (h : hub) : option hub :=
  match p, i with
  | PRelease s k, IRun =>
      let (o, r) := sessionFor (wc_sessionKey w) (hb_reg h) in
      Some (goto tid conn (PReleaseObj o s k) (set_reg r h))
  | PReleaseObj o s k, IRun =>
      let (r, cs) := ReleaseStats_locked o s (hb_reg h) (hb_ctxs h) in
      Some (after tid conn k (set_ctxs cs (set_reg r h)))
  | GStats s hostID wlID latest c, IDone =>
      if live (hb_ctxs h) c then None
      else Some (goto tid conn (PRelease s (ThenRemove s)) (sendEnd conn wsChannelStats s h))
  | GStats s hostID wlID latest c, IEnd _ =>
      Some (goto tid conn (PRelease s (ThenRemove s)) (sendEnd conn wsChannelStats s h))
  | GStats s hostID wlID latest c, ISample p => Some (goto tid conn (GStats s hostID wlID (Some p) c) h)
  | GStats s hostID wlID latest c, ITick ts =>
      Some match latest with
           | None => h
           | Some p => sendData conn wsChannelStats s hostID (Some (mkWsRef "container" wlID)) ts p h
           end
  | GLogs s hostID ref c, IChunk ts p =>
      Some (if live (hb_ctxs h) c then sendData conn wsChannelLogs s hostID (Some ref) ts p h else h)
  | GLogs s hostID ref c, IEnd _ => Some (goto tid conn (GRemove s) (sendEnd conn wsChannelLogs s h))
  | GExec s hostID ref c, IDone =>
      if live (hb_ctxs h) c then None else Some (goto tid conn (GExecDelete s) h)
  | GExec s hostID ref c, IChunk ts p => Some (sendData conn wsChannelExec s hostID (Some ref) ts p h)
  | GExec s hostID ref c, IEnd (Some (ts, p)) =>
      Some (goto tid conn (GExecDelete s) (sendEnd conn wsChannelExec s
              (sendData conn wsChannelExec s hostID (Some ref) ts p h)))
  | GExecDelete s, IRun => Some (goto tid conn (GRemove s) (on_conn conn (set_exec (fun x => x ∖ {[s]})) h))
  | GEvents s ch c, IDone =>
      if live (hb_ctxs h) c then None
      else Some (goto tid conn (GUnsub s ch) (sendEnd conn wsChannelEvents s h))
  | GEvents s ch c, IEvent ts =>
      '(r, b) ← receive ch (hb_broker h);
      let h := set_broker b h in
      Some match r with
           | Some e => sendData conn wsChannelEvents s (se_HostID e) None ts (event_payload e) h
           | None => goto tid conn (GUnsub s ch) (sendEnd conn wsChannelEvents s h)
           end
  | GUnsub s ch, IRun =>
      b ← Unsubscribe ch (hb_broker h);
      Some (goto tid conn (GRemove s) (set_broker b h))
  | GRemove s, IRun => Some (goto tid conn GDone (removeSub conn s h))
  | _, _ => None
  end.

Definition tstep (tid : nat) (i : input) (h : hub) : option hub :=
  t ← hb_threads h !! tid;
  w ← hb_conns h !! th_conn t;
  match pump_step tid (th_conn t) w (th_pc t) i h with
  | Some h' => Some h'
  | None => stream_step tid (th_conn t) w (th_pc t) i h
  end.

(** ** The server around the threads *)

(** [HandleWS]: [accepted] is whether the upgrade succeeds, [origin_ok] what
    [CheckOrigin] answers. *)
Definition HandleWS (r : request) (origin_ok accepted : bool) (h : hub) : option APIError * hub :=
  match rq_User r with
  | None => (Some ErrUnauthenticated, h)
  | Some u =>
      if negb origin_ok then (Some (Errorf ErrCSRFFailed "Origin not allowed for WebSocket."), h)
      else if negb accepted then (None, h)
      else
        let (c, h) := newCtx [] h in
        let conn := hb_next h in
        (None, mkHub (hb_db h) (hb_ctxs h) (hb_reg h) (hb_broker h)
           (<[conn := mkConn u (pr_SessionHashID u) ∅ ∅ c []]> (hb_conns h))
           (<[conn := mkThread conn PRead]> (hb_threads h)) (S conn) (hb_log h))
  end.

Inductive label : Type :=
| LUpgrade (r : request) (origin_ok accepted : bool)
| LStep (tid : nat) (i : input)
| LPublish (ev : StateEvent)
| LDb (d : db).                          (* another part of the server *)

Definition hub_step (l : label) (h : hub) : option hub :=
  match l with
  | LUpgrade r o a => Some (HandleWS r o a h).2
  | LStep tid i => tstep tid i h
  | LPublish ev => b ← Publish ev (hb_broker h); Some (set_broker b h)
  | LDb d => Some (on_hub_db (fun _ => d) h)
  end.
Definition new_hub (d : db) : hub :=
  mkHub d (mkCtxs ∅ 0) NewRegistry NewBroker ∅ ∅ 0 [].

(** The hubs a sequence of steps leads to, last step first, every step [l] from
    [h] being one that [ok l h] allows. *)
Inductive run (ok : label -> hub -> Prop) (d : db) : list label -> hub -> Prop :=
| run_nil : run ok d [] (new_hub d)
| run_snoc ls l h h' : run ok d ls h -> ok l h -> hub_step l h = Some h' -> run ok d (l :: ls) h'.

(** The same, executed: first step first. *)
Fixpoint execute (okb : label -> hub -> bool) (ls : list label) (h : hub) : option hub :=
  match ls with
  | [] => Some h
  | l :: ls => if okb l h then h' ← hub_step l h; execute okb ls h' else None
  end.
