(* ===== verification/WsFacts.v ===== *)
(** * The WebSocket hub: what a step leaves alone

    [frame tid h h']: whatever [tid] did, the other threads are where they were,
    no connection changed its user, session or context, and what was cancelled
    still is.  Every step of a thread is one; the rules are in the hint database
    [ws]. *)
From S2P Require Import Prelude GoStd AuthStore Rbac Redact Middleware Streams Ws.

Create HintDb ws.

Lemma run_execute ok okb d ls : (forall l h, okb l h = true -> ok l h) ->
  forall ls0 h h', run ok d ls0 h -> execute okb ls h = Some h' -> run ok d (rev ls ++ ls0) h'.
Proof.
  intros Hok. induction ls as [|l ls IH]; intros ls0 h h' Hr; simpl; [by intros [= <-]|].
  destruct (okb l h) eqn:E; [|done]. destruct (hub_step l h) as [h1|] eqn:E1; simpl; [|done].
  intros H. rewrite <- app_assoc. eapply IH; [|done]. simpl. econstructor; eauto.
Qed.

(** ** Frames *)

Definition conn_id (w : wsConn) : User * string * ctx := (wc_user w, wc_sessionKey w, wc_ctx w).

Record frame (tid : nat) (h h' : hub) : Prop := {
  fr_conns : forall c, conn_id <$> hb_conns h' !! c = conn_id <$> hb_conns h !! c;
  fr_threads : forall t, t <> tid -> (t < hb_next h)%nat -> hb_threads h' !! t = hb_threads h !! t;
  fr_next : (hb_next h <= hb_next h')%nat;
  fr_cancelled : cx_cancelled (hb_ctxs h) ⊆ cx_cancelled (hb_ctxs h') }.

#[export] Instance frame_preorder tid : PreOrder (frame tid).
Proof.
  split; [by constructor|]. intros h1 h2 h3 [A B C D] [A' B' C' D']. constructor; [..|lia|set_solver].
  - intros c. by rewrite A', A.
  - intros t Ht Hn. rewrite B' by (done || lia). by apply B.
Qed.

Lemma frame_ctxs tid cs h : cx_cancelled (hb_ctxs h) ⊆ cx_cancelled cs -> frame tid h (set_ctxs cs h).
Proof. by constructor. Qed.
Lemma frame_reg tid r h : frame tid h (set_reg r h).
Proof. by constructor. Qed.
Lemma frame_broker tid b h : frame tid h (set_broker b h).
Proof. by constructor. Qed.
Lemma frame_db tid f h : frame tid h (on_hub_db f h).
Proof. by constructor. Qed.
Lemma frame_log tid c x h : frame tid h (log_call c x h).
Proof. by constructor. Qed.
Lemma frame_goto tid c p h : frame tid h (goto tid c p h).
Proof. constructor; simpl; try done. intros t Ht _. by rewrite lookup_insert_ne. Qed.
Lemma frame_spawn tid c p h : frame tid h (spawn c p h).
Proof. constructor; simpl; try done; [|lia]. intros t _ Ht. rewrite lookup_insert_ne; [done|lia]. Qed.
Lemma frame_conn tid c f h : (forall w, conn_id (f w) = conn_id w) -> frame tid h (on_conn c f h).
Proof.
  intros Hf. constructor; simpl; try done. intros k. destruct (decide (k = c)) as [->|Hk].
  - rewrite lookup_alter_eq. destruct (hb_conns h !! c); simpl; [by rewrite Hf|done].
  - by rewrite lookup_alter_ne.
Qed.
#[export] Hint Resolve frame_reg frame_broker frame_db frame_log frame_goto frame_spawn frame_ctxs frame_conn : ws.

Lemma cancel_mono c cs : cx_cancelled cs ⊆ cx_cancelled (cancel c cs).
Proof. destruct c; simpl; set_solver. Qed.
Lemma frame_cancel tid c h : frame tid h (hub_cancel c h).
Proof. apply frame_ctxs, cancel_mono. Qed.
Lemma frame_cancel_all tid l h : frame tid h (cancel_all l h).
Proof. induction l as [|c l IH]; simpl; [done|]. etrans; [apply IH|apply frame_cancel]. Qed.
Lemma frame_write tid c e h : frame tid h (writeFrame c e h).
Proof.
  unfold writeFrame. destruct (hb_conns h !! c) as [w|]; [|done]. destruct (live _ _); [|done]. by apply frame_conn.
Qed.
Lemma frame_remove tid c s h : frame tid h (removeSub c s h).
Proof. by apply frame_conn. Qed.
Lemma frame_audit tid w wl o now h : frame tid h (auditExec w wl o now h).
Proof. unfold auditExec. destruct (live _ _); auto with ws. done. Qed.
Lemma frame_tty tid c wl h : frame tid h (has_tty c wl h).
Proof. unfold has_tty. case_bool_decide; auto with ws. done. Qed.
#[export] Hint Resolve frame_cancel frame_cancel_all frame_write frame_remove frame_audit frame_tty : ws.

(** One operation after another. *)
Ltac frames :=
  repeat match goal with
  | |- frame ?t ?h ?h => reflexivity
  | |- frame _ _ (match ?x with _ => _ end) => destruct x
  | |- frame _ _ (let (_, _) := ?x in _) => destruct x
  | |- frame ?t ?h (goto ?t ?c ?p ?x) => transitivity x; [|apply frame_goto]
  | |- frame ?t ?h (?f ?x) => first [solve [eauto with ws]|transitivity x; [|solve [eauto with ws]]]
  end.

Lemma acquire_mono parent o s r cs : cx_cancelled cs ⊆ cx_cancelled (AcquireStats_locked parent o s r cs).2.
Proof.
  unfold AcquireStats_locked. destruct (active o r) as [a|]; simpl; [|done].
  pose proof (cancel_mono (sh_ctx a) cs). destruct (cancel _ _) eqn:E. simpl in *. set_solver.
Qed.
Lemma release_mono o s r cs : cx_cancelled cs ⊆ cx_cancelled (ReleaseStats_locked o s r cs).2.
Proof.
  unfold ReleaseStats_locked. destruct (active o r) as [a|]; [|done]. case_bool_decide; [|done].
  apply cancel_mono.
Qed.
Lemma close_mono o r cs : cx_cancelled cs ⊆ cx_cancelled (CloseSession_locked o r cs).2.
Proof. unfold CloseSession_locked. destruct (active o r) as [a|]; [|done]. apply cancel_mono. Qed.

Lemma frame_register tid conn env ch parent next h : frame tid h (register tid conn env ch parent next h).
Proof.
  unfold register. simpl. set (h1 := set_ctxs _ h). assert (frame tid h h1) as Hf by by apply frame_ctxs.
  destruct (registerSub _ _ _ _ h1) as [h2|] eqn:E.
  - unfold registerSub in E. destruct (hb_conns h1 !! conn) as [w|]; [|done].
    destruct (wc_subs w !! _); [done|]. injection E as <-.
    etrans; [|apply frame_goto]. etrans; [exact Hf|]. by apply frame_conn.
  - unfold refuse, sendError. frames. exact Hf.
Qed.
#[export] Hint Resolve frame_register : ws.

Lemma frame_dispatch tid conn w env ans h : frame tid h (dispatch tid conn w env ans h).
Proof.
  unfold dispatch, handleSubscribe, handleUnsubscribe, handleData, subscribeStats, subscribeLogs, subscribeEvents,
    subscribeExec, refuse, sendError. cbv zeta. frames.
Qed.
Lemma frame_on_frame tid conn w now env ans h : frame tid h (on_frame tid conn w now env ans h).
Proof. unfold on_frame, tear_down. frames. apply frame_dispatch. Qed.

Lemma pump_frame tid conn w p i h h' : pump_step tid conn w p i h = Some h' -> frame tid h h'.
Proof.
  destruct p, i; try done; cbn [pump_step].
  - intros [= <-]. apply frame_on_frame.
  - intros [= <-]. unfold tear_down. frames.
  - pose proof (acquire_mono (wc_ctx w) obj (ev_SubID env) (hb_reg h) (hb_ctxs h)) as Hm.
    destruct (AcquireStats_locked _ _ _ _ _) as [[[old c] r] cs]. intros [= <-].
    etrans; [|apply frame_goto]. assert (frame tid h (set_ctxs cs (set_reg r h))) by (by constructor).
    unfold sendEnd, sendError. frames.
  - intros [= <-]. auto with ws.
  - intros [= <-]. unfold sendStreamError, sendError, sendAck. frames.
  - intros [= <-]. unfold sendStreamError, sendError, sendAck. frames.
  - intros [= <-]. unfold sendStreamError, sendError, sendAck. frames.
  - destruct (Subscribe _) as [ch b]. intros [= <-]. unfold sendAck. frames.
  - intros [= <-]. frames.
  - destruct (CloseSession_forget _ _) as [o r]. intros [= <-]. frames.
  - pose proof (close_mono obj (hb_reg h) (hb_ctxs h)) as Hm. destruct (CloseSession_locked _ _ _) as [r cs].
    intros [= <-]. etrans; [|apply frame_goto]. by constructor.
Qed.

Lemma frame_after tid conn k h : frame tid h (after tid conn k h).
Proof. unfold after, sendStreamError, sendError. destruct k; frames. Qed.
Lemma stream_frame tid conn w p i h h' : stream_step tid conn w p i h = Some h' -> frame tid h h'.
Proof.
  destruct p, i; try done; cbn [stream_step].
  all: try (destruct (live _ _) eqn:?; [discriminate|]); unfold sendEnd, sendData.
  all: try (intros [= <-]; frames; fail).
  - destruct (sessionFor _ _) as [o r]. intros [= <-]. frames.
  - pose proof (release_mono obj subID (hb_reg h) (hb_ctxs h)) as Hm.
    destruct (ReleaseStats_locked _ _ _ _) as [r cs]. intros [= <-].
    etrans; [|apply frame_after]. by constructor.
  - destruct last0 as [[ts p]|]; [|done]. intros [= <-]. frames.
  - destruct (receive _ _) as [[[e|] b]|]; simpl; [..|done]; intros [= <-]; frames.
  - destruct (Unsubscribe _ _) as [b|]; simpl; [|done]. intros [= <-]. frames.
Qed.

Lemma tstep_inv tid i h h' : tstep tid i h = Some h' -> exists t w,
  hb_threads h !! tid = Some t /\ hb_conns h !! th_conn t = Some w /\
  (pump_step tid (th_conn t) w (th_pc t) i h = Some h' \/ stream_step tid (th_conn t) w (th_pc t) i h = Some h').
Proof.
  unfold tstep. destruct (hb_threads h !! tid) as [t|] eqn:Ht; simpl; [|done].
  destruct (hb_conns h !! th_conn t) as [w|] eqn:Hw; simpl; [|done]. intros H. exists t, w.
  destruct (pump_step _ _ _ _ _ _) eqn:E; [injection H as ->|]; auto.
Qed.
Lemma tstep_frame tid i h h' : tstep tid i h = Some h' -> frame tid h h'.
Proof. intros (t & w & _ & _ & [H%pump_frame|H%stream_frame])%tstep_inv; done. Qed.

(** ** What writing frames, and the like, leaves alone *)

Definition conn_core (w : wsConn) : User * string * ctx * gset string := (conn_id w, wc_exec w).
Record side (h h' : hub) : Prop := {
  sd_reg : hb_reg h = hb_reg h'; sd_ctxs : hb_ctxs h = hb_ctxs h'; sd_broker : hb_broker h = hb_broker h';
  sd_threads : hb_threads h = hb_threads h'; sd_next : hb_next h = hb_next h'; sd_log : hb_log h = hb_log h';
  sd_conns : forall c, conn_core <$> hb_conns h !! c = conn_core <$> hb_conns h' !! c }.

#[export] Instance side_equiv : Equivalence side.
Proof.
  split.
  - by constructor.
  - intros h h' []. by constructor.
  - intros h1 h2 h3 [] []. constructor; try congruence; intros c; congruence.
Qed.

Ltac side_congr := intros ? ? []; constructor; simpl; congruence || done.
#[export] Instance goto_side tid c p : Proper (side ==> side) (goto tid c p).
Proof. side_congr. Qed.
#[export] Instance spawn_side c p : Proper (side ==> side) (spawn c p).
Proof. side_congr. Qed.
#[export] Instance set_reg_side r : Proper (side ==> side) (set_reg r).
Proof. side_congr. Qed.
#[export] Instance set_ctxs_side cs : Proper (side ==> side) (set_ctxs cs).
Proof. side_congr. Qed.
#[export] Instance set_broker_side b : Proper (side ==> side) (set_broker b).
Proof. side_congr. Qed.
#[export] Instance log_call_side c x : Proper (side ==> side) (log_call c x).
Proof. side_congr. Qed.
#[export] Instance hub_cancel_side c : Proper (side ==> side) (hub_cancel c).
Proof. side_congr. Qed.
#[export] Instance cancel_all_side l : Proper (side ==> side) (cancel_all l).
Proof. induction l as [|c l IH]; intros h h' H; [exact H|]. apply (hub_cancel_side c), IH, H. Qed.
Lemma core_alter c f (m : gmap nat wsConn) k : (forall w, conn_core (f w) = conn_core w) ->
  conn_core <$> alter f c m !! k = conn_core <$> m !! k.
Proof.
  intros Hf. destruct (decide (k = c)) as [->|Hk].
  - rewrite lookup_alter_eq. destruct (m !! c); simpl; [by rewrite Hf|done].
  - by rewrite lookup_alter_ne.
Qed.
#[export] Instance exec_side c f : Proper (side ==> side) (on_conn c (set_exec f)).
Proof.
  intros h h' []. constructor; simpl; try done. intros k. specialize (sd_conns0 k).
  destruct (decide (k = c)) as [->|Hk]; [rewrite !lookup_alter_eq|by rewrite !lookup_alter_ne].
  revert sd_conns0. unfold conn_core, conn_id.
  destruct (hb_conns h !! c) as [[]|], (hb_conns h' !! c) as [[]|]; simpl; [intros [=]; by subst|done..].
Qed.
Lemma on_conn_id c f h : (forall w, conn_core (f w) = conn_core w) -> side (on_conn c f h) h.
Proof. intros Hf. constructor; simpl; try done. intros k. by apply core_alter. Qed.
Lemma remove_side c s h : side (removeSub c s h) h.
Proof. by apply on_conn_id. Qed.
Lemma subs_side c f h : side (on_conn c (set_subs f) h) h.
Proof. by apply on_conn_id. Qed.
Lemma write_side c e h : side (writeFrame c e h) h.
Proof.
  unfold writeFrame. destruct (hb_conns h !! c) as [w|]; [|done]. destruct (live _ _); [|done]. by apply on_conn_id.
Qed.
Lemma error_side c ch s code m h : side (sendError c ch s code m h) h.
Proof. apply write_side. Qed.
Lemma serror_side c ch s e h : side (sendStreamError c ch s e h) h.
Proof. apply write_side. Qed.
Lemma end_side c ch s h : side (sendEnd c ch s h) h.
Proof. apply write_side. Qed.
Lemma ack_side c ch s i h : side (sendAck c ch s i h) h.
Proof. apply write_side. Qed.
Lemma data_side c ch s i r ts p h : side (sendData c ch s i r ts p h) h.
Proof. apply write_side. Qed.
Lemma audit_side w wl o now h : side (auditExec w wl o now h) h.
Proof. unfold auditExec. destruct (live _ _); by constructor. Qed.

(** Drop every such operation of the goal. *)
Ltac core := repeat first
  [rewrite remove_side|rewrite subs_side|rewrite ack_side|rewrite end_side|rewrite error_side|rewrite serror_side
  |rewrite data_side|rewrite audit_side].

(** A statement about the core of the hub. *)
Lemma register_cases (Q : hub -> Prop) tid conn env ch parent next h : Proper (side ==> iff) Q ->
  (let c := cx_next (hb_ctxs h) :: parent in
   let h1 := set_ctxs (mkCtxs (cx_cancelled (hb_ctxs h)) (S (cx_next (hb_ctxs h)))) h in
   Q (goto tid conn (next c) h1) /\ Q (goto tid conn PRead (hub_cancel c h1))) ->
  Q (register tid conn env ch parent next h).
Proof.
  intros HQ [H1 H2]. unfold register. simpl. cbv zeta in H1, H2. set (h1 := set_ctxs _ h) in *.
  destruct (registerSub _ _ _ _ h1) as [h2|] eqn:E.
  - unfold registerSub in E. destruct (hb_conns h1 !! conn) as [w|]; [|done].
    destruct (wc_subs w !! _); [done|]. injection E as <-. by rewrite subs_side.
  - unfold refuse. by rewrite error_side.
Qed.

(** ** What handling a frame comes to *)

(** Nothing but frames, subscriptions, contexts and the log of calls changed. *)
Record mild (h h' : hub) : Prop := {
  md_reg : hb_reg h' = hb_reg h; md_threads : hb_threads h' = hb_threads h; md_next : hb_next h' = hb_next h;
  md_cancelled : cx_cancelled (hb_ctxs h) ⊆ cx_cancelled (hb_ctxs h');
  md_ctx : (cx_next (hb_ctxs h) <= cx_next (hb_ctxs h'))%nat;
  md_conns : forall c, conn_core <$> hb_conns h' !! c = conn_core <$> hb_conns h !! c }.
#[export] Instance mild_preorder : PreOrder mild.
Proof.
  split; [by constructor|]. intros h1 h2 h3 [] []. constructor; try congruence; [set_solver|lia].
Qed.
Lemma side_mild h h' : side h' h -> mild h h'.
Proof. intros [? Hc ? ? ? ? ?]. constructor; rewrite ?Hc; done || congruence. Qed.
Lemma mild_cancel c h : mild h (hub_cancel c h).
Proof. destruct c as [|i c]; constructor; simpl; done || set_solver. Qed.
Lemma mild_log c x h : mild h (log_call c x h).
Proof. by constructor. Qed.

(** The keystrokes and window sizes a connection sends to its own shells. *)
Definition typing (w : wsConn) (conn : nat) (x : nat * provider_call) : Prop :=
  x.1 = conn /\ exists s, s ∈ wc_exec w /\ ((exists data, x.2 = CStdin s data) \/ exists r c, x.2 = CResize s r c).
Definition logs (L : nat * provider_call -> Prop) (h h' : hub) : Prop :=
  exists new, hb_log h' = hb_log h ++ new /\ Forall L new.
Lemma logs_nothing L h h' : hb_log h' = hb_log h -> logs L h h'.
Proof. intros E. exists []. by rewrite E, app_nil_r. Qed.
Lemma logs_one L c x h : L (c, x) -> logs L h (log_call c x h).
Proof. intros Hx. exists [(c, x)]. by split; [|constructor]. Qed.
#[export] Instance logs_trans L : Transitive (logs L).
Proof.
  intros h1 h2 h3 (n1 & E1 & F1) (n2 & E2 & F2). exists (n1 ++ n2). split; [by rewrite E2, E1, app_assoc|].
  by apply Forall_app.
Qed.

(** Where the read pump may be after a frame, with what was checked. *)
Inductive opens (w : wsConn) (d : db) : pc -> Prop :=
| opens_nothing : opens w d PRead
| opens_release s : opens w d (PRelease s ThenRead)
| opens_tear : opens w d PTearSubs
| opens_events env c : opens w d (PEvents env c)
| opens_logs env hid wl o c : Can (Some (wc_user w)) "docker.container.logs" GlobalScope = true ->
    opens w d (PLogs env hid wl o c)
| opens_exec env hid wl o c : Can (Some (wc_user w)) "docker.container.exec" GlobalScope = true ->
    StepUpRequired d (Some (wc_user w)) = false -> opens w d (PExec env hid wl o c).

Definition after_frame (tid conn : nat) (w : wsConn) (h h' : hub) : Prop :=
  exists h1 p, h' = goto tid conn p h1 /\ mild h h1 /\ opens w (hb_db h) p /\ logs (typing w conn) h h1.
Definition starts_stats (tid conn : nat) (w : wsConn) (env : wsEnvelope) (h h' : hub) : Prop :=
  exists hid wl o r, sessionFor (wc_sessionKey w) (hb_reg h) = (o, r) /\
    Can (Some (wc_user w)) "docker.container.stats" GlobalScope = true /\
    h' = goto tid conn (PAcquire env hid wl o) (set_reg r h).

Lemma after_read tid conn w h : after_frame tid conn w h (goto tid conn PRead h).
Proof. exists h, PRead. split; [done|]. split; [done|]. split; [constructor|by apply logs_nothing]. Qed.
Lemma refuse_after tid conn w env ch code m h h0 : mild h h0 -> hb_log h0 = hb_log h ->
  after_frame tid conn w h (refuse tid conn env ch code m h0).
Proof.
  intros Hm Hl. eexists _, PRead. split; [reflexivity|]. split; [|split; [constructor|]].
  - etrans; [exact Hm|]. apply side_mild, error_side.
  - apply logs_nothing. rewrite <- Hl. apply error_side.
Qed.
Lemma register_after tid conn w env ch parent next h : (forall c, opens w (hb_db h) (next c)) ->
  after_frame tid conn w h (register tid conn env ch parent next h).
Proof.
  intros Hn. unfold register. simpl. set (h1 := set_ctxs _ h).
  assert (mild h h1) as Hm by (constructor; simpl; done || lia).
  destruct (registerSub _ _ _ _ h1) as [h2|] eqn:E.
  - unfold registerSub in E. destruct (hb_conns h1 !! conn) as [w'|]; [|done].
    destruct (wc_subs w' !! _); [done|]. injection E as <-. eexists _, _. split; [reflexivity|].
    split; [|split; [apply Hn|by apply logs_nothing]]. etrans; [exact Hm|]. apply side_mild, subs_side.
  - apply refuse_after; [|done]. etrans; [exact Hm|apply mild_cancel].
Qed.
Lemma unsubscribe_after tid conn w env h : after_frame tid conn w h (handleUnsubscribe tid conn w env h).
Proof.
  unfold handleUnsubscribe. destruct (wc_subs w !! _) as [sub|]; [|apply after_read].
  assert (mild h (hub_cancel (sb_cancel sub) (removeSub conn (ev_SubID env) h))) as Hm
    by (etrans; [apply side_mild, remove_side|apply mild_cancel]).
  cbv zeta. case_bool_decide; eexists _, _; (split; [reflexivity|]); (split; [exact Hm|]); (split; [constructor|]); by apply logs_nothing.
Qed.
Lemma data_after tid conn w env h : after_frame tid conn w h (handleData tid conn w env h).
Proof.
  pose proof (after_read tid conn w h) as Hnone.
  unfold handleData. cbv zeta. case_bool_decide; [done|]. case_bool_decide as Hin; [done|].
  destruct (ev_Payload env) as [p|]; [|done].
  set (h1 := match p !! "stdin" with Some (JString s) => log_call conn (CStdin (ev_SubID env) s) (goto tid conn PRead h)
             | _ => goto tid conn PRead h end).
  assert (exists h0, h1 = goto tid conn PRead h0 /\ mild h h0 /\ logs (typing w conn) h h0) as (h0 & -> & Hm & Hl).
  { subst h1. destruct (p !! "stdin") as [[]|]; try (exists h; split; [done|]; split; [done|by apply logs_nothing]).
    exists (log_call conn (CStdin (ev_SubID env) s) h). split; [done|]. split; [apply mild_log|]. apply logs_one.
    split; [done|]. exists (ev_SubID env). eauto. }
  destruct (p !! "resize") as [[]|]; try (exists h0, PRead; split; [done|]; split; [done|]; split; [constructor|done]).
  eexists (log_call conn (CResize (ev_SubID env) _ _) h0), PRead. split; [reflexivity|].
  split; [etrans; [exact Hm|apply mild_log]|]. split; [constructor|]. etrans; [exact Hl|]. apply logs_one.
  split; [done|]. exists (ev_SubID env). eauto.
Qed.

Lemma dispatch_cases tid conn w env ans h :
  after_frame tid conn w h (dispatch tid conn w env ans h) \/
  starts_stats tid conn w env h (dispatch tid conn w env ans h).
Proof.
  unfold dispatch. destruct (bool_decide (ev_Type env = wsTypeSubscribe)); [|left].
  2: { repeat case_bool_decide; [apply unsubscribe_after|apply data_after|by apply refuse_after]. }
  assert (forall ch code m, after_frame tid conn w h (refuse tid conn env ch code m h)) as Hr by (intros; by apply refuse_after).
  unfold handleSubscribe. cbv zeta. case_bool_decide; [by left|]. destruct (_ && _); [by left|].
  set (hid := if bool_decide (ev_HostID env = "") then _ else _).
  case_bool_decide; [|left; case_bool_decide; [|case_bool_decide; [|case_bool_decide]]].
  - unfold subscribeStats. destruct (Can _ _ _) eqn:Hc; simpl; [|by left].
    destruct ans as [[wl caps]|]; [|by left]. destruct (cap_Has caps CapStats); simpl; [|by left].
    destruct (sessionFor _ _) as [o r] eqn:E. right. by exists hid, wl, o, r.
  - unfold subscribeLogs. destruct (Can _ _ _) eqn:Hc; simpl; [|done].
    destruct ans as [[wl caps]|]; [|done]. apply register_after. by constructor.
  - apply register_after. by constructor.
  - unfold subscribeExec. destruct (Can _ _ _) eqn:Hc; cbn [negb]; [|done].
    destruct (StepUpRequired _ _) eqn:Hs; [done|]. destruct ans as [[wl caps]|]; [|done].
    destruct (_ || _); [done|]. apply register_after. by constructor.
  - done.
Qed.
Lemma on_frame_cases tid conn w now env ans h :
  after_frame tid conn w h (on_frame tid conn w now env ans h) \/
  starts_stats tid conn w env h (on_frame tid conn w now env ans h).
Proof.
  unfold on_frame. destruct (sessionLive _ _ _); [apply dispatch_cases|left].
  unfold tear_down. eexists _, _. split; [reflexivity|]. split; [|split; [constructor|]].
  - etrans; [apply side_mild, write_side|apply mild_cancel].
  - apply logs_nothing. simpl. apply write_side.
Qed.

(** ** The registry's part of a step *)

Definition later (cs cs' : contexts) : Prop :=
  cx_cancelled cs ⊆ cx_cancelled cs' /\ (cx_next cs <= cx_next cs')%nat.

(** Counters where a thread neither holds a stats stream, nor is about to open one
    or to close a session's. *)
Definition plain (p : pc) : bool :=
  match p with
  | PAcquire _ _ _ _ | PRegister _ _ _ _ | PStats _ _ _ _ | PTearObj _ | GStats _ _ _ _ _ => false
  | _ => true
  end.

(** [moves w h p p' g r cs]: from counter [p] in [h] to [p'], starting a goroutine
    at [g], and leaving the registry [r] and the contexts [cs]. *)
Inductive moves (w : wsConn) (h : hub) : pc -> pc -> option pc -> StreamRegistry -> contexts -> Prop :=
| mv_plain p p' g cs : plain p = true -> p <> PTearSession -> plain p' = true -> (forall q, g = Some q -> plain q = true) ->
    later (hb_ctxs h) cs -> moves w h p p' g (hb_reg h) cs
| mv_find env hid wl o r : sessionFor (wc_sessionKey w) (hb_reg h) = (o, r) ->
    moves w h PRead (PAcquire env hid wl o) None r (hb_ctxs h)
| mv_acquire env hid wl o old c r cs :
    AcquireStats_locked (wc_ctx w) o (ev_SubID env) (hb_reg h) (hb_ctxs h) = (old, c, r, cs) ->
    moves w h (PAcquire env hid wl o) (PRegister env hid wl c) None r cs
| mv_register env hid wl c :
    moves w h (PRegister env hid wl c) (PStats env hid wl (WithCancel c (hb_ctxs h)).1) None (hb_reg h)
      (WithCancel c (hb_ctxs h)).2
| mv_in_use env hid wl c cs : later (hb_ctxs h) cs -> moves w h (PRegister env hid wl c) PRead None (hb_reg h) cs
| mv_open env hid wl c l : moves w h (PStats env hid wl c) PRead (Some (GStats (ev_SubID env) hid (w_ID wl) l c)) (hb_reg h) (hb_ctxs h)
| mv_refused env hid wl c s k : moves w h (PStats env hid wl c) (PRelease s k) None (hb_reg h) (cancel c (hb_ctxs h))
| mv_sample s hid id l l' c : moves w h (GStats s hid id l c) (GStats s hid id l' c) None (hb_reg h) (hb_ctxs h)
| mv_end s hid id l c k : moves w h (GStats s hid id l c) (PRelease s k) None (hb_reg h) (hb_ctxs h)
| mv_release s k o r : sessionFor (wc_sessionKey w) (hb_reg h) = (o, r) ->
    moves w h (PRelease s k) (PReleaseObj o s k) None r (hb_ctxs h)
| mv_released o s k p r cs : ReleaseStats_locked o s (hb_reg h) (hb_ctxs h) = (r, cs) -> plain p = true ->
    moves w h (PReleaseObj o s k) p None r cs
| mv_forget o r : CloseSession_forget (wc_sessionKey w) (hb_reg h) = (o, r) ->
    moves w h PTearSession (match o with Some o => PTearObj o | None => PClosed end) None r (hb_ctxs h)
| mv_close o r cs : CloseSession_locked o (hb_reg h) (hb_ctxs h) = (r, cs) -> moves w h (PTearObj o) PClosed None r cs.

Record becomes (tid conn : nat) (h : hub) (p : pc) (g : option pc) (r : StreamRegistry) (cs : contexts) (h' : hub) : Prop := {
  bc_reg : hb_reg h' = r; bc_ctxs : hb_ctxs h' = cs;
  bc_threads : hb_threads h' = <[tid := mkThread conn p]>
    (match g with Some q => <[hb_next h := mkThread conn q]> (hb_threads h) | None => hb_threads h end);
  bc_next : hb_next h' = match g with Some _ => S (hb_next h) | None => hb_next h end;
  bc_conns : forall c, conn_id <$> hb_conns h' !! c = conn_id <$> hb_conns h !! c }.
#[export] Instance becomes_side tid conn h p g r cs : Proper (side ==> iff) (becomes tid conn h p g r cs).
Proof.
  intros h1 h2 [? ? ? ? ? ? Hc].
  assert (forall c, conn_id <$> hb_conns h1 !! c = conn_id <$> hb_conns h2 !! c) as Hi.
  { intros c. specialize (Hc c). unfold conn_core in Hc.
    destruct (hb_conns h1 !! c), (hb_conns h2 !! c); simpl in *; congruence. }
  split; intros []; constructor; congruence.
Qed.

(** Operations that only cancel, or allocate, contexts. *)
Lemma mild_becomes tid conn h h1 p : mild h h1 -> becomes tid conn h p None (hb_reg h) (hb_ctxs h1) (goto tid conn p h1).
Proof.
  intros []. constructor; simpl; try done; [by rewrite md_threads0|].
  intros c. specialize (md_conns0 c). unfold conn_core in md_conns0.
  destruct (hb_conns h1 !! c), (hb_conns h !! c); simpl in *; congruence.
Qed.
Lemma mild_later h h1 : mild h h1 -> later (hb_ctxs h) (hb_ctxs h1).
Proof. intros []. by split. Qed.
Lemma later_refl cs : later cs cs.
Proof. by split. Qed.
Lemma later_cancel c cs : later cs (cancel c cs).
Proof. split; [apply cancel_mono|]. by destruct c. Qed.
#[export] Hint Resolve later_refl later_cancel : ws.

Definition moved (tid conn : nat) (w : wsConn) (p : pc) (h h' : hub) : Prop :=
  exists p' g r cs, moves w h p p' g r cs /\ becomes tid conn h p' g r cs h'.

Lemma opens_plain w d p : opens w d p -> plain p = true.
Proof. by destruct 1. Qed.
Lemma after_frame_moved tid conn w h h' : after_frame tid conn w h h' -> moved tid conn w PRead h h'.
Proof.
  intros (h1 & p & -> & Hm & Ho & _). exists p, None, (hb_reg h), (hb_ctxs h1). split; [|by apply mild_becomes].
  apply mv_plain; try done; [by eapply opens_plain|by apply mild_later].
Qed.
Lemma starts_stats_moved tid conn w env h h' : starts_stats tid conn w env h h' -> moved tid conn w PRead h h'.
Proof. intros (hid & wl & o & r & E & _ & ->). eexists _, _, _, _. split; [by eapply mv_find|by constructor]. Qed.

(** A step that stays outside the registry. *)
Lemma plain_moved tid conn w p p' h h' cs :
  plain p = true -> p <> PTearSession -> plain p' = true ->
  becomes tid conn h p' None (hb_reg h) cs h' -> later (hb_ctxs h) cs -> moved tid conn w p h h'.
Proof. intros. exists p', None, (hb_reg h), cs. split; [|done]. apply mv_plain; naive_solver. Qed.
Lemma plain_spawned tid conn w p p' q h h' cs :
  plain p = true -> p <> PTearSession -> plain p' = true -> plain q = true ->
  becomes tid conn h p' (Some q) (hb_reg h) cs h' -> later (hb_ctxs h) cs -> moved tid conn w p h h'.
Proof. intros. exists p', (Some q), (hb_reg h), cs. split; [|done]. apply mv_plain; naive_solver. Qed.
Lemma mild_moved tid conn w p p' h h1 :
  plain p = true -> p <> PTearSession -> plain p' = true -> mild h h1 -> moved tid conn w p h (goto tid conn p' h1).
Proof. intros. eapply plain_moved; [..|by apply mild_becomes|by apply mild_later]; done. Qed.

Lemma cancel_all_later l h : later (hb_ctxs h) (hb_ctxs (cancel_all l h)) /\ hb_reg (cancel_all l h) = hb_reg h /\
  hb_threads (cancel_all l h) = hb_threads h /\ hb_next (cancel_all l h) = hb_next h /\ hb_conns (cancel_all l h) = hb_conns h.
Proof.
  induction l as [|c l (A & B & C & D & E)]; [done|]. simpl. split_and!; try done.
  destruct A as [A1 A2]. destruct (later_cancel c (hb_ctxs (cancel_all l h))) as [B1 B2]. split; [set_solver|lia].
Qed.

#[export] Instance moved_side tid conn w p h : Proper (side ==> iff) (moved tid conn w p h).
Proof.
  intros h1 h2 Hs. split; intros (p' & g & r & cs & Hm & Hb); exists p', g, r, cs; (split; [exact Hm|]).
  - eapply becomes_side; [symmetry; exact Hs|exact Hb].
  - eapply becomes_side; [exact Hs|exact Hb].
Qed.
Lemma mild_conn c f h : (forall w, conn_core (f w) = conn_core w) -> mild h (on_conn c f h).
Proof. intros Hf. by apply side_mild, on_conn_id. Qed.
Lemma mild_cancel_all l h : mild h (cancel_all l h).
Proof. induction l as [|c l IH]; [done|]. etrans; [exact IH|apply mild_cancel]. Qed.

(** The question about the terminal and the acknowledgement before it. *)
Lemma has_tty_ack conn wl ch s hid h : has_tty conn wl (sendAck conn ch s hid h) = sendAck conn ch s hid (has_tty conn wl h).
Proof.
  unfold has_tty. case_bool_decide; [|done]. unfold sendAck, writeFrame. simpl.
  destruct (hb_conns h !! conn); [|done]. by destruct (live _ _).
Qed.

Lemma pump_moved tid conn w p i h h' : pump_step tid conn w p i h = Some h' -> moved tid conn w p h h'.
Proof.
  destruct p, i; try done; cbn [pump_step].
  - intros [= <-]. destruct (on_frame_cases tid conn w now env ans h) as [H|H];
      [by apply after_frame_moved|by eapply starts_stats_moved].
  - intros [= <-]. by apply mild_moved; [..|apply mild_cancel].
  - destruct (AcquireStats_locked _ _ _ _ _) as [[[old c] r] cs] eqn:E. intros [= <-].
    eexists _, _, _, _. split; [by eapply mv_acquire|]. destruct old; core; by constructor.
  - intros [= <-]. unfold register. simpl. set (h1 := set_ctxs _ h).
    destruct (registerSub _ _ _ _ h1) as [h2|] eqn:E.
    + unfold registerSub in E. destruct (hb_conns h1 !! conn) as [w'|]; [|done].
      destruct (wc_subs w' !! _); [done|]. injection E as <-. eexists _, _, _, _. split; [apply mv_register|].
      core. by constructor.
    + unfold refuse. eexists _, _, _, _. split; [apply mv_in_use|core; by constructor].
      split; simpl; [set_solver|lia].
  - intros [= <-]. destruct a; eexists _, _, _, _.
    + split; [apply mv_refused|core; by constructor].
    + split; [apply mv_open|core; by constructor].
  - intros [= <-]. destruct a; [core|rewrite has_tty_ack; core; unfold has_tty; case_bool_decide].
    + by apply mild_moved; [..|etrans; [apply mild_log|apply mild_cancel]].
    + eapply (plain_spawned _ _ _ _ PRead (GLogs _ _ _ _)); first [reflexivity|discriminate|apply later_refl|by constructor].
    + eapply (plain_spawned _ _ _ _ PRead (GLogs _ _ _ _)); first [reflexivity|discriminate|apply later_refl|by constructor].
  - intros [= <-]. destruct a; core.
    + by apply mild_moved; [..|etrans; [apply mild_log|apply mild_cancel]].
    + eapply (plain_spawned _ _ _ _ PRead (GExec _ _ _ _)); first [reflexivity|discriminate|apply later_refl|constructor; try done].
      intros k. by apply (fr_conns 0 _ _ (frame_conn 0 conn (set_exec _) h ltac:(done))).
  - destruct (Subscribe _) as [ch b]. intros [= <-]. core.
    eapply (plain_spawned _ _ _ _ PRead (GEvents _ _ _)); first [reflexivity|discriminate|apply later_refl|by constructor].
  - intros [= <-]. apply mild_moved; [done..|]. etrans; [|apply mild_cancel_all]. by apply mild_conn.
  - destruct (CloseSession_forget _ _) as [o r] eqn:E. intros [= <-].
    eexists _, _, _, _. split; [by eapply mv_forget|by constructor].
  - destruct (CloseSession_locked _ _ _) as [r cs] eqn:E. intros [= <-].
    eexists _, _, _, _. split; [by eapply mv_close|by constructor].
Qed.

Lemma after_moved tid conn w k h p : plain p = true -> p <> PTearSession -> moved tid conn w p h (after tid conn k h).
Proof. intros. unfold after. destruct k; core; by apply mild_moved. Qed.
Lemma goto_same tid conn p h : hb_threads h !! tid = Some (mkThread conn p) -> goto tid conn p h = h.
Proof. intros H. destruct h. unfold goto. simpl in *. by rewrite insert_id. Qed.
Lemma mild_stays tid conn w p h h1 : hb_threads h !! tid = Some (mkThread conn p) ->
  plain p = true -> p <> PTearSession -> mild h h1 -> moved tid conn w p h h1.
Proof.
  intros Ht Hp Hn Hm. rewrite <- (goto_same tid conn p h1) by (by rewrite (md_threads _ _ Hm)). by apply mild_moved.
Qed.
Lemma mild_broker b h : mild h (set_broker b h).
Proof. by constructor. Qed.

Lemma stream_moved tid conn w p i h h' : hb_threads h !! tid = Some (mkThread conn p) ->
  stream_step tid conn w p i h = Some h' -> moved tid conn w p h h'.
Proof.
  intros Ht. destruct p, i; try done; cbn [stream_step].
  - destruct (sessionFor _ _) as [o r] eqn:E. intros [= <-]. eexists _, _, _, _. split; [by eapply mv_release|by constructor].
  - destruct (ReleaseStats_locked _ _ _ _) as [r cs] eqn:E. intros [= <-]. unfold after.
    destruct k as [|x e|x]; [exists PRead|exists PRead|exists (GRemove x)]; exists None, r, cs;
      (split; [by eapply mv_released|core; by constructor]).
  - destruct (live _ _); [done|]. intros [= <-]. core. eexists _, _, _, _. split; [apply mv_end|by constructor].
  - intros [= <-]. exists (GStats subID hostID wlID (Some payload) subCtx), None, (hb_reg h), (hb_ctxs h).
    split; [apply mv_sample|by constructor].
  - assert (moved tid conn w (GStats subID hostID wlID latest subCtx) h h) as Hstay.
    { rewrite <- (goto_same _ _ _ _ Ht) at 2.
      exists (GStats subID hostID wlID latest subCtx), None, (hb_reg h), (hb_ctxs h). split; [apply mv_sample|by constructor]. }
    destruct latest; intros [= <-]; [by core|done].
  - intros [= <-]. core. eexists _, _, _, _. split; [apply mv_end|by constructor].
  - intros [= <-]. destruct (live _ _); core; by apply mild_stays.
  - intros [= <-]. core. by apply mild_moved.
  - destruct (live _ _); [done|]. intros [= <-]. by apply mild_moved.
  - intros [= <-]. core. by apply mild_stays.
  - destruct last0 as [[ts p]|]; [|done]. intros [= <-]. core. by apply mild_moved.
  - intros [= <-]. apply (plain_moved _ _ _ _ (GRemove subID) _ _ (hb_ctxs h)); [done..| |apply later_refl].
    constructor; try done.
    intros k. by apply (fr_conns 0 _ _ (frame_conn 0 conn (set_exec _) h ltac:(done))).
  - destruct (live _ _); [done|]. intros [= <-]. core. by apply mild_moved.
  - destruct (receive _ _) as [[[e|] b]|]; simpl; [..|done]; intros [= <-]; core.
    + by apply mild_stays; [..|apply mild_broker].
    + by apply mild_moved; [..|apply mild_broker].
  - destruct (Unsubscribe _ _) as [b|]; simpl; [|done]. intros [= <-]. by apply mild_moved; [..|apply mild_broker].
  - intros [= <-]. core. by apply mild_moved.
Qed.

Lemma tstep_moved tid i h h' : tstep tid i h = Some h' -> exists t w,
  hb_threads h !! tid = Some t /\ hb_conns h !! th_conn t = Some w /\ moved tid (th_conn t) w (th_pc t) h h'.
Proof.
  intros ([conn p] & w & Ht & Hw & [H|H])%tstep_inv; eexists _, w; (split; [exact Ht|]); (split; [exact Hw|]).
  - by eapply pump_moved.
  - by eapply stream_moved.
Qed.
