(* ===== verification/WsInv.v ===== *)
(** * Invariants of the WebSocket hub

    What holds after every interleaving of the hub's threads: the table of threads
    is well formed and no two of them hold one stats stream, and while no tab is
    closed in the middle of another's acquisition, the live stream of a session is
    the one its registry object holds. *)
From S2P Require Import Prelude GoStd AuthStore Rbac Redact Middleware Streams Ws WsFacts.

(** ** Operations of the registry *)

Record reg_ok (r : StreamRegistry) : Prop := {
  ro_objs : forall o a, rg_objs r !! o = Some a -> (o < rg_next r)%nat;
  ro_sess : forall k o, rg_sessions r !! k = Some o -> (o < rg_next r)%nat }.

Lemma active_lookup o r a : active o r = Some a -> rg_objs r !! o = Some (Some a).
Proof. unfold active. by destruct (rg_objs r !! o) as [[]|]; simpl; intros [= ->]. Qed.
Lemma set_active_ok o a r : (o < rg_next r)%nat -> reg_ok r -> reg_ok (set_active o a r).
Proof.
  intros Ho [H1 H2]. constructor; simpl; [|done]. intros o' a' [[<- _]|[_ H]]%lookup_insert_Some; [done|by eapply H1].
Qed.
Lemma active_set_eq o a r : active o (set_active o a r) = a.
Proof. unfold active, set_active. simpl. by rewrite lookup_insert_eq. Qed.
Lemma active_set_ne o o' a r : o <> o' -> active o (set_active o' a r) = active o r.
Proof. intros H. unfold active, set_active. simpl. by rewrite lookup_insert_ne. Qed.

Lemma sessionFor_spec key r o r' : reg_ok r -> sessionFor key r = (o, r') ->
  reg_ok r' /\ rg_sessions r' !! key = Some o /\ (o < rg_next r')%nat /\ (rg_next r <= rg_next r')%nat /\
  (forall k o', rg_sessions r !! k = Some o' -> rg_sessions r' !! k = Some o') /\
  (forall o' a, active o' r = Some a -> active o' r' = Some a).
Proof.
  intros [H1 H2] E. unfold sessionFor in E. destruct (rg_sessions r !! key) as [o1|] eqn:Ek; injection E as <- <-.
  - split_and!; try done. by eapply H2.
  - split_and!; simpl; try lia; [|by rewrite lookup_insert_eq|..].
    + constructor; simpl; [intros o a [[<- _]|[_ H]]%lookup_insert_Some|intros k o [[_ <-]|[_ H]]%lookup_insert_Some]; try lia.
      * specialize (H1 _ _ H). lia.
      * specialize (H2 _ _ H). lia.
    + intros k o H. rewrite lookup_insert_ne; [done|]. by intros ->; congruence.
    + intros o a H%active_lookup. unfold active. simpl. rewrite lookup_insert_ne; [by rewrite H|].
      intros <-. apply H1 in H. lia.
Qed.
Lemma forget_spec key r o r' : CloseSession_forget key r = (o, r') ->
  o = rg_sessions r !! key /\ rg_objs r' = rg_objs r /\ rg_next r' = rg_next r /\ rg_sessions r' = delete key (rg_sessions r).
Proof. unfold CloseSession_forget. by intros [= <- <-]. Qed.

(** Emptying or filling one object: the rest is untouched, what it held is cancelled. *)
Definition retires (o : nat) (r : StreamRegistry) (cs : contexts) (r' : StreamRegistry) (cs' : contexts) : Prop :=
  later cs cs' /\ rg_sessions r' = rg_sessions r /\ rg_next r' = rg_next r /\
  ((o < rg_next r)%nat -> reg_ok r -> reg_ok r') /\
  (forall o' a, active o' r = Some a ->
     active o' r' = Some a \/ (o' = o /\ forall i, head (sh_ctx a) = Some i -> i ∈ cx_cancelled cs')).

Lemma cancel_head a cs i : head a = Some i -> i ∈ cx_cancelled (cancel a cs).
Proof. destruct a; [done|]. intros [= ->]. simpl. set_solver. Qed.
Lemma acquire_retires parent o s r cs old c r' cs' : AcquireStats_locked parent o s r cs = (old, c, r', cs') ->
  retires o r cs r' cs' /\ c = cx_next cs :: parent /\ (cx_next cs < cx_next cs')%nat /\ active o r' = Some (mkHandle s c).
Proof.
  unfold AcquireStats_locked. pose proof (later_cancel) as Hl.
  destruct (active o r) as [a|] eqn:Ea; simpl; intros [= <- <- <- <-].
  - assert (cx_next (cancel (sh_ctx a) cs) = cx_next cs) as Hn by by destruct (sh_ctx a).
    split_and!; simpl; try lia; [|by rewrite Hn|by rewrite active_set_eq].
    split_and!; try done; [split; simpl; [apply cancel_mono|lia]|by intros; apply set_active_ok|].
    intros o' a' H. destruct (decide (o' = o)) as [->|Ho]; [|left; by rewrite active_set_ne].
    right. split; [done|]. intros i Hi. rewrite Ea in H. injection H as <-. by apply cancel_head.
  - split_and!; simpl; try lia; [|done|by rewrite active_set_eq].
    split_and!; try done; [split; simpl; [done|lia]|by intros; apply set_active_ok|].
    intros o' a' H. destruct (decide (o' = o)) as [->|Ho]; [congruence|left; by rewrite active_set_ne].
Qed.
Lemma retires_none o r cs : retires o r cs r cs.
Proof. split_and!; auto with ws. Qed.
Lemma empty_retires o r cs a : active o r = Some a -> retires o r cs (set_active o None r) (cancel (sh_ctx a) cs).
Proof.
  intros Ea. split_and!; try done; [apply later_cancel|by intros; apply set_active_ok|].
  intros o' a' H. destruct (decide (o' = o)) as [->|Ho]; [|left; by rewrite active_set_ne].
  right. split; [done|]. intros i Hi. rewrite Ea in H. injection H as <-. by apply cancel_head.
Qed.
Lemma release_retires o s r cs r' cs' : ReleaseStats_locked o s r cs = (r', cs') -> retires o r cs r' cs'.
Proof.
  unfold ReleaseStats_locked. destruct (active o r) as [a|] eqn:Ea; [|intros [= <- <-]; apply retires_none].
  case_bool_decide; intros [= <- <-]; [by apply empty_retires|apply retires_none].
Qed.
Lemma close_retires o r cs r' cs' : CloseSession_locked o r cs = (r', cs') -> retires o r cs r' cs'.
Proof.
  unfold CloseSession_locked. destruct (active o r) as [a|] eqn:Ea; intros [= <- <-]; [by apply empty_retires|apply retires_none].
Qed.
Lemma emptied_below o r a : reg_ok r -> active o r = Some a -> (o < rg_next r)%nat.
Proof. intros [H _] Ha%active_lookup. by eapply H. Qed.
Lemma release_ok o s r cs : reg_ok r -> reg_ok (ReleaseStats_locked o s r cs).1.
Proof.
  intros Hr. unfold ReleaseStats_locked. destruct (active o r) as [a|] eqn:Ea; [|done].
  case_bool_decide; [|done]. apply set_active_ok; [by eapply emptied_below|done].
Qed.
Lemma close_ok o r cs : reg_ok r -> reg_ok (CloseSession_locked o r cs).1.
Proof.
  intros Hr. unfold CloseSession_locked. destruct (active o r) as [a|] eqn:Ea; [|done].
  apply set_active_ok; [by eapply emptied_below|done].
Qed.

(** ** The table of threads *)

(** The context of the stats stream a thread holds. *)
Definition stream_of (p : pc) : option ctx :=
  match p with
  | PRegister _ _ _ c => Some c
  | PStats _ _ _ c | GStats _ _ _ _ c => Some (tail c)
  | _ => None
  end.
Definition key_of (h : hub) (conn : nat) : option string := wc_sessionKey <$> hb_conns h !! conn.

Record hub_wf (h : hub) : Prop := {
  hw_threads : forall t th, hb_threads h !! t = Some th -> (t < hb_next h)%nat /\ is_Some (hb_conns h !! th_conn th);
  hw_conns : forall c w, hb_conns h !! c = Some w -> (c < hb_next h)%nat;
  hw_reg : reg_ok (hb_reg h);
  hw_acq : forall t th env hid wl o, hb_threads h !! t = Some th -> th_pc th = PAcquire env hid wl o ->
    (o < rg_next (hb_reg h))%nat;
  hw_stream : forall t th c, hb_threads h !! t = Some th -> stream_of (th_pc th) = Some c ->
    exists i, head c = Some i /\ (i < cx_next (hb_ctxs h))%nat;
  hw_unique : forall t1 t2 th1 th2 c1 c2, hb_threads h !! t1 = Some th1 -> hb_threads h !! t2 = Some th2 ->
    stream_of (th_pc th1) = Some c1 -> stream_of (th_pc th2) = Some c2 -> head c1 = head c2 -> t1 = t2 }.

(** Where the entries of the table after a step come from. *)
Lemma becomes_lookup tid conn h p g r cs h' t th : becomes tid conn h p g r cs h' -> hub_wf h ->
  is_Some (hb_threads h !! tid) -> hb_threads h' !! t = Some th ->
  (t = tid /\ th = mkThread conn p) \/
  (t <> tid /\ t = hb_next h /\ exists q, g = Some q /\ th = mkThread conn q) \/
  (t <> tid /\ (t < hb_next h)%nat /\ hb_threads h !! t = Some th).
Proof.
  intros Hb Hwf [th0 Hth0] Ht. rewrite (bc_threads _ _ _ _ _ _ _ _ Hb) in Ht.
  apply lookup_insert_Some in Ht as [[<- <-]|[Hne Ht]]; [by left|right].
  destruct g as [q|].
  - apply lookup_insert_Some in Ht as [[<- <-]|[Hne' Ht]]; [left; eauto 10|right].
    split; [done|]. split; [by eapply hw_threads|done].
  - right. split; [done|]. split; [by eapply hw_threads|done].
Qed.
Lemma becomes_conn tid conn h p g r cs h' c : becomes tid conn h p g r cs h' ->
  is_Some (hb_conns h' !! c) <-> is_Some (hb_conns h !! c).
Proof.
  intros Hb. pose proof (bc_conns _ _ _ _ _ _ _ _ Hb c) as H.
  destruct (hb_conns h' !! c), (hb_conns h !! c); simpl in H; try done; split; intros []; done.
Qed.
Lemma becomes_key tid conn h p g r cs h' c : becomes tid conn h p g r cs h' -> key_of h' c = key_of h c.
Proof.
  intros Hb. pose proof (bc_conns _ _ _ _ _ _ _ _ Hb c) as H. unfold key_of.
  destruct (hb_conns h' !! c), (hb_conns h !! c); simpl in *; try done. injection H as _ <- _. done.
Qed.

(** Contexts only advance; a thread's new stream is the one it had, or a new one. *)
Lemma moves_later w h p p' g r cs : moves w h p p' g r cs -> later (hb_ctxs h) cs.
Proof.
  destruct 1; auto with ws.
  - by apply acquire_retires in H as ((? & _) & _).
  - split; simpl; [done|lia].
  - by apply release_retires in H as (? & _).
  - by apply close_retires in H as (? & _).
Qed.
Lemma plain_stream p : plain p = true -> stream_of p = None.
Proof. by destruct p. Qed.
Lemma moves_stream w h p p' g r cs x c : moves w h p p' g r cs -> (x = p' \/ g = Some x) -> stream_of x = Some c ->
  (stream_of p = Some c /\ (g = None \/ (g = Some x /\ stream_of p' = None))) \/
  (g = None /\ stream_of p = None /\ c = cx_next (hb_ctxs h) :: wc_ctx w /\ (cx_next (hb_ctxs h) < cx_next cs)%nat /\
   exists env hid wl o s, p = PAcquire env hid wl o /\ active o r = Some (mkHandle s c)).
Proof.
  intros Hm Hx Hs. destruct Hm; (destruct Hx as [->|Hx]; [|try (injection Hx as <-)]); simpl in *; try done.
  all: try (rewrite plain_stream in Hs by (done || auto); done).
  - injection Hs as <-. right. apply acquire_retires in H as (_ & -> & Hlt & Ha).
    split_and!; try done. eexists _, _, _, _, _. by split.
  - left. auto.
  - left. auto.
  - left. auto.
  - by destruct o.
Qed.

Lemma moves_acq w h p p' g r cs x env hid wl o : moves w h p p' g r cs -> (x = p' \/ g = Some x) ->
  x = PAcquire env hid wl o -> sessionFor (wc_sessionKey w) (hb_reg h) = (o, r).
Proof.
  intros Hm Hx ->. destruct Hm; destruct Hx as [E|E]; try done; simplify_eq; try done.
  - by specialize (H2 _ eq_refl).
  - by destruct o0.
Qed.
Lemma moves_reg w h p p' g r cs : moves w h p p' g r cs -> reg_ok (hb_reg h) ->
  (forall env hid wl o, p = PAcquire env hid wl o -> (o < rg_next (hb_reg h))%nat) ->
  reg_ok r /\ (rg_next (hb_reg h) <= rg_next r)%nat.
Proof.
  intros Hm Hr Ha. destruct Hm; try done.
  - apply sessionFor_spec in H as (? & _ & _ & ? & _); done.
  - apply acquire_retires in H as ((_ & _ & Hn & Hok & _) & _). rewrite Hn. split; [|done]. apply Hok; [by eapply Ha|done].
  - apply sessionFor_spec in H as (? & _ & _ & ? & _); done.
  - pose proof (release_ok o s _ (hb_ctxs h) Hr) as Hok. pose proof (release_retires _ _ _ _ _ _ H) as (_ & _ & Hn & _).
    rewrite H in Hok. by rewrite Hn.
  - apply forget_spec in H as (-> & H1 & H2 & H3). rewrite H2. split; [|done]. destruct Hr as [R1 R2].
    constructor; rewrite ?H1, ?H2, ?H3; [done|]. intros k o [_ H]%lookup_delete_Some. by eapply R2.
  - pose proof (close_ok o _ (hb_ctxs h) Hr) as Hok. pose proof (close_retires _ _ _ _ _ H) as (_ & _ & Hn & _).
    rewrite H in Hok. by rewrite Hn.
Qed.

(** A holder after a step: one that was there, the thread that stepped (or the
    goroutine it started) with its stream, or a stream just acquired. *)
Definition slot (tid : nat) (h : hub) (g : option pc) : nat := match g with Some _ => hb_next h | None => tid end.
Lemma holder_from tid conn w h h' p p' g r cs t th c : hub_wf h -> hb_threads h !! tid = Some (mkThread conn p) ->
  moves w h p p' g r cs -> becomes tid conn h p' g r cs h' ->
  hb_threads h' !! t = Some th -> stream_of (th_pc th) = Some c ->
  (t <> tid /\ (t < hb_next h)%nat /\ hb_threads h !! t = Some th) \/
  (t = slot tid h g /\ th_conn th = conn /\ stream_of p = Some c) \/
  (t = tid /\ th_conn th = conn /\ c = cx_next (hb_ctxs h) :: wc_ctx w /\ (cx_next (hb_ctxs h) < cx_next cs)%nat /\
   exists env hid wl o s, p = PAcquire env hid wl o /\ active o r = Some (mkHandle s c)).
Proof.
  intros Hwf Ht0 Hm Hb Ht Hs.
  destruct (becomes_lookup _ _ _ _ _ _ _ _ _ _ Hb Hwf ltac:(eauto) Ht) as [[-> ->]|[(_ & -> & q & Hg & ->)|H]]; [..|by left].
  - destruct (moves_stream _ _ _ _ _ _ _ p' c Hm (or_introl eq_refl) Hs) as [[Hp Hx]|(_ & _ & H)]; [|by right; right].
    right; left. simpl in Hs. destruct Hx as [->|[_ Hn]]; [done|congruence].
  - destruct (moves_stream _ _ _ _ _ _ _ q c Hm (or_intror Hg) Hs) as [[Hp Hx]|(Hn & _)]; [|congruence].
    right; left. by rewrite Hg.
Qed.
Lemma wf_step tid i h h' : hub_wf h -> tstep tid i h = Some h' -> hub_wf h'.
Proof.
  intros Hwf (th0 & w & Ht0 & Hw & p' & g & r & cs & Hm & Hb)%tstep_moved.
  assert (is_Some (hb_threads h !! tid)) as Hsome by eauto.
  pose proof (moves_later _ _ _ _ _ _ _ Hm) as [Hc1 Hc2].
  destruct (moves_reg _ _ _ _ _ _ _ Hm (hw_reg _ Hwf)) as [Hr1 Hr2].
  { intros env hid wl o E. destruct th0 as [c0 p0]. simpl in *. subst p0. by eapply (hw_acq _ Hwf). }
  constructor.
  - intros t th Ht. split; [rewrite (bc_next _ _ _ _ _ _ _ _ Hb)|rewrite (becomes_conn _ _ _ _ _ _ _ _ _ Hb)].
    + destruct (becomes_lookup _ _ _ _ _ _ _ _ _ _ Hb Hwf Hsome Ht) as [[-> ->]|[(_ & -> & q & -> & _)|(_ & Hlt & _)]].
      * pose proof (hw_threads _ Hwf _ _ Ht0) as [? _]. destruct g; lia.
      * lia.
      * destruct g; lia.
    + destruct (becomes_lookup _ _ _ _ _ _ _ _ _ _ Hb Hwf Hsome Ht) as [[-> ->]|[(_ & -> & q & -> & ->)|(_ & _ & Ho)]];
        [by eauto|by eauto|by eapply hw_threads].
  - intros c w' Hw'. rewrite (bc_next _ _ _ _ _ _ _ _ Hb).
    destruct (proj1 (becomes_conn _ _ _ _ _ _ _ _ c Hb) ltac:(eauto)) as [w0 Hw0]. apply (hw_conns _ Hwf) in Hw0.
    destruct g; lia.
  - by rewrite (bc_reg _ _ _ _ _ _ _ _ Hb).
  - intros t th env hid wl o Ht E. rewrite (bc_reg _ _ _ _ _ _ _ _ Hb).
    assert (forall x, (x = p' \/ g = Some x) -> x = PAcquire env hid wl o -> (o < rg_next r)%nat) as Hnew.
    { intros x Hx Ex. pose proof (moves_acq _ _ _ _ _ _ _ _ _ _ _ _ Hm Hx Ex) as Hs.
      by apply sessionFor_spec in Hs as (_ & _ & ? & _); [|apply Hwf]. }
    destruct (becomes_lookup _ _ _ _ _ _ _ _ _ _ Hb Hwf Hsome Ht) as [[-> ->]|[(_ & -> & q & -> & ->)|(_ & _ & Ho)]].
    + eapply Hnew; [by left|done].
    + eapply Hnew; [by right|done].
    + pose proof (hw_acq _ Hwf _ _ _ _ _ _ Ho E). lia.
  - intros t th c Ht Hs. rewrite (bc_ctxs _ _ _ _ _ _ _ _ Hb). destruct th0 as [conn p]. simpl in *.
    destruct (holder_from _ _ _ _ _ _ _ _ _ _ _ _ _ Hwf Ht0 Hm Hb Ht Hs) as [(_ & _ & H)|[(_ & _ & H)|(_ & _ & -> & Hlt & _)]].
    + destruct (hw_stream _ Hwf _ _ _ H Hs) as (j & ? & ?). exists j. split; [done|lia].
    + destruct (hw_stream _ Hwf _ _ _ Ht0 H) as (j & ? & ?). exists j. split; [done|lia].
    + by eexists.
  - intros t1 t2 th1 th2 c1 c2 Ht1 Ht2 Hs1 Hs2 He. destruct th0 as [conn p]. simpl in *.
    assert (forall t th c, hb_threads h !! t = Some th -> stream_of (th_pc th) = Some c ->
      head c <> Some (cx_next (hb_ctxs h))) as Hold.
    { intros t th c Ht Hs E. destruct (hw_stream _ Hwf _ _ _ Ht Hs) as (j & E' & ?). rewrite E in E'. injection E' as <-. lia. }
    destruct (holder_from _ _ _ _ _ _ _ _ _ _ _ _ _ Hwf Ht0 Hm Hb Ht1 Hs1) as [(N1 & L1 & H1)|[(-> & _ & H1)|(-> & _ & -> & _)]],
      (holder_from _ _ _ _ _ _ _ _ _ _ _ _ _ Hwf Ht0 Hm Hb Ht2 Hs2) as [(N2 & L2 & H2)|[(-> & _ & H2)|(-> & _ & -> & _)]]; try done.
    + by eapply (hw_unique _ Hwf _ _ _ _ c1 c2).
    + by destruct N1; eapply (hw_unique _ Hwf _ _ _ _ c1 c2).
    + by eapply Hold in H1.
    + by destruct N2; symmetry; eapply (hw_unique _ Hwf _ _ _ _ c1 c2).
    + by eapply (Hold _ _ _ Ht0) in H1.
    + by eapply Hold in H2.
    + by eapply (Hold _ _ _ Ht0) in H2.
Qed.

(** ** The other steps, and runs *)

Lemma other_step l h h' : (forall tid i, l <> LStep tid i) -> hub_step l h = Some h' ->
  hb_reg h' = hb_reg h /\ later (hb_ctxs h) (hb_ctxs h') /\
  (forall c w, hb_conns h !! c = Some w -> hub_wf h -> hb_conns h' !! c = Some w) /\
  (forall t th, hb_threads h' !! t = Some th -> hb_threads h !! t = Some th \/ (t = hb_next h /\ th = mkThread t PRead)) /\
  (forall t th, hb_threads h !! t = Some th -> hub_wf h -> hb_threads h' !! t = Some th) /\
  (hub_wf h -> hub_wf h').
Proof.
  intros Hl Hs. assert (forall h1, hb_reg h1 = hb_reg h -> hb_ctxs h1 = hb_ctxs h -> hb_conns h1 = hb_conns h ->
    hb_threads h1 = hb_threads h -> hb_next h1 = hb_next h -> hub_wf h -> hub_wf h1) as Hsame.
  { intros h1 E1 E2 E3 E4 E5 []. constructor; rewrite ?E1, ?E2, ?E3, ?E4, ?E5; auto. }
  destruct l as [r o a|tid i|ev|d]; simpl in Hs.
  - injection Hs as <-. unfold HandleWS. destruct (rq_User r) as [u|]; [|by split_and!; auto with ws].
    destruct o; simpl; [|by split_and!; auto with ws]. destruct a; simpl; [|by split_and!; auto with ws].
    split_and!; simpl; try done; [split; simpl; [done|lia]|..].
    + intros c w Hw Hwf. apply (hw_conns _ Hwf) in Hw as Hlt. rewrite lookup_insert_ne; [done|lia].
    + intros t th [[<- <-]|[_ H]]%lookup_insert_Some; auto.
    + intros t th Ht Hwf. apply (hw_threads _ Hwf) in Ht as Hlt. rewrite lookup_insert_ne; [done|lia].
    + intros Hwf. constructor; simpl.
      * intros t th [[<- <-]|[_ H]]%lookup_insert_Some; simpl; [split; [lia|by rewrite lookup_insert_eq]|].
        apply (hw_threads _ Hwf) in H as [? Hc]. split; [lia|]. by apply lookup_insert_is_Some'; right.
      * intros c w [[<- <-]|[_ H]]%lookup_insert_Some; [lia|]. apply (hw_conns _ Hwf) in H. lia.
      * apply Hwf.
      * intros t th env hid wl o [[<- <-]|[_ H]]%lookup_insert_Some; [done|by eapply hw_acq].
      * intros t th c [[<- <-]|[_ H]]%lookup_insert_Some Hst; [done|].
        destruct (hw_stream _ Hwf _ _ _ H Hst) as (j & ? & ?). exists j. split; [done|lia].
      * intros t1 t2 th1 th2 c1 c2 [[<- <-]|[_ H1]]%lookup_insert_Some [[<- <-]|[_ H2]]%lookup_insert_Some Hs1 Hs2 He;
          try done. by eapply (hw_unique _ Hwf _ _ _ _ c1 c2).
  - by destruct (Hl tid i).
  - destruct (Publish _ _) as [b|]; [|done]. injection Hs as <-. split_and!; auto with ws.
  - injection Hs as <-. split_and!; auto with ws.
Qed.

Lemma hub_step_wf l h h' : hub_wf h -> hub_step l h = Some h' -> hub_wf h'.
Proof.
  intros Hwf Hs. destruct l as [r o a|tid i|ev|d]; [| by eapply wf_step | |];
    by eapply other_step in Hs as (_ & _ & _ & _ & _ & H); [apply H|].
Qed.
Lemma new_hub_wf d : hub_wf (new_hub d).
Proof. by constructor; simpl. Qed.
Lemma run_wf ok d ls h : run ok d ls h -> hub_wf h.
Proof. induction 1; [apply new_hub_wf|by eapply hub_step_wf]. Qed.

(** ** One live stats stream per session *)

Definition acquiring (k : string) (h : hub) : Prop :=
  exists t th env hid wl o, hb_threads h !! t = Some th /\ th_pc th = PAcquire env hid wl o /\
    key_of h (th_conn th) = Some k.
(** No tab of the session [k] is closed in the middle of another tab's
    AcquireStats. *)
Definition calm (k : string) (l : label) (h : hub) : Prop :=
  forall tid i th, l = LStep tid i -> hb_threads h !! tid = Some th -> th_pc th = PTearSession ->
    key_of h (th_conn th) = Some k -> ~ acquiring k h.

(** The stream of context [c] is the active one of the session's object, or of one
    that is being closed. *)
Definition closing (o : nat) (h : hub) : Prop := exists t th, hb_threads h !! t = Some th /\ th_pc th = PTearObj o.
Definition handled (k : string) (h : hub) (c : ctx) : Prop :=
  exists o hd, active o (hb_reg h) = Some hd /\ head (sh_ctx hd) = head c /\
    (rg_sessions (hb_reg h) !! k = Some o \/ closing o h).

Record one_live (k : string) (h : hub) : Prop := {
  ol_acq : forall t th env hid wl o, hb_threads h !! t = Some th -> th_pc th = PAcquire env hid wl o ->
    key_of h (th_conn th) = Some k -> rg_sessions (hb_reg h) !! k = Some o;
  ol_live : forall t th c, hb_threads h !! t = Some th -> stream_of (th_pc th) = Some c ->
    key_of h (th_conn th) = Some k -> live (hb_ctxs h) c = true -> handled k h c }.

Lemma live_later cs cs' c : later cs cs' -> live cs' c = true -> live cs c = true.
Proof.
  intros [H _]. unfold live. rewrite !forallb_forall. intros Hl i Hi. specialize (Hl i Hi).
  apply bool_decide_eq_true in Hl. apply bool_decide_eq_true. set_solver.
Qed.
Lemma live_head cs c i : live cs c = true -> head c = Some i -> i ∉ cx_cancelled cs.
Proof. destruct c as [|j c]; [done|]. simpl. intros [H _]%andb_true_iff [= <-]. by apply bool_decide_eq_true in H. Qed.

(** Another thread at PTearObj stays there. *)
Lemma closing_step tid conn h h' p p' g r cs o : hub_wf h -> hb_threads h !! tid = Some (mkThread conn p) ->
  becomes tid conn h p' g r cs h' -> closing o h -> p <> PTearObj o -> closing o h'.
Proof.
  intros Hwf Ht0 Hb (t & th & Ht & Hp) Hne. exists t, th. split; [|done].
  assert (t <> tid) by (intros ->; rewrite Ht0 in Ht; injection Ht as <-; done).
  rewrite (bc_threads _ _ _ _ _ _ _ _ Hb), lookup_insert_ne by done.
  destruct g; [|done]. apply (hw_threads _ Hwf) in Ht as Hlt. rewrite lookup_insert_ne; [done|lia].
Qed.

Lemma handled_step tid conn w h h' p p' g r cs k c : hub_wf h -> hb_threads h !! tid = Some (mkThread conn p) ->
  moves w h p p' g r cs -> becomes tid conn h p' g r cs h' -> hb_conns h !! conn = Some w ->
  live cs c = true -> (exists i, head c = Some i) -> handled k h c -> handled k h' c.
Proof.
  intros Hwf Ht0 Hm Hb Hw Hl [i Hi] (o & hd & Ha & He & Hk). unfold handled. rewrite (bc_reg _ _ _ _ _ _ _ _ Hb).
  assert (p <> PTearObj o -> rg_sessions r !! k = Some o \/ ~ rg_sessions (hb_reg h) !! k = Some o ->
    active o r = Some hd -> exists o hd, active o r = Some hd /\ head (sh_ctx hd) = head c /\
      (rg_sessions r !! k = Some o \/ closing o h')) as Hkeep.
  { intros Hp Hs Hact. exists o, hd. split; [done|]. split; [done|].
    destruct Hk as [Hk|Hk]; [destruct Hs; [by left|done]|right; by eapply closing_step]. }
  assert (forall o' r' cs', retires o' (hb_reg h) (hb_ctxs h) r' cs' -> r' = r -> cs' = cs ->
    active o r = Some hd /\ rg_sessions r = rg_sessions (hb_reg h)) as Hret.
  { intros o' r' cs' (_ & Hs & _ & _ & Hr) -> ->. split; [|done]. destruct (Hr _ _ Ha) as [?|[_ Hc]]; [done|].
    exfalso. eapply live_head; [exact Hl|exact Hi|]. apply Hc. by rewrite He. }
  assert (rg_sessions r = rg_sessions (hb_reg h) -> rg_sessions r !! k = Some o \/ ~ rg_sessions (hb_reg h) !! k = Some o) as Hsess.
  { intros ->. destruct (decide (rg_sessions (hb_reg h) !! k = Some o)); auto. }
  destruct Hm; try (apply Hkeep; [done|by apply Hsess|done]); try (by apply Hkeep; [by destruct p|by apply Hsess|done]).
  - apply sessionFor_spec in H as (_ & _ & _ & _ & H1 & H2); [|apply Hwf]. apply Hkeep; [done| |auto].
    destruct (decide (rg_sessions (hb_reg h) !! k = Some o)); auto.
  - apply acquire_retires in H as (H & _). destruct (Hret _ _ _ H eq_refl eq_refl) as [? ?]. apply Hkeep; auto.
  - apply sessionFor_spec in H as (_ & _ & _ & _ & H1 & H2); [|apply Hwf]. apply Hkeep; [done| |auto].
    destruct (decide (rg_sessions (hb_reg h) !! k = Some o)); auto.
  - apply release_retires in H. destruct (Hret _ _ _ H eq_refl eq_refl) as [? ?]. apply Hkeep; auto.
  - apply forget_spec in H as (-> & H1 & H2 & H3). exists o, hd. split; [unfold active; by rewrite H1|]. split; [done|].
    destruct Hk as [Hk|Hk]; [|right; by eapply closing_step].
    rewrite H3. destruct (decide (k = wc_sessionKey w)) as [->|Hne]; [|left; by rewrite lookup_delete_ne].
    right. exists tid, (mkThread conn (PTearObj o)). split; [|done].
    rewrite (bc_threads _ _ _ _ _ _ _ _ Hb), lookup_insert_eq. by rewrite Hk.
  - pose proof (close_retires _ _ _ _ _ H) as Hc. destruct (Hret _ _ _ Hc eq_refl eq_refl) as [Hact Hsr].
    destruct (decide (o0 = o)) as [->|Hne]; [|apply Hkeep; [by intros [= ->]|auto..]].
    unfold CloseSession_locked in H. rewrite Ha in H. injection H as <- <-. by rewrite active_set_eq in Hact.
Qed.

Lemma one_live_tstep k tid i h h' : hub_wf h -> one_live k h -> calm k (LStep tid i) h ->
  tstep tid i h = Some h' -> one_live k h'.
Proof.
  intros Hwf [Hacq Hlive] Hcalm Hs.
  destruct (tstep_moved _ _ _ _ Hs) as ([conn p] & w & Ht0 & Hw & p' & g & r & cs & Hm & Hb). simpl in *.
  assert (forall o, rg_sessions (hb_reg h) !! k = Some o -> acquiring k h -> rg_sessions r !! k = Some o) as Hkept.
  { intros o Ho Hac. destruct Hm; try done.
    - apply sessionFor_spec in H as (_ & _ & _ & _ & H & _); [by apply H|apply Hwf].
    - apply acquire_retires in H as ((_ & -> & _) & _). done.
    - apply sessionFor_spec in H as (_ & _ & _ & _ & H & _); [by apply H|apply Hwf].
    - by apply release_retires in H as (_ & -> & _).
    - apply forget_spec in H as (-> & _ & _ & ->). rewrite lookup_delete_ne; [done|].
      intros E. destruct (Hcalm tid i (mkThread conn PTearSession) eq_refl Ht0 eq_refl); [|done].
      unfold key_of. simpl. rewrite Hw. simpl. by rewrite E.
    - by apply close_retires in H as (_ & -> & _). }
  assert (forall c, handled k h c -> live cs c = true -> (exists j, head c = Some j) -> handled k h' c) as Hstill.
  { intros c Hh Hl Hi. eapply (handled_step tid conn w h h'); eauto. }
  constructor.
  - intros t th env hid wl o Ht Hp Hk. rewrite (bc_reg _ _ _ _ _ _ _ _ Hb).
    rewrite (becomes_key _ _ _ _ _ _ _ _ _ Hb) in Hk.
    assert (forall x, (x = p' \/ g = Some x) -> x = PAcquire env hid wl o -> key_of h conn = Some k ->
      rg_sessions r !! k = Some o) as Hnew.
    { intros x Hx Ex Hkx. pose proof (moves_acq _ _ _ _ _ _ _ _ _ _ _ _ Hm Hx Ex) as Hsf.
      unfold key_of in Hkx. rewrite Hw in Hkx. injection Hkx as <-.
      by apply sessionFor_spec in Hsf as (_ & ? & _); [|apply Hwf]. }
    destruct (becomes_lookup _ _ _ _ _ _ _ _ _ _ Hb Hwf ltac:(eauto) Ht) as [[-> ->]|[(_ & -> & q & -> & ->)|(_ & _ & Ho)]].
    + eapply Hnew; [by left|done|done].
    + eapply Hnew; [by right|done|done].
    + apply Hkept; [by eapply Hacq|]. by exists t, th, env, hid, wl, o.
  - intros t th c Ht Hst Hk Hl. rewrite (becomes_key _ _ _ _ _ _ _ _ _ Hb) in Hk.
    rewrite (bc_ctxs _ _ _ _ _ _ _ _ Hb) in Hl. pose proof (moves_later _ _ _ _ _ _ _ Hm) as Hlat.
    destruct (holder_from _ _ _ _ _ _ _ _ _ _ _ _ _ Hwf Ht0 Hm Hb Ht Hst) as
      [(_ & _ & Ho)|[(_ & <- & Hp)|(_ & <- & -> & _ & env & hid & wl & o & s & -> & Ha)]].
    + apply Hstill; [eapply Hlive; eauto using live_later|done|].
      destruct (hw_stream _ Hwf _ _ _ Ho Hst) as (j & ? & _). eauto.
    + apply Hstill; [eapply (Hlive tid); eauto using live_later|done|].
      destruct (hw_stream _ Hwf _ _ _ Ht0 Hp) as (j & ? & _). eauto.
    + exists o, (mkHandle s (cx_next (hb_ctxs h) :: wc_ctx w)). rewrite (bc_reg _ _ _ _ _ _ _ _ Hb).
      split; [done|]. split; [done|]. left. apply Hkept; [by eapply Hacq|].
      by eexists _, _, _, _, _, _.
Qed.

Lemma key_of_other h h' c k : (forall w, hb_conns h !! c = Some w -> hb_conns h' !! c = Some w) ->
  is_Some (hb_conns h !! c) -> key_of h' c = Some k -> key_of h c = Some k.
Proof. intros H [w Hw]. unfold key_of. by rewrite (H _ Hw), Hw. Qed.
Lemma one_live_run k d ls h : run (calm k) d ls h -> one_live k h.
Proof.
  induction 1 as [|ls l h h' Hr IH Hc Hs]; [by constructor; simpl|]. pose proof (run_wf _ _ _ _ Hr) as Hwf.
  assert ((exists tid i, l = LStep tid i) \/ forall tid i, l <> LStep tid i) as [(tid & i & ->)|Hl'];
    [destruct l; eauto|by eapply one_live_tstep|].
  destruct (other_step _ _ _ Hl' Hs) as (Hreg & Hlat & Hconn & Hthr & Hkeep & _). destruct IH as [Hacq Hlive].
  constructor.
  - intros t th env hid wl o Ht Hp Hk. rewrite Hreg. destruct (Hthr _ _ Ht) as [Ho|[_ ->]]; [|done].
    eapply Hacq; [done|done|]. eapply key_of_other; [|by eapply hw_threads|done]. intros w Hw. by apply Hconn.
  - intros t th c Ht Hst Hk Hl2. destruct (Hthr _ _ Ht) as [Ho|[_ ->]]; [|done].
    destruct (Hlive t th c Ho Hst) as (o & hd & Ha & He & Hc').
    + eapply key_of_other; [|by eapply hw_threads|done]. intros w Hw. by apply Hconn.
    + by eapply live_later.
    + exists o, hd. rewrite Hreg. split; [done|]. split; [done|]. destruct Hc' as [?|(t' & th' & Ht' & Hp')]; [by left|right].
      exists t', th'. split; [by apply Hkeep|done].
Qed.

(** Checking a step for [calm]. *)
Definition is_acquire (p : pc) : bool := match p with PAcquire _ _ _ _ => true | _ => false end.
Definition calmb (k : string) (l : label) (h : hub) : bool :=
  match l with
  | LStep tid _ =>
      match hb_threads h !! tid with
      | Some (mkThread c PTearSession) =>
          negb (bool_decide (key_of h c = Some k)) ||
          forallb (fun x => negb (is_acquire (th_pc x.2) && bool_decide (key_of h (th_conn x.2) = Some k)))
            (map_to_list (hb_threads h))
      | _ => true
      end
  | _ => true
  end.
Lemma calmb_ok k l h : calmb k l h = true -> calm k l h.
Proof.
  intros H tid i [c p] -> Ht Hp Hk (t & [c' p'] & env & hid & wl & o & Ha & Hpa & Hka). simpl in *. subst p.
  subst p'. rewrite Ht in H. rewrite bool_decide_true in H by done. simpl in H. rewrite forallb_forall in H.
  specialize (H (t, mkThread c' (PAcquire env hid wl o))). simpl in H.
  rewrite bool_decide_true in H by done. discriminate H. apply list_elem_of_In. by apply elem_of_map_to_list.
Qed.
