(* ===== verification/WsLive.v ===== *)
(** * The hub: who may open a stream, and what a schedule leads to

    An infinite schedule is weakly fair to a step of a thread when, again and
    again, the step is taken or cannot be taken.  [leads] is the rule that makes
    something of it. *)
From S2P Require Import Prelude GoStd AuthStore Rbac Redact Middleware Streams Ws WsFacts WsInv.

(** ** Who may open what: the authorisation invariant of the hub

    A counter past a permission check, an open shell and every call of the log
    carry the permission of the connection they belong to. *)

Section Auth.
(** [S u]: the second factor of [u] was not outstanding, when it was asked. *)
Context (S : User -> Prop).

Definition may (u : User) (perm : string) : Prop := Can (Some u) perm GlobalScope = true.
Definition shell (u : User) : Prop := may u "docker.container.exec" /\ S u.
Definition guard (u : User) (p : pc) : Prop :=
  match p with
  | PAcquire _ _ _ _ | PRegister _ _ _ _ | PStats _ _ _ _ => may u "docker.container.stats"
  | PLogs _ _ _ _ _ => may u "docker.container.logs"
  | PExec _ _ _ _ _ => shell u
  | _ => True
  end.
Definition allowed (u : User) (x : provider_call) : Prop :=
  match x with
  | CStats _ => may u "docker.container.stats"
  | CLogs _ _ | CInspect _ => may u "docker.container.logs"
  | _ => shell u
  end.

Record auth_ok (h : hub) : Prop := {
  ao_pc : forall t th w, hb_threads h !! t = Some th -> hb_conns h !! th_conn th = Some w -> guard (wc_user w) (th_pc th);
  ao_exec : forall c w s, hb_conns h !! c = Some w -> s ∈ wc_exec w -> shell (wc_user w);
  ao_log : forall c x, (c, x) ∈ hb_log h -> exists w, hb_conns h !! c = Some w /\ allowed (wc_user w) x }.

Definition conn_same (h h' : hub) : Prop := forall c, conn_core <$> hb_conns h' !! c = conn_core <$> hb_conns h !! c.
Lemma conn_same_to h h' c w : conn_same h h' -> hb_conns h' !! c = Some w ->
  exists w0, hb_conns h !! c = Some w0 /\ wc_user w0 = wc_user w /\ wc_exec w0 = wc_exec w.
Proof.
  intros H Hw. specialize (H c). rewrite Hw in H. destruct (hb_conns h !! c) as [w0|]; [|done].
  exists w0. split; [done|]. unfold conn_core, conn_id in H. simpl in H. injection H. auto.
Qed.
Lemma conn_same_sym h h' : conn_same h h' -> conn_same h' h.
Proof. intros H c. symmetry. apply H. Qed.
Lemma auth_same h h' : conn_same h h' -> hb_threads h' = hb_threads h ->
  logs (fun y => exists w, hb_conns h !! y.1 = Some w /\ allowed (wc_user w) y.2) h h' -> auth_ok h -> auth_ok h'.
Proof.
  intros Hc Ht (new & Hl & Hn) [P E L]. constructor.
  - intros t th w. rewrite Ht. intros H (w0 & Hw & <- & _)%(conn_same_to h); [by eapply P|done].
  - intros c w s (w0 & Hw & <- & <-)%(conn_same_to h); [|done]. by eapply E.
  - intros c x. rewrite Hl. intros Hin.
    assert (exists w, hb_conns h !! c = Some w /\ allowed (wc_user w) x) as (w & Hw & Ha).
    { apply elem_of_app in Hin as [Hin|Hin]; [by apply L|]. rewrite Forall_forall in Hn.
      exact (Hn _ Hin). }
    destruct (conn_same_to h' h c w (conn_same_sym _ _ Hc) Hw) as (w' & Hw' & E' & _). exists w'. by rewrite E'.
Qed.
#[export] Instance auth_side : Proper (side ==> iff) auth_ok.
Proof.
  assert (forall h h', side h h' -> auth_ok h -> auth_ok h') as H.
  { intros h h' [? ? ? Ht ? Hl Hc]. apply auth_same; [intros c; symmetry; apply Hc|done|by apply logs_nothing]. }
  intros h h' Hs. split; apply H; [done|by symmetry].
Qed.
Lemma auth_goto tid conn p h : (forall w, hb_conns h !! conn = Some w -> guard (wc_user w) p) ->
  auth_ok h -> auth_ok (goto tid conn p h).
Proof.
  intros Hp [P E L]. constructor; simpl; [|done..].
  intros t th w [[<- <-]|[_ H]]%lookup_insert_Some Hw; [by apply Hp|by eapply P].
Qed.
Lemma auth_spawn conn p h : (forall u, guard u p) -> auth_ok h -> auth_ok (spawn conn p h).
Proof.
  intros Hp [P E L]. constructor; simpl; [|done..].
  intros t th w [[<- <-]|[_ H]]%lookup_insert_Some Hw; [by apply Hp|by eapply P].
Qed.
Lemma auth_call conn w x h : hb_conns h !! conn = Some w -> allowed (wc_user w) x -> auth_ok h -> auth_ok (log_call conn x h).
Proof. intros Hw Ha. apply auth_same; [done|done|]. apply logs_one. by exists w. Qed.
Lemma auth_ctxs cs h : auth_ok h -> auth_ok (set_ctxs cs h).
Proof. by intros []. Qed.
Lemma auth_cancel c h : auth_ok h -> auth_ok (hub_cancel c h).
Proof. apply auth_ctxs. Qed.
Lemma auth_reg r h : auth_ok h -> auth_ok (set_reg r h).
Proof. by intros []. Qed.
Lemma auth_broker b h : auth_ok h -> auth_ok (set_broker b h).
Proof. by intros []. Qed.
Lemma auth_db f h : auth_ok h -> auth_ok (on_hub_db f h).
Proof. by intros []. Qed.
Lemma auth_cancel_all l h : auth_ok h -> auth_ok (cancel_all l h).
Proof. intros H. induction l as [|c l IH]; [done|]. by apply auth_cancel. Qed.
Lemma auth_exec conn w f h : hb_conns h !! conn = Some w ->
  (forall s, s ∈ f (wc_exec w) -> shell (wc_user w)) -> auth_ok h -> auth_ok (on_conn conn (set_exec f) h).
Proof.
  intros Hw Hf [P E L].
  assert (forall c w', alter (set_exec f) conn (hb_conns h) !! c = Some w' ->
    exists w0, hb_conns h !! c = Some w0 /\ wc_user w0 = wc_user w' /\ (c = conn /\ w' = set_exec f w \/ w' = w0)) as Hback.
  { intros c w'. destruct (decide (c = conn)) as [->|Hc]; [rewrite lookup_alter_eq, Hw|rewrite lookup_alter_ne by done].
    - intros [= <-]. exists w. auto.
    - intros H. exists w'. auto. }
  constructor; simpl.
  - intros t th w' Ht (w0 & H & <- & _)%Hback. by eapply P.
  - intros c w' s (w0 & H & Hu & [[-> ->] | ->])%Hback; intros Hs; [by eapply Hf|by eapply E].
  - intros c x (w0 & H & Ha)%L. destruct (decide (c = conn)) as [->|Hc]; [|exists w0; by rewrite lookup_alter_ne].
    rewrite Hw in H. injection H as <-. exists (set_exec f w). by rewrite lookup_alter_eq, Hw.
Qed.
#[local] Hint Resolve auth_ctxs auth_cancel auth_reg auth_broker auth_db auth_cancel_all : core.
#[local] Hint Extern 1 (guard _ _) => exact I : core.

Lemma opens_guard w d p : (StepUpRequired d (Some (wc_user w)) = false -> S (wc_user w)) -> opens w d p -> guard (wc_user w) p.
Proof. intros HS. destruct 1; simpl; try done. by split; [|apply HS]. Qed.
Lemma auth_after_frame tid conn w h h' : hb_conns h !! conn = Some w ->
  (StepUpRequired (hb_db h) (Some (wc_user w)) = false -> S (wc_user w)) ->
  after_frame tid conn w h h' -> auth_ok h -> auth_ok h'.
Proof.
  intros Hw HS (h1 & p & -> & [? Ht ? ? ? Hc] & Ho & Hl) Hok.
  assert (forall c w', hb_conns h1 !! c = Some w' -> exists w0, hb_conns h !! c = Some w0 /\ wc_user w0 = wc_user w') as Hback
    by (intros c w' (w0 & ? & ? & _)%(conn_same_to h); [by exists w0|exact Hc]).
  apply auth_goto.
  - intros w1 (w0 & H & <-)%Hback. rewrite Hw in H. injection H as <-. by eapply opens_guard.
  - apply (auth_same h); [exact Hc|done| |done]. destruct Hl as (new & E & Hn). exists new. split; [done|].
    eapply Forall_impl; [exact Hn|]. intros [c x] (Hcn & s & Hs & Hx). simpl in *. subst c. exists w. split; [done|].
    pose proof (ao_exec _ Hok _ _ _ Hw Hs). by destruct Hx as [(data & ->)|(r & c & ->)].
Qed.

Lemma auth_after tid conn k h : auth_ok h -> auth_ok (after tid conn k h).
Proof. intros H. destruct k; simpl; apply auth_goto; try done. by rewrite serror_side. Qed.

Lemma auth_pump tid conn w p i h h' : hb_conns h !! conn = Some w -> guard (wc_user w) p ->
  (StepUpRequired (hb_db h) (Some (wc_user w)) = false -> S (wc_user w)) ->
  pump_step tid conn w p i h = Some h' -> auth_ok h -> auth_ok h'.
Proof.
  intros Hw Hg HS Hs Hok. destruct p, i; try done; cbn [pump_step guard] in *.
  - injection Hs as <-. destruct (on_frame_cases tid conn w now env ans h) as [H|(hid & wl & o & r & _ & Hc & ->)];
      [by eapply auth_after_frame|]. apply auth_goto; [|auto]. simpl. intros w'. rewrite Hw. by intros [= <-].
  - injection Hs as <-. apply auth_goto; auto.
  - destruct (AcquireStats_locked _ _ _ _ _) as [[[old c] r] cs]. injection Hs as <-.
    assert (forall w', hb_conns h !! conn = Some w' -> guard (wc_user w') (PRegister env hostID wl c)) as Hg'
      by (rewrite Hw; by intros ? [= <-]).
    destruct old; core; apply auth_goto; auto.
  - injection Hs as <-. apply register_cases; [apply _|]. split; apply auth_goto; auto.
    simpl. rewrite Hw. by intros ? [= <-].
  - injection Hs as <-. pose proof (auth_call _ _ (CStats (w_ID wl)) _ Hw Hg Hok).
    destruct a; core; apply auth_goto; auto. by apply auth_spawn.
  - injection Hs as <-. pose proof (auth_call _ _ (CLogs (w_ID wl) opts) _ Hw Hg Hok) as H.
    destruct a; [core; apply auth_goto; auto|]. rewrite has_tty_ack. core. apply auth_goto; [done|]. apply auth_spawn; [done|].
    unfold has_tty. case_bool_decide; [|done]. by apply (auth_call conn w (CInspect (w_ID wl))).
  - injection Hs as <-. pose proof (auth_call _ _ (CExec (w_ID wl) opts) _ Hw Hg Hok) as H.
    destruct a; core; apply auth_goto; auto. apply auth_spawn; [done|]. by eapply auth_exec; [exact Hw|..].
  - destruct (Subscribe _) as [ch b]. injection Hs as <-. core. apply auth_goto; [done|]. apply auth_spawn; auto.
  - injection Hs as <-. apply auth_goto; [done|]. apply auth_cancel_all. by rewrite subs_side.
  - destruct (CloseSession_forget _ _) as [[o|] r]; injection Hs as <-; apply auth_goto; auto.
  - destruct (CloseSession_locked _ _ _) as [r cs]. injection Hs as <-. apply auth_goto; auto.
Qed.
Lemma auth_stream tid conn w p i h h' : hb_conns h !! conn = Some w ->
  stream_step tid conn w p i h = Some h' -> auth_ok h -> auth_ok h'.
Proof.
  intros Hw Hs Hok. destruct p, i; try done; cbn [stream_step] in Hs.
  all: try (destruct (live _ _); [discriminate Hs|]).
  all: try (injection Hs as <-; core; try (apply auth_goto; [done|]); done).
  - destruct (sessionFor _ _) as [o r]. injection Hs as <-. apply auth_goto; auto.
  - destruct (ReleaseStats_locked _ _ _ _) as [r cs]. injection Hs as <-. apply auth_after; auto.
  - injection Hs as <-. destruct latest; by core.
  - injection Hs as <-. destruct (live _ _); by core.
  - destruct last0 as [[ts p]|]; [|done]. injection Hs as <-. core. by apply auth_goto.
  - injection Hs as <-. apply auth_goto; [done|]. eapply auth_exec; [exact Hw| |done].
    intros s H. eapply (ao_exec _ Hok _ _ s Hw). set_solver.
  - destruct (receive _ _) as [[[e|] b]|]; simpl in Hs; [..|done]; injection Hs as <-; core; [|apply auth_goto]; auto.
  - destruct (Unsubscribe _ _) as [b|]; simpl in Hs; [|done]. injection Hs as <-. apply auth_goto; auto.
Qed.
Lemma auth_tstep tid i h h' :
  (forall u, StepUpRequired (hb_db h) (Some u) = false -> S u) -> tstep tid i h = Some h' -> auth_ok h -> auth_ok h'.
Proof.
  intros HS (t & w & Ht & Hw & [H|H])%tstep_inv Hok; [|by eapply auth_stream].
  eapply auth_pump; [exact Hw|by eapply ao_pc|apply HS|exact H|done].
Qed.
Lemma auth_step l h h' : hub_wf h ->
  (forall u, StepUpRequired (hb_db h) (Some u) = false -> S u) -> hub_step l h = Some h' -> auth_ok h -> auth_ok h'.
Proof.
  intros Hwf HS Hs Hok. destruct l as [r o a|tid i|ev|d]; simpl in Hs; [|by eapply auth_tstep|..].
  - injection Hs as <-. unfold HandleWS. destruct (rq_User r) as [u|]; [|done].
    destruct o; [|done]. destruct a; [|done]. simpl. destruct Hok as [P E L].
    assert (forall c w, hb_conns h !! c = Some w -> c <> hb_next h) as Hne.
    { intros c w Hw ->. apply (hw_conns _ Hwf) in Hw. lia. }
    constructor; simpl.
    + intros t th w [[<- <-]|[_ Ht]]%lookup_insert_Some Hw; [done|].
      destruct (hw_threads _ Hwf _ _ Ht) as [_ [w0 Hw0]]. rewrite lookup_insert_ne in Hw by (intros E'; by apply Hne in Hw0).
      by eapply P.
    + intros c w s [[<- <-]|[_ Hw]]%lookup_insert_Some; [set_solver|by eapply E].
    + intros c x (w & Hw & Ha)%L. exists w. split; [|done]. rewrite lookup_insert_ne; [done|]. intros E'. by apply Hne in Hw.
  - destruct (Publish _ _) as [b|]; [|done]. injection Hs as <-. by apply auth_broker.
  - injection Hs as <-. by apply auth_db.
Qed.
End Auth.

Lemma auth_mono (S S' : User -> Prop) h : (forall u, S u -> S' u) -> auth_ok S h -> auth_ok S' h.
Proof.
  intros HS [P E L]. assert (forall u, shell S u -> shell S' u) as Hsh by (intros u []; split; auto).
  constructor.
  - intros t th w Ht Hw. specialize (P t th w Ht Hw). destruct (th_pc th); simpl in *; auto.
  - intros c w s Hw Hs. apply Hsh. by eapply E.
  - intros c x (w & Hw & Ha)%L. exists w. split; [done|]. destruct x; simpl in *; auto.
Qed.

(** Some hub on the way satisfied [P]. *)
Definition passed (P : hub -> Prop) (d : db) (ls : list label) : Prop :=
  exists later ls0 h0, ls = later ++ ls0 /\ run (fun _ _ => True) d ls0 h0 /\ P h0.
Definition stepped_up (d : db) (ls : list label) (u : User) : Prop :=
  passed (fun h => StepUpRequired (hb_db h) (Some u) = false) d ls.

Lemma passed_later P d l ls : passed P d ls -> passed P d (l :: ls).
Proof. intros (later & ls0 & h0 & -> & H). by exists (l :: later), ls0, h0. Qed.
Lemma run_auth d ls h : run (fun _ _ => True) d ls h -> auth_ok (stepped_up d ls) h.
Proof.
  induction 1 as [|ls l h h' Hr IH _ Hs]; [by constructor; simpl; [..|intros ? ? ?%elem_of_nil]|].
  eapply auth_step; [by eapply run_wf| |exact Hs|].
  - intros u Hu. by exists [l], ls, h.
  - eapply auth_mono; [|exact IH]. intros u. apply passed_later.
Qed.

(** Every connection is an accepted upgrade of its user's request. *)
Lemma run_upgraded ok d ls h c w : run ok d ls h -> hb_conns h !! c = Some w ->
  exists r, LUpgrade r true true ∈ ls /\ rq_User r = Some (wc_user w).
Proof.
  intros Hr. revert c w. induction Hr as [|ls l h h' Hr IH _ Hs]; [done|]. intros c w Hw.
  assert ((exists w0, hb_conns h !! c = Some w0 /\ wc_user w0 = wc_user w) \/
    exists r, l = LUpgrade r true true /\ rq_User r = Some (wc_user w)) as [(w0 & H0 & <-)|(r & -> & H0)].
  { destruct l as [r o a|tid i|ev|d']; simpl in Hs.
    - injection Hs as <-. unfold HandleWS in Hw. destruct (rq_User r) as [u|] eqn:E; [|by left; exists w].
      destruct o; [|by left; exists w]. destruct a; [|by left; exists w]. simpl in Hw.
      apply lookup_insert_Some in Hw as [[<- <-]|[_ Hw]]; [right|left; by exists w]. by exists r.
    - left. apply tstep_frame in Hs. pose proof (fr_conns _ _ _ Hs c) as E. rewrite Hw in E.
      destruct (hb_conns h !! c) as [w0|]; [|done]. exists w0. split; [done|]. by injection E.
    - destruct (Publish _ _); [|done]. injection Hs as <-. left. by exists w.
    - injection Hs as <-. left. by exists w. }
  - destruct (IH _ _ H0) as (r & ? & ?). exists r. split; [by apply elem_of_cons; right|done].
  - exists r. split; [by apply elem_of_cons; left|done].
Qed.

(** ** Schedules of the hub, and what they lead to

    An infinite schedule is weakly fair to a step of a thread when, again and
    again, the step is taken or cannot be taken.  [leads] is the rule that makes
    something of it. *)

Definition schedule (σ : nat -> hub) (ls : nat -> label) : Prop :=
  hub_wf (σ 0%nat) /\ forall n, hub_step (ls n) (σ n) = Some (σ (S n)).
Definition fair (σ : nat -> hub) (ls : nat -> label) (t : nat) (i : input) : Prop :=
  forall n, exists m, (n <= m)%nat /\ (ls m = LStep t i \/ tstep t i (σ m) = None).

Lemma schedule_wf σ ls n : schedule σ ls -> hub_wf (σ n).
Proof. intros [H0 Hs]. induction n as [|n IH]; [done|]. by eapply hub_step_wf. Qed.

(** From [P] the step is possible and leads to [Q], and nothing else leads out of
    [P] but to [Q]. *)
Lemma leads σ ls (P Q : hub -> Prop) t i n : schedule σ ls -> fair σ ls t i ->
  (forall h, hub_wf h -> P h -> is_Some (tstep t i h)) ->
  (forall l h h', hub_wf h -> P h -> hub_step l h = Some h' -> P h' \/ Q h') ->
  (forall h h', hub_wf h -> P h -> tstep t i h = Some h' -> Q h') ->
  P (σ n) -> exists m, (n <= m)%nat /\ Q (σ m).
Proof.
  intros Hs Hf Hen Hst Hq HP. destruct (Hf n) as (m & Hnm & Hm).
  assert (forall k, (exists j, (n <= j)%nat /\ Q (σ j)) \/ P (σ (k + n)%nat)) as Hk.
  { induction k as [|k [IH|IH]]; [by right|by left|].
    destruct (Hst _ _ _ (schedule_wf _ _ _ Hs) IH (proj2 Hs _)) as [H|H]; [by right|left].
    exists (S (k + n)). split; [lia|done]. }
  destruct (Hk (m - n)%nat) as [H|H]; [done|]. replace (m - n + n)%nat with m in H by lia.
  pose proof (schedule_wf _ _ m Hs) as Hwf. destruct Hm as [E|E]; [|destruct (Hen _ Hwf H); congruence].
  exists (S m). split; [lia|]. eapply Hq; [exact Hwf|exact H|]. pose proof (proj2 Hs m) as Hstep. by rewrite E in Hstep.
Qed.

(** ** One thread *)

Definition at_pc (t conn : nat) (p : pc) (h : hub) : Prop := hb_threads h !! t = Some (mkThread conn p).
Lemma at_goto t conn p h : at_pc t conn p (goto t conn p h).
Proof. apply lookup_insert_eq. Qed.
Lemma step_cases l h h' t conn p : hub_wf h -> at_pc t conn p h -> hub_step l h = Some h' ->
  (at_pc t conn p h' /\ later (hb_ctxs h) (hb_ctxs h')) \/ exists i, l = LStep t i.
Proof.
  intros Hwf Ha Hs. destruct l as [r o a|tid i|ev|d].
  2: destruct (decide (tid = t)) as [->|Hne]; [right; by exists i|left].
  2:{ split; [|by apply tstep_moved in Hs as (th & w & _ & _ & p' & g & r & cs & Hm%moves_later & Hb); rewrite (bc_ctxs _ _ _ _ _ _ _ _ Hb)].
      apply tstep_frame in Hs. unfold at_pc. rewrite (fr_threads _ _ _ Hs); [done|by intros ->|by eapply hw_threads]. }
  all: left; apply other_step in Hs as (_ & Hl & _ & _ & Hk & _); [|done]; split; [by apply Hk|done].
Qed.
Lemma at_step t conn p i h h' : at_pc t conn p h -> tstep t i h = Some h' ->
  exists w, hb_conns h !! conn = Some w /\
    (pump_step t conn w p i h = Some h' \/ stream_step t conn w p i h = Some h').
Proof. intros Ha (th & w & Ht & Hw & H)%tstep_inv. rewrite Ha in Ht. injection Ht as <-. by exists w. Qed.
Lemma at_enabled t conn p i h : hub_wf h -> at_pc t conn p h ->
  (forall w, is_Some (stream_step t conn w p i h)) -> is_Some (tstep t i h).
Proof.
  intros Hwf Ha Hs. unfold tstep. rewrite Ha. simpl. destruct (hw_threads _ Hwf _ _ Ha) as [_ [w Hw]]. simpl in Hw.
  rewrite Hw. simpl. destruct (pump_step _ _ _ _ _ _); [done|apply Hs].
Qed.

(** A thread that can only run goes to its next counter. *)
Lemma runs_on σ ls t conn p (Q : hub -> Prop) n : schedule σ ls -> fair σ ls t IRun ->
  (forall w i h, pump_step t conn w p i h = None) ->
  (forall w i h, i <> IRun -> stream_step t conn w p i h = None) ->
  (forall w h, hb_conns h !! conn = Some w -> exists h', stream_step t conn w p IRun h = Some h' /\ Q h') ->
  at_pc t conn p (σ n) -> exists m, (n <= m)%nat /\ Q (σ m).
Proof.
  intros Hs Hf Hp Hst Hr. apply (leads _ _ (at_pc t conn p) _ _ _ _ Hs Hf).
  - intros h Hwf Ha. unfold tstep. rewrite Ha. simpl. destruct (hw_threads _ Hwf _ _ Ha) as [_ [w Hw]]. simpl in Hw.
    rewrite Hw. simpl. rewrite Hp. destruct (Hr w h Hw) as (h' & -> & _). done.
  - intros l h h' Hwf Ha Hl. destruct (step_cases _ _ _ _ _ _ Hwf Ha Hl) as [[? _]|[i ->]]; [by left|right].
    destruct (at_step _ _ _ _ _ _ Ha Hl) as (w & Hw & [H|H]); [by rewrite Hp in H|].
    assert (i = IRun) as -> by (destruct i; try done; by rewrite Hst in H).
    destruct (Hr w h Hw) as (h1 & E & ?). congruence.
  - intros h h' _ Ha Ht. destruct (at_step _ _ _ _ _ _ Ha Ht) as (w & Hw & [H|H]); [by rewrite Hp in H|].
    destruct (Hr w h Hw) as (h1 & E & ?). congruence.
Qed.

(** A stats goroutine whose context is done stops reading. *)
Definition ending (t conn : nat) (s : string) (c : ctx) (h : hub) : Prop :=
  (exists hid id l, at_pc t conn (GStats s hid id l c) h) /\ live (hb_ctxs h) c = false.
Lemma ending_stops σ ls t conn s c n : schedule σ ls -> fair σ ls t IDone ->
  ending t conn s c (σ n) -> exists m, (n <= m)%nat /\ at_pc t conn (PRelease s (ThenRemove s)) (σ m).
Proof.
  intros Hs Hf. apply (leads _ _ (ending t conn s c) _ _ _ _ Hs Hf).
  - intros h Hwf [(hid & id & l & Ha) Hd]. apply (at_enabled _ _ _ _ _ Hwf Ha). intros w. simpl. by rewrite Hd.
  - intros lb h h' Hwf [(hid & id & l & Ha) Hd] Hl.
    assert (live (hb_ctxs h') c = false) as Hd'.
    { apply not_true_is_false. intros E. assert (later (hb_ctxs h) (hb_ctxs h')) as Hlat.
      { destruct lb as [r o a|tid i|ev|d]; [| |by eapply other_step in Hl as (_ & ? & _)..].
        - by eapply other_step in Hl as (_ & ? & _).
        - apply tstep_moved in Hl as (th & w & _ & _ & p' & g & r & cs & Hm%moves_later & Hb).
          by rewrite (bc_ctxs _ _ _ _ _ _ _ _ Hb). }
      eapply live_later in E; [|exact Hlat]. congruence. }
    destruct (step_cases _ _ _ _ _ _ Hwf Ha Hl) as [[? _]|[i ->]]; [left; split; [by exists hid, id, l|done]|].
    destruct (at_step _ _ _ _ _ _ Ha Hl) as (w & Hw & [H|H]); destruct i; try done; simpl in H.
    + rewrite Hd in H. injection H as <-. right. apply at_goto.
    + injection H as <-. left. split; [|done]. eexists _, _, _. apply at_goto.
    + left. split; [|done]. exists hid, id, l. destruct l as [p|]; injection H as <-; [|done].
      unfold at_pc. by rewrite (sd_threads _ _ (data_side _ _ _ _ _ _ _ _)).
    + injection H as <-. right. apply at_goto.
  - intros h h' Hwf [(hid & id & l & Ha) Hd] Ht. destruct (at_step _ _ _ _ _ _ Ha Ht) as (w & Hw & [H|H]); [done|].
    simpl in H. rewrite Hd in H. injection H as <-. apply at_goto.
Qed.

Lemma remove_gone conn s h w : hb_conns (removeSub conn s h) !! conn = Some w -> wc_subs w !! s = None.
Proof.
  unfold removeSub, on_conn. simpl. rewrite lookup_alter_eq. destruct (hb_conns h !! conn) as [w0|]; [|done].
  intros [= <-]. apply lookup_delete_eq.
Qed.
Definition ended (t conn : nat) (s : string) (h : hub) : Prop :=
  at_pc t conn GDone h /\ forall w, hb_conns h !! conn = Some w -> wc_subs w !! s = None.
Lemma release_ends σ ls t conn s n : schedule σ ls -> fair σ ls t IRun ->
  at_pc t conn (PRelease s (ThenRemove s)) (σ n) -> exists m, (n <= m)%nat /\ ended t conn s (σ m).
Proof.
  intros Hs Hf Ha.
  eapply (runs_on _ _ _ _ _ (fun h => exists o, at_pc t conn (PReleaseObj o s (ThenRemove s)) h) _ Hs Hf) in Ha
    as (n1 & Hn1 & o & Ha); [|done|by intros w []|].
  2:{ intros w h Hw. simpl. destruct (sessionFor _ _) as [o r]. eexists. split; [done|]. exists o. apply at_goto. }
  eapply (runs_on _ _ _ _ _ (at_pc t conn (GRemove s)) _ Hs Hf) in Ha as (n2 & Hn2 & Ha); [|done|by intros w []|].
  2:{ intros w h Hw. simpl. destruct (ReleaseStats_locked _ _ _ _) as [r cs]. eexists. split; [done|]. apply at_goto. }
  eapply (runs_on _ _ _ _ _ (ended t conn s) _ Hs Hf) in Ha as (n3 & Hn3 & Ha); [|done|by intros w []|].
  2:{ intros w h Hw. simpl. eexists. split; [done|]. split; [apply at_goto|]. apply remove_gone. }
  exists n3. split; [lia|done].
Qed.
