(* ===== verification/WsProps.v ===== *)
(** * What the WebSocket hub guarantees

    Streams are opened only with their permission; a session has one live stats
    stream at a time; a stream whose context is done ends.  Each is shown over
    every interleaving of the hub's threads. *)
From S2P Require Import Prelude GoStd AuthStore Rbac Redact Middleware AuthDemo Streams Ws WsFacts WsInv WsLive.

(** ** A small hub: two tabs of one session

    Concrete runs of the hub, on which its theorems are evaluated, and the run in
    which closing a tab makes the session lose track of a stream. *)

Definition ws_user : User :=
  buildUser (demo_user "ann" "annie" "x" false) "sha:cookie-ann" "pwd" [mkEffectiveRole "role-admin" "admin" ["*"] "global" ""].
Definition ws_req : request :=
  mkReq "GET" "/api/v1/ws" "castor.example" "10.0.0.7:5555" true ∅ [] ∅ (Some ws_user) false "" false.
Definition ws_wl : Workload := mkWorkload "c1" "web" KindDocker "local-docker".
Definition ws_frame (type channel sub : string) : wsEnvelope :=
  mkEnv 1 type channel sub "" (Some (mkWsRef "container" "c1")) "" None.
Definition subscribe (t : nat) (channel sub : string) : label :=
  LStep t (IFrame 1000 (ws_frame "subscribe" channel sub) (Some (ws_wl, 2 ^ 3 + 2 ^ 8))).
Definition go_on (t : nat) : label := LStep t IRun.
Definition answer (t : nat) : label := LStep t (IAnswer None 1000).
Definition open_stats (t : nat) (sub : string) : list label :=
  [subscribe t "stats" sub; go_on t; go_on t; answer t].
Definition ws_start : list label := [LUpgrade ws_req true true; LUpgrade ws_req true true].
Definition ws_hub : hub := new_hub (demo_db false).
Definition ws_run (ls : list label) : option hub := execute (fun _ _ => true) ls ws_hub.

(** What a run shows of its last hub. *)
Lemma observe {A} okb ls h0 (f : hub -> A) h v : execute okb ls h0 = Some h -> f <$> execute okb ls h0 = Some v -> f h = v.
Proof. intros ->. by intros [=]. Qed.

(** Both tabs open a stats stream: the second replaces the first. *)
Definition ws_two_tabs : list label := ws_start ++ open_stats 0 "s1" ++ open_stats 1 "s2".

(** Tab 0 asks for a stream; tab 1 closes before tab 0 holds the session's object;
    tab 0 ends up with an object nobody can find, and opens a second stream. *)
Definition ws_close_race : list label :=
  ws_start ++ [subscribe 0 "stats" "s1"] ++ [LStep 1 IReadError; go_on 1; go_on 1; go_on 1]
  ++ [go_on 0; go_on 0; answer 0] ++ open_stats 0 "s2".

(** A tab opens a shell and types. *)
Definition ws_shell : list label :=
  [LUpgrade ws_req true true; subscribe 0 "exec" "e1"; answer 0;
   LStep 0 (IFrame 1000 (mkEnv 1 "data" "exec" "e1" "" None "" (Some (<["stdin" := JString "ls"]> ∅))) None)].

(** The stats goroutines whose context is not done. *)
Definition live_stats (h : hub) : list string :=
  omap (fun x => match th_pc x.2 with
                 | GStats s _ _ _ c => if live (hb_ctxs h) c then Some s else None
                 | _ => None
                 end) (map_to_list (hb_threads h)).

Example two_tabs_live : live_stats <$> ws_run ws_two_tabs = Some ["s2"].
Proof. by vm_compute. Qed.
(** Two live stats streams in one session, no tab closing: the rule of
    streams.go is broken by the closing of another tab. *)
Lemma ws_close_race_two_live :
  exists h, ws_run ws_close_race = Some h /\ live_stats h = ["s1"; "s2"] /\
    forallb (fun x => match th_pc x.2 with PTearObj _ => false | _ => true end) (map_to_list (hb_threads h)) = true.
Proof.
  destruct (ws_run ws_close_race) as [h|] eqn:E; [|by vm_compute in E]. exists h. split; [done|]. split.
  - refine (observe _ _ _ live_stats _ _ E _). by vm_compute.
  - refine (observe _ _ _ (fun h => forallb _ (map_to_list (hb_threads h))) _ _ E _). by vm_compute.
Qed.

(** A schedule for a stats goroutine whose context is done: it runs to its end,
    then nothing happens but writes of the database. *)
Definition unwinding (t : nat) (n : nat) : label :=
  match n with
  | 0 => LStep t IDone
  | 1 | 2 | 3 => LStep t IRun
  | _ => LDb (demo_db false)
  end%nat.
Fixpoint replay (ls : nat -> label) (h : hub) (n : nat) : hub :=
  match n with
  | 0%nat => h
  | S n => let h' := replay ls h n in default h' (hub_step (ls n) h')
  end.
Lemma stream_runs t conn p i h h' : hub_wf h -> at_pc t conn p h -> (forall w, pump_step t conn w p i h = None) ->
  (forall w, hb_conns h !! conn = Some w -> stream_step t conn w p i h = Some h') -> tstep t i h = Some h'.
Proof.
  intros Hwf Ha Hp Hs. unfold tstep. rewrite Ha. simpl. destruct (hw_threads _ Hwf _ _ Ha) as [_ [w Hw]]. simpl in Hw.
  rewrite Hw. simpl. by rewrite Hp, Hs.
Qed.
Lemma unwinding_fair h t conn s hid id l c : hub_wf h -> at_pc t conn (GStats s hid id l c) h ->
  live (hb_ctxs h) c = false ->
  let σ := replay (unwinding t) h in
  schedule σ (unwinding t) /\ fair σ (unwinding t) t IDone /\ fair σ (unwinding t) t IRun.
Proof.
  intros Hwf H0 Hd σ.
  assert (forall n h', hub_step (unwinding t n) (σ n) = Some h' -> σ (S n) = h') as HS by (intros n h' E; subst σ; simpl; by rewrite E).
  assert (exists h1, hub_step (unwinding t 0) (σ 0%nat) = Some h1 /\ at_pc t conn (PRelease s (ThenRemove s)) h1) as (h1 & E1 & H1).
  { eexists. split; [|apply at_goto]. apply (stream_runs _ conn _ _ _ _ Hwf H0); [done|]. intros w _. simpl. by rewrite Hd. }
  pose proof (hub_step_wf _ _ _ Hwf E1) as Hwf1. pose proof (HS _ _ E1) as S1.
  assert (exists h2 o, hub_step (unwinding t 1) (σ 1%nat) = Some h2 /\ at_pc t conn (PReleaseObj o s (ThenRemove s)) h2)
    as (h2 & o & E2 & H2).
  { rewrite S1. assert (is_Some (hb_conns h1 !! conn)) as [w Hw] by exact (proj2 (hw_threads _ Hwf1 _ _ H1)).
    destruct (sessionFor (wc_sessionKey w) (hb_reg h1)) as [o r] eqn:Eo. eexists _, o. split; [|apply at_goto].
    apply (stream_runs _ conn _ _ _ _ Hwf1 H1); [done|]. intros w'. rewrite Hw. intros [= <-]. simpl. by rewrite Eo. }
  pose proof (HS _ _ E2) as S2'. pose proof E2 as FE2. rewrite S1 in FE2. pose proof (hub_step_wf _ _ _ Hwf1 FE2) as Hwf2.
  assert (exists h3, hub_step (unwinding t 2) (σ 2%nat) = Some h3 /\ at_pc t conn (GRemove s) h3) as (h3 & E3 & H3).
  { rewrite S2'. destruct (ReleaseStats_locked o s (hb_reg h2) (hb_ctxs h2)) as [r cs] eqn:Eo. eexists. split; [|apply at_goto].
    apply (stream_runs _ conn _ _ _ _ Hwf2 H2); [done|]. intros w _. simpl. by rewrite Eo. }
  pose proof (HS _ _ E3) as S3. pose proof E3 as FE3. rewrite S2' in FE3. pose proof (hub_step_wf _ _ _ Hwf2 FE3) as Hwf3.
  assert (exists h4, hub_step (unwinding t 3) (σ 3%nat) = Some h4 /\ at_pc t conn GDone h4) as (h4 & E4 & H4).
  { rewrite S3. eexists. split; [|apply at_goto]. by apply (stream_runs _ conn _ _ _ _ Hwf3 H3). }
  pose proof (HS _ _ E4) as S4.
  assert (forall k, at_pc t conn GDone (σ (4 + k)%nat)) as Hk
    by (induction k as [|k IH]; [exact (eq_ind_r (at_pc t conn GDone) H4 S4)|exact IH]).
  assert (forall n i, exists m, (n <= m)%nat /\ (unwinding t m = LStep t i \/ tstep t i (σ m) = None)) as Hf.
  { intros n i. exists (4 + n)%nat. split; [lia|right]. unfold tstep. rewrite (Hk n : hb_threads _ !! _ = _). simpl. by destruct (hb_conns _ !! _). }
  split_and!; [|intros n; apply Hf..]. split; [exact Hwf|].
  intros [|[|[|[|n]]]]; [by rewrite (HS _ _ E1)|by rewrite (HS _ _ E2)|by rewrite (HS _ _ E3)|by rewrite (HS _ _ E4)|done].
Qed.

(** ** What the WebSocket hub guarantees

    Streams are opened only with their permission; a session has one live stats
    stream at a time; a stream whose context is done ends.  Each is shown over
    every interleaving of the hub's threads. *)

(** C7 One live stats stream per session, over every interleaving of its tabs'
    read pumps and stream goroutines in which no tab is closed in the middle of
    another tab's acquisition: two goroutines of the session whose contexts are
    not done are the same one, unless some session object is just being closed. *)
Theorem ws_one_live_stats d k ls h t1 t2 c1 c2 s1 s2 i1 i2 w1 w2 l1 l2 x1 x2 :
  run (calm k) d ls h ->
  hb_threads h !! t1 = Some (mkThread c1 (GStats s1 i1 w1 l1 x1)) ->
  hb_threads h !! t2 = Some (mkThread c2 (GStats s2 i2 w2 l2 x2)) ->
  key_of h c1 = Some k -> key_of h c2 = Some k ->
  live (hb_ctxs h) x1 = true -> live (hb_ctxs h) x2 = true ->
  t1 = t2 \/ exists o, closing o h.
Proof.
  intros Hr Ht1 Ht2 Hk1 Hk2 Hl1 Hl2. pose proof (run_wf _ _ _ _ Hr) as Hwf. apply one_live_run in Hr as [_ Hlive].
  assert (forall x, live (hb_ctxs h) x = true -> live (hb_ctxs h) (tail x) = true) as Htail.
  { intros [|j x]; [done|]. by intros [_ ?]%andb_true_iff. }
  destruct (Hlive _ _ (tail x1) Ht1 eq_refl Hk1 (Htail _ Hl1)) as (o1 & hd1 & Ha1 & He1 & [H1|H1]); [|by right; exists o1].
  destruct (Hlive _ _ (tail x2) Ht2 eq_refl Hk2 (Htail _ Hl2)) as (o2 & hd2 & Ha2 & He2 & [H2|H2]); [|by right; exists o2].
  left. eapply (hw_unique _ Hwf _ _ _ _ (tail x1) (tail x2)); [exact Ht1|exact Ht2|done..|]. congruence.
Qed.
Lemma ws_one_live_stats_witness :
  exists h t s i w l x, run (calm "sha:cookie-ann") (demo_db false) (rev ws_two_tabs) h /\
    hb_threads h !! t = Some (mkThread 1 (GStats s i w l x)) /\ live (hb_ctxs h) x = true /\
    forall t' c' s' i' w' l' x', hb_threads h !! t' = Some (mkThread c' (GStats s' i' w' l' x')) ->
      key_of h c' = Some "sha:cookie-ann" -> live (hb_ctxs h) x' = true -> t = t' \/ exists o, closing o h.
Proof.
  destruct (execute (calmb "sha:cookie-ann") ws_two_tabs ws_hub) as [h|] eqn:E; [|by vm_compute in E].
  assert (run (calm "sha:cookie-ann") (demo_db false) (rev ws_two_tabs ++ []) h) as Hr.
  { eapply (run_execute _ (calmb "sha:cookie-ann")); [apply calmb_ok|apply run_nil|exact E]. }
  rewrite app_nil_r in Hr.
  assert (hb_threads h !! 3%nat = Some (mkThread 1 (GStats "s2" "local" "c1" None [5; 4; 1]%nat))) as Ht
    by (refine (observe _ _ _ (fun h => hb_threads h !! 3%nat) _ _ E _); by vm_compute).
  assert (live (hb_ctxs h) [5; 4; 1]%nat = true) as Hl
    by (refine (observe _ _ _ (fun h => live (hb_ctxs h) [5; 4; 1]%nat) _ _ E _); by vm_compute).
  assert (key_of h 1 = Some "sha:cookie-ann") as Hk
    by (refine (observe _ _ _ (fun h => key_of h 1) _ _ E _); by vm_compute).
  exists h. eexists _, _, _, _, _, _. split; [exact Hr|]. split; [exact Ht|]. split; [exact Hl|].
  intros t' c' s' i' w' l' x' Ht' Hk' Hl'.
  exact (ws_one_live_stats _ _ _ _ _ _ _ _ _ _ _ _ _ _ _ _ _ _ Hr Ht Ht' Hk Hk' Hl Hl').
Defined.

(** C4 Every call the hub makes on a provider comes from a connection whose
    upgrade carried a user with the permission for it, over every interleaving; a
    shell, and every keystroke and window size sent to one, also needs that the
    user's second factor was not outstanding at some earlier point of the run. *)
Theorem ws_calls_authorized d ls h conn x :
  run (fun _ _ => True) d ls h -> (conn, x) ∈ hb_log h ->
  exists w r, hb_conns h !! conn = Some w /\ LUpgrade r true true ∈ ls /\ rq_User r = Some (wc_user w) /\
    match x with
    | CStats _ => Can (Some (wc_user w)) "docker.container.stats" GlobalScope = true
    | CLogs _ _ | CInspect _ => Can (Some (wc_user w)) "docker.container.logs" GlobalScope = true
    | CExec _ _ | CStdin _ _ | CResize _ _ _ =>
        Can (Some (wc_user w)) "docker.container.exec" GlobalScope = true /\ stepped_up d ls (wc_user w)
    end.
Proof.
  intros Hr Hx. destruct (ao_log _ _ (run_auth _ _ _ Hr) _ _ Hx) as (w & Hw & Ha).
  destruct (run_upgraded _ _ _ _ _ _ Hr Hw) as (r & Hup & Hu). exists w, r. by split_and!.
Qed.
Lemma ws_calls_authorized_witness :
  exists h w r, run (fun _ _ => True) (demo_db false) (rev ws_shell) h /\ (0%nat, CStdin "e1" "ls") ∈ hb_log h /\
    hb_conns h !! 0%nat = Some w /\ LUpgrade r true true ∈ rev ws_shell /\ rq_User r = Some (wc_user w) /\
    Can (Some (wc_user w)) "docker.container.exec" GlobalScope = true.
Proof.
  destruct (ws_run ws_shell) as [h|] eqn:E; [|by vm_compute in E].
  assert (run (fun _ _ => True) (demo_db false) (rev ws_shell ++ []) h) as Hr.
  { eapply (run_execute _ (fun _ _ => true)); [done|apply run_nil|exact E]. }
  rewrite app_nil_r in Hr.
  assert ((0%nat, CStdin "e1" "ls") ∈ hb_log h) as Hx.
  { apply list_elem_of_lookup_2 with 1%nat. refine (observe _ _ _ (fun h => hb_log h !! 1%nat) _ _ E _). by vm_compute. }
  destruct (ws_calls_authorized _ _ _ _ _ Hr Hx) as (w & r & Hw & Hin & Hu & Hc & _).
  exists h, w, r. split_and!; assumption.
Defined.

(** C26 A stats goroutine whose context is done ends, and its subscription is gone
    from the connection: under every schedule that is weakly fair to the
    goroutine, whatever the other threads, the samples and the ticker do. *)
Theorem ws_done_stats_ends σ ls t conn s hid id l c n :
  schedule σ ls -> fair σ ls t IDone -> fair σ ls t IRun ->
  hb_threads (σ n) !! t = Some (mkThread conn (GStats s hid id l c)) -> live (hb_ctxs (σ n)) c = false ->
  exists m, (n <= m)%nat /\ hb_threads (σ m) !! t = Some (mkThread conn GDone) /\
    forall w, hb_conns (σ m) !! conn = Some w -> wc_subs w !! s = None.
Proof.
  intros Hs Hd Hr Ht Hl.
  destruct (ending_stops σ ls t conn s c n Hs Hd) as (n1 & Hn1 & H1); [by split; [exists hid, id, l|]|].
  destruct (release_ends _ _ _ _ _ _ Hs Hr H1) as (n2 & Hn2 & H2 & H3). exists n2. split; [lia|done].
Qed.
Lemma ws_done_stats_ends_witness :
  exists σ ls m, schedule σ ls /\ hb_threads (σ 0%nat) !! 2%nat = Some (mkThread 0 (GStats "s1" "local" "c1" None [3; 2; 0]%nat)) /\
    hb_threads (σ m) !! 2%nat = Some (mkThread 0 GDone).
Proof.
  destruct (ws_run ws_two_tabs) as [h|] eqn:E; [|by vm_compute in E].
  assert (run (fun _ _ => True) (demo_db false) (rev ws_two_tabs ++ []) h) as Hr.
  { eapply (run_execute _ (fun _ _ => true)); [done|apply run_nil|exact E]. }
  assert (hb_threads h !! 2%nat = Some (mkThread 0 (GStats "s1" "local" "c1" None [3; 2; 0]%nat))) as Ht
    by (refine (observe _ _ _ (fun h => hb_threads h !! 2%nat) _ _ E _); by vm_compute).
  assert (live (hb_ctxs h) [3; 2; 0]%nat = false) as Hl
    by (refine (observe _ _ _ (fun h => live (hb_ctxs h) [3; 2; 0]%nat) _ _ E _); by vm_compute).
  destruct (unwinding_fair _ _ _ _ _ _ _ _ (run_wf _ _ _ _ Hr) Ht Hl) as (Hs & Hf1 & Hf2).
  destruct (ws_done_stats_ends _ _ 2 0 _ _ _ _ _ 0 Hs Hf1 Hf2 Ht Hl) as (m & _ & Hm & _).
  exists (replay (unwinding 2) h), (unwinding 2), m. split; [exact Hs|]. split; [exact Ht|exact Hm].
Defined.
