(* ===== verification/VmApi.v ===== *)
(** * The VM surface of the API

    server/internal/api/vm.go, vm_mutations.go, vm_ext.go, bulk.go,
    maintenance.go, vm_routes.go, and store/pools.go: every handler over the
    registry of hypervisor providers, with the middlewares each route is mounted
    behind.  A provider is any instance of [Driver]: its methods are the calls
    [pcall], the optional interfaces it implements are observations. *)
From S2P Require Import Prelude GoStd VProvider AuthStore Rbac Redact Middleware.

(** ** What a handler may ask of a provider *)

(** The optional interfaces (vprovider/extended.go). *)
Inductive iface :=
| IConsole | INetworkWriter | IStorageProvider | IDeviceManager | IGuestAgent | ISnapshotManager | IDiskResizer
| ITemplateManager | IResourceController | IDiskQoSManager | IStorageMigrator | IMaintenance.
#[export] Instance iface_eq_dec : EqDecision iface.
Proof. solve_decision. Defined.

(** The methods, by what they answer beside an error. *)
Inductive pcall : Type -> Type :=
| QListHosts : pcall (list Host)
| QListVMs (opts : ListOptions) : pcall (list VM)
| QGetVM (vm : string) : pcall (VM * json)
| QListClusters : pcall (list Cluster)
| QListStorage : pcall (list StoragePool)
| QListNetworks : pcall (list Network)
| QListSnapshots (vm : string) : pcall (list Snapshot)
| QTopology (cluster : string) : pcall Topology
| QMetrics (vm : string) (window : MetricWindow) : pcall (string * list MetricSample)
| QConsole (vm : string) : pcall ConsoleEndpoint
| QListVolumes (storage : string) : pcall (list Volume)
| QGuestInfo (vm : string) : pcall GuestInfo
| PCreate (spec : VMSpec) : pcall (option Task)
| PPower (vm op : string) : pcall (option Task)
| PDelete (vm : string) (opts : DeleteOptions) : pcall (option Task)
| PReconfigure (vm : string) (spec : VMReconfigureSpec) : pcall (option Task)
| PSnapshot (vm : string) (opts : SnapshotOptions) : pcall (option Task)
| PRevert (vm snap : string) : pcall (option Task)
| PClone (vm : string) (spec : CloneSpec) : pcall (option Task)
| PMigrate (vm host : string) (opts : MigrateOptions) : pcall (option Task)
| PCreateNetwork (spec : NetworkSpec) : pcall (option Task)
| PDeleteNetwork (id : string) : pcall (option Task)
| PCreateVolume (spec : VolumeSpec) : pcall (option Task)
| PDeleteVolume (storage vol : string) : pcall (option Task)
| PUploadISO (storage name : string) (size : Z) (body : string * option string) : pcall Volume
| PAttachDisk (vm : string) (spec : DiskSpec) : pcall (option Task)
| PDetachDisk (vm disk : string) : pcall (option Task)
| PAttachNIC (vm : string) (spec : NICSpec) : pcall (option Task)
| PDetachNIC (vm nic : string) : pcall (option Task)
| PMountISO (vm path : string) : pcall (option Task)
| PUnmountISO (vm : string) : pcall (option Task)
| PDeleteSnapshot (vm snap : string) : pcall (option Task)
| PResizeDisk (vm disk : string) (gb : f64) : pcall (option Task)
| PMarkTemplate (vm : string) (isTemplate : bool) : pcall (option Task)
| PSetResources (vm : string) (spec : ResourceSpec) : pcall (option Task)
| PSetDiskQoS (vm disk : string) (qos : DiskQoS) : pcall (option Task)
| PMigrateStorage (vm disk target : string) : pcall (option Task)
| PEnterMaintenance (host : string) (evacuate : bool) : pcall (option Task)
| PExitMaintenance (host : string) : pcall (option Task).

(** An error: the sentinel [errors.Is] finds in it, if any, and its text. *)
Record prov_err := mkPErr { pe_Is : option verr; pe_Text : string }.

(** A call may read the clock several times. *)
Class Driver (P : Type) := {
  dv_Kind : P -> string;
  dv_ID : P -> string;
  dv_Capabilities : P -> Z;
  dv_implements : P -> iface -> bool;
  dv_call : forall A, pcall A -> (nat -> time) -> P -> result prov_err A * P }.
Arguments dv_call {P _} [A] _ _ _.

(** ** Resource pools (store/pools.go) *)

Record ResourcePool := mkPool {
  rp_ID : string; rp_Name : string; rp_ProviderID : string; rp_CPUShares : Z; rp_CPULimitMHz : Z;
  rp_MemShares : Z; rp_MemLimitMB : Z; rp_Notes : string; rp_CreatedAt : Z; rp_UpdatedAt : Z }.

Definition pool_le (a b : ResourcePool) : Prop := str_le (rp_Name a) (rp_Name b).
#[export] Instance pool_le_dec a b : Decision (pool_le a b).
Proof. unfold pool_le. apply _. Defined.
Definition ListResourcePools (providerID : string) (l : list ResourcePool) : list ResourcePool :=
  merge_sort pool_le (filter (fun p => providerID = "" \/ rp_ProviderID p = providerID) l).
Definition GetResourcePool (id : string) (l : list ResourcePool) : result store_err ResourcePool :=
  match list_find (fun p => rp_ID p = id) l with Some (_, p) => Ok p | None => Err ErrNotFound end.
Definition pool_stamped (now : Z) (p : ResourcePool) : ResourcePool :=
  mkPool (rp_ID p) (rp_Name p) (rp_ProviderID p) (rp_CPUShares p) (rp_CPULimitMHz p) (rp_MemShares p) (rp_MemLimitMB p)
    (rp_Notes p) now now.
(** The id is the primary key; a name is unique within a provider. *)
Definition CreateResourcePool (p : ResourcePool) (now : Z) (l : list ResourcePool) : result store_err (list ResourcePool) :=
  match filter (fun q => rp_ID q = rp_ID p \/ rp_ProviderID q = rp_ProviderID p /\ rp_Name q = rp_Name p) l with
  | [] => Ok (l ++ [pool_stamped now p])
  | _ => Err ErrConstraint
  end.
Definition pool_updated (now : Z) (p q : ResourcePool) : ResourcePool :=
  mkPool (rp_ID q) (rp_Name q) (rp_ProviderID q) (rp_CPUShares p) (rp_CPULimitMHz p) (rp_MemShares p) (rp_MemLimitMB p)
    (rp_Notes p) (rp_CreatedAt q) now.
Definition UpdateResourcePool (p : ResourcePool) (now : Z) (l : list ResourcePool) : result store_err (list ResourcePool) :=
  match filter (fun q => rp_ID q = rp_ID p) l with
  | [] => Err ErrNotFound
  | _ => Ok ((fun q => if bool_decide (rp_ID q = rp_ID p) then pool_updated now p q else q) <$> l)
  end.
Definition DeleteResourcePool (id : string) (l : list ResourcePool) : result store_err (list ResourcePool) :=
  match filter (fun q => rp_ID q = id) l with
  | [] => Err ErrNotFound
  | _ => Ok (filter (fun q => rp_ID q <> id) l)
  end.

(** ** Requests and replies *)

Record vmSnapshotBody := mkSnapBody { sb_Name : string; sb_Description : string; sb_Memory : bool; sb_Quiesce : bool }.
Record vmMigrateBody := mkMigBody { mb_TargetHost : string; mb_Live : bool; mb_TargetStorage : string }.
Record poolInput := mkPoolInput {
  pi_Name : string; pi_ProviderID : string; pi_CPUShares : Z; pi_CPULimitMHz : Z; pi_MemShares : Z; pi_MemLimitMB : Z;
  pi_Notes : string }.
Record bulkTarget := mkTarget { bt_ProviderID : string; bt_VMID : string }.
Record bulkRequest := mkBulk {
  bq_Action : string; bq_Op : string; bq_Name : string; bq_Force : bool; bq_Targets : list bulkTarget }.
Record bulkResult := mkBulkResult {
  br_ProviderID : string; br_VMID : string; br_OK : bool; br_Error : string; br_TaskID : string }.
Record bulkResponse := mkBulkResponse {
  bp_Action : string; bp_Op : string; bp_Succeeded : Z; bp_Failed : Z; bp_Results : list bulkResult }.
Record provInfo := mkProvInfo { pv_ID : string; pv_Kind : string; pv_Capabilities : list string }.
Record poolView := mkPoolView {
  pw_Pool : ResourcePool; pw_MemberVMIDs : list string; pw_UsedVCPUs : Z; pw_UsedMemoryMB : Z }.

(** What a reply's body encodes. *)
Inductive vbody : Type :=
| VError (e : APIError) | VNothing | VTask (t : option Task) | VProvs (l : list provInfo) | VClusters (l : list Cluster)
| VTopology (t : Topology) | VVMs (l : list VM) | VDetail (d : VM * json) | VSnapshots (l : list Snapshot)
| VMetrics (m : string * list MetricSample) | VHosts (l : list Host) | VStorage (l : list StoragePool) | VNetworks (l : list Network)
| VConsole (c : ConsoleEndpoint) | VVolumes (l : list Volume) | VVolume (v : Volume) | VGuest (g : GuestInfo)
| VPools (l : list poolView) | VPool (p : poolView) | VBulk (b : bulkResponse).
Definition reply : Type := Z * vbody.
Definition error_reply (e : APIError) : reply := (e_Status e, VError e).

Definition ErrMethodNotAllowed := mkErr 405 "method_not_allowed" "This operation is not supported by the target orchestrator.".
Definition APIError_Error (e : APIError) : string := e_Code e +:+ ": " +:+ e_Message e.

(** [vmProviderError]: an API error, or the provider's own, which [WriteError]
    answers with a 500. *)
Definition vmProviderError (e : prov_err) : APIError + string :=
  match pe_Is e with
  | Some ErrUnsupported => inl ErrMethodNotAllowed
  | Some VProvider.ErrNotFound => inl ErrAPINotFound
  | Some VProvider.ErrConflict => inl ErrConflict
  | Some ErrInvalidSpec => inl (Errorf ErrValidation "Invalid specification for this hypervisor.")
  | None => inr (pe_Text e)
  end.
Definition written (e : APIError + string) : APIError := match e with inl e => e | inr _ => ErrInternal end.
Definition error_text (e : APIError + string) : string := match e with inl e => APIError_Error e | inr s => s end.

Definition labelPool := "unihv.pool".

Section Api.
(** [clock n i]: the i-th reading a provider makes during the n-th timed call;
    [unix]: what the store's own readings give; [uuid]: crypto/rand. *)
Context {P : Type} `{Driver P} (clock : nat -> nat -> time) (unix : nat -> Z) (uuid : nat -> string).

Record vsrv := mkVsrv {
  va_db : db; va_reg : gmap string P; va_pools : list ResourcePool; va_rec : auditRecord; va_tick : nat }.
Definition set_reg (r : gmap string P) (s : vsrv) : vsrv := mkVsrv (va_db s) r (va_pools s) (va_rec s) (va_tick s).
Definition set_pools (l : list ResourcePool) (s : vsrv) : vsrv := mkVsrv (va_db s) (va_reg s) l (va_rec s) (va_tick s).
Definition set_rec (a : auditRecord) (s : vsrv) : vsrv := mkVsrv (va_db s) (va_reg s) (va_pools s) a (va_tick s).
Definition set_db (d : db) (s : vsrv) : vsrv := mkVsrv d (va_reg s) (va_pools s) (va_rec s) (va_tick s).
Definition ticked (s : vsrv) : vsrv := mkVsrv (va_db s) (va_reg s) (va_pools s) (va_rec s) (S (va_tick s)).

(** Handlers with early returns. *)
Definition VM_ (A : Type) : Type := vsrv -> result APIError A * vsrv.
#[export] Instance VM_ret : MRet VM_ := fun A a s => (Ok a, s).
#[export] Instance VM_bind : MBind VM_ := fun A B f m s =>
  match m s with (Ok a, s') => f a s' | (Err e, s') => (Err e, s') end.
Definition fail {A} (e : APIError) : VM_ A := fun s => (Err e, s).
Definition vguard (cond : bool) (e : APIError) : VM_ unit := if cond then fail e else mret tt.
Definition decoded {A} (b : result APIError A) : VM_ A := fun s => (b, s).
Definition param (name : string) (r : request) : string := default "" (rq_Params r !! name).
(** Errors of the store that are not mapped are not API errors. *)
Definition pools_write (f : Z -> list ResourcePool -> result store_err (list ResourcePool)) : VM_ unit := fun s =>
  match f (unix (va_tick s)) (va_pools s) with
  | Ok l => (Ok tt, set_pools l (ticked s))
  | Err _ => (Err ErrInternal, ticked s)
  end.
Definition pool_read (id : string) : VM_ ResourcePool := fun s =>
  (match GetResourcePool id (va_pools s) with Ok p => Ok p | Err _ => Err ErrInternal end, s).
Definition NewUUID : VM_ string := fun s => (Ok (uuid (va_tick s)), ticked s).

(** A method call on the provider registered under [id]. *)
Definition prov_call {A} (id : string) (c : pcall A) (s : vsrv) : option (result prov_err A * vsrv) :=
  p ← va_reg s !! id;
  let '(res, p') := dv_call c (clock (va_tick s)) p in
  Some (res, ticked (set_reg (<[id := p']> (va_reg s)) s)).
(** The same, its error written. *)
Definition invoke {A} (id : string) (c : pcall A) : VM_ A := fun s =>
  match prov_call id c s with
  | Some (Ok a, s) => (Ok a, s)
  | Some (Err e, s) => (Err (written (vmProviderError e)), s)
  | None => (Err ErrInternal, s)
  end.

(** [resolveVMProvider]: the id of a registered provider. *)
Definition resolveVMProvider (r : request) : VM_ string := fun s =>
  let id := param "providerID" r in
  (match va_reg s !! id with
   | Some _ => Ok id
   | None => Err (Errorf ErrAPINotFound ("Unknown hypervisor provider: " +:+ id))
   end, s).
(** The type assertion to an optional interface, and the capability. *)
Definition supports (i : iface) (cap : Z) (p : P) : bool := dv_implements p i && Has (dv_Capabilities p) cap.
Definition require (id : string) (i : iface) (cap : Z) : VM_ unit := fun s =>
  (if default false (supports i cap <$> va_reg s !! id) then Ok tt else Err ErrMethodNotAllowed, s).

Definition ok_ (b : vbody) : VM_ reply := mret (200, b).
Definition created (b : vbody) : VM_ reply := mret (201, b).

(** ** Reads (vm.go) *)

Definition VMProviders : VM_ reply := fun s =>
  (Ok (200, VProvs ((fun p => mkProvInfo (dv_ID p) (dv_Kind p) (Strings (dv_Capabilities p))) <$> Registry_List (va_reg s))), s).
(** The handlers that read one thing of one provider. *)
Definition read_of {A} (r : request) (c : pcall A) (b : A -> vbody) : VM_ reply :=
  id ← resolveVMProvider r; a ← invoke id c; ok_ (b a).
Definition VMClusters (r : request) : VM_ reply := read_of r QListClusters VClusters.
Definition VMClusterTopology (r : request) : VM_ reply := read_of r (QTopology (param "clusterID" r)) VTopology.
Definition VMs (r : request) (host cluster state : string) : VM_ reply :=
  read_of r (QListVMs (mkListOptions host cluster state ∅)) VVMs.
Definition VMDetailHandler (r : request) : VM_ reply := read_of r (QGetVM (param "vmID" r)) VDetail.
Definition VMSnapshots (r : request) : VM_ reply := read_of r (QListSnapshots (param "vmID" r)) VSnapshots.
Definition VMMetrics (r : request) : VM_ reply := read_of r (QMetrics (param "vmID" r) (mkWindow 0 0 30)) VMetrics.
Definition VMHosts (r : request) : VM_ reply := read_of r QListHosts VHosts.
Definition VMStorage (r : request) : VM_ reply := read_of r QListStorage VStorage.
Definition VMNetworks (r : request) : VM_ reply := read_of r QListNetworks VNetworks.

(** ** Lifecycle (vm_mutations.go) *)

Definition VMPowerOp (r : request) : VM_ reply :=
  id ← resolveVMProvider r;
  let op := param "op" r in
  _ ← vguard (negb (PowerOp_Valid op)) (Errorf ErrValidation ("Unknown power operation: " +:+ op));
  t ← invoke id (PPower (param "vmID" r) op); ok_ (VTask t).
Definition VMCreate (r : request) (body : result APIError VMSpec) : VM_ reply :=
  id ← resolveVMProvider r; spec ← decoded body;
  t ← invoke id (PCreate spec); created (VTask t).
Definition VMReconfigure (r : request) (body : result APIError VMReconfigureSpec) : VM_ reply :=
  id ← resolveVMProvider r; spec ← decoded body;
  t ← invoke id (PReconfigure (param "vmID" r) spec); ok_ (VTask t).
(** [force] and [deleteDisks]: the query parameters. *)
Definition VMDelete (r : request) (force deleteDisks : string) : VM_ reply :=
  id ← resolveVMProvider r;
  t ← invoke id (PDelete (param "vmID" r) (mkDeleteOptions (bool_decide (force = "true")) (bool_decide (deleteDisks = "true"))));
  ok_ (VTask t).
Definition VMSnapshotCreate (r : request) (body : result APIError vmSnapshotBody) : VM_ reply :=
  id ← resolveVMProvider r; b ← decoded body;
  t ← invoke id (PSnapshot (param "vmID" r) (mkSnapshotOptions (sb_Name b) (sb_Description b) (sb_Memory b) (sb_Quiesce b)));
  created (VTask t).
Definition VMSnapshotRevert (r : request) : VM_ reply :=
  id ← resolveVMProvider r; t ← invoke id (PRevert (param "vmID" r) (param "snapID" r)); ok_ (VTask t).
Definition VMClone (r : request) (body : result APIError CloneSpec) : VM_ reply :=
  id ← resolveVMProvider r; b ← decoded body;
  t ← invoke id (PClone (param "vmID" r) (mkCloneSpec (cs_Name b) (cs_HostID b) (cs_StorageID b) (cs_Linked b) (cs_PowerOn b)));
  created (VTask t).
Definition VMMigrate (r : request) (body : result APIError vmMigrateBody) : VM_ reply :=
  id ← resolveVMProvider r; b ← decoded body;
  t ← invoke id (PMigrate (param "vmID" r) (mb_TargetHost b) (mkMigrateOptions (mb_Live b) (mb_TargetStorage b)));
  ok_ (VTask t).

(** ** The optional surface (vm_ext.go) *)

Definition VMConsole (r : request) : VM_ reply :=
  id ← resolveVMProvider r; _ ← require id IConsole CapConsole;
  c ← invoke id (QConsole (param "vmID" r)); ok_ (VConsole c).
Definition VMNetworkCreate (r : request) (body : result APIError NetworkSpec) : VM_ reply :=
  id ← resolveVMProvider r; _ ← require id INetworkWriter CapNetworkWrite; spec ← decoded body;
  t ← invoke id (PCreateNetwork spec); created (VTask t).
Definition VMNetworkDelete (r : request) : VM_ reply :=
  id ← resolveVMProvider r; _ ← require id INetworkWriter CapNetworkWrite;
  t ← invoke id (PDeleteNetwork (param "networkID" r)); ok_ (VTask t).
(** The listing asks for the interface only. *)
Definition VMVolumes (r : request) : VM_ reply :=
  id ← resolveVMProvider r; _ ← require id IStorageProvider 0;
  l ← invoke id (QListVolumes (param "storageID" r)); ok_ (VVolumes l).
Definition VMVolumeCreate (r : request) (body : result APIError VolumeSpec) : VM_ reply :=
  id ← resolveVMProvider r; _ ← require id IStorageProvider CapStorageWrite; spec ← decoded body;
  t ← invoke id (PCreateVolume (mkVolumeSpec (vsp_Name spec) (param "storageID" r) (vsp_CapacityGB spec) (vsp_Format spec)));
  created (VTask t).
Definition VMVolumeDelete (r : request) : VM_ reply :=
  id ← resolveVMProvider r; _ ← require id IStorageProvider CapStorageWrite;
  t ← invoke id (PDeleteVolume (param "storageID" r) (param "volumeID" r)); ok_ (VTask t).
Definition maxISO : Z := Z.shiftl 8 30.
(** [http.MaxBytesReader]. *)
Definition MaxBytesReader (n : Z) (b : string * option string) : string * option string :=
  if n <? Z.of_nat (String.length b.1) then (String.substring 0 (Z.to_nat n) b.1, Some "http: request body too large") else b.
Definition VMISOUpload (r : request) (name : string) (contentLength : Z) (body : string * option string) : VM_ reply :=
  id ← resolveVMProvider r; _ ← require id IStorageProvider CapStorageWrite;
  _ ← vguard (bool_decide (name = "")) (Errorf ErrValidation "name query param is required");
  v ← invoke id (PUploadISO (param "storageID" r) name contentLength (MaxBytesReader maxISO body));
  created (VVolume v).

Definition vmDeviceManager (r : request) : VM_ (string * string) :=
  id ← resolveVMProvider r; _ ← require id IDeviceManager CapHotPlug; mret (id, param "vmID" r).
Definition VMDiskAttach (r : request) (body : result APIError DiskSpec) : VM_ reply :=
  '(id, vm) ← vmDeviceManager r; spec ← decoded body; t ← invoke id (PAttachDisk vm spec); created (VTask t).
Definition VMDiskDetach (r : request) : VM_ reply :=
  '(id, vm) ← vmDeviceManager r; t ← invoke id (PDetachDisk vm (param "diskID" r)); ok_ (VTask t).
Definition VMNICAttach (r : request) (body : result APIError NICSpec) : VM_ reply :=
  '(id, vm) ← vmDeviceManager r; spec ← decoded body; t ← invoke id (PAttachNIC vm spec); created (VTask t).
Definition VMNICDetach (r : request) : VM_ reply :=
  '(id, vm) ← vmDeviceManager r; t ← invoke id (PDetachNIC vm (param "nicID" r)); ok_ (VTask t).
Definition VMISOMount (r : request) (body : result APIError string) : VM_ reply :=
  '(id, vm) ← vmDeviceManager r; path ← decoded body; t ← invoke id (PMountISO vm path); created (VTask t).
Definition VMISOUnmount (r : request) : VM_ reply :=
  '(id, vm) ← vmDeviceManager r; t ← invoke id (PUnmountISO vm); ok_ (VTask t).

Definition VMGuestInfo (r : request) : VM_ reply :=
  id ← resolveVMProvider r; _ ← require id IGuestAgent CapGuestAgent;
  g ← invoke id (QGuestInfo (param "vmID" r)); ok_ (VGuest g).
Definition VMSnapshotDelete (r : request) : VM_ reply :=
  id ← resolveVMProvider r; _ ← require id ISnapshotManager CapSnapshot;
  t ← invoke id (PDeleteSnapshot (param "vmID" r) (param "snapID" r)); ok_ (VTask t).
Definition VMDiskResize (r : request) (body : result APIError f64) : VM_ reply :=
  id ← resolveVMProvider r; _ ← require id IDiskResizer CapDiskResize; gb ← decoded body;
  t ← invoke id (PResizeDisk (param "vmID" r) (param "diskID" r) gb); ok_ (VTask t).
Definition VMMarkTemplate (r : request) (body : result APIError bool) : VM_ reply :=
  id ← resolveVMProvider r; _ ← require id ITemplateManager CapTemplates; b ← decoded body;
  t ← invoke id (PMarkTemplate (param "vmID" r) b); ok_ (VTask t).
Definition VMSetResources (r : request) (body : result APIError ResourceSpec) : VM_ reply :=
  id ← resolveVMProvider r; _ ← require id IResourceController CapResourceControl; spec ← decoded body;
  t ← invoke id (PSetResources (param "vmID" r) spec); ok_ (VTask t).
Definition VMDiskQoS (r : request) (body : result APIError DiskQoS) : VM_ reply :=
  id ← resolveVMProvider r; _ ← require id IDiskQoSManager CapDiskQoS; qos ← decoded body;
  t ← invoke id (PSetDiskQoS (param "vmID" r) (param "diskID" r) qos); ok_ (VTask t).
Definition VMStorageMigrate (r : request) (body : result APIError string) : VM_ reply :=
  id ← resolveVMProvider r; _ ← require id IStorageMigrator CapStorageMigrate; target ← decoded body;
  t ← invoke id (PMigrateStorage (param "vmID" r) (param "diskID" r) target); ok_ (VTask t).
(** The templates need the capability, not the interface. *)
Definition VMTemplates (r : request) : VM_ reply :=
  id ← resolveVMProvider r;
  _ ← (fun s => (if default false ((fun p => Has (dv_Capabilities p) CapTemplates) <$> va_reg s !! id)
                 then Ok tt else Err ErrMethodNotAllowed, s));
  l ← invoke id (QListVMs (mkListOptions "" "" "" {["unihv.template" := "true"]})); ok_ (VVMs l).

(** ** Host maintenance (maintenance.go): an empty body asks for no evacuation *)

Definition VMHostEnterMaintenance (r : request) (body : option (result APIError bool)) : VM_ reply :=
  id ← resolveVMProvider r; _ ← require id IMaintenance CapMaintenance;
  e ← match body with Some b => decoded b | None => mret false end;
  t ← invoke id (PEnterMaintenance (param "hostID" r) e); ok_ (VTask t).
Definition VMHostExitMaintenance (r : request) : VM_ reply :=
  id ← resolveVMProvider r; _ ← require id IMaintenance CapMaintenance;
  t ← invoke id (PExitMaintenance (param "hostID" r)); ok_ (VTask t).

(** ** Resource pools (vm_ext.go) *)

(** The members of a pool, with their sums (an [int64] for the memory, an [int]
    for the processors); a provider that fails has none. *)
Definition poolMembers (pl : ResourcePool) (s : vsrv) : (list string * Z * Z) * vsrv :=
  match prov_call (rp_ProviderID pl) (QListVMs (mkListOptions "" "" "" {[labelPool := rp_ID pl]})) s with
  | Some (Ok vms, s) =>
      ((vm_ID <$> vms, foldl (fun n v => wrap64 (n + vm_VCPUs v)) 0 vms, foldl (fun n v => wrap64 (n + vm_MemoryMB v)) 0 vms), s)
  | Some (Err _, s) => (([], 0, 0), s)
  | None => (([], 0, 0), s)
  end.
Definition toPoolView (pl : ResourcePool) : VM_ poolView := fun s =>
  let '((ids, cpu, mem), s) := poolMembers pl s in (Ok (mkPoolView pl ids cpu mem), s).
Fixpoint toPoolViews (l : list ResourcePool) : VM_ (list poolView) :=
  match l with
  | [] => mret []
  | p :: l => v ← toPoolView p; vs ← toPoolViews l; mret (v :: vs)
  end.
Definition VMPools (providerID : string) : VM_ reply :=
  rows ← (fun s => (Ok (ListResourcePools providerID (va_pools s)), s));
  vs ← toPoolViews rows; ok_ (VPools vs).
Definition VMPoolCreate (body : result APIError poolInput) : VM_ reply :=
  q ← decoded body;
  _ ← vguard (bool_decide (trim_space (pi_Name q) = "") || bool_decide (trim_space (pi_ProviderID q) = ""))
        (Errorf ErrValidation "name and providerId are required");
  known ← (fun s => (Ok (bool_decide (is_Some (va_reg s !! pi_ProviderID q))), s));
  _ ← vguard (negb known) (Errorf ErrValidation ("unknown hypervisor provider: " +:+ pi_ProviderID q));
  id ← NewUUID;
  let rec_ := mkPool id (pi_Name q) (pi_ProviderID q) (pi_CPUShares q) (pi_CPULimitMHz q) (pi_MemShares q) (pi_MemLimitMB q) (pi_Notes q) 0 0 in
  now ← (fun s => (Ok (unix (va_tick s)), s));
  _ ← pools_write (CreateResourcePool rec_);
  v ← toPoolView (pool_stamped now rec_); created (VPool v).
Definition VMPoolUpdate (r : request) (body : result APIError poolInput) : VM_ reply :=
  p ← pool_read (param "poolID" r); q ← decoded body;
  let p := mkPool (rp_ID p) (rp_Name p) (rp_ProviderID p) (pi_CPUShares q) (pi_CPULimitMHz q) (pi_MemShares q) (pi_MemLimitMB q)
             (pi_Notes q) (rp_CreatedAt p) (rp_UpdatedAt p) in
  _ ← pools_write (UpdateResourcePool p); v ← toPoolView p; ok_ (VPool v).
Definition VMPoolDelete (r : request) : VM_ reply :=
  _ ← pools_write (fun _ => DeleteResourcePool (param "poolID" r)); mret (204, VNothing).
Definition VMPoolAssign (r : request) (body : result APIError string) : VM_ reply :=
  id ← resolveVMProvider r; pool ← decoded body;
  _ ← (if bool_decide (pool = "") then mret tt else _ ← pool_read pool; mret tt);
  t ← invoke id (PReconfigure (param "vmID" r) (mkReconf None None [] [] {[labelPool := pool]} None)); ok_ (VTask t).

(** ** Bulk operations (bulk.go) *)

Definition bulkPermForAction (action : string) : string :=
  if bool_decide (action = "power") then "vm.power"
  else if bool_decide (action = "snapshot") then "vm.snapshot"
  else if bool_decide (action = "delete") then "vm.delete" else "".
(** The method the switch on the action calls. *)
Definition bulk_call (q : bulkRequest) (vm : string) : pcall (option Task) :=
  if bool_decide (bq_Action q = "power") then PPower vm (bq_Op q)
  else if bool_decide (bq_Action q = "snapshot") then PSnapshot vm (mkSnapshotOptions (bq_Name q) "" false false)
  else PDelete vm (mkDeleteOptions (bq_Force q) false).
Definition runBulkTarget (u : User) (perm : string) (q : bulkRequest) (t : bulkTarget) (s : vsrv) : bulkResult * vsrv :=
  let res ok err task := mkBulkResult (bt_ProviderID t) (bt_VMID t) ok err task in
  if negb (Can (Some u) perm (mkScope "host" (bt_ProviderID t))) then (res false "forbidden" "", s)
  else match prov_call (bt_ProviderID t) (bulk_call q (bt_VMID t)) s with
       | None => (res false ("unknown provider: " +:+ bt_ProviderID t) "", s)
       | Some (Err e, s) => (res false (error_text (vmProviderError e)) "", s)
       | Some (Ok task, s) => (res true "" (match task with Some tk => task_ID tk | None => "" end), s)
       end.
Fixpoint bulk_targets (u : User) (perm : string) (q : bulkRequest) (l : list bulkTarget) (acc : bulkResponse) (s : vsrv)
    : bulkResponse * vsrv :=
  match l with
  | [] => (acc, s)
  | t :: l =>
      let '(res, s) := runBulkTarget u perm q t s in
      let (y, n) := if br_OK res then (bp_Succeeded acc + 1, bp_Failed acc) else (bp_Succeeded acc, bp_Failed acc + 1) in
      bulk_targets u perm q l (mkBulkResponse (bp_Action acc) (bp_Op acc) y n (bp_Results acc ++ [res])) s
  end.
Definition run_bulk (u : User) (perm : string) (q : bulkRequest) : VM_ reply := fun s =>
  let '(resp, s) := bulk_targets u perm q (bq_Targets q) (mkBulkResponse (bq_Action q) (bq_Op q) 0 0 []) s in
  (Ok (200, VBulk resp), s).
Definition VMBulk (r : request) (body : result APIError bulkRequest) : VM_ reply :=
  match rq_User r with
  | None => fail ErrUnauthenticated
  | Some u =>
      q ← decoded body;
      let perm := bulkPermForAction (bq_Action q) in
      _ ← vguard (bool_decide (perm = "")) (Errorf ErrValidation ("Unknown bulk action: " +:+ bq_Action q));
      _ ← vguard (bool_decide (bq_Targets q = [])) (Errorf ErrValidation "No targets specified.");
      _ ← vguard (bool_decide (bq_Action q = "power") && negb (PowerOp_Valid (bq_Op q)))
            (Errorf ErrValidation ("Unknown power operation: " +:+ bq_Op q));
      run_bulk u perm q
  end.

(** ** The middlewares over this server's state (authz/middleware.go) *)

Abbreviation vhandler := (request -> vsrv -> reply * vsrv) (only parsing).
Definition serve (h : request -> VM_ reply) : vhandler := fun r s =>
  match h r s with (Ok rep, s) => (rep, s) | (Err e, s) => (error_reply e, s) end.
Definition denied (r : request) (perm : string) (s : vsrv) : vsrv :=
  if rq_Audited r then set_rec (rec_detail "missingPermission" (AOther (JString perm)) (rec_result "denied" (va_rec s))) s else s.
Definition vRequirePermission (perm : string) (scope : Scope) (next : vhandler) : vhandler := fun r s =>
  match rq_User r with
  | None => (error_reply ErrUnauthenticated, s)
  | Some u => if negb (Can (Some u) perm scope) then (error_reply ErrForbidden, denied r perm s) else next r s
  end.
Definition vRequireAAL (next : vhandler) : vhandler := fun r s =>
  if negb (isMutating (rq_Method r)) then next r s
  else match rq_User r with
       | None => (error_reply ErrUnauthenticated, s)
       | Some u => if StepUpRequired (va_db s) (Some u) then (error_reply ErrAALRequired, s) else next r s
       end.
Definition vAuditWrap (action : string) (next : vhandler) : vhandler := fun r s =>
  let r := with_audited r in
  let '(rep, s) := next r (set_rec (withAudit action) s) in
  (rep, set_db (InsertAudit (audit_entry r (va_rec s) rep.1 (unix (va_tick s))) (va_db s)) (ticked s)).

(** ** The routes (vm_routes.go, router.go) *)

Inductive vop :=
| VOProviders | VOVMs (host cluster state : string) | VODetail | VOSnapshots | VOGuest | VOMetrics | VOHosts | VOClusters
| VOTopology | VOStorage | VONetworks
| VOPower | VOCreate (b : result APIError VMSpec) | VOReconfigure (b : result APIError VMReconfigureSpec)
| VODelete (force deleteDisks : string)
| VOSnapshotCreate (b : result APIError vmSnapshotBody) | VOSnapshotRevert | VOSnapshotDelete
| VOClone (b : result APIError CloneSpec) | VOMigrate (b : result APIError vmMigrateBody)
| VOConsole | VONetworkCreate (b : result APIError NetworkSpec) | VONetworkDelete
| VOVolumes | VOVolumeCreate (b : result APIError VolumeSpec) | VOVolumeDelete
| VOISOUpload (name : string) (contentLength : Z) (body : string * option string)
| VODiskAttach (b : result APIError DiskSpec) | VODiskDetach | VONICAttach (b : result APIError NICSpec) | VONICDetach
| VOISOMount (b : result APIError string) | VOISOUnmount
| VODiskResize (b : result APIError f64) | VOMarkTemplate (b : result APIError bool) | VOTemplates
| VOSetResources (b : result APIError ResourceSpec) | VODiskQoS (b : result APIError DiskQoS)
| VOStorageMigrate (b : result APIError string)
| VOPools (providerID : string) | VOPoolCreate (b : result APIError poolInput) | VOPoolUpdate (b : result APIError poolInput)
| VOPoolDelete | VOPoolAssign (b : result APIError string)
| VOEnterMaintenance (b : option (result APIError bool)) | VOExitMaintenance
| VOBulk (b : result APIError bulkRequest).

Definition vm_handler (o : vop) (r : request) : VM_ reply :=
  match o with
  | VOProviders => VMProviders
  | VOVMs h c st => VMs r h c st
  | VODetail => VMDetailHandler r
  | VOSnapshots => VMSnapshots r
  | VOGuest => VMGuestInfo r
  | VOMetrics => VMMetrics r
  | VOHosts => VMHosts r
  | VOClusters => VMClusters r
  | VOTopology => VMClusterTopology r
  | VOStorage => VMStorage r
  | VONetworks => VMNetworks r
  | VOPower => VMPowerOp r
  | VOCreate b => VMCreate r b
  | VOReconfigure b => VMReconfigure r b
  | VODelete f d => VMDelete r f d
  | VOSnapshotCreate b => VMSnapshotCreate r b
  | VOSnapshotRevert => VMSnapshotRevert r
  | VOSnapshotDelete => VMSnapshotDelete r
  | VOClone b => VMClone r b
  | VOMigrate b => VMMigrate r b
  | VOConsole => VMConsole r
  | VONetworkCreate b => VMNetworkCreate r b
  | VONetworkDelete => VMNetworkDelete r
  | VOVolumes => VMVolumes r
  | VOVolumeCreate b => VMVolumeCreate r b
  | VOVolumeDelete => VMVolumeDelete r
  | VOISOUpload n l b => VMISOUpload r n l b
  | VODiskAttach b => VMDiskAttach r b
  | VODiskDetach => VMDiskDetach r
  | VONICAttach b => VMNICAttach r b
  | VONICDetach => VMNICDetach r
  | VOISOMount b => VMISOMount r b
  | VOISOUnmount => VMISOUnmount r
  | VODiskResize b => VMDiskResize r b
  | VOMarkTemplate b => VMMarkTemplate r b
  | VOTemplates => VMTemplates r
  | VOSetResources b => VMSetResources r b
  | VODiskQoS b => VMDiskQoS r b
  | VOStorageMigrate b => VMStorageMigrate r b
  | VOPools pid => VMPools pid
  | VOPoolCreate b => VMPoolCreate b
  | VOPoolUpdate b => VMPoolUpdate r b
  | VOPoolDelete => VMPoolDelete r
  | VOPoolAssign b => VMPoolAssign r b
  | VOEnterMaintenance b => VMHostEnterMaintenance r b
  | VOExitMaintenance => VMHostExitMaintenance r
  | VOBulk b => VMBulk r b
  end.

Definition scopeFromProvider (r : request) : Scope :=
  let id := param "providerID" r in if bool_decide (id = "") then GlobalScope else mkScope "host" id.

(** What a route is mounted behind: the audited action, the step-up check, the
    permission and whether its scope is the provider's. *)
Record gates := mkGates { g_Action : option string; g_AAL : bool; g_Perm : option (string * bool) }.
Definition reading (perm : string) : gates := mkGates None false (Some (perm, true)).
Definition mutating (action perm : string) : gates := mkGates (Some action) true (Some (perm, true)).
Definition vm_gates (o : vop) : gates :=
  match o with
  | VOProviders => mkGates None false (Some ("vm.read", false))
  | VOVMs _ _ _ | VODetail | VOSnapshots | VOGuest | VOHosts | VOTemplates => reading "vm.read"
  | VOMetrics => reading "vm.metrics.read"
  | VOClusters | VOTopology => reading "vm.cluster.read"
  | VOStorage | VOVolumes => reading "vm.storage.read"
  | VONetworks => reading "vm.network.read"
  | VOPower => mutating "vm.power" "vm.power"
  | VOCreate _ => mutating "vm.create" "vm.create"
  | VOReconfigure _ => mutating "vm.reconfigure" "vm.reconfigure"
  | VODelete _ _ => mutating "vm.delete" "vm.delete"
  | VOSnapshotCreate _ => mutating "vm.snapshot.create" "vm.snapshot"
  | VOSnapshotRevert => mutating "vm.snapshot.revert" "vm.snapshot"
  | VOSnapshotDelete => mutating "vm.snapshot.delete" "vm.snapshot"
  | VOClone _ => mutating "vm.clone" "vm.clone"
  | VOMigrate _ => mutating "vm.migrate" "vm.migrate"
  | VOConsole => mkGates (Some "vm.console") false (Some ("vm.console", true))
  | VONetworkCreate _ => mutating "vm.network.create" "vm.network.write"
  | VONetworkDelete => mutating "vm.network.delete" "vm.network.write"
  | VOVolumeCreate _ => mutating "vm.volume.create" "vm.storage.write"
  | VOVolumeDelete => mutating "vm.volume.delete" "vm.storage.write"
  | VOISOUpload _ _ _ => mutating "vm.iso.upload" "vm.storage.write"
  | VODiskAttach _ => mutating "vm.disk.attach" "vm.hotplug"
  | VODiskDetach => mutating "vm.disk.detach" "vm.hotplug"
  | VONICAttach _ => mutating "vm.nic.attach" "vm.hotplug"
  | VONICDetach => mutating "vm.nic.detach" "vm.hotplug"
  | VOISOMount _ => mutating "vm.iso.mount" "vm.hotplug"
  | VOISOUnmount => mutating "vm.iso.unmount" "vm.hotplug"
  | VODiskResize _ => mutating "vm.disk.resize" "vm.disk.resize"
  | VOMarkTemplate _ => mutating "vm.template" "vm.template"
  | VOSetResources _ => mutating "vm.resource" "vm.resource"
  | VODiskQoS _ => mutating "vm.disk.qos" "vm.disk.qos"
  | VOStorageMigrate _ => mutating "vm.storage.migrate" "vm.storage.migrate"
  | VOPools _ => mkGates None false (Some ("vm.read", false))
  | VOPoolCreate _ => mkGates (Some "vm.pool.create") true (Some ("vm.resource", false))
  | VOPoolUpdate _ => mkGates (Some "vm.pool.update") true (Some ("vm.resource", false))
  | VOPoolDelete => mkGates (Some "vm.pool.delete") true (Some ("vm.resource", false))
  | VOPoolAssign _ => mutating "vm.pool.assign" "vm.resource"
  | VOEnterMaintenance _ => mutating "vm.host.maintenance.enter" "vm.host.maintenance"
  | VOExitMaintenance => mutating "vm.host.maintenance.exit" "vm.host.maintenance"
  | VOBulk _ => mkGates (Some "vm.bulk") false None
  end.
Definition vm_method (o : vop) : string :=
  match o with
  | VODelete _ _ | VOSnapshotDelete | VONetworkDelete | VOVolumeDelete | VODiskDetach | VONICDetach | VOISOUnmount
  | VOPoolDelete | VOExitMaintenance => "DELETE"
  | VOPoolUpdate _ => "PUT"
  | o => if g_AAL (vm_gates o) then "POST" else match o with VOBulk _ => "POST" | _ => "GET" end
  end.

Definition mounted (g : gates) (h : vhandler) : vhandler := fun r =>
  let inner := match g_Perm g with
               | Some (perm, scoped) => vRequirePermission perm (if scoped : bool then scopeFromProvider r else GlobalScope) h
               | None => h
               end in
  let inner := if g_AAL g then vRequireAAL inner else inner in
  match g_Action g with Some a => vAuditWrap a inner r | None => inner r end.
(** A request that the authentication of the group has let through. *)
Definition vm_route (o : vop) : vhandler := fun r s =>
  if bool_decide (rq_Method r = vm_method o) then mounted (vm_gates o) (serve (vm_handler o)) r s
  else (error_reply ErrMethodNotAllowed, s).
End Api.
Arguments vsrv P : clear implicits.
Arguments VM_ P A : clear implicits.

(** ** Bulk requests as sequences of single ones

    The single requests a bulk request stands for, and the states, equal but for
    the audit record, in which they run. *)

Definition with_params (m : gmap string string) (r : request) : request :=
  mkReq (rq_Method r) (rq_Path r) (rq_Host r) (rq_RemoteAddr r) (rq_TLS r) (rq_Headers r) (rq_Cookies r) m (rq_User r)
    (rq_Bearer r) (rq_RequestID r) (rq_Audited r).
Definition single_request (r : request) (q : bulkRequest) (t : bulkTarget) : request :=
  with_params (<["providerID" := bt_ProviderID t]> (<["vmID" := bt_VMID t]> (<["op" := bq_Op q]> ∅))) r.
Definition single_op (q : bulkRequest) : vop :=
  if bool_decide (bq_Action q = "power") then VOPower
  else if bool_decide (bq_Action q = "snapshot") then VOSnapshotCreate (Ok (mkSnapBody (bq_Name q) "" false false))
  else VODelete (if bq_Force q then "true" else "") "".
(** What VMBulk checks before it starts. *)
Definition bulk_valid (q : bulkRequest) : Prop :=
  bulkPermForAction (bq_Action q) <> "" /\ bq_Targets q <> [] /\ (bq_Action q = "power" -> PowerOp_Valid (bq_Op q) = true).
(** The result of a target, the reply to its single request, and what the provider
    answered it ([None]: it was not asked).  Both carry the task of a success.  A
    refusal of the permission check and an unknown provider are worded differently;
    a refusal of the provider of a kind the API knows carries the text of the API
    error that is the single reply, and any other the provider's own text, which the
    single reply hides behind the internal error. *)
Inductive agrees (t : bulkTarget) : bulkResult -> option (result prov_err (option Task)) * reply -> Prop :=
| agrees_done status task : status ∈ [200; 201] ->
    agrees t (mkBulkResult (bt_ProviderID t) (bt_VMID t) true "" (match task with Some tk => task_ID tk | None => "" end))
      (Some (Ok task), (status, VTask task))
| agrees_forbidden :
    agrees t (mkBulkResult (bt_ProviderID t) (bt_VMID t) false "forbidden" "") (None, error_reply ErrForbidden)
| agrees_unknown :
    agrees t (mkBulkResult (bt_ProviderID t) (bt_VMID t) false ("unknown provider: " +:+ bt_ProviderID t) "")
      (None, error_reply (Errorf ErrAPINotFound ("Unknown hypervisor provider: " +:+ bt_ProviderID t)))
| agrees_refused err e :
    e_Status e ∈ [404; 405; 409; 422] -> is_Some (pe_Is err) ->
    agrees t (mkBulkResult (bt_ProviderID t) (bt_VMID t) false (e_Code e +:+ ": " +:+ e_Message e) "")
      (Some (Err err), error_reply e)
| agrees_failed err :
    pe_Is err = None ->
    agrees t (mkBulkResult (bt_ProviderID t) (bt_VMID t) false (pe_Text err) "") (Some (Err err), error_reply ErrInternal).

Section Bulk.
Context {P : Type} `{Driver P} (clock : nat -> nat -> time) (unix : nat -> Z) (uuid : nat -> string).

(** The single route behind its permission. *)
Definition single (q : bulkRequest) (r : request) (t : bulkTarget) : vsrv P -> reply * vsrv P :=
  let r1 := single_request r q t in
  match g_Perm (vm_gates (single_op q)) with
  | Some (perm, _) => vRequirePermission perm (scopeFromProvider r1) (serve (vm_handler clock unix uuid (single_op q))) r1
  | None => fun s => (error_reply ErrInternal, s)
  end.
(** What the provider of a target answers the call of the single request in [s],
    if the request reaches it. *)
Definition single_call_of (q : bulkRequest) (vm : string) : pcall (option Task) :=
  match single_op q with
  | VOPower => PPower vm (bq_Op q)
  | VOSnapshotCreate _ => PSnapshot vm (mkSnapshotOptions (bq_Name q) "" false false)
  | _ => PDelete vm (mkDeleteOptions (bq_Force q) false)
  end.
Definition answered (q : bulkRequest) (r : request) (t : bulkTarget) (s : vsrv P) : option (result prov_err (option Task)) :=
  match rq_User r, va_reg s !! bt_ProviderID t with
  | Some u, Some p =>
      if Can (Some u) (bulkPermForAction (bq_Action q)) (mkScope "host" (bt_ProviderID t))
      then Some (dv_call (single_call_of q (bt_VMID t)) (clock (va_tick s)) p).1 else None
  | _, _ => None
  end.
Fixpoint singles (q : bulkRequest) (r : request) (l : list bulkTarget) (s : vsrv P)
    : list (option (result prov_err (option Task)) * reply) * vsrv P :=
  match l with
  | [] => ([], s)
  | t :: l =>
      let said := answered q r t s in
      let '(rep, s) := single q r t s in let '(reps, s) := singles q r l s in ((said, rep) :: reps, s)
  end.

Definition bare (s : vsrv P) : db * gmap string P * list ResourcePool * nat := (va_db s, va_reg s, va_pools s, va_tick s).

Lemma prov_call_bare {A} id (c : pcall A) s1 s2 : bare s1 = bare s2 ->
  match prov_call clock id c s1, prov_call clock id c s2 with
  | Some (r1, s1), Some (r2, s2) => r1 = r2 /\ bare s1 = bare s2
  | None, None => va_reg s1 !! id = None /\ va_reg s2 !! id = None
  | _, _ => False
  end.
Proof.
  intros E. unfold bare in E. injection E as E1 E2 E3 E4. unfold prov_call. rewrite <- E2, <- E4.
  destruct (va_reg s1 !! id) as [p|] eqn:Ep; simpl; [|done]. destruct (dv_call _ _ _) as [r p']. split; [done|].
  unfold bare, ticked, set_reg. simpl. by rewrite E1, E3, E4.
Qed.

(** A handler that resolves, then calls: with its success status. *)
Definition asks (c : pcall (option Task)) (status : Z) (r : request) : VM_ P reply :=
  id ← resolveVMProvider r; t ← invoke clock id c; mret (status, VTask t).
Lemma resolved_call r (c : pcall (option Task)) status s :
  serve (asks c status) r s =
  match prov_call clock (param "providerID" r) c s with
  | Some (Ok t, s) => ((status, VTask t), s)
  | Some (Err e, s) => (error_reply (written (vmProviderError e)), s)
  | None => (error_reply (Errorf ErrAPINotFound ("Unknown hypervisor provider: " +:+ param "providerID" r)), s)
  end.
Proof.
  unfold serve, asks, resolveVMProvider, invoke, mbind, VM_bind, prov_call.
  destruct (va_reg s !! param "providerID" r) as [p|] eqn:E; [|reflexivity]. rewrite E. simpl.
  by destruct (dv_call _ _ _) as [[t|e] p'].
Qed.
Lemma single_call q r t s : bulk_valid q ->
  serve (vm_handler clock unix uuid (single_op q)) (single_request r q t) s =
  match prov_call clock (bt_ProviderID t) (bulk_call q (bt_VMID t)) s with
  | Some (Ok tk, s) => ((if bool_decide (bq_Action q = "snapshot") then 201 else 200, VTask tk), s)
  | Some (Err e, s) => (error_reply (written (vmProviderError e)), s)
  | None => (error_reply (Errorf ErrAPINotFound ("Unknown hypervisor provider: " +:+ bt_ProviderID t)), s)
  end.
Proof.
  intros (Hp & _ & Hop). unfold single_op, bulk_call, bulkPermForAction in *.
  case_bool_decide as E1; [|case_bool_decide as E2].
  - rewrite bool_decide_false by (by rewrite E1). etrans; [|apply (resolved_call (single_request r q t))].
    unfold serve. cbn [vm_handler]. unfold VMPowerOp, mbind, VM_bind. cbv beta zeta. change (param "op" (single_request r q t)) with (bq_Op q).
    rewrite Hop by done. reflexivity.
  - etrans; [|apply (resolved_call (single_request r q t))]. reflexivity.
  - etrans; [|apply (resolved_call (single_request r q t))]. unfold serve. cbn [vm_handler]. unfold VMDelete.
    by destruct (bq_Force q).
Qed.
Lemma written_agrees (t : bulkTarget) (err : prov_err) :
  agrees t (mkBulkResult (bt_ProviderID t) (bt_VMID t) false (error_text (vmProviderError err)) "")
    (Some (Err err), error_reply (written (vmProviderError err))).
Proof.
  unfold vmProviderError. destruct (pe_Is err) as [[]|] eqn:E; simpl; try by apply agrees_failed.
  all: refine (agrees_refused t err _ _ _); [simpl; set_solver|by rewrite E].
Qed.

Lemma single_perm q : bulk_valid q -> g_Perm (vm_gates (single_op q)) = Some (bulkPermForAction (bq_Action q), true).
Proof.
  intros (Hp & _). unfold single_op, bulkPermForAction in *. case_bool_decide; [done|]. case_bool_decide; [done|].
  by case_bool_decide.
Qed.
Lemma single_call_bulk q vm : bulk_valid q -> single_call_of q vm = bulk_call q vm.
Proof. intros _. unfold single_call_of, single_op, bulk_call. case_bool_decide; [done|]. by case_bool_decide. Qed.
Lemma target_agrees u q r t s1 s2 : rq_User r = Some u -> bulk_valid q -> bt_ProviderID t <> "" -> bare s1 = bare s2 ->
  let x := runBulkTarget clock u (bulkPermForAction (bq_Action q)) q t s1 in
  let y := single q r t s2 in
  agrees t x.1 (answered q r t s2, y.1) /\ bare x.2 = bare y.2.
Proof.
  intros Hu Hv Ht Hs. unfold runBulkTarget, single. rewrite single_perm by done. unfold vRequirePermission.
  change (rq_User (single_request r q t)) with (rq_User r). unfold answered. rewrite Hu.
  assert (scopeFromProvider (single_request r q t) = mkScope "host" (bt_ProviderID t)) as ->.
  { unfold scopeFromProvider. change (param _ _) with (bt_ProviderID t). by rewrite bool_decide_false. }
  rewrite single_call_bulk by done. destruct (Can _ _ _); simpl.
  2:{ assert ((match va_reg s2 !! bt_ProviderID t with Some _ => None | None => None end
        : option (result prov_err (option Task))) = None) as -> by (by destruct (va_reg s2 !! _)).
      split; [apply agrees_forbidden|]. unfold denied. by destruct (rq_Audited _). }
  rewrite single_call by done.
  pose proof (prov_call_bare (bt_ProviderID t) (bulk_call q (bt_VMID t)) s1 s2 Hs) as Hc.
  unfold prov_call in *. destruct (va_reg s2 !! bt_ProviderID t) as [p2|], (va_reg s1 !! bt_ProviderID t) as [p1|];
    simpl in *; try done; try (by destruct (dv_call _ _ _)).
  - destruct (dv_call _ _ p1) as [[tk|e] p1'], (dv_call _ _ p2) as [r2 p2']; destruct Hc as [Hc1 Hc2]; subst r2; (split; [|exact Hc2]).
    + apply agrees_done. case_bool_decide; set_solver.
    + apply written_agrees.
  - split; [apply agrees_unknown|done].
Qed.

Lemma targets_agree u q r l acc s1 s2 : rq_User r = Some u -> bulk_valid q -> Forall (fun t => bt_ProviderID t <> "") l ->
  bare s1 = bare s2 ->
  let x := bulk_targets clock u (bulkPermForAction (bq_Action q)) q l acc s1 in
  let y := singles q r l s2 in
  bare x.2 = bare y.2 /\
  exists new, bp_Results x.1 = bp_Results acc ++ new /\ bp_Action x.1 = bp_Action acc /\ bp_Op x.1 = bp_Op acc /\
    Forall3 agrees l new y.1 /\
    bp_Succeeded x.1 = bp_Succeeded acc + Z.of_nat (length (filter (fun b => br_OK b = true) new)) /\
    bp_Failed x.1 = bp_Failed acc + Z.of_nat (length (filter (fun b => br_OK b = false) new)).
Proof.
  intros Hu Hv Hl. revert acc s1 s2. induction Hl as [|t l Ht Hl IH]; intros acc s1 s2 Hs; simpl.
  - split; [done|]. exists []. rewrite app_nil_r, !Z.add_0_r. do 3 (split; [done|]). split; [constructor|done].
  - pose proof (target_agrees u q r t s1 s2 Hu Hv Ht Hs) as [Ha Hb]. simpl in Ha, Hb.
    destruct (runBulkTarget _ _ _ _ _ _) as [res s1'], (single _ _ _ _) as [rep s2']. simpl in Ha, Hb.
    set (acc' := mkBulkResponse (bp_Action acc) (bp_Op acc)
      (if br_OK res then bp_Succeeded acc + 1 else bp_Succeeded acc) (if br_OK res then bp_Failed acc else bp_Failed acc + 1)
      (bp_Results acc ++ [res])).
    assert ((let (y, n) := if br_OK res then (bp_Succeeded acc + 1, bp_Failed acc) else (bp_Succeeded acc, bp_Failed acc + 1) in
      bulk_targets clock u (bulkPermForAction (bq_Action q)) q l
        (mkBulkResponse (bp_Action acc) (bp_Op acc) y n (bp_Results acc ++ [res])) s1')
      = bulk_targets clock u (bulkPermForAction (bq_Action q)) q l acc' s1') as -> by (unfold acc'; by destruct (br_OK res)).
    destruct (IH acc' s1' s2' Hb) as (IH1 & new & IH2 & IHa & IHo & IH3 & IH4 & IH5).
    destruct (singles q r l s2') as [reps s2''] eqn:E. simpl in *. split; [done|]. exists (res :: new).
    split; [by rewrite IH2; unfold acc'; simpl; rewrite <- app_assoc|].
    split; [by rewrite IHa|]. split; [by rewrite IHo|]. split; [by constructor|].
    rewrite IH4, IH5. unfold acc'. simpl. rewrite !filter_cons. destruct (br_OK res); simpl; split; lia.
Qed.
End Bulk.
