(* ===== verification/VmDrivers.v ===== *)
(** * The drivers under the VM surface

    The simulator, the KVM driver over any backend, and a registry of both kinds,
    as instances of [Driver]; reading through a driver does not change it. *)
From S2P Require Import Prelude GoStd VProvider VmApi Sim Kvm.

(** The calls of the core interface that only read. *)
Definition is_query {A} (c : pcall A) : bool :=
  match c with
  | QListHosts | QListVMs _ | QGetVM _ | QListClusters | QListStorage | QListNetworks | QListSnapshots _ | QTopology _
  | QMetrics _ _ => true
  | _ => false
  end.
Class DriverLaws (P : Type) `{Driver P} : Prop := {
  dv_reads : forall A (c : pcall A) now p, is_query c = true -> (dv_call c now p).2 = p }.

(** ** The simulator (sim/sim.go) *)

Definition of_verr (e : verr) : prov_err := mkPErr (Some e) (verr_Error e).
Definition sim_res {A} (r : result verr A) : result prov_err A := match r with Ok a => Ok a | Err e => Err (of_verr e) end.
Definition sim_ret {A} (r : result verr A * sim) : result prov_err A * sim := (sim_res r.1, r.2).
(** Calls of interfaces it does not implement. *)
Definition absent {P A} (p : P) : result prov_err A * P := (Err (of_verr ErrUnsupported), p).
Definition sim_call {A} (c : pcall A) (now : nat -> time) (p : sim) : result prov_err A * sim :=
  let t := now 0%nat in
  match c in pcall A return result prov_err A * sim with
  | QListHosts => (sim_res (Sim.ListHosts p), p)
  | QListVMs o => (sim_res (Sim.ListVMs o p), p)
  | QGetVM vm => (sim_res (Sim.GetVM vm p), p)
  | QListClusters => (sim_res (Sim.ListClusters p), p)
  | QListStorage => (sim_res (Sim.ListStorage p), p)
  | QListNetworks => (sim_res (Sim.ListNetworks p), p)
  | QListSnapshots vm => (sim_res (Sim.ListSnapshots vm p), p)
  | QTopology c => (sim_res (Sim.GetClusterTopology c now p), p)
  | QMetrics vm w => (sim_res (Sim.GetMetrics vm w t p), p)
  | QConsole vm => (sim_res (Sim.Console vm p), p)
  | QListVolumes s => (sim_res (Sim.ListVolumes s p), p)
  | PCreate spec => sim_ret (Sim.CreateVM spec t p)
  | PPower vm o => sim_ret (Sim.PowerOp vm o t p)
  | PDelete vm o => sim_ret (Sim.DeleteVM vm o t p)
  | PReconfigure vm spec => sim_ret (Sim.ReconfigureVM vm spec t p)
  | PSnapshot vm o => sim_ret (Sim.CreateSnapshot vm o t (now 1%nat) p)
  | PRevert vm s => sim_ret (Sim.RevertSnapshot vm s t p)
  | PClone vm spec => sim_ret (Sim.Clone vm spec t p)
  | PMigrate vm h o => sim_ret (Sim.MigrateVM vm h o t p)
  | PCreateNetwork spec => sim_ret (Sim.CreateNetwork spec t p)
  | PDeleteNetwork id => sim_ret (Sim.DeleteNetwork id t p)
  | PCreateVolume spec => sim_ret (Sim.CreateVolume spec t p)
  | PDeleteVolume s v => sim_ret (Sim.DeleteVolume s v t p)
  | PUploadISO s n size body => sim_ret (Sim.UploadISO s n size (Z.of_nat (String.length body.1)) p)
  | QGuestInfo _ | PAttachDisk _ _ | PDetachDisk _ _ | PAttachNIC _ _ | PDetachNIC _ _ | PMountISO _ _ | PUnmountISO _
  | PDeleteSnapshot _ _ | PResizeDisk _ _ _ | PMarkTemplate _ _ | PSetResources _ _ | PSetDiskQoS _ _ _
  | PMigrateStorage _ _ _ | PEnterMaintenance _ _ | PExitMaintenance _ => absent p
  end.
#[export] Instance sim_driver : Driver sim := {|
  dv_Kind := sim_kind; dv_ID := sim_id; dv_Capabilities := sim_caps;
  dv_implements _ i := bool_decide (i ∈ [IConsole; INetworkWriter; IStorageProvider]);
  dv_call A := @sim_call A |}.
#[export] Instance sim_driver_laws : DriverLaws sim.
Proof. constructor. by intros A []. Qed.

(** ** The KVM driver (kvm/kvm.go) *)

Definition of_kerr (e : kerr) : prov_err :=
  mkPErr (match e with Sentinel e | Wrapped e _ => Some e | Foreign _ => None end) (kerr_Error e).
Section Kvm.
Context {B : Type} `{libvirtBackend B}.
Definition kvm_res {A} (r : result kerr A) : result prov_err A := match r with Ok a => Ok a | Err e => Err (of_kerr e) end.
Definition kvm_ret {A} (r : result kerr A * kvm B) : result prov_err A * kvm B := (kvm_res r.1, r.2).
Definition kvm_call {A} (c : pcall A) (now : nat -> time) (p : kvm B) : result prov_err A * kvm B :=
  let t := now 0%nat in
  match c in pcall A return result prov_err A * kvm B with
  | QListHosts => (kvm_res (Kvm.ListHosts p), p)
  | QListVMs o => (kvm_res (Kvm.ListVMs o p), p)
  | QGetVM vm => (kvm_res (Kvm.GetVM vm p), p)
  | QListClusters => (kvm_res (Kvm.ListClusters p), p)
  | QListStorage => (kvm_res (Kvm.ListStorage p), p)
  | QListNetworks => (kvm_res (Kvm.ListNetworks p), p)
  | QListSnapshots vm => (kvm_res (Kvm.ListSnapshots vm p), p)
  | QTopology c => (kvm_res (Kvm.GetClusterTopology c now p), p)
  | QMetrics vm w => (kvm_res (Kvm.GetMetrics vm w t p), p)
  | QConsole vm => kvm_ret (Kvm.Console vm p)
  | QListVolumes s => kvm_ret (Kvm.ListVolumes s p)
  | QGuestInfo vm => kvm_ret (Kvm.GetGuestInfo vm p)
  | PCreate spec => kvm_ret (Kvm.CreateVM spec t (now 1%nat) p)
  | PPower vm o => kvm_ret (Kvm.PowerOp vm o t p)
  | PDelete vm o => kvm_ret (Kvm.DeleteVM vm o t p)
  | PReconfigure vm spec => kvm_ret (Kvm.ReconfigureVM vm spec t p)
  | PSnapshot vm o => kvm_ret (Kvm.CreateSnapshot vm o t (now 1%nat) p)
  | PRevert vm s => kvm_ret (Kvm.RevertSnapshot vm s t p)
  | PClone vm spec => kvm_ret (Kvm.Clone vm spec t p)
  | PMigrate vm h o => kvm_ret (Kvm.MigrateVM vm h o t p)
  | PCreateNetwork spec => kvm_ret (Kvm.CreateNetwork spec t p)
  | PDeleteNetwork id => kvm_ret (Kvm.DeleteNetwork id t p)
  | PCreateVolume spec => kvm_ret (Kvm.CreateVolume spec t p)
  | PDeleteVolume s v => kvm_ret (Kvm.DeleteVolume s v t p)
  | PUploadISO s n size body => kvm_ret (Kvm.UploadISO s n size body p)
  | PAttachDisk vm spec => kvm_ret (Kvm.AttachDisk vm spec t p)
  | PDetachDisk vm d => kvm_ret (Kvm.DetachDisk vm d t p)
  | PAttachNIC vm spec => kvm_ret (Kvm.AttachNIC vm spec t p)
  | PDetachNIC vm n => kvm_ret (Kvm.DetachNIC vm n t p)
  | PMountISO vm path => kvm_ret (Kvm.MountISO vm path t p)
  | PUnmountISO vm => kvm_ret (Kvm.UnmountISO vm t p)
  | PDeleteSnapshot vm s => kvm_ret (Kvm.DeleteSnapshot vm s t p)
  | PResizeDisk vm d gb => kvm_ret (Kvm.ResizeDisk vm d gb t p)
  | PMarkTemplate vm b => kvm_ret (Kvm.MarkTemplate vm b t p)
  | PSetResources vm spec => kvm_ret (Kvm.SetResources vm spec t p)
  | PSetDiskQoS vm d q => kvm_ret (Kvm.SetDiskQoS vm d q t p)
  | PMigrateStorage vm d target => kvm_ret (Kvm.MigrateStorage vm d target t p)
  | PEnterMaintenance h e => kvm_ret (Kvm.EnterMaintenance h e now p)
  | PExitMaintenance h => kvm_ret (Kvm.ExitMaintenance h t p)
  end.
#[export] Instance kvm_driver : Driver (kvm B) := {|
  dv_Kind := k_kind; dv_ID := k_id; dv_Capabilities := k_caps;
  dv_implements _ _ := true;
  dv_call A := @kvm_call A |}.
#[export] Instance kvm_driver_laws : DriverLaws (kvm B).
Proof. constructor. by intros A []. Qed.
End Kvm.

(** ** Registries of two kinds *)

Section Sum.
Context {P Q : Type} `{DriverLaws P, DriverLaws Q}.
#[export] Instance sum_driver : Driver (P + Q) := {|
  dv_Kind p := match p with inl p => dv_Kind p | inr q => dv_Kind q end;
  dv_ID p := match p with inl p => dv_ID p | inr q => dv_ID q end;
  dv_Capabilities p := match p with inl p => dv_Capabilities p | inr q => dv_Capabilities q end;
  dv_implements p i := match p with inl p => dv_implements p i | inr q => dv_implements q i end;
  dv_call A c now p :=
    match p with
    | inl p => let '(r, p) := dv_call c now p in (r, inl p)
    | inr q => let '(r, q) := dv_call c now q in (r, inr q)
    end |}.
#[export] Instance sum_driver_laws : DriverLaws (P + Q).
Proof.
  constructor. intros A c now [p|q] Hc; simpl.
  - pose proof (dv_reads A c now p Hc) as E. destruct (dv_call c now p). simpl in *. by subst.
  - pose proof (dv_reads A c now q Hc) as E. destruct (dv_call c now q). simpl in *. by subst.
Qed.
End Sum.
