(* ===== verification/VmApiProps.v ===== *)
(** * What the VM surface guarantees

    A mutation reaches a provider only through its gates and reaches only the
    provider it names; a bulk request is the sequence of the single requests it
    stands for; what a provider lacks is refused before it is called. *)
From S2P Require Import Prelude GoStd VProvider AuthStore Rbac Redact Middleware VmApi Sim Kvm VmDrivers AuthDemo.

Section Facts.
Context {P : Type} `{DriverLaws P} (clock : nat -> nat -> time) (unix : nat -> Z) (uuid : nat -> string).

(** ** What a handler may touch *)

(** At most the provider [pid], and the clock. *)
Record touches (pid : option string) (s s' : vsrv P) : Prop := {
  to_db : va_db s' = va_db s; to_pools : va_pools s' = va_pools s; to_rec : va_rec s' = va_rec s;
  to_reg : forall k, Some k <> pid -> va_reg s' !! k = va_reg s !! k }.
#[export] Instance touches_preorder pid : PreOrder (touches pid).
Proof.
  split; [by constructor|]. intros s1 s2 s3 [] []. constructor; try congruence. intros k Hk.
  rewrite to_reg1 by done. auto.
Qed.
Lemma touches_any pid s s' : touches None s s' -> touches pid s s'.
Proof. intros []. constructor; auto. Qed.

Definition within {A} (pid : option string) (m : VM_ P A) : Prop := forall s, touches pid s (m s).2.
Lemma within_ret {A} pid (a : A) : within pid (mret a).
Proof. intros s. reflexivity. Qed.
Lemma within_bind {A B} pid (m : VM_ P A) (k : A -> VM_ P B) :
  within pid m -> (forall a, within pid (k a)) -> within pid (m ≫= k).
Proof.
  intros Hm Hk s. specialize (Hm s). unfold mbind, VM_bind. destruct (m s) as [[a|e] s1]; [|exact Hm].
  etrans; [exact Hm|apply Hk].
Qed.
Lemma within_fail {A} pid e : within pid (fail e : VM_ P A).
Proof. intros s. reflexivity. Qed.
Lemma within_guard pid c e : within pid (vguard c e : VM_ P unit).
Proof. unfold vguard. destruct c; intros s; reflexivity. Qed.
Lemma within_decoded {A} pid (b : result APIError A) : within pid (decoded b).
Proof. intros s. reflexivity. Qed.
Lemma within_require pid id i cap : within pid (require id i cap : VM_ P unit).
Proof. intros s. reflexivity. Qed.
Lemma prov_call_touches {A} id (c : pcall A) s res s' : prov_call clock id c s = Some (res, s') -> touches (Some id) s s'.
Proof.
  unfold prov_call. destruct (va_reg s !! id) as [p|] eqn:E; simpl; [|done].
  destruct (dv_call c _ p) as [r p']. intros [= <- <-]. constructor; simpl; try done.
  intros k Hk. rewrite lookup_insert_ne; [done|congruence].
Qed.
Lemma within_invoke {A} id (c : pcall A) : within (Some id) (invoke clock id c).
Proof.
  intros s. unfold invoke. destruct (prov_call _ _ _ _) as [[[a|e] s']|] eqn:E; [..|reflexivity]; by eapply prov_call_touches.
Qed.
(** The provider a handler works on is the one of its path. *)
Lemma within_resolve {A} r (k : string -> VM_ P A) : within (Some (param "providerID" r)) (k (param "providerID" r)) ->
  within (Some (param "providerID" r)) (id ← resolveVMProvider r; k id).
Proof.
  intros Hk s. unfold resolveVMProvider, mbind, VM_bind. destruct (va_reg s !! _); [apply Hk|reflexivity].
Qed.
Lemma within_ok pid b : within pid (ok_ b : VM_ P reply).
Proof. apply within_ret. Qed.
Lemma within_created pid b : within pid (created b : VM_ P reply).
Proof. apply within_ret. Qed.
Create HintDb vm.
Hint Resolve within_ok within_created within_ret within_fail within_guard within_decoded within_require within_invoke : vm.
Ltac touched :=
  repeat first
    [ apply within_resolve | apply within_bind; [solve [auto with vm]|intros ?] | solve [auto with vm] ].

(** The listings leave the registry as it was. *)
Lemma prov_query_same {A} id (c : pcall A) s res s' : is_query c = true -> prov_call clock id c s = Some (res, s') ->
  va_reg s' = va_reg s.
Proof.
  intros Hq. unfold prov_call. destruct (va_reg s !! id) as [p|] eqn:E; simpl; [|done].
  pose proof (dv_reads A c (clock (va_tick s)) p Hq) as Hr. destruct (dv_call c _ p) as [r p']. simpl in Hr. subst p'.
  intros [= _ <-]. simpl. by rewrite insert_id.
Qed.
Lemma within_query {A} id (c : pcall A) : is_query c = true -> within None (invoke clock id c).
Proof.
  intros Hq s. unfold invoke. destruct (prov_call _ _ _ _) as [[[a|e] s']|] eqn:E; [..|reflexivity];
    pose proof (prov_query_same _ _ _ _ _ Hq E) as Hr; apply prov_call_touches in E as [];
    (constructor; simpl; [done..|intros k _; by rewrite Hr]).
Qed.
Lemma within_read {A} r (c : pcall A) b : is_query c = true -> within None (read_of clock r c b).
Proof.
  intros Hq. unfold read_of. apply within_bind; [intros s; reflexivity|]. intros id.
  apply within_bind; [by apply within_query|]. intros a. apply within_ret.
Qed.

(** ** The pools *)

Lemma pool_members_same pl s : touches None s (poolMembers clock pl s).2.
Proof.
  unfold poolMembers. destruct (prov_call _ _ _ _) as [[[a|e] s']|] eqn:E; [..|reflexivity];
    pose proof (prov_query_same _ (QListVMs _) _ _ _ eq_refl E) as Hr; apply prov_call_touches in E as [];
    (constructor; simpl; [done..|intros k _; by rewrite Hr]).
Qed.
Lemma within_view pl : within None (toPoolView clock pl).
Proof.
  intros s. unfold toPoolView. pose proof (pool_members_same pl s) as Hp.
  destruct (poolMembers clock pl s) as [[[ids cpu] mem] s']. exact Hp.
Qed.
Lemma within_views l : within None (toPoolViews clock l).
Proof.
  induction l as [|p l IH]; [apply within_ret|]. apply within_bind; [apply within_view|]. intros v.
  apply within_bind; [exact IH|]. intros vs. apply within_ret.
Qed.

(** Only the pools change, and the clock. *)
Definition pools_only {A} (m : VM_ P A) : Prop := forall s, let s' := (m s).2 in
  va_db s' = va_db s /\ va_reg s' = va_reg s /\ va_rec s' = va_rec s.
Lemma pools_only_bind {A B} (m : VM_ P A) (k : A -> VM_ P B) : pools_only m -> (forall a, pools_only (k a)) -> pools_only (m ≫= k).
Proof.
  intros Hm Hk s. specialize (Hm s). unfold mbind, VM_bind. destruct (m s) as [[a|e] s1]; [|exact Hm].
  destruct (Hk a s1) as (A1 & A2 & A3), Hm as (B1 & B2 & B3). simpl in *. rewrite A1, A2, A3. auto.
Qed.
Lemma within_pools_only {A} (m : VM_ P A) : within None m -> pools_only m.
Proof. intros Hm s. destruct (Hm s) as [D _ R G]. split; [done|]. split; [|done]. apply map_eq. intros k. by apply G. Qed.
Lemma write_pools_only f : pools_only (pools_write unix f : VM_ P unit).
Proof. intros s. unfold pools_write. by destruct (f _ _). Qed.

(** ** Handlers by what they touch *)

Definition provider_op (o : vop) : bool :=
  match o with VOPools _ | VOPoolCreate _ | VOPoolUpdate _ | VOPoolDelete | VOProviders | VOBulk _ => false | _ => true end.
Lemma handler_within o r : provider_op o = true ->
  within (Some (param "providerID" r)) (vm_handler clock unix uuid o r).
Proof.
  assert (forall k, (forall vm, within (Some (param "providerID" r)) (k (param "providerID" r, vm))) ->
    within (Some (param "providerID" r)) (vmDeviceManager r ≫= k : VM_ P reply)) as Hman.
  { intros k Hk s. unfold vmDeviceManager, resolveVMProvider, require, mbind, VM_bind, mret, VM_ret.
    destruct (va_reg s !! _); [|reflexivity]. destruct (default _ _); [|reflexivity]. apply Hk. }
  intros Ho. destruct o; try discriminate Ho; cbn [vm_handler].
  all: try (unfold VMDiskAttach, VMDiskDetach, VMNICAttach, VMNICDetach, VMISOMount, VMISOUnmount; apply Hman; intros vm; touched; fail).
  all: try (unfold VMPowerOp, VMCreate, VMReconfigure, VMDelete, VMSnapshotCreate, VMSnapshotRevert, VMSnapshotDelete, VMClone,
    VMMigrate, VMConsole, VMNetworkCreate, VMNetworkDelete, VMVolumes, VMVolumeCreate, VMVolumeDelete, VMISOUpload, VMDiskResize,
    VMMarkTemplate, VMSetResources, VMDiskQoS, VMStorageMigrate, VMHostExitMaintenance, VMGuestInfo; touched; fail).
  all: try (intros s; apply touches_any; apply (within_read r); done).
  - unfold VMTemplates. apply within_resolve, within_bind; [intros s; reflexivity|]. intros _. touched.
  - unfold VMPoolAssign. apply within_resolve, within_bind; [auto with vm|]. intros pool. apply within_bind.
    + destruct (bool_decide _); [auto with vm|]. apply within_bind; [intros s; reflexivity|]. auto with vm.
    + intros _. touched.
  - unfold VMHostEnterMaintenance. apply within_resolve, within_bind; [auto with vm|]. intros _. apply within_bind.
    + destruct b; auto with vm.
    + intros e. touched.
Qed.
Lemma handler_pools o r : provider_op o = false -> (forall b, o <> VOBulk b) -> pools_only (vm_handler clock unix uuid o r).
Proof.
  assert (forall A (m : VM_ P A), (forall s, (m s).2 = s \/ (m s).2 = ticked s) -> pools_only m) as Hnop
    by (intros A m Hm s; destruct (Hm s) as [-> | ->]; done).
  intros Ho Hb. destruct o; try discriminate Ho; cbn [vm_handler].
  - apply Hnop. by left.
  - apply pools_only_bind; [apply Hnop; by left|]. intros rows. apply pools_only_bind; [apply within_pools_only, within_views|].
    intros vs. apply Hnop. by left.
  - unfold VMPoolCreate. apply pools_only_bind; [apply Hnop; by left|]. intros q.
    apply pools_only_bind; [apply Hnop; unfold vguard; destruct (_ || _); by left|]. intros _.
    apply pools_only_bind; [apply Hnop; by left|]. intros known.
    apply pools_only_bind; [apply Hnop; unfold vguard; destruct (negb _); by left|]. intros _.
    apply pools_only_bind; [apply Hnop; by right|]. intros id. apply pools_only_bind; [apply Hnop; by left|]. intros now.
    apply pools_only_bind; [apply write_pools_only|]. intros _.
    apply pools_only_bind; [apply within_pools_only, within_view|]. intros v. apply Hnop. by left.
  - unfold VMPoolUpdate. apply pools_only_bind; [apply Hnop; by left|]. intros p. apply pools_only_bind; [apply Hnop; by left|].
    intros q. apply pools_only_bind; [apply write_pools_only|]. intros _.
    apply pools_only_bind; [apply within_pools_only, within_view|]. intros v. apply Hnop. by left.
  - apply pools_only_bind; [apply write_pools_only|]. intros _. apply Hnop. by left.
  - by destruct (Hb b).
Qed.

(** ** The gates *)

(** Past the gates, the handler runs from the same providers, pools and tables. *)
Definition admitted (g : gates) (r : request) (d : db) : Prop :=
  (forall perm scoped, g_Perm g = Some (perm, scoped) -> exists u, rq_User r = Some u /\
     Can (Some u) perm (if scoped : bool then scopeFromProvider r else GlobalScope) = true) /\
  (g_AAL g = true -> isMutating (rq_Method r) = true -> exists u, rq_User r = Some u /\ StepUpRequired d (Some u) = false).
Lemma inner_cases g (h : request -> vsrv P -> reply * vsrv P) r s :
  let inner := match g_Perm g with
               | Some (perm, scoped) => vRequirePermission perm (if scoped : bool then scopeFromProvider r else GlobalScope) h
               | None => h
               end in
  let inner := if g_AAL g then vRequireAAL inner else inner in
  (va_reg (inner r s).2 = va_reg s /\ va_pools (inner r s).2 = va_pools s /\ va_db (inner r s).2 = va_db s) \/
  (admitted g r (va_db s) /\ inner r s = h r s).
Proof.
  assert (forall perm sc, va_reg (denied (P := P) r perm sc) = va_reg sc /\ va_pools (denied r perm sc) = va_pools sc /\
    va_db (denied r perm sc) = va_db sc) as Hden by (intros; unfold denied; by destruct (rq_Audited r)).
  destruct g as [a aal p]. unfold admitted. cbn [g_Perm g_AAL].
  assert (let m := match p with
            | Some (perm, scoped) => vRequirePermission perm (if scoped : bool then scopeFromProvider r else GlobalScope) h
            | None => h end in
    (va_reg (m r s).2 = va_reg s /\ va_pools (m r s).2 = va_pools s /\ va_db (m r s).2 = va_db s) \/
    ((forall perm scoped, p = Some (perm, scoped) -> exists u, rq_User r = Some u /\
       Can (Some u) perm (if scoped : bool then scopeFromProvider r else GlobalScope) = true) /\ m r s = h r s)) as Hp.
  { destruct p as [[perm scoped]|]; simpl; [|by right]. unfold vRequirePermission. destruct (rq_User r) as [u|]; [|by left].
    destruct (Can _ _ _) eqn:E; simpl; [right|by left]. split; [|done]. intros ? ? [= <- <-]. by exists u. }
  simpl in Hp. simpl. set (m := match p with Some _ => _ | None => _ end) in *.
  destruct aal; [|destruct Hp as [Hp|[Hp Hm]]; [by left|by right]].
  unfold vRequireAAL. destruct (isMutating (rq_Method r)) eqn:Em; cbn [negb]; [|destruct Hp as [Hp|[Hp Hm]]; [by left|by right]].
  destruct (rq_User r) as [u|]; [|by left]. destruct (StepUpRequired (va_db s) (Some u)) eqn:Es; [by left|].
  destruct Hp as [Hp|[Hp Hm]]; [by left|right]. split; [|done]. split; [done|]. intros _ _. by exists u.
Qed.
Lemma mounted_cases g (h : request -> vsrv P -> reply * vsrv P) r s rep s' : mounted unix g h r s = (rep, s') ->
  (forall r1 s1, va_db (h r1 s1).2 = va_db s1) ->
  (match g_Action g with Some a => exists row, va_db s' = InsertAudit row (va_db s) | None => va_db s' = va_db s end) /\
  ((va_reg s' = va_reg s /\ va_pools s' = va_pools s) \/
   exists r1 s1, (r1 = r \/ r1 = with_audited r) /\ va_reg s1 = va_reg s /\ va_pools s1 = va_pools s /\ admitted g r (va_db s) /\
     va_reg s' = va_reg (h r1 s1).2 /\ va_pools s' = va_pools (h r1 s1).2).
Proof.
  intros Hm Hdb. unfold mounted in Hm. destruct (g_Action g) as [a|].
  - unfold vAuditWrap in Hm. pose proof (inner_cases g h (with_audited r) (set_rec (withAudit a) s)) as Hc. cbv zeta in Hc.
    change (scopeFromProvider (with_audited r)) with (scopeFromProvider r) in Hc. cbv zeta in Hm.
    destruct ((if g_AAL g then _ else _) (with_audited r) _) as [rep1 s1] eqn:E. simpl in Hc. injection Hm as <- <-. simpl.
    destruct Hc as [(A & B & C)|[Ha Hh]].
    + rewrite A, B, C. split; [by eexists|by left].
    + pose proof (Hdb (with_audited r) (set_rec (withAudit a) s)) as Hd. rewrite <- Hh in Hd. simpl in Hd. rewrite Hd.
      split; [by eexists|right]. exists (with_audited r), (set_rec (withAudit a) s). rewrite <- Hh. simpl. auto 10.
  - pose proof (inner_cases g h r s) as Hc. cbv zeta in Hc, Hm. rewrite Hm in Hc. simpl in Hc. destruct Hc as [(A & B & C)|[Ha Hh]].
    + split; [done|by left].
    + pose proof (Hdb r s) as Hd. rewrite <- Hh in Hd. split; [done|right]. exists r, s. rewrite <- Hh. simpl. auto 10.
Qed.

Definition peeks (o : vop) : bool := match o with VOConsole | VOVolumes | VOGuest => true | _ => false end.
Lemma handler_reads o r : g_AAL (vm_gates o) = false -> peeks o = false -> (forall b, o <> VOBulk b) ->
  within None (vm_handler clock unix uuid o r).
Proof.
  intros Ha Hp Hb. destruct o; try discriminate Ha; try discriminate Hp; cbn [vm_handler]; try (by apply (within_read r)).
  - intros s. reflexivity.
  - unfold VMTemplates. apply within_bind; [intros s; reflexivity|]. intros id.
    apply within_bind; [intros s; reflexivity|]. intros _. apply within_bind; [by apply within_query|]. intros l. apply within_ret.
  - unfold VMPools. apply within_bind; [intros s; reflexivity|]. intros rows.
    apply within_bind; [apply within_views|]. intros vs. apply within_ret.
  - by destruct (Hb b).
Qed.
Lemma serve_state (h : request -> VM_ P reply) r s : (serve h r s).2 = (h r s).2.
Proof. unfold serve. by destruct (h r s) as [[]]. Qed.
Lemma handler_db o r s : (forall b, o <> VOBulk b) -> va_db (serve (vm_handler clock unix uuid o) r s).2 = va_db s.
Proof.
  intros Hb. rewrite serve_state. destruct (provider_op o) eqn:E.
  - by apply (to_db _ _ _ (handler_within o r E s)).
  - by apply (handler_pools o r E Hb s).
Qed.
Lemma mutating_method o : g_AAL (vm_gates o) = true -> isMutating (vm_method o) = true.
Proof. by destruct o. Qed.

(** C5 Nothing of the surface but a bulk request changes a provider or a pool,
    unless the caller holds the permission of the route, at the scope of the
    provider where the route has one; the second factor is not outstanding and an
    audit row is written, except for the three reads that ask the hypervisor for
    more than its core; and no provider but the one of the path is touched. *)
Theorem vm_mutation_gate o r s rep s' :
  vm_route clock unix uuid o r s = (rep, s') -> (forall b, o <> VOBulk b) ->
  va_reg s' <> va_reg s \/ va_pools s' <> va_pools s ->
  exists u perm scoped, rq_User r = Some u /\ g_Perm (vm_gates o) = Some (perm, scoped) /\
    Can (Some u) perm (if scoped : bool then scopeFromProvider r else GlobalScope) = true /\
    (peeks o = true \/ StepUpRequired (va_db s) (Some u) = false /\ exists row, va_db s' = InsertAudit row (va_db s)) /\
    forall k, k <> param "providerID" r -> va_reg s' !! k = va_reg s !! k.
Proof.
  intros Hr Hb Hc. unfold vm_route in Hr. case_bool_decide as Hm; [|injection Hr as <- <-; destruct Hc; done].
  destruct (mounted_cases _ _ _ _ _ _ Hr (fun r1 s1 => handler_db o r1 s1 Hb)) as [Hdb [[E1 E2]|(r1 & s1 & Hr1 & E1 & E2 & Had & E3 & E4)]];
    [destruct Hc; done|].
  assert (param "providerID" r1 = param "providerID" r) as Hpar by (by destruct Hr1 as [-> | ->]).
  rewrite serve_state in E3, E4.
  assert (exists perm scoped, g_Perm (vm_gates o) = Some (perm, scoped)) as (perm & scoped & Hg).
  { destruct o; try (by eexists _, _). by destruct (Hb b). }
  destruct Had as [Hp Ha]. destruct (Hp _ _ Hg) as (u & Hu & Hcan). exists u, perm, scoped. split_and!; try done.
  - destruct (peeks o) eqn:Epk; [by left|right]. destruct (g_AAL (vm_gates o)) eqn:Eaal.
    + rewrite Hm in Ha. destruct (Ha eq_refl (mutating_method o Eaal)) as (u' & Hu' & Hs). rewrite Hu in Hu'. injection Hu' as <-.
      split; [done|]. destruct (g_Action (vm_gates o)) eqn:Eact; [exact Hdb|]. by destruct o.
    + destruct (handler_reads o r1 Eaal Epk Hb s1) as [_ Q _ G]. destruct Hc as [Hc|Hc]; destruct Hc.
      * rewrite E3, <- E1. apply map_eq. intros k. by apply G.
      * by rewrite E4, <- E2.
  - intros k Hk. rewrite E3, <- E1. destruct (provider_op o) eqn:Eo.
    + apply (to_reg _ _ _ (handler_within o r1 Eo s1)). rewrite Hpar. congruence.
    + by destruct (handler_pools o r1 Eo Hb s1) as (_ & -> & _).
Qed.

(** C6 A bulk request leaves the tables, the providers, the pools and the clock as
    the single requests it stands for leave them, each behind the permission of
    its own route, in the order of the targets.  There is one result per target, in
    that order: it names the target; it says ok and carries the task id exactly
    when the reply to the single request is a success with that task; otherwise its
    error is "forbidden", "unknown provider: id", the code and message of the API
    error that is the single reply, or, where the single reply is the internal
    error, the text of the provider's own error, which the single reply does not
    show.  The action and operation are echoed and the counts are those of the
    results. *)
Theorem vm_bulk_sequence r u q s :
  rq_User r = Some u -> bulk_valid q -> Forall (fun t => bt_ProviderID t <> "") (bq_Targets q) ->
  exists resp s1, serve (fun r => VMBulk clock r (Ok q)) r s = ((200, VBulk resp), s1) /\
    let '(reps, s2) := singles clock unix uuid q r (bq_Targets q) s in
    bare s1 = bare s2 /\ bp_Action resp = bq_Action q /\ bp_Op resp = bq_Op q /\
    Forall3 agrees (bq_Targets q) (bp_Results resp) reps /\
    bp_Succeeded resp = Z.of_nat (length (filter (fun b => br_OK b = true) (bp_Results resp))) /\
    bp_Failed resp = Z.of_nat (length (filter (fun b => br_OK b = false) (bp_Results resp))).
Proof.
  intros Hu (Hp & Ht & Hop) Hl.
  destruct (targets_agree clock unix uuid u q r (bq_Targets q) (mkBulkResponse (bq_Action q) (bq_Op q) 0 0 []) s s Hu
    (conj Hp (conj Ht Hop)) Hl eq_refl) as (Hb & new & E & Ea & Eo & Hf & E1 & E2).
  unfold serve, VMBulk, mbind, VM_bind. rewrite Hu. cbv beta zeta. unfold decoded, vguard, mret, VM_ret.
  rewrite bool_decide_false by done. rewrite bool_decide_false by done.
  assert (bool_decide (bq_Action q = "power") && negb (PowerOp_Valid (bq_Op q)) = false) as ->.
  { case_bool_decide; [by rewrite Hop|done]. }
  unfold run_bulk. destruct (bulk_targets _ _ _ _ _ _ _) as [resp s1]. simpl in *. exists resp, s1. split; [done|].
  destruct (singles _ _ _ _ _ _ _) as [reps s2]. simpl in *. rewrite E in *. by rewrite E1, E2.
Qed.

(** ** What a provider lacks *)

Definition needs (o : vop) : option (iface * Z) :=
  match o with
  | VOConsole => Some (IConsole, CapConsole)
  | VONetworkCreate _ | VONetworkDelete => Some (INetworkWriter, CapNetworkWrite)
  | VOVolumeCreate _ | VOVolumeDelete | VOISOUpload _ _ _ => Some (IStorageProvider, CapStorageWrite)
  | VODiskAttach _ | VODiskDetach | VONICAttach _ | VONICDetach | VOISOMount _ | VOISOUnmount => Some (IDeviceManager, CapHotPlug)
  | VOGuest => Some (IGuestAgent, CapGuestAgent)
  | VOSnapshotDelete => Some (ISnapshotManager, CapSnapshot)
  | VODiskResize _ => Some (IDiskResizer, CapDiskResize)
  | VOMarkTemplate _ => Some (ITemplateManager, CapTemplates)
  | VOSetResources _ => Some (IResourceController, CapResourceControl)
  | VODiskQoS _ => Some (IDiskQoSManager, CapDiskQoS)
  | VOStorageMigrate _ => Some (IStorageMigrator, CapStorageMigrate)
  | VOEnterMaintenance _ | VOExitMaintenance => Some (IMaintenance, CapMaintenance)
  | _ => None
  end.
(** A request to a provider that is not registered is answered 404, and one for
    an extension the provider does not implement, or does not advertise, 405,
    whatever the body; in both cases nothing at all changes. *)
Theorem vm_unsupported o r s (pid := param "providerID" r) :
  (provider_op o = true -> va_reg s !! pid = None ->
     serve (vm_handler clock unix uuid o) r s = (error_reply (Errorf ErrAPINotFound ("Unknown hypervisor provider: " +:+ pid)), s)) /\
  (forall i cap p, needs o = Some (i, cap) -> va_reg s !! pid = Some p -> dv_implements p i && Has (dv_Capabilities p) cap = false ->
     serve (vm_handler clock unix uuid o) r s = (error_reply ErrMethodNotAllowed, s)).
Proof.
  subst pid. split.
  - intros Ho Hp. unfold serve.
    destruct o; try discriminate Ho; cbn [vm_handler];
      unfold VMs, VMDetailHandler, VMSnapshots, VMMetrics, VMHosts, VMClusters, VMClusterTopology, VMStorage, VMNetworks, read_of,
        VMDiskAttach, VMDiskDetach, VMNICAttach, VMNICDetach, VMISOMount, VMISOUnmount, vmDeviceManager,
        VMPowerOp, VMCreate, VMReconfigure, VMDelete, VMSnapshotCreate, VMSnapshotRevert, VMSnapshotDelete, VMClone,
        VMMigrate, VMConsole, VMNetworkCreate, VMNetworkDelete, VMVolumes, VMVolumeCreate, VMVolumeDelete, VMISOUpload,
        VMDiskResize, VMMarkTemplate, VMTemplates, VMSetResources, VMDiskQoS, VMStorageMigrate, VMPoolAssign,
        VMHostEnterMaintenance, VMHostExitMaintenance, VMGuestInfo;
      unfold resolveVMProvider, mbind, VM_bind; by rewrite Hp.
  - intros i cap p Hn Hp Hs. unfold serve.
    destruct o; try discriminate Hn; injection Hn as <- <-; cbn [vm_handler];
      unfold VMDiskAttach, VMDiskDetach, VMNICAttach, VMNICDetach, VMISOMount, VMISOUnmount, vmDeviceManager,
        VMSnapshotDelete, VMConsole, VMNetworkCreate, VMNetworkDelete, VMVolumeCreate, VMVolumeDelete, VMISOUpload, VMDiskResize,
        VMMarkTemplate, VMSetResources, VMDiskQoS, VMStorageMigrate, VMHostEnterMaintenance, VMHostExitMaintenance, VMGuestInfo;
      unfold resolveVMProvider, require, supports, mbind, VM_bind; rewrite Hp; simpl; rewrite Hp; simpl; by rewrite Hs.
Qed.
End Facts.

(** ** A small server: one KVM provider, one simulator *)

Definition vm_reg : gmap string (sim + kvm simBackend) :=
  <["sim-1" := inl (Sim.New "sim-1" [])]> (<["kvm-1" := inr (New_sim "kvm-1" None)]> ∅).
Definition vm_srv (d : db) : vsrv (sim + kvm simBackend) := mkVsrv d vm_reg [] (withAudit "") 0.
Definition vm_clock (n i : nat) : time := Z.of_nat (100 * n + i).
Definition vm_user (totp : bool) (perms : list string) : User :=
  buildUser (demo_user "ann" "annie" "x" totp) "sha:cookie-ann" "pwd" [mkEffectiveRole "r" "ops" perms "host" "kvm-1"].
Definition vm_req (method : string) (u : User) (params : list (string * string)) : request :=
  mkReq method "/api/v1" "castor.example" "10.0.0.7:5555" true ∅ [] (list_to_map params) (Some u) false "" false.
Abbreviation vm_go := (vm_route vm_clock (fun n => Z.of_nat n) demo_uuid) (only parsing).
Definition vm_bulk_delete : bulkRequest := mkBulk "delete" "" "" true [mkTarget "kvm-1" "dom-seed-2"; mkTarget "sim-1" "vm-1"].
Definition vm_delete_req (totp : bool) : request :=
  vm_req "DELETE" (vm_user totp ["vm.delete"]) [("providerID", "kvm-1"); ("vmID", "dom-seed-2")].

Lemma vm_mutation_gate_witness :
  let s := vm_srv (demo_db false) in
  let s' := (vm_go (VODelete "true" "") (vm_delete_req false) s).2 in
  exists u, rq_User (vm_delete_req false) = Some u /\ Can (Some u) "vm.delete" (mkScope "host" "kvm-1") = true /\
    StepUpRequired (va_db s) (Some u) = false /\ va_reg s' !! "sim-1" = va_reg s !! "sim-1".
Proof.
  intros s s'.
  assert (exists rep, vm_go (VODelete "true" "") (vm_delete_req false) s = (rep, s')) as [rep E] by (subst s'; by destruct (vm_go _ _ _); eexists).
  assert (va_reg s' <> va_reg s) as Hc.
  { intros Hr. assert (match va_reg s' !! "kvm-1" with Some (inr p) => bool_decide (is_Some (sb_domains (k_backend p) !! "dom-seed-2")) | _ => true end
      = match va_reg s !! "kvm-1" with Some (inr p) => bool_decide (is_Some (sb_domains (k_backend p) !! "dom-seed-2")) | _ => true end) as Hd
      by (by rewrite Hr). vm_compute in Hd. discriminate Hd. }
  destruct (vm_mutation_gate vm_clock (fun n => Z.of_nat n) demo_uuid _ _ _ _ _ E ltac:(done) (or_introl Hc))
    as (u & perm & scoped & Hu & Hg & Hcan & [Hpk|[Hst _]] & Hk); [discriminate Hpk|].
  injection Hg as <- <-. exists u. split; [exact Hu|]. split; [exact Hcan|]. split; [exact Hst|]. by apply Hk.
Defined.

Definition vm_bulk_req (totp : bool) : request := vm_req "POST" (vm_user totp ["vm.delete"]) [].
(** The first target is deleted, the second is out of the caller's scope. *)
Lemma vm_bulk_sequence_witness :
  exists resp s1 b1 b2, serve (fun r => VMBulk vm_clock r (Ok vm_bulk_delete)) (vm_bulk_req false) (vm_srv (demo_db false)) = ((200, VBulk resp), s1) /\
    Forall3 agrees (bq_Targets vm_bulk_delete) (bp_Results resp)
      (singles vm_clock (fun n => Z.of_nat n) demo_uuid vm_bulk_delete (vm_bulk_req false)
      (bq_Targets vm_bulk_delete) (vm_srv (demo_db false))).1 /\
    bp_Results resp = [b1; b2] /\ br_OK b1 = true /\ br_Error b2 = "forbidden".
Proof.
  destruct (vm_bulk_sequence vm_clock (fun n => Z.of_nat n) demo_uuid (vm_bulk_req false) (vm_user false ["vm.delete"]) vm_bulk_delete
    (vm_srv (demo_db false))) as (resp & s1 & E & H).
  - reflexivity.
  - split_and!; [by vm_compute|done|done].
  - by repeat constructor.
  - assert (exists b1 b2, bp_Results resp = [b1; b2] /\ br_OK b1 = true /\ br_Error b2 = "forbidden") as (b1 & b2 & Hr).
    { apply (f_equal (fun x => match x.1.2 with VBulk b => bp_Results b | _ => [] end)) in E. simpl in E. rewrite <- E.
      eexists _, _. vm_compute. auto. }
    exists resp, s1, b1, b2. split; [exact E|]. split; [|exact Hr].
    destruct (singles _ _ _ _ _ _ _) as [reps s2]. simpl in *. by destruct H as (_ & _ & _ & Hf & _).
Defined.

(** The bulk route asks for no second factor: a session signed in by password
    alone, whose account has one and whose server requires it, is refused the
    deletion of a VM and may delete the same VM in bulk. *)
Lemma vm_bulk_skips_stepup :
  let s := vm_srv (demo_db true) in
  (vm_go (VODelete "true" "") (vm_delete_req true) s).1 = error_reply ErrAALRequired /\
  (exists resp, (vm_go (VOBulk (Ok vm_bulk_delete)) (vm_bulk_req true) s).1 = (200, VBulk resp) /\ bp_Succeeded resp = 1) /\
  match va_reg (vm_go (VOBulk (Ok vm_bulk_delete)) (vm_bulk_req true) s).2 !! "kvm-1" with
  | Some (inr p) => sb_domains (k_backend p) !! "dom-seed-2" = None
  | _ => False
  end.
Proof. split; [by vm_compute|]. split; [|by vm_compute]. eexists. split; [by vm_compute|]. done. Qed.
