(* ===== verification/VmPool.v ===== *)
(** * Resource pools over the KVM driver

    A pool's members are the VMs that carry its label: assigning through the API
    and listing through the API agree. *)
From S2P Require Import Prelude GoStd GoFacts VProvider AuthStore Rbac Redact Middleware VmApi Sim Kvm KvmFacts KvmProps VmDrivers AuthDemo VmApiProps.

(** ** The pool label among the labels a domain shows *)

Lemma prefix_ne (a b : string) : String.prefix a b = false -> forall x, a +:+ x <> b.
Proof.
  intros Hp x <-. assert (String.prefix a (a +:+ x) = true) as E; [|congruence]. clear Hp.
  induction a as [|c a IH]; [by destruct x|]. rewrite append_cons. simpl. by destruct (ascii_dec c c).
Qed.
Lemma put_other k v l key : key <> k -> putI64 key v l !! k = l !! k.
Proof. intros Hk. unfold putI64. destruct (0 <? v); [by rewrite lookup_insert_ne|done]. Qed.
Lemma qos_pool dk l : qos_labels dk l !! labelPool = l !! labelPool.
Proof.
  unfold qos_labels. destruct (ld_QoS dk) as [q|]; [|done].
  assert (forall x, ("unihv.qos." +:+ ld_Target dk +:+ ".") +:+ x <> labelPool) as Hne.
  { intros x. rewrite <- append_assoc. by apply prefix_ne. }
  by rewrite !put_other by apply Hne.
Qed.
Lemma domain_labels_pool d : domain_labels d !! labelPool = d_Labels d !! labelPool.
Proof.
  unfold domain_labels. destruct (_ || _); [|done].
  assert (forall disks l, foldl (fun l dk => qos_labels dk l) l disks !! labelPool = l !! labelPool) as ->.
  { induction disks as [|dk disks IH]; intros l; simpl; [done|]. by rewrite IH, qos_pool. }
  assert (forall l : gmap string string, (if d_IsTemplate d then <[labelTemplate := "true"]> l else l) !! labelPool = l !! labelPool) as Ht
    by (intros l; destruct (d_IsTemplate d); [by rewrite lookup_insert_ne|done]).
  destruct (d_Resources d) as [res|]; [unfold res_labels; rewrite !put_other by done|].
  all: destruct (d_CPU d) as [c|]; [|by rewrite Ht].
  all: unfold cpu_labels; case_bool_decide; [|rewrite lookup_insert_ne by done]; by rewrite !put_other, Ht by done.
Qed.

(** ** Members *)

Abbreviation kvm_srv := (vsrv kvm_sim) (only parsing).
Section Pool.
Context (clock : nat -> nat -> time).
Definition members (pl : ResourcePool) (s : kvm_srv) : list string := (poolMembers clock pl s).1.1.1.

Lemma members_spec pl s p k n : va_reg s !! rp_ProviderID pl = Some p -> Has (k_caps p) CapListVMs = true -> kwf n (k_backend p) ->
  k ∈ members pl s <-> exists d, sb_domains (k_backend p) !! k = Some d /\ default "" (d_Labels d !! labelPool) = rp_ID pl.
Proof.
  intros Hp Hc Hwf. unfold members, poolMembers, prov_call. rewrite Hp. simpl. unfold Kvm.ListVMs, listing. rewrite Hc. simpl.
  rewrite list_elem_of_fmap. cbn [be_listDomains sim_backend]. unfold sb_listDomains. split.
  - intros (v & -> & Hv). apply list_elem_of_filter in Hv as [Hl Hv]. apply list_elem_of_fmap in Hv as (d & -> & Hd).
    apply list_elem_of_omap in Hd as (k & Hk & Hd). simpl. exists d. rewrite (kwf_key _ _ Hwf _ _ Hd). split; [done|].
    unfold vm_listed in Hl. simpl in Hl. unfold labelsMatch in Hl. rewrite map_to_list_singleton in Hl. simpl in Hl.
    rewrite andb_true_r in Hl. apply bool_decide_eq_true in Hl. by rewrite domain_labels_pool in Hl.
  - intros (d & Hd & Hl). exists (normalizeDomain p d). split; [simpl; by rewrite (kwf_key _ _ Hwf _ _ Hd)|].
    apply list_elem_of_filter. split.
    + unfold vm_listed. simpl. unfold labelsMatch. rewrite map_to_list_singleton. simpl. rewrite andb_true_r.
      apply bool_decide_eq_true. by rewrite domain_labels_pool.
    + apply list_elem_of_fmap. exists d. split; [done|]. apply list_elem_of_omap. exists k. split; [|done].
      apply (kwf_order _ _ Hwf). by exists d.
Qed.

(** Assigning a VM to a pool (or, with no pool, to none) is answered 200 with the
    task, and from then on every pool of the provider has the members it had,
    except that the VM is in the named pool and in no other. *)
Theorem pool_assignment r s p pid vm pool d n pl :
  param "providerID" r = pid -> param "vmID" r = vm ->
  va_reg s !! pid = Some p -> kwf n (k_backend p) -> sb_domains (k_backend p) !! vm = Some d ->
  Has (k_caps p) CapReconfigureVM = true -> Has (k_caps p) CapListVMs = true ->
  pool = "" \/ is_ok (GetResourcePool pool (va_pools s)) = true -> rp_ProviderID pl = pid ->
  exists t s', serve (fun r => VMPoolAssign clock r (Ok pool)) r s = ((200, VTask (Some t)), s') /\
    forall k, k ∈ members pl s' <-> (k = vm /\ rp_ID pl = pool) \/ (k <> vm /\ k ∈ members pl s).
Proof.
  intros Hpid Hvm Hreg Hwf Hd Hc1 Hc2 Hpool Hpl.
  set (spec := mkReconf None None [] [] {[labelPool := pool]} None).
  assert (exists t, Kvm.ReconfigureVM vm spec (clock (va_tick s) 0%nat) p =
    (Ok (Some t), Kvm.set_tracker (<["task-" +:+ itoa (wrap64 (k_seq p + 1)) := t]> (k_tracker p))
       (Kvm.set_seq (wrap64 (k_seq p + 1)) (with_dom vm (reconfigured spec d) p)))) as [t Ht].
  { unfold Kvm.ReconfigureVM, Kvm.gated, with_domain. rewrite Hc1. simpl. rewrite Hd.
    pose proof (reconfigure_devices_eq vm spec (clock (va_tick s) 0%nat) d p) as E. rewrite (with_dom_same vm d p Hd) in E.
    rewrite E, kvm_finishTask_eq. by eexists. }
  exists t. eexists. split.
  - unfold serve, VMPoolAssign, resolveVMProvider, mbind, VM_bind. rewrite Hpid, Hreg. unfold decoded.
    assert ((if bool_decide (pool = "") then mret () else mbind (fun _ => mret ()) (pool_read pool)) s = (Ok (), s)) as Hr.
    { case_bool_decide; [done|]. destruct Hpool as [?|Hpool]; [done|]. unfold mbind, VM_bind, pool_read.
      by destruct (GetResourcePool _ _). }
    unfold mbind, VM_bind in Hr. rewrite Hr. unfold invoke, prov_call. rewrite Hreg. simpl. rewrite Hvm.
    unfold kvm_ret. fold spec. rewrite Ht. simpl. reflexivity.
  - intros k. set (b' := set_domains (<[vm := reconfigured spec d]> (sb_domains (k_backend p))) (k_backend p)).
    assert (kwf n b') as Hwf'.
    { apply kwf_update; [by exists d| |exact Hwf]. rewrite (proj1 (reconfigured_view spec d)). by apply (kwf_key _ _ Hwf). }
    rewrite (members_spec pl s p k n) by (by rewrite ?Hpl).
    rewrite (members_spec pl _ (Kvm.set_tracker (<["task-" +:+ itoa (wrap64 (k_seq p + 1)) := t]> (k_tracker p))
       (Kvm.set_seq (wrap64 (k_seq p + 1)) (with_dom vm (reconfigured spec d) p))) k n);
      [|simpl; by rewrite Hpl, lookup_insert_eq|exact Hc2|exact Hwf'].
    simpl. destruct (decide (k = vm)) as [->|Hk].
    + rewrite lookup_insert_eq. unfold reconfigured. simpl.
      assert (forall m : gmap string string, default "" (({[labelPool := pool]} ∪ m : gmap string string) !! labelPool) = pool) as Hlab
        by (intros m; rewrite lookup_union_l' by (by rewrite lookup_singleton_eq); by rewrite lookup_singleton_eq).
      split; [intros (d' & [= <-] & E)|intros [[_ E]|[? _]]; [|done]].
      * left. split; [done|]. simpl in E. by rewrite Hlab in E.
      * eexists. split; [done|]. simpl. by rewrite Hlab.
    + rewrite lookup_insert_ne by done. naive_solver.
Qed.
End Pool.

(** ** A server with one pool *)

Definition pool_p1 : ResourcePool := mkPool "p1" "gold" "kvm-1" 0 0 0 0 "" 0 0.
Definition pool_srv : kvm_srv := mkVsrv (demo_db false) (<["kvm-1" := New_sim "kvm-1" None]> ∅) [pool_p1] (withAudit "") 0.
Definition pool_req (params : list (string * string)) : request := vm_req "POST" (vm_user false ["vm.resource"]) params.
Definition assign_req : request := pool_req [("providerID", "kvm-1"); ("vmID", "dom-seed-2")].

Lemma pool_assignment_witness : exists t s', serve (fun r => VMPoolAssign vm_clock r (Ok "p1")) assign_req pool_srv = ((200, VTask (Some t)), s') /\
  "dom-seed-2" ∈ members vm_clock pool_p1 s' /\ "dom-seed-2" ∉ members vm_clock pool_p1 pool_srv.
Proof.
  destruct (sb_domains (k_backend (New_sim "kvm-1" None)) !! "dom-seed-2") as [d|] eqn:Ed; [|by vm_compute in Ed].
  destruct (pool_assignment vm_clock assign_req pool_srv (New_sim "kvm-1" None) "kvm-1" "dom-seed-2" "p1" d 0 pool_p1)
    as (t & s' & E & Hk); try reflexivity; [apply New_kwf|exact Ed|by right|].
  exists t, s'. split; [exact E|]. split; [apply Hk; by left|]. apply (bool_decide_unpack _). by vm_compute.
Defined.

(** The store's own errors are not API errors: a pool that does not exist is
    answered 500, not 404, and a name that is taken 500, not 409. *)
Lemma pool_errors_internal :
  (serve (fun r => VMPoolDelete (fun n => Z.of_nat n) r) (pool_req [("poolID", "none")]) pool_srv).1 = error_reply ErrInternal /\
  (serve (fun r => VMPoolAssign vm_clock r (Ok "none")) assign_req pool_srv).1 = error_reply ErrInternal /\
  (serve (fun _ => VMPoolCreate vm_clock (fun n => Z.of_nat n) demo_uuid (Ok (mkPoolInput "gold" "kvm-1" 0 0 0 0 "")))
     (pool_req []) pool_srv).1 = error_reply ErrInternal.
Proof. by vm_compute. Qed.
(** A VM joins a pool of another provider, where nothing counts it. *)
Lemma pool_other_provider :
  let pl := mkPool "p2" "silver" "kvm-2" 0 0 0 0 "" 0 0 in
  let s := mkVsrv (demo_db false) (va_reg pool_srv) [pl] (withAudit "") 0 in
  let x := serve (fun r => VMPoolAssign vm_clock r (Ok "p2")) assign_req s in
  x.1.1 = 200 /\ members vm_clock pl x.2 = [].
Proof. by vm_compute. Qed.
