(* ===== verification/VmStore.v ===== *)
(** * Drivers over a table of native VMs

    server/internal/vprovider/{xen,esxi,hyperv}/sim_backend.go: the three model
    backends keep their VMs the same way, in a map of records, a map of snapshots
    and the order of creation, which is the type [vmStore].  What the three
    drivers do to it differs in the native record alone: [NativeVM] lists what
    they need of it, [core] is the driver they have in common, which follows the
    provider contract, and [simulates] says that a driver is [core]. *)
From S2P Require Import Prelude GoStd VProvider Sim SimFacts Contract.

(** ** The store *)

(** The fields vms, snapshots and order of a backend. *)
Record vmStore (V : Type) := mkStore {
  st_vms : gmap string V;
  st_snapshots : gmap string (list Snapshot);
  st_order : list string }.
Arguments mkStore {V} _ _ _. Arguments st_vms {V} _. Arguments st_snapshots {V} _. Arguments st_order {V} _.

Section Store.
Context {V : Type}.
Implicit Types (st : vmStore V) (k : string).

Definition st_set_vms (m : gmap string V) st : vmStore V := mkStore m (st_snapshots st) (st_order st).
Definition st_set_snapshots (m : gmap string (list Snapshot)) st : vmStore V := mkStore (st_vms st) m (st_order st).

(** Refs of the order that are no longer in the map are skipped. *)
Definition st_list st : list V := omap (fun k => st_vms st !! k) (st_order st).
Definition st_create k (v : V) st : vmStore V :=
  mkStore (<[k := v]> (st_vms st)) (st_snapshots st)
    (if bool_decide (is_Some (st_vms st !! k)) then st_order st else st_order st ++ [k]).
Definition st_destroy k st : vmStore V :=
  mkStore (delete k (st_vms st)) (delete k (st_snapshots st)) (remove_first k (st_order st)).
(** An assignment to fields of the record a ref leads to. *)
Definition st_update k (f : V -> V) st : vmStore V := st_set_vms (alter f k (st_vms st)) st.
Definition st_count (here : V -> bool) st : Z := Z.of_nat (size (filter (fun kv => here kv.2 = true) (st_vms st))).

Definition st_listSnapshots k st : list Snapshot := default [] (st_snapshots st !! k).
Definition st_createSnapshot k (s : Snapshot) st : vmStore V :=
  st_set_snapshots (<[k := (snap_set_current false <$> st_listSnapshots k st) ++ [s]]> (st_snapshots st)) st.
(** A ref without snapshots gets no entry. *)
Definition st_setCurrentSnapshot k snapID st : bool * vmStore V :=
  let isCur s := bool_decide (snap_ID s = snapID) in
  (existsb isCur (st_listSnapshots k st),
   st_set_snapshots (alter (fmap (fun s => snap_set_current (isCur s) s)) k (st_snapshots st)) st).

Lemma st_update_eq k f v st : st_vms st !! k = Some v ->
  st_update k f st = st_set_vms (<[k := f v]> (st_vms st)) st.
Proof. intros Hv. unfold st_update. by rewrite (alter_some _ _ _ v Hv). Qed.

Lemma st_update_twice k f g st : st_update k g (st_update k f st) = st_update k (fun v => g (f v)) st.
Proof. unfold st_update, st_set_vms. simpl. by rewrite alter_alter_eq. Qed.

Lemma st_update_same k st : st_update k id st = st.
Proof. unfold st_update. rewrite alter_id by done. by destruct st. Qed.

Lemma st_destroy_update k f st : st_destroy k (st_update k f st) = st_destroy k st.
Proof. unfold st_destroy, st_update. simpl. by rewrite delete_alter_eq. Qed.
End Store.

(** ** Native records *)

(** What a driver reads and writes of its records.  [nv_spec k n] is the record
    of a new VM named [k] when the counter stands at [n]. *)
Class NativeVM (V : Type) := {
  nv_key : V -> string;
  nv_name : V -> string;
  nv_host : V -> string;
  nv_state : V -> string;
  nv_vcpus : V -> Z;
  nv_mem : V -> Z;
  nv_protected : V -> bool;
  nv_spec : string -> Z -> VMSpec -> time -> V;
  nv_clone : string -> Z -> CloneSpec -> V -> V;
  nv_power : string -> V -> V;
  nv_set_host : string -> V -> V;
  nv_set_vcpus : Z -> V -> V;
  nv_set_mem : Z -> V -> V;
  nv_devices : VMReconfigureSpec -> V -> V;
  nv_mem_fits : Z -> Prop }.

(** The view of a record that the contract has, its snapshots aside. *)
Definition nv_view {V} `{NativeVM V} (v : V) : cvm :=
  mkC (nv_name v) (nv_host v) (nv_state v) (nv_vcpus v) (nv_mem v) [].

Class NativeLaws (V : Type) `{NativeVM V} := {
  nl_spec k n spec now : nv_mem_fits (vs_MemoryMB spec) ->
    nv_key (nv_spec k n spec now) = k /\ nv_protected (nv_spec k n spec now) = false /\
    nv_view (nv_spec k n spec now) = mkC (vs_Name spec) (vs_HostID spec) StateStopped (vs_VCPUs spec) (vs_MemoryMB spec) [];
  nl_clone k n spec v :
    nv_key (nv_clone k n spec v) = k /\ nv_protected (nv_clone k n spec v) = false /\
    nv_view (nv_clone k n spec v) =
      mkC (cs_Name spec) (if bool_decide (cs_HostID spec = "") then nv_host v else cs_HostID spec)
        (if cs_PowerOn spec then StateRunning else StateStopped) (nv_vcpus v) (nv_mem v) [];
  nl_power pop v : PowerOp_Valid pop = true ->
    nv_key (nv_power pop v) = nv_key v /\ nv_protected (nv_power pop v) = nv_protected v /\
    nv_view (nv_power pop v) = c_set_state (power_state pop) (nv_view v);
  nl_set_host h v : nv_key (nv_set_host h v) = nv_key v /\ nv_protected (nv_set_host h v) = nv_protected v /\
    nv_view (nv_set_host h v) = c_set_host h (nv_view v);
  nl_set_vcpus n v : nv_key (nv_set_vcpus n v) = nv_key v /\ nv_protected (nv_set_vcpus n v) = nv_protected v /\
    nv_view (nv_set_vcpus n v) = c_set_hw n (nv_mem v) (nv_view v);
  nl_set_mem m v : nv_mem_fits m -> nv_key (nv_set_mem m v) = nv_key v /\
    nv_protected (nv_set_mem m v) = nv_protected v /\ nv_view (nv_set_mem m v) = c_set_hw (nv_vcpus v) m (nv_view v);
  nl_devices spec v : nv_key (nv_devices spec v) = nv_key v /\ nv_protected (nv_devices spec v) = nv_protected v /\
    nv_view (nv_devices spec v) = nv_view v }.
