(* ===== verification/TableDriver.v ===== *)
(** * The driver the three model backends have in common

    What the operations of the Xen, ESXi and Hyper-V drivers do to the counter
    and the store of VMs, whatever the native records are, and that this is what
    the contract promises. *)
From S2P Require Import Prelude GoStd VProvider Sim SimFacts Contract VmStore.

(** They refuse what has no name, vCPU or memory, and a clone without a name. *)
Definition table_dialect : dialect := {|
  dl_create_ok spec := negb (blank (vs_Name spec) || (vs_VCPUs spec <=? 0) || (vs_MemoryMB spec <=? 0));
  dl_vcpus := vs_VCPUs;
  dl_reconfigure_ok spec := negb (not_positive (rs_VCPUs spec) || not_positive (rs_MemoryMB spec));
  dl_clone_ok spec := negb (blank (cs_Name spec));
  dl_clone_host spec h := if bool_decide (cs_HostID spec = "") then h else cs_HostID spec |}.

(** The counter after one more id, and an id. *)
Definition next (n : Z) : Z := wrap64 (n + 1).
Definition named (pre : string) (n : Z) : string := pre +:+ "-" +:+ itoa n.

Section Core.
Context {V : Type} `{NativeVM V}.
(** The prefixes of the ids of VMs and snapshots, how many ids a new VM takes
    besides its own, and what the provider is configured with. *)
Context (pvm psnap : string) (extra : nat) (caps : Z) (hosts : string -> bool).

Definition outcome : Type := (result verr string * Z * vmStore V)%type.
Definition refuse (e : verr) (n : Z) (st : vmStore V) : outcome := (Err e, n, st).
(** A write ends with a task, which takes an id. *)
Definition tasked (k : string) (n : Z) (st : vmStore V) : outcome := (Ok k, next n, st).

Definition when (cap : Z) (m : Z -> vmStore V -> outcome) (n : Z) (st : vmStore V) : outcome :=
  if negb (Has caps cap) then refuse ErrUnsupported n st else m n st.
Definition at_vm (vm : string) (m : V -> Z -> vmStore V -> outcome) (n : Z) (st : vmStore V) : outcome :=
  match st_vms st !! vm with None => refuse ErrNotFound n st | Some v => m v n st end.

(** The hardware a reconfiguration asks for is written as it is checked: sizes of
    memory are refused when the vCPUs are already set. *)
Definition hardware (spec : VMReconfigureSpec) : bool * (V -> V) :=
  let set_cpu v := match rs_VCPUs spec with Some c => nv_set_vcpus c v | None => v end in
  let set_mem v := match rs_MemoryMB spec with Some m => nv_set_mem m v | None => v end in
  if not_positive (rs_VCPUs spec) then (false, id)
  else if not_positive (rs_MemoryMB spec) then (false, set_cpu)
  else (true, fun v => nv_devices spec (set_mem (set_cpu v))).

Definition core (now : time) (o : contract_op) : Z -> vmStore V -> outcome :=
  match o with
  | CCreate spec => when CapCreateVM (fun n st =>
      if blank (vs_Name spec) || (vs_VCPUs spec <=? 0) || (vs_MemoryMB spec <=? 0) then refuse ErrInvalidSpec n st
      else let k := named pvm (next n) in
           let v := nv_spec k (next n) spec now in
           tasked k (Nat.iter extra next (next n)) (st_create (nv_key v) v st))
  | CPower vm pop => fun n st =>
      if negb (PowerOp_Valid pop) then refuse ErrInvalidSpec n st
      else when (PowerOpCapability pop) (at_vm vm (fun _ n st => tasked vm n (st_update vm (nv_power pop) st))) n st
  | CDelete vm opts => when CapDeleteVM (at_vm vm (fun v n st =>
      let running := bool_decide (nv_state v = StateRunning) in
      if nv_protected v then refuse ErrConflict n st
      else if running && negb (do_Force opts) then refuse ErrConflict n st
      else tasked vm n (st_destroy vm st)))
  | CReconfigure vm spec => when CapReconfigureVM (at_vm vm (fun _ n st =>
      let '(ok, f) := hardware spec in
      if ok then tasked vm n (st_update vm f st) else (Err ErrInvalidSpec, n, st_update vm f st)))
  | CSnapshot vm opts => when CapSnapshot (at_vm vm (fun _ n st =>
      let snap := mkSnapshot (named psnap (next n)) vm (so_Name opts) (so_Description opts) "" (so_Memory opts) true now in
      tasked vm (next n) (st_createSnapshot vm snap st)))
  | CRevert vm snap => when CapRevertSnapshot (at_vm vm (fun _ n st =>
      let '(found, st) := st_setCurrentSnapshot vm snap st in
      if negb found then refuse ErrNotFound n st else tasked vm n st))
  | CClone vm spec => when CapClone (at_vm vm (fun v n st =>
      if blank (cs_Name spec) then refuse ErrInvalidSpec n st
      else let k := named pvm (next n) in
           let c := nv_clone k (next n) spec v in
           tasked k (Nat.iter extra next (next n)) (st_create (nv_key c) c st)))
  | CMigrate vm host opts => when CapMigrate (at_vm vm (fun _ n st =>
      if hosts host then tasked vm n (st_update vm (nv_set_host host) st) else refuse ErrInvalidSpec n st))
  end.

(** The table the API shows. *)
Definition st_view (st : vmStore V) : gmap string cvm :=
  map_imap (fun k v => Some (c_set_snaps ((fun s => (snap_ID s, snap_IsCurrent s)) <$> st_listSnapshots k st) (nv_view v)))
    (st_vms st).

(** Memory sizes the record can hold, and no reconfiguration refused half way. *)
Definition op_ok (o : contract_op) : Prop :=
  match o with
  | CCreate spec => nv_mem_fits (vs_MemoryMB spec)
  | CReconfigure _ spec =>
      (forall m, rs_MemoryMB spec = Some m -> nv_mem_fits m) /\
      (rs_VCPUs spec = None \/ not_positive (rs_VCPUs spec) = true \/ not_positive (rs_MemoryMB spec) = false)
  | _ => True
  end.

(** ** The invariant *)

(** Every VM is seeded ([old]) or was named by the counter, none is protected,
    and the seeds are not names the counter reaches below [lim]. *)
Record swf (old : string -> Prop) (n : Z) (st : vmStore V) : Prop := {
  swf_seq : 0 <= n;
  swf_key : forall k v, st_vms st !! k = Some v -> nv_key v = k;
  swf_open : forall k v, st_vms st !! k = Some v -> nv_protected v = false;
  swf_issued : forall k, is_Some (st_vms st !! k) -> old k \/ issued pvm n k;
  swf_snapdom : forall k, is_Some (st_snapshots st !! k) -> is_Some (st_vms st !! k);
  swf_snaps : forall k l, st_snapshots st !! k = Some l -> snaps_at psnap k n l;
  swf_nodup : NoDup (st_order st);
  swf_order : forall k, k ∈ st_order st <-> is_Some (st_vms st !! k) }.
End Core.
