(* ===== verification/TableFacts.v ===== *)
(** * The common driver follows the provider contract

    The invariant of the store and the steps of [core], and what a driver owes
    ([simulates]) to inherit them. *)
From S2P Require Import Prelude GoStd VProvider Sim SimFacts Contract VmStore TableDriver.

Lemma existsb_fmap {A B} (f : A -> B) (p : B -> bool) l : existsb p (f <$> l) = existsb (fun x => p (f x)) l.
Proof. induction l as [|x l IH]; [done|]. change (p (f x) || existsb p (f <$> l) = p (f x) || existsb (fun x => p (f x)) l). by rewrite IH. Qed.

Section Facts.
Context {V : Type} `{NativeLaws V}.
Context (pvm psnap : string) (extra : nat) (caps : Z) (hosts : string -> bool) (old : string -> Prop) (lim : Z).
Hypothesis old_ok : forall k i, old k -> 0 < i < lim -> k <> named pvm i.
Hypothesis lim_ok : lim <= 2 ^ 63.

Local Abbreviation wf := (swf pvm psnap old).
Implicit Types (st : vmStore V) (n : Z).

Lemma swf_mono n m st : n <= m -> wf n st -> wf m st.
Proof.
  intros Hle []. constructor; try done; [lia| |].
  - intros k Hk. destruct (swf_issued k Hk) as [|]; [by left|right]. by eapply issued_mono.
  - intros k l Hk. eapply snaps_ok_mono; [done|]. by apply swf_snaps.
Qed.

Lemma swf_free n st : wf n st -> n + 1 < lim -> st_vms st !! named pvm (n + 1) = None.
Proof.
  intros Hwf Hn. pose proof (swf_seq _ _ _ _ _ Hwf). apply eq_None_not_Some. intros Hk.
  apply (swf_issued _ _ _ _ _ Hwf) in Hk as [Hk|Hk].
  - by apply (old_ok _ (n + 1)) in Hk; [|lia].
  - by apply issued_fresh in Hk.
Qed.

Lemma swf_put n st k v : is_Some (st_vms st !! k) -> nv_key v = k -> nv_protected v = false -> wf n st ->
  wf n (st_set_vms (<[k := v]> (st_vms st)) st).
Proof.
  intros Hk Hv Hp []. assert (forall k', is_Some (<[k := v]> (st_vms st) !! k') <-> is_Some (st_vms st !! k')) as Hdom.
  { intros k'. rewrite lookup_insert_is_Some. destruct (decide (k = k')) as [<-|Hne]; naive_solver. }
  constructor; simpl; try done; try (setoid_rewrite Hdom; done).
  - intros k' v' Hl. apply lookup_insert_Some in Hl as [[<- <-]|[_ Hl]]; eauto.
  - intros k' v' Hl. apply lookup_insert_Some in Hl as [[<- <-]|[_ Hl]]; eauto.
Qed.

Lemma swf_create n st k v : st_vms st !! k = None -> issued pvm n k -> nv_key v = k -> nv_protected v = false ->
  wf n st -> wf n (st_create k v st).
Proof.
  intros Hk Hi Hv Hp []. unfold st_create. rewrite Hk, bool_decide_false by (by intros [? ?]).
  constructor; simpl; try done.
  - intros k' v' Hl. apply lookup_insert_Some in Hl as [[<- <-]|[_ Hl]]; eauto.
  - intros k' v' Hl. apply lookup_insert_Some in Hl as [[<- <-]|[_ Hl]]; eauto.
  - intros k' Hl. apply lookup_insert_is_Some in Hl as [<-|[_ Hl]]; eauto.
  - intros k' Hl. apply lookup_insert_is_Some. destruct (decide (k = k')); eauto.
  - apply NoDup_app. split_and!; [done| |by apply NoDup_singleton].
    intros x Hx ->%list_elem_of_singleton. apply swf_order in Hx as [? ?]. congruence.
  - intros k'. rewrite elem_of_app, list_elem_of_singleton, lookup_insert_is_Some, swf_order.
    destruct (decide (k = k')); naive_solver.
Qed.

Lemma swf_destroy n st k : wf n st -> wf n (st_destroy k st).
Proof.
  intros []. destruct (remove_first_spec k (st_order st) swf_nodup) as [H1 H2].
  constructor; simpl; try done.
  - intros k' d Hl. apply lookup_delete_Some in Hl as [_ Hl]. eauto.
  - intros k' d Hl. apply lookup_delete_Some in Hl as [_ Hl]. eauto.
  - intros k' Hl. apply lookup_delete_is_Some in Hl as [_ Hl]. eauto.
  - intros k' Hl. apply lookup_delete_is_Some in Hl as [Hne Hl]. apply lookup_delete_is_Some. eauto.
  - intros k' l Hl. apply lookup_delete_Some in Hl as [_ Hl]. eauto.
  - intros k'. rewrite H2, swf_order, lookup_delete_is_Some. naive_solver.
Qed.

Lemma swf_put_snaps n st k l : is_Some (st_vms st !! k) -> snaps_at psnap k n l -> wf n st ->
  wf n (st_set_snapshots (<[k := l]> (st_snapshots st)) st).
Proof.
  intros Hk Hl []. constructor; simpl; try done.
  - intros k' [l' E]. apply lookup_insert_Some in E as [[<- <-]|[_ E]]; eauto.
  - intros k' l' E. apply lookup_insert_Some in E as [[<- <-]|[_ E]]; eauto.
Qed.

Lemma swf_list_snaps n st k : wf n st -> snaps_at psnap k n (st_listSnapshots k st).
Proof.
  intros Hwf. unfold st_listSnapshots. destruct (st_snapshots st !! k) as [l|] eqn:E; simpl.
  - by apply (swf_snaps _ _ _ _ _ Hwf).
  - apply snaps_ok_nil.
Qed.

Lemma swf_orphan n st k : wf n st -> st_vms st !! k = None -> st_listSnapshots k st = [].
Proof.
  intros Hwf Hk. unfold st_listSnapshots. destruct (st_snapshots st !! k) as [l|] eqn:E; [|done].
  destruct (swf_snapdom _ _ _ _ _ Hwf k) as [v Hv]; [by eexists|]. congruence.
Qed.

(** ** The view *)

Definition marks (l : list Snapshot) : list (string * bool) := (fun s => (snap_ID s, snap_IsCurrent s)) <$> l.

Lemma st_view_lookup st k :
  st_view st !! k = (fun v => c_set_snaps (marks (st_listSnapshots k st)) (nv_view v)) <$> st_vms st !! k.
Proof. unfold st_view. rewrite map_lookup_imap. by destruct (st_vms st !! k). Qed.

(** After a write that leaves the other VMs and their snapshots alone. *)
Lemma st_view_put st st' k v : st_vms st' = <[k := v]> (st_vms st) ->
  (forall k', k <> k' -> st_listSnapshots k' st' = st_listSnapshots k' st) ->
  st_view st' = <[k := c_set_snaps (marks (st_listSnapshots k st')) (nv_view v)]> (st_view st).
Proof.
  intros H1 H2. apply map_update_eq.
  - by rewrite st_view_lookup, H1, lookup_insert_eq.
  - intros k' Hk. by rewrite !st_view_lookup, H1, lookup_insert_ne, H2.
Qed.

Local Abbreviation newvm n := (named pvm (n + 1)).
Local Abbreviation newsnap n := (named psnap (n + 1)).
Local Abbreviation table n := (performs table_dialect caps hosts (newvm n) (newsnap n)).
Local Abbreviation run := (core pvm psnap extra caps hosts).

Lemma table_snap_fresh n st vm v : wf n st -> st_view st !! vm = Some v -> newsnap n ∉ (c_snaps v).*1.
Proof.
  intros Hwf Hv. rewrite st_view_lookup in Hv. apply fmap_Some in Hv as (w & _ & ->). simpl.
  unfold marks. rewrite <- list_fmap_compose. intros (s & Hs & Hin)%list_elem_of_fmap.
  destruct (swf_list_snaps _ _ vm Hwf) as (_ & Hall & _). rewrite Forall_forall in Hall.
  destruct (Hall s Hin) as [_ Hiss]. change (newsnap n = snap_ID s) in Hs. rewrite <- Hs in Hiss.
  by apply issued_fresh in Hiss.
Qed.

(** ** Steps *)

Definition steps (now : time) (o : contract_op) (n : Z) (st : vmStore V) : Prop :=
  let '(r, n', st') := run now o n st in
  wf n' st' /\ n <= n' <= n + 2 + Z.of_nat extra /\ table n o (st_view st) = (r, st_view st').

Lemma next_le n i : 0 <= n -> n + 1 + Z.of_nat i < lim -> Nat.iter i next (n + 1) = n + 1 + Z.of_nat i.
Proof.
  intros Hn. induction i as [|i IH]; intros Hl; [simpl; lia|]. rewrite Nat.iter_succ, IH by lia.
  unfold next. rewrite wrap_next by lia. lia.
Qed.

Lemma at_none st vm : st_vms st !! vm = None -> st_view st !! vm = None.
Proof. intros E. by rewrite st_view_lookup, E. Qed.
Lemma at_some st vm v : st_vms st !! vm = Some v ->
  st_view st !! vm = Some (c_set_snaps (marks (st_listSnapshots vm st)) (nv_view v)).
Proof. intros E. by rewrite st_view_lookup, E. Qed.

(** A guard that refuses: the machine refuses too. *)
Lemma refused n st e : wf n st -> wf n st /\ n <= n <= n + 2 + Z.of_nat extra /\ (@Err verr string e, st_view st) = (Err e, st_view st).
Proof. intros. split_and!; [done|lia|lia|done]. Qed.

(** The tail of a write: the task takes an id. *)
Lemma finished n m st st' k o : wf n st -> wf m st' -> n <= m <= n + 1 + Z.of_nat extra -> m + 1 < 2 ^ 63 ->
  table n o (st_view st) = (Ok k, st_view st') ->
  let '(r, n', st') := tasked k m st' in
  wf n' st' /\ n <= n' <= n + 2 + Z.of_nat extra /\ table n o (st_view st) = (r, st_view st').
Proof.
  intros Hwf Hwf' Hm Hlim Ht. pose proof (swf_seq _ _ _ _ _ Hwf). simpl. unfold next. rewrite wrap_next by lia.
  split_and!; [by apply (swf_mono m); [lia|]|lia|lia|done].
Qed.

(** One VM is overwritten, its key and its snapshots kept. *)
Lemma updated n st vm v f o : wf n st -> n + 1 < 2 ^ 63 -> st_vms st !! vm = Some v ->
  nv_key (f v) = nv_key v /\ nv_protected (f v) = nv_protected v ->
  table n o (st_view st) = (Ok vm, <[vm := c_set_snaps (marks (st_listSnapshots vm st)) (nv_view (f v))]> (st_view st)) ->
  let '(r, n', st') := tasked vm n (st_update vm f st) in
  wf n' st' /\ n <= n' <= n + 2 + Z.of_nat extra /\ table n o (st_view st) = (r, st_view st').
Proof.
  intros Hwf Hl Hv [Hk Hp] Ht. rewrite (st_update_eq _ _ _ _ Hv).
  apply (finished n n st); [done| |lia|done|].
  - apply swf_put; [by rewrite Hv| | |done].
    + rewrite Hk. by apply (swf_key _ _ _ _ _ Hwf).
    + rewrite Hp. by apply (swf_open _ _ _ _ _ Hwf vm).
  - rewrite Ht. f_equal. symmetry. exact (st_view_put st (st_set_vms _ st) vm (f v) eq_refl (fun _ _ => eq_refl)).
Qed.

Local Abbreviation room n := (n + 2 + Z.of_nat extra < lim).

Lemma created n st k v o c :
  wf n st -> room n -> k = newvm n -> nv_key v = k -> nv_protected v = false -> nv_view v = c -> c_snaps c = [] ->
  table n o (st_view st) = (Ok k, <[k := c]> (st_view st)) ->
  let '(r, n', st') := tasked k (Nat.iter extra next (n + 1)) (st_create k v st) in
  wf n' st' /\ n <= n' <= n + 2 + Z.of_nat extra /\ table n o (st_view st) = (r, st_view st').
Proof.
  intros Hwf Hr -> Hk Hp Hc Hnil Ht. pose proof (swf_seq _ _ _ _ _ Hwf).
  assert (st_vms st !! newvm n = None) as Hfree by (apply swf_free; [done|lia]).
  rewrite next_le by lia.
  apply (finished n (n + 1 + Z.of_nat extra) st); [done| |lia|lia|].
  - apply swf_create; [done| |done|done|by apply (swf_mono n); [lia|]].
    eapply issued_mono; [|by apply issued_next]. lia.
  - rewrite Ht. f_equal. symmetry. rewrite (st_view_put st (st_create (newvm n) v st) (newvm n) v); [|done|done].
    f_equal. change (st_listSnapshots (newvm n) (st_create (newvm n) v st)) with (st_listSnapshots (newvm n) st).
    rewrite (swf_orphan _ _ _ Hwf Hfree), Hc. simpl. destruct c. simpl in Hnil. by subst.
Qed.

Lemma next_eq n st : wf n st -> n + 1 < lim -> next n = n + 1.
Proof. intros Hwf Hn. apply wrap_next; [by apply (swf_seq _ _ _ _ _ Hwf)|lia]. Qed.

Lemma table_create now spec n st : wf n st -> room n -> nv_mem_fits (vs_MemoryMB spec) -> steps now (CCreate spec) n st.
Proof.
  intros Hwf Hr Hm. unfold steps. cbn [core]. unfold when. destruct (Has caps CapCreateVM) eqn:Hc; cbn [negb].
  2: { unfold performs, contract, need. rewrite Hc. by apply refused. }
  destruct (_ || _) eqn:Hok.
  { unfold performs, contract, need, table_dialect. cbn [dl_create_ok]. rewrite Hc, Hok. by apply refused. }
  cbv zeta. rewrite (next_eq n st) by (done || lia).
  destruct (nl_spec (newvm n) (n + 1) spec now Hm) as (Hk & Hp & Hv). rewrite Hk.
  eapply created; [done..|exact Hv|done|].
  unfold performs, contract, need, table_dialect. cbn [dl_create_ok dl_vcpus]. by rewrite Hc, Hok.
Qed.

(** The guards in front of the operations on one VM. *)
Ltac past Hv cap vm :=
  unfold steps; cbn [core]; unfold when, at_vm;
  destruct (Has caps cap) eqn:Hcap; cbn [negb];
    [|unfold performs, contract, need; rewrite Hcap; by apply refused];
  match goal with st : vmStore V |- _ => destruct (st_vms st !! vm) as [v|] eqn:Hv;
    [pose proof (at_some _ _ _ Hv) as Hview
    |unfold performs, contract, need, on_vm; rewrite Hcap, (at_none _ _ Hv); by apply refused] end.

Lemma table_power now vm pop n st : wf n st -> room n -> steps now (CPower vm pop) n st.
Proof.
  intros Hwf Hr. unfold steps. cbn [core]. destruct (PowerOp_Valid pop) eqn:Hop; cbn [negb].
  2: { unfold performs, contract. rewrite Hop. by apply refused. }
  unfold when, at_vm.
  destruct (Has caps (PowerOpCapability pop)) eqn:Hcap; cbn [negb].
  2: { unfold performs, contract, need. rewrite Hop, Hcap. by apply refused. }
  destruct (st_vms st !! vm) as [v|] eqn:Hv.
  2: { unfold performs, contract, need, on_vm. rewrite Hop, Hcap, (at_none _ _ Hv). by apply refused. }
  destruct (nl_power pop v Hop) as (Hk & Hp & Hs). apply (updated _ _ _ v); [done|lia|done|done|].
  unfold performs, contract, need, on_vm. by rewrite Hop, Hcap, (at_some _ _ _ Hv), Hs.
Qed.

Lemma table_delete now vm opts n st : wf n st -> room n -> steps now (CDelete vm opts) n st.
Proof.
  intros Hwf Hr. past Hv CapDeleteVM vm. rewrite (swf_open _ _ _ _ _ Hwf _ _ Hv). cbv zeta. cbn [negb].
  destruct (_ && _) eqn:Hrun.
  { unfold performs, contract, need, on_vm. rewrite Hcap, Hview. cbn [c_state c_set_snaps nv_view]. rewrite Hrun. by apply refused. }
  apply (finished n n st); [done|by apply swf_destroy|lia|lia|].
  unfold performs, contract, need, on_vm. rewrite Hcap, Hview. cbn [c_state c_set_snaps nv_view]. rewrite Hrun. f_equal.
  apply map_eq. intros k. rewrite st_view_lookup. unfold st_listSnapshots. simpl.
  destruct (decide (vm = k)) as [<-|Hne]; [by rewrite !lookup_delete_eq|].
  by rewrite !lookup_delete_ne, st_view_lookup.
Qed.

Lemma table_migrate now vm host opts n st : wf n st -> room n -> steps now (CMigrate vm host opts) n st.
Proof.
  intros Hwf Hr. past Hv CapMigrate vm. destruct (hosts host) eqn:Hh.
  2: { unfold performs, contract, need, on_vm. rewrite Hcap, Hview, Hh. by apply refused. }
  destruct (nl_set_host host v) as (Hk & Hp & Hs). apply (updated _ _ _ v); [done|lia|done|done|].
  unfold performs, contract, need, on_vm. by rewrite Hcap, Hview, Hh, Hs.
Qed.

Lemma table_clone now vm spec n st : wf n st -> room n -> steps now (CClone vm spec) n st.
Proof.
  intros Hwf Hr. past Hv CapClone vm. destruct (blank (cs_Name spec)) eqn:Hb.
  { unfold performs, contract, need, on_vm, table_dialect. cbn [dl_clone_ok]. rewrite Hcap, Hview, Hb. by apply refused. }
  cbv zeta. rewrite (next_eq n st) by (done || lia).
  destruct (nl_clone (newvm n) (n + 1) spec v) as (Hk & Hp & Hc). rewrite Hk.
  eapply created; [done..|exact Hc|done|].
  unfold performs, contract, need, on_vm, table_dialect. cbn [dl_clone_ok dl_clone_host]. by rewrite Hcap, Hview, Hb.
Qed.

Lemma table_snapshot now vm opts n st : wf n st -> room n -> steps now (CSnapshot vm opts) n st.
Proof.
  intros Hwf Hr. pose proof (swf_seq _ _ _ _ _ Hwf). past Hv CapSnapshot vm. rewrite (next_eq n st) by (done || lia). cbv zeta.
  apply (finished n (n + 1) st); [done| |lia|lia|].
  - apply swf_put_snaps; [by rewrite Hv| |by apply (swf_mono n); [lia|]]. apply snaps_ok_add; [done|].
    by apply swf_list_snaps.
  - unfold performs, contract, need, on_vm. rewrite Hcap, Hview. f_equal. symmetry.
    rewrite (st_view_put st (st_createSnapshot vm _ st) vm v).
    + unfold st_listSnapshots at 1. simpl. rewrite lookup_insert_eq. f_equal. unfold c_set_snaps, marks. simpl.
      by rewrite fmap_app, <- !list_fmap_compose.
    + simpl. by rewrite insert_id.
    + intros k Hk. unfold st_listSnapshots. simpl. by rewrite lookup_insert_ne.
Qed.

Lemma revert_store vm snap n st l : wf n st -> is_Some (st_vms st !! vm) -> st_listSnapshots vm st = l ->
  let st' := (st_setCurrentSnapshot vm snap st).2 in
  wf n st' /\ st_vms st' = st_vms st /\
  st_listSnapshots vm st' = (fun s => snap_set_current (bool_decide (snap_ID s = snap)) s) <$> l /\
  forall k, vm <> k -> st_listSnapshots k st' = st_listSnapshots k st.
Proof.
  intros Hwf Hv <-. cbv zeta. unfold st_setCurrentSnapshot, st_listSnapshots. simpl. split_and!; [|done| |].
  - destruct (st_snapshots st !! vm) as [l|] eqn:Hl.
    + rewrite (alter_some _ _ _ _ Hl). apply swf_put_snaps; [done| |done]. apply snaps_ok_mark.
      by apply (swf_snaps _ _ _ _ _ Hwf).
    + rewrite alter_id; [by destruct st|]. intros l. by rewrite Hl.
  - rewrite lookup_alter_eq. by destruct (st_snapshots st !! vm).
  - intros k Hk. by rewrite lookup_alter_ne.
Qed.

Lemma table_revert now vm snap n st : wf n st -> room n -> steps now (CRevert vm snap) n st.
Proof.
  intros Hwf Hr. past Hv CapRevertSnapshot vm.
  destruct (revert_store vm snap n st _ Hwf ltac:(by eexists) eq_refl) as (Hwf' & Hvms & Hsn & Hoth).
  destruct (st_setCurrentSnapshot vm snap st) as [found st'] eqn:E. simpl in Hwf', Hvms, Hsn, Hoth.
  assert (table n (CRevert vm snap) (st_view st) = (if found then Ok vm else Err ErrNotFound, st_view st')) as Ht.
  { unfold performs, contract, need, on_vm. rewrite Hcap, Hview. rewrite (st_view_put st st' vm v); [|by rewrite Hvms, insert_id|done].
    unfold st_setCurrentSnapshot in E. injection E as <- _. cbn [c_snaps c_set_snaps]. unfold marks at 1.
    rewrite existsb_fmap. do 2 f_equal. rewrite Hsn. unfold c_set_snaps, marks. simpl. by rewrite <- !list_fmap_compose. }
  destruct found; cbn [negb].
  - by apply (finished n n st); [done|done|lia|lia|].
  - rewrite Ht. split_and!; [done|lia|lia|done].
Qed.

(** The hardware, written as it is checked. *)
Lemma hardware_ok spec v : (forall m, rs_MemoryMB spec = Some m -> nv_mem_fits m) ->
  not_positive (rs_VCPUs spec) || not_positive (rs_MemoryMB spec) = false ->
  exists f, hardware spec = (true, f) /\ nv_key (f v) = nv_key v /\ nv_protected (f v) = nv_protected v /\
    nv_view (f v) = c_set_hw (default (nv_vcpus v) (rs_VCPUs spec)) (default (nv_mem v) (rs_MemoryMB spec)) (nv_view v).
Proof.
  intros Hm Hpos. apply orb_false_iff in Hpos as [Hc Hp]. unfold hardware. rewrite Hc, Hp. eexists. split; [done|].
  cbv beta. set (w := match rs_VCPUs spec with Some c => nv_set_vcpus c v | None => v end).
  assert (nv_key w = nv_key v /\ nv_protected w = nv_protected v /\
          nv_view w = c_set_hw (default (nv_vcpus v) (rs_VCPUs spec)) (nv_mem v) (nv_view v)) as (K1 & P1 & V1).
  { unfold w. destruct (rs_VCPUs spec); [apply nl_set_vcpus|done]. }
  clearbody w. set (x := match rs_MemoryMB spec with Some m => nv_set_mem m w | None => w end).
  assert (nv_key x = nv_key v /\ nv_protected x = nv_protected v /\
          nv_view x = c_set_hw (default (nv_vcpus v) (rs_VCPUs spec)) (default (nv_mem v) (rs_MemoryMB spec)) (nv_view v))
    as (K2 & P2 & V2).
  { injection V1 as E1 E2 E3 E4 E5. unfold x. destruct (rs_MemoryMB spec) as [m|]; simpl.
    - destruct (nl_set_mem m w (Hm m eq_refl)) as (A & B & C). rewrite A, B, C, K1, P1, E4.
      split_and!; [done..|]. unfold c_set_hw, nv_view. simpl. by rewrite E1, E2, E3.
    - split_and!; [done..|]. unfold c_set_hw, nv_view. simpl. by rewrite E1, E2, E3, E4, E5. }
  clearbody x. destruct (nl_devices spec x) as (A & B & C). by rewrite A, B, C.
Qed.

Lemma table_reconfigure now vm spec n st : wf n st -> room n -> op_ok (CReconfigure vm spec) ->
  steps now (CReconfigure vm spec) n st.
Proof.
  intros Hwf Hr [Hm Htorn]. past Hv CapReconfigureVM vm.
  destruct (not_positive (rs_VCPUs spec) || not_positive (rs_MemoryMB spec)) eqn:Hpos.
  - assert (hardware (V := V) spec = (false, id)) as ->.
    { unfold hardware. destruct (not_positive (rs_VCPUs spec)) eqn:Hc; [done|]. simpl in Hpos. rewrite Hpos.
      destruct Htorn as [-> |[?|?]]; [done|congruence..]. }
    rewrite st_update_same. unfold performs, contract, need, on_vm, table_dialect. cbn [dl_reconfigure_ok].
    rewrite Hcap, Hview, Hpos. by apply refused.
  - destruct (hardware_ok spec v Hm Hpos) as (f & -> & Hk & Hp & Hs). apply (updated _ _ _ v); [done|lia|done|done|].
    unfold performs, contract, need, on_vm, table_dialect. cbn [dl_reconfigure_ok]. by rewrite Hcap, Hview, Hpos, Hs.
Qed.

(** Every operation is a step of the contract. *)
Lemma core_steps now o n st : wf n st -> room n -> op_ok o -> steps now o n st.
Proof.
  intros Hwf Hr Ho. destruct o; simpl in Ho;
    eauto using table_create, table_power, table_delete, table_reconfigure, table_snapshot, table_revert, table_clone, table_migrate.
Qed.
End Facts.

(** ** Drivers *)

(** A driver whose operations are, up to its tasks and its errors, those of
    [core] on its counter and its store. *)
Section Driver.
Context {V P E T : Type} `{NativeLaws V} (emb : verr -> E).
Context (exec : time -> contract_op -> P -> result E (option Task) * P).
Context (seq : P -> Z) (store : P -> vmStore V) (caps : P -> Z) (nodes : P -> gmap string T).
Context (pvm psnap : string) (extra : nat).

Definition on_hosts (m : gmap string T) (h : string) : bool := bool_decide (is_Some (m !! h)).
Definition simulates : Prop := forall now o p,
  (map_err emb (core pvm psnap extra (caps p) (on_hosts (nodes p)) now o (seq p) (store p)).1.1,
   (core pvm psnap extra (caps p) (on_hosts (nodes p)) now o (seq p) (store p)).1.2,
   (core pvm psnap extra (caps p) (on_hosts (nodes p)) now o (seq p) (store p)).2, caps p, nodes p) =
  (entity_of (exec now o p).1, seq (exec now o p).2, store (exec now o p).2, caps (exec now o p).2, nodes (exec now o p).2).

Definition driver_inv (old : string -> Prop) (c : Z) (h : gmap string T) (p : P) : Prop :=
  swf pvm psnap old (seq p) (store p) /\ caps p = c /\ nodes p = h.

Lemma simulates_refines old lim c h :
  (forall k i, old k -> 0 < i < lim -> k <> named pvm i) -> lim <= 2 ^ 63 -> simulates ->
  refines_step emb exec (fun p => st_view (store p)) (driver_inv old c h) seq table_dialect c (on_hosts h) op_ok
    (2 + Z.of_nat extra) lim.
Proof.
  intros Hold Hlim Hsim now o p (Hwf & <- & <-) Hroom Ho. specialize (Hsim now o p).
  pose proof (core_steps pvm psnap extra (caps p) (on_hosts (nodes p)) old lim Hold Hlim now o _ _ Hwf ltac:(lia) Ho) as Hs.
  unfold steps in Hs. destruct (core _ _ _ _ _ _ _ _ _) as [[r n'] st'] eqn:Ec. simpl in Hsim.
  injection Hsim as He Hq Hst Hc Hh. destruct Hs as (Hwf' & Hn & Ht). unfold driver_inv.
  rewrite <- Hq, <- Hst, <- Hc, <- Hh. split; [done|]. split; [lia|]. do 3 eexists. split_and!.
  - rewrite st_view_lookup. rewrite (swf_free pvm psnap old lim Hold _ _ Hwf) by lia. done.
  - intros vm v. by apply (table_snap_fresh pvm psnap old).
  - rewrite <- Hst. exact Ht.
  - by rewrite <- He.
Qed.
End Driver.
