(* ===== verification/DriverKit.v ===== *)
(** * The provider the Xen, ESXi and Hyper-V packages repeat

    server/internal/vprovider/{xen/xen,esxi/esxi,hyperv/provider}.go: the struct
    [Provider], its ids and tasks, the gates of its methods, and the methods that
    differ in a constant only.  A method that reads the clock takes its readings
    as arguments. *)
From S2P Require Import Prelude GoStd VProvider.

(** The cluster id is a field of the Xen provider, which caches it; the two
    others have none, and it is empty. *)
Record drv (B : Type) := mkDrv {
  dr_id : string; dr_kind : string; dr_caps : Z; dr_clusterID : string; dr_backend : B;
  dr_tracker : gmap string Task; dr_seq : Z; dr_closed : bool }.
Arguments mkDrv {B} _ _ _ _ _ _ _ _.
Arguments dr_id {B} _. Arguments dr_kind {B} _. Arguments dr_caps {B} _. Arguments dr_clusterID {B} _.
Arguments dr_backend {B} _. Arguments dr_tracker {B} _. Arguments dr_seq {B} _. Arguments dr_closed {B} _.

(** Every bit of the core contract, none of the extension surface. *)
Definition CoreCaps : Z :=
  foldr Z.lor 0
    [CapListHosts; CapListVMs; CapGetVM; CapListClusters; CapListStorage; CapListNetworks; CapCreateVM;
     CapPowerStart; CapPowerStop; CapPowerReset; CapPowerSuspend; CapDeleteVM; CapReconfigureVM; CapSnapshot;
     CapRevertSnapshot; CapClone; CapMigrate; CapExport; CapClusterTopology; CapNodeState; CapMetrics; CapEvents].

Section Kit.
Context {B : Type}.

Definition set_backend (b : B) (p : drv B) : drv B :=
  mkDrv (dr_id p) (dr_kind p) (dr_caps p) (dr_clusterID p) b (dr_tracker p) (dr_seq p) (dr_closed p).
Definition set_tracker (t : gmap string Task) (p : drv B) : drv B :=
  mkDrv (dr_id p) (dr_kind p) (dr_caps p) (dr_clusterID p) (dr_backend p) t (dr_seq p) (dr_closed p).
Definition set_seq (n : Z) (p : drv B) : drv B :=
  mkDrv (dr_id p) (dr_kind p) (dr_caps p) (dr_clusterID p) (dr_backend p) (dr_tracker p) n (dr_closed p).
Definition set_closed (c : bool) (p : drv B) : drv B :=
  mkDrv (dr_id p) (dr_kind p) (dr_caps p) (dr_clusterID p) (dr_backend p) (dr_tracker p) (dr_seq p) c.

Definition dop (A : Type) : Type := drv B -> result kerr A * drv B.
Definition dfail {A} (e : verr) : dop A := fun p => (Err (Sentinel e), p).

Definition nextID (prefix : string) (p : drv B) : string * drv B :=
  let seq := wrap64 (dr_seq p + 1) in
  (prefix +:+ "-" +:+ itoa seq, set_seq seq p).

Definition finishTask (kind entity : string) (now : time) : dop (option Task) := fun p =>
  let '(tid, p) := nextID "task" p in
  let '(t, tr) := tt_Start tid kind (dr_id p) entity now (dr_tracker p) in
  let '(t', tr) := tt_Finish (task_ID t) TaskSucceeded "" now tr in
  (Ok t', set_tracker tr p).

Definition gated {A} (cap : Z) (m : dop A) : dop A := fun p =>
  if negb (Has (dr_caps p) cap) then dfail ErrUnsupported p else m p.
Definition listing {A} (cap : Z) (l : drv B -> list A) (p : drv B) : result kerr (list A) :=
  if negb (Has (dr_caps p) cap) then Err (Sentinel ErrUnsupported) else Ok (l p).
(** What [getVM] finds, and a call of the backend, which reports no error. *)
Definition with_vm {V A} (get : string -> B -> option V) (vmID : string) (m : V -> dop A) : dop A := fun p =>
  match get vmID (dr_backend p) with
  | None => dfail ErrNotFound p
  | Some v => m v p
  end.
Definition backend_do {A} (f : B -> B) (m : dop A) : dop A := fun p => m (set_backend (f (dr_backend p)) p).

Definition health (message : string) (healthy : B -> bool) (version : B -> string) (now : time) (p : drv B) : HealthStatus :=
  if dr_closed p || negb (healthy (dr_backend p)) then mkHealth false message "" now
  else mkHealth true "" (version (dr_backend p)) now.
Definition close_with (close : B -> result string unit * B) (p : drv B) : result kerr unit * drv B :=
  if dr_closed p then (Ok tt, p)
  else let '(r, b) := close (dr_backend p) in
       (match r with Ok _ => Ok tt | Err e => Err (Foreign e) end, set_backend b (set_closed true p)).

(** The five samples, [step] seconds apart. *)
Definition series (entityID : string) (window : MetricWindow) (default_step : Z) (now : time)
    (sample : Z -> time -> MetricSample) : string * list MetricSample :=
  let base := if is_zero_time (mw_Since window) then now - 5 * Minute else mw_Since window in
  let step := if mw_StepSecond window <=? 0 then default_step else mw_StepSecond window in
  (entityID, (fun i => sample i (base + dur_of (wrap64 (i * step)) Second)) <$> [0; 1; 2; 3; 4]).

(** What [StreamEvents] sends, in order, until the receiver leaves. *)
Definition state_events (vms : list VM) (now : time) (p : drv B) : list Event :=
  match vms with
  | [] => [mkEvent EventAlert (dr_id p) "" "event stream established (no VMs)" now]
  | _ => (fun v => mkEvent EventVMStateChanged (dr_id p) (vm_ID v) (vm_Name v +:+ " is " +:+ vm_State v) now) <$> vms
  end.

(** The placeholder a model backend exports. *)
Definition export_payload (magic id vmID format : string) : string :=
  let nul := bytes [0%N] in
  magic +:+ nul +:+ "provider=" +:+ id +:+ nul +:+ "vm=" +:+ vmID +:+ nul +:+ "format=" +:+ format +:+ bytes [10%N].
End Kit.
Arguments drv : clear implicits.
Arguments dop B A : clear implicits.

(** The tail of a write. *)
Lemma finishTask_eq {B} kind entity now (p : drv B) :
  let seq := wrap64 (dr_seq p + 1) in
  let tid := "task-" +:+ itoa seq in
  let t := mkTask tid kind (dr_id p) entity TaskSucceeded 100 "" "" now now now in
  finishTask kind entity now p = (Ok (Some t), set_tracker (<[tid := t]> (dr_tracker p)) (set_seq seq p)).
Proof.
  cbn zeta. unfold finishTask, nextID, tt_Start, tt_Finish. simpl. by rewrite lookup_insert_eq, insert_insert_eq.
Qed.
