(* ===== verification/Xen.v ===== *)
(** * The Xen driver

    server/internal/vprovider/xen/{xapi,xen,sim_backend}.go: XAPI's data, its
    normalization, the provider over a class of backends, and the in-memory pool
    of the default build as an instance. *)
From S2P Require Import Prelude GoStd VProvider Sim VmStore DriverKit.

(** ** XAPI-native data *)

Definition psHalted : string := "Halted".
Definition psRunning : string := "Running".
Definition psSuspended : string := "Suspended".
Definition psPaused : string := "Paused".

Definition normalizeState (s : string) : string :=
  if bool_decide (s = psRunning) then StateRunning
  else if bool_decide (s = psHalted) then StateStopped
  else if bool_decide (s = psSuspended) then StateSuspended
  else if bool_decide (s = psPaused) then StatePaused
  else StateUnknown.

Record xapiVBD := mkVBD {
  vbd_Ref : string; vbd_Device : string; vbd_VDIRef : string; vbd_SRRef : string; vbd_VirtualB : Z; vbd_Path : string }.
Record xapiVIF := mkVIF {
  vif_Ref : string; vif_MAC : string; vif_NetworkRef : string; vif_Model : string; vif_Attached : bool }.
Record xapiVM := mkXVM {
  xv_Ref : string; xv_UUID : string; xv_NameLabel : string; xv_PowerState : string; xv_ResidentOn : string;
  xv_VCPUsMax : Z; xv_MemoryB : Z; xv_OSDistro : string; xv_HVM : bool; xv_UEFI : bool;
  xv_VBDs : list xapiVBD; xv_VIFs : list xapiVIF; xv_IPs : list string; xv_Labels : gmap string string;
  xv_Created : Z; xv_IsControl : bool }.
Record xapiHost := mkXHost {
  xh_Ref : string; xh_UUID : string; xh_NameLabel : string; xh_Enabled : bool; xh_Live : bool; xh_CPUCount : Z;
  xh_CPUMHz : Z; xh_MemoryTotB : Z; xh_MemoryFreB : Z; xh_Version : string }.
Record xapiPool := mkXPool {
  xp_Ref : string; xp_UUID : string; xp_NameLabel : string; xp_MasterRef : string; xp_HostRefs : list string;
  xp_HAEnabled : bool }.
Record xapiSR := mkXSR {
  xs_Ref : string; xs_UUID : string; xs_NameLabel : string; xs_Type : string; xs_PhysSizeB : Z; xs_PhysUtilB : Z;
  xs_HostRefs : list string; xs_Shared : bool; xs_Accessible : bool }.
Record xapiNetwork := mkXNet {
  xn_Ref : string; xn_UUID : string; xn_NameLabel : string; xn_Bridge : string; xn_VLAN : Z }.

(** Assignments through a [*xapiVM]. *)
Definition xv_set_PowerState (s : string) (v : xapiVM) : xapiVM :=
  mkXVM (xv_Ref v) (xv_UUID v) (xv_NameLabel v) s (xv_ResidentOn v) (xv_VCPUsMax v) (xv_MemoryB v) (xv_OSDistro v)
    (xv_HVM v) (xv_UEFI v) (xv_VBDs v) (xv_VIFs v) (xv_IPs v) (xv_Labels v) (xv_Created v) (xv_IsControl v).
Definition xv_set_ResidentOn (h : string) (v : xapiVM) : xapiVM :=
  mkXVM (xv_Ref v) (xv_UUID v) (xv_NameLabel v) (xv_PowerState v) h (xv_VCPUsMax v) (xv_MemoryB v) (xv_OSDistro v)
    (xv_HVM v) (xv_UEFI v) (xv_VBDs v) (xv_VIFs v) (xv_IPs v) (xv_Labels v) (xv_Created v) (xv_IsControl v).
Definition xv_set_VCPUsMax (n : Z) (v : xapiVM) : xapiVM :=
  mkXVM (xv_Ref v) (xv_UUID v) (xv_NameLabel v) (xv_PowerState v) (xv_ResidentOn v) n (xv_MemoryB v) (xv_OSDistro v)
    (xv_HVM v) (xv_UEFI v) (xv_VBDs v) (xv_VIFs v) (xv_IPs v) (xv_Labels v) (xv_Created v) (xv_IsControl v).
Definition xv_set_MemoryB (m : Z) (v : xapiVM) : xapiVM :=
  mkXVM (xv_Ref v) (xv_UUID v) (xv_NameLabel v) (xv_PowerState v) (xv_ResidentOn v) (xv_VCPUsMax v) m (xv_OSDistro v)
    (xv_HVM v) (xv_UEFI v) (xv_VBDs v) (xv_VIFs v) (xv_IPs v) (xv_Labels v) (xv_Created v) (xv_IsControl v).
Definition xv_set_devices (vbds : list xapiVBD) (vifs : list xapiVIF) (labels : gmap string string) (v : xapiVM) : xapiVM :=
  mkXVM (xv_Ref v) (xv_UUID v) (xv_NameLabel v) (xv_PowerState v) (xv_ResidentOn v) (xv_VCPUsMax v) (xv_MemoryB v)
    (xv_OSDistro v) (xv_HVM v) (xv_UEFI v) vbds vifs (xv_IPs v) labels (xv_Created v) (xv_IsControl v).

(** MiB to bytes in an [int64]. *)
Definition mib (m : Z) : Z := wrap64 (m * Z.shiftl 1 20).

(** The [i]-th disk of a specification, and its interface. *)
Definition xen_vbd (ref : string) (i : Z) (d : DiskSpec) : xapiVBD :=
  mkVBD (ref +:+ "-vbd" +:+ itoa i) (itoa i) (ref +:+ "-vdi" +:+ itoa i) (dsk_StorageID d)
    (f64_to_int64 (f64_mul (dsk_CapacityGB d) (f64_of_Z bytesPerGB))) (dsk_SourcePath d).
Definition xen_vif (ref : string) (i : Z) (n : NICSpec) : xapiVIF :=
  mkVIF (ref +:+ "-vif" +:+ itoa i) (nics_MAC n) (nics_NetworkID n) (nics_Model n) true.

(** The loops of [ReconfigureVM]: the length is read again at each iteration. *)
Fixpoint add_vbds (ref : string) (i : Z) (specs : list DiskSpec) (vbds : list xapiVBD) : list xapiVBD :=
  match specs with
  | [] => vbds
  | d :: specs => add_vbds ref (i + 1) specs (vbds ++ [xen_vbd ref (Z.of_nat (length vbds) + i) d])
  end.
Fixpoint add_vifs (ref : string) (i : Z) (specs : list NICSpec) (vifs : list xapiVIF) : list xapiVIF :=
  match specs with
  | [] => vifs
  | n :: specs => add_vifs ref (i + 1) specs (vifs ++ [xen_vif ref (Z.of_nat (length vifs) + i) n])
  end.
Definition add_devices (spec : VMReconfigureSpec) (v : xapiVM) : xapiVM :=
  xv_set_devices (add_vbds (xv_Ref v) 0 (rs_AddDisks spec) (xv_VBDs v)) (add_vifs (xv_Ref v) 0 (rs_AddNICs spec) (xv_VIFs v))
    (rs_Labels spec ∪ xv_Labels v) v.

(** The record of [CreateVM], and the copy of [Clone]. *)
Definition vm_of_spec (ref uuid : string) (spec : VMSpec) (created : time) : xapiVM :=
  mkXVM ref uuid (vs_Name spec) psHalted (vs_HostID spec) (vs_VCPUs spec) (mib (vs_MemoryMB spec)) (vs_GuestOS spec) true
    (bool_decide (vs_Firmware spec = FirmwareUEFI))
    (imap (fun i d => xen_vbd ref (Z.of_nat i) d) (vs_Disks spec))
    (imap (fun i n => xen_vif ref (Z.of_nat i) n) (vs_NICs spec)) [] (vs_Labels spec) (unix created) false.
Definition vm_clone (ref uuid : string) (spec : CloneSpec) (src : xapiVM) : xapiVM :=
  mkXVM ref uuid (cs_Name spec) (if cs_PowerOn spec then psRunning else psHalted)
    (if bool_decide (cs_HostID spec = "") then xv_ResidentOn src else cs_HostID spec)
    (xv_VCPUsMax src) (xv_MemoryB src) (xv_OSDistro src) (xv_HVM src) (xv_UEFI src) (xv_VBDs src) (xv_VIFs src)
    (xv_IPs src) (xv_Labels src) (xv_Created src) false.

Definition normalizeFirmware (v : xapiVM) : string := if xv_UEFI v then FirmwareUEFI else FirmwareBIOS.

(** The native record [GetVM] marshals; [json.Marshal] sorts the keys of a map. *)
Definition vm_raw (v : xapiVM) : json :=
  JObj [("HVM", JBool (xv_HVM v)); ("VCPUs_max", JNum (xv_VCPUsMax v)); ("is_control_domain", JBool (xv_IsControl v));
        ("memory_static_max", JNum (xv_MemoryB v)); ("name_label", JString (xv_NameLabel v));
        ("power_state", JString (xv_PowerState v)); ("ref", JString (xv_Ref v)); ("resident_on", JString (xv_ResidentOn v));
        ("uuid", JString (xv_UUID v))].

(** ** The seam

    [xb_assign] is what assignments through the pointer [getVM] returned do to
    the backend: the pointer may be the backend's own object or a copy.
    [xb_exportStream] is the type assertion to the live backend. *)
Class xapiBackend (B : Type) := {
  xb_version : B -> string;
  xb_healthy : B -> bool;
  xb_close : B -> result string unit * B;
  xb_listHosts : B -> list xapiHost;
  xb_getHost : string -> B -> option xapiHost;
  xb_listVMs : B -> list xapiVM;
  xb_getVM : string -> B -> option xapiVM;
  xb_assign : string -> (xapiVM -> xapiVM) -> B -> B;
  xb_listSRs : B -> list xapiSR;
  xb_listNetworks : B -> list xapiNetwork;
  xb_createVM : xapiVM -> B -> B;
  xb_destroyVM : string -> B -> B;
  xb_setPowerState : string -> string -> B -> B;
  xb_vmsOnHost : string -> B -> Z;
  xb_listSnapshots : string -> B -> list Snapshot;
  xb_createSnapshot : string -> Snapshot -> B -> B;
  xb_setCurrentSnapshot : string -> string -> B -> bool * B;
  xb_pool : B -> option xapiPool;
  xb_exportStream : option (string -> B -> result kerr ((string * option string) * Z) * B) }.

(** ** The provider *)

Definition FullCaps : Z := CoreCaps.

Section Provider.
Context {B : Type} `{xapiBackend B}.
Local Abbreviation xen := (drv B).
Local Abbreviation xop := (dop B).

(** [New] with [WithCaps] (when given) and [WithBackend]. *)
Definition New (id : string) (caps : option Z) (b : B) : xen :=
  mkDrv id KindXen (default FullCaps caps) (default "" (xp_Ref <$> xb_pool b)) b ∅ 0 false.

Definition newRef (kind : string) (p : xen) : string * xen := nextID ("OpaqueRef:" +:+ kind) p.

Definition HealthCheck (now : time) : xen -> HealthStatus :=
  health "XAPI session unavailable" xb_healthy xb_version now.
Definition Close : xen -> result kerr unit * xen := close_with xb_close.

(** *** Normalization (xapi.go) *)

Definition normalizeVM (p : xen) (v : xapiVM) : VM :=
  mkVM (xv_Ref v) (xv_NameLabel v) (dr_kind p) (dr_id p) (xv_ResidentOn v) (dr_clusterID p)
    (normalizeState (xv_PowerState v)) (xv_PowerState v) (xv_VCPUsMax v) (Z.quot (xv_MemoryB v) (Z.shiftl 1 20))
    (xv_OSDistro v) (normalizeFirmware v)
    ((fun d => mkDisk (vbd_Ref d) (vbd_Device d) DiskRaw (gib_of_bytes (vbd_VirtualB d)) (vbd_SRRef d) (vbd_Path d)) <$> xv_VBDs v)
    ((fun n => mkNIC (vif_Ref n) (vif_MAC n) (vif_NetworkRef n) (vif_Model n) (vif_Attached n)) <$> xv_VIFs v)
    (xv_IPs v) (xv_Labels v) (Z.of_nat (length (xb_listSnapshots (xv_Ref v) (dr_backend p))))
    (if 0 <? xv_Created v then (xv_Created v + unix_epoch) * Second else 0) (xv_IsControl v).

Definition normalizeHost (p : xen) (h : xapiHost) : Host :=
  let state := if negb (xh_Live h) then NodeDown else if negb (xh_Enabled h) then NodeMaintenance else NodeUp in
  mkHost (xh_Ref h) (xh_NameLabel h) (dr_kind p) (dr_id p) (dr_clusterID p) state (xh_CPUCount h) (xh_CPUMHz h)
    (Z.quot (xh_MemoryTotB h) (Z.shiftl 1 20)) (Z.quot (wrap64 (xh_MemoryTotB h - xh_MemoryFreB h)) (Z.shiftl 1 20))
    (xb_vmsOnHost (xh_Ref h) (dr_backend p)) (xh_Version h) ∅.

Definition normalizeSR (p : xen) (s : xapiSR) : StoragePool :=
  mkStoragePool (xs_Ref s) (xs_NameLabel s) (dr_kind p) (dr_id p) (xs_Type s) (gib_of_bytes (xs_PhysSizeB s))
    (gib_of_bytes (wrap64 (xs_PhysSizeB s - xs_PhysUtilB s))) (xs_HostRefs s) (xs_Accessible s).

Definition normalizeNetwork (p : xen) (n : xapiNetwork) : Network :=
  mkNetwork (xn_Ref n) (xn_NameLabel n) (dr_kind p) (dr_id p) (if 0 <? xn_VLAN n then "vlan" else "bridge") (xn_VLAN n).

(** *** Inventory *)

Definition ListHosts : xen -> result kerr (list Host) :=
  listing CapListHosts (fun p => normalizeHost p <$> xb_listHosts (dr_backend p)).
Definition ListVMs (opts : ListOptions) : xen -> result kerr (list VM) :=
  listing CapListVMs (fun p =>
    filter (fun v => vm_listed opts v = true) (normalizeVM p <$> xb_listVMs (dr_backend p))).
Definition GetVM (id : string) (p : xen) : result kerr (VM * json) :=
  if negb (Has (dr_caps p) CapGetVM) then Err (Sentinel ErrUnsupported)
  else match xb_getVM id (dr_backend p) with
       | None => Err (Sentinel ErrNotFound)
       | Some v => Ok (normalizeVM p v, vm_raw v)
       end.
Definition ListClusters : xen -> result kerr (list Cluster) :=
  listing CapListClusters (fun p =>
    match xb_pool (dr_backend p) with
    | None => []
    | Some pl => [mkCluster (xp_Ref pl) (xp_NameLabel pl) (dr_kind p) (dr_id p) (xp_HostRefs pl) (xp_HAEnabled pl) false]
    end).
Definition ListStorage : xen -> result kerr (list StoragePool) :=
  listing CapListStorage (fun p => normalizeSR p <$> xb_listSRs (dr_backend p)).
Definition ListNetworks : xen -> result kerr (list Network) :=
  listing CapListNetworks (fun p => normalizeNetwork p <$> xb_listNetworks (dr_backend p)).

(** *** Lifecycle *)

Definition CreateVM (spec : VMSpec) (created now : time) : xop (option Task) :=
  gated CapCreateVM (fun p =>
    if blank (vs_Name spec) || (vs_VCPUs spec <=? 0) || (vs_MemoryMB spec <=? 0) then dfail ErrInvalidSpec p
    else
      let '(ref, p) := newRef "VM" p in
      let '(uuid, p) := nextID "uuid" p in
      backend_do (xb_createVM (vm_of_spec ref uuid spec created)) (finishTask "createVM" ref now) p).

(** The state each power operation asks for. *)
Definition power_token (pop : string) : option string :=
  if bool_decide (pop = PowerStart) || bool_decide (pop = PowerResume) || bool_decide (pop = PowerReset) then Some psRunning
  else if bool_decide (pop = PowerStop) then Some psHalted
  else if bool_decide (pop = PowerSuspend) then Some psSuspended
  else None.

Definition PowerOp (vmID pop : string) (now : time) : xop (option Task) := fun p =>
  if negb (PowerOp_Valid pop) then dfail ErrInvalidSpec p
  else gated (PowerOpCapability pop) (with_vm xb_getVM vmID (fun _ =>
         backend_do (match power_token pop with Some s => xb_setPowerState vmID s | None => id end)
           (finishTask "powerOp" vmID now))) p.

Definition DeleteVM (vmID : string) (opts : DeleteOptions) (now : time) : xop (option Task) :=
  gated CapDeleteVM (with_vm xb_getVM vmID (fun v p =>
    let running := bool_decide (normalizeState (xv_PowerState v) = StateRunning) in
    let destroy := backend_do (xb_destroyVM vmID) (finishTask "deleteVM" vmID now) in
    if xv_IsControl v then dfail ErrConflict p
    else if running && negb (do_Force opts) then dfail ErrConflict p
    else if running && do_Force opts then backend_do (xb_setPowerState vmID psHalted) destroy p
    else destroy p)).

(** Assignments through the pointer, guard by guard. *)
Definition assign {A} (vmID : string) (f : xapiVM -> xapiVM) (m : xop A) : xop A := backend_do (xb_assign vmID f) m.
Definition ReconfigureVM (vmID : string) (spec : VMReconfigureSpec) (now : time) : xop (option Task) :=
  gated CapReconfigureVM (with_vm xb_getVM vmID (fun _ =>
    if not_positive (rs_VCPUs spec) then dfail ErrInvalidSpec
    else assign vmID (fun v => match rs_VCPUs spec with Some n => xv_set_VCPUsMax n v | None => v end)
      (if not_positive (rs_MemoryMB spec) then dfail ErrInvalidSpec
       else assign vmID (fun v => match rs_MemoryMB spec with Some m => xv_set_MemoryB (mib m) v | None => v end)
         (assign vmID (add_devices spec) (finishTask "reconfigureVM" vmID now))))).

(** *** Snapshots, clones, migration *)

Definition CreateSnapshot (vmID : string) (opts : SnapshotOptions) (created now : time) : xop (option Task) :=
  gated CapSnapshot (with_vm xb_getVM vmID (fun _ p =>
    let '(sid, p) := newRef "VM" p in
    let snap := mkSnapshot sid vmID (so_Name opts) (so_Description opts) "" (so_Memory opts) true created in
    backend_do (xb_createSnapshot vmID snap) (finishTask "snapshot" vmID now) p)).

Definition RevertSnapshot (vmID snapID : string) (now : time) : xop (option Task) :=
  gated CapRevertSnapshot (with_vm xb_getVM vmID (fun _ p =>
    let '(found, b) := xb_setCurrentSnapshot vmID snapID (dr_backend p) in
    let p := set_backend b p in
    if negb found then dfail ErrNotFound p else finishTask "revertSnapshot" vmID now p)).

Definition ListSnapshots (vmID : string) (p : xen) : result kerr (list Snapshot) :=
  if negb (Has (dr_caps p) CapSnapshot) then Err (Sentinel ErrUnsupported)
  else match xb_getVM vmID (dr_backend p) with
       | None => Err (Sentinel ErrNotFound)
       | Some _ => Ok (xb_listSnapshots vmID (dr_backend p))
       end.

Definition Clone (vmID : string) (spec : CloneSpec) (now : time) : xop (option Task) :=
  gated CapClone (with_vm xb_getVM vmID (fun src p =>
    if blank (cs_Name spec) then dfail ErrInvalidSpec p
    else
      let '(ref, p) := newRef "VM" p in
      let '(uuid, p) := nextID "uuid" p in
      backend_do (xb_createVM (vm_clone ref uuid spec src)) (finishTask "clone" ref now) p)).

Definition MigrateVM (vmID targetHost : string) (opts : MigrateOptions) (now : time) : xop (option Task) :=
  gated CapMigrate (with_vm xb_getVM vmID (fun _ p =>
    match xb_getHost targetHost (dr_backend p) with
    | None => dfail ErrInvalidSpec p
    | Some _ => assign vmID (xv_set_ResidentOn targetHost) (finishTask "migrate" vmID now) p
    end)).

Definition ExportVM (vmID format : string) : xop ((string * option string) * option ExportInfo) :=
  gated CapExport (fun p =>
    if negb (DiskFormat_Valid format) then dfail ErrInvalidSpec p
    else with_vm xb_getVM vmID (fun v p =>
      let info size := mkExportInfo format size (Z.of_nat (length (xv_VBDs v))) vmID (xv_OSDistro v) (normalizeFirmware v) in
      match xb_exportStream with
      | Some export =>
          let '(r, b) := export (xv_UUID v) (dr_backend p) in
          (match r with Ok (body, size) => Ok (body, Some (info size)) | Err e => Err e end, set_backend b p)
      | None =>
          let payload := export_payload "XENEXPORT" (dr_id p) vmID format in
          (Ok ((payload, None), Some (info (Z.of_nat (String.length payload)))), p)
      end) p).

(** *** Cluster, metrics, events *)

Definition GetClusterTopology (clusterID : string) (now : nat -> time) (p : xen) : result kerr Topology :=
  if negb (Has (dr_caps p) CapClusterTopology) then Err (Sentinel ErrUnsupported)
  else match xb_pool (dr_backend p) with
       | None => Err (Sentinel ErrNotFound)
       | Some pl =>
           if bool_decide (clusterID <> xp_Ref pl) then Err (Sentinel ErrNotFound)
           else Ok (mkTopology clusterID
                  (imap (fun i h => let nh := normalizeHost p h in
                           mkNodeState (host_ID nh) (host_State nh) "" (host_VMCount nh) (now i)) (xb_listHosts (dr_backend p)))
                  (foldl (fun m v => <[xv_Ref v := xv_ResidentOn v]> m) ∅ (xb_listVMs (dr_backend p))))
       end.

Definition GetNodeState (nodeID : string) (now : time) (p : xen) : result kerr NodeState :=
  if negb (Has (dr_caps p) CapNodeState) then Err (Sentinel ErrUnsupported)
  else match xb_getHost nodeID (dr_backend p) with
       | None => Err (Sentinel ErrNotFound)
       | Some h => let nh := normalizeHost p h in Ok (mkNodeState nodeID (host_State nh) "" (host_VMCount nh) now)
       end.

Definition GetMetrics (entityID : string) (window : MetricWindow) (now : time) (p : xen) : result kerr (string * list MetricSample) :=
  if negb (Has (dr_caps p) CapMetrics) then Err (Sentinel ErrUnsupported)
  else match xb_getVM entityID (dr_backend p), xb_getHost entityID (dr_backend p) with
       | None, None => Err (Sentinel ErrNotFound)
       | _, _ => Ok (series entityID window 30 now (fun i ts =>
           mkSample ts (f64_of_Z (9 + i * 6)) (Z.shiftl 1 30 + Z.shiftl i 20) (Z.shiftl 4 30)
             (i * 1400) (i * 1000) (i * 4096) (i * 8192)))
       end.

Definition StreamEvents (now : time) (p : xen) : result kerr (list Event) :=
  if negb (Has (dr_caps p) CapEvents) then Err (Sentinel ErrUnsupported)
  else Ok (state_events (normalizeVM p <$> xb_listVMs (dr_backend p)) now p).
End Provider.

(** ** The in-memory pool (sim_backend.go) *)

Record simBackend := mkSimBackend {
  sb_closed : bool; sb_pl : option xapiPool; sb_hosts : gmap string xapiHost; sb_store : vmStore xapiVM;
  sb_srs : list xapiSR; sb_nets : list xapiNetwork }.
Definition sb_set_store (st : vmStore xapiVM) (b : simBackend) : simBackend :=
  mkSimBackend (sb_closed b) (sb_pl b) (sb_hosts b) st (sb_srs b) (sb_nets b).
Definition sb_close (b : simBackend) : simBackend :=
  mkSimBackend true (sb_pl b) (sb_hosts b) (sb_store b) (sb_srs b) (sb_nets b).

(** [seed]. *)
Definition seed_host (ref uuid name : string) (free : Z) : xapiHost :=
  mkXHost ref uuid name true true 24 2900 (128 * bytesPerGB) (free * bytesPerGB) "XCP-ng 8.3 (xapi 24.x)".
Definition seed_vm (i : Z) (st host : string) : xapiVM :=
  let ref := "OpaqueRef:vm-seed-" +:+ itoa (i + 1) in
  mkXVM ref ("uuid-vm-" +:+ itoa (i + 1)) ("xen-vm-" +:+ itoa (i + 1)) st host 2 (4 * bytesPerGB) "Debian GNU/Linux 12" true true
    [mkVBD (ref +:+ "-vbd0") "0" (ref +:+ "-vdi0") "OpaqueRef:sr-1" (40 * bytesPerGB) ("/var/run/sr-mount/" +:+ ref +:+ ".vhd")]
    [mkVIF (ref +:+ "-vif0") ("aa:bb:cc:00:00:0" +:+ itoa (i + 1)) "OpaqueRef:net-1" "netfront" true]
    ["10.0.0.1" +:+ itoa (i + 1)] ∅ 1700000000 false.
Definition newSimBackend : simBackend :=
  let host1 := "OpaqueRef:host-1" in
  let host2 := "OpaqueRef:host-2" in
  let vms := [seed_vm 0 psRunning host1; seed_vm 1 psRunning host1; seed_vm 2 psHalted host2] in
  mkSimBackend false
    (Some (mkXPool "OpaqueRef:pool-1" "uuid-pool-1" "xcp-pool" host1 [host1; host2] true))
    {[ host1 := seed_host host1 "uuid-host-1" "xcp-host-1" 96; host2 := seed_host host2 "uuid-host-2" "xcp-host-2" 112 ]}
    (mkStore (list_to_map ((fun v => (xv_Ref v, v)) <$> vms)) ∅ (xv_Ref <$> vms))
    [mkXSR "OpaqueRef:sr-1" "uuid-sr-1" "Local-NFS" "nfs" (4096 * bytesPerGB) (1096 * bytesPerGB) [host1; host2] true true]
    [mkXNet "OpaqueRef:net-1" "uuid-net-1" "Pool-wide network associated with eth0" "xenbr0" 0].

(** The hosts are a Go map: the order of a listing is unspecified, and the model
    fixes one. *)
Definition sb_listHosts (b : simBackend) : list xapiHost := (map_to_list (sb_hosts b)).*2.
Definition sb_createVM (v : xapiVM) (b : simBackend) : simBackend := sb_set_store (st_create (xv_Ref v) v (sb_store b)) b.
Definition sb_destroyVM (ref : string) (b : simBackend) : simBackend := sb_set_store (st_destroy ref (sb_store b)) b.
(** The pointer handed out is the backend's own object. *)
Definition sb_assign (ref : string) (f : xapiVM -> xapiVM) (b : simBackend) : simBackend :=
  sb_set_store (st_update ref f (sb_store b)) b.
Definition sb_setPowerState (ref s : string) : simBackend -> simBackend := sb_assign ref (xv_set_PowerState s).
Definition sb_vmsOnHost (host : string) (b : simBackend) : Z :=
  st_count (fun v => bool_decide (xv_ResidentOn v = host)) (sb_store b).
Definition sb_createSnapshot (ref : string) (snap : Snapshot) (b : simBackend) : simBackend :=
  sb_set_store (st_createSnapshot ref snap (sb_store b)) b.
Definition sb_setCurrentSnapshot (ref snapID : string) (b : simBackend) : bool * simBackend :=
  let '(found, st) := st_setCurrentSnapshot ref snapID (sb_store b) in (found, sb_set_store st b).

#[export] Instance sim_backend : xapiBackend simBackend := {|
  xb_version _ := "XCP-ng 8.3 (xapi 24.x)";
  xb_healthy b := negb (sb_closed b);
  xb_close b := (Ok tt, sb_close b);
  xb_listHosts := sb_listHosts;
  xb_getHost ref b := sb_hosts b !! ref;
  xb_listVMs b := st_list (sb_store b);
  xb_getVM ref b := st_vms (sb_store b) !! ref;
  xb_assign := sb_assign;
  xb_listSRs := sb_srs;
  xb_listNetworks := sb_nets;
  xb_createVM := sb_createVM;
  xb_destroyVM := sb_destroyVM;
  xb_setPowerState := sb_setPowerState;
  xb_vmsOnHost := sb_vmsOnHost;
  xb_listSnapshots ref b := st_listSnapshots ref (sb_store b);
  xb_createSnapshot := sb_createSnapshot;
  xb_setCurrentSnapshot := sb_setCurrentSnapshot;
  xb_pool := sb_pl;
  xb_exportStream := None |}.

(** The provider of the default build. *)
Definition New_sim (id : string) (caps : option Z) : drv simBackend := New id caps newSimBackend.
