(* ===== verification/Esxi.v ===== *)
(** * The VMware driver

    server/internal/vprovider/esxi/{vsphere,esxi,sim_backend}.go: vSphere's data,
    its normalization, the provider over a class of backends, and the in-memory
    vCenter of the default build as an instance. *)
From S2P Require Import Prelude GoStd VProvider Sim VmStore DriverKit.

(** ** vSphere-native data *)

Definition powerOff : string := "poweredOff".
Definition powerOn : string := "poweredOn".
Definition powerSuspended : string := "suspended".

Definition normalizeState (s : string) : string :=
  if bool_decide (s = powerOn) then StateRunning
  else if bool_decide (s = powerOff) then StateStopped
  else if bool_decide (s = powerSuspended) then StateSuspended
  else StateUnknown.

Record vsphereDisk := mkVDisk {
  vd_Key : Z; vd_Label : string; vd_VMDKPath : string; vd_DatastoreID : string; vd_CapacityKB : Z }.
Record vsphereNIC := mkVNIC {
  vn_Key : Z; vn_MAC : string; vn_PortgroupID : string; vn_AdapterType : string; vn_Connected : bool }.
Record vsphereVM := mkVVM {
  vv_MoRef : string; vv_Name : string; vv_Power : string; vv_HostRef : string; vv_ClusterID : string; vv_NumCPU : Z;
  vv_MemoryMB : Z; vv_GuestID : string; vv_Firmware : string; vv_Disks : list vsphereDisk; vv_NICs : list vsphereNIC;
  vv_GuestIPs : list string; vv_Labels : gmap string string; vv_Protected : bool; vv_Created : Z }.
Record vsphereHost := mkVHost {
  vh_MoRef : string; vh_Name : string; vh_ClusterID : string; vh_ConnectionState : string; vh_InMaintenance : bool;
  vh_NumCPUCores : Z; vh_CPUMHz : Z; vh_MemoryBytes : Z; vh_MemUsedMB : Z; vh_Version : string }.
Record vsphereCluster := mkVCluster {
  vc_MoRef : string; vc_Name : string; vc_HostIDs : list string; vc_HA : bool; vc_DRS : bool }.
Record vsphereDatastore := mkVDatastore {
  vds_MoRef : string; vds_Name : string; vds_Type : string; vds_CapacityBytes : Z; vds_FreeBytes : Z; vds_HostIDs : list string;
  vds_Accessible : bool }.
Record vsphereNetwork := mkVNet { vw_MoRef : string; vw_Name : string; vw_Type : string; vw_VLAN : Z }.

(** Assignments through a [*vsphereVM]. *)
Definition vv_set_Power (s : string) (v : vsphereVM) : vsphereVM :=
  mkVVM (vv_MoRef v) (vv_Name v) s (vv_HostRef v) (vv_ClusterID v) (vv_NumCPU v) (vv_MemoryMB v) (vv_GuestID v)
    (vv_Firmware v) (vv_Disks v) (vv_NICs v) (vv_GuestIPs v) (vv_Labels v) (vv_Protected v) (vv_Created v).
Definition vv_set_HostRef (h : string) (v : vsphereVM) : vsphereVM :=
  mkVVM (vv_MoRef v) (vv_Name v) (vv_Power v) h (vv_ClusterID v) (vv_NumCPU v) (vv_MemoryMB v) (vv_GuestID v)
    (vv_Firmware v) (vv_Disks v) (vv_NICs v) (vv_GuestIPs v) (vv_Labels v) (vv_Protected v) (vv_Created v).
Definition vv_set_NumCPU (n : Z) (v : vsphereVM) : vsphereVM :=
  mkVVM (vv_MoRef v) (vv_Name v) (vv_Power v) (vv_HostRef v) (vv_ClusterID v) n (vv_MemoryMB v) (vv_GuestID v)
    (vv_Firmware v) (vv_Disks v) (vv_NICs v) (vv_GuestIPs v) (vv_Labels v) (vv_Protected v) (vv_Created v).
Definition vv_set_MemoryMB (m : Z) (v : vsphereVM) : vsphereVM :=
  mkVVM (vv_MoRef v) (vv_Name v) (vv_Power v) (vv_HostRef v) (vv_ClusterID v) (vv_NumCPU v) m (vv_GuestID v)
    (vv_Firmware v) (vv_Disks v) (vv_NICs v) (vv_GuestIPs v) (vv_Labels v) (vv_Protected v) (vv_Created v).
Definition vv_set_devices (disks : list vsphereDisk) (nics : list vsphereNIC) (labels : gmap string string) (v : vsphereVM)
  : vsphereVM :=
  mkVVM (vv_MoRef v) (vv_Name v) (vv_Power v) (vv_HostRef v) (vv_ClusterID v) (vv_NumCPU v) (vv_MemoryMB v) (vv_GuestID v)
    (vv_Firmware v) disks nics (vv_GuestIPs v) labels (vv_Protected v) (vv_Created v).

Definition dsOrDefault (id : string) : string := if bool_decide (id = "") then "datastore1" else id.
Definition nicModelOrDefault (model : string) : string := if bool_decide (model = "") then "vmxnet3" else model.

(** A disk of a specification: its key, its label and the suffix of its path. *)
Definition esxi_disk (vm suffix : string) (key : Z) (d : DiskSpec) : vsphereDisk :=
  mkVDisk key ("Hard disk " +:+ itoa (key + 1))
    ("[" +:+ dsOrDefault (dsk_StorageID d) +:+ "] " +:+ vm +:+ "/" +:+ vm +:+ "_" +:+ suffix +:+ ".vmdk") (dsk_StorageID d)
    (f64_to_int64 (f64_div (f64_mul (dsk_CapacityGB d) (f64_of_Z bytesPerGB)) (f64_of_Z 1024))).
Definition esxi_nic (key : Z) (n : NICSpec) : vsphereNIC :=
  mkVNIC key (nics_MAC n) (nics_NetworkID n) (nicModelOrDefault (nics_Model n)) true.

(** The loops of [ReconfigureVM]: the length is read again at each iteration. *)
Fixpoint add_disks (vm : string) (i : Z) (specs : list DiskSpec) (disks : list vsphereDisk) : list vsphereDisk :=
  match specs with
  | [] => disks
  | d :: specs =>
      add_disks vm (i + 1) specs (disks ++ [esxi_disk vm ("add" +:+ itoa i) (Z.of_nat (length disks) + i) d])
  end.
Fixpoint add_nics (i : Z) (specs : list NICSpec) (nics : list vsphereNIC) : list vsphereNIC :=
  match specs with
  | [] => nics
  | n :: specs => add_nics (i + 1) specs (nics ++ [esxi_nic (Z.of_nat (length nics) + i) n])
  end.
Definition add_devices (spec : VMReconfigureSpec) (v : vsphereVM) : vsphereVM :=
  vv_set_devices (add_disks (vv_Name v) 0 (rs_AddDisks spec) (vv_Disks v)) (add_nics 0 (rs_AddNICs spec) (vv_NICs v))
    (rs_Labels spec ∪ vv_Labels v) v.

(** The record of [CreateVM], and the copy of [Clone]. *)
Definition vm_of_spec (moRef : string) (spec : VMSpec) (created : time) : vsphereVM :=
  mkVVM moRef (vs_Name spec) powerOff (vs_HostID spec) (vs_ClusterID spec) (vs_VCPUs spec) (vs_MemoryMB spec)
    (vs_GuestOS spec) (vs_Firmware spec)
    (imap (fun i d => esxi_disk (vs_Name spec) (itoa (Z.of_nat i)) (Z.of_nat i) d) (vs_Disks spec))
    (imap (fun i n => esxi_nic (Z.of_nat i) n) (vs_NICs spec)) [] (vs_Labels spec) false (unix created).
Definition vm_clone (moRef : string) (spec : CloneSpec) (src : vsphereVM) : vsphereVM :=
  mkVVM moRef (cs_Name spec) (if cs_PowerOn spec then powerOn else powerOff)
    (if bool_decide (cs_HostID spec = "") then vv_HostRef src else cs_HostID spec) (vv_ClusterID src) (vv_NumCPU src)
    (vv_MemoryMB src) (vv_GuestID src) (vv_Firmware src) (vv_Disks src) (vv_NICs src) (vv_GuestIPs src) (vv_Labels src)
    false (vv_Created src).

(** The native view [GetVM] marshals; [json.Marshal] sorts the keys of a map. *)
Definition vm_raw (v : vsphereVM) : json :=
  JObj [("firmware", JString (vv_Firmware v)); ("guestId", JString (vv_GuestID v)); ("memoryMB", JNum (vv_MemoryMB v));
        ("moRef", JString (vv_MoRef v)); ("name", JString (vv_Name v)); ("numCPU", JNum (vv_NumCPU v));
        ("powerState", JString (vv_Power v)); ("resourcePool", JString (vv_ClusterID v)); ("runtime.host", JString (vv_HostRef v))].

(** ** The seam

    [vb_assign] is what assignments through the pointer [getVM] returned do to
    the backend: the pointer may be the backend's own object or a copy.
    [vb_export] is the type assertion to the live backend; it also gives the
    number of disks. *)
Class vsphereBackend (B : Type) := {
  vb_version : B -> string;
  vb_healthy : B -> bool;
  vb_close : B -> result string unit * B;
  vb_listHosts : B -> list vsphereHost;
  vb_getHost : string -> B -> option vsphereHost;
  vb_listVMs : B -> list vsphereVM;
  vb_getVM : string -> B -> option vsphereVM;
  vb_assign : string -> (vsphereVM -> vsphereVM) -> B -> B;
  vb_listClusters : B -> list vsphereCluster;
  vb_getCluster : string -> B -> option vsphereCluster;
  vb_listDatastores : B -> list vsphereDatastore;
  vb_listNetworks : B -> list vsphereNetwork;
  vb_createVM : vsphereVM -> B -> B;
  vb_destroyVM : string -> B -> B;
  vb_setPower : string -> string -> B -> B;
  vb_vmsOnHost : string -> B -> Z;
  vb_listSnapshots : string -> B -> list Snapshot;
  vb_createSnapshot : string -> Snapshot -> B -> B;
  vb_setCurrentSnapshot : string -> string -> B -> bool * B;
  vb_export : option (string -> B -> result kerr ((string * option string) * Z * Z) * B) }.

(** ** The provider *)

Definition FullCaps : Z := CoreCaps.

Section Provider.
Context {B : Type} `{vsphereBackend B}.
Local Abbreviation esxi := (drv B).
Local Abbreviation eop := (dop B).

(** [New] with [WithCaps] (when given) and [WithBackend]. *)
Definition New (id : string) (caps : option Z) (b : B) : esxi :=
  mkDrv id KindVMware (default FullCaps caps) "" b ∅ 0 false.

Definition HealthCheck (now : time) : esxi -> HealthStatus :=
  health "vSphere connection unavailable" vb_healthy vb_version now.
Definition Close : esxi -> result kerr unit * esxi := close_with vb_close.

(** *** Normalization (vsphere.go) *)

Definition normalizeVM (p : esxi) (v : vsphereVM) : VM :=
  mkVM (vv_MoRef v) (vv_Name v) (dr_kind p) (dr_id p) (vv_HostRef v) (vv_ClusterID v)
    (normalizeState (vv_Power v)) (vv_Power v) (vv_NumCPU v) (vv_MemoryMB v) (vv_GuestID v) (vv_Firmware v)
    ((fun d => mkDisk (vv_MoRef v +:+ "-disk-" +:+ itoa (vd_Key d)) (vd_Label d) DiskVMDK
                 (f64_div (f64_mul (f64_of_Z (vd_CapacityKB d)) (f64_of_Z 1024)) (f64_of_Z bytesPerGB))
                 (vd_DatastoreID d) (vd_VMDKPath d)) <$> vv_Disks v)
    ((fun n => mkNIC (vv_MoRef v +:+ "-nic-" +:+ itoa (vn_Key n)) (vn_MAC n) (vn_PortgroupID n) (vn_AdapterType n)
                 (vn_Connected n)) <$> vv_NICs v)
    (vv_GuestIPs v) (vv_Labels v) (Z.of_nat (length (vb_listSnapshots (vv_MoRef v) (dr_backend p))))
    (if 0 <? vv_Created v then (vv_Created v + unix_epoch) * Second else 0) (vv_Protected v).

Definition normalizeHost (p : esxi) (h : vsphereHost) : Host :=
  let state := if vh_InMaintenance h then NodeMaintenance
               else if bool_decide (vh_ConnectionState h = "connected") then NodeUp
               else if bool_decide (vh_ConnectionState h = "notResponding") then NodeDegraded else NodeDown in
  mkHost (vh_MoRef h) (vh_Name h) (dr_kind p) (dr_id p) (vh_ClusterID h) state (vh_NumCPUCores h) (vh_CPUMHz h)
    (Z.quot (vh_MemoryBytes h) (Z.shiftl 1 20)) (vh_MemUsedMB h) (vb_vmsOnHost (vh_MoRef h) (dr_backend p)) (vh_Version h) ∅.

Definition normalizeCluster (p : esxi) (c : vsphereCluster) : Cluster :=
  mkCluster (vc_MoRef c) (vc_Name c) (dr_kind p) (dr_id p) (vc_HostIDs c) (vc_HA c) (vc_DRS c).
Definition normalizeDatastore (p : esxi) (d : vsphereDatastore) : StoragePool :=
  mkStoragePool (vds_MoRef d) (vds_Name d) (dr_kind p) (dr_id p) (vds_Type d) (gib_of_bytes (vds_CapacityBytes d))
    (gib_of_bytes (vds_FreeBytes d)) (vds_HostIDs d) (vds_Accessible d).
Definition normalizeNetwork (p : esxi) (n : vsphereNetwork) : Network :=
  mkNetwork (vw_MoRef n) (vw_Name n) (dr_kind p) (dr_id p) (vw_Type n) (vw_VLAN n).
Definition hostNodeState (p : esxi) (h : vsphereHost) (now : time) : NodeState :=
  let nh := normalizeHost p h in mkNodeState (host_ID nh) (host_State nh) "" (host_VMCount nh) now.

(** *** Inventory *)

Definition ListHosts : esxi -> result kerr (list Host) :=
  listing CapListHosts (fun p => normalizeHost p <$> vb_listHosts (dr_backend p)).
Definition ListVMs (opts : ListOptions) : esxi -> result kerr (list VM) :=
  listing CapListVMs (fun p =>
    filter (fun v => vm_listed opts v = true) (normalizeVM p <$> vb_listVMs (dr_backend p))).
Definition GetVM (id : string) (p : esxi) : result kerr (VM * json) :=
  if negb (Has (dr_caps p) CapGetVM) then Err (Sentinel ErrUnsupported)
  else match vb_getVM id (dr_backend p) with
       | None => Err (Sentinel ErrNotFound)
       | Some v => Ok (normalizeVM p v, vm_raw v)
       end.
Definition ListClusters : esxi -> result kerr (list Cluster) :=
  listing CapListClusters (fun p => normalizeCluster p <$> vb_listClusters (dr_backend p)).
Definition ListStorage : esxi -> result kerr (list StoragePool) :=
  listing CapListStorage (fun p => normalizeDatastore p <$> vb_listDatastores (dr_backend p)).
Definition ListNetworks : esxi -> result kerr (list Network) :=
  listing CapListNetworks (fun p => normalizeNetwork p <$> vb_listNetworks (dr_backend p)).

(** *** Lifecycle *)

Definition CreateVM (spec : VMSpec) (created now : time) : eop (option Task) :=
  gated CapCreateVM (fun p =>
    if blank (vs_Name spec) || (vs_VCPUs spec <=? 0) || (vs_MemoryMB spec <=? 0) then dfail ErrInvalidSpec p
    else
      let '(moRef, p) := nextID "vm" p in
      backend_do (vb_createVM (vm_of_spec moRef spec created)) (finishTask "createVM" moRef now) p).

(** The state each power operation asks for. *)
Definition power_target (pop : string) : option string :=
  if bool_decide (pop = PowerStart) || bool_decide (pop = PowerResume) || bool_decide (pop = PowerReset) then Some powerOn
  else if bool_decide (pop = PowerStop) then Some powerOff
  else if bool_decide (pop = PowerSuspend) then Some powerSuspended
  else None.

Definition PowerOp (vmID pop : string) (now : time) : eop (option Task) := fun p =>
  if negb (PowerOp_Valid pop) then dfail ErrInvalidSpec p
  else gated (PowerOpCapability pop) (with_vm vb_getVM vmID (fun _ =>
         backend_do (match power_target pop with Some s => vb_setPower vmID s | None => id end)
           (finishTask "powerOp" vmID now))) p.

Definition DeleteVM (vmID : string) (opts : DeleteOptions) (now : time) : eop (option Task) :=
  gated CapDeleteVM (with_vm vb_getVM vmID (fun v p =>
    let running := bool_decide (normalizeState (vv_Power v) = StateRunning) in
    let destroy := backend_do (vb_destroyVM vmID) (finishTask "deleteVM" vmID now) in
    if vv_Protected v then dfail ErrConflict p
    else if running && negb (do_Force opts) then dfail ErrConflict p
    else if running && do_Force opts then backend_do (vb_setPower vmID powerOff) destroy p
    else destroy p)).

(** Assignments through the pointer, guard by guard. *)
Definition assign {A} (vmID : string) (f : vsphereVM -> vsphereVM) (m : eop A) : eop A := backend_do (vb_assign vmID f) m.
Definition ReconfigureVM (vmID : string) (spec : VMReconfigureSpec) (now : time) : eop (option Task) :=
  gated CapReconfigureVM (with_vm vb_getVM vmID (fun _ =>
    if not_positive (rs_VCPUs spec) then dfail ErrInvalidSpec
    else assign vmID (fun v => match rs_VCPUs spec with Some n => vv_set_NumCPU n v | None => v end)
      (if not_positive (rs_MemoryMB spec) then dfail ErrInvalidSpec
       else assign vmID (fun v => match rs_MemoryMB spec with Some m => vv_set_MemoryMB m v | None => v end)
         (assign vmID (add_devices spec) (finishTask "reconfigureVM" vmID now))))).

(** *** Snapshots, clones, migration *)

Definition CreateSnapshot (vmID : string) (opts : SnapshotOptions) (created now : time) : eop (option Task) :=
  gated CapSnapshot (with_vm vb_getVM vmID (fun _ p =>
    let '(sid, p) := nextID "snapshot" p in
    let snap := mkSnapshot sid vmID (so_Name opts) (so_Description opts) "" (so_Memory opts) true created in
    backend_do (vb_createSnapshot vmID snap) (finishTask "snapshot" vmID now) p)).

Definition RevertSnapshot (vmID snapID : string) (now : time) : eop (option Task) :=
  gated CapRevertSnapshot (with_vm vb_getVM vmID (fun _ p =>
    let '(found, b) := vb_setCurrentSnapshot vmID snapID (dr_backend p) in
    let p := set_backend b p in
    if negb found then dfail ErrNotFound p else finishTask "revertSnapshot" vmID now p)).

Definition ListSnapshots (vmID : string) (p : esxi) : result kerr (list Snapshot) :=
  if negb (Has (dr_caps p) CapSnapshot) then Err (Sentinel ErrUnsupported)
  else match vb_getVM vmID (dr_backend p) with
       | None => Err (Sentinel ErrNotFound)
       | Some _ => Ok (vb_listSnapshots vmID (dr_backend p))
       end.

Definition Clone (vmID : string) (spec : CloneSpec) (now : time) : eop (option Task) :=
  gated CapClone (with_vm vb_getVM vmID (fun src p =>
    if blank (cs_Name spec) then dfail ErrInvalidSpec p
    else
      let '(moRef, p) := nextID "vm" p in
      backend_do (vb_createVM (vm_clone moRef spec src)) (finishTask "clone" moRef now) p)).

Definition MigrateVM (vmID targetHost : string) (opts : MigrateOptions) (now : time) : eop (option Task) :=
  gated CapMigrate (with_vm vb_getVM vmID (fun _ p =>
    match vb_getHost targetHost (dr_backend p) with
    | None => dfail ErrInvalidSpec p
    | Some _ => assign vmID (vv_set_HostRef targetHost) (finishTask "migrate" vmID now) p
    end)).

Definition ExportVM (vmID format : string) : eop ((string * option string) * option ExportInfo) :=
  gated CapExport (fun p =>
    if negb (DiskFormat_Valid format) then dfail ErrInvalidSpec p
    else with_vm vb_getVM vmID (fun v p =>
      let info fmt size disks := mkExportInfo fmt size disks vmID (vv_GuestID v) (vv_Firmware v) in
      match vb_export with
      | Some export =>
          let '(r, b) := export vmID (dr_backend p) in
          (match r with
           | Ok (rc, size, disks) => Ok (rc, Some (info DiskVMDK size disks))
           | Err e => Err e
           end, set_backend b p)
      | None =>
          let payload := export_payload "VSPHEREEXPORT" (dr_id p) vmID format in
          (Ok ((payload, None), Some (info format (Z.of_nat (String.length payload)) (Z.of_nat (length (vv_Disks v))))), p)
      end) p).

(** *** Cluster, metrics, events *)

(** The hosts of the cluster that exist, each with its own reading of the clock. *)
Definition cluster_hosts (c : vsphereCluster) (b : B) : list vsphereHost := omap (fun hid => vb_getHost hid b) (vc_HostIDs c).
Definition GetClusterTopology (clusterID : string) (now : nat -> time) (p : esxi) : result kerr Topology :=
  if negb (Has (dr_caps p) CapClusterTopology) then Err (Sentinel ErrUnsupported)
  else match vb_getCluster clusterID (dr_backend p) with
       | None => Err (Sentinel ErrNotFound)
       | Some c =>
           Ok (mkTopology clusterID (imap (fun i h => hostNodeState p h (now i)) (cluster_hosts c (dr_backend p)))
                (foldl (fun m v => <[vv_MoRef v := vv_HostRef v]> m) ∅
                   (filter (fun v => vv_ClusterID v = clusterID) (vb_listVMs (dr_backend p)))))
       end.

Definition GetNodeState (nodeID : string) (now : time) (p : esxi) : result kerr NodeState :=
  if negb (Has (dr_caps p) CapNodeState) then Err (Sentinel ErrUnsupported)
  else match vb_getHost nodeID (dr_backend p) with
       | None => Err (Sentinel ErrNotFound)
       | Some h => Ok (hostNodeState p h now)
       end.

Definition GetMetrics (entityID : string) (window : MetricWindow) (now : time) (p : esxi) : result kerr (string * list MetricSample) :=
  if negb (Has (dr_caps p) CapMetrics) then Err (Sentinel ErrUnsupported)
  else match vb_getVM entityID (dr_backend p), vb_getHost entityID (dr_backend p) with
       | None, None => Err (Sentinel ErrNotFound)
       | _, _ => Ok (series entityID window 20 now (fun i ts =>
           mkSample ts (f64_of_Z (12 + i * 6)) (Z.shiftl 1 30 + Z.shiftl i 20) (Z.shiftl 4 30)
             (i * 2000) (i * 1300) (i * 8192) (i * 16384)))
       end.

Definition StreamEvents (now : time) (p : esxi) : result kerr (list Event) :=
  if negb (Has (dr_caps p) CapEvents) then Err (Sentinel ErrUnsupported)
  else Ok (state_events (normalizeVM p <$> vb_listVMs (dr_backend p)) now p).
End Provider.

(** ** The in-memory vCenter (sim_backend.go) *)

Definition simVersion : string := "VMware vCenter Server 8.0.2 / ESXi 8.0.2".

Record simBackend := mkSimBackend {
  sb_closed : bool; sb_hosts : gmap string vsphereHost; sb_store : vmStore vsphereVM; sb_clusters : gmap string vsphereCluster;
  sb_datastores : list vsphereDatastore; sb_networks : list vsphereNetwork }.
Definition sb_set_store (st : vmStore vsphereVM) (b : simBackend) : simBackend :=
  mkSimBackend (sb_closed b) (sb_hosts b) st (sb_clusters b) (sb_datastores b) (sb_networks b).
Definition sb_close (b : simBackend) : simBackend :=
  mkSimBackend true (sb_hosts b) (sb_store b) (sb_clusters b) (sb_datastores b) (sb_networks b).

(** [seed]. *)
Definition seed_host (moRef name : string) (used : Z) : vsphereHost :=
  mkVHost moRef name "domain-c7" "connected" false 24 2900 (256 * Z.shiftl 1 30) used simVersion.
Definition seed_vm (i : Z) (power host : string) : vsphereVM :=
  let moRef := "vm-" +:+ itoa (100 + i + 1) in
  mkVVM moRef ("vsphere-vm-" +:+ itoa (i + 1)) power host "domain-c7" 4 8192 "ubuntu64Guest" FirmwareUEFI
    [mkVDisk 0 "Hard disk 1" ("[datastore1] " +:+ moRef +:+ "/" +:+ moRef +:+ ".vmdk") "datastore-1" (Z.quot (60 * bytesPerGB) 1024)]
    [mkVNIC 0 ("00:50:56:9a:00:0" +:+ itoa (i + 1)) "network-1" "vmxnet3" true]
    ["10.0.0.1" +:+ itoa (i + 1)] ∅ false 1700000000.
Definition newSimBackend : simBackend :=
  let vms := [seed_vm 0 powerOn "host-11"; seed_vm 1 powerOn "host-11"; seed_vm 2 powerOff "host-12"] in
  mkSimBackend false
    {[ "host-11" := seed_host "host-11" "esxi-11.lab.local" (64 * 1024);
       "host-12" := seed_host "host-12" "esxi-12.lab.local" (32 * 1024) ]}
    (mkStore (list_to_map ((fun v => (vv_MoRef v, v)) <$> vms)) ∅ (vv_MoRef <$> vms))
    {[ "domain-c7" := mkVCluster "domain-c7" "vsphere-cluster" ["host-11"; "host-12"] true true ]}
    [mkVDatastore "datastore-1" "datastore1" "VMFS" (4 * 1024 * bytesPerGB) (3 * 1024 * bytesPerGB) ["host-11"; "host-12"] true]
    [mkVNet "network-1" "VM Network" "portgroup" 0].

(** The hosts and the clusters are Go maps: the order of a listing is
    unspecified, and the model fixes one. *)
Definition sb_listHosts (b : simBackend) : list vsphereHost := (map_to_list (sb_hosts b)).*2.
Definition sb_listClusters (b : simBackend) : list vsphereCluster := (map_to_list (sb_clusters b)).*2.
Definition sb_createVM (v : vsphereVM) (b : simBackend) : simBackend := sb_set_store (st_create (vv_MoRef v) v (sb_store b)) b.
Definition sb_destroyVM (moRef : string) (b : simBackend) : simBackend := sb_set_store (st_destroy moRef (sb_store b)) b.
(** The pointer handed out is the backend's own object. *)
Definition sb_assign (moRef : string) (f : vsphereVM -> vsphereVM) (b : simBackend) : simBackend :=
  sb_set_store (st_update moRef f (sb_store b)) b.
Definition sb_setPower (moRef s : string) : simBackend -> simBackend := sb_assign moRef (vv_set_Power s).
Definition sb_vmsOnHost (host : string) (b : simBackend) : Z :=
  st_count (fun v => bool_decide (vv_HostRef v = host)) (sb_store b).
Definition sb_createSnapshot (moRef : string) (snap : Snapshot) (b : simBackend) : simBackend :=
  sb_set_store (st_createSnapshot moRef snap (sb_store b)) b.
Definition sb_setCurrentSnapshot (moRef snapID : string) (b : simBackend) : bool * simBackend :=
  let '(found, st) := st_setCurrentSnapshot moRef snapID (sb_store b) in (found, sb_set_store st b).

#[export] Instance sim_backend : vsphereBackend simBackend := {|
  vb_version _ := simVersion;
  vb_healthy b := negb (sb_closed b);
  vb_close b := (Ok tt, sb_close b);
  vb_listHosts := sb_listHosts;
  vb_getHost moRef b := sb_hosts b !! moRef;
  vb_listVMs b := st_list (sb_store b);
  vb_getVM moRef b := st_vms (sb_store b) !! moRef;
  vb_assign := sb_assign;
  vb_listClusters := sb_listClusters;
  vb_getCluster moRef b := sb_clusters b !! moRef;
  vb_listDatastores := sb_datastores;
  vb_listNetworks := sb_networks;
  vb_createVM := sb_createVM;
  vb_destroyVM := sb_destroyVM;
  vb_setPower := sb_setPower;
  vb_vmsOnHost := sb_vmsOnHost;
  vb_listSnapshots moRef b := st_listSnapshots moRef (sb_store b);
  vb_createSnapshot := sb_createSnapshot;
  vb_setCurrentSnapshot := sb_setCurrentSnapshot;
  vb_export := None |}.

(** The provider of the default build. *)
Definition New_sim (id : string) (caps : option Z) : drv simBackend := New id caps newSimBackend.
