(* ===== verification/Hyperv.v ===== *)
(** * The Hyper-V driver

    server/internal/vprovider/hyperv/{hyperv,provider,sim_backend}.go: the WMI
    data, its normalization, the provider over a class of backends, and the
    in-memory failover cluster of the default build as an instance. *)
From S2P Require Import Prelude GoStd VProvider Sim VmStore DriverKit.

(** ** WMI-native data *)

Definition enabledRunning : Z := 2.
Definition enabledStopped : Z := 3.
Definition enabledPaused : Z := 9.
Definition enabledStarting : Z := 32768.
Definition enabledSaved : Z := 32769.
Definition enabledStopping : Z := 32770.
Definition enabledPausing : Z := 32771.
Definition enabledResuming : Z := 32773.

(** [enabledState.raw]: every branch is the decimal numeral. *)
Definition raw (s : Z) : string :=
  if s =? enabledRunning then "2"
  else if s =? enabledStopped then "3"
  else if s =? enabledPaused then "9"
  else if s =? enabledStarting then "32768"
  else if s =? enabledSaved then "32769"
  else if s =? enabledStopping then "32770"
  else if s =? enabledPausing then "32771"
  else if s =? enabledResuming then "32773"
  else itoa s.

Definition normalizeState (s : Z) : string :=
  if s =? enabledRunning then StateRunning
  else if s =? enabledStopped then StateStopped
  else if s =? enabledSaved then StateSuspended
  else if (s =? enabledPaused) || (s =? enabledPausing) then StatePaused
  else if (s =? enabledStarting) || (s =? enabledResuming) then StateRunning
  else if s =? enabledStopping then StateStopped
  else StateUnknown.

Record hypervDisk := mkHDisk {
  hd_Index : Z; hd_Label : string; hd_Path : string; hd_StorageID : string; hd_Format : string; hd_SizeBytes : Z }.
Record hypervNIC := mkHNIC { hn_Index : Z; hn_MAC : string; hn_SwitchID : string; hn_Connected : bool }.
Record hypervVM := mkHVM {
  hv_VMID : string; hv_Name : string; hv_State : Z; hv_HostID : string; hv_ClusterID : string; hv_VCPUs : Z;
  hv_MemoryMB : Z; hv_GuestOS : string; hv_Firmware : string; hv_Generation : Z; hv_Disks : list hypervDisk;
  hv_NICs : list hypervNIC; hv_GuestIPs : list string; hv_Labels : gmap string string; hv_Protected : bool; hv_Created : Z }.
Record hypervHost := mkHHost {
  hh_HostID : string; hh_Name : string; hh_ClusterID : string; hh_NodeState : string; hh_InMaintenance : bool;
  hh_CPUCores : Z; hh_CPUMHz : Z; hh_MemoryBytes : Z; hh_MemUsedMB : Z; hh_Version : string }.
Record hypervCluster := mkHCluster { hc_ClusterID : string; hc_Name : string; hc_NodeIDs : list string; hc_HAEnabled : bool }.
Record hypervStorage := mkHStorage {
  hs_StorageID : string; hs_Name : string; hs_Type : string; hs_Path : string; hs_CapacityBytes : Z; hs_FreeBytes : Z;
  hs_HostIDs : list string; hs_Accessible : bool }.
Record hypervSwitch := mkHSwitch { hw_SwitchID : string; hw_Name : string; hw_Type : string; hw_VLAN : Z }.

(** Assignments through a [*hypervVM]. *)
Definition hv_set_State (s : Z) (v : hypervVM) : hypervVM :=
  mkHVM (hv_VMID v) (hv_Name v) s (hv_HostID v) (hv_ClusterID v) (hv_VCPUs v) (hv_MemoryMB v) (hv_GuestOS v)
    (hv_Firmware v) (hv_Generation v) (hv_Disks v) (hv_NICs v) (hv_GuestIPs v) (hv_Labels v) (hv_Protected v) (hv_Created v).
Definition hv_set_HostID (h : string) (v : hypervVM) : hypervVM :=
  mkHVM (hv_VMID v) (hv_Name v) (hv_State v) h (hv_ClusterID v) (hv_VCPUs v) (hv_MemoryMB v) (hv_GuestOS v)
    (hv_Firmware v) (hv_Generation v) (hv_Disks v) (hv_NICs v) (hv_GuestIPs v) (hv_Labels v) (hv_Protected v) (hv_Created v).
Definition hv_set_VCPUs (n : Z) (v : hypervVM) : hypervVM :=
  mkHVM (hv_VMID v) (hv_Name v) (hv_State v) (hv_HostID v) (hv_ClusterID v) n (hv_MemoryMB v) (hv_GuestOS v)
    (hv_Firmware v) (hv_Generation v) (hv_Disks v) (hv_NICs v) (hv_GuestIPs v) (hv_Labels v) (hv_Protected v) (hv_Created v).
Definition hv_set_MemoryMB (m : Z) (v : hypervVM) : hypervVM :=
  mkHVM (hv_VMID v) (hv_Name v) (hv_State v) (hv_HostID v) (hv_ClusterID v) (hv_VCPUs v) m (hv_GuestOS v)
    (hv_Firmware v) (hv_Generation v) (hv_Disks v) (hv_NICs v) (hv_GuestIPs v) (hv_Labels v) (hv_Protected v) (hv_Created v).
Definition hv_set_devices (disks : list hypervDisk) (nics : list hypervNIC) (labels : gmap string string) (v : hypervVM)
  : hypervVM :=
  mkHVM (hv_VMID v) (hv_Name v) (hv_State v) (hv_HostID v) (hv_ClusterID v) (hv_VCPUs v) (hv_MemoryMB v) (hv_GuestOS v)
    (hv_Firmware v) (hv_Generation v) disks nics (hv_GuestIPs v) labels (hv_Protected v) (hv_Created v).

(** The backslash, which separates the parts of a path. *)
Definition bs : string := bytes [92%N].
Definition csvOrDefault (id : string) : string :=
  if bool_decide (id = "") then "C:" +:+ bs +:+ "ClusterStorage" +:+ bs +:+ "Volume1" else id.
Definition diskFormatOrDefault (f : string) : string := if bool_decide (f = "") then DiskVHDX else f.

(** A disk of a specification: its index and the suffix of its path. *)
Definition hyperv_disk (vm suffix : string) (index : Z) (d : DiskSpec) : hypervDisk :=
  mkHDisk index ("Hard Drive " +:+ itoa index)
    (csvOrDefault (dsk_StorageID d) +:+ bs +:+ vm +:+ bs +:+ vm +:+ "_" +:+ suffix +:+ ".vhdx") (dsk_StorageID d)
    (diskFormatOrDefault (dsk_Format d)) (f64_to_int64 (f64_mul (dsk_CapacityGB d) (f64_of_Z bytesPerGB))).
Definition hyperv_nic (index : Z) (n : NICSpec) : hypervNIC := mkHNIC index (nics_MAC n) (nics_NetworkID n) true.

(** The loops of [ReconfigureVM]: the length is read again at each iteration. *)
Fixpoint add_disks (vm : string) (i : Z) (specs : list DiskSpec) (disks : list hypervDisk) : list hypervDisk :=
  match specs with
  | [] => disks
  | d :: specs =>
      add_disks vm (i + 1) specs (disks ++ [hyperv_disk vm ("add" +:+ itoa i) (Z.of_nat (length disks) + i) d])
  end.
Fixpoint add_nics (i : Z) (specs : list NICSpec) (nics : list hypervNIC) : list hypervNIC :=
  match specs with
  | [] => nics
  | n :: specs => add_nics (i + 1) specs (nics ++ [hyperv_nic (Z.of_nat (length nics) + i) n])
  end.
Definition add_devices (spec : VMReconfigureSpec) (v : hypervVM) : hypervVM :=
  hv_set_devices (add_disks (hv_Name v) 0 (rs_AddDisks spec) (hv_Disks v)) (add_nics 0 (rs_AddNICs spec) (hv_NICs v))
    (rs_Labels spec ∪ hv_Labels v) v.

(** The record of [CreateVM], and the copy of [Clone].  New VMs are of generation
    2 unless a firmware other than UEFI is asked for. *)
Definition vm_of_spec (vmID : string) (spec : VMSpec) (created : time) : hypervVM :=
  let fw := vs_Firmware spec in
  mkHVM vmID (vs_Name spec) enabledStopped (vs_HostID spec) (vs_ClusterID spec) (vs_VCPUs spec) (vs_MemoryMB spec)
    (vs_GuestOS spec) fw (if bool_decide (fw = FirmwareUEFI) || bool_decide (fw = "") then 2 else 1)
    (imap (fun i d => hyperv_disk (vs_Name spec) (itoa (Z.of_nat i)) (Z.of_nat i) d) (vs_Disks spec))
    (imap (fun i n => hyperv_nic (Z.of_nat i) n) (vs_NICs spec)) [] (vs_Labels spec) false (unix created).
Definition vm_clone (vmID : string) (spec : CloneSpec) (src : hypervVM) : hypervVM :=
  mkHVM vmID (cs_Name spec) (if cs_PowerOn spec then enabledRunning else enabledStopped)
    (if bool_decide (cs_HostID spec = "") then hv_HostID src else cs_HostID spec) (hv_ClusterID src) (hv_VCPUs src)
    (hv_MemoryMB src) (hv_GuestOS src) (hv_Firmware src) (hv_Generation src) (hv_Disks src) (hv_NICs src) (hv_GuestIPs src)
    (hv_Labels src) false (hv_Created src).

Definition normalizeFirmware (v : hypervVM) : string :=
  if negb (bool_decide (hv_Firmware v = "")) then hv_Firmware v
  else if 2 <=? hv_Generation v then FirmwareUEFI else FirmwareBIOS.

Definition normalizeNodeState (h : hypervHost) : string :=
  if hh_InMaintenance h then NodeMaintenance
  else if bool_decide (hh_NodeState h = "Up") then NodeUp
  else if bool_decide (hh_NodeState h = "Down") then NodeDown
  else if bool_decide (hh_NodeState h = "Paused") then NodeMaintenance
  else if bool_decide (hh_NodeState h = "Joining") then NodeDegraded
  else NodeUnknown.

(** The native view [GetVM] marshals; [json.Marshal] sorts the keys of a map. *)
Definition vm_raw (v : hypervVM) : json :=
  JObj [("ClusterName", JString (hv_ClusterID v)); ("ElementName", JString (hv_Name v)); ("EnabledState", JNum (hv_State v));
        ("Generation", JNum (hv_Generation v)); ("GuestOS", JString (hv_GuestOS v)); ("HostName", JString (hv_HostID v));
        ("MemoryMB", JNum (hv_MemoryMB v)); ("Name", JString (hv_VMID v)); ("VirtualQuantityCPU", JNum (hv_VCPUs v));
        ("__class", JString "Msvm_ComputerSystem")].

(** ** The seam

    [wb_assign] is what assignments through the pointer [getVM] returned do to
    the backend: the pointer may be the backend's own object or a copy.
    [wb_export] is the hook of the live build. *)
Class wmiBackend (B : Type) := {
  wb_version : B -> string;
  wb_healthy : B -> bool;
  wb_close : B -> result string unit * B;
  wb_isLive : bool;
  wb_listHosts : B -> list hypervHost;
  wb_getHost : string -> B -> option hypervHost;
  wb_listVMs : B -> list hypervVM;
  wb_getVM : string -> B -> option hypervVM;
  wb_assign : string -> (hypervVM -> hypervVM) -> B -> B;
  wb_listClusters : B -> list hypervCluster;
  wb_getCluster : string -> B -> option hypervCluster;
  wb_listStorage : B -> list hypervStorage;
  wb_listSwitches : B -> list hypervSwitch;
  wb_createVM : hypervVM -> B -> B;
  wb_destroyVM : string -> B -> B;
  wb_setState : string -> Z -> B -> B;
  wb_vmsOnHost : string -> B -> Z;
  wb_listSnapshots : string -> B -> list Snapshot;
  wb_createSnapshot : string -> Snapshot -> B -> B;
  wb_setCurrentSnapshot : string -> string -> B -> bool * B;
  wb_export : option (hypervVM -> string -> B -> result kerr ((string * option string) * option ExportInfo) * B) }.

(** ** The provider *)

Definition FullCaps : Z := CoreCaps.

Section Provider.
Context {B : Type} `{wmiBackend B}.
Local Abbreviation hyperv := (drv B).
Local Abbreviation hop := (dop B).

(** [New] with [WithCaps] (when given) and [WithBackend]. *)
Definition New (id : string) (caps : option Z) (b : B) : hyperv :=
  mkDrv id KindHyperV (default FullCaps caps) "" b ∅ 0 false.

Definition HealthCheck (now : time) : hyperv -> HealthStatus :=
  health "Hyper-V WMI connection unavailable" wb_healthy wb_version now.
Definition Close : hyperv -> result kerr unit * hyperv := close_with wb_close.

(** *** Normalization (hyperv.go) *)

Definition normalizeVM (p : hyperv) (v : hypervVM) : VM :=
  mkVM (hv_VMID v) (hv_Name v) (dr_kind p) (dr_id p) (hv_HostID v) (hv_ClusterID v)
    (normalizeState (hv_State v)) (raw (hv_State v)) (hv_VCPUs v) (hv_MemoryMB v) (hv_GuestOS v) (normalizeFirmware v)
    ((fun d => mkDisk (hv_VMID v +:+ "-disk-" +:+ itoa (hd_Index d)) (hd_Label d) (diskFormatOrDefault (hd_Format d))
                 (gib_of_bytes (hd_SizeBytes d)) (hd_StorageID d) (hd_Path d)) <$> hv_Disks v)
    ((fun n => mkNIC (hv_VMID v +:+ "-nic-" +:+ itoa (hn_Index n)) (hn_MAC n) (hn_SwitchID n) "synthetic" (hn_Connected n))
       <$> hv_NICs v)
    (hv_GuestIPs v) (hv_Labels v) (Z.of_nat (length (wb_listSnapshots (hv_VMID v) (dr_backend p))))
    (if 0 <? hv_Created v then (hv_Created v + unix_epoch) * Second else 0) (hv_Protected v).

Definition normalizeHost (p : hyperv) (h : hypervHost) : Host :=
  mkHost (hh_HostID h) (hh_Name h) (dr_kind p) (dr_id p) (hh_ClusterID h) (normalizeNodeState h) (hh_CPUCores h) (hh_CPUMHz h)
    (Z.quot (hh_MemoryBytes h) (Z.shiftl 1 20)) (hh_MemUsedMB h) (wb_vmsOnHost (hh_HostID h) (dr_backend p)) (hh_Version h) ∅.

Definition normalizeCluster (p : hyperv) (c : hypervCluster) : Cluster :=
  mkCluster (hc_ClusterID c) (hc_Name c) (dr_kind p) (dr_id p) (hc_NodeIDs c) (hc_HAEnabled c) false.
Definition normalizeStorage (p : hyperv) (s : hypervStorage) : StoragePool :=
  mkStoragePool (hs_StorageID s) (hs_Name s) (dr_kind p) (dr_id p) (hs_Type s) (gib_of_bytes (hs_CapacityBytes s))
    (gib_of_bytes (hs_FreeBytes s)) (hs_HostIDs s) (hs_Accessible s).
Definition normalizeSwitch (p : hyperv) (s : hypervSwitch) : Network :=
  mkNetwork (hw_SwitchID s) (hw_Name s) (dr_kind p) (dr_id p) (hw_Type s) (hw_VLAN s).
Definition hostNodeState (p : hyperv) (h : hypervHost) (now : time) : NodeState :=
  let nh := normalizeHost p h in mkNodeState (host_ID nh) (host_State nh) "" (host_VMCount nh) now.

(** *** Inventory *)

Definition ListHosts : hyperv -> result kerr (list Host) :=
  listing CapListHosts (fun p => normalizeHost p <$> wb_listHosts (dr_backend p)).
Definition ListVMs (opts : ListOptions) : hyperv -> result kerr (list VM) :=
  listing CapListVMs (fun p =>
    filter (fun v => vm_listed opts v = true) (normalizeVM p <$> wb_listVMs (dr_backend p))).
Definition GetVM (id : string) (p : hyperv) : result kerr (VM * json) :=
  if negb (Has (dr_caps p) CapGetVM) then Err (Sentinel ErrUnsupported)
  else match wb_getVM id (dr_backend p) with
       | None => Err (Sentinel ErrNotFound)
       | Some v => Ok (normalizeVM p v, vm_raw v)
       end.
Definition ListClusters : hyperv -> result kerr (list Cluster) :=
  listing CapListClusters (fun p => normalizeCluster p <$> wb_listClusters (dr_backend p)).
Definition ListStorage : hyperv -> result kerr (list StoragePool) :=
  listing CapListStorage (fun p => normalizeStorage p <$> wb_listStorage (dr_backend p)).
Definition ListNetworks : hyperv -> result kerr (list Network) :=
  listing CapListNetworks (fun p => normalizeSwitch p <$> wb_listSwitches (dr_backend p)).

(** *** Lifecycle *)

Definition CreateVM (spec : VMSpec) (created now : time) : hop (option Task) :=
  gated CapCreateVM (fun p =>
    if blank (vs_Name spec) || (vs_VCPUs spec <=? 0) || (vs_MemoryMB spec <=? 0) then dfail ErrInvalidSpec p
    else
      let '(vmID, p) := nextID "vm" p in
      backend_do (wb_createVM (vm_of_spec vmID spec created)) (finishTask "createVM" vmID now) p).

(** The state each power operation asks for. *)
Definition power_target (pop : string) : option Z :=
  if bool_decide (pop = PowerStart) || bool_decide (pop = PowerResume) || bool_decide (pop = PowerReset) then Some enabledRunning
  else if bool_decide (pop = PowerStop) then Some enabledStopped
  else if bool_decide (pop = PowerSuspend) then Some enabledSaved
  else None.

Definition PowerOp (vmID pop : string) (now : time) : hop (option Task) := fun p =>
  if negb (PowerOp_Valid pop) then dfail ErrInvalidSpec p
  else gated (PowerOpCapability pop) (with_vm wb_getVM vmID (fun _ =>
         backend_do (match power_target pop with Some s => wb_setState vmID s | None => id end)
           (finishTask "powerOp" vmID now))) p.

Definition DeleteVM (vmID : string) (opts : DeleteOptions) (now : time) : hop (option Task) :=
  gated CapDeleteVM (with_vm wb_getVM vmID (fun v p =>
    let running := bool_decide (normalizeState (hv_State v) = StateRunning) in
    let destroy := backend_do (wb_destroyVM vmID) (finishTask "deleteVM" vmID now) in
    if hv_Protected v then dfail ErrConflict p
    else if running && negb (do_Force opts) then dfail ErrConflict p
    else if running && do_Force opts then backend_do (wb_setState vmID enabledStopped) destroy p
    else destroy p)).

(** Assignments through the pointer, guard by guard. *)
Definition assign {A} (vmID : string) (f : hypervVM -> hypervVM) (m : hop A) : hop A := backend_do (wb_assign vmID f) m.
Definition ReconfigureVM (vmID : string) (spec : VMReconfigureSpec) (now : time) : hop (option Task) :=
  gated CapReconfigureVM (with_vm wb_getVM vmID (fun _ =>
    if not_positive (rs_VCPUs spec) then dfail ErrInvalidSpec
    else assign vmID (fun v => match rs_VCPUs spec with Some n => hv_set_VCPUs n v | None => v end)
      (if not_positive (rs_MemoryMB spec) then dfail ErrInvalidSpec
       else assign vmID (fun v => match rs_MemoryMB spec with Some m => hv_set_MemoryMB m v | None => v end)
         (assign vmID (add_devices spec) (finishTask "reconfigureVM" vmID now))))).

(** *** Snapshots, clones, migration *)

Definition CreateSnapshot (vmID : string) (opts : SnapshotOptions) (created now : time) : hop (option Task) :=
  gated CapSnapshot (with_vm wb_getVM vmID (fun _ p =>
    let '(sid, p) := nextID "checkpoint" p in
    let snap := mkSnapshot sid vmID (so_Name opts) (so_Description opts) "" (so_Memory opts) true created in
    backend_do (wb_createSnapshot vmID snap) (finishTask "snapshot" vmID now) p)).

Definition RevertSnapshot (vmID snapID : string) (now : time) : hop (option Task) :=
  gated CapRevertSnapshot (with_vm wb_getVM vmID (fun _ p =>
    let '(found, b) := wb_setCurrentSnapshot vmID snapID (dr_backend p) in
    let p := set_backend b p in
    if negb found then dfail ErrNotFound p else finishTask "revertSnapshot" vmID now p)).

Definition ListSnapshots (vmID : string) (p : hyperv) : result kerr (list Snapshot) :=
  if negb (Has (dr_caps p) CapSnapshot) then Err (Sentinel ErrUnsupported)
  else match wb_getVM vmID (dr_backend p) with
       | None => Err (Sentinel ErrNotFound)
       | Some _ => Ok (wb_listSnapshots vmID (dr_backend p))
       end.

Definition Clone (vmID : string) (spec : CloneSpec) (now : time) : hop (option Task) :=
  gated CapClone (with_vm wb_getVM vmID (fun src p =>
    if blank (cs_Name spec) then dfail ErrInvalidSpec p
    else
      let '(vmID, p) := nextID "vm" p in
      backend_do (wb_createVM (vm_clone vmID spec src)) (finishTask "clone" vmID now) p)).

Definition MigrateVM (vmID targetHost : string) (opts : MigrateOptions) (now : time) : hop (option Task) :=
  gated CapMigrate (with_vm wb_getVM vmID (fun _ p =>
    match wb_getHost targetHost (dr_backend p) with
    | None => dfail ErrInvalidSpec p
    | Some _ => assign vmID (hv_set_HostID targetHost) (finishTask "migrate" vmID now) p
    end)).

Definition ExportVM (vmID format : string) : hop ((string * option string) * option ExportInfo) :=
  gated CapExport (fun p =>
    if negb (DiskFormat_Valid format) then dfail ErrInvalidSpec p
    else with_vm wb_getVM vmID (fun v p =>
      if wb_isLive then
        match wb_export with
        | None => (Err (Wrapped ErrUnsupported "hyperv live VHDX export not wired on this build"), p)
        | Some export => let '(r, b) := export v format (dr_backend p) in (r, set_backend b p)
        end
      else
        let payload := export_payload "HYPERVEXPORT" (dr_id p) vmID format in
        let info := mkExportInfo format (Z.of_nat (String.length payload)) (Z.of_nat (length (hv_Disks v))) vmID (hv_GuestOS v)
                      (normalizeFirmware v) in
        (Ok ((payload, None), Some info), p)) p).

(** *** Cluster, metrics, events *)

(** The hosts of the cluster that exist, each with its own reading of the clock. *)
Definition cluster_hosts (c : hypervCluster) (b : B) : list hypervHost := omap (fun hid => wb_getHost hid b) (hc_NodeIDs c).
Definition GetClusterTopology (clusterID : string) (now : nat -> time) (p : hyperv) : result kerr Topology :=
  if negb (Has (dr_caps p) CapClusterTopology) then Err (Sentinel ErrUnsupported)
  else match wb_getCluster clusterID (dr_backend p) with
       | None => Err (Sentinel ErrNotFound)
       | Some c =>
           Ok (mkTopology clusterID (imap (fun i h => hostNodeState p h (now i)) (cluster_hosts c (dr_backend p)))
                (foldl (fun m v => <[hv_VMID v := hv_HostID v]> m) ∅
                   (filter (fun v => hv_ClusterID v = clusterID) (wb_listVMs (dr_backend p)))))
       end.

Definition GetNodeState (nodeID : string) (now : time) (p : hyperv) : result kerr NodeState :=
  if negb (Has (dr_caps p) CapNodeState) then Err (Sentinel ErrUnsupported)
  else match wb_getHost nodeID (dr_backend p) with
       | None => Err (Sentinel ErrNotFound)
       | Some h => Ok (hostNodeState p h now)
       end.

Definition GetMetrics (entityID : string) (window : MetricWindow) (now : time) (p : hyperv) : result kerr (string * list MetricSample) :=
  if negb (Has (dr_caps p) CapMetrics) then Err (Sentinel ErrUnsupported)
  else match wb_getVM entityID (dr_backend p), wb_getHost entityID (dr_backend p) with
       | None, None => Err (Sentinel ErrNotFound)
       | _, _ => Ok (series entityID window 30 now (fun i ts =>
           mkSample ts (f64_of_Z (11 + i * 5)) (Z.shiftl 1 30 + Z.shiftl i 20) (Z.shiftl 4 30)
             (i * 1500) (i * 1100) (i * 8192) (i * 12288)))
       end.

Definition StreamEvents (now : time) (p : hyperv) : result kerr (list Event) :=
  if negb (Has (dr_caps p) CapEvents) then Err (Sentinel ErrUnsupported)
  else Ok (state_events (normalizeVM p <$> wb_listVMs (dr_backend p)) now p).
End Provider.

(** ** The in-memory failover cluster (sim_backend.go) *)

Definition simVersion : string :=
  "Microsoft Hyper-V Server 2022 (10.0.20348) / WMI root" +:+ bs +:+ "virtualization" +:+ bs +:+ "v2".

Record simBackend := mkSimBackend {
  sb_closed : bool; sb_hosts : gmap string hypervHost; sb_store : vmStore hypervVM; sb_clusters : gmap string hypervCluster;
  sb_storage : list hypervStorage; sb_switches : list hypervSwitch }.
Definition sb_set_store (st : vmStore hypervVM) (b : simBackend) : simBackend :=
  mkSimBackend (sb_closed b) (sb_hosts b) st (sb_clusters b) (sb_storage b) (sb_switches b).
Definition sb_close (b : simBackend) : simBackend :=
  mkSimBackend true (sb_hosts b) (sb_store b) (sb_clusters b) (sb_storage b) (sb_switches b).

(** [seed]. *)
Definition seed_host (id name : string) (used : Z) : hypervHost :=
  mkHHost id name "cluster-1" "Up" false 32 3200 (256 * Z.shiftl 1 30) used simVersion.
Definition seed_vm (i : Z) (st : Z) (host : string) (gen : Z) : hypervVM :=
  let vmID := "5FD3F32E-0000-4000-8000-00000000000" +:+ itoa (i + 1) in
  mkHVM vmID ("hyperv-vm-" +:+ itoa (i + 1)) st host "cluster-1" 4 8192 "Windows Server 2022" "" gen
    [mkHDisk 0 "Hard Drive 0" ("C:" +:+ bs +:+ "ClusterStorage" +:+ bs +:+ "Volume1" +:+ bs +:+ vmID +:+ bs +:+ vmID +:+ ".vhdx")
       "csv-1" DiskVHDX (60 * bytesPerGB)]
    [mkHNIC 0 ("00:15:5D:00:00:0" +:+ itoa (i + 1)) "switch-1" true]
    ["10.0.0.2" +:+ itoa (i + 1)] ∅ false 1700000000.
Definition newSimBackend : simBackend :=
  let vms := [seed_vm 0 enabledRunning "node-1" 2; seed_vm 1 enabledRunning "node-1" 2; seed_vm 2 enabledStopped "node-2" 1] in
  mkSimBackend false
    {[ "node-1" := seed_host "node-1" "HV-NODE-01" (64 * 1024); "node-2" := seed_host "node-2" "HV-NODE-02" (48 * 1024) ]}
    (mkStore (list_to_map ((fun v => (hv_VMID v, v)) <$> vms)) ∅ (hv_VMID <$> vms))
    {[ "cluster-1" := mkHCluster "cluster-1" "HV-FAILOVER-CL" ["node-1"; "node-2"] true ]}
    [mkHStorage "csv-1" "ClusterStorage Volume1" "csv" ("C:" +:+ bs +:+ "ClusterStorage" +:+ bs +:+ "Volume1")
       (4 * 1024 * bytesPerGB) (3 * 1024 * bytesPerGB) ["node-1"; "node-2"] true;
     mkHStorage "smb-1" "SMB3 VM Store" "smb" (bs +:+ bs +:+ "fileserver" +:+ bs +:+ "vmstore")
       (8 * 1024 * bytesPerGB) (6 * 1024 * bytesPerGB) ["node-1"; "node-2"] true]
    [mkHSwitch "switch-1" "External vSwitch" "external" 0].

(** The hosts and the clusters are Go maps: the order of a listing is
    unspecified, and the model fixes one. *)
Definition sb_listHosts (b : simBackend) : list hypervHost := (map_to_list (sb_hosts b)).*2.
Definition sb_listClusters (b : simBackend) : list hypervCluster := (map_to_list (sb_clusters b)).*2.
Definition sb_createVM (v : hypervVM) (b : simBackend) : simBackend := sb_set_store (st_create (hv_VMID v) v (sb_store b)) b.
Definition sb_destroyVM (vmID : string) (b : simBackend) : simBackend := sb_set_store (st_destroy vmID (sb_store b)) b.
(** The pointer handed out is the backend's own object. *)
Definition sb_assign (vmID : string) (f : hypervVM -> hypervVM) (b : simBackend) : simBackend :=
  sb_set_store (st_update vmID f (sb_store b)) b.
Definition sb_setState (vmID : string) (s : Z) : simBackend -> simBackend := sb_assign vmID (hv_set_State s).
Definition sb_vmsOnHost (host : string) (b : simBackend) : Z :=
  st_count (fun v => bool_decide (hv_HostID v = host)) (sb_store b).
Definition sb_createSnapshot (vmID : string) (snap : Snapshot) (b : simBackend) : simBackend :=
  sb_set_store (st_createSnapshot vmID snap (sb_store b)) b.
Definition sb_setCurrentSnapshot (vmID snapID : string) (b : simBackend) : bool * simBackend :=
  let '(found, st) := st_setCurrentSnapshot vmID snapID (sb_store b) in (found, sb_set_store st b).

#[export] Instance sim_backend : wmiBackend simBackend := {|
  wb_version _ := simVersion;
  wb_healthy b := negb (sb_closed b);
  wb_close b := (Ok tt, sb_close b);
  wb_isLive := false;
  wb_listHosts := sb_listHosts;
  wb_getHost vmID b := sb_hosts b !! vmID;
  wb_listVMs b := st_list (sb_store b);
  wb_getVM vmID b := st_vms (sb_store b) !! vmID;
  wb_assign := sb_assign;
  wb_listClusters := sb_listClusters;
  wb_getCluster vmID b := sb_clusters b !! vmID;
  wb_listStorage := sb_storage;
  wb_listSwitches := sb_switches;
  wb_createVM := sb_createVM;
  wb_destroyVM := sb_destroyVM;
  wb_setState := sb_setState;
  wb_vmsOnHost := sb_vmsOnHost;
  wb_listSnapshots vmID b := st_listSnapshots vmID (sb_store b);
  wb_createSnapshot := sb_createSnapshot;
  wb_setCurrentSnapshot := sb_setCurrentSnapshot;
  wb_export := None |}.

(** The provider of the default build. *)
Definition New_sim (id : string) (caps : option Z) : drv simBackend := New id caps newSimBackend.
