(* ===== verification/DriverProps.v ===== *)
(** * The three drivers on their model backends

    Each driver, on its in-memory backend, is the common driver of TableFacts.v. *)
From S2P Require Import Prelude GoStd VProvider Sim SimFacts Contract VmStore TableDriver TableFacts DriverKit Xen Esxi Hyperv.

(** ** The Xen driver follows the contract

    Its records as native VMs, its operations as those of the common driver, and
    the runs of a provider just built. *)

Module XenProps.
Import Xen.

Definition mem_fits (m : Z) : Prop := - 2 ^ 43 <= m < 2 ^ 43.

#[export] Instance xen_native : NativeVM xapiVM := {|
  nv_key := xv_Ref; nv_name := xv_NameLabel; nv_host := xv_ResidentOn;
  nv_state v := Xen.normalizeState (xv_PowerState v);
  nv_vcpus := xv_VCPUsMax; nv_mem v := Z.quot (xv_MemoryB v) (Z.shiftl 1 20); nv_protected := xv_IsControl;
  nv_spec ref n spec now := vm_of_spec ref (named "uuid" (next n)) spec now;
  nv_clone ref n spec src := vm_clone ref (named "uuid" (next n)) spec src;
  nv_power pop v := match power_token pop with Some s => xv_set_PowerState s v | None => v end;
  nv_set_host := xv_set_ResidentOn; nv_set_vcpus := xv_set_VCPUsMax; nv_set_mem m := xv_set_MemoryB (mib m);
  nv_devices := Xen.add_devices; nv_mem_fits := mem_fits |}.

Lemma mib_round m : mem_fits m -> Z.quot (mib m) (Z.shiftl 1 20) = m.
Proof.
  unfold mem_fits, mib. change (Z.shiftl 1 20) with (2 ^ 20). intros Hm.
  rewrite wrap64_id by (unfold int64_range; lia). by apply Z.quot_mul.
Qed.

#[export] Instance xen_native_laws : NativeLaws xapiVM.
Proof.
  constructor; simpl; unfold nv_view; simpl; try done.
  - intros k n spec now Hm. by rewrite mib_round.
  - intros k n spec v. by destruct (cs_PowerOn spec).
  - intros pop v Hv. apply bool_decide_eq_true in Hv. rewrite !elem_of_cons, elem_of_nil in Hv.
    destruct Hv as [->|[->|[->|[->|[->|[]]]]]]; done.
  - intros m v Hm. by rewrite mib_round.
Qed.

Definition xen_exec (now : time) (o : contract_op) : drv simBackend -> result kerr (option Task) * drv simBackend :=
  match o with
  | CCreate spec => Xen.CreateVM spec now now
  | CPower vm pop => Xen.PowerOp vm pop now
  | CDelete vm opts => Xen.DeleteVM vm opts now
  | CReconfigure vm spec => Xen.ReconfigureVM vm spec now
  | CSnapshot vm opts => Xen.CreateSnapshot vm opts now now
  | CRevert vm snap => Xen.RevertSnapshot vm snap now
  | CClone vm spec => Xen.Clone vm spec now
  | CMigrate vm host opts => Xen.MigrateVM vm host opts now
  end.
Definition xen_store (p : drv simBackend) : vmStore xapiVM := sb_store (dr_backend p).
Definition xen_hosts_of (p : drv simBackend) : gmap string xapiHost := sb_hosts (dr_backend p).
Definition xen_view (p : drv simBackend) : gmap string cvm := st_view (xen_store p).

Lemma xen_simulates :
  simulates Sentinel xen_exec dr_seq xen_store dr_caps xen_hosts_of "OpaqueRef:VM" "OpaqueRef:VM" 1.
Proof.
  intros now o p. unfold xen_store, xen_hosts_of. destruct o; cbn [xen_exec core];
  unfold Xen.CreateVM, Xen.PowerOp, Xen.DeleteVM, Xen.ReconfigureVM, Xen.CreateSnapshot, Xen.RevertSnapshot, Xen.Clone, Xen.MigrateVM,
    gated, with_vm, when, at_vm, Xen.assign, backend_do, newRef, nextID, dfail, refuse, tasked, hardware.
  - case_match; [done|]. case_match; [done|]. rewrite finishTask_eq. done.
  - case_match; [done|]. case_match; [done|]. simpl. case_match; [|done]. rewrite finishTask_eq. simpl.
    destruct (power_token pop); [done|]. by rewrite st_update_same.
  - case_match; [done|]. simpl. case_match; [|done]. simpl. case_match; [done|].
    destruct (bool_decide _), (do_Force opts); simpl; rewrite ?finishTask_eq; simpl; by rewrite ?st_destroy_update.
  - case_match; [done|]. simpl. case_match; [|done]. simpl.
    destruct (not_positive (rs_VCPUs spec)); [by rewrite st_update_same|].
    destruct (not_positive (rs_MemoryMB spec)); [done|]. rewrite finishTask_eq. simpl. by rewrite !st_update_twice.
  - case_match; [done|]. simpl. case_match; [|done]. rewrite finishTask_eq. done.
  - case_match; [done|]. cbn [xb_getVM sim_backend]. case_match; [|done].
    cbn [xb_setCurrentSnapshot sim_backend]. unfold sb_setCurrentSnapshot.
    destruct (st_setCurrentSnapshot vm snap (sb_store (dr_backend p))) as [found st]. destruct found; simpl; rewrite ?finishTask_eq; done.
  - case_match; [done|]. simpl. case_match; [|done]. case_match; [done|]. rewrite finishTask_eq. done.
  - case_match; [done|]. simpl. case_match; [|done]. unfold on_hosts.
    destruct (sb_hosts (dr_backend p) !! host); simpl; rewrite ?finishTask_eq; done.
Qed.

(** ** A provider just built *)

Definition xen_seeded (k : string) : Prop := exists i, k = "OpaqueRef:vm-seed-" +:+ itoa i.

Lemma xen_seeded_free k i lim : xen_seeded k -> 0 < i < lim -> k <> named "OpaqueRef:VM" i.
Proof. intros [j ->] _ H. done. Qed.

Lemma xen_New_swf id caps : swf "OpaqueRef:VM" "OpaqueRef:VM" xen_seeded 0 (xen_store (Xen.New_sim id caps)).
Proof.
  constructor; simpl; try done.
  - intros k d H. repeat (apply lookup_insert_Some in H as [[<- <-]|[_ H]]; [done|]). done.
  - intros k d H. repeat (apply lookup_insert_Some in H as [[<- <-]|[_ H]]; [done|]). done.
  - intros k [d H]. left.
    apply lookup_insert_Some in H as [[<- _]|[_ H]]; [by exists 1|].
    apply lookup_insert_Some in H as [[<- _]|[_ H]]; [by exists 2|].
    apply lookup_insert_Some in H as [[<- _]|[_ H]]; [by exists 3|]. done.
  - intros k [l H]. done.
  - apply (bool_decide_unpack _). by vm_compute.
  - intros k. rewrite !elem_of_cons, elem_of_nil, !lookup_insert_is_Some. split.
    + intros [->|[->|[->|[]]]]; naive_solver.
    + intros [<-|[_ [<-|[_ [<-|[_ [? H]]]]]]]; try done; auto.
Qed.

Definition xen_hosts : gmap string xapiHost := sb_hosts newSimBackend.

(** Every run of a provider just built. *)
Lemma xen_follows id caps l :
  3 * Z.of_nat (length l) < 2 ^ 63 -> Forall (fun o => op_ok o.2) l ->
  follows_run Sentinel xen_exec xen_view table_dialect (default Xen.FullCaps caps) (on_hosts xen_hosts)
    l (Xen.New_sim id caps).
Proof.
  intros Hl Hall. eapply (run_refines Sentinel xen_exec xen_view _ dr_seq _ _ _ op_ok 3 (2 ^ 63)); [lia| | |simpl; lia|done].
  - apply (simulates_refines Sentinel xen_exec dr_seq xen_store dr_caps xen_hosts_of "OpaqueRef:VM" "OpaqueRef:VM" 1 xen_seeded); [|lia|apply xen_simulates].
    intros k i. apply xen_seeded_free.
  - split_and!; [apply xen_New_swf|done|done].
Qed.

End XenProps.

(** ** The VMware driver follows the contract

    Its records as native VMs, its operations as those of the common driver, and
    the runs of a provider just built. *)

Module EsxiProps.
Import Esxi.

#[export] Instance esxi_native : NativeVM vsphereVM := {|
  nv_key := vv_MoRef; nv_name := vv_Name; nv_host := vv_HostRef; nv_state v := Esxi.normalizeState (vv_Power v);
  nv_vcpus := vv_NumCPU; nv_mem := vv_MemoryMB; nv_protected := vv_Protected;
  nv_spec moRef _ spec now := vm_of_spec moRef spec now;
  nv_clone moRef _ spec src := vm_clone moRef spec src;
  nv_power pop v := match power_target pop with Some s => vv_set_Power s v | None => v end;
  nv_set_host := vv_set_HostRef; nv_set_vcpus := vv_set_NumCPU; nv_set_mem := vv_set_MemoryMB;
  nv_devices := Esxi.add_devices; nv_mem_fits _ := True |}.

#[export] Instance esxi_native_laws : NativeLaws vsphereVM.
Proof.
  constructor; simpl; unfold nv_view; simpl; try done.
  - intros k n spec v. by destruct (cs_PowerOn spec).
  - intros pop v Hv. apply bool_decide_eq_true in Hv. rewrite !elem_of_cons, elem_of_nil in Hv.
    destruct Hv as [->|[->|[->|[->|[->|[]]]]]]; done.
Qed.

Definition esxi_exec (now : time) (o : contract_op) : drv simBackend -> result kerr (option Task) * drv simBackend :=
  match o with
  | CCreate spec => Esxi.CreateVM spec now now
  | CPower vm pop => Esxi.PowerOp vm pop now
  | CDelete vm opts => Esxi.DeleteVM vm opts now
  | CReconfigure vm spec => Esxi.ReconfigureVM vm spec now
  | CSnapshot vm opts => Esxi.CreateSnapshot vm opts now now
  | CRevert vm snap => Esxi.RevertSnapshot vm snap now
  | CClone vm spec => Esxi.Clone vm spec now
  | CMigrate vm host opts => Esxi.MigrateVM vm host opts now
  end.
Definition esxi_store (p : drv simBackend) : vmStore vsphereVM := sb_store (dr_backend p).
Definition esxi_hosts_of (p : drv simBackend) : gmap string vsphereHost := sb_hosts (dr_backend p).
Definition esxi_view (p : drv simBackend) : gmap string cvm := st_view (esxi_store p).

Lemma esxi_simulates :
  simulates Sentinel esxi_exec dr_seq esxi_store dr_caps esxi_hosts_of "vm" "snapshot" 0.
Proof.
  intros now o p. unfold esxi_store, esxi_hosts_of. destruct o; cbn [esxi_exec core];
  unfold Esxi.CreateVM, Esxi.PowerOp, Esxi.DeleteVM, Esxi.ReconfigureVM, Esxi.CreateSnapshot, Esxi.RevertSnapshot, Esxi.Clone, Esxi.MigrateVM,
    gated, with_vm, when, at_vm, Esxi.assign, backend_do, nextID, dfail, refuse, tasked, hardware.
  - case_match; [done|]. case_match; [done|]. rewrite finishTask_eq. done.
  - case_match; [done|]. case_match; [done|]. simpl. case_match; [|done]. rewrite finishTask_eq. simpl.
    destruct (power_target pop); [done|]. by rewrite st_update_same.
  - case_match; [done|]. simpl. case_match; [|done]. simpl. case_match; [done|].
    destruct (bool_decide _), (do_Force opts); simpl; rewrite ?finishTask_eq; simpl; by rewrite ?st_destroy_update.
  - case_match; [done|]. simpl. case_match; [|done]. simpl.
    destruct (not_positive (rs_VCPUs spec)); [by rewrite st_update_same|].
    destruct (not_positive (rs_MemoryMB spec)); [done|]. rewrite finishTask_eq. simpl. by rewrite !st_update_twice.
  - case_match; [done|]. simpl. case_match; [|done]. rewrite finishTask_eq. done.
  - case_match; [done|]. cbn [vb_getVM sim_backend]. case_match; [|done].
    cbn [vb_setCurrentSnapshot sim_backend]. unfold sb_setCurrentSnapshot.
    destruct (st_setCurrentSnapshot vm snap (sb_store (dr_backend p))) as [found st]. destruct found; simpl; rewrite ?finishTask_eq; done.
  - case_match; [done|]. simpl. case_match; [|done]. case_match; [done|]. rewrite finishTask_eq. done.
  - case_match; [done|]. simpl. case_match; [|done]. unfold on_hosts.
    destruct (sb_hosts (dr_backend p) !! host); simpl; rewrite ?finishTask_eq; done.
Qed.

(** ** A provider just built *)

(** The seeded names are of the form the counter gives. *)
Definition esxi_seeded (k : string) : Prop := exists j, k = named "vm" j /\ 101 <= j <= 103.

Lemma esxi_seeded_free k i : esxi_seeded k -> 0 < i < 101 -> k <> named "vm" i.
Proof. intros (j & -> & Hj) Hi E. apply prefixed_inj in E. lia. Qed.

Lemma esxi_New_swf id caps : swf "vm" "snapshot" esxi_seeded 0 (esxi_store (Esxi.New_sim id caps)).
Proof.
  constructor; simpl; try done.
  - intros k d H. repeat (apply lookup_insert_Some in H as [[<- <-]|[_ H]]; [done|]). done.
  - intros k d H. repeat (apply lookup_insert_Some in H as [[<- <-]|[_ H]]; [done|]). done.
  - intros k [d H]. left.
    apply lookup_insert_Some in H as [[<- _]|[_ H]]; [exists 101; by split; [|lia]|].
    apply lookup_insert_Some in H as [[<- _]|[_ H]]; [exists 102; by split; [|lia]|].
    apply lookup_insert_Some in H as [[<- _]|[_ H]]; [exists 103; by split; [|lia]|]. done.
  - intros k [l H]. done.
  - apply (bool_decide_unpack _). by vm_compute.
  - intros k. rewrite !elem_of_cons, elem_of_nil, !lookup_insert_is_Some. split.
    + intros [->|[->|[->|[]]]]; naive_solver.
    + intros [<-|[_ [<-|[_ [<-|[_ [? H]]]]]]]; try done; auto.
Qed.

Definition esxi_hosts : gmap string vsphereHost := sb_hosts newSimBackend.

(** Every run of a provider just built. *)
Lemma esxi_follows id caps l :
  2 * Z.of_nat (length l) < 101 -> Forall (fun o => op_ok o.2) l ->
  follows_run Sentinel esxi_exec esxi_view table_dialect (default Esxi.FullCaps caps) (on_hosts esxi_hosts)
    l (Esxi.New_sim id caps).
Proof.
  intros Hl Hall. eapply (run_refines Sentinel esxi_exec esxi_view _ dr_seq _ _ _ op_ok 2 101); [lia| | |simpl; lia|done].
  - apply (simulates_refines Sentinel esxi_exec dr_seq esxi_store dr_caps esxi_hosts_of "vm" "snapshot" 0 esxi_seeded 101); [apply esxi_seeded_free|lia|apply esxi_simulates].
  - split_and!; [apply esxi_New_swf|done|done].
Qed.

End EsxiProps.

(** ** The Hyper-V driver follows the contract

    Its records as native VMs, its operations as those of the common driver, and
    the runs of a provider just built. *)

Module HypervProps.
Import Hyperv.

#[export] Instance hyperv_native : NativeVM hypervVM := {|
  nv_key := hv_VMID; nv_name := hv_Name; nv_host := hv_HostID; nv_state v := Hyperv.normalizeState (hv_State v);
  nv_vcpus := hv_VCPUs; nv_mem := hv_MemoryMB; nv_protected := hv_Protected;
  nv_spec vmID _ spec now := vm_of_spec vmID spec now;
  nv_clone vmID _ spec src := vm_clone vmID spec src;
  nv_power pop v := match power_target pop with Some s => hv_set_State s v | None => v end;
  nv_set_host := hv_set_HostID; nv_set_vcpus := hv_set_VCPUs; nv_set_mem := hv_set_MemoryMB;
  nv_devices := Hyperv.add_devices; nv_mem_fits _ := True |}.

#[export] Instance hyperv_native_laws : NativeLaws hypervVM.
Proof.
  constructor; simpl; unfold nv_view; simpl; try done.
  - intros k n spec v. by destruct (cs_PowerOn spec).
  - intros pop v Hv. apply bool_decide_eq_true in Hv. rewrite !elem_of_cons, elem_of_nil in Hv.
    destruct Hv as [->|[->|[->|[->|[->|[]]]]]]; done.
Qed.

Definition hyperv_exec (now : time) (o : contract_op) : drv simBackend -> result kerr (option Task) * drv simBackend :=
  match o with
  | CCreate spec => Hyperv.CreateVM spec now now
  | CPower vm pop => Hyperv.PowerOp vm pop now
  | CDelete vm opts => Hyperv.DeleteVM vm opts now
  | CReconfigure vm spec => Hyperv.ReconfigureVM vm spec now
  | CSnapshot vm opts => Hyperv.CreateSnapshot vm opts now now
  | CRevert vm snap => Hyperv.RevertSnapshot vm snap now
  | CClone vm spec => Hyperv.Clone vm spec now
  | CMigrate vm host opts => Hyperv.MigrateVM vm host opts now
  end.
Definition hyperv_store (p : drv simBackend) : vmStore hypervVM := sb_store (dr_backend p).
Definition hyperv_hosts_of (p : drv simBackend) : gmap string hypervHost := sb_hosts (dr_backend p).
Definition hyperv_view (p : drv simBackend) : gmap string cvm := st_view (hyperv_store p).

Lemma hyperv_simulates :
  simulates Sentinel hyperv_exec dr_seq hyperv_store dr_caps hyperv_hosts_of "vm" "checkpoint" 0.
Proof.
  intros now o p. unfold hyperv_store, hyperv_hosts_of. destruct o; cbn [hyperv_exec core];
  unfold Hyperv.CreateVM, Hyperv.PowerOp, Hyperv.DeleteVM, Hyperv.ReconfigureVM, Hyperv.CreateSnapshot, Hyperv.RevertSnapshot, Hyperv.Clone, Hyperv.MigrateVM,
    gated, with_vm, when, at_vm, Hyperv.assign, backend_do, nextID, dfail, refuse, tasked, hardware.
  - case_match; [done|]. case_match; [done|]. rewrite finishTask_eq. done.
  - case_match; [done|]. case_match; [done|]. simpl. case_match; [|done]. rewrite finishTask_eq. simpl.
    destruct (power_target pop); [done|]. by rewrite st_update_same.
  - case_match; [done|]. simpl. case_match; [|done]. simpl. case_match; [done|].
    destruct (bool_decide _), (do_Force opts); simpl; rewrite ?finishTask_eq; simpl; by rewrite ?st_destroy_update.
  - case_match; [done|]. simpl. case_match; [|done]. simpl.
    destruct (not_positive (rs_VCPUs spec)); [by rewrite st_update_same|].
    destruct (not_positive (rs_MemoryMB spec)); [done|]. rewrite finishTask_eq. simpl. by rewrite !st_update_twice.
  - case_match; [done|]. simpl. case_match; [|done]. rewrite finishTask_eq. done.
  - case_match; [done|]. cbn [wb_getVM sim_backend]. case_match; [|done].
    cbn [wb_setCurrentSnapshot sim_backend]. unfold sb_setCurrentSnapshot.
    destruct (st_setCurrentSnapshot vm snap (sb_store (dr_backend p))) as [found st]. destruct found; simpl; rewrite ?finishTask_eq; done.
  - case_match; [done|]. simpl. case_match; [|done]. case_match; [done|]. rewrite finishTask_eq. done.
  - case_match; [done|]. simpl. case_match; [|done]. unfold on_hosts.
    destruct (sb_hosts (dr_backend p) !! host); simpl; rewrite ?finishTask_eq; done.
Qed.

(** ** A provider just built *)

Definition hyperv_seeded (k : string) : Prop := exists i, k = "5FD3F32E-0000-4000-8000-00000000000" +:+ itoa i.

Lemma hyperv_seeded_free k i lim : hyperv_seeded k -> 0 < i < lim -> k <> named "vm" i.
Proof. intros [j ->] _ H. done. Qed.

Lemma hyperv_New_swf id caps : swf "vm" "checkpoint" hyperv_seeded 0 (hyperv_store (Hyperv.New_sim id caps)).
Proof.
  constructor; simpl; try done.
  - intros k d H. repeat (apply lookup_insert_Some in H as [[<- <-]|[_ H]]; [done|]). done.
  - intros k d H. repeat (apply lookup_insert_Some in H as [[<- <-]|[_ H]]; [done|]). done.
  - intros k [d H]. left.
    apply lookup_insert_Some in H as [[<- _]|[_ H]]; [by exists 1|].
    apply lookup_insert_Some in H as [[<- _]|[_ H]]; [by exists 2|].
    apply lookup_insert_Some in H as [[<- _]|[_ H]]; [by exists 3|]. done.
  - intros k [l H]. done.
  - apply (bool_decide_unpack _). by vm_compute.
  - intros k. rewrite !elem_of_cons, elem_of_nil, !lookup_insert_is_Some. split.
    + intros [->|[->|[->|[]]]]; naive_solver.
    + intros [<-|[_ [<-|[_ [<-|[_ [? H]]]]]]]; try done; auto.
Qed.

Definition hyperv_hosts : gmap string hypervHost := sb_hosts newSimBackend.

(** Every run of a provider just built. *)
Lemma hyperv_follows id caps l :
  2 * Z.of_nat (length l) < 2 ^ 63 -> Forall (fun o => op_ok o.2) l ->
  follows_run Sentinel hyperv_exec hyperv_view table_dialect (default Hyperv.FullCaps caps) (on_hosts hyperv_hosts)
    l (Hyperv.New_sim id caps).
Proof.
  intros Hl Hall. eapply (run_refines Sentinel hyperv_exec hyperv_view _ dr_seq _ _ _ op_ok 2 (2 ^ 63)); [lia| | |simpl; lia|done].
  - apply (simulates_refines Sentinel hyperv_exec dr_seq hyperv_store dr_caps hyperv_hosts_of "vm" "checkpoint" 0 hyperv_seeded); [|lia|apply hyperv_simulates].
    intros k i. apply hyperv_seeded_free.
  - split_and!; [apply hyperv_New_swf|done|done].
Qed.

End HypervProps.
