(* ===== verification/ModelProps.v ===== *)
(** * What the Xen, ESXi and Hyper-V drivers guarantee

    They follow the provider contract on every run from the model backends of the
    default build, and some of their writes reach a backend only through the
    pointers it hands out. *)
From S2P Require Import Prelude GoStd VProvider Sim SimFacts Contract VmStore TableDriver TableFacts DriverKit.
From S2P Require Import Xen DriverProps Esxi Hyperv.
Import XenProps EsxiProps HypervProps.

(** ** The contract *)

(** C9 The three drivers follow the provider contract on every run: whatever
    operations are asked of a provider just built, its answers and the table of
    VMs it shows are those of the abstract machine, which gives every new VM and
    snapshot an id not in use, refuses without changing anything, and changes one
    VM otherwise.  There is one exception, which the runs make explicit as the step
    [forgets]: a revert to a snapshot that the VM does not have is refused as the
    machine refuses it, but then none of the snapshots of that VM is current any
    more; nothing else changes.  The runs exclude a reconfiguration refused for its memory
    after its vCPUs were set and, on Xen, sizes of memory that do not fit in
    64 bits of bytes; those of ESXi end when the counter reaches the ids of the
    seeded VMs. *)
Theorem drivers_refine_contract id caps l :
  Forall (fun o => op_ok (V := xapiVM) o.2) l ->
  (3 * Z.of_nat (length l) < 2 ^ 63 ->
     follows_run Sentinel xen_exec xen_view table_dialect (default CoreCaps caps) (on_hosts xen_hosts) l (Xen.New_sim id caps)) /\
  (2 * Z.of_nat (length l) < 101 ->
     follows_run Sentinel esxi_exec esxi_view table_dialect (default CoreCaps caps) (on_hosts esxi_hosts) l (Esxi.New_sim id caps)) /\
  (2 * Z.of_nat (length l) < 2 ^ 63 ->
     follows_run Sentinel hyperv_exec hyperv_view table_dialect (default CoreCaps caps) (on_hosts hyperv_hosts) l
       (Hyperv.New_sim id caps)).
Proof.
  intros Hall. split_and!; intros Hl; [by apply xen_follows|apply esxi_follows|apply hyperv_follows]; try done;
    (eapply Forall_impl; [exact Hall|]; intros [now o] Ho; destruct o; simpl in *; naive_solver).
Qed.

Definition demo_vm (name : string) : VMSpec := basic_VMSpec name "node-1" 2 4096 "linux" FirmwareUEFI [].
Definition demo_run (vm snap : string) : list (time * contract_op) :=
  [(1, CCreate (demo_vm "a")); (2, CPower vm PowerStart); (3, CSnapshot vm (mkSnapshotOptions "s" "" false false));
   (4, CRevert vm snap); (5, CClone vm (mkCloneSpec "b" "" "" true false)); (6, CDelete vm (mkDeleteOptions false true))].

Lemma drivers_refine_contract_witness :
  (let l := demo_run "OpaqueRef:VM-1" "OpaqueRef:VM-5" in
   follows_run Sentinel xen_exec xen_view table_dialect CoreCaps (on_hosts xen_hosts) l (Xen.New_sim "x" None) /\
   (run_ops xen_exec l (Xen.New_sim "x" None)).1 =
     [Ok "OpaqueRef:VM-1"; Ok "OpaqueRef:VM-1"; Ok "OpaqueRef:VM-1"; Ok "OpaqueRef:VM-1"; Ok "OpaqueRef:VM-8"; Err (Sentinel ErrConflict)]) /\
  (let l := demo_run "vm-1" "snapshot-9" in
   follows_run Sentinel esxi_exec esxi_view table_dialect CoreCaps (on_hosts esxi_hosts) l (Esxi.New_sim "e" None) /\
   (run_ops esxi_exec l (Esxi.New_sim "e" None)).1 =
     [Ok "vm-1"; Ok "vm-1"; Ok "vm-1"; Err (Sentinel ErrNotFound); Ok "vm-6"; Err (Sentinel ErrConflict)]) /\
  (let l := demo_run "vm-1" "checkpoint-4" in
   follows_run Sentinel hyperv_exec hyperv_view table_dialect CoreCaps (on_hosts hyperv_hosts) l (Hyperv.New_sim "h" None) /\
   (run_ops hyperv_exec l (Hyperv.New_sim "h" None)).1 =
     [Ok "vm-1"; Ok "vm-1"; Ok "vm-1"; Ok "vm-1"; Ok "vm-7"; Err (Sentinel ErrConflict)]).
Proof.
  split; [|split]; (split; [|by vm_compute]).
  - destruct (drivers_refine_contract "x" None (demo_run "OpaqueRef:VM-1" "OpaqueRef:VM-5")) as (H & _ & _);
      [repeat constructor; simpl; unfold mem_fits; lia|]. apply H. simpl. lia.
  - destruct (drivers_refine_contract "e" None (demo_run "vm-1" "snapshot-9")) as (_ & H & _);
      [repeat constructor; simpl; unfold mem_fits; lia|]. apply H. simpl. lia.
  - destruct (drivers_refine_contract "h" None (demo_run "vm-1" "checkpoint-4")) as (_ & _ & H);
      [repeat constructor; simpl; unfold mem_fits; lia|]. apply H. simpl. lia.
Defined.

(** What the refinement excludes: a refused reconfiguration that has set the
    vCPUs, and a size of memory that leaves a VM without any. *)
Lemma reconfigure_torn :
  let p := Xen.New_sim "x" None in
  let spec := mkReconf (Some 16) (Some 0) [] [] ∅ None in
  (Xen.ReconfigureVM "OpaqueRef:vm-seed-1" spec 1 p).1 = Err (Sentinel ErrInvalidSpec) /\
  c_vcpus <$> xen_view p !! "OpaqueRef:vm-seed-1" = Some 2 /\
  c_vcpus <$> xen_view (Xen.ReconfigureVM "OpaqueRef:vm-seed-1" spec 1 p).2 !! "OpaqueRef:vm-seed-1" = Some 16.
Proof. by vm_compute. Qed.

Lemma xen_memory_wraps :
  let spec := basic_VMSpec "big" "" 1 (2 ^ 44) "" "" [] in
  let r := Xen.CreateVM spec 1 2 (Xen.New_sim "x" None) in
  is_ok r.1 = true /\ c_mem <$> xen_view r.2 !! "OpaqueRef:VM-1" = Some 0.
Proof. by vm_compute. Qed.

(** The ids of ESXi reach those of the seeds: after fifty VMs, the next one takes
    the place of a seeded VM that runs. *)
Lemma esxi_id_collision :
  let p := Esxi.New_sim "e" None in
  let l := replicate 50 (1, CCreate (demo_vm "n")) in
  let p50 := (run_ops esxi_exec l p).2 in
  c_state <$> esxi_view p50 !! "vm-101" = Some StateRunning /\
  entity_of (Esxi.CreateVM (demo_vm "new") 2 3 p50).1 = Ok "vm-101" /\
  (fun v => (c_name v, c_state v)) <$> esxi_view (Esxi.CreateVM (demo_vm "new") 2 3 p50).2 !! "vm-101" =
    Some ("new", StateStopped).
Proof. by vm_compute. Qed.

(** ** Writes through the pointers of a backend

    A live backend rebuilds the records at each [getVM], so that what is assigned
    to one is seen by nobody. *)

Definition hands_out_copies {V B} (assign : string -> (V -> V) -> B -> B) : Prop := forall vm f b, assign vm f b = b.
(** The operation succeeds, with a task for the VM, and has done nothing. *)
Definition idle {B} (vm : string) (p : drv B) (r : result kerr (option Task) * drv B) : Prop :=
  entity_of r.1 = Ok vm /\ dr_backend r.2 = dr_backend p.
Definition well_sized (spec : VMReconfigureSpec) : bool :=
  negb (not_positive (rs_VCPUs spec) || not_positive (rs_MemoryMB spec)).

(** Over a backend that hands out copies, as every live one does, the three
    drivers migrate and reconfigure nothing: for any VM that exists, any host
    that exists and any sizes that are accepted, whatever disks, interfaces and
    labels are asked for, both operations report success and leave the backend
    as it was. *)
Theorem pointer_writes_lost vm host opts spec now : well_sized spec = true ->
  (forall B (X : xapiBackend B) (p : drv B), hands_out_copies xb_assign ->
     Has (dr_caps p) CapMigrate = true -> Has (dr_caps p) CapReconfigureVM = true ->
     is_Some (xb_getVM vm (dr_backend p)) -> is_Some (xb_getHost host (dr_backend p)) ->
     idle vm p (Xen.MigrateVM vm host opts now p) /\ idle vm p (Xen.ReconfigureVM vm spec now p)) /\
  (forall B (X : vsphereBackend B) (p : drv B), hands_out_copies vb_assign ->
     Has (dr_caps p) CapMigrate = true -> Has (dr_caps p) CapReconfigureVM = true ->
     is_Some (vb_getVM vm (dr_backend p)) -> is_Some (vb_getHost host (dr_backend p)) ->
     idle vm p (Esxi.MigrateVM vm host opts now p) /\ idle vm p (Esxi.ReconfigureVM vm spec now p)) /\
  (forall B (X : wmiBackend B) (p : drv B), hands_out_copies wb_assign ->
     Has (dr_caps p) CapMigrate = true -> Has (dr_caps p) CapReconfigureVM = true ->
     is_Some (wb_getVM vm (dr_backend p)) -> is_Some (wb_getHost host (dr_backend p)) ->
     idle vm p (Hyperv.MigrateVM vm host opts now p) /\ idle vm p (Hyperv.ReconfigureVM vm spec now p)).
Proof.
  unfold well_sized. rewrite negb_true_iff, orb_false_iff. intros [Hc Hm].
  split_and!; intros B X p Hcopy H1 H2 [v Hv] [h Hh]; unfold idle;
    unfold Xen.MigrateVM, Xen.ReconfigureVM, Esxi.MigrateVM, Esxi.ReconfigureVM, Hyperv.MigrateVM, Hyperv.ReconfigureVM,
      Xen.assign, Esxi.assign, Hyperv.assign, gated, with_vm, backend_do;
    rewrite H1, H2; cbn [negb]; rewrite Hv, Hh, Hc, Hm, !finishTask_eq; simpl; by rewrite !Hcopy.
Qed.

(** The model backend, handing out copies. *)
Definition xen_copying : xapiBackend Xen.simBackend :=
  let X := Xen.sim_backend in
  {| xb_version := xb_version; xb_healthy := xb_healthy; xb_close := xb_close; xb_listHosts := xb_listHosts; xb_getHost := xb_getHost; xb_listVMs := xb_listVMs; xb_getVM := xb_getVM; xb_assign := (fun _ _ b => b); xb_listSRs := xb_listSRs; xb_listNetworks := xb_listNetworks; xb_createVM := xb_createVM; xb_destroyVM := xb_destroyVM; xb_setPowerState := xb_setPowerState; xb_vmsOnHost := xb_vmsOnHost; xb_listSnapshots := xb_listSnapshots; xb_createSnapshot := xb_createSnapshot; xb_setCurrentSnapshot := xb_setCurrentSnapshot; xb_pool := xb_pool; xb_exportStream := xb_exportStream |}.
Definition esxi_copying : vsphereBackend Esxi.simBackend :=
  let X := Esxi.sim_backend in
  {| vb_version := vb_version; vb_healthy := vb_healthy; vb_close := vb_close; vb_listHosts := vb_listHosts; vb_getHost := vb_getHost; vb_listVMs := vb_listVMs; vb_getVM := vb_getVM; vb_assign := (fun _ _ b => b); vb_listClusters := vb_listClusters; vb_getCluster := vb_getCluster; vb_listDatastores := vb_listDatastores; vb_listNetworks := vb_listNetworks; vb_createVM := vb_createVM; vb_destroyVM := vb_destroyVM; vb_setPower := vb_setPower; vb_vmsOnHost := vb_vmsOnHost; vb_listSnapshots := vb_listSnapshots; vb_createSnapshot := vb_createSnapshot; vb_setCurrentSnapshot := vb_setCurrentSnapshot; vb_export := vb_export |}.
Definition hyperv_copying : wmiBackend Hyperv.simBackend :=
  let X := Hyperv.sim_backend in
  {| wb_version := wb_version; wb_healthy := wb_healthy; wb_close := wb_close; wb_isLive := wb_isLive; wb_listHosts := wb_listHosts; wb_getHost := wb_getHost; wb_listVMs := wb_listVMs; wb_getVM := wb_getVM; wb_assign := (fun _ _ b => b); wb_listClusters := wb_listClusters; wb_getCluster := wb_getCluster; wb_listStorage := wb_listStorage; wb_listSwitches := wb_listSwitches; wb_createVM := wb_createVM; wb_destroyVM := wb_destroyVM; wb_setState := wb_setState; wb_vmsOnHost := wb_vmsOnHost; wb_listSnapshots := wb_listSnapshots; wb_createSnapshot := wb_createSnapshot; wb_setCurrentSnapshot := wb_setCurrentSnapshot; wb_export := wb_export |}.

Lemma pointer_writes_lost_witness :
  let spec := mkReconf (Some 16) (Some 1024) [] [] {["a" := "b"]} None in
  let x := @Xen.New _ xen_copying "x" None Xen.newSimBackend in
  let e := @Esxi.New _ "e" None Esxi.newSimBackend in
  let h := Hyperv.New "h" None Hyperv.newSimBackend in
  (idle "OpaqueRef:vm-seed-1" x (@Xen.MigrateVM _ xen_copying "OpaqueRef:vm-seed-1" "OpaqueRef:host-2" (mkMigrateOptions true "") 1 x) /\
   idle "OpaqueRef:vm-seed-1" x (@Xen.ReconfigureVM _ xen_copying "OpaqueRef:vm-seed-1" spec 1 x)) /\
  (idle "vm-101" e (@Esxi.MigrateVM _ esxi_copying "vm-101" "host-12" (mkMigrateOptions true "") 1 e) /\
   idle "vm-101" e (@Esxi.ReconfigureVM _ esxi_copying "vm-101" spec 1 e)) /\
  (idle "5FD3F32E-0000-4000-8000-000000000001" h
     (@Hyperv.MigrateVM _ hyperv_copying "5FD3F32E-0000-4000-8000-000000000001" "node-2" (mkMigrateOptions true "") 1 h) /\
   idle "5FD3F32E-0000-4000-8000-000000000001" h
     (@Hyperv.ReconfigureVM _ hyperv_copying "5FD3F32E-0000-4000-8000-000000000001" spec 1 h)).
Proof.
  intros spec x e h. split; [|split].
  - destruct (pointer_writes_lost "OpaqueRef:vm-seed-1" "OpaqueRef:host-2" (mkMigrateOptions true "") spec 1 eq_refl) as (W & _ & _).
    apply (W _ xen_copying); first [done|by vm_compute|by eexists; vm_compute].
  - destruct (pointer_writes_lost "vm-101" "host-12" (mkMigrateOptions true "") spec 1 eq_refl) as (_ & W & _).
    apply (W _ esxi_copying); first [done|by vm_compute|by eexists; vm_compute].
  - destruct (pointer_writes_lost "5FD3F32E-0000-4000-8000-000000000001" "node-2" (mkMigrateOptions true "") spec 1 eq_refl)
      as (_ & _ & W).
    apply (W _ hyperv_copying); first [done|by vm_compute|by eexists; vm_compute].
Defined.

(** A clone keeps the disks of its source, files included. *)
Lemma clones_share_disks k n spec (x : xapiVM) (e : vsphereVM) (h : hypervVM) :
  xv_VBDs (nv_clone k n spec x) = xv_VBDs x /\ vv_Disks (nv_clone k n spec e) = vv_Disks e /\
  hv_Disks (nv_clone k n spec h) = hv_Disks h.
Proof. done. Qed.
