(* ===== verification/Conformance.v ===== *)
(** * The conformance suite of the providers

    server/internal/vprovider/conformance/conformance.go: [RunConformance], the
    acceptance criterion of every provider, as a function from a provider to the
    failures of its subtests.  Capabilities and tokens are functions of the
    provider here, so the checks that two readings agree are left out. *)
From S2P Require Import Prelude GoStd VProvider VmApi.

(** The rest of the interface: [ct_events n] is what the first [n] receives of a
    stream give before the receiver leaves. *)
Class FullDriver (P : Type) `{Driver P} := {
  ct_health : time -> P -> HealthStatus;
  ct_close : P -> result prov_err unit * P;
  ct_export : string -> string -> P -> result prov_err ((string * option string) * option ExportInfo) * P;
  ct_node : string -> time -> P -> result prov_err NodeState;
  ct_events : nat -> time -> P -> result prov_err (list Event) }.

Section Suite.
Context {P : Type} `{FullDriver P} (now : nat -> time).

(** A subtest: the messages of its [t.Error] and [t.Fatal], whether it goes on,
    and the provider. *)
Definition T (A : Type) : Type := P -> list string * option A * P.
#[local] Instance T_ret : MRet T := fun A a p => ([], Some a, p).
#[local] Instance T_bind : MBind T := fun A B k m p =>
  match m p with
  | (e, Some a, p) => let '(e', b, p) := k a p in (e ++ e', b, p)
  | (e, None, p) => (e, None, p)
  end.
Definition t_Error (msg : string) : T unit := fun p => ([msg], Some tt, p).
Definition t_Fatal {A} (msg : string) : T A := fun p => ([msg], None, p).
Definition t_Skip {A} : T A := fun p => ([], None, p).
Definition unless (ok : bool) (msg : string) : T unit := if ok then mret tt else t_Error msg.
Definition ask {A} (f : P -> A) : T A := fun p => ([], Some (f p), p).
Definition call {A} (c : pcall A) : T (result prov_err A) := fun p =>
  let '(r, p) := dv_call c now p in ([], Some r, p).
Definition has (cap : Z) : T bool := ask (fun p => Has (dv_Capabilities p) cap).

(** [errors.Is]. *)
Definition is_err {A} (e : verr) (r : result prov_err A) : bool :=
  match r with Err x => bool_decide (pe_Is x = Some e) | Ok _ => false end.
(** Equality of two identifiers. *)
Definition same (a b : string) : bool := bool_decide (a = b).

Definition gateList {A} (capable : bool) (r : result prov_err A) : T unit :=
  if capable then unless (is_ok r) "failed though capable"
  else unless (is_err ErrUnsupported r) "without capability must return ErrUnsupported".
(** The VMs of the provider; [None] is an error. *)
Definition pickVMs : T (option (list VM)) :=
  c ← has CapListVMs;
  if negb c then mret (Some []) else r ← call (QListVMs (mkListOptions "" "" "" ∅)); mret (match r with Ok l => Some l | Err _ => None end).
Definition containsVM (vms : result prov_err (list VM)) (id : string) : bool :=
  match vms with Ok l => existsb (fun v => bool_decide (vm_ID v = id)) l | Err _ => false end.
Definition all_vms : pcall (list VM) := QListVMs (mkListOptions "" "" "" ∅).

Definition t_Identity : T unit :=
  id ← ask dv_ID; kind ← ask dv_Kind;
  _ ← unless (negb (bool_decide (id = ""))) "ID() must be non-empty";
  unless (negb (bool_decide (kind = ""))) "Kind() must be non-empty".

Definition t_HealthCheck : T unit :=
  hs ← ask (ct_health (now 0%nat));
  _ ← unless (hs_Healthy hs) "expected healthy provider";
  unless (negb (is_zero_time (hs_CheckedAt hs))) "HealthStatus.CheckedAt must be set".

Definition check_vms (id kind : string) (vms : list VM) : T unit :=
  _ ← unless (match vms with [] => false | _ => true end) "ListVMs returned empty; seed at least one VM";
  unless (forallb (fun v => negb (bool_decide (vm_ID v = "")) && negb (bool_decide (vm_Name v = ""))
                            && same (vm_ProviderID v) id && same (vm_Kind v) kind) vms) "VM".
Definition t_Inventory : T unit :=
  id ← ask dv_ID; kind ← ask dv_Kind;
  c1 ← has CapListHosts; hs ← call QListHosts;
  _ ← (match hs with Ok l => unless (forallb (fun h => same (host_ProviderID h) id) l) "host ProviderID" | Err _ => mret tt end);
  _ ← gateList c1 hs;
  c2 ← has CapListVMs; vms ← call all_vms;
  _ ← (match vms with Ok l => check_vms id kind l | Err _ => mret tt end);
  _ ← gateList c2 vms;
  c3 ← has CapListClusters; r3 ← call QListClusters; _ ← gateList c3 r3;
  c4 ← has CapListStorage; r4 ← call QListStorage; _ ← gateList c4 r4;
  c5 ← has CapListNetworks; r5 ← call QListNetworks; gateList c5 r5.

Definition t_GetVM : T unit :=
  c ← has CapGetVM;
  if negb c then
    r ← call (QGetVM "anything"); unless (is_err ErrUnsupported r) "GetVM without CapGetVM must return ErrUnsupported"
  else
    r ← call (QGetVM "definitely-missing-id");
    _ ← unless (is_err ErrNotFound r) "GetVM(missing) must return ErrNotFound";
    vms ← call all_vms;
    match vms with
    | Err _ | Ok [] => t_Skip
    | Ok (v :: _) =>
        d ← call (QGetVM (vm_ID v));
        match d with
        | Err _ => t_Fatal "GetVM(known) error"
        | Ok d => unless (bool_decide (vm_ID d.1 = vm_ID v)) "GetVM returned id"
        end
    end.

Definition task_succeeded (t : option Task) : bool :=
  match t with Some t => Task_Done t && bool_decide (task_State t = TaskSucceeded) | None => false end.
Fixpoint power_ops (id : string) (ops : list string) : T unit :=
  match ops with
  | [] => mret tt
  | o :: ops =>
      r ← call (PPower id o); c ← has (PowerOpCapability o);
      _ ← (if (c : bool) then match r with
                     | Err _ => t_Error "PowerOp failed though capable"
                     | Ok t => unless (task_succeeded t) "PowerOp task not successfully done"
                     end
           else unless (is_err ErrUnsupported r) "PowerOp without capability must return ErrUnsupported");
      power_ops id ops
  end.
Definition t_PowerLifecycle : T unit :=
  vms ← pickVMs;
  match vms with
  | None | Some [] => t_Skip
  | Some (v :: _) =>
      let id := vm_ID v in
      _ ← power_ops id [PowerStop; PowerStart; PowerSuspend; PowerResume; PowerReset];
      r ← call (PPower id "bogus"); _ ← unless (negb (is_ok r)) "PowerOp(bogus) must error";
      c ← has CapPowerStart;
      if (c : bool) then r ← call (PPower "missing-vm" PowerStart); unless (is_err ErrNotFound r) "PowerOp(missing) must return ErrNotFound"
      else mret tt
  end.

(** [VMSpec] literals. *)
Definition conf_spec (name : string) (vcpus mem : Z) (gos : string) (disks : list DiskSpec) : VMSpec :=
  basic_VMSpec name "" vcpus mem gos "" disks.
Definition set_vcpus (n : Z) : VMReconfigureSpec := mkReconf (Some n) None [] [] ∅ None.
Definition t_Reconfigure (newID : string) : T unit :=
  c ← has CapReconfigureVM;
  if negb c then mret tt
  else
    r ← call (PReconfigure newID (set_vcpus 4)); _ ← unless (is_ok r) "ReconfigureVM failed";
    g ← has CapGetVM;
    if negb g then mret tt
    else
      d ← call (QGetVM newID);
      match d with Ok d => unless (vm_VCPUs d.1 =? 4) "ReconfigureVM did not apply VCPUs" | Err _ => mret tt end.
Definition t_Delete (newID : string) : T unit :=
  c ← has CapDeleteVM;
  if negb c then mret tt
  else
    r ← call (PDelete newID (mkDeleteOptions true true)); _ ← unless (is_ok r) "DeleteVM failed";
    vms ← call all_vms; _ ← unless (negb (containsVM vms newID)) "deleted VM still present";
    r ← call (PDelete "missing-vm" (mkDeleteOptions false false));
    unless (is_err ErrNotFound r) "DeleteVM(missing) must return ErrNotFound".
Definition t_CreateReconfigureDelete : T unit :=
  c ← has CapCreateVM;
  if negb c then
    r ← call (PCreate (conf_spec "x" 1 512 "" [])); unless (is_err ErrUnsupported r) "CreateVM without cap must return ErrUnsupported"
  else
    r ← call (PCreate (conf_spec "" 0 0 "" [])); _ ← unless (is_err ErrInvalidSpec r) "CreateVM(invalid) must return ErrInvalidSpec";
    r ← call (PCreate (conf_spec "conf-created" 2 2048 "linux" [mkDiskSpec (f64_of_Z 10) "" "" "" None "" false]));
    match r with
    | Err _ | Ok None => t_Fatal "CreateVM failed"
    | Ok (Some t) =>
        let newID := task_EntityID t in
        if bool_decide (newID = "") then t_Fatal "CreateVM task missing EntityID"
        else
          vms ← call all_vms; _ ← unless (containsVM vms newID) "created VM not present in ListVMs";
          _ ← t_Reconfigure newID; t_Delete newID
    end.

Definition t_Snapshots : T unit :=
  vms ← pickVMs; c ← has CapSnapshot;
  match vms with
  | None | Some [] => t_Skip
  | Some (v :: _) =>
      let id := vm_ID v in
      let opts name := mkSnapshotOptions name "" false false in
      if negb c then
        r ← call (PSnapshot id (opts "s")); unless (is_err ErrUnsupported r) "Snapshot without cap must return ErrUnsupported"
      else
        r ← call (PSnapshot id (opts "snap-a"));
        if negb (is_ok r) then t_Fatal "Snapshot failed"
        else
          snaps ← call (QListSnapshots id);
          match snaps with
          | Err _ => t_Fatal "ListSnapshots failed"
          | Ok [] => t_Fatal "expected at least one snapshot"
          | Ok (s :: _) =>
              rc ← has CapRevertSnapshot;
              if negb rc then mret tt
              else
                r ← call (PRevert id (snap_ID s)); _ ← unless (is_ok r) "RevertSnapshot failed";
                r ← call (PRevert id "missing-snap"); unless (is_err ErrNotFound r) "RevertSnapshot(missing) must return ErrNotFound"
          end
  end.

Definition t_Clone : T unit :=
  vms ← pickVMs; c ← has CapClone;
  match vms with
  | None | Some [] => t_Skip
  | Some (v :: _) =>
      if negb c then
        r ← call (PClone (vm_ID v) (mkCloneSpec "c" "" "" false false));
        unless (is_err ErrUnsupported r) "Clone without cap must return ErrUnsupported"
      else
        r ← call (PClone (vm_ID v) (mkCloneSpec "conf-clone" "" "" false false));
        match r with
        | Ok (Some t) => unless (negb (bool_decide (task_EntityID t = ""))) "Clone task missing EntityID"
        | _ => t_Fatal "Clone failed"
        end
  end.

Definition export (id format : string) : T (result prov_err ((string * option string) * option ExportInfo)) := fun p =>
  let '(r, p) := ct_export id format p in ([], Some r, p).
Definition t_Export (id : string) : T unit :=
  c ← has CapExport;
  if negb c then r ← export id DiskQcow2; unless (is_err ErrUnsupported r) "ExportVM without cap must return ErrUnsupported"
  else
    r ← export id DiskQcow2;
    match r with
    | Err _ => t_Fatal "ExportVM failed"
    | Ok (_, Some _, _) => t_Fatal "reading export stream"
    | Ok (data, None, info) =>
        _ ← unless (match data with EmptyString => false | _ => true end) "ExportVM produced empty stream";
        _ ← unless (match info with Some i => bool_decide (ei_SourceVMID i = id) | None => false end) "ExportInfo missing/incorrect";
        r ← export id "bogus"; unless (is_err ErrInvalidSpec r) "ExportVM(bad format) must return ErrInvalidSpec"
    end.
Definition t_MigrateAndExport : T unit :=
  vms ← pickVMs;
  match vms with
  | None | Some [] => t_Skip
  | Some (v :: _) =>
      let id := vm_ID v in
      c ← has CapMigrate;
      _ ← (if negb c then
             r ← call (PMigrate id "h" (mkMigrateOptions false "")); unless (is_err ErrUnsupported r) "MigrateVM without cap must return ErrUnsupported"
           else
             hosts ← call QListHosts;
             match hosts with
             | Ok (h :: l) =>
                 r ← call (PMigrate id (host_ID (List.last l h)) (mkMigrateOptions true "")); unless (is_ok r) "MigrateVM failed"
             | _ => mret tt
             end);
      t_Export id
  end.

Definition t_ClusterTopology : T unit :=
  c ← has CapClusterTopology;
  if negb c then mret tt
  else
    cls ← call QListClusters;
    _ ← (match cls with
         | Ok (cl :: _) =>
             top ← call (QTopology (cl_ID cl));
             match top with
             | Err _ => t_Error "GetClusterTopology failed"
             | Ok top => unless (bool_decide (top_ClusterID top = cl_ID cl)) "topology cluster id mismatch"
             end
         | _ => mret tt
         end);
    r ← call (QTopology "missing-cluster"); unless (is_err ErrNotFound r) "GetClusterTopology(missing) must return ErrNotFound".
Definition t_NodeState : T unit :=
  c ← has CapNodeState;
  if negb c then mret tt
  else
    hosts ← call QListHosts;
    _ ← (match hosts with
         | Ok (h :: _) => r ← ask (ct_node (host_ID h) (now 0%nat)); unless (is_ok r) "NodeState failed"
         | _ => mret tt
         end);
    r ← ask (ct_node "missing-node" (now 0%nat)); unless (is_err ErrNotFound r) "NodeState(missing) must return ErrNotFound".
Definition t_ClusterTopologyAndNodeState : T unit := _ ← t_ClusterTopology; t_NodeState.

Definition t_Metrics : T unit :=
  vms ← pickVMs; c ← has CapMetrics;
  match c, vms with
  | true, Some (v :: _) =>
      ms ← call (QMetrics (vm_ID v) (mkWindow 0 0 10));
      _ ← (match ms with
           | Err _ => t_Error "GetMetrics failed"
           | Ok ms => unless (match ms.2 with [] => false | _ => true end) "GetMetrics returned no samples"
           end);
      r ← call (QMetrics "missing-entity" (mkWindow 0 0 0)); unless (is_err ErrNotFound r) "GetMetrics(missing) must return ErrNotFound"
  | _, _ => mret tt
  end.
(** The receiver leaves after the first event; [extra] more may have been sent. *)
Definition t_Events (extra : nat) : T unit :=
  e ← has CapEvents;
  if negb e then mret tt
  else
    evs ← ask (ct_events (S extra) (now 0%nat));
    match evs with
    | Err _ => t_Fatal "StreamEvents failed"
    | Ok evs =>
        id ← ask dv_ID;
        _ ← unless (forallb (fun ev => same (ev_ProviderID ev) id) evs) "event ProviderID";
        unless (match evs with [] => false | _ => true end) "StreamEvents produced no events before cancel"
    end.
Definition t_MetricsAndEvents (extra : nat) : T unit := _ ← t_Metrics; t_Events extra.

Definition t_Close : T unit := fun p =>
  let '(r, p) := ct_close p in (unless (is_ok r) "Close error" p).

(** Each subtest runs on a provider of its own. *)
Definition subtests (extra : nat) : list (string * T unit) :=
  [("Identity", t_Identity); ("HealthCheck", t_HealthCheck); ("Inventory", t_Inventory); ("GetVM", t_GetVM);
   ("PowerLifecycle", t_PowerLifecycle); ("CreateReconfigureDelete", t_CreateReconfigureDelete); ("Snapshots", t_Snapshots);
   ("Clone", t_Clone); ("MigrateAndExport", t_MigrateAndExport);
   ("ClusterTopologyAndNodeState", t_ClusterTopologyAndNodeState); ("MetricsAndEvents", t_MetricsAndEvents extra);
   ("CloseIsIdempotentEnough", t_Close)].
Definition RunConformance (extra : nat) (fresh : P) : list (string * list string) :=
  filter (fun t => t.2 <> []) ((fun t => (t.1, (t.2 fresh).1.1)) <$> subtests extra).
End Suite.
