(* ===== verification/ConformanceFacts.v ===== *)
(** * What the verdict of the suite depends on

    A provider reads its capabilities at the gates of its methods only, so that
    the verdict of a subtest depends on the few bits it gates on, and can be
    settled for every capability matrix by running it on the combinations of
    those bits. *)
From S2P Require Import Prelude GoStd VProvider VmApi Conformance.

(** The bit a method of the core interface is gated by. *)
Definition gates {A} (c : pcall A) : option (list Z) :=
  match c with
  | QListHosts => Some [CapListHosts]
  | QListVMs _ => Some [CapListVMs]
  | QGetVM _ => Some [CapGetVM]
  | QListClusters => Some [CapListClusters]
  | QListStorage => Some [CapListStorage]
  | QListNetworks => Some [CapListNetworks]
  | QListSnapshots _ => Some [CapSnapshot]
  | QTopology _ => Some [CapClusterTopology]
  | QMetrics _ _ => Some [CapMetrics]
  | PCreate _ => Some [CapCreateVM]
  | PPower _ o => Some [PowerOpCapability o]
  | PDelete _ _ => Some [CapDeleteVM]
  | PReconfigure _ _ => Some [CapReconfigureVM]
  | PSnapshot _ _ => Some [CapSnapshot]
  | PRevert _ _ => Some [CapRevertSnapshot]
  | PClone _ _ => Some [CapClone]
  | PMigrate _ _ _ => Some [CapMigrate]
  | _ => None
  end.

Definition agree (bits : list Z) (c1 c2 : Z) : Prop := forall k, k ∈ bits -> Has c1 k = Has c2 k.

(** A provider with other capabilities. *)
Class Recap (P : Type) := with_caps : Z -> P -> P.
(** The methods read the capabilities at their gates only. *)
Class Gated (P : Type) `{FullDriver P, Recap P} : Prop := {
  gd_twice c1 c2 p : with_caps c2 (with_caps c1 p) = with_caps c2 p;
  gd_caps c p : dv_Capabilities (with_caps c p) = c;
  gd_id c p : dv_ID (with_caps c p) = dv_ID p;
  gd_kind c p : dv_Kind (with_caps c p) = dv_Kind p;
  gd_call A (c : pcall A) l now p c2 : gates c = Some l -> agree l (dv_Capabilities p) c2 ->
    dv_call c now (with_caps c2 p) = ((dv_call c now p).1, with_caps c2 (dv_call c now p).2) /\
    dv_Capabilities (dv_call c now p).2 = dv_Capabilities p;
  gd_health now p c2 : ct_health now (with_caps c2 p) = ct_health now p;
  gd_close p c2 : (ct_close (with_caps c2 p)).1 = (ct_close p).1;
  gd_export vm fmt p c2 : agree [CapExport] (dv_Capabilities p) c2 ->
    ct_export vm fmt (with_caps c2 p) = ((ct_export vm fmt p).1, with_caps c2 (ct_export vm fmt p).2) /\
    dv_Capabilities (ct_export vm fmt p).2 = dv_Capabilities p;
  gd_node id now p c2 : agree [CapNodeState] (dv_Capabilities p) c2 -> ct_node id now (with_caps c2 p) = ct_node id now p;
  gd_events n now p c2 : agree [CapEvents] (dv_Capabilities p) c2 -> ct_events n now (with_caps c2 p) = ct_events n now p;
  gd_reads now p : (forall o, (dv_call (QListVMs o) now p).2 = p) /\ (forall id w, (dv_call (QMetrics id w) now p).2 = p) }.

Lemma agree_sub S1 S2 c1 c2 : (forall k, k ∈ S1 -> k ∈ S2) -> agree S2 c1 c2 -> agree S1 c1 c2.
Proof. intros Hs Ha k Hk. by apply Ha, Hs. Qed.

Section Blind.
Context {P : Type} `{Gated P} (now : nat -> time) (bits : list Z).

(** The computation sees the bits of [bits] only. *)
Definition blind {A} (m : T A) : Prop := forall (p : P) c2, agree bits (dv_Capabilities p) c2 ->
  m (with_caps c2 p) = ((m p).1, with_caps c2 (m p).2) /\ dv_Capabilities (m p).2 = dv_Capabilities p.

Lemma blind_same {A} (f : P -> list string * option A) : (forall p c2, agree bits (dv_Capabilities p) c2 -> f (with_caps c2 p) = f p) ->
  blind (fun p => (f p, p)).
Proof. intros Hf p c2 Ha. simpl. by rewrite Hf. Qed.
Lemma blind_ret {A} (a : A) : blind (mret (MRet := T_ret) a).
Proof. by apply (blind_same (fun _ => ([], Some a))). Qed.
Lemma blind_bind {A B} (m : T A) (k : A -> T B) : blind m -> (forall a, blind (k a)) -> blind (mbind (MBind := T_bind) k m).
Proof.
  intros Hm Hk p c2 Ha. unfold mbind, T_bind. destruct (Hm p c2 Ha) as [-> Hc].
  destruct (m p) as [[e [a|]] q]; simpl in *; [|done]. destruct (Hk a q c2) as [-> Hc2]; [by rewrite Hc|].
  destruct (k a q) as [[e' b] r]. simpl in *. by rewrite Hc2, Hc.
Qed.
Lemma blind_error msg : blind (t_Error msg).
Proof. by apply (blind_same (fun _ => ([msg], Some tt))). Qed.
Lemma blind_fatal {A} msg : blind (t_Fatal msg : T A).
Proof. by apply (blind_same (fun _ => ([msg], None))). Qed.
Lemma blind_skip {A} : blind (t_Skip : T A).
Proof. by apply (blind_same (fun _ => ([], None))). Qed.
Lemma blind_unless b msg : blind (unless b msg).
Proof. unfold unless. destruct b; [apply blind_ret|apply blind_error]. Qed.
Lemma blind_id : blind (ask dv_ID).
Proof. apply (blind_same (fun p => ([], Some (dv_ID p)))). intros p c2 _. by rewrite gd_id. Qed.
Lemma blind_kind : blind (ask dv_Kind).
Proof. apply (blind_same (fun p => ([], Some (dv_Kind p)))). intros p c2 _. by rewrite gd_kind. Qed.
Lemma blind_has cap : cap ∈ bits -> blind (has cap).
Proof. intros Hc. apply (blind_same (fun p => ([], Some (Has (dv_Capabilities p) cap)))). intros p c2 Ha. by rewrite gd_caps, (Ha cap). Qed.
Lemma blind_call {A} (c : pcall A) l : gates c = Some l -> (forall k, k ∈ l -> k ∈ bits) -> blind (call now c).
Proof.
  intros Hg Hl p c2 Ha. destruct (gd_call A c l now p c2 Hg (agree_sub _ _ _ _ Hl Ha)) as [E Hc].
  unfold call. rewrite E. by destruct (dv_call c now p).
Qed.
Lemma blind_export vm fmt : CapExport ∈ bits -> blind (export vm fmt).
Proof.
  intros Hs p c2 Ha. destruct (gd_export vm fmt p c2) as [E Hc].
  { eapply agree_sub; [|exact Ha]. intros k. by intros ->%list_elem_of_singleton. }
  unfold export. rewrite E. by destruct (ct_export vm fmt p).
Qed.
Lemma blind_node id t : CapNodeState ∈ bits -> blind (ask (ct_node id t)).
Proof.
  intros Hs. apply (blind_same (fun p => ([], Some (ct_node id t p)))). intros p c2 Ha. rewrite gd_node; [done|].
  eapply agree_sub; [|exact Ha]. intros k. by intros ->%list_elem_of_singleton.
Qed.
Lemma blind_events n t : CapEvents ∈ bits -> blind (ask (ct_events n t)).
Proof.
  intros Hs. apply (blind_same (fun p => ([], Some (ct_events n t p)))). intros p c2 Ha. rewrite gd_events; [done|].
  eapply agree_sub; [|exact Ha]. intros k. by intros ->%list_elem_of_singleton.
Qed.
Lemma blind_health t : blind (ask (ct_health t)).
Proof. apply (blind_same (fun p => ([], Some (ct_health t p)))). intros p c2 _. by rewrite gd_health. Qed.
End Blind.

(** ** Settling a subtest *)

(** The combinations of the bits of [bits], and the one that a matrix amounts to. *)
Fixpoint combinations (bits : list Z) : list Z :=
  match bits with [] => [0] | k :: bits => let r := combinations bits in r ++ (Z.lor k <$> r) end.
Definition canon (bits : list Z) (caps : Z) : Z := foldr (fun k acc => if Has caps k then Z.lor k acc else acc) 0 bits.

Lemma canon_in bits caps : canon bits caps ∈ combinations bits.
Proof.
  induction bits as [|k bits IH]; simpl; [by left|]. apply elem_of_app. destruct (Has caps k); [right|by left].
  apply list_elem_of_fmap. by eexists.
Qed.

Definition passes {P} (m : T (P := P) unit) (p : P) : bool := match (m p).1.1 with [] => true | _ => false end.

Lemma settle `{Gated P} bits (m : T unit) (side : Z -> bool) p caps :
  blind bits m -> agree bits caps (canon bits caps) -> side (canon bits caps) = true ->
  forallb (fun c => implb (side c) (passes m (with_caps c p))) (combinations bits) = true ->
  passes m (with_caps caps p) = true.
Proof.
  intros Hb Ha Hs Hall. rewrite forallb_forall in Hall.
  specialize (Hall (canon bits caps) ltac:(apply list_elem_of_In, canon_in)). rewrite Hs in Hall. simpl in Hall.
  destruct (Hb (with_caps caps p) (canon bits caps)) as [E _]; [by rewrite gd_caps|].
  rewrite gd_twice in E. unfold passes in *. by rewrite E in Hall.
Qed.

(** ** The bits each subtest gates on *)

Definition bits_Inventory := [CapListHosts; CapListVMs; CapListClusters; CapListStorage; CapListNetworks].
Definition bits_GetVM := [CapGetVM; CapListVMs].
Definition bits_Power := [CapListVMs; CapPowerStart; CapPowerStop; CapPowerReset; CapPowerSuspend; 0].
Definition bits_Create := [CapCreateVM; CapListVMs; CapReconfigureVM; CapGetVM; CapDeleteVM].
Definition bits_Snapshots := [CapListVMs; CapSnapshot; CapRevertSnapshot].
Definition bits_Clone := [CapListVMs; CapClone].
Definition bits_Migrate := [CapListVMs; CapListHosts; CapMigrate; CapExport].
Definition bits_Cluster := [CapClusterTopology; CapListClusters; CapNodeState; CapListHosts].
Definition bits_Metrics := [CapListVMs; CapMetrics].

Ltac in_bits := apply (bool_decide_unpack _); vm_compute; exact I.
Ltac blind :=
  repeat first
    [ apply blind_ret | apply blind_error | apply blind_fatal | apply blind_skip | apply blind_unless
    | apply blind_id | apply blind_kind | apply blind_health
    | apply blind_has; in_bits | apply blind_export; in_bits | apply blind_node; in_bits | apply blind_events; in_bits
    | eapply blind_call; [reflexivity|intros ? ->%list_elem_of_singleton; in_bits]
    | apply blind_bind; [|intros ?]
    | progress cbv zeta
    | match goal with |- blind _ (match ?x with _ => _ end) => destruct x end ].

Section Subtests.
Context {P : Type} `{Gated P} (now : nat -> time).

Lemma blind_Identity : blind [] (t_Identity (P := P)).
Proof. unfold t_Identity. blind. Qed.
Lemma blind_HealthCheck : blind [] (t_HealthCheck now).
Proof. unfold t_HealthCheck. blind. Qed.
Lemma blind_Inventory : blind bits_Inventory (t_Inventory now).
Proof. unfold t_Inventory, check_vms, gateList, all_vms. blind. Qed.
Lemma blind_GetVM : blind bits_GetVM (t_GetVM now).
Proof. unfold t_GetVM, all_vms. blind. Qed.
Lemma blind_Power : blind bits_Power (t_PowerLifecycle now).
Proof. unfold t_PowerLifecycle, pickVMs. cbn [power_ops]. blind. Qed.
Lemma blind_Create : blind bits_Create (t_CreateReconfigureDelete now).
Proof. unfold t_CreateReconfigureDelete, t_Reconfigure, t_Delete, all_vms. blind. Qed.
Lemma blind_Snapshots : blind bits_Snapshots (t_Snapshots now).
Proof. unfold t_Snapshots, pickVMs. blind. Qed.
Lemma blind_Clone : blind bits_Clone (t_Clone now).
Proof. unfold t_Clone, pickVMs. blind. Qed.
Lemma blind_Migrate : blind bits_Migrate (t_MigrateAndExport now).
Proof. unfold t_MigrateAndExport, t_Export, pickVMs. blind. Qed.
Lemma blind_Cluster : blind bits_Cluster (t_ClusterTopologyAndNodeState now).
Proof. unfold t_ClusterTopologyAndNodeState, t_ClusterTopology, t_NodeState. blind. Qed.
Lemma blind_Metrics : blind bits_Metrics (t_Metrics now).
Proof. unfold t_Metrics, pickVMs. blind. Qed.

(** *** The subtests that no combination of bits settles *)

(** A computation that leaves the provider as it was and goes on to its end. *)
Definition reads {A} (m : T A) : Prop := forall p : P, (m p).2 = p /\ exists a, (m p).1.2 = Some a.
Lemma reads_bind {A B} (m : T A) (k : A -> T B) : reads m -> (forall a, reads (k a)) -> reads (mbind (MBind := T_bind) k m).
Proof.
  intros Hm Hk p. unfold mbind, T_bind. destruct (Hm p) as [Hq [a Ho]]. destruct (m p) as [[e o] q]. simpl in *. subst.
  destruct (Hk a p) as [Hq [b Ho]]. destruct (k a p) as [[e' o] q]. simpl in *. eauto.
Qed.
Lemma reads_unless b msg : reads (unless b msg).
Proof. intros p. destruct b; simpl; eauto. Qed.
Lemma reads_call {A} (c : pcall A) : (forall p, (dv_call c now p).2 = p) -> reads (call now c).
Proof. intros Hc p. specialize (Hc p). unfold call. destruct (dv_call c now p) as [r q]. simpl in *. eauto. Qed.
Lemma reads_Metrics : reads (t_Metrics now).
Proof.
  unfold t_Metrics, pickVMs.
  repeat first
    [ apply reads_unless | apply reads_call; intros p; apply (gd_reads now p) | apply reads_bind; [|intros ?]
    | by intros ?; simpl; eauto | progress cbv zeta
    | match goal with |- reads (match ?x with _ => _ end) => destruct x end ].
Qed.

(** The first events of the stream are there and name the provider. *)
Definition streams (extra : nat) (p : P) : Prop :=
  exists e es, ct_events (S extra) (now 0%nat) p = Ok (e :: es) /\ Forall (fun e => ev_ProviderID e = dv_ID p) (e :: es).
Lemma pass_Events extra p caps : Has (dv_Capabilities p) CapEvents = true -> streams extra p ->
  passes (t_Events now extra) (with_caps caps p) = true.
Proof.
  intros Hp (e & es & Hev & Hall). unfold passes, t_Events, mbind, T_bind, has, ask. rewrite gd_caps.
  destruct (Has caps CapEvents) eqn:Hc; [|done]. cbn [negb]. rewrite gd_events, Hev, gd_id.
  - assert (forallb (fun ev => same (ev_ProviderID ev) (dv_ID p)) (e :: es) = true) as Hf.
    { rewrite Forall_forall in Hall. apply forallb_forall. intros x Hx%list_elem_of_In. unfold same.
      by apply bool_decide_eq_true, Hall. }
    by rewrite Hf.
  - intros k ->%list_elem_of_singleton. by rewrite Hp, Hc.
Qed.
Lemma pass_MetricsAndEvents extra p : passes (t_Metrics now) p = true -> passes (t_Events now extra) p = true ->
  passes (t_MetricsAndEvents now extra) p = true.
Proof.
  unfold passes, t_MetricsAndEvents, mbind, T_bind. destruct (reads_Metrics p) as [Hq [a Ho]].
  destruct (t_Metrics now p) as [[e o] q]. simpl in *. subst. destruct (t_Events now extra p) as [[e' o] q]. simpl. by destruct e.
Qed.

(** ** A provider conforms when it passes on every combination *)

Definition ok_all (bits : list Z) (m : T unit) (side : Z -> bool) (p : P) : bool :=
  forallb (fun c => implb (side c) (passes m (with_caps c p))) (combinations bits).
Definition listable (caps : Z) : bool := implb (Has caps CapCreateVM) (Has caps CapListVMs).
Definition always (caps : Z) : bool := true.

Definition suite_ok (p : P) : bool :=
  ok_all [] t_Identity always p && ok_all bits_Inventory (t_Inventory now) always p &&
  ok_all bits_GetVM (t_GetVM now) always p && ok_all bits_Power (t_PowerLifecycle now) always p &&
  ok_all bits_Create (t_CreateReconfigureDelete now) listable p && ok_all bits_Snapshots (t_Snapshots now) always p &&
  ok_all bits_Clone (t_Clone now) always p && ok_all bits_Migrate (t_MigrateAndExport now) always p &&
  ok_all bits_Cluster (t_ClusterTopologyAndNodeState now) always p && ok_all bits_Metrics (t_Metrics now) always p &&
  passes t_Close p.

Lemma passes_filter p (l : list (string * T (P := P) unit)) : Forall (fun t => passes t.2 p = true) l ->
  filter (fun t => t.2 <> []) ((fun t => (t.1, (t.2 p).1.1)) <$> l) = [].
Proof.
  induction 1 as [|[n m] l Hm _ IH]; [done|]. rewrite fmap_cons, filter_cons_False; [done|].
  simpl in *. unfold passes in Hm. destruct ((m p).1.1); naive_solver.
Qed.

(** A matrix agrees with the combination it amounts to. *)
Ltac canonical :=
  let k := fresh "k" in let Hk := fresh "Hk" in
  match goal with |- agree ?b _ _ => try unfold b end; unfold agree, canon; cbn [foldr];
  repeat match goal with |- context [Has ?c ?b] => let E := fresh "E" in destruct (Has c b) eqn:E end;
  intros k Hk; repeat (apply elem_of_cons in Hk as [->|Hk]); try (by apply not_elem_of_nil in Hk);
  first [etransitivity; [eassumption|vm_compute; reflexivity] | by unfold Has in *; rewrite Z.land_0_r in *].

Lemma conforms extra p caps : suite_ok p = true -> passes (t_HealthCheck now) (with_caps 0 p) = true -> listable caps = true ->
  Has (dv_Capabilities p) CapEvents = true -> streams extra p -> RunConformance now extra (with_caps caps p) = [].
Proof.
  unfold suite_ok. rewrite !andb_true_iff. intros Hok Hh Hl Hev Hs. destruct_and! Hok.
  unfold RunConformance. apply passes_filter. unfold subtests.
  repeat constructor; cbn [snd].
  - eapply (settle [] _ always); [apply blind_Identity|canonical|done|done].
  - eapply (settle [] _ always); [apply blind_HealthCheck|canonical|done|]. simpl. by rewrite Hh.
  - eapply (settle _ _ always); [apply blind_Inventory|canonical|done|done].
  - eapply (settle _ _ always); [apply blind_GetVM|canonical|done|done].
  - eapply (settle _ _ always); [apply blind_Power|canonical|done|done].
  - eapply (settle _ _ listable); [apply blind_Create|canonical| |done]. unfold listable in *.
    assert (agree bits_Create caps (canon bits_Create caps)) as Ha by canonical. rewrite <- !Ha; [done|in_bits..].
  - eapply (settle _ _ always); [apply blind_Snapshots|canonical|done|done].
  - eapply (settle _ _ always); [apply blind_Clone|canonical|done|done].
  - eapply (settle _ _ always); [apply blind_Migrate|canonical|done|done].
  - eapply (settle _ _ always); [apply blind_Cluster|canonical|done|done].
  - apply pass_MetricsAndEvents; [|by apply pass_Events].
    eapply (settle _ _ always); [apply blind_Metrics|canonical|done|done].
  - unfold passes, t_Close in *. pose proof (gd_close p caps) as E.
    destruct (ct_close (with_caps caps p)) as [r q], (ct_close p) as [r' q']. simpl in E. subst r'. by destruct r.
Qed.
End Subtests.
