(* ===== verification/ConformanceProps.v ===== *)
(** * Every driver passes the conformance suite

    The rest of the interface for each driver, that each reads its capabilities
    at its gates only, and the suite run on the providers of the default build. *)
From S2P Require Import Prelude GoStd VProvider VmApi VmDrivers Sim Kvm DriverKit Xen Esxi Hyperv Conformance ConformanceFacts SimFacts KvmFacts VmStore.

(** ** The three other drivers under the VM surface

    The Xen, ESXi and Hyper-V drivers as instances of [Driver], over any backend:
    they implement the core interface and none of the optional ones. *)

Definition drv_res {A} (r : result kerr A) : result prov_err A := match r with Ok a => Ok a | Err e => Err (of_kerr e) end.
Definition drv_ret {B A} (r : result kerr A * drv B) : result prov_err A * drv B := (drv_res r.1, r.2).

(** ** Xen (xen/xen.go) *)

Section Xen.
Context {B : Type} `{Xen.xapiBackend B}.
Definition xen_call {A} (c : pcall A) (now : nat -> time) (p : drv B) : result prov_err A * drv B :=
  let t := now 0%nat in
  match c in pcall A return result prov_err A * drv B with
  | QListHosts => (drv_res (Xen.ListHosts p), p)
  | QListVMs o => (drv_res (Xen.ListVMs o p), p)
  | QGetVM vm => (drv_res (Xen.GetVM vm p), p)
  | QListClusters => (drv_res (Xen.ListClusters p), p)
  | QListStorage => (drv_res (Xen.ListStorage p), p)
  | QListNetworks => (drv_res (Xen.ListNetworks p), p)
  | QListSnapshots vm => (drv_res (Xen.ListSnapshots vm p), p)
  | QTopology c => (drv_res (Xen.GetClusterTopology c now p), p)
  | QMetrics vm w => (drv_res (Xen.GetMetrics vm w t p), p)
  | PCreate spec => drv_ret (Xen.CreateVM spec t (now 1%nat) p)
  | PPower vm o => drv_ret (Xen.PowerOp vm o t p)
  | PDelete vm o => drv_ret (Xen.DeleteVM vm o t p)
  | PReconfigure vm spec => drv_ret (Xen.ReconfigureVM vm spec t p)
  | PSnapshot vm o => drv_ret (Xen.CreateSnapshot vm o t (now 1%nat) p)
  | PRevert vm s => drv_ret (Xen.RevertSnapshot vm s t p)
  | PClone vm spec => drv_ret (Xen.Clone vm spec t p)
  | PMigrate vm h o => drv_ret (Xen.MigrateVM vm h o t p)
  | QConsole _ | QListVolumes _ | QGuestInfo _ | PCreateNetwork _ | PDeleteNetwork _ | PCreateVolume _ | PDeleteVolume _ _
  | PUploadISO _ _ _ _ | PAttachDisk _ _ | PDetachDisk _ _ | PAttachNIC _ _ | PDetachNIC _ _ | PMountISO _ _ | PUnmountISO _
  | PDeleteSnapshot _ _ | PResizeDisk _ _ _ | PMarkTemplate _ _ | PSetResources _ _ | PSetDiskQoS _ _ _
  | PMigrateStorage _ _ _ | PEnterMaintenance _ _ | PExitMaintenance _ => absent p
  end.
Definition xen_driver : Driver (drv B) := {|
  dv_Kind := dr_kind; dv_ID := dr_id; dv_Capabilities := dr_caps; dv_implements _ _ := false; dv_call A := @xen_call A |}.
Lemma xen_driver_laws : @DriverLaws (drv B) xen_driver.
Proof. constructor. by intros A []. Qed.
End Xen.

(** ** VMware (esxi/esxi.go) *)

Section Esxi.
Context {B : Type} `{Esxi.vsphereBackend B}.
Definition esxi_call {A} (c : pcall A) (now : nat -> time) (p : drv B) : result prov_err A * drv B :=
  let t := now 0%nat in
  match c in pcall A return result prov_err A * drv B with
  | QListHosts => (drv_res (Esxi.ListHosts p), p)
  | QListVMs o => (drv_res (Esxi.ListVMs o p), p)
  | QGetVM vm => (drv_res (Esxi.GetVM vm p), p)
  | QListClusters => (drv_res (Esxi.ListClusters p), p)
  | QListStorage => (drv_res (Esxi.ListStorage p), p)
  | QListNetworks => (drv_res (Esxi.ListNetworks p), p)
  | QListSnapshots vm => (drv_res (Esxi.ListSnapshots vm p), p)
  | QTopology c => (drv_res (Esxi.GetClusterTopology c now p), p)
  | QMetrics vm w => (drv_res (Esxi.GetMetrics vm w t p), p)
  | PCreate spec => drv_ret (Esxi.CreateVM spec t (now 1%nat) p)
  | PPower vm o => drv_ret (Esxi.PowerOp vm o t p)
  | PDelete vm o => drv_ret (Esxi.DeleteVM vm o t p)
  | PReconfigure vm spec => drv_ret (Esxi.ReconfigureVM vm spec t p)
  | PSnapshot vm o => drv_ret (Esxi.CreateSnapshot vm o t (now 1%nat) p)
  | PRevert vm s => drv_ret (Esxi.RevertSnapshot vm s t p)
  | PClone vm spec => drv_ret (Esxi.Clone vm spec t p)
  | PMigrate vm h o => drv_ret (Esxi.MigrateVM vm h o t p)
  | QConsole _ | QListVolumes _ | QGuestInfo _ | PCreateNetwork _ | PDeleteNetwork _ | PCreateVolume _ | PDeleteVolume _ _
  | PUploadISO _ _ _ _ | PAttachDisk _ _ | PDetachDisk _ _ | PAttachNIC _ _ | PDetachNIC _ _ | PMountISO _ _ | PUnmountISO _
  | PDeleteSnapshot _ _ | PResizeDisk _ _ _ | PMarkTemplate _ _ | PSetResources _ _ | PSetDiskQoS _ _ _
  | PMigrateStorage _ _ _ | PEnterMaintenance _ _ | PExitMaintenance _ => absent p
  end.
Definition esxi_driver : Driver (drv B) := {|
  dv_Kind := dr_kind; dv_ID := dr_id; dv_Capabilities := dr_caps; dv_implements _ _ := false; dv_call A := @esxi_call A |}.
Lemma esxi_driver_laws : @DriverLaws (drv B) esxi_driver.
Proof. constructor. by intros A []. Qed.
End Esxi.

(** ** Hyper-V (hyperv/provider.go) *)

Section Hyperv.
Context {B : Type} `{Hyperv.wmiBackend B}.
Definition hyperv_call {A} (c : pcall A) (now : nat -> time) (p : drv B) : result prov_err A * drv B :=
  let t := now 0%nat in
  match c in pcall A return result prov_err A * drv B with
  | QListHosts => (drv_res (Hyperv.ListHosts p), p)
  | QListVMs o => (drv_res (Hyperv.ListVMs o p), p)
  | QGetVM vm => (drv_res (Hyperv.GetVM vm p), p)
  | QListClusters => (drv_res (Hyperv.ListClusters p), p)
  | QListStorage => (drv_res (Hyperv.ListStorage p), p)
  | QListNetworks => (drv_res (Hyperv.ListNetworks p), p)
  | QListSnapshots vm => (drv_res (Hyperv.ListSnapshots vm p), p)
  | QTopology c => (drv_res (Hyperv.GetClusterTopology c now p), p)
  | QMetrics vm w => (drv_res (Hyperv.GetMetrics vm w t p), p)
  | PCreate spec => drv_ret (Hyperv.CreateVM spec t (now 1%nat) p)
  | PPower vm o => drv_ret (Hyperv.PowerOp vm o t p)
  | PDelete vm o => drv_ret (Hyperv.DeleteVM vm o t p)
  | PReconfigure vm spec => drv_ret (Hyperv.ReconfigureVM vm spec t p)
  | PSnapshot vm o => drv_ret (Hyperv.CreateSnapshot vm o t (now 1%nat) p)
  | PRevert vm s => drv_ret (Hyperv.RevertSnapshot vm s t p)
  | PClone vm spec => drv_ret (Hyperv.Clone vm spec t p)
  | PMigrate vm h o => drv_ret (Hyperv.MigrateVM vm h o t p)
  | QConsole _ | QListVolumes _ | QGuestInfo _ | PCreateNetwork _ | PDeleteNetwork _ | PCreateVolume _ | PDeleteVolume _ _
  | PUploadISO _ _ _ _ | PAttachDisk _ _ | PDetachDisk _ _ | PAttachNIC _ _ | PDetachNIC _ _ | PMountISO _ _ | PUnmountISO _
  | PDeleteSnapshot _ _ | PResizeDisk _ _ _ | PMarkTemplate _ _ | PSetResources _ _ | PSetDiskQoS _ _ _
  | PMigrateStorage _ _ _ | PEnterMaintenance _ _ | PExitMaintenance _ => absent p
  end.
Definition hyperv_driver : Driver (drv B) := {|
  dv_Kind := dr_kind; dv_ID := dr_id; dv_Capabilities := dr_caps; dv_implements _ _ := false; dv_call A := @hyperv_call A |}.
Lemma hyperv_driver_laws : @DriverLaws (drv B) hyperv_driver.
Proof. constructor. by intros A []. Qed.
End Hyperv.

(** The model backends of the default build. *)
#[export] Instance xen_sim_driver : Driver (drv Xen.simBackend) := xen_driver.
#[export] Instance esxi_sim_driver : Driver (drv Esxi.simBackend) := esxi_driver.
#[export] Instance hyperv_sim_driver : Driver (drv Hyperv.simBackend) := hyperv_driver.
#[export] Instance xen_sim_laws : DriverLaws (drv Xen.simBackend) := xen_driver_laws.
#[export] Instance esxi_sim_laws : DriverLaws (drv Esxi.simBackend) := esxi_driver_laws.
#[export] Instance hyperv_sim_laws : DriverLaws (drv Hyperv.simBackend) := hyperv_driver_laws.

(** A fleet of every kind: what a registry of the default build holds. *)
Definition fleet : Type := sim + (Kvm.kvm Kvm.simBackend + (drv Xen.simBackend + (drv Esxi.simBackend + drv Hyperv.simBackend))).
Definition fleet_driver : Driver fleet := _.
Definition fleet_laws : DriverLaws fleet := _.

(** ** Every driver passes the conformance suite

    The rest of the interface for each driver, that each reads its capabilities
    at its gates only, and the suite run on the providers of the default build. *)

Definition drv_with_caps {B} (c : Z) (p : drv B) : drv B :=
  mkDrv (dr_id p) (dr_kind p) c (dr_clusterID p) (dr_backend p) (dr_tracker p) (dr_seq p) (dr_closed p).

#[export] Instance xen_full : FullDriver (drv Xen.simBackend) := {|
  ct_health := Xen.HealthCheck;
  ct_close p := drv_ret (Xen.Close p);
  ct_export vm fmt p := drv_ret (Xen.ExportVM vm fmt p);
  ct_node id now p := drv_res (Xen.GetNodeState id now p);
  ct_events n now p := match Xen.StreamEvents now p with Ok l => Ok (take n l) | Err e => Err (of_kerr e) end |}.

#[export] Instance esxi_full : FullDriver (drv Esxi.simBackend) := {|
  ct_health := Esxi.HealthCheck;
  ct_close p := drv_ret (Esxi.Close p);
  ct_export vm fmt p := drv_ret (Esxi.ExportVM vm fmt p);
  ct_node id now p := drv_res (Esxi.GetNodeState id now p);
  ct_events n now p := match Esxi.StreamEvents now p with Ok l => Ok (take n l) | Err e => Err (of_kerr e) end |}.

#[export] Instance hyperv_full : FullDriver (drv Hyperv.simBackend) := {|
  ct_health := Hyperv.HealthCheck;
  ct_close p := drv_ret (Hyperv.Close p);
  ct_export vm fmt p := drv_ret (Hyperv.ExportVM vm fmt p);
  ct_node id now p := drv_res (Hyperv.GetNodeState id now p);
  ct_events n now p := match Hyperv.StreamEvents now p with Ok l => Ok (take n l) | Err e => Err (of_kerr e) end |}.

(** A gated method: the same code on the two sides of its gate. *)
Ltac same_code :=
  simpl; unfold backend_do; simpl; repeat first [done | rewrite !finishTask_eq; done | case_match; simplify_eq/=; unfold backend_do].

#[export] Instance xen_recap : Recap (drv Xen.simBackend) := drv_with_caps.
#[export] Instance xen_gated : Gated (drv Xen.simBackend).
Proof.
  split; unfold with_caps, xen_recap; try done.
  - intros A c l now p c2 Hg Ha. destruct c; simplify_eq/=; specialize (Ha _ ltac:(by left)); simpl in Ha;
      unfold xen_call, drv_ret, Xen.ListHosts, Xen.ListVMs, Xen.GetVM, Xen.ListClusters, Xen.ListStorage, Xen.ListNetworks,
        Xen.ListSnapshots, Xen.GetClusterTopology, Xen.GetMetrics, listing, Xen.CreateVM, Xen.PowerOp, Xen.DeleteVM,
        Xen.ReconfigureVM, Xen.CreateSnapshot, Xen.RevertSnapshot, Xen.Clone, Xen.MigrateVM, gated, with_vm, backend_do, nextID,
        dfail, Xen.assign, newRef;
      cbn [dr_caps drv_with_caps]; rewrite <- Ha; same_code.
  - intros p c2. simpl. unfold drv_ret, Xen.Close, close_with. simpl. by destruct (dr_closed p).
  - intros vm fmt p c2 Ha. specialize (Ha _ ltac:(by left)). simpl in *. unfold drv_ret, Xen.ExportVM, gated, with_vm, dfail.
    cbn [dr_caps drv_with_caps]. rewrite <- Ha. same_code.
  - intros id now p c2 Ha. specialize (Ha _ ltac:(by left)). simpl in *. unfold Xen.GetNodeState.
    cbn [dr_caps drv_with_caps]. by rewrite <- Ha.
  - intros n now p c2 Ha. specialize (Ha _ ltac:(by left)). simpl in *. unfold Xen.StreamEvents.
    cbn [dr_caps drv_with_caps]. by rewrite <- Ha.
Qed.

#[export] Instance esxi_recap : Recap (drv Esxi.simBackend) := drv_with_caps.
#[export] Instance esxi_gated : Gated (drv Esxi.simBackend).
Proof.
  split; unfold with_caps, esxi_recap; try done.
  - intros A c l now p c2 Hg Ha. destruct c; simplify_eq/=; specialize (Ha _ ltac:(by left)); simpl in Ha;
      unfold esxi_call, drv_ret, Esxi.ListHosts, Esxi.ListVMs, Esxi.GetVM, Esxi.ListClusters, Esxi.ListStorage, Esxi.ListNetworks,
        Esxi.ListSnapshots, Esxi.GetClusterTopology, Esxi.GetMetrics, listing, Esxi.CreateVM, Esxi.PowerOp, Esxi.DeleteVM,
        Esxi.ReconfigureVM, Esxi.CreateSnapshot, Esxi.RevertSnapshot, Esxi.Clone, Esxi.MigrateVM, gated, with_vm, backend_do, nextID,
        dfail, Esxi.assign;
      cbn [dr_caps drv_with_caps]; rewrite <- Ha; same_code.
  - intros p c2. simpl. unfold drv_ret, Esxi.Close, close_with. simpl. by destruct (dr_closed p).
  - intros vm fmt p c2 Ha. specialize (Ha _ ltac:(by left)). simpl in *. unfold drv_ret, Esxi.ExportVM, gated, with_vm, dfail.
    cbn [dr_caps drv_with_caps]. rewrite <- Ha. same_code.
  - intros id now p c2 Ha. specialize (Ha _ ltac:(by left)). simpl in *. unfold Esxi.GetNodeState.
    cbn [dr_caps drv_with_caps]. by rewrite <- Ha.
  - intros n now p c2 Ha. specialize (Ha _ ltac:(by left)). simpl in *. unfold Esxi.StreamEvents.
    cbn [dr_caps drv_with_caps]. by rewrite <- Ha.
Qed.

#[export] Instance hyperv_recap : Recap (drv Hyperv.simBackend) := drv_with_caps.
#[export] Instance hyperv_gated : Gated (drv Hyperv.simBackend).
Proof.
  split; unfold with_caps, hyperv_recap; try done.
  - intros A c l now p c2 Hg Ha. destruct c; simplify_eq/=; specialize (Ha _ ltac:(by left)); simpl in Ha;
      unfold hyperv_call, drv_ret, Hyperv.ListHosts, Hyperv.ListVMs, Hyperv.GetVM, Hyperv.ListClusters, Hyperv.ListStorage, Hyperv.ListNetworks,
        Hyperv.ListSnapshots, Hyperv.GetClusterTopology, Hyperv.GetMetrics, listing, Hyperv.CreateVM, Hyperv.PowerOp, Hyperv.DeleteVM,
        Hyperv.ReconfigureVM, Hyperv.CreateSnapshot, Hyperv.RevertSnapshot, Hyperv.Clone, Hyperv.MigrateVM, gated, with_vm, backend_do, nextID,
        dfail, Hyperv.assign;
      cbn [dr_caps drv_with_caps]; rewrite <- Ha; same_code.
  - intros p c2. simpl. unfold drv_ret, Hyperv.Close, close_with. simpl. by destruct (dr_closed p).
  - intros vm fmt p c2 Ha. specialize (Ha _ ltac:(by left)). simpl in *. unfold drv_ret, Hyperv.ExportVM, gated, with_vm, dfail.
    cbn [dr_caps drv_with_caps]. rewrite <- Ha. same_code.
  - intros id now p c2 Ha. specialize (Ha _ ltac:(by left)). simpl in *. unfold Hyperv.GetNodeState.
    cbn [dr_caps drv_with_caps]. by rewrite <- Ha.
  - intros n now p c2 Ha. specialize (Ha _ ltac:(by left)). simpl in *. unfold Hyperv.StreamEvents.
    cbn [dr_caps drv_with_caps]. by rewrite <- Ha.
Qed.

(** ** The KVM driver and the simulator *)

Definition kvm_with_caps (c : Z) (p : kvm_sim) : kvm_sim :=
  mkKvm (k_id p) (k_kind p) c (k_clusterID p) (k_backend p) (k_tracker p) (k_seq p) (k_closed p) (k_maint p).
#[export] Instance kvm_full : FullDriver (kvm Kvm.simBackend) := {|
  ct_health := Kvm.HealthCheck;
  ct_close p := kvm_ret (Kvm.Close p);
  ct_export vm fmt p := kvm_ret (Kvm.ExportVM vm fmt p);
  ct_node id now p := kvm_res (Kvm.GetNodeState id now p);
  ct_events n now p :=
    if negb (Has (k_caps p) CapEvents) then Err (of_kerr (Sentinel ErrUnsupported))
    else Ok (take n (streamSnapshotEvents now p)) |}.
Ltac kvm_same :=
  simpl; repeat first [done | rewrite !kvm_finishTask_eq; done | case_match; simplify_eq/=].
#[export] Instance kvm_recap : Recap (kvm Kvm.simBackend) := kvm_with_caps.
#[export] Instance kvm_gated : Gated (kvm Kvm.simBackend).
Proof.
  split; unfold with_caps, kvm_recap; try done.
  - intros A c l now p c2 Hg Ha. destruct c; simplify_eq/=; specialize (Ha _ ltac:(by left)); simpl in Ha;
      unfold kvm_call, kvm_ret, Kvm.ListHosts, Kvm.ListVMs, Kvm.GetVM, Kvm.ListClusters, Kvm.ListStorage, Kvm.ListNetworks,
        Kvm.ListSnapshots, Kvm.GetClusterTopology, Kvm.GetMetrics, Kvm.listing, Kvm.CreateVM, Kvm.PowerOp, Kvm.DeleteVM,
        Kvm.ReconfigureVM, reconfigure_devices, reconfigure_resources, reconfigure_labels, Kvm.CreateSnapshot, Kvm.RevertSnapshot,
        Kvm.Clone, Kvm.MigrateVM, Kvm.gated, with_domain, backend_call, Kvm.nextID, kfail, Kvm.assign, power_call;
      cbn [k_caps kvm_with_caps]; rewrite <- Ha; kvm_same.
  - intros p c2. simpl. unfold kvm_ret, Kvm.Close. simpl. by destruct (k_closed p).
  - intros vm fmt p c2 Ha. specialize (Ha _ ltac:(by left)). simpl in *. unfold kvm_ret, Kvm.ExportVM, Kvm.gated, with_domain, kfail.
    cbn [k_caps kvm_with_caps]. rewrite <- Ha. kvm_same.
  - intros id now p c2 Ha. specialize (Ha _ ltac:(by left)). simpl in *. unfold Kvm.GetNodeState.
    cbn [k_caps kvm_with_caps]. by rewrite <- Ha.
  - intros n now p c2 Ha. specialize (Ha _ ltac:(by left)). simpl in *. by rewrite <- Ha.
Qed.

Definition sim_with_caps (c : Z) (p : sim) : sim :=
  mkSim (sim_id p) (sim_kind p) c (sim_hosts p) (sim_vms p) (sim_clusters p) (sim_storage p) (sim_networks p)
    (sim_snapshots p) (sim_volumes p) (sim_tracker p) (sim_seq p) (sim_closed p).
#[export] Instance sim_full : FullDriver sim := {|
  ct_health := Sim.HealthCheck;
  ct_close p := (Ok tt, Sim.Close p);
  ct_export vm fmt p := (match Sim.ExportVM vm fmt p with Ok (s, i) => Ok ((s, None), i) | Err e => Err (of_verr e) end, p);
  ct_node id now p := sim_res (Sim.GetNodeState id now p);
  ct_events n now p := sim_res (Sim.StreamEvents n (fun _ => now) p) |}.
Ltac sim_same :=
  simpl; repeat first [done | rewrite !done_with_eq; done | case_match; simplify_eq/=].
#[export] Instance sim_recap : Recap sim := sim_with_caps.
#[export] Instance sim_gated : Gated sim.
Proof.
  split; unfold with_caps, sim_recap; try done.
  - intros A c l now p c2 Hg Ha. destruct c; simplify_eq/=; specialize (Ha _ ltac:(by left)); simpl in Ha;
      unfold sim_call, sim_ret, Sim.ListHosts, Sim.ListVMs, Sim.GetVM, Sim.ListClusters, Sim.ListStorage, Sim.ListNetworks,
        Sim.ListSnapshots, Sim.GetClusterTopology, Sim.GetMetrics, Sim.listing, Sim.CreateVM, Sim.PowerOp, Sim.DeleteVM,
        Sim.ReconfigureVM, Sim.CreateSnapshot, Sim.RevertSnapshot, Sim.Clone, Sim.MigrateVM, Sim.nextID;
      cbn [sim_caps sim_with_caps]; rewrite <- Ha; sim_same.
  - intros vm fmt p c2 Ha. specialize (Ha _ ltac:(by left)). simpl in *. unfold Sim.ExportVM.
    cbn [sim_caps sim_with_caps]. rewrite <- Ha. sim_same.
  - intros id now p c2 Ha. specialize (Ha _ ltac:(by left)). simpl in *. unfold Sim.GetNodeState.
    cbn [sim_caps sim_with_caps]. by rewrite <- Ha.
  - intros n now p c2 Ha. specialize (Ha _ ltac:(by left)). simpl in *. unfold Sim.StreamEvents.
    cbn [sim_caps sim_with_caps]. by rewrite <- Ha.
Qed.

(** ** The suite *)

Definition after_boot (now : nat -> time) : Prop := is_zero_time (now 0%nat) = false.

Ltac conforms now p Hnow Hl :=
  unfold after_boot in Hnow; refine (conforms now _ p _ _ _ Hl eq_refl _);
  [by vm_compute|unfold passes, t_HealthCheck, mbind, T_bind, ask, unless; cbn; by rewrite Hnow|unfold streams].

Ltac from_snapshot :=
  eexists _, _; split; [cbn; reflexivity|]; constructor; [done|]; apply Forall_take; repeat constructor.

(** C10 Every provider of the default build passes the conformance suite, under
    every capability matrix in which what can be created can be listed: each of
    the subtests, run on a provider just built, makes the checks of
    conformance.go and none fails. *)
Theorem drivers_conform now extra caps : after_boot now -> listable caps = true ->
  RunConformance now extra (Sim.New "sim-1" [WithCaps caps]) = [] /\
  RunConformance now extra (Kvm.New_sim "kvm-1" (Some caps)) = [] /\
  RunConformance now extra (Xen.New_sim "xen-1" (Some caps)) = [] /\
  RunConformance now extra (Esxi.New_sim "esxi-1" (Some caps)) = [] /\
  RunConformance now extra (Hyperv.New_sim "hyperv-1" (Some caps)) = [].
Proof.
  intros Hnow Hl. split_and!.
  - conforms now (Sim.New "sim-1" []) Hnow Hl. eexists _, _. split; [reflexivity|]. constructor; [done|].
    by apply Forall_fmap, Forall_true.
  - conforms now (Kvm.New_sim "kvm-1" None) Hnow Hl. by from_snapshot.
  - conforms now (Xen.New_sim "xen-1" None) Hnow Hl. by from_snapshot.
  - conforms now (Esxi.New_sim "esxi-1" None) Hnow Hl. by from_snapshot.
  - conforms now (Hyperv.New_sim "hyperv-1" None) Hnow Hl. by from_snapshot.
Qed.

Lemma drivers_conform_witness :
  let now n := Z.of_nat n + 1 in
  after_boot now /\ listable FullCaps = true /\
  Forall (fun r => r = [])
    [RunConformance now 3 (Sim.New "sim-1" [WithCaps FullCaps]); RunConformance now 3 (Kvm.New_sim "kvm-1" (Some FullCaps));
     RunConformance now 3 (Xen.New_sim "xen-1" (Some FullCaps)); RunConformance now 3 (Esxi.New_sim "esxi-1" (Some FullCaps));
     RunConformance now 3 (Hyperv.New_sim "hyperv-1" (Some FullCaps))].
Proof.
  intros now. split_and!; [done|done|].
  destruct (drivers_conform now 3 FullCaps eq_refl eq_refl) as (-> & -> & -> & -> & ->). repeat constructor.
Defined.

(** The suite asks for what it creates to be listed whether or not the provider
    lists anything. *)
Lemma create_only_fails :
  RunConformance (fun n => Z.of_nat n + 1) 0 (Kvm.New_sim "kvm-1" (Some CapCreateVM)) =
    [("CreateReconfigureDelete", ["created VM not present in ListVMs"])].
Proof. by vm_compute. Qed.
