(* ===== verification/SsoStore.v ===== *)
(** * The tables of external sign-in

    server/internal/store/authproviders.go, sso_states.go and the external users
    of users.go, over the schema of migration 0003: the rows are declared with
    the other rows in AuthStore.v.  [lower_rune] is the table behind
    [unicode.ToLower]. *)
From S2P Require Import Prelude GoStd GoFacts Utf8 AuthStore Rbac Redact Middleware AuthApi.

(** ** Strings by runes *)

(** [strings.Map(f, s)]: [None] drops the rune. *)
Definition map_runes (f : Z -> option Z) (s : string) : string := string_of_runes (omap f (runes s).*1).
(** [strings.ToLower(s)]; a string of ASCII bytes does not look at the table. *)
Definition ToLower (lower_rune : Z -> Z) (s : string) : string :=
  if every is_ascii s then string_map lower_byte s else map_runes (fun r => Some (lower_rune r)) s.

(** The CN of a DN-like group. *)
Definition groupCN (g : string) : string :=
  let g := trim_space g in
  if bool_decide (g = "") then ""
  else
    let first := match cut "," g with Some (a, _) => a | None => g end in
    match cut "=" first with
    | Some (k, v) => if equal_fold (trim_space k) "cn" then trim_space v else ""
    | None => ""
    end.

Definition ExternalPasswordSentinel := "!".

(** ** auth_providers *)

Definition set_providers f (t : sso_tables) := mkSSO (f (so_providers t)) (so_mappings t) (so_states t).
Definition set_mappings f (t : sso_tables) := mkSSO (so_providers t) (f (so_mappings t)) (so_states t).
Definition set_states f (t : sso_tables) := mkSSO (so_providers t) (so_mappings t) (f (so_states t)).
Definition providers (d : db) := so_providers (db_sso d).
Definition mappings (d : db) := so_mappings (db_sso d).
Definition states (d : db) := so_states (db_sso d).

Definition HasBindPW (p : AuthProvider) : bool := negb (bool_decide (ap_LDAPBindPWEnc p = "")).
Definition HasClientSecret (p : AuthProvider) : bool := negb (bool_decide (ap_OIDCClientSecretEnc p = "")).

(** ORDER BY a text column: the default collation compares bytes. *)
Definition by_text {A} (f : A -> string) (a b : A) : Prop := str_le (f a) (f b).
#[export] Instance by_text_dec {A} (f : A -> string) a b : Decision (by_text f a b).
Proof. unfold by_text. apply _. Defined.

Definition ListAuthProviders (d : db) : list AuthProvider := merge_sort (by_text ap_Name) (map_to_list (providers d)).*2.
Definition ListEnabledAuthProviders (d : db) : list AuthProvider :=
  merge_sort (by_text ap_Name) (select_where ap_Enabled (providers d)).
Definition GetAuthProvider (id : string) (d : db) : result store_err AuthProvider :=
  match providers d !! id with Some p => Ok p | None => Err ErrNotFound end.

Definition or_default (s def : string) : string := if bool_decide (s = "") then def else s.
Definition ldapUserFilterDefault := "(&(objectClass=person)(sAMAccountName=%s))".
Definition ldapGroupFilterDefault := "(&(objectClass=group)(member=%s))".
Definition applyProviderDefaults (p : AuthProvider) : AuthProvider :=
  mkProvider (ap_ID p) (ap_Name p) (ap_Kind p) (ap_Enabled p) (ap_DefaultRoleID p) (ap_LDAPHost p)
    (if ap_LDAPPort p =? 0 then 389 else ap_LDAPPort p) (or_default (ap_LDAPTLS p) "starttls") (ap_LDAPSkipVerify p)
    (ap_LDAPBindDN p) (ap_LDAPBindPWEnc p) (ap_LDAPBaseDN p) (or_default (ap_LDAPUserFilter p) ldapUserFilterDefault)
    (or_default (ap_LDAPAttrUsername p) "sAMAccountName") (or_default (ap_LDAPAttrEmail p) "mail")
    (or_default (ap_LDAPAttrDisplay p) "displayName") (ap_LDAPGroupBaseDN p)
    (or_default (ap_LDAPGroupFilter p) ldapGroupFilterDefault) (or_default (ap_LDAPAttrMember p) "memberOf")
    (ap_OIDCIssuer p) (ap_OIDCClientID p) (ap_OIDCClientSecretEnc p) (ap_OIDCRedirectURL p)
    (or_default (ap_OIDCScopes p) "openid profile email") (or_default (ap_OIDCGroupsClaim p) "groups")
    (or_default (ap_OIDCUsernameClaim p) "preferred_username") (or_default (ap_OIDCEmailClaim p) "email")
    (ap_CreatedAt p) (ap_UpdatedAt p).
Definition ap_stamp (created updated : Z) (p : AuthProvider) : AuthProvider :=
  mkProvider (ap_ID p) (ap_Name p) (ap_Kind p) (ap_Enabled p) (ap_DefaultRoleID p) (ap_LDAPHost p) (ap_LDAPPort p)
    (ap_LDAPTLS p) (ap_LDAPSkipVerify p) (ap_LDAPBindDN p) (ap_LDAPBindPWEnc p) (ap_LDAPBaseDN p) (ap_LDAPUserFilter p)
    (ap_LDAPAttrUsername p) (ap_LDAPAttrEmail p) (ap_LDAPAttrDisplay p) (ap_LDAPGroupBaseDN p) (ap_LDAPGroupFilter p)
    (ap_LDAPAttrMember p) (ap_OIDCIssuer p) (ap_OIDCClientID p) (ap_OIDCClientSecretEnc p) (ap_OIDCRedirectURL p)
    (ap_OIDCScopes p) (ap_OIDCGroupsClaim p) (ap_OIDCUsernameClaim p) (ap_OIDCEmailClaim p) created updated.
Definition ap_seal (bindPW clientSecret : string) (p : AuthProvider) : AuthProvider :=
  mkProvider (ap_ID p) (ap_Name p) (ap_Kind p) (ap_Enabled p) (ap_DefaultRoleID p) (ap_LDAPHost p) (ap_LDAPPort p)
    (ap_LDAPTLS p) (ap_LDAPSkipVerify p) (ap_LDAPBindDN p) bindPW (ap_LDAPBaseDN p) (ap_LDAPUserFilter p)
    (ap_LDAPAttrUsername p) (ap_LDAPAttrEmail p) (ap_LDAPAttrDisplay p) (ap_LDAPGroupBaseDN p) (ap_LDAPGroupFilter p)
    (ap_LDAPAttrMember p) (ap_OIDCIssuer p) (ap_OIDCClientID p) clientSecret (ap_OIDCRedirectURL p)
    (ap_OIDCScopes p) (ap_OIDCGroupsClaim p) (ap_OIDCUsernameClaim p) (ap_OIDCEmailClaim p) (ap_CreatedAt p) (ap_UpdatedAt p).

(** The foreign key of the default role. *)
Definition default_role_ok (p : AuthProvider) (d : db) : bool :=
  bool_decide (ap_DefaultRoleID p = "") || bool_decide (is_Some (db_roles d !! ap_DefaultRoleID p)).
Definition provider_row (p : AuthProvider) (now : Z) : AuthProvider := ap_stamp now now (applyProviderDefaults p).
Definition CreateAuthProvider (p : AuthProvider) (now : Z) (d : db) : result store_err db :=
  if bool_decide (is_Some (providers d !! ap_ID p)) || negb (default_role_ok p d) then Err ErrConstraint
  else Ok (set_sso (set_providers (<[ap_ID p := provider_row p now]>)) d).
(** The secrets are written when their flag is set; the times of creation stay. *)
Definition UpdateAuthProvider (p : AuthProvider) (setBindPW setClientSecret : bool) (now : Z) (d : db) : result store_err db :=
  match providers d !! ap_ID p with
  | None => Err ErrNotFound
  | Some old =>
      if negb (default_role_ok p d) then Err ErrConstraint
      else
        let row := ap_seal (if setBindPW then ap_LDAPBindPWEnc p else ap_LDAPBindPWEnc old)
                     (if setClientSecret then ap_OIDCClientSecretEnc p else ap_OIDCClientSecretEnc old)
                     (ap_stamp (ap_CreatedAt old) now (applyProviderDefaults p)) in
        Ok (set_sso (set_providers (<[ap_ID p := row]>)) d)
  end.
(** The foreign keys of the mappings and of the pending states cascade. *)
Definition DeleteAuthProvider (id : string) (d : db) : result store_err db :=
  match providers d !! id with
  | None => Err ErrNotFound
  | Some _ =>
      Ok (set_sso (fun t => mkSSO (delete id (so_providers t))
                       (delete_where (fun m => bool_decide (gm_ProviderID m = id)) (so_mappings t))
                       (delete_where (fun s => bool_decide (os_ProviderID s = id)) (so_states t))) d)
  end.

(** ** group_role_mappings *)

Definition ListGroupRoleMappings (providerID : string) (d : db) : list GroupRoleMapping :=
  merge_sort (by_text gm_ExternalGroup)
    (select_where (fun m => bool_decide (gm_ProviderID m = providerID)) (mappings d)).
Definition mapping_clash (a b : GroupRoleMapping) : bool :=
  bool_decide (gm_ProviderID a = gm_ProviderID b) && bool_decide (gm_ExternalGroup a = gm_ExternalGroup b)
  && bool_decide (gm_RoleID a = gm_RoleID b).
Definition CreateGroupRoleMapping (m : GroupRoleMapping) (d : db) : result store_err db :=
  if bool_decide (is_Some (mappings d !! gm_ID m)) || negb (bool_decide (is_Some (providers d !! gm_ProviderID m)))
     || negb (bool_decide (is_Some (db_roles d !! gm_RoleID m)))
     || existsb (mapping_clash m) (map_to_list (mappings d)).*2
  then Err ErrConstraint
  else Ok (set_sso (set_mappings (<[gm_ID m := m]>)) d).
Definition DeleteGroupRoleMapping (providerID mappingID : string) (d : db) : result store_err db :=
  match mappings d !! mappingID with
  | Some m => if bool_decide (gm_ProviderID m = providerID) then Ok (set_sso (set_mappings (delete mappingID)) d)
              else Err ErrNotFound
  | None => Err ErrNotFound
  end.

Section Groups.
Context (lower_rune : Z -> Z).
(** The keys a user's groups are looked up by: the raw value and its CN. *)
Definition group_keys (g : string) : list string :=
  let g := trim_space g in
  if bool_decide (g = "") then []
  else ToLower lower_rune g :: (if bool_decide (groupCN g = "") then [] else [ToLower lower_rune (groupCN g)]).
Definition mapping_hit (have : gset string) (m : GroupRoleMapping) : bool :=
  let cnKey := ToLower lower_rune (groupCN (gm_ExternalGroup m)) in
  bool_decide (ToLower lower_rune (trim_space (gm_ExternalGroup m)) ∈ have)
  || (negb (bool_decide (cnKey = "")) && bool_decide (cnKey ∈ have)).
(** The loop over the mappings, with the roles seen so far. *)
Fixpoint collect_roles (have seen : gset string) (ms : list GroupRoleMapping) : list string :=
  match ms with
  | [] => []
  | m :: ms =>
      if negb (mapping_hit have m) then collect_roles have seen ms
      else if bool_decide (gm_RoleID m ∈ seen) then collect_roles have seen ms
      else gm_RoleID m :: collect_roles have ({[gm_RoleID m]} ∪ seen) ms
  end.
Definition ResolveRolesForGroups (providerID : string) (groups : list string) (d : db) : list string :=
  collect_roles (list_to_set (mjoin (group_keys <$> groups))) ∅ (ListGroupRoleMappings providerID d).
End Groups.

(** ** External users (users.go) *)

Definition FindUserByExternalID (source externalID : string) (d : db) : result store_err StoreUser :=
  match select_where (fun u => bool_decide (u_AuthSource u = source) && bool_decide (u_ExternalID u = externalID)
                               && negb (bool_decide (u_ExternalID u = ""))) (db_users d) with
  | u :: _ => Ok u
  | [] => Err ErrNotFound
  end.

(** The refreshed profile; the row is active again. *)
Definition user_refresh (username email provider : string) (now : Z) (u : StoreUser) : StoreUser :=
  mkUser (u_ID u) username email (u_PasswordHash u) (u_TOTPSecretEnc u) (u_TOTPEnabled u) (u_TOTPConfirmedAt u)
    true (u_MustChangePW u) (u_FailedLogins u) (u_LockedUntil u) (u_LastLoginAt u)
    (u_AuthSource u) (u_ExternalID u) provider (u_CreatedAt u) now.
(** [UPDATE users SET username = ?, ...]: the unique username may refuse it. *)
Definition RefreshExternalUser (id username email provider : string) (now : Z) (d : db) : result store_err db :=
  if existsb (fun v => bool_decide (u_Username v = username) && negb (bool_decide (u_ID v = id))) (map_to_list (db_users d)).*2
  then Err ErrConstraint
  else Ok (set_users (alter (user_refresh username email provider now) id) d).

(** A transaction: what it did to the tables is undone when it fails. *)
Definition tx {E A} (m : SE E A) : SE E A := fun w =>
  match m w with
  | (Ok a, w') => (Ok a, w')
  | (Err e, w') => (Err e, on_db (fun _ => aw_db w) w')
  end.

Section Provisioning.
Context (clock : nat -> Z) (new_uuid : nat -> string).

(** [UpsertExternalUser], for a caller that fills every field of the row. *)
Definition UpsertExternalUser (inp : StoreUser) : SE store_err StoreUser :=
  let source := if bool_decide (u_AuthSource inp = "") then "local" else u_AuthSource inp in
  now ← now_unix clock;
  existing ← ask (FindUserByExternalID source (u_ExternalID inp));
  match existing with
  | Ok u =>
      _ ← stmt (RefreshExternalUser (u_ID u) (u_Username inp) (u_Email inp) (u_ExternalProviderID inp) now) (fun e => e);
      r ← ask (GetUserByID (u_ID u));
      match r with Ok u => mret u | Err e => throw e end
  | Err ErrNotFound =>
      id ← (if bool_decide (u_ID inp = "") then NewUUID new_uuid else mret (u_ID inp));
      let hash := if bool_decide (u_PasswordHash inp = "") then ExternalPasswordSentinel else u_PasswordHash inp in
      let u := mkUser id (u_Username inp) (u_Email inp) hash "" false None (u_IsActive inp) (u_MustChangePW inp) 0 None None
                 source (u_ExternalID inp) (u_ExternalProviderID inp) 0 0 in
      created ← now_unix clock;
      _ ← stmt (CreateUser u created) (fun e => e);
      r ← ask (GetUserByID id);
      match r with Ok u => mret u | Err e => throw e end
  | Err e => throw e
  end.

(** ** sso_states.go *)

Definition delete_global_bindings (userID : string) : db -> db :=
  set_bindings (delete_where (fun b => bool_decide (bi_UserID b = userID) && bool_decide (bi_ScopeType b = "global"))).
Fixpoint insert_bindings (userID : string) (now : Z) (roleIDs : list string) : SE store_err unit :=
  match roleIDs with
  | [] => mret tt
  | rid :: roleIDs =>
      id ← NewUUID new_uuid;
      _ ← stmt (CreateBinding (mkBinding id userID rid "global" None now)) (fun e => e);
      insert_bindings userID now roleIDs
  end.
(** Blank role ids are skipped, duplicates collapsed. *)
Definition ReplaceExternalRoleBindings (userID : string) (roleIDs : list string) : SE store_err unit :=
  tx (_ ← exec (delete_global_bindings userID);
      now ← now_unix clock;
      insert_bindings userID now (dedup (filter (fun r => r <> "") roleIDs))).

Definition CreateOIDCAuthState (st : OIDCAuthState) : SE store_err unit :=
  created ← (if os_CreatedAt st =? 0 then now_unix clock else mret (os_CreatedAt st));
  stmt (fun d =>
    if bool_decide (is_Some (states d !! os_State st)) || negb (bool_decide (is_Some (providers d !! os_ProviderID st)))
    then Err ErrConstraint
    else Ok (set_sso (set_states (<[os_State st := mkOIDCState (os_State st) (os_ProviderID st) (os_Nonce st)
           (os_PKCEVerifier st) (or_default (os_RedirectAfter st) "/") created (os_ExpiresAt st)]>)) d)) (fun e => e).
(** The row is deleted, then refused when it has expired. *)
Definition ConsumeOIDCAuthState (state : string) : SE store_err OIDCAuthState :=
  row ← ask (fun d => states d !! state);
  match row with
  | None => throw ErrNotFound
  | Some st =>
      _ ← exec (set_sso (set_states (delete state)));
      now ← now_unix clock;
      if os_ExpiresAt st <? now then throw ErrNotFound else mret st
  end.
Definition DeleteExpiredOIDCAuthStates (now : Z) : db -> db :=
  set_sso (set_states (delete_where (fun s => os_ExpiresAt s <? now))).
End Provisioning.
