(* ===== verification/Ldap.v ===== *)
(** * Sign-in against a directory

    server/internal/auth/ldap/ldap.go.  The LDAP client library is a class: a
    connection is a value of its type, which the operations change; what a
    directory answers may depend on everything asked of the connection before. *)
From S2P Require Import Prelude GoStd GoFacts Utf8 SsoStore.

Definition TLSNone := "none".
Definition TLSStartTLS := "starttls".
Definition TLSLDAPS := "ldaps".

Record LDAPConfig := mkLDAP {
  lc_Host : string; lc_Port : Z; lc_TLS : string; lc_SkipVerify : bool; lc_BindDN : string; lc_BindPassword : string;
  lc_BaseDN : string; lc_UserFilter : string; lc_AttrUsername : string; lc_AttrEmail : string; lc_AttrDisplay : string;
  lc_GroupBaseDN : string; lc_GroupFilter : string; lc_AttrMember : string }.

Record LdapIdentity := mkLdapIdentity {
  li_ExternalID : string; li_Username : string; li_Email : string; li_Display : string; li_Groups : list string }.

Inductive ldap_err := ErrInvalidCredentials | ErrConfig (detail : string).
Definition ldap_Error (e : ldap_err) : string :=
  match e with
  | ErrInvalidCredentials => "ldap: invalid credentials"
  | ErrConfig detail => "ldap: configuration error: " +:+ detail
  end.

(** ** The client library *)

Record tlsConfig := mkTLS { tc_ServerName : string; tc_InsecureSkipVerify : bool }.
(** A subtree search: base, size limit, filter and attributes. *)
Record searchRequest := mkSearch { sr_BaseDN : string; sr_SizeLimit : Z; sr_Filter : string; sr_Attributes : list string }.
Inductive searchResult (E : Type) :=
| Found (entries : list E)
| SizeLimitExceeded (entries : list E) (msg : string)
| SearchFailed (msg : string).
Arguments Found {E} _. Arguments SizeLimitExceeded {E} _ _. Arguments SearchFailed {E} _.

(** [DialURL]'s first argument tells one dial from another. *)
Class LdapLib (C E : Type) := {
  DialURL : nat -> string -> option tlsConfig -> result string C;
  StartTLS : tlsConfig -> C -> result string C;
  Bind : string -> string -> C -> result string unit * C;
  UnauthenticatedBind : string -> C -> result string unit * C;
  Search : searchRequest -> C -> searchResult E * C;
  en_DN : E -> string;
  GetAttributeValue : string -> E -> string;
  GetAttributeValues : string -> E -> list string;
  EscapeFilter : string -> string;
  ParseDN : string -> option (list (list (string * string))) }.

(** ** Strings *)

Definition firstNonEmpty (vals : list string) : string :=
  default "" (head (filter (fun v => trim_space v <> "") vals)).
(** [strings.Contains(s, pat)] and [strings.Replace(s, pat, rep, 1)]. *)
Fixpoint contains_str (pat s : string) : bool :=
  has_prefix s pat || match s with EmptyString => false | String _ s' => contains_str pat s' end.
Fixpoint replace_first (pat rep s : string) : string :=
  if has_prefix s pat then rep +:+ string_drop (String.length pat) s
  else match s with EmptyString => "" | String c s' => String c (replace_first pat rep s') end.
Definition buildFilter (tmpl value : string) : string :=
  if negb (contains_str "%s" tmpl) then tmpl else replace_first "%s" value tmpl.
(** [net.JoinHostPort]. *)
Definition JoinHostPort (host port : string) : string :=
  if contains_char ":" host then "[" +:+ host +:+ "]:" +:+ port else host +:+ ":" +:+ port.

Section Ldap.
Context (lower_rune : Z -> Z) {C E : Type} `{LdapLib C E}.

Definition normalizeDN (dn : string) : string :=
  match ParseDN dn with
  | Some rdns =>
      join "," ((fun ava => ToLower lower_rune ava.1 +:+ "=" +:+ ToLower lower_rune ava.2) <$> mjoin rdns)
  | None => ToLower lower_rune (trim_space dn)
  end.

Fixpoint union_from (seen : gset string) (l : list string) : list string :=
  match l with
  | [] => []
  | s :: l =>
      let k := ToLower lower_rune (trim_space s) in
      if bool_decide (k = "") || bool_decide (k ∈ seen) then union_from seen l
      else s :: union_from ({[k]} ∪ seen) l
  end.
Definition unionStrings (a b : list string) : list string := union_from ∅ (a ++ b).

Definition attrList (cfg : LDAPConfig) : list string :=
  "entryUUID" :: filter (fun a => a <> "") [lc_AttrUsername cfg; lc_AttrEmail cfg; lc_AttrDisplay cfg; lc_AttrMember cfg].

(** ** The connection *)

Definition dial (at_ : nat) (cfg : LDAPConfig) : result ldap_err C :=
  if bool_decide (trim_space (lc_Host cfg) = "") then Err (ErrConfig "ldap host is empty")
  else
    let port := if lc_Port cfg =? 0 then (if bool_decide (lc_TLS cfg = TLSLDAPS) then 636 else 389) else lc_Port cfg in
    let addr := JoinHostPort (lc_Host cfg) (itoa port) in
    let tlsCfg := mkTLS (lc_Host cfg) (lc_SkipVerify cfg) in
    let failed what (r : result string C) := match r with Ok c => Ok c | Err e => Err (ErrConfig (what +:+ e)) end in
    if bool_decide (lc_TLS cfg = TLSLDAPS) then failed "dial failed: " (DialURL at_ ("ldaps://" +:+ addr) (Some tlsCfg))
    else if bool_decide (lc_TLS cfg = TLSStartTLS) then
      match failed "dial failed: " (DialURL at_ ("ldap://" +:+ addr) None) with
      | Ok conn => failed "starttls failed: " (StartTLS tlsCfg conn)
      | Err e => Err e
      end
    else if bool_decide (lc_TLS cfg = TLSNone) || bool_decide (lc_TLS cfg = "") then
      failed "dial failed: " (DialURL at_ ("ldap://" +:+ addr) None)
    else Err (ErrConfig ("unknown tls mode " +:+ quote (lc_TLS cfg))).

Definition serviceBind (cfg : LDAPConfig) (conn : C) : result string unit * C :=
  if bool_decide (lc_BindDN cfg = "") then UnauthenticatedBind "" conn
  else Bind (lc_BindDN cfg) (lc_BindPassword cfg) conn.

Definition user_search (cfg : LDAPConfig) (username : string) : searchRequest :=
  mkSearch (lc_BaseDN cfg) 2 (buildFilter (lc_UserFilter cfg) (EscapeFilter username)) (attrList cfg).
Definition findUser (cfg : LDAPConfig) (username : string) (conn : C) : result ldap_err E * C :=
  if bool_decide (trim_space (lc_BaseDN cfg) = "") then (Err (ErrConfig "base DN is empty"), conn)
  else
    match Search (user_search cfg username) conn with
    | (Found [], conn) => (Err ErrInvalidCredentials, conn)
    | (Found (e :: _), conn) => (Ok e, conn)
    | (SizeLimitExceeded _ msg, conn) | (SearchFailed msg, conn) => (Err (ErrConfig ("user search failed: " +:+ msg)), conn)
    end.

Definition buildIdentity (cfg : LDAPConfig) (loginName : string) (e : E) : LdapIdentity :=
  let username := GetAttributeValue (lc_AttrUsername cfg) e in
  mkLdapIdentity (firstNonEmpty [GetAttributeValue "entryUUID" e; normalizeDN (en_DN e)])
    (if bool_decide (trim_space username = "") then loginName else username)
    (GetAttributeValue (lc_AttrEmail cfg) e) (GetAttributeValue (lc_AttrDisplay cfg) e)
    (if bool_decide (lc_AttrMember cfg = "") then [] else GetAttributeValues (lc_AttrMember cfg) e).
Definition set_groups (gs : list string) (i : LdapIdentity) : LdapIdentity :=
  mkLdapIdentity (li_ExternalID i) (li_Username i) (li_Email i) (li_Display i) gs.

Definition searchGroups (cfg : LDAPConfig) (userDN : string) (conn : C) : result string (list string) * C :=
  match Search (mkSearch (lc_GroupBaseDN cfg) 0 (buildFilter (lc_GroupFilter cfg) (EscapeFilter userDN)) ["cn"]) conn with
  | (Found l, conn) => (Ok (en_DN <$> l), conn)
  | (SizeLimitExceeded _ msg, conn) | (SearchFailed msg, conn) => (Err msg, conn)
  end.

(** The groups of the second search; its failures are passed over. *)
Definition more_groups (cfg : LDAPConfig) (e : E) (id : LdapIdentity) (conn : C) : LdapIdentity :=
  if bool_decide (lc_GroupBaseDN cfg = "") || bool_decide (lc_GroupFilter cfg = "") then id
  else
    match serviceBind cfg conn with
    | (Ok _, conn) =>
        match searchGroups cfg (en_DN e) conn with
        | (Ok groups, _) => set_groups (unionStrings (li_Groups id) groups) id
        | (Err _, _) => id
        end
    | (Err _, _) => id
    end.

Definition Authenticate (at_ : nat) (cfg : LDAPConfig) (username password : string) : result ldap_err LdapIdentity :=
  if bool_decide (trim_space username = "") || bool_decide (password = "") then Err ErrInvalidCredentials
  else
    match dial at_ cfg with
    | Err e => Err e
    | Ok conn =>
        match serviceBind cfg conn with
        | (Err e, _) => Err (ErrConfig ("service bind failed: " +:+ e))
        | (Ok _, conn) =>
            match findUser cfg username conn with
            | (Err e, _) => Err e
            | (Ok entry, conn) =>
                match Bind (en_DN entry) password conn with
                | (Err _, _) => Err ErrInvalidCredentials
                | (Ok _, conn) => Ok (more_groups cfg entry (buildIdentity cfg username entry) conn)
                end
            end
        end
    end.

(** [Test]: the DN of a sample user, or the empty string. *)
Definition ldapTest (at_ : nat) (cfg : LDAPConfig) : result ldap_err string :=
  match dial at_ cfg with
  | Err e => Err e
  | Ok conn =>
      match serviceBind cfg conn with
      | (Err e, _) => Err (ErrConfig ("service bind failed: " +:+ e))
      | (Ok _, conn) =>
          if bool_decide (trim_space (lc_BaseDN cfg) = "") then Ok ""
          else
            match (Search (mkSearch (lc_BaseDN cfg) 1 (buildFilter (lc_UserFilter cfg) "*") (attrList cfg)) conn).1 with
            | Found [] => Ok ""
            | Found (e :: _) | SizeLimitExceeded (e :: _) _ => Ok (en_DN e)
            | SizeLimitExceeded [] msg | SearchFailed msg => Err (ErrConfig ("sample search failed: " +:+ msg))
            end
      end
  end.
End Ldap.
