(* ===== verification/Oidc.v ===== *)
(** * Sign-in with OpenID Connect

    server/internal/auth/oidc/oidc.go.  The go-oidc and oauth2 libraries are a
    class: a discovered provider, the exchange of a code, and the verification of
    an ID token (signature, issuer, audience and expiry), which gives its nonce
    and its claims.  [s256] is base64url of SHA-256. *)
From S2P Require Import Prelude GoStd AuthStore Rbac Redact Middleware AuthApi SsoStore Ldap.

Record OidcParams := mkOidcParams {
  op_Issuer : string; op_ClientID : string; op_ClientSecret : string; op_RedirectURL : string; op_Scopes : list string;
  op_GroupsClaim : string; op_UsernameClaim : string; op_EmailClaim : string }.
Record OidcIdentity := mkOidcIdentity {
  oi_ExternalID : string; oi_Username : string; oi_Email : string; oi_Display : string; oi_Groups : list string;
  oi_GroupsOverage : bool }.

(** The part of [oauth2.Config] that is not the endpoint of the provider. *)
Record oauthConfig := mkOauth { oc_ClientID : string; oc_ClientSecret : string; oc_RedirectURL : string; oc_Scopes : list string }.

(** The first argument of the three network calls tells one from another. *)
Class OidcLib (I : Type) := {
  NewProvider : nat -> string -> result string I;
  AuthCodeURL_of : I -> oauthConfig -> string -> string -> string -> string;
  ExchangeCode : nat -> I -> oauthConfig -> string -> string -> result string (option json);
  VerifyIDToken : nat -> I -> string -> string -> result string (string * result string (gmap string json)) }.

Definition claimString (m : gmap string json) (key : string) : string :=
  if bool_decide (key = "") then "" else match m !! key with Some (JString s) => s | _ => "" end.
Definition claimStrings (m : gmap string json) (key : string) : list string :=
  if bool_decide (key = "") then []
  else match m !! key with
       | Some (JList l) => omap (fun e => match e with JString s => Some s | _ => None end) l
       | Some (JString s) => if bool_decide (s = "") then [] else [s]
       | _ => []
       end.
Definition blank_default (v def : string) : string := if bool_decide (trim_space v = "") then def else v.

(** "openid" first, then each scope once. *)
Definition normalizeScopes (scopes : list string) : list string := dedup ("openid" :: mjoin (fields <$> scopes)).

Section Oidc.
Context {I : Type} `{OidcLib I} (s256 : string -> string).

Definition NewVerifier (at_ : nat) (issuer clientID : string) : result string I :=
  let issuer := trim_space issuer in
  if bool_decide (issuer = "") then Err "oidc: issuer is empty"
  else if bool_decide (trim_space clientID = "") then Err "oidc: client id is empty"
  else match NewProvider at_ issuer with Ok p => Ok p | Err e => Err ("oidc: discovery failed: " +:+ e) end.

Definition oauth_config (p : OidcParams) : oauthConfig :=
  mkOauth (op_ClientID p) (op_ClientSecret p) (op_RedirectURL p) (normalizeScopes (op_Scopes p)).
Definition AuthCodeURL (p : OidcParams) (provider : I) (state nonce challenge : string) : string :=
  AuthCodeURL_of provider (oauth_config p) state nonce challenge.
Definition Exchange (at_ : nat) (p : OidcParams) (provider : I) (code pkceVerifier : string) : result string string :=
  match ExchangeCode at_ provider (oauth_config p) code pkceVerifier with
  | Err e => Err ("oidc: token exchange failed: " +:+ e)
  | Ok (Some (JString raw)) =>
      if bool_decide (raw = "") then Err "oidc: token response did not contain an id_token" else Ok raw
  | Ok _ => Err "oidc: token response did not contain an id_token"
  end.

(** The identity the claims describe. *)
Definition identity_of (claims : gmap string json) (p : OidcParams) : result string OidcIdentity :=
  let externalID := firstNonEmpty [claimString claims "oid"; claimString claims "sub"] in
  if bool_decide (externalID = "") then Err "oidc: id_token has neither oid nor sub"
  else
    let usernameClaim := blank_default (op_UsernameClaim p) "preferred_username" in
    let emailClaim := blank_default (op_EmailClaim p) "email" in
    let groupsClaim := blank_default (op_GroupsClaim p) "groups" in
    let username := firstNonEmpty [claimString claims usernameClaim; claimString claims "preferred_username";
                                   claimString claims "upn"; claimString claims "email"; externalID] in
    let groups := claimStrings claims groupsClaim in
    let overage := bool_decide (groups = [])
                   && (bool_decide (is_Some (claims !! "_claim_names")) || bool_decide (is_Some (claims !! "_claim_sources"))) in
    Ok (mkOidcIdentity externalID username (firstNonEmpty [claimString claims emailClaim; claimString claims "email"])
          (firstNonEmpty [claimString claims "name"; username]) groups overage).

Definition VerifyAndClaims (at_ : nat) (provider : I) (clientID rawIDToken nonce : string) (p : OidcParams)
  : result string OidcIdentity :=
  match VerifyIDToken at_ provider clientID rawIDToken with
  | Err e => Err ("oidc: id_token verification failed: " +:+ e)
  | Ok (tokenNonce, claims) =>
      if bool_decide (nonce = "") || negb (bool_decide (tokenNonce = nonce)) then Err "oidc: id_token nonce mismatch"
      else match claims with
           | Err e => Err ("oidc: failed to parse id_token claims: " +:+ e)
           | Ok claims => identity_of claims p
           end
  end.

(** [Test]. *)
Definition oidcTest (at_ : nat) (issuer clientID : string) : result string unit :=
  if bool_decide (trim_space clientID = "") then Err "client id is required"
  else match NewVerifier at_ issuer clientID with Ok _ => Ok tt | Err e => Err e end.

(** [NewPKCE]: the verifier and its challenge. *)
Definition NewPKCE (random : nat -> string) {E} : SE E (string * string) :=
  v ← RandomToken random; mret (v, s256 v).
End Oidc.
