(* ===== verification/Sso.v ===== *)
(** * External sign-in: the public handlers

    server/internal/api/auth_sso.go, each handler whole: the provider list, the
    OIDC redirect and its callback, the LDAP login, and the provisioning they
    share.  A handler takes its decoded query or body.  [publicURL] is
    CASTOR_PUBLIC_URL; [http_redirect] is what [http.Redirect] makes of a URL:
    the Location it writes (relative paths cleaned, bytes escaped) and the page. *)
From S2P Require Import Prelude GoStd GoFacts Utf8 AuthStore Rbac Redact Middleware AuthApi SsoStore Ldap Oidc.

Definition oidcStateTTL : duration := 10 * Minute.
Definition AMRLDAP := "ldap".
Definition AMROIDC := "oidc".

(** A local absolute path, or "/". *)
Definition sanitizeRedirect (p : string) : string :=
  let p := trim_space p in
  if bool_decide (p = "") || negb (has_prefix p "/") || has_prefix p "//" then "/" else p.

Fixpoint string_take (n : nat) (s : string) : string :=
  match n, s with S n, String c s' => String c (string_take n s') | _, _ => "" end.
Definition sanitizeUsername (s : string) : string :=
  let s := map_runes (fun rn => if (rn <? 32) || (rn =? 127) then None else Some rn) (trim_space s) in
  if bool_decide (128 < String.length s)%nat then string_take 128 s else s.

(** [url.QueryEscape]. *)
Definition query_byte (c : ascii) : string :=
  let n := N_of_ascii c in
  let hex (k : N) := ascii_of_N (if (k <? 10)%N then 48 + k else 55 + k)%N in
  if ((65 <=? n) && (n <=? 90) || (97 <=? n) && (n <=? 122) || (48 <=? n) && (n <=? 57)
      || (n =? 45) || (n =? 95) || (n =? 46) || (n =? 126))%N then String c ""
  else if (n =? 32)%N then "+"
  else "%" +:+ String (hex (n / 16)%N) (String (hex (n mod 16)%N) "").
Fixpoint QueryEscape (s : string) : string :=
  match s with EmptyString => "" | String c s' => query_byte c +:+ QueryEscape s' end.

Definition lift_err {E F A} (f : E -> F) (m : SE E A) : SE F A := fun w =>
  match m w with (Ok a, w) => (Ok a, w) | (Err e, w) => (Err (f e), w) end.
Definition or_throw {X E A} (r : result X A) (e : E) : SE E A :=
  match r with Ok a => mret a | Err _ => throw e end.
Definition need {E A} (o : option A) (e : E) : SE E A := match o with Some a => mret a | None => throw e end.
(** The moment a network call is made. *)
Definition here {E} : SE E nat := fun w => (Ok (aw_tick w), w).
Definition detail {E} (r : request) (k v : string) : SE E unit := upd (AddAuditDetail r k (AOther (JString v))).
Definition qget (q : gmap string string) (k : string) : string := default "" (q !! k).

Record ldapLoginRequest := mkLdapLogin { ll_Username : string; ll_Password : string; ll_Provider : string }.
Record externalIdentity := mkExternal {
  ex_ExternalID : string; ex_Username : string; ex_Email : string; ex_Display : string; ex_Groups : list string;
  ex_GroupsKnown : bool; ex_GroupsOverage : bool }.

Definition providerSummary (p : AuthProvider) : json :=
  JObj [("id", JString (ap_ID p)); ("name", JString (ap_Name p)); ("kind", JString (ap_Kind p))].
Definition AuthProviders : handler := handle (fun r => provs ← ask ListEnabledAuthProviders; ok (JList (providerSummary <$> provs))).

(** The enabled provider of a kind: the one named, or the only one. *)
Definition enabledProviderOfKind (id kind : string) : SE APIError AuthProvider :=
  let id := trim_space id in
  if negb (bool_decide (id = "")) then
    prov ← query (GetAuthProvider id) ErrAPINotFound;
    _ ← guard (negb (ap_Enabled prov) || negb (bool_decide (ap_Kind prov = kind)))
          (Errorf ErrValidation "The selected sign-in method is not available.");
    mret prov
  else
    provs ← ask ListEnabledAuthProviders;
    match filter (fun p => ap_Kind p = kind) provs with
    | [p] => mret p
    | [] => throw (Errorf ErrValidation ("No " +:+ kind +:+ " sign-in method is configured."))
    | _ => throw (Errorf ErrValidation ("Multiple " +:+ kind +:+ " providers are configured; specify one."))
    end.

Definition ssoLoginSuccess {E} (r : request) (source providerID : string) (u : StoreUser) : SE E unit :=
  _ ← upd (SetAuditTarget r "user" (u_ID u) (u_Username u));
  _ ← detail r "authSource" source;
  _ ← detail r "providerId" providerID;
  upd (SetAuditResult r "success").
Definition ssoLoginDenied {E} (r : request) (source providerID reason : string) : SE E unit :=
  _ ← detail r "authSource" source;
  _ ← (if bool_decide (providerID = "") then mret tt else detail r "providerId" providerID);
  _ ← detail r "reason" reason;
  upd (SetAuditResult r "denied").
(** An audited refusal. *)
Definition denied {E A} (r : request) (source providerID reason : string) (e : E) : SE E A :=
  _ ← ssoLoginDenied r source providerID reason; throw e.

Section Sso.
Context (clock : nat -> Z) (random : nat -> string) (sha256_hex : string -> string) (deps : Deps)
  (new_uuid : nat -> string) (seal : string -> string -> string) (open_sealed : string -> option string).
Context (lower_rune : Z -> Z) (publicURL : string) (s256 : string -> string).
Context (http_redirect : request -> string -> string * json).
Context {C En I : Type} `{LdapLib C En} `{OidcLib I}.

Definition Redirect (r : request) (url : string) (w : world) : outcome * world :=
  let '(loc, page) := http_redirect r url in
  let w := set_hdr "Location" loc w in
  let get := bool_decide (rq_Method r = "GET") || bool_decide (rq_Method r = "HEAD") in
  (Reply (mkResp 302 (if get then page else JNull)),
   match aw_hdr w !! "Content-Type" with
   | None => if get then set_hdr "Content-Type" "text/html; charset=utf-8" w else w
   | Some _ => w
   end).
Definition ssoRedirectError (r : request) (dest code : string) : world -> outcome * world :=
  let dest := sanitizeRedirect dest in
  let sep := if contains_char "?" dest then "&" else "?" in
  Redirect r (dest +:+ sep +:+ "sso_error=" +:+ QueryEscape code).

(** A sealed secret, or none. *)
Definition open_secret (enc : string) : option string := if bool_decide (enc = "") then Some "" else open_sealed enc.

Definition callbackPath := "/api/v1/auth/oidc/callback".
Definition oidcRedirectURL (prov : AuthProvider) (r : request) : string :=
  let u := trim_space (ap_OIDCRedirectURL prov) in
  if negb (bool_decide (u = "")) then u
  else
    let base := trim_slashes publicURL in
    if negb (bool_decide (base = "")) then base +:+ callbackPath
    else (if IsHTTPS deps r then "https" else "http") +:+ "://" +:+ rq_Host r +:+ callbackPath.
Definition oidcParams (prov : AuthProvider) (r : request) : option OidcParams :=
  secret ← open_secret (ap_OIDCClientSecretEnc prov);
  Some (mkOidcParams (ap_OIDCIssuer prov) (ap_OIDCClientID prov) secret (oidcRedirectURL prov r) (fields (ap_OIDCScopes prov))
          (ap_OIDCGroupsClaim prov) (ap_OIDCUsernameClaim prov) (ap_OIDCEmailClaim prov)).
Definition ldapConfig (prov : AuthProvider) : option LDAPConfig :=
  bindPW ← open_secret (ap_LDAPBindPWEnc prov);
  Some (mkLDAP (ap_LDAPHost prov) (ap_LDAPPort prov) (ap_LDAPTLS prov) (ap_LDAPSkipVerify prov) (ap_LDAPBindDN prov) bindPW
          (ap_LDAPBaseDN prov) (ap_LDAPUserFilter prov) (ap_LDAPAttrUsername prov) (ap_LDAPAttrEmail prov)
          (ap_LDAPAttrDisplay prov) (ap_LDAPGroupBaseDN prov) (ap_LDAPGroupFilter prov) (ap_LDAPAttrMember prov)).

(** The roles of an identity: those its groups map to, or the default one. *)
Definition roles_of (prov : AuthProvider) (ext : externalIdentity) (d : db) : list string :=
  let mapped := if ex_GroupsKnown ext && negb (bool_decide (ex_Groups ext = []))
                then ResolveRolesForGroups lower_rune (ap_ID prov) (ex_Groups ext) d else [] in
  if bool_decide (mapped = []) && negb (bool_decide (trim_space (ap_DefaultRoleID prov) = ""))
  then [ap_DefaultRoleID prov] else mapped.
Definition external_username (ext : externalIdentity) : string :=
  let u := sanitizeUsername (ex_Username ext) in
  if bool_decide (u = "") then sanitizeUsername (ex_ExternalID ext) else u.
Definition finishExternalLogin (prov : AuthProvider) (source : string) (ext : externalIdentity)
  : SE store_err (StoreUser * list string) :=
  id ← NewUUID new_uuid;
  u ← UpsertExternalUser clock new_uuid
        (mkUser id (external_username ext) (ex_Email ext) ExternalPasswordSentinel "" false None true false 0 None None
           source (ex_ExternalID ext) (ap_ID prov) 0 0);
  roleIDs ← ask (roles_of prov ext);
  _ ← ReplaceExternalRoleBindings clock new_uuid (u_ID u) roleIDs;
  perms ← ask (effectivePermissions (u_ID u));
  mret (u, perms).

(** ** OIDC *)

Definition OIDCStart (q : gmap string string) : handler := handle (fun r =>
  prov ← enabledProviderOfKind (qget q "provider") "oidc";
  params ← need (oidcParams prov r) ErrInternal;
  at_ ← here;
  provider ← or_throw (NewVerifier at_ (op_Issuer params) (op_ClientID params))
               (Errorf ErrInternal "Identity provider is unreachable.");
  state ← RandomToken random;
  nonce ← RandomToken random;
  pkce ← NewPKCE s256 random;
  now ← now_unix clock;
  _ ← lift_err (fun _ => ErrInternal)
        (CreateOIDCAuthState clock (mkOIDCState state (ap_ID prov) nonce pkce.1 (sanitizeRedirect (qget q "redirect")) now
           (now + f64_to_int64 (dur_seconds oidcStateTTL))));
  _ ← upd (SetAuditTarget r "auth_provider" (ap_ID prov) (ap_Name prov));
  _ ← detail r "authSource" "oidc";
  _ ← upd (SetAuditResult r "success");
  mret (Redirect r (AuthCodeURL params provider state nonce pkce.2))).

Definition of_oidc (i : OidcIdentity) : externalIdentity :=
  mkExternal (oi_ExternalID i) (oi_Username i) (oi_Email i) (oi_Display i) (oi_Groups i) (negb (oi_GroupsOverage i))
    (oi_GroupsOverage i).

(** The steps of the callback once its state is consumed: an error is the code
    shown at the page the state names. *)
Definition callback_identity (r : request) (st : OIDCAuthState) (code : string)
  : SE string (AuthProvider * OidcIdentity) :=
  prov ← ask (GetAuthProvider (os_ProviderID st));
  match prov with
  | Err _ => denied r "oidc" (os_ProviderID st) "provider_unavailable" "provider_unavailable"
  | Ok prov =>
      if negb (ap_Enabled prov) || negb (bool_decide (ap_Kind prov = "oidc"))
      then denied r "oidc" (os_ProviderID st) "provider_unavailable" "provider_unavailable"
      else
        params ← need (oidcParams prov r) "server_error";
        at_ ← here;
        match NewVerifier at_ (op_Issuer params) (op_ClientID params) with
        | Err _ => denied r "oidc" (ap_ID prov) "idp_unreachable" "idp_unreachable"
        | Ok provider =>
            match Exchange at_ params provider code (os_PKCEVerifier st) with
            | Err _ => denied r "oidc" (ap_ID prov) "code_exchange_failed" "code_exchange_failed"
            | Ok raw =>
                match VerifyAndClaims at_ provider (op_ClientID params) raw (os_Nonce st) params with
                | Err _ => denied r "oidc" (ap_ID prov) "token_verification_failed" "token_verification_failed"
                | Ok ident => mret (prov, ident)
                end
            end
        end
  end.
(** Provisioning and the session, shared by the two flows: [fail] is the reply
    to a refused provisioning or a session that cannot be stored. *)
Definition sign_in {E} (r : request) (prov : AuthProvider) (source amr : string) (ext : externalIdentity) (fail : E)
  : SE E (StoreUser * list string * Session) :=
  res ← (fun w => match finishExternalLogin prov source ext w with (x, w) => (Ok x, w) end : _ * _);
  match res with
  | Err _ => denied r source (ap_ID prov) "provisioning_failed" fail
  | Ok (u, perms) =>
      ms ← lift_err (fun _ => fail) (mintSession clock random sha256_hex deps r (u_ID u) amr);
      _ ← lift_err (fun _ => fail) (setAuthCookies deps ms.1 (ss_CSRFToken ms.2));
      _ ← ssoLoginSuccess r source (ap_ID prov) u;
      mret (u, perms, ms.2)
  end.

Definition callback_body (q : gmap string string) (r : request) : SE (string * string) (world -> outcome * world) :=
  if negb (bool_decide (qget q "error" = "")) then throw ("/", qget q "error")
  else if bool_decide (qget q "code" = "") || bool_decide (qget q "state" = "") then throw ("/", "invalid_request")
  else
    st ← (fun w => match ConsumeOIDCAuthState clock (qget q "state") w with (x, w) => (Ok x, w) end : _ * _);
    match st with
    | Err _ => denied r "oidc" "" "invalid_state" ("/", "invalid_state")
    | Ok st =>
        pi ← lift_err (fun c => (os_RedirectAfter st, c)) (callback_identity r st (qget q "code"));
        _ ← sign_in r pi.1 "oidc" AMROIDC (of_oidc pi.2) (os_RedirectAfter st, "server_error");
        mret (Redirect r (sanitizeRedirect (os_RedirectAfter st)))
    end.
Definition OIDCCallback (q : gmap string string) : handler := fun r w =>
  match callback_body q r w with
  | (Ok reply, w) => reply w
  | (Err e, w) => ssoRedirectError r e.1 e.2 w
  end.

(** ** LDAP *)

Definition of_ldap (loginName : string) (i : LdapIdentity) : externalIdentity :=
  mkExternal (firstNonEmpty [li_ExternalID i; li_Username i]) (firstNonEmpty [li_Username i; loginName]) (li_Email i)
    (li_Display i) (li_Groups i) true false.

Definition LDAPLogin (body : result APIError ldapLoginRequest) : handler := handle (fun r =>
  req ← decode body;
  let username := trim_space (ll_Username req) in
  _ ← guard (bool_decide (username = "") || bool_decide (ll_Password req = "")) ErrUnauthenticated;
  prov ← enabledProviderOfKind (ll_Provider req) "ldap";
  cfg ← need (ldapConfig prov) ErrInternal;
  at_ ← here;
  match Authenticate lower_rune at_ cfg username (ll_Password req) with
  | Err _ => denied r "ldap" (ap_ID prov) "invalid_credentials" ErrUnauthenticated
  | Ok ident =>
      s ← sign_in r prov "ldap" AMRLDAP (of_ldap username ident) ErrInternal;
      let '(u, perms, sess) := s in
      ok (JObj [("user", toUserView u); ("amr", JString AMRLDAP); ("csrfToken", JString (ss_CSRFToken sess));
                ("permissions", json_strings perms); ("requiresTotp", JBool false)])
  end).
End Sso.
