(* ===== verification/SsoAdmin.v ===== *)
(** * External sign-in: administration, and the routes

    server/internal/api/admin_auth.go, each handler whole, and the routes of
    router.go that mount these handlers and those of Sso.v. *)
From S2P Require Import Prelude GoStd GoFacts Utf8 AuthStore Rbac Redact Middleware AuthApi Router SsoStore Ldap Oidc Sso.

Record authProviderRequest := mkProviderReq {
  pr_Name : string; pr_Kind : string; pr_Enabled : bool; pr_DefaultRoleID : string;
  pr_LDAPHost : string; pr_LDAPPort : Z; pr_LDAPTLS : string; pr_LDAPSkipVerify : bool; pr_LDAPBindDN : string;
  pr_LDAPBindPW : option string; pr_LDAPBaseDN : string; pr_LDAPUserFilter : string; pr_LDAPAttrUser : string;
  pr_LDAPAttrEmail : string; pr_LDAPAttrDisplay : string; pr_LDAPGroupBaseDN : string; pr_LDAPGroupFilter : string;
  pr_LDAPAttrMember : string;
  pr_OIDCIssuer : string; pr_OIDCClientID : string; pr_OIDCClientSecret : option string; pr_OIDCRedirectURL : string;
  pr_OIDCScopes : string; pr_OIDCGroupsClaim : string; pr_OIDCUsernameClaim : string; pr_OIDCEmailClaim : string }.
Record createMappingRequest := mkMappingReq { mr_ExternalGroup : string; mr_RoleID : string }.

(** What an administrator sees of a provider: no secret, only whether it is set. *)
Definition toAuthProviderView (p : AuthProvider) : json :=
  JObj [("id", JString (ap_ID p)); ("name", JString (ap_Name p)); ("kind", JString (ap_Kind p));
        ("enabled", JBool (ap_Enabled p)); ("defaultRoleId", JString (ap_DefaultRoleID p));
        ("ldapHost", JString (ap_LDAPHost p)); ("ldapPort", JNum (ap_LDAPPort p)); ("ldapTls", JString (ap_LDAPTLS p));
        ("ldapSkipVerify", JBool (ap_LDAPSkipVerify p)); ("ldapBindDn", JString (ap_LDAPBindDN p));
        ("hasBindPassword", JBool (HasBindPW p)); ("ldapBaseDn", JString (ap_LDAPBaseDN p));
        ("ldapUserFilter", JString (ap_LDAPUserFilter p)); ("ldapAttrUsername", JString (ap_LDAPAttrUsername p));
        ("ldapAttrEmail", JString (ap_LDAPAttrEmail p)); ("ldapAttrDisplay", JString (ap_LDAPAttrDisplay p));
        ("ldapGroupBaseDn", JString (ap_LDAPGroupBaseDN p)); ("ldapGroupFilter", JString (ap_LDAPGroupFilter p));
        ("ldapAttrMember", JString (ap_LDAPAttrMember p));
        ("oidcIssuer", JString (ap_OIDCIssuer p)); ("oidcClientId", JString (ap_OIDCClientID p));
        ("hasClientSecret", JBool (HasClientSecret p)); ("oidcRedirectUrl", JString (ap_OIDCRedirectURL p));
        ("oidcScopes", JString (ap_OIDCScopes p)); ("oidcGroupsClaim", JString (ap_OIDCGroupsClaim p));
        ("oidcUsernameClaim", JString (ap_OIDCUsernameClaim p)); ("oidcEmailClaim", JString (ap_OIDCEmailClaim p));
        ("createdAt", JNum (ap_CreatedAt p)); ("updatedAt", JNum (ap_UpdatedAt p))].
Definition toGroupMappingView (m : GroupRoleMapping) : json :=
  JObj [("id", JString (gm_ID m)); ("providerId", JString (gm_ProviderID m)); ("externalGroup", JString (gm_ExternalGroup m));
        ("roleId", JString (gm_RoleID m)); ("createdAt", JNum (gm_CreatedAt m))].

(** ** Requests *)

Definition blank (s : string) : bool := bool_decide (trim_space s = "").
Definition validateProviderRequest (kind : string) (req : authProviderRequest) : option APIError :=
  let bad msg := Some (Errorf ErrValidation msg) in
  if bool_decide (kind = "ldap") then
    if blank (pr_LDAPHost req) then bad "ldapHost is required for an LDAP provider."
    else if (pr_LDAPPort req <? 0) || (65535 <? pr_LDAPPort req) then bad "ldapPort must be between 0 and 65535."
    else if negb (bool_decide (trim_space (pr_LDAPTLS req) ∈ [""; "none"; "starttls"; "ldaps"]))
    then bad "ldapTls must be one of none, starttls, ldaps."
    else if blank (pr_LDAPBaseDN req) then bad "ldapBaseDn is required for an LDAP provider."
    else None
  else if bool_decide (kind = "oidc") then
    if blank (pr_OIDCIssuer req) then bad "oidcIssuer is required for an OIDC provider."
    else if blank (pr_OIDCClientID req) then bad "oidcClientId is required for an OIDC provider."
    else None
  else None.

(** The non-secret fields, trimmed, with the defaults of the blank ones. *)
Definition applyProviderRequest (id kind : string) (req : authProviderRequest) : AuthProvider :=
  let t := trim_space in
  mkProvider id (t (pr_Name req)) kind (pr_Enabled req) (t (pr_DefaultRoleID req)) (t (pr_LDAPHost req))
    (if pr_LDAPPort req =? 0 then 389 else pr_LDAPPort req) (blank_default (t (pr_LDAPTLS req)) "starttls")
    (pr_LDAPSkipVerify req) (t (pr_LDAPBindDN req)) "" (t (pr_LDAPBaseDN req))
    (blank_default (t (pr_LDAPUserFilter req)) ldapUserFilterDefault)
    (blank_default (t (pr_LDAPAttrUser req)) "sAMAccountName") (blank_default (t (pr_LDAPAttrEmail req)) "mail")
    (blank_default (t (pr_LDAPAttrDisplay req)) "displayName") (t (pr_LDAPGroupBaseDN req))
    (blank_default (t (pr_LDAPGroupFilter req)) ldapGroupFilterDefault) (blank_default (t (pr_LDAPAttrMember req)) "memberOf")
    (t (pr_OIDCIssuer req)) (t (pr_OIDCClientID req)) "" (t (pr_OIDCRedirectURL req))
    (blank_default (t (pr_OIDCScopes req)) "openid profile email") (blank_default (t (pr_OIDCGroupsClaim req)) "groups")
    (blank_default (t (pr_OIDCUsernameClaim req)) "preferred_username") (blank_default (t (pr_OIDCEmailClaim req)) "email") 0 0.

(** [sanitizeRegistryError]: the first line. *)
Definition sanitizeRegistryError (s : string) : string :=
  let s := trim_space s in
  let s := match cut (ascii_of_N 10) s with Some (a, _) => a | None => s end in
  if bool_decide (s = "") then "Login failed." else s.

Section Admin.
Context (clock : nat -> Z) (random : nat -> string) (new_uuid : nat -> string) (seal : string -> string -> string)
  (open_sealed : string -> option string) (lower_rune : Z -> Z).
Context {C En I : Type} `{LdapLib C En} `{OidcLib I}.

Definition normalizeProviderKind (k : string) : result APIError string :=
  let k := trim_space (ToLower lower_rune k) in
  if bool_decide (k = "ldap") || bool_decide (k = "oidc") then Ok k
  else Err (Errorf ErrValidation "kind must be 'ldap' or 'oidc'.").

(** A secret of a request, sealed when it is given and not empty. *)
Definition seal_given (secret : option string) : SE APIError string :=
  match secret with
  | None => mret ""
  | Some s => if bool_decide (s = "") then mret "" else nonce ← RandomToken random; mret (seal nonce s)
  end.

Definition ListAuthProvidersHandler : handler := handle (fun r =>
  provs ← ask ListAuthProviders; ok (JList (toAuthProviderView <$> provs))).
Definition GetAuthProviderHandler : handler := handle (fun r =>
  p ← query (GetAuthProvider (param "id" r)) ErrAPINotFound; ok (toAuthProviderView p)).

Definition CreateAuthProviderHandler (body : result APIError authProviderRequest) : handler := handle (fun r =>
  req ← decode body;
  kind ← (fun w => (normalizeProviderKind (pr_Kind req), w));
  _ ← guard (blank (pr_Name req)) (Errorf ErrValidation "Provider name is required.");
  _ ← check (validateProviderRequest kind req);
  id ← NewUUID new_uuid;
  let p := applyProviderRequest id kind req in
  bindPW ← seal_given (pr_LDAPBindPW req);
  clientSecret ← seal_given (pr_OIDCClientSecret req);
  now ← now_unix clock;
  let row := provider_row (ap_seal bindPW clientSecret p) now in
  _ ← stmt (CreateAuthProvider (ap_seal bindPW clientSecret p) now)
        (fun _ => Errorf ErrConflict "A provider with that name already exists.");
  _ ← upd (SetAuditTarget r "auth_provider" id (ap_Name p));
  _ ← detail r "kind" kind;
  created (toAuthProviderView row)).

(** A secret that is not given stays, an empty one is cleared. *)
Definition UpdateAuthProviderHandler (body : result APIError authProviderRequest) : handler := handle (fun r =>
  let id := param "id" r in
  req ← decode body;
  existing ← query (GetAuthProvider id) ErrAPINotFound;
  let kind := ap_Kind existing in
  _ ← guard (blank (pr_Name req)) (Errorf ErrValidation "Provider name is required.");
  _ ← check (validateProviderRequest kind req);
  _ ← upd (SetAuditTarget r "auth_provider" id (ap_Name existing));
  bindPW ← seal_given (pr_LDAPBindPW req);
  clientSecret ← seal_given (pr_OIDCClientSecret req);
  now ← now_unix clock;
  _ ← stmt (UpdateAuthProvider (ap_seal bindPW clientSecret (applyProviderRequest id kind req))
              (bool_decide (is_Some (pr_LDAPBindPW req))) (bool_decide (is_Some (pr_OIDCClientSecret req))) now)
        (fun e => match e with
                  | ErrNotFound => ErrAPINotFound
                  | _ => Errorf ErrConflict "A provider with that name already exists."
                  end);
  fresh ← query (GetAuthProvider id) ErrInternal;
  ok (toAuthProviderView fresh)).

Definition DeleteAuthProviderHandler : handler := handle (fun r =>
  let id := param "id" r in
  _ ← upd (SetAuditTarget r "auth_provider" id "");
  _ ← stmt (DeleteAuthProvider id) MapStoreError;
  mret noContent).

Definition authTestResult (good : bool) (message sample : string) : json :=
  JObj ([("ok", JBool good); ("message", JString message)]
        ++ (if bool_decide (sample = "") then [] else [("sampleUser", JString sample)])).
Definition TestAuthProvider : handler := handle (fun r =>
  let id := param "id" r in
  prov ← query (GetAuthProvider id) ErrAPINotFound;
  _ ← upd (SetAuditTarget r "auth_provider" id (ap_Name prov));
  _ ← detail r "kind" (ap_Kind prov);
  at_ ← here;
  if bool_decide (ap_Kind prov = "ldap") then
    cfg ← need (ldapConfig open_sealed prov) ErrInternal;
    match ldapTest at_ cfg with
    | Err e => ok (authTestResult false (sanitizeRegistryError (ldap_Error e)) "")
    | Ok sample =>
        ok (authTestResult true
              (if bool_decide (sample = "")
               then "LDAP connection and service bind succeeded, but the base DN / user filter matched no users."
               else "LDAP connection, bind and sample search succeeded.") sample)
    end
  else if bool_decide (ap_Kind prov = "oidc") then
    match oidcTest (I := I) at_ (ap_OIDCIssuer prov) (ap_OIDCClientID prov) with
    | Err e => ok (authTestResult false (sanitizeRegistryError e) "")
    | Ok _ => ok (authTestResult true "OIDC discovery succeeded and the client configuration is valid." "")
    end
  else throw (Errorf ErrValidation "Unknown provider kind.")).

(** ** Mappings *)

Definition ListGroupMappings : handler := handle (fun r =>
  let providerID := param "id" r in
  _ ← query (GetAuthProvider providerID) ErrAPINotFound;
  maps ← ask (ListGroupRoleMappings providerID);
  ok (JList (toGroupMappingView <$> maps))).
Definition CreateGroupMapping (body : result APIError createMappingRequest) : handler := handle (fun r =>
  let providerID := param "id" r in
  req ← decode body;
  let group := trim_space (mr_ExternalGroup req) in
  _ ← guard (bool_decide (group = "")) (Errorf ErrValidation "externalGroup is required.");
  _ ← guard (blank (mr_RoleID req)) (Errorf ErrValidation "roleId is required.");
  prov ← query (GetAuthProvider providerID) ErrAPINotFound;
  _ ← upd (SetAuditTarget r "auth_provider" providerID (ap_Name prov));
  id ← NewUUID new_uuid;
  now ← now_unix clock;
  let m := mkMapping id providerID group (trim_space (mr_RoleID req)) now in
  _ ← stmt (CreateGroupRoleMapping m)
        (fun _ => Errorf ErrConflict "That group mapping already exists, or the role is invalid.");
  _ ← detail r "externalGroup" group;
  _ ← detail r "roleId" (gm_RoleID m);
  created (toGroupMappingView m)).
Definition DeleteGroupMapping : handler := handle (fun r =>
  let providerID := param "id" r in
  let mappingID := param "mappingId" r in
  _ ← upd (SetAuditTarget r "auth_provider" providerID "");
  _ ← detail r "mappingId" mappingID;
  _ ← stmt (DeleteGroupRoleMapping providerID mappingID) MapStoreError;
  mret noContent).
End Admin.

(** ** router.go: the routes of external sign-in *)

Inductive sso_call : Type :=
| SProviders
| SStart (q : gmap string string)
| SCallback (q : gmap string string)
| SLdapLogin (b : result APIError ldapLoginRequest)
| SList
| SGet
| SCreate (b : result APIError authProviderRequest)
| SUpdate (b : result APIError authProviderRequest)
| SDelete
| STest
| SListMappings
| SCreateMapping (b : result APIError createMappingRequest)
| SDeleteMapping.

Definition sso_method (c : sso_call) : string :=
  match c with
  | SProviders | SStart _ | SCallback _ | SList | SGet | SListMappings => "GET"
  | SLdapLogin _ | SCreate _ | STest | SCreateMapping _ => "POST"
  | SUpdate _ => "PUT"
  | SDelete | SDeleteMapping => "DELETE"
  end.

Section Routes.
Context (clock : nat -> Z) (random : nat -> string) (sha256_hex : string -> string)
  (url_Parse : string -> option (string * string)) (split_host_port : string -> option string) (deps : Deps)
  (new_uuid : nat -> string) (seal : string -> string -> string) (open_sealed : string -> option string)
  (lower_rune : Z -> Z) (publicURL : string) (s256 : string -> string) (http_redirect : request -> string -> string * json).
Context {C En I : Type} `{LdapLib C En} `{OidcLib I}.

Definition sso_inner (c : sso_call) : handler :=
  match c with
  | SProviders => AuthProviders
  | SStart q => OIDCStart clock random deps open_sealed publicURL s256 http_redirect q
  | SCallback q =>
      OIDCCallback clock random sha256_hex deps new_uuid open_sealed lower_rune publicURL http_redirect q
  | SLdapLogin b => LDAPLogin clock random sha256_hex deps new_uuid open_sealed lower_rune b
  | SList => ListAuthProvidersHandler
  | SGet => GetAuthProviderHandler
  | SCreate b => CreateAuthProviderHandler clock random new_uuid seal lower_rune b
  | SUpdate b => UpdateAuthProviderHandler clock random seal b
  | SDelete => DeleteAuthProviderHandler
  | STest => TestAuthProvider open_sealed (I := I)
  | SListMappings => ListGroupMappings
  | SCreateMapping b => CreateGroupMapping clock new_uuid b
  | SDeleteMapping => DeleteGroupMapping
  end.

Definition sso_mounted (c : sso_call) (h : handler) : handler :=
  let reading := protect clock sha256_hex url_Parse deps (RequirePermission "auth.provider.read" (fun _ => GlobalScope) h) in
  let writing action := protect clock sha256_hex url_Parse deps (gated clock action "auth.provider.write" (fun _ => GlobalScope) h) in
  match c with
  | SProviders => h
  | SStart _ => AuditWrap clock "auth.oidc.start" (bootstrapGate h)
  | SCallback _ => AuditWrap clock "auth.oidc.callback" (bootstrapGate h)
  | SLdapLogin _ => AuditWrap clock "auth.ldap.login" (bootstrapGate h)
  | SList | SGet | SListMappings => reading
  | SCreate _ => writing "auth.provider.create"
  | SUpdate _ => writing "auth.provider.update"
  | SDelete => writing "auth.provider.delete"
  | STest => writing "auth.provider.test"
  | SCreateMapping _ => writing "auth.provider.mapping.create"
  | SDeleteMapping => writing "auth.provider.mapping.delete"
  end.
Definition sso_route (c : sso_call) : handler :=
  base_chain random split_host_port deps (fun r w =>
    if bool_decide (rq_Method r = sso_method c) then sso_mounted c (sso_inner c) r w
    else WriteError r ErrMethodNotAllowed w).
End Routes.
