(* ===== verification/SsoFacts.v ===== *)
(** * External sign-in: what its steps do to the tables

    The frame of each step, the bindings a login leaves, and the answers of a
    directory and of an identity provider that a success rests on. *)
From S2P Require Import Prelude GoStd GoFacts Utf8 AuthStore Rbac Redact Middleware AuthApi AuthFacts SsoStore Ldap Oidc Sso Router AuthDemo SsoAdmin.

Lemma bind_run {E A B} (m : SE E A) (f : A -> SE E B) w :
  (m ≫= f) w = match m w with (Ok a, w') => f a w' | (Err e, w') => (Err e, w') end.
Proof. reflexivity. Qed.
Lemma lift_run {E F A} (f : E -> F) (m : SE E A) w :
  lift_err f m w = match m w with (Ok a, w') => (Ok a, w') | (Err e, w') => (Err (f e), w') end.
Proof. reflexivity. Qed.

(** ** Steps that leave a part of the database alone *)

Section Keeps.
Context {X : Type} (part : db -> X).

Definition keeps {E A} (m : SE E A) : Prop := forall w, part (aw_db (m w).2) = part (aw_db w).

Lemma keeps_ret {E A} (a : A) : keeps (E := E) (mret a).
Proof. by intros w. Qed.
Lemma keeps_throw {E A} (e : E) : keeps (A := A) (throw e).
Proof. by intros w. Qed.
Lemma keeps_bind {E A B} (m : SE E A) (f : A -> SE E B) : keeps m -> (forall a, keeps (f a)) -> keeps (m ≫= f).
Proof.
  intros Hm Hf w. unfold mbind, SE_bind. specialize (Hm w). destruct (m w) as [[a|e] w']; simpl in *; [|done].
  by rewrite Hf.
Qed.
Lemma keeps_same {E A} (m : SE E A) : (forall w, aw_db (m w).2 = aw_db w) -> keeps m.
Proof. intros H w. by rewrite H. Qed.
Lemma keeps_now {E} clock : keeps (E := E) (now_unix clock).
Proof. by intros w. Qed.
Lemma keeps_random {E} random : keeps (E := E) (RandomToken random).
Proof. by intros w. Qed.
Lemma keeps_uuid {E} new_uuid : keeps (E := E) (NewUUID new_uuid).
Proof. by intros w. Qed.
Lemma keeps_ask {E A} (f : db -> A) : keeps (E := E) (ask f).
Proof. by intros w. Qed.
Lemma keeps_here {E} : keeps (E := E) here.
Proof. by intros w. Qed.
Lemma keeps_exec {E} f : (forall d, part (f d) = part d) -> keeps (E := E) (exec f).
Proof. intros H w. apply H. Qed.
Lemma keeps_stmt {E} f (e : store_err -> E) : (forall d d', f d = Ok d' -> part d' = part d) -> keeps (stmt f e).
Proof. intros H w. unfold stmt. destruct (f (aw_db w)) eqn:Ef; simpl; [by apply H|done]. Qed.
Lemma keeps_query {E A} (f : db -> result store_err A) (e : E) : keeps (query f e).
Proof. intros w. unfold query. by destruct (f (aw_db w)). Qed.
Lemma keeps_guard {E} c (e : E) : keeps (guard c e).
Proof. intros w. by destruct c. Qed.
Lemma keeps_need {E A} (o : option A) (e : E) : keeps (need o e).
Proof. by destruct o. Qed.
Lemma keeps_or_throw {Y E A} (r : result Y A) (e : E) : keeps (or_throw r e).
Proof. by destruct r. Qed.
Lemma keeps_lift {E F A} (f : E -> F) (m : SE E A) : keeps m -> keeps (lift_err f m).
Proof. intros H w. unfold lift_err. specialize (H w). by destruct (m w) as [[a|e] w']. Qed.
Lemma keeps_audit {E} r f : keeps (E := E) (upd (on_audit r f)).
Proof. apply keeps_same. intros w. unfold upd, on_audit. simpl. by destruct (rq_Audited r). Qed.
Lemma keeps_cookies {E} c : keeps (E := E) (upd (add_cookie c)).
Proof. by intros w. Qed.
Lemma keeps_upd {E} f : (forall w, aw_db (f w) = aw_db w) -> keeps (upd (E := E) f).
Proof. intros H w. unfold upd. simpl. by rewrite H. Qed.
Lemma keeps_decode {A} (b : result APIError A) : keeps (decode b).
Proof. intros w. by destruct b. Qed.
Lemma keeps_check o : keeps (check o).
Proof. intros w. by destruct o. Qed.
Lemma keeps_tx {E A} (m : SE E A) : keeps m -> keeps (tx m).
Proof. intros H w. unfold tx. specialize (H w). by destruct (m w) as [[a|e] w']. Qed.
Lemma keeps_success {E} r source pid u : keeps (E := E) (ssoLoginSuccess r source pid u).
Proof. unfold ssoLoginSuccess, detail. repeat (apply keeps_bind; [apply keeps_audit|intros _]). apply keeps_audit. Qed.
Lemma keeps_denied {E A} r source pid why (e : E) : keeps (A := A) (denied r source pid why e).
Proof.
  unfold denied, ssoLoginDenied, detail. apply keeps_bind; [|by intros; apply keeps_throw].
  apply keeps_bind; [apply keeps_audit|intros _]. apply keeps_bind; [case_bool_decide; [apply keeps_ret|apply keeps_audit]|intros _].
  apply keeps_bind; [apply keeps_audit|intros _]. apply keeps_audit.
Qed.

(** A handler keeps what its statements keep. *)
Lemma handle_keeps body r w : keeps (body r) -> replies (body r) ->
  part (aw_db (handle body r w).2) = part (aw_db w).
Proof.
  intros Hk Hr. unfold handle. specialize (Hk w). specialize (Hr w).
  destruct (body r w) as [[reply|e] w']; simpl in *; [|done]. destruct (Hr _ _ eq_refl w') as (Hd & _). by rewrite Hd.
Qed.
End Keeps.

Create HintDb keeps.
#[export] Hint Resolve keeps_ret keeps_throw keeps_now keeps_random keeps_uuid keeps_ask keeps_here keeps_query keeps_guard
  keeps_need keeps_decode keeps_check keeps_or_throw keeps_audit keeps_cookies keeps_success keeps_denied : keeps.
Ltac keeps :=
  repeat first
    [ solve [eauto with keeps] | progress intros | progress cbv zeta
    | apply keeps_bind | apply keeps_lift | apply keeps_tx
    | apply keeps_upd; intros ?; first [done | unfold SetAuditTarget, on_audit; by case_match]
    | apply keeps_exec; intros ?; done | apply keeps_stmt; intros ?? Hstmt; unfold_stmt Hstmt
    | match goal with |- keeps _ (match ?x with _ => _ end) => destruct x end ]
with unfold_stmt H :=
  unfold RefreshExternalUser, CreateUser, CreateBinding, CreateSession, CreateAuthProvider, UpdateAuthProvider,
    DeleteAuthProvider, CreateGroupRoleMapping, DeleteGroupRoleMapping in H; repeat case_match; by simplify_eq/=.

(** What the provisioning of an identity touches: users and bindings. *)
Section Frame.
Context (clock : nat -> Z) (new_uuid : nat -> string) (lower_rune : Z -> Z).
Context {X : Type} (part : db -> X)
  (Hu : forall f d, part (set_users f d) = part d) (Hb : forall f d, part (set_bindings f d) = part d).

Lemma keeps_insert_bindings uid now roles : keeps part (insert_bindings new_uuid uid now roles).
Proof. induction roles as [|rid roles IH]; simpl; keeps. Qed.
Hint Resolve keeps_insert_bindings : keeps.
Lemma keeps_replace uid roles : keeps part (ReplaceExternalRoleBindings clock new_uuid uid roles).
Proof. unfold ReplaceExternalRoleBindings, delete_global_bindings. keeps. Qed.
Lemma keeps_upsert inp : keeps part (UpsertExternalUser clock new_uuid inp).
Proof. unfold UpsertExternalUser. keeps. Qed.
Hint Resolve keeps_replace keeps_upsert : keeps.
Lemma keeps_finish prov source ext : keeps part (finishExternalLogin clock new_uuid lower_rune prov source ext).
Proof. unfold finishExternalLogin. keeps. Qed.
End Frame.

(** ** The account of an identity *)

(** Rows are stored under their own id. *)
Definition users_keyed (d : db) : Prop := map_Forall (fun k u => u_ID u = k) (db_users d).

Lemma find_external source ext d u : FindUserByExternalID source ext d = Ok u ->
  exists k, db_users d !! k = Some u /\ u_AuthSource u = source /\ u_ExternalID u = ext.
Proof.
  unfold FindUserByExternalID. destruct (select_where _ _) as [|v l] eqn:E; [done|]. intros [= ->].
  assert (u ∈ u :: l) as Hin by (by left). rewrite <- E in Hin. unfold select_where in Hin.
  apply list_elem_of_filter in Hin as [Hp Hin]. apply andb_true_iff in Hp as [[Hs He]%andb_true_iff _].
  apply bool_decide_eq_true in Hs, He.
  apply list_elem_of_fmap in Hin as ([k v] & -> & Hkv%elem_of_map_to_list). by exists k.
Qed.

(** What a login may do to the accounts: create or refresh the one it signs in. *)
Definition only_account (source : string) (d d' : db) (u : StoreUser) : Prop :=
  users_keyed d' /\ db_users d' !! u_ID u = Some u /\
  (forall k, k <> u_ID u -> db_users d' !! k = db_users d !! k) /\
  (forall v, db_users d !! u_ID u = Some v -> u_AuthSource v = source /\ u_ExternalID v = u_ExternalID u /\
     u_PasswordHash v = u_PasswordHash u).

Section Account.
Context (clock : nat -> Z) (new_uuid : nat -> string) (lower_rune : Z -> Z).

Lemma upsert_account inp w u w' : users_keyed (aw_db w) -> u_AuthSource inp <> "" ->
  UpsertExternalUser clock new_uuid inp w = (Ok u, w') ->
  only_account (u_AuthSource inp) (aw_db w) (aw_db w') u /\
  u_AuthSource u = u_AuthSource inp /\ u_ExternalID u = u_ExternalID inp /\ (u_IsActive inp = true -> u_IsActive u = true).
Proof.
  intros Hk Hs. unfold UpsertExternalUser. rewrite (bool_decide_eq_false_2 _ Hs).
  unfold mbind, SE_bind, now_unix, ask. cbn [aw_db].
  destruct (FindUserByExternalID _ _ _) as [v|[]] eqn:Ef; try done.
  - apply find_external in Ef as (k & Hv & <- & He). pose proof (Hk k v Hv) as Hid. simpl in Hid. subst k.
    unfold stmt. cbn [aw_db]. unfold RefreshExternalUser. destruct (existsb _ _); [done|]. unfold GetUserByID.
    simpl. rewrite lookup_alter_eq, Hv. simpl. intros [= <- <-]. simpl. split_and!; try done.
    + split_and!; simpl.
      * intros j x. simpl. rewrite lookup_alter. case_decide; [subst j; rewrite Hv; by intros [= <-]|by apply Hk].
      * by rewrite lookup_alter_eq, Hv.
      * intros j Hj. by rewrite lookup_alter_ne.
      * intros x Hx. rewrite Hv in Hx. injection Hx as <-. by rewrite He.
  - set (m := if bool_decide (u_ID inp = "") then _ else _).
    intros H. assert (exists id w1, m (mkWorld (aw_db w) (S (aw_tick w)) (aw_rand w) (aw_rec w) (aw_hdr w) (aw_cookies w)) =
      (Ok id, w1) /\ aw_db w1 = aw_db w) as (id & w1 & Hm & Hd) by (unfold m; destruct (bool_decide (u_ID inp = "")); eexists _, _; split; reflexivity).
    rewrite Hm in H. unfold stmt in H. cbn [aw_db] in H. rewrite Hd in H. unfold CreateUser in H. cbn [u_ID] in H.
    destruct (bool_decide _ || existsb _ _) eqn:Ec; [done|]. apply orb_false_iff in Ec as [Ec%bool_decide_eq_false _].
    unfold GetUserByID in H. simpl in H. rewrite lookup_insert_eq in H.
    unfold mret, SE_ret in H. injection H as <- <-. simpl. rewrite (bool_decide_eq_false_2 _ Hs).
    split_and!; try done. split_and!; simpl.
    + unfold users_keyed. simpl. by apply map_Forall_insert_2.
    + by rewrite lookup_insert_eq.
    + intros j Hj. by rewrite lookup_insert_ne.
    + intros x Hx. rewrite Hx in Ec. destruct Ec. by eexists.
Qed.

Lemma keeps_users_replace uid roles : keeps db_users (ReplaceExternalRoleBindings clock new_uuid uid roles).
Proof.
  assert (forall now rs, keeps db_users (insert_bindings new_uuid uid now rs)) as Hi.
  { intros now rs. induction rs as [|rid rs IH]; simpl; keeps. }
  unfold ReplaceExternalRoleBindings, delete_global_bindings. keeps.
Qed.

(** A provisioning that succeeds: the account, its roles, its permissions. *)
Lemma finish_cases prov source ext w u perms w' :
  finishExternalLogin clock new_uuid lower_rune prov source ext w = (Ok (u, perms), w') ->
  exists id w1 w2,
    UpsertExternalUser clock new_uuid
      (mkUser id (external_username ext) (ex_Email ext) ExternalPasswordSentinel "" false None true false 0 None None
         source (ex_ExternalID ext) (ap_ID prov) 0 0) w1 = (Ok u, w2) /\ aw_db w1 = aw_db w /\
    ReplaceExternalRoleBindings clock new_uuid (u_ID u) (roles_of lower_rune prov ext (aw_db w2)) w2 = (Ok tt, w') /\
    perms = effectivePermissions (u_ID u) (aw_db w').
Proof.
  unfold finishExternalLogin, mbind, SE_bind, NewUUID, ask, mret, SE_ret. intros H.
  destruct (UpsertExternalUser _ _ _ _) as [[v|e] w2] eqn:Eu; [|done].
  destruct (ReplaceExternalRoleBindings _ _ _ _ _) as [[[]|e] w3] eqn:Er; [|done]. injection H as <- <- <-.
  eexists _, _, w2. split_and!; [exact Eu|done|exact Er|done].
Qed.

Lemma finish_account prov source ext w u perms w' : users_keyed (aw_db w) -> source <> "" ->
  finishExternalLogin clock new_uuid lower_rune prov source ext w = (Ok (u, perms), w') ->
  only_account source (aw_db w) (aw_db w') u /\ u_AuthSource u = source /\ u_ExternalID u = ex_ExternalID ext /\ u_IsActive u = true.
Proof.
  intros Hk Hs (id & w1 & w2 & Hu & Hd & Hr & _)%finish_cases. rewrite <- Hd in Hk |- *.
  apply upsert_account in Hu as ((K & L & F & O) & A & E & Ac); try done. simpl in *.
  pose proof (keeps_users_replace (u_ID u) (roles_of lower_rune prov ext (aw_db w2)) w2) as Hsame. rewrite Hr in Hsame. simpl in Hsame.
  unfold only_account, users_keyed. rewrite Hsame. split_and!; auto.
Qed.
End Account.

(** ** The bindings a login leaves *)

Lemma select_where_insert {A} (p : A -> bool) (t : gmap string A) k a : t !! k = None -> p a = true ->
  select_where p (<[k := a]> t) ≡ₚ a :: select_where p t.
Proof.
  intros Hk Hp. unfold select_where. rewrite (map_to_list_insert t k a Hk). simpl. by rewrite filter_cons_True.
Qed.
Lemma delete_where_insert {A} (p : A -> bool) (t : gmap string A) k a : t !! k = None -> p a = true ->
  delete_where p (<[k := a]> t) = delete_where p t.
Proof.
  intros Hk Hp. unfold delete_where. rewrite map_filter_insert_False; [|simpl; by rewrite Hp].
  by rewrite delete_id.
Qed.
Lemma select_where_delete {A} (p : A -> bool) (t : gmap string A) : select_where p (delete_where p t) = [].
Proof.
  apply list.elem_of_nil_inv. intros a Ha. unfold select_where in Ha. apply list_elem_of_filter in Ha as [Hp Ha].
  apply list_elem_of_fmap in Ha as ([k x] & -> & Hx%elem_of_map_to_list). unfold delete_where in Hx.
  apply map_lookup_filter_Some in Hx as [_ Hf]. simpl in *. congruence.
Qed.
Lemma delete_where_twice {A} (p : A -> bool) (t : gmap string A) : delete_where p (delete_where p t) = delete_where p t.
Proof. unfold delete_where. rewrite map_filter_filter. apply map_filter_ext. naive_solver. Qed.

(** A global binding of an account. *)
Definition global_of (uid : string) (b : Binding) : bool :=
  bool_decide (bi_UserID b = uid) && bool_decide (bi_ScopeType b = "global").

Section Bindings.
Context (clock : nat -> Z) (new_uuid : nat -> string).

Lemma insert_bindings_ok uid now roles w w' : insert_bindings new_uuid uid now roles w = (Ok tt, w') ->
  bi_RoleID <$> select_where (global_of uid) (db_bindings (aw_db w')) ≡ₚ
    roles ++ (bi_RoleID <$> select_where (global_of uid) (db_bindings (aw_db w))) /\
  delete_where (global_of uid) (db_bindings (aw_db w')) = delete_where (global_of uid) (db_bindings (aw_db w)).
Proof.
  revert w. induction roles as [|rid roles IH]; intros w; simpl; [by intros [= <-]|].
  unfold mbind, SE_bind, NewUUID, stmt. cbn [aw_db]. destruct (CreateBinding _ _) as [d|] eqn:Ec; [|done].
  intros [Hp Hd]%IH. simpl in Hp, Hd. unfold CreateBinding in Ec. destruct (_ || _) eqn:Eo in Ec; [done|]. injection Ec as <-.
  rewrite !orb_false_iff in Eo. destruct Eo as [[[Hk%bool_decide_eq_false _] _] _].
  apply eq_None_not_Some in Hk. simpl in Hp, Hd, Hk.
  assert (global_of uid (mkBinding (new_uuid (aw_rand w)) uid rid "global" None now) = true) as Hg.
  { unfold global_of. simpl. by rewrite bool_decide_eq_true_2. }
  rewrite (select_where_insert _ _ _ _ Hk Hg) in Hp. rewrite (delete_where_insert _ _ _ _ Hk Hg) in Hd.
  split; [|done]. rewrite Hp. simpl. by rewrite Permutation_middle.
Qed.

Lemma replace_bindings uid roles w x w' : ReplaceExternalRoleBindings clock new_uuid uid roles w = (x, w') ->
  match x with
  | Ok _ =>
      bi_RoleID <$> select_where (global_of uid) (db_bindings (aw_db w')) ≡ₚ dedup (filter (fun r => r <> "") roles) /\
      delete_where (global_of uid) (db_bindings (aw_db w')) = delete_where (global_of uid) (db_bindings (aw_db w))
  | Err _ => db_bindings (aw_db w') = db_bindings (aw_db w)
  end.
Proof.
  unfold ReplaceExternalRoleBindings, tx.
  change (delete_global_bindings uid) with (set_bindings (delete_where (global_of uid))).
  unfold mbind at 1, SE_bind at 1, exec, now_unix, mbind, SE_bind. cbn [aw_db on_db].
  destruct (insert_bindings _ _ _ _ _) as [[[]|e] w2] eqn:Ei; intros [= <- <-]; [|done].
  apply insert_bindings_ok in Ei as [Hp Hd]. simpl in *.
  rewrite select_where_delete, app_nil_r in Hp. by rewrite delete_where_twice in Hd.
Qed.
End Bindings.

(** The account is settled before the bindings: they, and the tables of external
    sign-in, are as they were. *)
Lemma keeps_bindings_upsert clock new_uuid inp w x w' : UpsertExternalUser clock new_uuid inp w = (x, w') ->
  db_bindings (aw_db w') = db_bindings (aw_db w) /\ db_sso (aw_db w') = db_sso (aw_db w).
Proof.
  intros Hx. assert (keeps (fun d => (db_bindings d, db_sso d)) (UpsertExternalUser clock new_uuid inp)) as Hk.
  { unfold UpsertExternalUser. keeps. }
  specialize (Hk w). rewrite Hx in Hk. by injection Hk.
Qed.
Lemma finish_failed clock new_uuid lower_rune prov source ext w e w' :
  finishExternalLogin clock new_uuid lower_rune prov source ext w = (Err e, w') -> db_bindings (aw_db w') = db_bindings (aw_db w).
Proof.
  unfold finishExternalLogin. rewrite bind_run. destruct (NewUUID new_uuid w) as [[id|e1] w1] eqn:Ei.
  2: { unfold NewUUID in Ei. done. }
  assert (aw_db w1 = aw_db w) as <- by (unfold NewUUID in Ei; by injection Ei as _ <-).
  rewrite bind_run. destruct (UpsertExternalUser _ _ _ w1) as [[u|e2] w2] eqn:Eu; apply keeps_bindings_upsert in Eu as [Hb _].
  - rewrite !bind_run. simpl. rewrite bind_run. destruct (ReplaceExternalRoleBindings _ _ _ _ w2) as [[[]|e3] w3] eqn:Er; simpl; [done|].
    intros [= _ <-]. apply replace_bindings in Er. by rewrite Er.
  - by intros [= _ <-].
Qed.

(** ** Sessions *)

Section Sessions.
Context (clock : nat -> Z) (random : nat -> string) (sha256_hex : string -> string) (deps : Deps)
  (new_uuid : nat -> string) (lower_rune : Z -> Z).

Lemma keeps_sessions_finish prov source ext : keeps db_sessions (finishExternalLogin clock new_uuid lower_rune prov source ext).
Proof. by apply keeps_finish. Qed.

(** Minting stores one session, for that account, or nothing. *)
Lemma mint_cases r uid amr w x w' : mintSession clock random sha256_hex deps r uid amr w = (x, w') ->
  db_users (aw_db w') = db_users (aw_db w) /\ db_bindings (aw_db w') = db_bindings (aw_db w) /\ db_sso (aw_db w') = db_sso (aw_db w) /\
  match x with
  | Ok (_, s) => db_sessions (aw_db w') = <[ss_ID s := s]> (db_sessions (aw_db w)) /\ ss_UserID s = uid /\ ss_AMR s = amr
  | Err _ => db_sessions (aw_db w') = db_sessions (aw_db w)
  end.
Proof.
  unfold mintSession, mbind, SE_bind, RandomToken, now_unix, stmt. cbn [aw_db].
  destruct (CreateSession _ _) as [d|] eqn:Ec; intros [= <- <-]; [|done].
  unfold CreateSession in Ec. destruct (_ || _) in Ec; [done|]. by injection Ec as <-.
Qed.

Lemma sign_in_cases {E} r prov source amr ext (fail : E) w x w' :
  sign_in clock random sha256_hex deps new_uuid lower_rune r prov source amr ext fail w = (x, w') ->
  match x with
  | Ok (u, perms, s) => exists w1,
      finishExternalLogin clock new_uuid lower_rune prov source ext w = (Ok (u, perms), w1) /\
      db_users (aw_db w') = db_users (aw_db w1) /\ db_bindings (aw_db w') = db_bindings (aw_db w1) /\
      db_sessions (aw_db w') = <[ss_ID s := s]> (db_sessions (aw_db w)) /\ ss_UserID s = u_ID u /\ ss_AMR s = amr
  | Err _ => db_sessions (aw_db w') = db_sessions (aw_db w)
  end.
Proof.
  unfold sign_in. unfold mbind at 1, SE_bind at 1.
  pose proof (keeps_sessions_finish prov source ext w) as Hf.
  destruct (finishExternalLogin _ _ _ _ _ _ w) as [[[u perms]|e] w1] eqn:Ef; simpl in Hf.
  - unfold mbind at 1, SE_bind at 1, lift_err at 1.
    destruct (mintSession _ _ _ _ _ _ _ w1) as [[[raw s]|e] w2] eqn:Em; pose proof (mint_cases _ _ _ _ _ _ Em) as (Hu & Hb & _ & Hs).
    + destruct Hs as (Hs & Hid & Ham). unfold mbind at 1, SE_bind at 1, lift_err, setAuthCookies, upd. simpl.
      unfold mbind, SE_bind.
      set (w3 := add_cookie _ (add_cookie _ w2)).
      pose proof (keeps_success (E := E) db_users r source (ap_ID prov) u w3) as K1.
      pose proof (keeps_success (E := E) db_bindings r source (ap_ID prov) u w3) as K2.
      pose proof (keeps_success (E := E) db_sessions r source (ap_ID prov) u w3) as K3.
      destruct (ssoLoginSuccess r source (ap_ID prov) u w3) as [[y|e] w4] eqn:Es; simpl in K1, K2, K3.
      * intros [= <- <-]. exists w1. rewrite K1, K2, K3, Hu, Hb, Hs, Hf. by split_and!.
      * by unfold ssoLoginSuccess, detail, upd, mbind, SE_bind in Es.
    + intros [= <- <-]. by rewrite Hs.
  - intros H. pose proof (keeps_denied (E := E) (A := StoreUser * list string * Session) db_sessions r source (ap_ID prov) "provisioning_failed" fail w1) as Hk.
    rewrite H in Hk. simpl in Hk. assert (exists e', x = Err e') as [e' ->].
    { unfold denied, ssoLoginDenied, detail, upd, mbind, SE_bind in H. destruct (bool_decide _) in H; simpl in H; injection H as <- _; by eexists. }
    by rewrite Hk.
Qed.
End Sessions.

(** ** What a directory said *)

Section Directory.
Context (lower_rune : Z -> Z) {C En : Type} `{LdapLib C En}.

(** The directory let the service account search, the search found the entry
    first, and the directory accepted that entry's name with the password. *)
Definition directory_accepts (at_ : nat) (cfg : LDAPConfig) (username password : string) (ident : LdapIdentity) : Prop :=
  exists conn conn1 conn2 conn3 entry rest,
    dial at_ cfg = Ok conn /\ serviceBind cfg conn = (Ok tt, conn1) /\
    Search (user_search cfg username) conn1 = (Found (entry :: rest), conn2) /\
    Bind (en_DN entry) password conn2 = (Ok tt, conn3) /\
    password <> "" /\ trim_space username <> "" /\ trim_space (lc_BaseDN cfg) <> "" /\
    ident = more_groups lower_rune cfg entry (buildIdentity lower_rune cfg username entry) conn3.

Lemma Authenticate_spec at_ cfg username password ident :
  Authenticate lower_rune at_ cfg username password = Ok ident <-> directory_accepts at_ cfg username password ident.
Proof.
  unfold Authenticate, findUser, directory_accepts. split.
  - destruct (bool_decide (trim_space username = "") || _) eqn:Eb; [done|].
    apply orb_false_iff in Eb as [Hu%bool_decide_eq_false Hp%bool_decide_eq_false].
    destruct (dial at_ cfg) as [conn|] eqn:Ed; [|done]. destruct (serviceBind cfg conn) as [[[]|] conn1] eqn:Es; [|done].
    case_bool_decide as Hb; [done|]. destruct (Search _ conn1) as [[[|entry rest]| |] conn2] eqn:Ef; try done.
    destruct (Bind _ _ conn2) as [[[]|] conn3] eqn:Ebd; [|done]. intros [= <-].
    eexists _, _, _, _, _, _. split_and!; first [done|exact Ebd|exact Ef|exact Es].
  - intros (conn & conn1 & conn2 & conn3 & entry & rest & -> & Es & Ef & Eb & Hp & Hu & Hb & ->).
    rewrite !bool_decide_eq_false_2 by done. simpl. rewrite Es. by rewrite Ef, Eb.
Qed.
End Directory.

(** ** What an identity provider said *)

Section IdP.
Context {I : Type} `{OidcLib I}.

(** The provider the issuer discovers exchanged the code, with the verifier kept
    in the state, for a token that verifies for the client, carries the nonce of
    the state, and whose claims describe the identity. *)
Definition idp_vouches (at_ : nat) (params : OidcParams) (code : string) (st : OIDCAuthState) (ident : OidcIdentity) : Prop :=
  exists idp raw claims,
    NewProvider at_ (trim_space (op_Issuer params)) = Ok idp /\
    ExchangeCode at_ idp (oauth_config params) code (os_PKCEVerifier st) = Ok (Some (JString raw)) /\ raw <> "" /\
    VerifyIDToken at_ idp (op_ClientID params) raw = Ok (os_Nonce st, Ok claims) /\ os_Nonce st <> "" /\
    identity_of claims params = Ok ident.

Lemma vouched at_ params idp code raw st ident :
  NewVerifier at_ (op_Issuer params) (op_ClientID params) = Ok idp ->
  Exchange at_ params idp code (os_PKCEVerifier st) = Ok raw ->
  VerifyAndClaims at_ idp (op_ClientID params) raw (os_Nonce st) params = Ok ident ->
  idp_vouches at_ params code st ident.
Proof.
  unfold NewVerifier, Exchange, VerifyAndClaims. intros Hn He Hv.
  destruct (bool_decide _) in Hn; [done|]. destruct (bool_decide _) in Hn; [done|].
  destruct (NewProvider _ _) as [i|] eqn:Ep; [|done]. injection Hn as ->.
  destruct (ExchangeCode _ _ _ _ _) as [[[]|]|] eqn:Ee; try done.
  destruct (bool_decide (_ = _)) eqn:Hr in He; [done|]. apply bool_decide_eq_false in Hr. injection He as ->.
  destruct (VerifyIDToken _ _ _ _) as [[n c]|] eqn:Et; [|done].
  destruct (bool_decide (os_Nonce st = "") || _) eqn:Eb in Hv; [done|].
  apply orb_false_iff in Eb as [Hne%bool_decide_eq_false Heq%negb_false_iff%bool_decide_eq_true]. subst n.
  destruct c as [claims|]; [|done]. by exists idp, raw, claims.
Qed.
End IdP.

(** ** A small instance of external sign-in

    A directory with one person, an issuer that knows another, a provider for each,
    one group mapping and one pending state, on top of the accounts of AuthDemo. *)

(** ** The libraries *)

Record demo_entry := mkEntry { de_DN : string; de_attrs : gmap string (list string) }.
Definition carol : demo_entry :=
  mkEntry "uid=carol,dc=example" (list_to_map [("uid", ["carol"]); ("mail", ["carol@example.org"]); ("entryUUID", ["uuid-carol"]);
    ("memberOf", ["cn=Operators,dc=example"])]).
#[export] Instance demo_ldap : LdapLib nat demo_entry := {
  DialURL at_ url tls := if has_prefix url "ldap" then Ok 0%nat else Err "unreachable";
  StartTLS tls c := Ok c;
  Bind dn pw c := if bool_decide (pw = "pw-" +:+ dn) then (Ok tt, S c) else (Err "invalid", c);
  UnauthenticatedBind dn c := (Err "anonymous bind refused", c);
  Search req c := (Found (if bool_decide (sr_Filter req = "(uid=carol)") then [carol] else []), c);
  en_DN := de_DN;
  GetAttributeValue a e := default "" (head (default [] (de_attrs e !! a)));
  GetAttributeValues a e := default [] (de_attrs e !! a);
  EscapeFilter s := s;
  ParseDN s := None }.

#[export] Instance demo_oidc : OidcLib string := {
  NewProvider at_ issuer := if bool_decide (issuer = "https://idp.example") then Ok issuer else Err "not found";
  AuthCodeURL_of idp cfg state nonce challenge := idp +:+ "/authorize?state=" +:+ state +:+ "&nonce=" +:+ nonce;
  ExchangeCode at_ idp cfg code verifier :=
    if bool_decide (code = "code-dan" /\ verifier = "verifier-1") then Ok (Some (JString "token-dan")) else Err "invalid_grant";
  VerifyIDToken at_ idp clientID raw :=
    if bool_decide (raw = "token-dan" /\ clientID = "castor")
    then Ok ("nonce-1", Ok (list_to_map [("oid", JString "oid-dan"); ("preferred_username", JString "dan");
                                         ("groups", JList [JString "operators"])]))
    else Err "bad signature" }.

Definition demo_lower_rune (z : Z) : Z := z.
Definition demo_redirect (r : request) (url : string) : string * json := (url, JNull).
Definition demo_s256 (s : string) : string := "s256:" +:+ s.

(** ** The tables *)

Definition demo_provider (id kind : string) : AuthProvider :=
  mkProvider id id kind true "" "ldap.example" 389 "none" false "cn=svc" "gcm:pw-cn=svc" "dc=example" "(uid=%s)" "uid" "mail"
    "displayName" "" "" "memberOf" "https://idp.example" "castor" "gcm:client" "https://castor.example/cb" "" "" "" "" 0 0.
Definition demo_sso : sso_tables :=
  mkSSO (<["corp" := demo_provider "corp" "ldap"]> (<["idp" := demo_provider "idp" "oidc"]> ∅))
    (<["m1" := mkMapping "m1" "corp" "operators" "role-ops" 0]> (<["m2" := mkMapping "m2" "idp" "Operators" "role-ops" 0]> ∅))
    (<["state-1" := mkOIDCState "state-1" "idp" "nonce-1" "verifier-1" "/vms" 900 1500]> ∅).
Definition demo_sso_world : world :=
  mkWorld (set_sso (fun _ => demo_sso) (demo_db false)) 0 0 (withAudit "") ∅ [].

Definition demo_ldap_login : result APIError ldapLoginRequest := Ok (mkLdapLogin "carol" "pw-uid=carol,dc=example" "").
Definition demo_query : gmap string string := list_to_map [("code", "code-dan"); ("state", "state-1")].
Definition demo_sso_req (who : string) (c : sso_call) (params : list (string * string)) : request :=
  mkReq (sso_method c) "/api/v1" "castor.example" "10.0.0.7:5555" true
    (<["Origin" := "https://castor.example"]> (<["X-Castor-CSRF" := "csrf-" +:+ who]> ∅))
    [("castor_session", "cookie-" +:+ who)] (list_to_map params) None false "" false.

Abbreviation demo_sso_inner := (sso_inner demo_clock demo_random demo_sha demo_deps demo_uuid demo_seal demo_open
  demo_lower_rune "" demo_s256 demo_redirect (C := nat) (En := demo_entry) (I := string)) (only parsing).
Abbreviation demo_sso_serve c := (sso_mounted demo_clock demo_sha demo_url demo_deps c (demo_sso_inner c)) (only parsing).

(** Both logins go through; the roles are those of the mapped group. *)
Example demo_ldap_in : status_of (demo_sso_serve (SLdapLogin demo_ldap_login) (demo_sso_req "" (SLdapLogin demo_ldap_login) []) demo_sso_world) = 200.
Proof. vm_compute. reflexivity. Qed.
Example demo_oidc_in :
  let x := demo_sso_serve (SCallback demo_query) (demo_sso_req "" (SCallback demo_query) []) demo_sso_world in
  (status_of x, aw_hdr x.2 !! "Location", size (db_sessions (aw_db x.2)), length (db_audit (aw_db x.2))) =
  (302, Some "/vms", 3%nat, 1%nat).
Proof. vm_compute. reflexivity. Qed.

Lemma demo_keyed : users_keyed (aw_db demo_sso_world).
Proof.
  apply map_Forall_insert_2; [reflexivity|]. apply map_Forall_insert_2; [reflexivity|]. apply map_Forall_empty.
Qed.
