(* ===== verification/SsoProps.v ===== *)
(** * External sign-in: what it guarantees

    Who gets a session, what a state of the OIDC flow is good for, the roles a
    login leaves, what the administration shows, and where the code does not do
    what it says. *)
From S2P Require Import Prelude GoStd GoFacts Utf8 AuthStore Rbac Redact Middleware AuthApi Router AuthFacts AuthDemo.
From S2P Require Import SsoStore Ldap Oidc Sso SsoAdmin SsoFacts.

Section Props.
Context (clock : nat -> Z) (random : nat -> string) (sha256_hex : string -> string)
  (url_Parse : string -> option (string * string)) (deps : Deps)
  (new_uuid : nat -> string) (seal : string -> string -> string) (open_sealed : string -> option string)
  (lower_rune : Z -> Z) (publicURL : string) (s256 : string -> string) (http_redirect : request -> string -> string * json).
Context {C En I : Type} `{LdapLib C En} `{OidcLib I}.

Abbreviation inner := (sso_inner clock random sha256_hex deps new_uuid seal open_sealed lower_rune publicURL s256
  http_redirect (C := C) (En := En) (I := I)) (only parsing).
Abbreviation serve_sso c := (sso_mounted clock sha256_hex url_Parse deps c (inner c)) (only parsing).

(** ** Who gets a session *)

Lemma enabled_provider id kind w x w' : enabledProviderOfKind id kind w = (x, w') ->
  aw_db w' = aw_db w /\ aw_tick w' = aw_tick w /\
  forall p, x = Ok p -> ap_Enabled p = true /\ ap_Kind p = kind /\ exists k, providers (aw_db w) !! k = Some p.
Proof.
  unfold enabledProviderOfKind, mbind, SE_bind, query, guard, ask. destruct (negb (bool_decide (trim_space id = ""))).
  - unfold GetAuthProvider. destruct (providers (aw_db w) !! trim_space id) as [p|] eqn:Ep; [|by intros [= <- <-]].
    destruct (negb (ap_Enabled p) || _) eqn:Eb; simpl; [by intros [= <- <-]|]. intros [= <- <-].
    split_and!; try done. intros q [= <-]. apply orb_false_iff in Eb as [He%negb_false_iff Hk%negb_false_iff%bool_decide_eq_true].
    split_and!; [done|done|by eexists].
  - destruct (filter _ _) as [|p [|]] eqn:Ef; intros [= <- <-]; try done. split_and!; try done. intros q [= <-].
    assert (p ∈ [p]) as Hp by (by left). rewrite <- Ef in Hp. apply list_elem_of_filter in Hp as [Hk Hp].
    unfold ListEnabledAuthProviders in Hp. rewrite merge_sort_Permutation in Hp. unfold select_where in Hp.
    apply list_elem_of_filter in Hp as [He Hp]. apply list_elem_of_fmap in Hp as ([k y] & -> & Hy%elem_of_map_to_list). eauto.
Qed.

(** What stands behind a session that a sign-in creates. *)
Definition vouched_session (c : sso_call) (r : request) (w : world) (prov : AuthProvider) (ext : externalIdentity) (amr : string) : Prop :=
  match c with
  | SLdapLogin (Ok req) =>
      amr = AMRLDAP /\ ap_Kind prov = "ldap" /\
      exists at_ cfg ident, ldapConfig open_sealed prov = Some cfg /\
        directory_accepts lower_rune at_ cfg (trim_space (ll_Username req)) (ll_Password req) ident /\
        ext = of_ldap (trim_space (ll_Username req)) ident
  | SCallback q =>
      amr = AMROIDC /\ ap_Kind prov = "oidc" /\
      exists at_ params st ident, oidcParams deps open_sealed publicURL prov r = Some params /\
        states (aw_db w) !! qget q "state" = Some st /\ clock (aw_tick w) <= os_ExpiresAt st /\
        providers (aw_db w) !! os_ProviderID st = Some prov /\ idp_vouches at_ params (qget q "code") st ident /\
        ext = of_oidc ident
  | _ => False
  end.

Lemma consume_cases state w x w' : ConsumeOIDCAuthState clock state w = (x, w') ->
  db_users (aw_db w') = db_users (aw_db w) /\ db_sessions (aw_db w') = db_sessions (aw_db w) /\
  db_bindings (aw_db w') = db_bindings (aw_db w) /\ providers (aw_db w') = providers (aw_db w) /\
  states (aw_db w') = delete state (states (aw_db w)) /\
  match x with
  | Ok st => states (aw_db w) !! state = Some st /\ clock (aw_tick w) <= os_ExpiresAt st
  | Err _ => aw_db w' = aw_db w \/ is_Some (states (aw_db w) !! state)
  end.
Proof.
  unfold ConsumeOIDCAuthState, mbind, SE_bind, ask, exec, now_unix. cbn [aw_db].
  destruct (states (aw_db w) !! state) as [st|] eqn:Es; simpl.
  - destruct (os_ExpiresAt st <? clock (aw_tick w)) eqn:Et; intros [= <- <-]; simpl; split_and!; try done; [by right|lia].
  - intros [= <- <-]. split_and!; try done; [by rewrite delete_id|by left].
Qed.

Lemma callback_identity_cases r st code w x w' :
  callback_identity deps open_sealed publicURL r st code w = (x, w') ->
  aw_db w' = aw_db w /\
  forall prov ident, x = Ok (prov, ident) ->
    providers (aw_db w) !! os_ProviderID st = Some prov /\ ap_Enabled prov = true /\ ap_Kind prov = "oidc" /\
    exists at_ params, oidcParams deps open_sealed publicURL prov r = Some params /\ idp_vouches at_ params code st ident.
Proof.
  intros Hx. assert (keeps (fun d => d) (callback_identity deps open_sealed publicURL r st code)) as Hk.
  { unfold callback_identity. keeps. }
  specialize (Hk w). rewrite Hx in Hk. split; [done|]. intros prov ident ->. revert Hx.
  unfold callback_identity, mbind, SE_bind, ask, GetAuthProvider. cbn [aw_db].
  assert (forall a b c w1, (denied r "oidc" a b c w1 : result string (AuthProvider * OidcIdentity) * world) <> (Ok (prov, ident), w')) as Hd.
  { intros a b c w1. unfold denied, ssoLoginDenied, detail, upd, mbind, SE_bind. by case_bool_decide. }
  destruct (providers (aw_db w) !! os_ProviderID st) as [p|] eqn:Ep; [|intros Hx; by apply Hd in Hx].
  destruct (negb (ap_Enabled p) || _) eqn:Eb; [intros Hx; by apply Hd in Hx|].
  apply orb_false_iff in Eb as [He%negb_false_iff Hkd%negb_false_iff%bool_decide_eq_true].
  unfold need. destruct (oidcParams _ _ _ p r) as [params|] eqn:Epar; [|done]. unfold here. simpl.
  destruct (NewVerifier _ _ _) as [idp|] eqn:Eidp; [|intros Hx; by apply Hd in Hx].
  destruct (Exchange _ _ _ _ _) as [raw|] eqn:Ex; [|intros Hx; by apply Hd in Hx].
  destruct (VerifyAndClaims _ _ _ _ _ _) as [i|] eqn:Ev; [|intros Hx; by apply Hd in Hx].
  intros [= <- <- _]. split_and!; try done. exists (aw_tick w), params. split; [done|]. by eapply vouched.
Qed.

Lemma Redirect_db r url w : aw_db (Redirect http_redirect r url w).2 = aw_db w.
Proof. unfold Redirect. destruct (http_redirect r url). simpl. by repeat case_match. Qed.

Abbreviation callback := (OIDCCallback clock random sha256_hex deps new_uuid open_sealed lower_rune publicURL http_redirect
  (I := I)) (only parsing).

(** The callback is refused at once, or consumes the state it names, finds the
    identity, and signs it in. *)
Lemma callback_cases q r w :
  ((qget q "error" <> "" \/ qget q "code" = "" \/ qget q "state" = "") /\
   exists dest code, callback q r w = ssoRedirectError http_redirect r dest code w) \/
  (qget q "error" = "" /\ qget q "code" <> "" /\ qget q "state" <> "" /\
   exists x w1, ConsumeOIDCAuthState clock (qget q "state") w = (x, w1) /\
   match x with
   | Err _ => exists w2, aw_db w2 = aw_db w1 /\ callback q r w = ssoRedirectError http_redirect r "/" "invalid_state" w2
   | Ok st => exists y w2, callback_identity deps open_sealed publicURL r st (qget q "code") w1 = (y, w2) /\
       match y with
       | Err e => callback q r w = ssoRedirectError http_redirect r (os_RedirectAfter st) e w2
       | Ok (prov, ident) => exists z w3,
           sign_in clock random sha256_hex deps new_uuid lower_rune r prov "oidc" AMROIDC (of_oidc ident)
             (os_RedirectAfter st, "server_error") w2 = (z, w3) /\
           callback q r w = match z with
                            | Ok _ => Redirect http_redirect r (sanitizeRedirect (os_RedirectAfter st)) w3
                            | Err e => ssoRedirectError http_redirect r e.1 e.2 w3
                            end
       end
   end).
Proof.
  unfold OIDCCallback, callback_body. destruct (bool_decide (qget q "error" = "")) eqn:E1; cbn [negb].
  2: { apply bool_decide_eq_false in E1. left. split; [by left|by eexists _, _]. }
  apply bool_decide_eq_true in E1. destruct (bool_decide (qget q "code" = "") || _) eqn:E2.
  { apply orb_true_iff in E2. rewrite !bool_decide_eq_true in E2. left. split; [by right|by eexists _, _]. }
  apply orb_false_iff in E2 as [E2%bool_decide_eq_false E3%bool_decide_eq_false]. right. do 3 (split; [done|]).
  rewrite bind_run. destruct (ConsumeOIDCAuthState _ _ w) as [x w1] eqn:Ec. exists x, w1. split; [done|].
  destruct x as [st|e].
  - rewrite bind_run, lift_run. destruct (callback_identity _ _ _ _ _ _ w1) as [y w2] eqn:Ei. exists y, w2. split; [done|].
    destruct y as [[prov ident]|e]; [|reflexivity]. rewrite bind_run. cbn [fst snd].
    destruct (sign_in _ _ _ _ _ _ _ _ _ _ _ _ w2) as [z w3] eqn:Es. exists z, w3. split; [done|]. by destruct z.
  - pose proof (keeps_denied (fun d => d) r "oidc" "" "invalid_state" ("/", "invalid_state")
      (A := world -> outcome * world) w1) as Hd.
    destruct (denied r "oidc" "" "invalid_state" ("/", "invalid_state") w1) as [z w2] eqn:Ez.
    exists w2. split; [exact Hd|]. unfold denied, ssoLoginDenied, detail, upd, mbind, SE_bind in Ez. simpl in Ez.
    by injection Ez as <- <-.
Qed.

(** The sessions after a sign-in: as before, or with the one vouched for. *)
Definition at_most_vouched (c : sso_call) (r : request) (w w' : world) : Prop :=
  db_sessions (aw_db w') = db_sessions (aw_db w) \/
  exists prov u s ext, db_sessions (aw_db w') = <[ss_ID s := s]> (db_sessions (aw_db w)) /\ ss_UserID s = u_ID u /\
    db_users (aw_db w') !! u_ID u = Some u /\ u_AuthSource u = ap_Kind prov /\ u_ExternalID u = ex_ExternalID ext /\
    u_IsActive u = true /\ ap_Enabled prov = true /\ vouched_session c r w prov ext (ss_AMR s).

Lemma at_most_db c r w w1 w2 : aw_db w2 = aw_db w1 -> at_most_vouched c r w w1 -> at_most_vouched c r w w2.
Proof. unfold at_most_vouched. by intros ->. Qed.

(** Provisioning and minting, for an identity that is vouched for. *)
Lemma sign_in_vouched {E} c r w prov source amr ext (fail : E) w1 x w2 : users_keyed (aw_db w1) -> source <> "" ->
  db_sessions (aw_db w1) = db_sessions (aw_db w) -> ap_Kind prov = source -> ap_Enabled prov = true ->
  vouched_session c r w prov ext amr ->
  sign_in clock random sha256_hex deps new_uuid lower_rune r prov source amr ext fail w1 = (x, w2) -> at_most_vouched c r w w2.
Proof.
  intros Hk Hs Hss Hkd He Hv Hx. apply sign_in_cases in Hx. destruct x as [[[u perms] s]|e]; [|left; congruence].
  destruct Hx as (w3 & Hf & Hu & _ & Hses & Hid & Ham). apply finish_account in Hf as ((_ & L & _) & A & X & Ac); [|done..].
  right. exists prov, u, s, ext. rewrite Hses, Hss, Hu, Ham. by rewrite <- Hkd in A; split_and!.
Qed.

Lemma callback_sessions q r w : users_keyed (aw_db w) -> at_most_vouched (SCallback q) r w (callback q r w).2.
Proof.
  intros Hk. destruct (callback_cases q r w) as [(_ & dest & code & ->)|(_ & _ & _ & x & w1 & Hc & Hx)].
  { left. unfold ssoRedirectError. by rewrite Redirect_db. }
  apply consume_cases in Hc as (Hu & Hs & _ & Hp & _ & Hst). destruct x as [st|e].
  - destruct Hx as (y & w2 & Hi & Hy). apply callback_identity_cases in Hi as [Hd Hi]. destruct y as [[prov ident]|e].
    + destruct (Hi prov ident eq_refl) as (Hpr & He & Hkd & at_ & params & Hpar & Hv). rewrite Hp in Hpr.
      destruct Hy as (z & w3 & Hz & ->).
      apply (at_most_db _ _ _ w3).
      { destruct z; unfold ssoRedirectError; by rewrite Redirect_db. }
      eapply (sign_in_vouched _ _ _ _ _ _ _ _ w2); [| |by rewrite Hd|exact Hkd|exact He| |exact Hz]; [|done|].
      * unfold users_keyed. by rewrite Hd, Hu.
      * simpl. split_and!; try done. exists at_, params, st, ident. destruct Hst. by split_and!.
    + left. rewrite Hy. unfold ssoRedirectError. rewrite Redirect_db. by rewrite Hd.
  - destruct Hx as (w2 & Hd & ->). left. unfold ssoRedirectError. rewrite Redirect_db. by rewrite Hd.
Qed.

Abbreviation ldap_login := (LDAPLogin clock random sha256_hex deps new_uuid open_sealed lower_rune (C := C)) (only parsing).

Lemma WriteError_db r e w : aw_db (WriteError r e w).2 = aw_db w.
Proof. done. Qed.

Lemma ldap_sessions b r w : users_keyed (aw_db w) -> at_most_vouched (SLdapLogin b) r w (ldap_login b r w).2.
Proof.
  intros Hk. unfold LDAPLogin, handle. rewrite bind_run. destruct b as [req|e]; simpl; [|by left].
  rewrite bind_run. destruct (_ || _); simpl; [by left|]. rewrite bind_run.
  destruct (enabledProviderOfKind _ _ w) as [x w1] eqn:Ee. apply enabled_provider in Ee as (Hd & _ & Hp).
  destruct x as [prov|e]; [|left; simpl; by rewrite Hd]. destruct (Hp prov eq_refl) as (He & Hkd & _). rewrite bind_run.
  unfold need. destruct (ldapConfig _ prov) as [cfg|] eqn:Ec; simpl; [|left; simpl; by rewrite Hd]. rewrite bind_run. simpl.
  destruct (Authenticate _ _ _ _ _) as [ident|e] eqn:Ea.
  - rewrite bind_run. destruct (sign_in _ _ _ _ _ _ _ _ _ _ _ _ w1) as [z w2] eqn:Ez.
    apply (at_most_db _ _ _ w2); [by destruct z as [[[u perms] s]|]|].
    eapply sign_in_vouched; [| |by rewrite Hd|exact Hkd|exact He| |exact Ez]; [by rewrite Hd|done|].
    simpl. split_and!; try done. apply Authenticate_spec in Ea. by exists (aw_tick w1), cfg, ident.
  - pose proof (keeps_denied (fun d => d) r "ldap" (ap_ID prov) "invalid_credentials" ErrUnauthenticated
      (A := world -> outcome * world) w1) as Hden.
    destruct (denied r "ldap" (ap_ID prov) "invalid_credentials" ErrUnauthenticated w1) as [z w2] eqn:Ez. simpl in Hden.
    left. unfold denied, ssoLoginDenied, detail, upd, mbind, SE_bind in Ez. destruct (bool_decide _) in Ez; simpl in Ez;
      injection Ez as <- <-; simpl in *; by rewrite Hden, Hd.
Qed.

Lemma replies_Redirect r url : replies (mret (Redirect http_redirect r url)).
Proof.
  apply replies_ret. intros w0. split; [apply Redirect_db|]. unfold Redirect. destruct (http_redirect r url). simpl.
  split; [by repeat case_match|by eexists].
Qed.
#[local] Hint Resolve replies_Redirect : rel.

(** The calls that are not logins keep the sessions. *)
Lemma other_sessions c r w : (forall q, c <> SCallback q) -> (forall b, c <> SLdapLogin b) ->
  db_sessions (aw_db (inner c r w).2) = db_sessions (aw_db w).
Proof.
  intros Hc Hl. destruct c; cbn [sso_inner]; try (by destruct (Hc q)); try (by destruct (Hl b));
    unfold AuthProviders, OIDCStart, ListAuthProvidersHandler, GetAuthProviderHandler, CreateAuthProviderHandler,
      UpdateAuthProviderHandler, DeleteAuthProviderHandler, TestAuthProvider, ListGroupMappings, CreateGroupMapping, DeleteGroupMapping.
  all: apply handle_keeps; [|solve [cbv zeta; rel_auto]].
  all: unfold enabledProviderOfKind, NewPKCE, CreateOIDCAuthState, seal_given, ok, created; keeps.
Qed.

(** No session appears. *)
Definition no_new_session (d d' : db) : Prop := dom (db_sessions d') ⊆ dom (db_sessions d).
#[local] Instance no_new_preorder : PreOrder no_new_session.
Proof. unfold no_new_session. split; [by intros d|]. intros x y z H1 H2. by etrans. Qed.
Lemma no_new_same d d' : db_sessions d' = db_sessions d -> no_new_session d d'.
Proof. unfold no_new_session. by intros ->. Qed.
Lemma no_new_auth d d' : auth_step deps d d' -> no_new_session d d'.
Proof.
  unfold no_new_session. intros [->|[(n1 & n2 & h & s & _ & ->)|(id & n & ->)]]; [done| |done].
  unfold touched. destruct (_ <? _); simpl; [|done]. by rewrite dom_alter_L.
Qed.

(** An administrative route, gated or not, creates no session. *)
Lemma protected_no_new h r w : rq_Bearer r = false -> (forall r' w', db_sessions (aw_db (h r' w').2) = db_sessions (aw_db w')) ->
  (forall action perm, no_new_session (aw_db w)
     (aw_db (protect clock sha256_hex url_Parse deps (gated clock action perm (fun _ => GlobalScope) h) r w).2)) /\
  (forall perm, no_new_session (aw_db w)
     (aw_db (protect clock sha256_hex url_Parse deps (RequirePermission perm (fun _ => GlobalScope) h) r w).2)).
Proof.
  intros Hb Hh. assert (forall r', dbrel no_new_session (h r')) as Hrel by (intros r' w'; by apply no_new_same).
  assert (forall e d, no_new_session d (InsertAudit e d)) as Haud by (intros e d; by apply no_new_same).
  split; intros; apply (protect_rel _ _ _ _ no_new_session no_new_auth); try done; intros u r' _ _; unfold gated;
    try apply (audit_rel _ no_new_session Haud); try apply (aal_rel no_new_session); by apply (permission_rel no_new_session).
Qed.

(** A public route: the handler, unless the instance is not set up, and the audit row. *)
Lemma audited_public action h r w : exists w2,
  (aw_db (AuditWrap clock action (bootstrapGate h) r w).2 = aw_db w2 \/
   exists e, aw_db (AuditWrap clock action (bootstrapGate h) r w).2 = InsertAudit e (aw_db w2)) /\
  (aw_db w2 = aw_db w \/ w2 = (h (with_audited r) (on_rec (fun _ => withAudit action) w)).2).
Proof.
  unfold AuditWrap, bootstrapGate. cbn [aw_db on_rec]. destruct (bootstrapRequired (aw_db w)).
  - exists w. split; [right; by eexists|by left].
  - exists (h (with_audited r) (on_rec (fun _ => withAudit action) w)).2. split; [|by right].
    destruct (h _ _) as [[rsp|] w1]; [right; by eexists|by left].
Qed.

Lemma inner_vouched c r w : users_keyed (aw_db w) -> at_most_vouched c r w (inner c r w).2.
Proof.
  intros Hk. destruct c; first [by apply callback_sessions|by apply ldap_sessions|left; by apply other_sessions].
Qed.

(** The new session [s], the only one, and what stands behind it. *)
Definition only_vouched (c : sso_call) (r : request) (w : world) (d' : db) (k : string) (s : Session) : Prop :=
  dom (db_sessions d') = {[k]} ∪ dom (db_sessions (aw_db w)) /\
  exists prov u ext, k = ss_ID s /\ ss_UserID s = u_ID u /\ db_users d' !! u_ID u = Some u /\
    u_AuthSource u = ap_Kind prov /\ u_ExternalID u = ex_ExternalID ext /\ u_IsActive u = true /\
    ap_Enabled prov = true /\ vouched_session c r w prov ext (ss_AMR s).

Lemma vouched_new c r w w2 k s : at_most_vouched c r w w2 ->
  db_sessions (aw_db w2) !! k = Some s -> db_sessions (aw_db w) !! k = None -> only_vouched c r w (aw_db w2) k s.
Proof.
  intros [Heq|(prov & u & s' & ext & Heq & Hrest)] Hs Hn; [congruence|].
  unfold only_vouched. rewrite Heq in Hs |- *. rewrite lookup_insert in Hs. case_decide as Hkk; [|congruence]. simplify_eq.
  split; [by rewrite dom_insert_L|]. by exists prov, u, ext.
Qed.

Lemma public_vouched c action r w k s : users_keyed (aw_db w) ->
  let w' := (AuditWrap clock action (bootstrapGate (inner c)) r w).2 in
  db_sessions (aw_db w') !! k = Some s -> db_sessions (aw_db w) !! k = None -> only_vouched c r w (aw_db w') k s.
Proof.
  intros Hk w' Hs Hn. destruct (audited_public action (inner c) r w) as (w2 & Hw & H2). fold w' in Hw.
  assert (db_sessions (aw_db w2) !! k = Some s) as Hs2 by (by destruct Hw as [Hw|[e Hw]]; rewrite Hw in Hs).
  assert (only_vouched c r w (aw_db w2) k s) as Hv; [|by destruct Hw as [->|[e ->]]].
  destruct H2 as [Hd| ->]; [congruence|].
  pose proof (inner_vouched c (with_audited r) (on_rec (fun _ => withAudit action) w) Hk) as Hm.
  apply (vouched_new _ _ _ _ k s) in Hm; done.
Qed.

(** C12 A session that external sign-in creates is vouched for.  Of the calls of the
    surface, each behind its middlewares, only the two logins create a session, at
    most one, and it belongs to an active account of that provider's kind whose
    external id is the one attested: by the directory of an enabled LDAP provider,
    which found the entry under the service account and accepted the entry's name
    with the password given; or by the issuer of an enabled OIDC provider, which
    exchanged the code, with the verifier kept in a pending and unexpired state, for
    an ID token that verifies for the client and carries that state's nonce. *)
Theorem external_sessions c r w k s : rq_Bearer r = false -> users_keyed (aw_db w) ->
  let w' := (serve_sso c r w).2 in
  db_sessions (aw_db w') !! k = Some s -> db_sessions (aw_db w) !! k = None -> only_vouched c r w (aw_db w') k s.
Proof.
  intros Hb Hk w' Hs Hn.
  assert (no_new_session (aw_db w) (aw_db w') -> False) as Hno.
  { intros Hd. assert (k ∈ dom (db_sessions (aw_db w))) as Hin by (apply Hd, elem_of_dom; by eexists).
    apply elem_of_dom in Hin as [x Hx]. congruence. }
  destruct c; try solve [exfalso; apply Hno; by apply protected_no_new; [|intros; apply other_sessions]];
    first [by apply public_vouched | exfalso; by apply Hno, no_new_same, other_sessions].
Qed.

(** ** The states of the OIDC flow *)

Abbreviation sign_in_ := (sign_in clock random sha256_hex deps new_uuid lower_rune) (only parsing).

Lemma keeps_sso_sign_in {E} r prov source amr ext (fail : E) : keeps db_sso (sign_in_ r prov source amr ext fail).
Proof.
  unfold sign_in, mintSession, setAuthCookies. apply keeps_bind; [|keeps].
  intros w. pose proof (keeps_finish clock new_uuid lower_rune db_sso ltac:(done) ltac:(done) prov source ext w) as Hf.
  by destruct (finishExternalLogin _ _ _ _ _ _ w).
Qed.

(** A callback that is not refused for its parameters takes its state out, and no other. *)
Lemma callback_states q r w : qget q "error" = "" -> qget q "code" <> "" -> qget q "state" <> "" ->
  states (aw_db (callback q r w).2) = delete (qget q "state") (states (aw_db w)).
Proof.
  intros P1 P2 P3. destruct (callback_cases q r w) as [([?|[?|?]] & _)|(_ & _ & _ & x & w1 & Hc & Hx)]; [done..|].
  apply consume_cases in Hc as (_ & _ & _ & _ & Hst & _). rewrite <- Hst. unfold states. f_equal.
  destruct x as [st|e].
  - destruct Hx as (y & w2 & Hi & Hy). apply callback_identity_cases in Hi as [Hd Hi].
    destruct y as [[prov ident]|e].
    + destruct Hy as (z & w3 & Hz & ->).
      pose proof (keeps_sso_sign_in r prov "oidc" AMROIDC (of_oidc ident) (os_RedirectAfter st, "server_error") w2) as Hk.
      rewrite Hz in Hk. simpl in Hk. rewrite Hd in Hk. destruct z; unfold ssoRedirectError; by rewrite Redirect_db, Hk.
    + rewrite Hy. unfold ssoRedirectError. by rewrite Redirect_db, Hd.
  - destruct Hx as (w2 & Hd & ->). unfold ssoRedirectError. by rewrite Redirect_db, Hd.
Qed.

(** One whose state is not pending changes at most the states, and nothing at all
    when there is no such row. *)
Lemma callback_refused q r w :
  (forall st, states (aw_db w) !! qget q "state" = Some st -> os_ExpiresAt st < clock (aw_tick w)) ->
  let d' := aw_db (callback q r w).2 in
  db_users d' = db_users (aw_db w) /\ db_bindings d' = db_bindings (aw_db w) /\
  db_sessions d' = db_sessions (aw_db w) /\ providers d' = providers (aw_db w) /\
  (states (aw_db w) !! qget q "state" = None -> d' = aw_db w).
Proof.
  intros Hno d'. unfold d'. destruct (callback_cases q r w) as [(_ & dest & code & ->)|(_ & _ & _ & x & w1 & Hc & Hx)].
  { unfold ssoRedirectError. by rewrite Redirect_db. }
  apply consume_cases in Hc as (Hu & Hs & Hb & Hp & _ & Hst). destruct x as [st|e].
  - destruct Hst as [Hst Ht]. apply Hno in Hst. lia.
  - destruct Hx as (w2 & Hd & ->). unfold ssoRedirectError. rewrite Redirect_db, Hd. split_and!; try done.
    intros Hnone. destruct Hst as [|[st Hst]]; [done|congruence].
Qed.

(** C13 A state of the OIDC flow signs in at most once.  A callback whose state is
    not pending, or has expired, signs nobody in and provisions nobody: accounts,
    bindings, sessions and providers stay.  One that is not refused for its own
    parameters removes its state and no other, whatever becomes of it; from then on,
    and until the state is stored again, every callback that names it changes
    nothing in the database, whatever its other parameters, its code included. *)
Theorem oidc_state_once q r w :
  let d := aw_db w in let d' := aw_db (callback q r w).2 in
  ((forall st, states d !! qget q "state" = Some st -> os_ExpiresAt st < clock (aw_tick w)) ->
     db_users d' = db_users d /\ db_bindings d' = db_bindings d /\ db_sessions d' = db_sessions d /\ providers d' = providers d) /\
  (qget q "error" = "" -> qget q "code" <> "" -> qget q "state" <> "" ->
     states d' = delete (qget q "state") (states d)) /\
  (forall q' r' w2, qget q' "state" = qget q "state" -> states (aw_db w2) !! qget q "state" = None ->
     aw_db (callback q' r' w2).2 = aw_db w2).
Proof.
  intros d d'. split_and!.
  - intros Hno. by destruct (callback_refused q r w Hno) as (? & ? & ? & ? & _).
  - apply callback_states.
  - intros q' r' w2 <- Hn. apply callback_refused; [|done]. intros st Hst. congruence.
Qed.
End Props.

(** ** At the small instance *)

Lemma external_sessions_witness :
  let c := SCallback demo_query in let r := demo_sso_req "" c [] in
  let w' := (demo_sso_serve c r demo_sso_world).2 in
  exists s, ss_AMR s = "oidc" /\ only_vouched demo_clock demo_deps demo_open demo_lower_rune "" c r demo_sso_world (aw_db w') "sha:rnd2" s.
Proof.
  intros c r w'. eexists. split; cycle 1.
  - apply (external_sessions demo_clock demo_random demo_sha demo_url demo_deps demo_uuid demo_seal demo_open demo_lower_rune ""
      demo_s256 demo_redirect c r demo_sso_world).
    + reflexivity.
    + apply demo_keyed.
    + vm_compute. reflexivity.
    + vm_compute. reflexivity.
  - reflexivity.
Defined.

Lemma oidc_state_once_witness :
  let cb := OIDCCallback demo_clock demo_random demo_sha demo_deps demo_uuid demo_open demo_lower_rune "" demo_redirect (I := string) in
  let r := demo_sso_req "" (SCallback demo_query) [] in
  let w1 := (cb demo_query r demo_sso_world).2 in
  aw_db (cb demo_query r w1).2 = aw_db w1 /\ states (aw_db w1) !! "state-1" = None.
Proof.
  intros cb r w1.
  destruct (oidc_state_once demo_clock demo_random demo_sha demo_deps demo_uuid demo_open demo_lower_rune ""
    demo_redirect (I := string) demo_query r demo_sso_world) as (_ & Ht & Hr).
  assert (states (aw_db w1) !! "state-1" = None) as Hn.
  { unfold w1, cb. rewrite Ht; [|vm_compute; done|vm_compute; discriminate|vm_compute; discriminate]. by vm_compute. }
  split; [|exact Hn]. apply Hr; [reflexivity|exact Hn].
Defined.
