(* ===== verification/SsoRoles.v ===== *)
(** * External sign-in: whose account, which roles

    The reference reading of group mappings, and what the provisioning of an
    identity leaves: one account, and the bindings its groups are mapped to. *)
From S2P Require Import Prelude GoStd GoFacts Utf8 AuthStore Rbac Redact Middleware AuthApi Router AuthFacts AuthDemo.
From S2P Require Import SsoStore Ldap Oidc Sso SsoAdmin SsoFacts.

Section Groups.
Context (lower_rune : Z -> Z).

(** ** Groups and roles *)

Lemma rune_bytes_nonempty r : string_of_rune r <> "".
Proof. unfold string_of_rune. cbv zeta. by repeat case_match. Qed.
Lemma ToLower_empty lr s : ToLower lr s = "" <-> s = "".
Proof.
  split; [|by intros ->]. destruct s as [|c s]; [done|]. unfold ToLower. case_match; [done|].
  unfold map_runes, runes. cbn [String.length runes_fuel].
  assert (exists r ok s', Utf8.decode (String c s) = Some (r, ok, s')) as (r & ok & s' & ->).
  { unfold Utf8.decode. cbv zeta.
    repeat match goal with
    | |- context [if ?b then _ else _] => destruct b
    | |- context [match ?t with EmptyString => _ | String _ _ => _ end] => is_var t; destruct t
    end; eauto. }
  simpl. pose proof (rune_bytes_nonempty (lr r)). by destruct (string_of_rune (lr r)).
Qed.

(** The names a group goes by: its value, and its CN when it is a DN, in lower case. *)
Definition group_names (g : string) : gset string :=
  {[ToLower lower_rune (trim_space g)]} ∪ (if bool_decide (groupCN g = "") then ∅ else {[ToLower lower_rune (groupCN g)]}).

Lemma groupCN_trim g : groupCN (trim_space g) = groupCN g.
Proof. unfold groupCN. by rewrite trim_space_idem. Qed.
Lemma group_keys_names g : list_to_set (group_keys lower_rune g) = if bool_decide (trim_space g = "") then (∅ : gset string) else group_names g.
Proof.
  unfold group_keys, group_names. rewrite groupCN_trim. destruct (bool_decide (trim_space g = "")); [done|].
  destruct (bool_decide (groupCN g = "")); simpl; [done|]. by rewrite (right_id_L ∅ union {[_]}).
Qed.

Lemma elem_keys groups k : k ∈ (list_to_set (mjoin (group_keys lower_rune <$> groups)) : gset string) <->
  exists g, g ∈ groups /\ trim_space g <> "" /\ k ∈ group_names g.
Proof.
  rewrite elem_of_list_to_set, list_elem_of_join. setoid_rewrite list_elem_of_fmap. split.
  - intros (l & Hk & g & -> & Hg). exists g. split; [done|].
    assert (k ∈ (list_to_set (group_keys lower_rune g) : gset string)) as Hin by (by apply elem_of_list_to_set).
    rewrite group_keys_names in Hin. case_bool_decide; [set_solver|done].
  - intros (g & Hg & Hb & Hk). exists (group_keys lower_rune g). split; [|by exists g].
    apply (elem_of_list_to_set (C := gset string)). rewrite group_keys_names. by rewrite bool_decide_eq_false_2.
Qed.

(** A mapping is for one of the groups when the two share a name. *)
Lemma mapping_hit_spec groups m :
  mapping_hit lower_rune (list_to_set (mjoin (group_keys lower_rune <$> groups))) m = true <->
  exists g, g ∈ groups /\ trim_space g <> "" /\ group_names (gm_ExternalGroup m) ∩ group_names g ≢ ∅.
Proof.
  unfold mapping_hit. rewrite orb_true_iff, andb_true_iff, negb_true_iff, !bool_decide_eq_true, bool_decide_eq_false, !elem_keys.
  rewrite ToLower_empty. split.
  - intros [(g & Hg & Hb & Hk)|[Hc (g & Hg & Hb & Hk)]]; exists g; split_and!; try done; intros He;
      eapply (not_elem_of_empty (C := gset string)); rewrite <- He; apply elem_of_intersection; (split; [|exact Hk]);
      unfold group_names; [set_solver|]. rewrite (bool_decide_eq_false_2 _ Hc). set_solver.
  - intros (g & Hg & Hb & Hne). apply set_choose in Hne as [k [Hk Hkg]%elem_of_intersection].
    unfold group_names at 1 in Hk. apply elem_of_union in Hk as [->%elem_of_singleton|Hk]; [left; by exists g|].
    case_bool_decide as Hc; [set_solver|]. apply elem_of_singleton in Hk as ->. right. split; [done|]. by exists g.
Qed.

Lemma collect_roles_spec have seen ms :
  NoDup (collect_roles lower_rune have seen ms) /\
  forall rid, rid ∈ collect_roles lower_rune have seen ms <->
    (rid ∉ seen) /\ exists m, m ∈ ms /\ gm_RoleID m = rid /\ mapping_hit lower_rune have m = true.
Proof.
  revert seen. induction ms as [|m ms IH]; intros seen; simpl; [split; [constructor|set_solver]|].
  destruct (mapping_hit lower_rune have m) eqn:Eh; simpl.
  - case_bool_decide as Hs.
    + destruct (IH seen) as [Hn He]. split; [done|]. intros rid. rewrite He. set_solver.
    + destruct (IH ({[gm_RoleID m]} ∪ seen)) as [Hn He]. split.
      * constructor; [|done]. rewrite He. set_solver.
      * intros rid. rewrite elem_of_cons, He. destruct (decide (rid = gm_RoleID m)) as [->|Hr]; set_solver.
  - destruct (IH seen) as [Hn He]. split; [done|]. intros rid. rewrite He. split; [set_solver|].
    intros (Hs & m' & [->|Hm]%elem_of_cons & Hr & Hh); [congruence|]. split; [done|by exists m'].
Qed.

(** The role [rid] is mapped, in the provider [pid], to one of the groups. *)
Definition mapped_to (pid : string) (groups : list string) (d : db) (rid : string) : Prop :=
  exists k m g, mappings d !! k = Some m /\ gm_ProviderID m = pid /\ gm_RoleID m = rid /\
    g ∈ groups /\ trim_space g <> "" /\ group_names (gm_ExternalGroup m) ∩ group_names g ≢ ∅.

Lemma roles_resolved pid groups d :
  NoDup (ResolveRolesForGroups lower_rune pid groups d) /\
  forall rid, rid ∈ ResolveRolesForGroups lower_rune pid groups d <-> mapped_to pid groups d rid.
Proof.
  destruct (collect_roles_spec (list_to_set (mjoin (group_keys lower_rune <$> groups))) ∅ (ListGroupRoleMappings pid d)) as [Hn He].
  split; [exact Hn|]. intros rid. unfold ResolveRolesForGroups. rewrite He. split.
  - intros (_ & m & Hm & Hr & (g & Hg)%mapping_hit_spec). unfold ListGroupRoleMappings, select_where in Hm.
    rewrite merge_sort_Permutation in Hm. apply list_elem_of_filter in Hm as [Hp%bool_decide_eq_true Hm].
    apply list_elem_of_fmap in Hm as ([k m'] & -> & Hk%elem_of_map_to_list). by exists k, m', g.
  - intros (k & m & g & Hk & Hp & Hr & Hg). split; [set_solver|]. exists m. split_and!; [|done|apply mapping_hit_spec; by exists g].
    unfold ListGroupRoleMappings, select_where. rewrite merge_sort_Permutation. apply list_elem_of_filter.
    split; [by apply bool_decide_eq_true|]. apply list_elem_of_fmap. exists (k, m). split; [done|by apply elem_of_map_to_list].
Qed.

End Groups.

Section Roles.
Context (clock : nat -> Z) (new_uuid : nat -> string) (lower_rune : Z -> Z).

(** ** The roles of a login *)

Abbreviation finish := (finishExternalLogin clock new_uuid lower_rune) (only parsing).

(** The role a login gives: one that the provider maps to a group of the identity,
    whose groups are known; when there is none, the provider's default role. *)
Definition given (prov : AuthProvider) (ext : externalIdentity) (d : db) (rid : string) : Prop :=
  let mapped r := ex_GroupsKnown ext = true /\ mapped_to lower_rune (ap_ID prov) (ex_Groups ext) d r in
  mapped rid \/ ((forall r, ~ mapped r) /\ trim_space rid <> "" /\ rid = ap_DefaultRoleID prov).

Lemma dedup_spec (l : list string) : NoDup (dedup l) /\ forall x, x ∈ dedup l <-> x ∈ l.
Proof.
  unfold dedup. enough (forall acc, NoDup acc ->
    let r := foldl (fun out p => if bool_decide (p ∈ out) then out else out ++ [p]) acc l in
    NoDup r /\ forall x, x ∈ r <-> x ∈ acc \/ x ∈ l) as H.
  { destruct (H [] (NoDup_nil_2)) as [Hn He]. split; [exact Hn|]. intros x. rewrite He. set_solver. }
  induction l as [|y l IH]; intros acc Hacc; simpl; [split; [done|set_solver]|].
  case_bool_decide as Hy.
  - destruct (IH acc Hacc) as [Hn He]. split; [done|]. intros x. rewrite He. set_solver.
  - destruct (IH (acc ++ [y])) as [Hn He].
    { apply NoDup_app. split; [done|]. split; [set_solver|apply NoDup_singleton]. }
    split; [done|]. intros x. rewrite He. set_solver.
Qed.

Lemma roles_of_spec prov ext d rid : rid ∈ roles_of lower_rune prov ext d <-> given prov ext d rid.
Proof.
  unfold roles_of, given. destruct (roles_resolved lower_rune (ap_ID prov) (ex_Groups ext) d) as [_ Hs].
  set (l := ResolveRolesForGroups _ _ _ _) in *.
  set (mapped := if ex_GroupsKnown ext && _ then l else []).
  assert (forall r, r ∈ mapped <-> ex_GroupsKnown ext = true /\ mapped_to lower_rune (ap_ID prov) (ex_Groups ext) d r) as Hm.
  { intros r. unfold mapped. rewrite <- Hs. destruct (ex_GroupsKnown ext); simpl; [|set_solver].
    case_bool_decide as Hg; simpl; [|by split; [|intros [_ ?]]].
    split; [by intros ?%not_elem_of_nil|]. intros [_ Hr]. apply Hs in Hr as (k & m & g & _ & _ & _ & Hin & _).
    rewrite Hg in Hin. by apply not_elem_of_nil in Hin. }
  setoid_rewrite <- Hm. destruct (decide (mapped = [])) as [E|E].
  - rewrite (bool_decide_eq_true_2 _ E), E. simpl. case_bool_decide as Hd; simpl.
    + split; [by intros ?%not_elem_of_nil|]. intros [?%not_elem_of_nil|(_ & Ht & ->)]; done.
    + rewrite list_elem_of_singleton. split; [|by intros [?%not_elem_of_nil|(_ & _ & ->)]].
      intros ->. right. split; [intros r; apply not_elem_of_nil|done].
  - rewrite (bool_decide_eq_false_2 _ E). simpl. split; [by left|]. intros [H|(Hn & _)]; [done|].
    destruct mapped as [|r l']; [done|]. destruct (Hn r). by left.
Qed.

Lemma upsert_roles_of prov ext d d' : db_sso d' = db_sso d -> roles_of lower_rune prov ext d' = roles_of lower_rune prov ext d.
Proof. unfold roles_of, ResolveRolesForGroups, ListGroupRoleMappings, mappings. by intros ->. Qed.

(** What provisioning may write at all. *)
Definition users_and_bindings (d d' : db) : Prop :=
  d' = set_users (fun _ => db_users d') (set_bindings (fun _ => db_bindings d') d).
Lemma finish_frame prov source ext w : users_and_bindings (aw_db w) (aw_db (finish prov source ext w).2).
Proof.
  pose proof (keeps_finish clock new_uuid lower_rune (fun d => set_users (fun _ => ∅) (set_bindings (fun _ => ∅) d))
    ltac:(done) ltac:(done) prov source ext w) as H1. simpl in H1.
  destruct (aw_db w), (aw_db (finish prov source ext w).2). unfold users_and_bindings, set_users, set_bindings in *. simpl in *.
  injection H1. by intros; subst.
Qed.

(** C14 The roles of a login are those of its groups.  When an identity of an external
    provider is provisioned, the account with its source and external id is created
    or refreshed, active, and no other account changes; an account of another source,
    a local one first of all, is never the one.  The global bindings of that account
    are then exactly the roles [given]: those that the provider maps to a group that
    shares a name with one of the identity's (as C16 says), or the provider's default
    role when there is no such role, each once and none empty; its scoped bindings and the
    bindings of every other account stay, the permissions returned are those in
    force afterwards, and nothing but accounts and bindings is written.  A
    provisioning that fails leaves every binding as it was. *)
Theorem external_roles prov source ext w x w' : users_keyed (aw_db w) -> source <> "" ->
  finish prov source ext w = (x, w') ->
  let d := aw_db w in let d' := aw_db w' in
  users_and_bindings d d' /\
  match x with
  | Ok (u, perms) =>
      only_account source d d' u /\ u_AuthSource u = source /\ u_ExternalID u = ex_ExternalID ext /\ u_IsActive u = true /\
      NoDup (bi_RoleID <$> select_where (global_of (u_ID u)) (db_bindings d')) /\
      (forall rid, rid ∈ bi_RoleID <$> select_where (global_of (u_ID u)) (db_bindings d') <->
         rid <> "" /\ given prov ext d rid) /\
      delete_where (global_of (u_ID u)) (db_bindings d') = delete_where (global_of (u_ID u)) (db_bindings d) /\
      perms = effectivePermissions (u_ID u) d'
  | Err _ => db_bindings d' = db_bindings d
  end.
Proof.
  intros Hk Hs Hf d d'. pose proof (finish_frame prov source ext w) as Hfr. rewrite Hf in Hfr. split; [exact Hfr|].
  destruct x as [[u perms]|e].
  - pose proof Hf as (O & A & X & Ac)%finish_account; try done. do 4 (split; [done|]).
    apply finish_cases in Hf as (id & w1 & w2 & Hu & Hd & Hr & ->).
    pose proof (keeps_bindings_upsert _ _ _ _ _ _ Hu) as [Hb Hso]. rewrite Hd in Hb, Hso.
    apply replace_bindings in Hr as [Hp Ho]. rewrite (upsert_roles_of _ _ _ _ Hso) in Hp. rewrite Hb in Ho. change (aw_db w') with d' in Hp. change (aw_db w) with d in Hp.
    destruct (dedup_spec (filter (fun r => r <> "") (roles_of lower_rune prov ext d))) as [Hn He].
    split; [by rewrite Hp|]. split; [|done].
    intros rid. rewrite Hp, He, list_elem_of_filter. by rewrite roles_of_spec.
  - by apply finish_failed in Hf.
Qed.
End Roles.

Definition demo_carol : externalIdentity :=
  mkExternal "uuid-carol" "carol" "carol@example.org" "" ["cn=Operators,dc=example"] true false.

Lemma external_roles_witness :
  let prov := demo_provider "corp" "ldap" in
  exists u perms w', finishExternalLogin demo_clock demo_uuid demo_lower_rune prov "ldap" demo_carol demo_sso_world = (Ok (u, perms), w') /\
    (forall rid, rid ∈ bi_RoleID <$> select_where (global_of (u_ID u)) (db_bindings (aw_db w')) <->
       rid <> "" /\ given demo_lower_rune prov demo_carol (aw_db demo_sso_world) rid) /\
    bi_RoleID <$> select_where (global_of (u_ID u)) (db_bindings (aw_db w')) = ["role-ops"] /\ perms = ["rbac.user.delete"].
Proof.
  intros prov.
  destruct (finishExternalLogin demo_clock demo_uuid demo_lower_rune prov "ldap" demo_carol demo_sso_world) as [x w'] eqn:Hf.
  destruct (external_roles demo_clock demo_uuid demo_lower_rune prov "ldap" demo_carol demo_sso_world x w') as [_ H].
  - exact demo_keyed.
  - discriminate.
  - exact Hf.
  - assert (match finishExternalLogin demo_clock demo_uuid demo_lower_rune prov "ldap" demo_carol demo_sso_world with
            | (Ok (u, perms), w') => Some (bi_RoleID <$> select_where (global_of (u_ID u)) (db_bindings (aw_db w')), perms)
            | _ => None
            end = Some (["role-ops"], ["rbac.user.delete"])) as Hrun by (vm_compute; reflexivity).
    rewrite Hf in Hrun. destruct x as [[u perms]|e]; [|discriminate Hrun]. injection Hrun as Hb Hp.
    exists u, perms, w'. destruct H as (_ & _ & _ & _ & _ & Hr & _ & _).
    split; [reflexivity|split; [exact Hr|split; [exact Hb|exact Hp]]].
Defined.

(** ** Where the code does not do what it says *)

(** Carol's account, deactivated by an administrator, and the only administrator. *)
Definition demo_carol_row : StoreUser :=
  mkUser "carol" "carol" "" "!" "" false None false false 0 None None "ldap" "uuid-carol" "corp" 0 0.
Definition demo_carol_world : world :=
  on_db (fun d => set_users (<["carol" := demo_carol_row]>)
           (set_bindings (fun _ => <["b1" := mkBinding "b1" "carol" "role-admin" "global" None 0]> ∅) d)) demo_sso_world.

(** Deactivating an external account lasts until its next login. *)
Example deactivation_undone :
  let prov := demo_provider "corp" "ldap" in
  let x := finishExternalLogin demo_clock demo_uuid demo_lower_rune prov "ldap" demo_carol demo_carol_world in
  (u_IsActive <$> db_users (aw_db demo_carol_world) !! "carol", u_IsActive <$> db_users (aw_db x.2) !! "carol") = (Some false, Some true).
Proof. vm_compute. reflexivity. Qed.

(** A login resyncs the bindings of the last administrator too: no one is left. *)
Example last_administrator_lost :
  let prov := demo_provider "corp" "ldap" in
  let x := finishExternalLogin demo_clock demo_uuid demo_lower_rune prov "ldap" demo_carol demo_carol_world in
  (CountAdminBindings "role-admin" (aw_db demo_carol_world), CountAdminBindings "role-admin" (aw_db x.2)) = (1, 0).
Proof. vm_compute. reflexivity. Qed.

(** The account is found by kind and external id: another provider of the kind that
    hands out the same id signs in to it, and moves it to that provider. *)
Example another_provider_takes_over :
  let prov := demo_provider "other" "ldap" in
  let x := finishExternalLogin demo_clock demo_uuid demo_lower_rune prov "ldap" demo_carol demo_carol_world in
  u_ExternalProviderID <$> db_users (aw_db demo_carol_world) !! "carol" = Some "corp" /\
  (exists u perms, x.1 = Ok (u, perms) /\ u_ID u = "carol" /\ u_ExternalProviderID u = "other").
Proof. vm_compute. split; [done|]. by eexists _, _. Qed.

(** A path that browsers read as a host stays. *)
Example backslash_redirect : sanitizeRedirect "/\evil.example" = "/\evil.example".
Proof. vm_compute. reflexivity. Qed.

(** A name of 129 bytes is cut inside its last rune. *)
Example username_cut :
  let s := string_of_runes (repeat 97 127 ++ [233]) in
  (valid_utf8 s, valid_utf8 (sanitizeUsername s)) = (true, false).
Proof. vm_compute. reflexivity. Qed.
