(* ===== verification/SsoAdminProps.v ===== *)
(** * External sign-in: what the administration shows

    The replies, and all that a request leaves but the sealed values themselves,
    are the same whatever the secrets are: two runs, side by side. *)
From S2P Require Import Prelude GoStd GoFacts Utf8 AuthStore Rbac Redact Middleware AuthApi Router AuthDemo.
From S2P Require Import SsoStore Ldap Oidc Sso SsoAdmin SsoFacts.

(** ** Databases alike but for the secrets of the providers *)

Definition blank_secret (s : string) : string := if bool_decide (s = "") then "" else "sealed".
Definition blank_secrets (p : AuthProvider) : AuthProvider :=
  ap_seal (blank_secret (ap_LDAPBindPWEnc p)) (blank_secret (ap_OIDCClientSecretEnc p)) p.
Definition alike_provider (p q : AuthProvider) : Prop := blank_secrets p = blank_secrets q.
Definition erase (d : db) : db := set_sso (set_providers (fmap blank_secrets)) d.
Definition alike (d d' : db) : Prop := erase d = erase d'.
Definition alike_world (w w' : world) : Prop :=
  alike (aw_db w) (aw_db w') /\ aw_tick w = aw_tick w' /\ aw_rand w = aw_rand w' /\ aw_rec w = aw_rec w' /\
  aw_hdr w = aw_hdr w' /\ aw_cookies w = aw_cookies w'.

#[export] Instance alike_provider_equiv : Equivalence alike_provider.
Proof. unfold alike_provider. split; [done|by intros ?? ->|by intros ??? -> ->]. Qed.
#[export] Instance alike_equiv : Equivalence alike.
Proof. unfold alike. split; [done|by intros ?? ->|by intros ??? -> ->]. Qed.
#[export] Instance alike_world_equiv : Equivalence alike_world.
Proof.
  unfold alike_world. split; [by intros w|intros w1 w2; naive_solver|].
  intros w1 w2 w3 (H1 & -> & -> & -> & -> & ->) (H2 & H). split; [by etrans|done].
Qed.

Lemma blank_secret_same s t : (s = "" <-> t = "") -> blank_secret s = blank_secret t.
Proof. intros H. unfold blank_secret. by erewrite bool_decide_ext. Qed.
Lemma blank_secret_has s : bool_decide (blank_secret s = "") = bool_decide (s = "").
Proof. unfold blank_secret. by destruct (bool_decide (s = "")). Qed.

(** What a blanked row still shows. *)
#[export] Instance view_proper : Proper (alike_provider ==> eq) toAuthProviderView.
Proof.
  assert (forall p, toAuthProviderView (blank_secrets p) = toAuthProviderView p) as H.
  { intros p. unfold toAuthProviderView, HasBindPW, HasClientSecret. simpl. by rewrite !blank_secret_has. }
  intros p q Hpq. by rewrite <- (H p), Hpq.
Qed.
#[export] Instance summary_proper : Proper (alike_provider ==> eq) providerSummary.
Proof. intros p q Hpq. change (providerSummary p) with (providerSummary (blank_secrets p)). by rewrite Hpq. Qed.

(** ** The statements *)

Lemma alike_rest d d' : alike d d' -> db_roles d = db_roles d' /\ mappings d = mappings d' /\
  blank_secrets <$> providers d = blank_secrets <$> providers d'.
Proof.
  intros H. split_and!; [by apply (f_equal db_roles) in H|by apply (f_equal mappings) in H|by apply (f_equal providers) in H].
Qed.
Lemma alike_lookup d d' id : alike d d' -> option_Forall2 alike_provider (providers d !! id) (providers d' !! id).
Proof.
  intros (_ & _ & H)%alike_rest. apply (f_equal (lookup id)) in H. rewrite !lookup_fmap in H.
  destruct (providers d !! id), (providers d' !! id); simpl in H; try done; constructor. by apply Some_inj in H.
Qed.

(** Sorting by what the blanked rows keep. *)
Section SortMap.
Context {A} (f : A -> A) (R : relation A) `{forall x y, Decision (R x y)} (Hf : forall x y, R (f x) (f y) <-> R x y).
Lemma list_merge_fmap l1 l2 : list_merge R (f <$> l1) (f <$> l2) = f <$> list_merge R l1 l2.
Proof.
  revert l2. induction l1 as [|x l1 IH1]; intros l2; [by destruct l2|]. induction l2 as [|y l2 IH2]; [done|].
  simpl. destruct (decide (R x y)) as [Hr|Hr], (decide (R (f x) (f y))) as [Hr'|Hr']; rewrite Hf in Hr'; try done; simpl.
  - f_equal. apply (IH1 (y :: l2)).
  - f_equal. apply IH2.
Qed.
Definition stack_map (st : list (option (list A))) : list (option (list A)) := map (option_map (map f)) st.
Lemma merge_list_to_stack_fmap st l : merge_list_to_stack R (stack_map st) (f <$> l) = stack_map (merge_list_to_stack R st l).
Proof. revert l. induction st as [|[l'|] st IH]; intros l; simpl; [done| |done]. by rewrite <- IH, <- list_merge_fmap. Qed.
Lemma merge_stack_fmap st : merge_stack R (stack_map st) = f <$> merge_stack R st.
Proof. induction st as [|[l|] st IH]; simpl; [done| |done]. by rewrite IH, list_merge_fmap. Qed.
Lemma merge_sort_fmap l : merge_sort R (f <$> l) = f <$> merge_sort R l.
Proof.
  unfold merge_sort. change (@nil (option (list A))) with (stack_map []) at 1.
  generalize (@nil (option (list A))). induction l as [|x l IH]; intros st; simpl; [apply merge_stack_fmap|].
  rewrite <- IH. f_equal. apply (merge_list_to_stack_fmap st [x]).
Qed.
End SortMap.

Lemma erase_providers d : (map_to_list (providers (erase d))).*2 = blank_secrets <$> (map_to_list (providers d)).*2.
Proof. unfold providers, erase. simpl. rewrite map_to_list_fmap. rewrite <- !list_fmap_compose. by apply list_fmap_ext. Qed.
Lemma blank_name p q : by_text ap_Name (blank_secrets p) (blank_secrets q) <-> by_text ap_Name p q.
Proof. done. Qed.
Lemma same_blanks l k : blank_secrets <$> l = blank_secrets <$> k -> Forall2 alike_provider l k.
Proof.
  revert k. induction l as [|p l IH]; intros [|q k] H; try done.
  constructor; [apply (f_equal head) in H; by apply Some_inj in H|apply IH; by apply (f_equal tail) in H].
Qed.
#[export] Instance list_proper : Proper (alike ==> Forall2 alike_provider) ListAuthProviders.
Proof.
  assert (forall d, ListAuthProviders (erase d) = blank_secrets <$> ListAuthProviders d) as H.
  { intros d. unfold ListAuthProviders. by rewrite erase_providers, (merge_sort_fmap _ _ blank_name). }
  intros d d' Hd. apply same_blanks. rewrite <- !H. by rewrite Hd.
Qed.
Lemma filter_blanks (l : list AuthProvider) :
  filter (fun p => ap_Enabled p = true) (blank_secrets <$> l) = blank_secrets <$> filter (fun p => ap_Enabled p = true) l.
Proof.
  induction l as [|p l IH]; [done|]. rewrite fmap_cons, !filter_cons. change (ap_Enabled (blank_secrets p)) with (ap_Enabled p).
  case_decide; [|done]. by rewrite fmap_cons, IH.
Qed.
#[export] Instance enabled_proper : Proper (alike ==> Forall2 alike_provider) ListEnabledAuthProviders.
Proof.
  assert (forall d, ListEnabledAuthProviders (erase d) = blank_secrets <$> ListEnabledAuthProviders d) as H.
  { intros d. unfold ListEnabledAuthProviders, select_where. rewrite erase_providers, filter_blanks.
    by rewrite <- (merge_sort_fmap _ _ blank_name). }
  intros d d' Hd. apply same_blanks. rewrite <- !H. by rewrite Hd.
Qed.

Definition both_results {E A} (R : relation A) (x y : result E A) : Prop :=
  match x, y with Ok a, Ok b => R a b | Err e, Err e' => e = e' | _, _ => False end.
Lemma erase_insert k p d : erase (set_sso (set_providers (<[k := p]>)) d) = set_sso (set_providers (<[k := blank_secrets p]>)) (erase d).
Proof. unfold erase, set_sso, set_providers. simpl. by rewrite fmap_insert. Qed.
Lemma alike_insert k p q d d' : alike_provider p q -> alike d d' ->
  alike (set_sso (set_providers (<[k := p]>)) d) (set_sso (set_providers (<[k := q]>)) d').
Proof. unfold alike. rewrite !erase_insert. by intros -> ->. Qed.
Lemma alike_is_Some d d' id : alike d d' -> is_Some (providers d !! id) <-> is_Some (providers d' !! id).
Proof. intros H. apply (alike_lookup _ _ id) in H. destruct H; split; intros []; by eexists. Qed.

(** Secrets given and kept the same way. *)
Definition alike_secret (s t : string) : Prop := s = "" <-> t = "".
Lemma alike_seal a a' b b' p q : alike_secret a a' -> alike_secret b b' -> ap_seal "" "" p = ap_seal "" "" q ->
  alike_provider (ap_seal a b p) (ap_seal a' b' q).
Proof.
  intros Ha Hb Hpq. unfold alike_provider, blank_secrets. simpl. rewrite (blank_secret_same _ _ Ha), (blank_secret_same _ _ Hb).
  destruct p, q. unfold ap_seal in *. simpl in *. injection Hpq. by intros; subst.
Qed.
Lemma alike_inv p q : alike_provider p q -> ap_seal "" "" p = ap_seal "" "" q /\
  alike_secret (ap_LDAPBindPWEnc p) (ap_LDAPBindPWEnc q) /\ alike_secret (ap_OIDCClientSecretEnc p) (ap_OIDCClientSecretEnc q).
Proof.
  intros H. split_and!; [by apply (f_equal (ap_seal "" "")) in H| |].
  - apply (f_equal ap_LDAPBindPWEnc) in H. simpl in H. unfold alike_secret, blank_secret in *. by repeat case_bool_decide.
  - apply (f_equal ap_OIDCClientSecretEnc) in H. simpl in H. unfold alike_secret, blank_secret in *. by repeat case_bool_decide.
Qed.

Lemma create_alike p q now d d' : alike_provider p q -> alike d d' ->
  both_results alike (CreateAuthProvider p now d) (CreateAuthProvider q now d').
Proof.
  intros Hp Hd. unfold CreateAuthProvider, default_role_ok.
  assert (ap_ID p = ap_ID q) as -> by by apply (f_equal ap_ID) in Hp.
  assert (ap_DefaultRoleID p = ap_DefaultRoleID q) as -> by by apply (f_equal ap_DefaultRoleID) in Hp.
  destruct (alike_rest _ _ Hd) as (<- & _ & _). rewrite (bool_decide_ext _ _ (alike_is_Some _ _ (ap_ID q) Hd)).
  destruct (_ || _); [done|]. apply alike_insert; [|done]. unfold alike_provider in *.
  change (provider_row (blank_secrets p) now = provider_row (blank_secrets q) now). by rewrite Hp.
Qed.
Lemma update_alike p q b c now d d' : alike_provider p q -> alike d d' ->
  both_results alike (UpdateAuthProvider p b c now d) (UpdateAuthProvider q b c now d').
Proof.
  intros Hp Hd. unfold UpdateAuthProvider, default_role_ok.
  assert (ap_ID p = ap_ID q) as -> by by apply (f_equal ap_ID) in Hp.
  assert (ap_DefaultRoleID p = ap_DefaultRoleID q) as -> by by apply (f_equal ap_DefaultRoleID) in Hp.
  destruct (alike_rest _ _ Hd) as (<- & _ & _). destruct (alike_lookup _ _ (ap_ID q) Hd) as [x y Hxy|]; [|done].
  destruct (negb _); [done|]. apply alike_insert; [|done].
  apply alike_inv in Hp as (Hp & Hp1 & Hp2). apply alike_inv in Hxy as (Hxy & Hx1 & Hx2).
  apply alike_seal; [by destruct b|by destruct c|].
  assert (ap_CreatedAt x = ap_CreatedAt y) as -> by by apply (f_equal ap_CreatedAt) in Hxy.
  change (ap_stamp (ap_CreatedAt y) now (applyProviderDefaults (ap_seal "" "" p)) = ap_stamp (ap_CreatedAt y) now (applyProviderDefaults (ap_seal "" "" q))).
  by rewrite Hp.
Qed.
Lemma erase_map d f g h : (forall t, blank_secrets <$> f t = f (blank_secrets <$> t)) ->
  erase (set_sso (fun t => mkSSO (f (so_providers t)) (g (so_mappings t)) (h (so_states t))) d) =
  set_sso (fun t => mkSSO (f (so_providers t)) (g (so_mappings t)) (h (so_states t))) (erase d).
Proof. intros Hf. unfold erase, set_sso, set_providers. simpl. by rewrite Hf. Qed.
Lemma delete_alike id d d' : alike d d' -> both_results alike (DeleteAuthProvider id d) (DeleteAuthProvider id d').
Proof.
  intros Hd. unfold DeleteAuthProvider. destruct (alike_lookup _ _ id Hd); [|done]. simpl. unfold alike in *.
  rewrite !(erase_map _ (delete id)) by (intros; apply fmap_delete). by rewrite Hd.
Qed.
Lemma erase_mappings f d : erase (set_sso (set_mappings f) d) = set_sso (set_mappings f) (erase d).
Proof. done. Qed.
Lemma create_mapping_alike m d d' : alike d d' -> both_results alike (CreateGroupRoleMapping m d) (CreateGroupRoleMapping m d').
Proof.
  intros Hd. unfold CreateGroupRoleMapping. destruct (alike_rest _ _ Hd) as (-> & -> & _).
  rewrite (bool_decide_ext _ _ (alike_is_Some _ _ (gm_ProviderID m) Hd)). destruct (_ || _); [done|].
  simpl. unfold alike in *. by rewrite !erase_mappings, Hd.
Qed.
Lemma delete_mapping_alike pid mid d d' : alike d d' ->
  both_results alike (DeleteGroupRoleMapping pid mid d) (DeleteGroupRoleMapping pid mid d').
Proof.
  intros Hd. unfold DeleteGroupRoleMapping. destruct (alike_rest _ _ Hd) as (_ & -> & _).
  destruct (mappings d' !! mid) as [m|]; [|done]. destruct (bool_decide _); [|done].
  simpl. unfold alike in *. by rewrite !erase_mappings, Hd.
Qed.

(** ** Two runs, side by side *)

Definition both {E A} (R : relation A) (m m' : SE E A) : Prop := forall w w', alike_world w w' ->
  both_results R (m w).1 (m' w').1 /\ alike_world (m w).2 (m' w').2.

Section Both.
Context {E : Type}.
Lemma both_bind {A B} (R : relation A) (S : relation B) (m m' : SE E A) (f f' : A -> SE E B) :
  both R m m' -> (forall a a', R a a' -> both S (f a) (f' a')) -> both S (m ≫= f) (m' ≫= f').
Proof.
  intros Hm Hf w w' Hw. rewrite !bind_run. destruct (Hm w w' Hw) as [Hr Hs].
  destruct (m w) as [[a|e] w1], (m' w') as [[a'|e'] w1']; simpl in *; try done. by apply Hf.
Qed.
Lemma both_ret {A} (R : relation A) a a' : R a a' -> both R (mret a : SE E A) (mret a').
Proof. by intros H w w' Hw. Qed.
Lemma both_throw {A} (R : relation A) (e : E) : both R (throw e) (throw e).
Proof. by intros w w' Hw. Qed.
Lemma both_guard c (e : E) : both eq (guard c e) (guard c e).
Proof. intros w w' Hw. by destruct c. Qed.
Lemma both_ask {A} (R : relation A) f f' : (forall d d', alike d d' -> R (f d) (f' d')) -> both R (ask f : SE E A) (ask f').
Proof. intros H w w' Hw. split; [|done]. apply H, Hw. Qed.
Lemma both_query {A} (R : relation A) f f' (e : E) : (forall d d', alike d d' -> both_results R (f d) (f' d')) ->
  both R (query f e) (query f' e).
Proof.
  intros H w w' Hw. unfold query. specialize (H _ _ (proj1 Hw)).
  destruct (f (aw_db w)), (f' (aw_db w')); simpl in *; done.
Qed.
Lemma both_stmt f f' (e : store_err -> E) : (forall d d', alike d d' -> both_results alike (f d) (f' d')) ->
  both eq (stmt f e) (stmt f' e).
Proof.
  intros H w w' Hw. unfold stmt. specialize (H _ _ (proj1 Hw)).
  destruct (f (aw_db w)), (f' (aw_db w')); simpl in *; try done; [|by subst].
  split; [done|]. by destruct Hw as (_ & Hw).
Qed.
Lemma both_now clock : both eq (now_unix clock : SE E Z) (now_unix clock).
Proof. intros w w' (Hd & Ht & H). unfold now_unix. simpl. by rewrite Ht. Qed.
Lemma both_random random : both eq (RandomToken random : SE E string) (RandomToken random).
Proof. intros w w' (Hd & Ht & Hr & H). unfold RandomToken. simpl. by rewrite Hr. Qed.
Lemma both_uuid new_uuid : both eq (NewUUID new_uuid : SE E string) (NewUUID new_uuid).
Proof. intros w w' (Hd & Ht & Hr & H). unfold NewUUID. simpl. by rewrite Hr. Qed.
Lemma both_audit r f : both eq (upd (on_audit r f) : SE E unit) (upd (on_audit r f)).
Proof.
  intros w w' Hw. split; [done|]. unfold upd, on_audit. simpl. destruct (rq_Audited r); [|done].
  destruct Hw as (Hd & Ht & Hr & Hc & H). unfold alike_world. simpl. by rewrite Hc.
Qed.
End Both.
Lemma both_decode {A} (b : result APIError A) : both eq (decode b) (decode b).
Proof. intros w w' Hw. by destruct b. Qed.
Lemma both_decoded {A} (R : relation A) (b b' : result APIError A) : both_results R b b' -> both R (decode b) (decode b').
Proof. intros H w w' Hw. by destruct b, b'. Qed.
Lemma both_check o : both eq (check o) (check o).
Proof. intros w w' Hw. by destruct o. Qed.

(** Replies that are the same and leave the same. *)
Definition same_reply (f f' : world -> outcome * world) : Prop :=
  forall w w', alike_world w w' -> (f w).1 = (f' w').1 /\ alike_world (f w).2 (f' w').2.
Lemma both_ok v v' : v = v' -> both same_reply (ok v) (ok v').
Proof.
  intros ->. apply both_ret. intros w w' (Hd & Ht & Hr & Hc & Hh & Hk). split; [done|].
  unfold alike_world. simpl. by rewrite Hh.
Qed.
Lemma both_created v v' : v = v' -> both same_reply (created v) (created v').
Proof.
  intros ->. apply both_ret. intros w w' (Hd & Ht & Hr & Hc & Hh & Hk). split; [done|].
  unfold alike_world. simpl. by rewrite Hh.
Qed.
Lemma both_noContent : both same_reply (mret noContent : SE APIError _) (mret noContent).
Proof.
  apply both_ret. intros w w' (Hd & Ht & Hr & Hc & Hh & Hk). split; [done|]. unfold alike_world. simpl. by rewrite Hh.
Qed.
Lemma both_handle body body' r : both same_reply (body r) (body' r) -> same_reply (handle body r) (handle body' r).
Proof.
  intros H w w' Hw. unfold handle. destruct (H w w' Hw) as [Hr Hs].
  destruct (body r w) as [[f|e] w1], (body' r w') as [[f'|e'] w1']; simpl in *; try done; [by apply Hr|subst e'].
  destruct Hs as (Hd & Ht & Hrd & Hc & Hh & Hk). split; [done|]. unfold alike_world. simpl. by rewrite Hh.
Qed.

Create HintDb both.
#[export] Hint Resolve both_throw both_guard both_now both_random both_uuid both_audit both_decode both_check both_noContent
  create_alike update_alike delete_alike create_mapping_alike delete_mapping_alike : both.

Lemma get_alike id d d' : alike d d' -> both_results alike_provider (GetAuthProvider id d) (GetAuthProvider id d').
Proof. intros Hd. unfold GetAuthProvider. by destruct (alike_lookup _ _ id Hd). Qed.
Lemma mappings_alike id d d' : alike d d' -> ListGroupRoleMappings id d = ListGroupRoleMappings id d'.
Proof. intros (_ & H & _)%alike_rest. unfold ListGroupRoleMappings. by rewrite H. Qed.
Lemma views_alike l l' : Forall2 alike_provider l l' -> toAuthProviderView <$> l = toAuthProviderView <$> l'.
Proof. induction 1 as [|p q l l' H _ IH]; [done|]. by rewrite !fmap_cons, (view_proper _ _ H), IH. Qed.
Lemma summaries_alike l l' : Forall2 alike_provider l l' -> providerSummary <$> l = providerSummary <$> l'.
Proof. induction 1 as [|p q l l' H _ IH]; [done|]. by rewrite !fmap_cons, (summary_proper _ _ H), IH. Qed.

(** Requests that give and withhold the same secrets, whatever these are. *)
Definition hide_given (s : option string) : option string := blank_secret <$> s.
Definition blank_request (req : authProviderRequest) : authProviderRequest :=
  mkProviderReq (pr_Name req) (pr_Kind req) (pr_Enabled req) (pr_DefaultRoleID req) (pr_LDAPHost req) (pr_LDAPPort req)
    (pr_LDAPTLS req) (pr_LDAPSkipVerify req) (pr_LDAPBindDN req) (hide_given (pr_LDAPBindPW req)) (pr_LDAPBaseDN req)
    (pr_LDAPUserFilter req) (pr_LDAPAttrUser req) (pr_LDAPAttrEmail req) (pr_LDAPAttrDisplay req) (pr_LDAPGroupBaseDN req)
    (pr_LDAPGroupFilter req) (pr_LDAPAttrMember req) (pr_OIDCIssuer req) (pr_OIDCClientID req)
    (hide_given (pr_OIDCClientSecret req)) (pr_OIDCRedirectURL req) (pr_OIDCScopes req) (pr_OIDCGroupsClaim req)
    (pr_OIDCUsernameClaim req) (pr_OIDCEmailClaim req).
Definition alike_request (a b : authProviderRequest) : Prop := blank_request a = blank_request b.
Definition alike_given (s t : option string) : Prop := hide_given s = hide_given t.

Section Hidden.
Context (clock : nat -> Z) (random : nat -> string) (sha256_hex : string -> string)
  (url_Parse : string -> option (string * string)) (deps : Deps)
  (new_uuid : nat -> string) (seal : string -> string -> string) (open_sealed : string -> option string)
  (lower_rune : Z -> Z) (publicURL : string) (s256 : string -> string) (http_redirect : request -> string -> string * json).
Context {C En I : Type} `{LdapLib C En} `{OidcLib I}.
(** A sealed secret has its nonce and its tag. *)
Hypothesis seal_nonempty : forall n s, seal n s <> "".

Abbreviation inner := (sso_inner clock random sha256_hex deps new_uuid seal open_sealed lower_rune publicURL s256
  http_redirect (C := C) (En := En) (I := I)) (only parsing).

Lemma both_seal s t : alike_given s t -> both alike_secret (seal_given random seal s) (seal_given random seal t).
Proof.
  unfold alike_given, hide_given. intros Hst. destruct s as [s|], t as [t|]; try done.
  simpl in Hst. injection Hst as Hst. unfold seal_given, blank_secret in *. repeat case_bool_decide; try done.
  eapply both_bind; [apply both_random|]. intros n n' <-. apply both_ret. split; intros Hn; by apply seal_nonempty in Hn.
Qed.

Definition alike_call (c c' : sso_call) : Prop :=
  match c, c' with
  | SCreate b, SCreate b' | SUpdate b, SUpdate b' => both_results alike_request b b'
  | SProviders, SProviders | SList, SList | SGet, SGet | SDelete, SDelete | SListMappings, SListMappings
  | SDeleteMapping, SDeleteMapping => True
  | SCreateMapping b, SCreateMapping b' => b = b'
  | _, _ => False
  end.

Ltac next := eapply both_bind; [solve [eauto with both | apply both_query; eauto with both | apply both_stmt; eauto with both]
  |first [intros ? ? <- | intros ? ? ?]; try match goal with |- both _ (let _ := _ in _) _ => cbv zeta end].

Lemma request_alike q q' : alike_request q q' ->
  pr_Name q = pr_Name q' /\ pr_Kind q = pr_Kind q' /\
  (forall kind, validateProviderRequest kind q = validateProviderRequest kind q') /\
  (forall id kind, applyProviderRequest id kind q = applyProviderRequest id kind q') /\
  alike_given (pr_LDAPBindPW q) (pr_LDAPBindPW q') /\ alike_given (pr_OIDCClientSecret q) (pr_OIDCClientSecret q').
Proof.
  unfold alike_request. intros Hq. split_and!.
  - by apply (f_equal pr_Name) in Hq.
  - by apply (f_equal pr_Kind) in Hq.
  - intros kind. change (validateProviderRequest kind (blank_request q) = validateProviderRequest kind (blank_request q')). by rewrite Hq.
  - intros id kind. change (applyProviderRequest id kind (blank_request q) = applyProviderRequest id kind (blank_request q')). by rewrite Hq.
  - by apply (f_equal pr_LDAPBindPW) in Hq.
  - by apply (f_equal pr_OIDCClientSecret) in Hq.
Qed.
Lemma given_same s t : alike_given s t -> bool_decide (is_Some s) = bool_decide (is_Some t).
Proof. unfold alike_given, hide_given. by destruct s, t. Qed.
Lemma sealed_request a a' b b' id kind q : alike_secret a a' -> alike_secret b b' ->
  alike_provider (ap_seal a b (applyProviderRequest id kind q)) (ap_seal a' b' (applyProviderRequest id kind q)).
Proof. intros Ha Hb. by apply alike_seal. Qed.
#[local] Hint Resolve both_seal get_alike sealed_request : both.

Lemma both_update b b' r : both_results alike_request b b' ->
  same_reply (UpdateAuthProviderHandler clock random seal b r) (UpdateAuthProviderHandler clock random seal b' r).
Proof.
  intros Hb. apply both_handle. eapply both_bind; [by apply both_decoded|].
  intros q q' (Hn & _ & Hv & Ha & H1 & H2)%request_alike. eapply both_bind; [apply both_query; eauto with both|].
  intros e e' He. assert (ap_Kind e = ap_Kind e' /\ ap_Name e = ap_Name e') as [-> ->].
  { split; [by apply (f_equal ap_Kind) in He|by apply (f_equal ap_Name) in He]. }
  cbv zeta. rewrite Hn, Hv, (given_same _ _ H1), (given_same _ _ H2). rewrite !Ha. do 8 next.
  apply both_ok. by apply view_proper.
Qed.
Lemma both_create b b' r : both_results alike_request b b' ->
  same_reply (CreateAuthProviderHandler clock random new_uuid seal lower_rune b r)
    (CreateAuthProviderHandler clock random new_uuid seal lower_rune b' r).
Proof.
  intros Hb. apply both_handle. eapply both_bind; [by apply both_decoded|].
  intros q q' (Hn & Hk & Hv & Ha & H1 & H2)%request_alike. rewrite Hn, Hk.
  eapply both_bind; [apply (both_decode (normalizeProviderKind lower_rune (pr_Kind q')))|]. intros kind ? <-. rewrite Hv.
  do 3 next. rewrite Ha. cbv zeta. do 3 next. next. do 2 next. apply both_created. apply view_proper.
  change (alike_provider (provider_row ?x ?t) (provider_row ?y ?t)) with
    (provider_row (blank_secrets x) t = provider_row (blank_secrets y) t). f_equal. by apply sealed_request.
Qed.

(** C15 No secret comes back.  Take two databases that differ only in the sealed secrets
    of the providers, each set or unset in both, and two requests that differ only in
    the secrets they give, each given, empty or left out in both.  Then the public list
    of providers and every administrative call on providers and group mappings, the
    connection test apart, reply the same, bytes and status, write the same headers,
    cookies and audit details, and leave databases that again differ only in those
    secrets: no reply, and nothing an administrator can read, tells one secret from
    another.  The sealing function is only assumed never to give an empty string. *)
Theorem provider_secrets_hidden c c' r w w' : alike_call c c' -> alike_world w w' ->
  (inner c r w).1 = (inner c' r w').1 /\ alike_world (inner c r w).2 (inner c' r w').2.
Proof.
  intros Hc Hw. enough (same_reply (inner c r) (inner c' r)) as Hs by by apply Hs.
  destruct c, c'; try done; simpl in Hc; subst; cbn [sso_inner]; first [by apply both_create | by apply both_update | apply both_handle].
  - eapply both_bind; [apply both_ask, enabled_proper|]. intros l l' Hl. apply both_ok. by rewrite (summaries_alike _ _ Hl).
  - eapply both_bind; [apply both_ask, list_proper|]. intros l l' Hl. apply both_ok. by rewrite (views_alike _ _ Hl).
  - next. apply both_ok. by apply view_proper.
  - do 2 next. apply both_noContent.
  - next. eapply both_bind; [apply both_ask, mappings_alike|]. intros l ? <-. by apply both_ok.
  - do 4 next. assert (ap_Name a2 = ap_Name a') as -> by by apply (f_equal ap_Name) in H1.
    do 6 next. by apply both_created.
  - do 3 next. apply both_noContent.
Qed.
End Hidden.

(** The secrets of both providers, changed. *)
Definition other_secrets (p : AuthProvider) : AuthProvider := ap_seal "gcm:other" "gcm:another" p.
Definition demo_other_world : world := on_db (set_sso (set_providers (fmap other_secrets))) demo_sso_world.

Lemma provider_secrets_hidden_witness :
  let r := demo_sso_req "ann" SList [] in
  (demo_sso_inner SList r demo_sso_world).1 = (demo_sso_inner SList r demo_other_world).1 /\
  providers (aw_db demo_sso_world) <> providers (aw_db demo_other_world).
Proof.
  intros r. split.
  - apply (provider_secrets_hidden demo_clock demo_random demo_sha demo_deps demo_uuid demo_seal demo_open demo_lower_rune ""
      demo_s256 demo_redirect).
    + intros n s. discriminate.
    + exact I.
    + split; [|by split_and!]. vm_compute. reflexivity.
  - intros H. apply (f_equal (lookup "corp")) in H. vm_compute in H. discriminate.
Defined.

(** ** Where the code does not do what it says *)

(** Names are not unique, and the refusal that says they are is that of a default
    role that does not exist. *)
Example provider_name_conflict :
  let create name role := CreateAuthProviderHandler demo_clock demo_random demo_uuid demo_seal demo_lower_rune
    (Ok (mkProviderReq name "ldap" true role "host" 0 "" false "" None "dc=x" "" "" "" "" "" "" "" "" "" None "" "" "" "" ""))
    (demo_sso_req "ann" SList []) demo_sso_world in
  (status_of (create "corp" ""), status_of (create "fresh" "no-such-role")) = (201, 409).
Proof. vm_compute. reflexivity. Qed.
