(* ===== verification/Fs.v ===== *)
(** * Paths and files: packages path/filepath and os

    The system calls the storage backends make, on a tree of directories and
    files without symbolic links.  A place is the list of its names, innermost
    first; [cwd] is the working directory.  [fault] says which calls fail for a
    reason of their own (permission, space, device), and how much of a write was
    done by then. *)
From S2P Require Import Prelude GoStd.

Abbreviation place := (list string) (only parsing).

(** ** package path/filepath, on Unix *)

(** The place a path names, [..] taken lexically. *)
Definition locate (cwd : place) (p : string) : place :=
  foldl (clean_elem true) (if has_prefix p "/" then [] else cwd) (split_on "/" p).

(** [filepath.Join(a, b)]: empty elements are dropped. *)
Definition path_join (a b : string) : string :=
  if bool_decide (a = "") then (if bool_decide (b = "") then "" else path_clean b)
  else if bool_decide (b = "") then path_clean a else path_clean (a +:+ "/" +:+ b).
(** [filepath.Dir(p)]: all but the last element. *)
Definition path_dir (p : string) : string :=
  path_clean (join "/" (removelast (split_on "/" p)) +:+ (if bool_decide (1 < length (split_on "/" p))%nat then "/" else "")).

(** [filepath.Rel(base, target)]. *)
Fixpoint strip_common (b t : list string) : list string * list string :=
  match b, t with
  | x :: b', y :: t' => if bool_decide (x = y) then strip_common b' t' else (b, t)
  | _, _ => (b, t)
  end.
Definition path_rel (base target : string) : result string string :=
  let err := Err ("Rel: can't make " +:+ target +:+ " relative to " +:+ base) in
  if negb (Bool.eqb (has_prefix base "/") (has_prefix target "/")) then err
  else
    match strip_common (clean_elems (has_prefix base "/") base) (clean_elems (has_prefix target "/") target) with
    | ([], []) => Ok "."
    | ([], t) => Ok (join "/" t)
    | (b, t) => if bool_decide (head b = Some "..") then err else Ok (join "/" (((fun _ => "..") <$> b) ++ t))
    end.

(** ** The tree *)

Inductive node := Dir | File (content : string).
#[export] Instance node_eq_dec : EqDecision node.
Proof. solve_decision. Defined.

Record disk := mkDisk { dk_nodes : gmap place node; dk_calls : nat }.

Inductive errno := ENOENT | EEXIST | ENOTDIR | EISDIR | ENOTEMPTY | EOTHER (text : string).
#[export] Instance errno_eq_dec : EqDecision errno.
Proof. solve_decision. Defined.
Record path_error := mkPathErr { pe_Op : string; pe_Path : string; pe_Err : errno }.
Definition errno_text (e : errno) : string :=
  match e with
  | ENOENT => "no such file or directory" | EEXIST => "file exists" | ENOTDIR => "not a directory"
  | EISDIR => "is a directory" | ENOTEMPTY => "directory not empty" | EOTHER t => t
  end.
Definition path_error_text (e : path_error) : string :=
  pe_Op e +:+ " " +:+ pe_Path e +:+ ": " +:+ errno_text (pe_Err e).

Definition node_at (t : gmap place node) (p : place) : option node :=
  match p with [] => Some Dir | _ => t !! p end.
Definition is_dir (t : gmap place node) (p : place) : bool := bool_decide (node_at t p = Some Dir).
(** Why a place cannot be reached. *)
Fixpoint unreachable (t : gmap place node) (p : place) : errno :=
  match p with
  | [] => ENOENT
  | _ :: up => match node_at t up with Some (File _) => ENOTDIR | Some Dir => ENOENT | None => unreachable t up end
  end.
Definition children (t : gmap place node) (p : place) : list place :=
  filter (fun q => q <> [] /\ tail q = p) (map_to_list t).*1.

(** ** System calls: results, and the tree after *)

Definition FS (E A : Type) : Type := disk -> result E A * disk.
#[export] Instance FS_ret {E} : MRet (FS E) := fun A a d => (Ok a, d).
#[export] Instance FS_bind {E} : MBind (FS E) := fun A B f m d =>
  match m d with (Ok a, d') => f a d' | (Err e, d') => (Err e, d') end.
Definition fail {E A} (e : E) : FS E A := fun d => (Err e, d).
(** The error of a call, with what the caller makes of it. *)
Definition on_error {E F A} (f : E -> F) (m : FS E A) : FS F A := fun d =>
  match m d with (Ok a, d') => (Ok a, d') | (Err e, d') => (Err (f e), d') end.
(** A call whose outcome is looked at. *)
Definition attempt {E F A} (m : FS E A) : FS F (result E A) := fun d => match m d with (x, d') => (Ok x, d') end.

Section Calls.
Context (cwd : place) (fault : nat -> option (nat * string)).

Definition call {A} (op path : string) (f : gmap place node -> result errno (A * gmap place node)) : FS path_error A := fun d =>
  match fault (dk_calls d) with
  | Some (_, text) => (Err (mkPathErr op path (EOTHER text)), mkDisk (dk_nodes d) (S (dk_calls d)))
  | None =>
      match f (dk_nodes d) with
      | Ok (a, t) => (Ok a, mkDisk t (S (dk_calls d)))
      | Err e => (Err (mkPathErr op path e), mkDisk (dk_nodes d) (S (dk_calls d)))
      end
  end.

Definition stat_at (path : string) (p : place) : FS path_error node :=
  call "stat" path (fun t => match node_at t p with Some n => Ok (n, t) | None => Err (unreachable t p) end).
Definition mkdir_at (path : string) (p : place) : FS path_error unit :=
  call "mkdir" path (fun t =>
    match node_at t p, p with
    | Some _, _ | None, [] => Err EEXIST
    | None, _ :: up => if is_dir t up then Ok (tt, <[p := Dir]> t) else Err (unreachable t p)
    end).
(** The path of the parent of a clean path, as [MkdirAll] cuts it: the separator
    stays at the end, and a single relative name has none. *)
Definition parent_path (r : bool) (up : list string) : string :=
  (if r then "/" else "") +:+ join "/" (rev up) +:+ (if bool_decide (up = []) then "" else "/").
(** [os.MkdirAll] of a clean path, given its elements, innermost first: the parents
    first.  An error of the first [Stat] is passed over. *)
Fixpoint mkdir_all_at (r : bool) (path : string) (st : list string) : FS path_error unit :=
  s ← attempt (stat_at path (locate cwd path));
  match s with
  | Ok Dir => mret tt
  | Ok (File _) => fail (mkPathErr "mkdir" path ENOTDIR)
  | Err _ =>
      _ ← match st with
          | [] => mret tt
          | _ :: up => if bool_decide (parent_path r up = "") then mret tt else mkdir_all_at r (parent_path r up) up
          end;
      m ← attempt (mkdir_at path (locate cwd path));
      match m with
      | Ok _ => mret tt
      | Err e =>
          s ← attempt (stat_at path (locate cwd path));
          match s with Ok Dir => mret tt | _ => fail e end
      end
  end.
Definition MkdirAll (path : string) : FS path_error unit :=
  mkdir_all_at (has_prefix path "/") path (rev (clean_elems (has_prefix path "/") path)).

(** [os.Create]: an empty file. *)
Definition Create (path : string) : FS path_error unit :=
  call "open" path (fun t =>
    match node_at t (locate cwd path), locate cwd path with
    | Some Dir, _ | None, [] => Err EISDIR
    | Some (File _), p => Ok (tt, <[p := File ""]> t)
    | None, p => match p with
                 | _ :: up => if is_dir t up then Ok (tt, <[p := File ""]> t) else Err (unreachable t p)
                 | [] => Err EISDIR
                 end
    end).

(** A stream: its bytes, and the error that cuts it short. *)
Record reader := mkReader { rd_data : string; rd_err : option string }.
Fixpoint take_bytes (n : nat) (s : string) : string :=
  match n, s with S n, String c s' => String c (take_bytes n s') | _, _ => "" end.
(** [io.Copy] to a file just created: how many bytes went through, and the error. *)
Definition Copy (path : string) (r : reader) : FS path_error (Z * option string) := fun d =>
  let write s := mkDisk (alter (fun n => match n with File _ => File s | Dir => Dir end) (locate cwd path) (dk_nodes d))
                   (S (dk_calls d)) in
  match fault (dk_calls d) with
  | Some (n, text) =>
      let s := take_bytes n (rd_data r) in (Ok (Z.of_nat (String.length s), Some ("write " +:+ path +:+ ": " +:+ text)), write s)
  | None => (Ok (Z.of_nat (String.length (rd_data r)), rd_err r), write (rd_data r))
  end.
Definition Close (path : string) : FS path_error unit := call "close" path (fun t => Ok (tt, t)).

(** [os.Open], and what reading gives: a directory cannot be read. *)
Definition Open (path : string) : FS path_error reader :=
  call "open" path (fun t =>
    match node_at t (locate cwd path) with
    | Some (File s) => Ok (mkReader s None, t)
    | Some Dir => Ok (mkReader "" (Some ("read " +:+ path +:+ ": is a directory")), t)
    | None => Err (unreachable t (locate cwd path))
    end).
(** [os.Remove]: a file, or an empty directory. *)
Definition Remove (path : string) : FS path_error unit :=
  call "remove" path (fun t =>
    match node_at t (locate cwd path) with
    | Some (File _) => Ok (tt, delete (locate cwd path) t)
    | Some Dir =>
        if bool_decide (path = ".") then Err (EOTHER "invalid argument")
        else if bool_decide (locate cwd path = []) then Err (EOTHER "device or resource busy")
        else if bool_decide (children t (locate cwd path) = []) then Ok (tt, delete (locate cwd path) t)
        else Err ENOTEMPTY
    | None => Err (unreachable t (locate cwd path))
    end).
Definition WriteFile (path data : string) : FS path_error unit :=
  _ ← Create path;
  x ← Copy path (mkReader data None);
  c ← attempt (Close path);
  match x.2, c with
  | Some text, _ => fail (mkPathErr "write" path (EOTHER text))
  | None, Err e => fail e
  | None, Ok _ => mret tt
  end.

(** [filepath.Walk] from a root: the files under it, names outermost first, in the
    order of the walk.  An unreadable directory ends the walk with its error. *)
Fixpoint names_le (a b : list string) : bool :=
  match a, b with
  | [], _ => true
  | _ :: _, [] => false
  | x :: a', y :: b' => if bool_decide (x = y) then names_le a' b' else String.leb x y
  end.
Definition by_names (a b : list string * string) : Prop := names_le a.1 b.1 = true.
#[export] Instance by_names_dec a b : Decision (by_names a b).
Proof. unfold by_names. apply _. Defined.
Fixpoint under (base p : place) : option (list string) :=
  if bool_decide (p = base) then Some []
  else match p with [] => None | x :: up => (fun l => l ++ [x]) <$> under base up end.
Definition files_under (t : gmap place node) (base : place) : list (list string * string) :=
  merge_sort by_names
    (omap (fun e => match e.2 with File s => (fun l => (l, s)) <$> under base e.1 | Dir => None end) (map_to_list t)).
Definition Walk (root : string) : FS path_error (list (list string * string)) :=
  call "lstat" root (fun t =>
    match node_at t (locate cwd root) with
    | Some _ => Ok (files_under t (locate cwd root), t)
    | None => Err (unreachable t (locate cwd root))
    end).
End Calls.
