(* ===== verification/Storage.v ===== *)
(** * Storage backends: configuration, the local directory, and SAN pools

    server/internal/storage/storage.go, object.go, local.go and san.go.  An object is
    the bytes of a file; a key is a path under the base directory.  A SAN backend is
    probed by defining and starting a pool of a libvirt host. *)
From S2P Require Import Prelude GoStd Utf8 Fs.

(** ** storage.go *)

Definition TypeNFS := "nfs".
Definition TypeISCSI := "iscsi".
Definition TypeSMB := "smb".
Definition TypeAzureBlob := "azureblob".
Definition TypeS3 := "s3".
Definition TypeLocal := "local".
Definition ValidType (t : string) : bool := bool_decide (t ∈ [TypeNFS; TypeISCSI; TypeSMB; TypeAzureBlob; TypeS3; TypeLocal]).
Definition IsSAN (t : string) : bool := bool_decide (t ∈ [TypeNFS; TypeISCSI; TypeSMB]).
Definition IsCloud (t : string) : bool := bool_decide (t ∈ [TypeAzureBlob; TypeS3]).
Definition ErrUnsupported := "storage: unsupported backend type".

Record Config := mkConfig {
  cf_Type : string; cf_Name : string; cf_Endpoint : string; cf_Target : string; cf_Username : string; cf_Secret : string;
  cf_ProviderID : string; cf_PoolName : string; cf_LibvirtEndpoint : string; cf_Account : string; cf_Container : string;
  cf_Region : string; cf_ServiceURL : string }.

Definition blank (s : string) : bool := bool_decide (trim_space s = "").
Definition firstNonEmpty (vals : list string) : string := default "" (head (filter (fun v => trim_space v <> "") vals)).

(** The error of a configuration, if it has one. *)
Definition Validate (c : Config) : option string :=
  let t := cf_Type c in
  if bool_decide (t = TypeNFS) then
    if blank (cf_Endpoint c) || blank (cf_Target c) then Some "nfs requires host (endpoint) and export path (target)" else None
  else if bool_decide (t = TypeISCSI) then
    if blank (cf_Endpoint c) || blank (cf_Target c) then Some "iscsi requires portal host (endpoint) and target IQN (target)" else None
  else if bool_decide (t = TypeSMB) then
    if blank (cf_Endpoint c) || blank (cf_Target c) then Some "smb requires server (endpoint) and share/UNC (target)" else None
  else if bool_decide (t = TypeAzureBlob) then
    if blank (firstNonEmpty [cf_Account c; cf_Username c]) || blank (firstNonEmpty [cf_Container c; cf_Target c])
    then Some "azureblob requires account (username) and container (target)"
    else if blank (cf_Secret c) then Some "azureblob requires an account key" else None
  else if bool_decide (t = TypeS3) then
    if blank (firstNonEmpty [cf_Container c; cf_Target c]) then Some "s3 requires a bucket (target)"
    else if blank (firstNonEmpty [cf_Account c; cf_Username c]) || blank (cf_Secret c)
    then Some "s3 requires an access key id (username) and secret access key"
    else if blank (cf_Region c) then Some "s3 requires a region" else None
  else if bool_decide (t = TypeLocal) then
    if blank (cf_Target c) then Some "local requires a base directory (target)" else None
  else Some (ErrUnsupported +:+ ": " +:+ quote t).

(** ** object.go *)

Record ObjectInfo := mkObject { oi_Key : string; oi_SizeBytes : Z }.

(** ** local.go *)

Definition write_probe := ".unihv-write-probe".
Definition trim_prefix (s p : string) : string := if has_prefix s p then string_drop (String.length p) s else s.

Definition newLocalBackend (cfg : Config) : result string string :=
  match Validate cfg with Some e => Err e | None => Ok (path_clean (trim_space (cf_Target cfg))) end.

Section Local.
Context (cwd : place) (fault : nat -> option (nat * string)) (base : string).

Abbreviation what msg := (on_error (fun e => msg +:+ path_error_text e)) (only parsing).

Definition local_Test : FS string unit :=
  _ ← what "local: create base dir: " (MkdirAll cwd fault base);
  let probe := path_join base write_probe in
  _ ← what "local: base dir not writable: " (WriteFile cwd fault probe "ok");
  _ ← attempt (E := path_error) (Remove cwd fault probe);
  mret tt.

(** The path of a key, under the base whatever the key. *)
Definition resolve (key : string) : result string string :=
  let clean := path_clean ("/" +:+ trim_prefix key "/") in
  let p := path_join base clean in
  let bad := Err ("local: invalid key " +:+ quote key) in
  match path_rel base p with
  | Err _ => bad
  | Ok rel => if bool_decide (rel = "..") || has_prefix rel "../" then bad else Ok p
  end.
Definition resolved (key : string) : FS string string := fun d =>
  match resolve key with Ok p => (Ok p, d) | Err e => (Err e, d) end.

(** The number of bytes copied comes with an error too. *)
Definition PutObject (key : string) (r : reader) : FS (Z * string) Z :=
  p ← on_error (fun e => (0, e)) (resolved key);
  _ ← on_error (fun e => (0, "local: mkdir: " +:+ path_error_text e)) (MkdirAll cwd fault (path_dir p));
  _ ← on_error (fun e => (0, "local: create object: " +:+ path_error_text e)) (Create cwd fault p);
  x ← on_error (fun e => (0, path_error_text e)) (Copy cwd fault p r);
  c ← attempt (Close fault p);
  match x.2, c with
  | Some copyErr, _ => _ ← attempt (E := path_error) (Remove cwd fault p); fail (x.1, "local: write object: " +:+ copyErr)
  | None, Err e => fail (x.1, "local: close object: " +:+ path_error_text e)
  | None, Ok _ => mret x.1
  end.

Definition GetObject (key : string) : FS string reader :=
  p ← resolved key;
  on_error (fun e => if bool_decide (pe_Err e = ENOENT) then "local: object not found: " +:+ key
                     else "local: open object: " +:+ path_error_text e) (Open cwd fault p).

Definition slash_key (names : list string) : string := match names with [] => "." | _ => join "/" names end.
Definition ListObjects (prefix : string) : FS string (list ObjectInfo) :=
  files ← what "local: list objects: " (Walk cwd fault base);
  mret (omap (fun f : list string * string =>
          let key := slash_key f.1 in
          if bool_decide (key = write_probe) then None
          else if bool_decide (prefix = "") || has_prefix key prefix then Some (mkObject key (Z.of_nat (String.length f.2)))
          else None) files).

(** The empty directories above a removed object, up to the base. *)
Fixpoint prune (n : nat) (dir : string) : FS string unit :=
  match n with
  | O => mret tt
  | S n =>
      if negb (bool_decide (dir = base)) && has_prefix dir base then
        r ← attempt (E := path_error) (Remove cwd fault dir);
        match r with Err _ => mret tt | Ok _ => prune n (path_dir dir) end
      else mret tt
  end.
Definition DeleteObject (key : string) : FS string unit :=
  p ← resolved key;
  r ← attempt (Remove cwd fault p);
  match r with
  | Err e => if bool_decide (pe_Err e = ENOENT) then prune (String.length p) (path_dir p)
             else fail ("local: delete object: " +:+ path_error_text e)
  | Ok _ => prune (String.length p) (path_dir p)
  end.
End Local.

(** ** san.go: names, hosts and shares *)

(** The characters libvirt accepts in the name of a pool. *)
Definition pool_rune (r : Z) : bool :=
  ((97 <=? r) && (r <=? 122)) || ((65 <=? r) && (r <=? 90)) || ((48 <=? r) && (r <=? 57)) ||
  (r =? 45) || (r =? 95) || (r =? 46).
Definition sanitizeName (s : string) : string :=
  let out := string_of_runes ((fun r => if pool_rune r.1 then r.1 else 45) <$> runes s) in
  if bool_decide (out = "") then "unihv-pool" else out.

(** [strings.IndexAny(s, "/\\")], as what comes before it. *)
Fixpoint before_slash (s : string) : string :=
  match s with
  | "" => ""
  | String c s' => if Ascii.eqb c "/" || Ascii.eqb c "\" then "" else String c (before_slash s')
  end.
Definition hostOnly (s : string) : string :=
  let s := trim_space s in
  let s := trim_prefix (trim_prefix (trim_prefix (trim_prefix s "smb://") "cifs://") "nfs://") "//" in
  let s := before_slash s in
  match cut_last ":" s with Some (h, _) => h | None => s end.
Definition hostPort (s def : string) : string * string :=
  let s := trim_space s in
  match cut_last ":" s with Some (h, p) => (h, p) | None => (s, def) end.
Definition unc (target : string) : string := trim_prefix (replace_all (trim_space target) "\" "/") "//".
Definition smbHost (endpoint target : string) : string :=
  let h := hostOnly endpoint in
  if negb (bool_decide (h = "")) then h
  else match cut "/" (unc target) with Some (h, _) => h | None => unc target end.
Definition smbShare (target : string) : string :=
  let t := match cut "/" (unc target) with Some (_, rest) => rest | None => unc target end in
  "/" +:+ trim_prefix t "/".
Definition derivePoolName (cfg : Config) : string :=
  sanitizeName ("unihv-" +:+ cf_Type cfg +:+ "-" +:+ hostOnly (cf_Endpoint cfg)).

(** ** san.go: the pool document *)

(** [xml.EscapeText]: what is not a character of XML becomes U+FFFD. *)
Definition xml_char (r : Z) : bool :=
  (r =? 9) || (r =? 10) || (r =? 13) || ((32 <=? r) && (r <=? 55295)) || ((57344 <=? r) && (r <=? 65533)) ||
  ((65536 <=? r) && (r <=? 1114111)).
Definition xml_rune (r : Z) : string :=
  if r =? 34 then "&#34;" else if r =? 39 then "&#39;" else if r =? 38 then "&amp;" else if r =? 60 then "&lt;"
  else if r =? 62 then "&gt;" else if r =? 9 then "&#x9;" else if r =? 10 then "&#xA;" else if r =? 13 then "&#xD;"
  else string_of_rune (if xml_char r then r else RuneError).
Definition xmlEsc (s : string) : string := foldr (fun r t => xml_rune r.1 +:+ t) "" (runes s).

Definition nl : string := String (ascii_of_N 10) "".
Definition pool_dir := "/var/lib/libvirt/storage/".
Definition netfs_pool (name host dir format mount : string) : string :=
  "<pool type='netfs'>" +:+ nl +:+
  "  <name>" +:+ xmlEsc name +:+ "</name>" +:+ nl +:+
  "  <source>" +:+ nl +:+
  "    <host name='" +:+ xmlEsc host +:+ "'/>" +:+ nl +:+
  "    <dir path='" +:+ xmlEsc dir +:+ "'/>" +:+ nl +:+
  "    <format type='" +:+ format +:+ "'/>" +:+ nl +:+
  "  </source>" +:+ nl +:+
  "  <target><path>" +:+ xmlEsc mount +:+ "</path></target>" +:+ nl +:+
  "</pool>" +:+ nl.
Definition iscsi_pool (name host port target : string) : string :=
  "<pool type='iscsi'>" +:+ nl +:+
  "  <name>" +:+ xmlEsc name +:+ "</name>" +:+ nl +:+
  "  <source>" +:+ nl +:+
  "    <host name='" +:+ xmlEsc host +:+ "' port='" +:+ xmlEsc port +:+ "'/>" +:+ nl +:+
  "    <device path='" +:+ xmlEsc target +:+ "'/>" +:+ nl +:+
  "  </source>" +:+ nl +:+
  "  <target><path>/dev/disk/by-path</path></target>" +:+ nl +:+
  "</pool>" +:+ nl.
Definition renderPoolXML (cfg : Config) (poolName : string) : string :=
  let mountPath := pool_dir +:+ sanitizeName poolName in
  if bool_decide (cf_Type cfg = TypeNFS) then netfs_pool poolName (hostOnly (cf_Endpoint cfg)) (cf_Target cfg) "nfs" mountPath
  else if bool_decide (cf_Type cfg = TypeSMB)
  then netfs_pool poolName (smbHost (cf_Endpoint cfg) (cf_Target cfg)) (smbShare (cf_Target cfg)) "cifs" mountPath
  else if bool_decide (cf_Type cfg = TypeISCSI) then
    let '(host, port) := hostPort (cf_Endpoint cfg) "3260" in iscsi_pool poolName host port (cf_Target cfg)
  else "".

(** ** san.go: the probe *)

Record sanBackend := mkSan { sb_cfg : Config; sb_poolName : string }.
Definition newSANBackend (cfg : Config) : result string sanBackend :=
  match Validate cfg with
  | Some e => Err e
  | None =>
      let name := trim_space (cf_PoolName cfg) in
      Ok (mkSan cfg (if bool_decide (name = "") then derivePoolName cfg else name))
  end.

Definition parseLibvirtEndpoint (endpoint : string) : string * string :=
  let e := trim_space endpoint in
  if bool_decide (e = "") then ("unix", "/var/run/libvirt/libvirt-sock")
  else if has_prefix e "unix://" then ("unix", trim_prefix e "unix://")
  else if has_prefix e "tcp://" then ("tcp", trim_prefix e "tcp://")
  else if has_prefix e "/" then ("unix", e)
  else if contains e ":" then ("tcp", e)
  else ("unix", e).

(** An error of the libvirt client: its text, and the message of the [libvirt.Error]
    in its chain, if there is one. *)
Record lv_error := mkLvErr { le_text : string; le_message : option string }.
Definition sanitizeLibvirtErr (e : lv_error) : string :=
  match le_message e with Some m => trim_space m | None => le_text e end.

(** The calls of the client library, in the order they are made. *)
Inductive lv_call :=
| LDial (network addr : string) | LConnect | LDefine (xml : string) | LCreate (pool : string)
| LDestroy (pool : string) | LUndefine (pool : string) | LDisconnect | LClose.
(** A libvirt host: its answer to a call, after those before it.  The answer to
    [LDefine] is a pool. *)
Definition libvirt := list lv_call -> lv_call -> result lv_error string.

Section San.
Context (lv : libvirt).

Definition LV (E A : Type) : Type := list lv_call -> result E A * list lv_call.
#[local] Instance LV_ret {E} : MRet (LV E) := fun A a h => (Ok a, h).
#[local] Instance LV_bind {E} : MBind (LV E) := fun A B f m h =>
  match m h with (Ok a, h') => f a h' | (Err e, h') => (Err e, h') end.
Definition lcall {E} (c : lv_call) (f : lv_error -> E) : LV E string := fun h =>
  (match lv h c with Ok a => Ok a | Err e => Err (f e) end, h ++ [c]).
(** A call whose answer is dropped. *)
Definition ignored {E} (c : lv_call) : LV E unit := fun h => (Ok tt, h ++ [c]).
(** [defer]: a call made when the rest is over, however it ended. *)
Definition defer {E A} (c : lv_call) (m : LV E A) : LV E A := fun h => match m h with (x, h') => (x, h' ++ [c]) end.

Definition san_Test (b : sanBackend) : LV string unit :=
  let '(network, addr) := parseLibvirtEndpoint (cf_LibvirtEndpoint (sb_cfg b)) in
  let t := cf_Type (sb_cfg b) in
  _ ← lcall (LDial network addr) (fun e => "connect libvirt " +:+ network +:+ "://" +:+ addr +:+ ": " +:+ le_text e);
  defer LClose (
    _ ← lcall LConnect (fun e => "libvirt handshake: " +:+ le_text e);
    defer LDisconnect (
      pool ← lcall (LDefine (renderPoolXML (sb_cfg b) (sb_poolName b)))
               (fun e => "define " +:+ t +:+ " pool: " +:+ sanitizeLibvirtErr e);
      defer (LUndefine pool) (
        _ ← lcall (LCreate pool) (fun e => "start " +:+ t +:+ " pool (mount/login failed): " +:+ sanitizeLibvirtErr e);
        ignored (LDestroy pool)))).
End San.

(** The files of a pool are under the place where libvirt mounts it. *)
Definition fsDelegate (b : sanBackend) : result string string :=
  if bool_decide (cf_Type (sb_cfg b) = TypeISCSI)
  then Err "storage: iscsi backend does not support object operations (raw block target)"
  else Ok (pool_dir +:+ sanitizeName (sb_poolName b)).

Section Pool.
Context (cwd : place) (fault : nat -> option (nat * string)) (b : sanBackend).
Definition delegate {E A} (f : string -> E) (m : string -> FS E A) : FS E A := fun d =>
  match fsDelegate b with Ok base => m base d | Err e => (Err (f e), d) end.
Definition san_PutObject (key : string) (rd : reader) : FS (Z * string) Z :=
  delegate (fun e => (0, e)) (fun base => PutObject cwd fault base key rd).
Definition san_GetObject (key : string) : FS string reader := delegate id (fun base => GetObject cwd fault base key).
Definition san_ListObjects (prefix : string) : FS string (list ObjectInfo) :=
  delegate id (fun base => ListObjects cwd fault base prefix).
Definition san_DeleteObject (key : string) : FS string unit := delegate id (fun base => DeleteObject cwd fault base key).
End Pool.
