(* ===== verification/StorageFacts.v ===== *)
(** * Paths, trees of files, and what each operation of a local store does

    Cleaning a path keeps its place, and a key never leaves the base; which places an
    operation may change, that the tree stays a tree, and what an answer without an
    error says of the file. *)
From S2P Require Import Prelude GoStd GoFacts Fs Storage.

(** ** Names and cleaned paths *)

(** A name a directory entry can have. *)
Definition good_name (x : string) : bool :=
  every (other_than "/") x && negb (bool_decide (x = "")) && negb (bool_decide (x = ".")) && negb (bool_decide (x = "..")).
Lemma good_name_spec x : good_name x = true <-> every (other_than "/") x = true /\ x <> "" /\ x <> "." /\ x <> "..".
Proof. unfold good_name. rewrite !andb_true_iff, !negb_true_iff, !bool_decide_eq_false. tauto. Qed.
Definition good_names (l : list string) : Prop := Forall (fun x => good_name x = true) l.

Lemma split_noslash p : Forall (fun x => every (other_than "/") x = true) (split_on "/" p).
Proof.
  induction p as [|c p IH]; simpl; [by repeat constructor|]. destruct (Ascii.eqb c "/") eqn:E; [by constructor|].
  destruct (split_on "/" p) as [|x l]; [by repeat constructor; simpl; unfold other_than; rewrite E|].
  apply Forall_cons in IH as [Hx Hl]. constructor; [|done]. simpl. unfold other_than at 1. by rewrite E.
Qed.
Lemma split_join l : l <> [] -> Forall (fun x => every (other_than "/") x = true) l -> split_on "/" (join "/" l) = l.
Proof.
  intros Hl Hf. induction Hf as [|x l Hx Hf IH]; [done|]. destruct l as [|y l]; [by apply split_on_none|].
  change (join "/" (x :: y :: l)) with (x +:+ String "/" (join "/" (y :: l))). rewrite split_on_sep by done. by rewrite IH.
Qed.

Lemma push_good r st l : good_names l -> foldl (clean_elem r) st l = rev l ++ st.
Proof.
  revert st. induction l as [|x l IH]; intros st Hl; [done|]. apply Forall_cons in Hl as [(_ & H1 & H2 & H3)%good_name_spec Hl].
  cbn [foldl]. rewrite IH by done. unfold clean_elem. rewrite !bool_decide_eq_false_2 by done. simpl. by rewrite <- app_assoc.
Qed.

Lemma Forall_rev_iff {A} (P : A -> Prop) l : Forall P (rev l) <-> Forall P l.
Proof. rewrite rev_alt. apply Forall_reverse. Qed.

(** The stack of a relative path: names on top of climbs. *)
Definition climbs (st : list string) : Prop := exists l n, st = l ++ repeat ".." n /\ good_names l.
Lemma clean_step_climbs r st x : every (other_than "/") x = true -> climbs st -> (r = true -> good_names st) ->
  climbs (clean_elem r st x) /\ (r = true -> good_names (clean_elem r st x)).
Proof.
  intros Hx (l & n & -> & Hl) Hr. unfold clean_elem.
  destruct (bool_decide (x = "") || bool_decide (x = ".")) eqn:E; [split; [by exists l, n|done]|].
  apply orb_false_iff in E as [E1%bool_decide_eq_false E2%bool_decide_eq_false].
  case_bool_decide as E3.
  - subst x. destruct l as [|y l].
    + destruct n as [|n]; simpl; [destruct r; [split; [by exists [], 0%nat|done]|split; [by exists [], 1%nat|done]]|].
      split; [by exists [], (S (S n))|]. intros Ht. specialize (Hr Ht). simpl in Hr.
      apply Forall_cons in Hr as [(_ & _ & _ & Hd)%good_name_spec _]. done.
    + apply Forall_cons in Hl as [Hy Hl]. pose proof (proj1 (good_name_spec y) Hy) as (_ & _ & _ & Hd). simpl.
      rewrite bool_decide_eq_false_2 by done. split; [by exists l, n|]. intros Ht. specialize (Hr Ht). by apply Forall_cons in Hr as [_ Hr].
  - assert (good_name x = true) by (by apply good_name_spec). split; [exists (x :: l), n; split; [done|by constructor]|].
    intros Ht. constructor; [done|by apply Hr].
Qed.
Lemma clean_climbs r es st : Forall (fun x => every (other_than "/") x = true) es -> climbs st -> (r = true -> good_names st) ->
  climbs (foldl (clean_elem r) st es) /\ (r = true -> good_names (foldl (clean_elem r) st es)).
Proof.
  intros Hes. revert st. induction Hes as [|x es Hx Hes IH]; intros st Hc Hr; simpl; [done|].
  apply clean_step_climbs with (r := r) (x := x) in Hc as [Hc Hr']; [|done|done]. by apply IH.
Qed.
Lemma climbs_nil : climbs [].
Proof. exists [], 0%nat. split; [done|constructor]. Qed.
Lemma stack_climbs r p : climbs (foldl (clean_elem r) [] (split_on "/" p)) /\
  (r = true -> good_names (foldl (clean_elem r) [] (split_on "/" p))).
Proof. apply clean_climbs; [apply split_noslash|apply climbs_nil|by constructor]. Qed.

(** Replaying a stack of kept elements from another place. *)
Lemma rev_repeat {A} (x : A) n : rev (repeat x n) = repeat x n.
Proof.
  induction n as [|n IH]; [done|]. simpl. rewrite IH. clear IH. induction n as [|n IH]; [done|]. simpl. by f_equal.
Qed.
Lemma replay_step st c x : every (other_than "/") x = true -> climbs st ->
  foldl (clean_elem true) c (rev (clean_elem false st x)) = clean_elem true (foldl (clean_elem true) c (rev st)) x.
Proof.
  intros Hx (l & n & -> & Hl). unfold clean_elem at 2. destruct (bool_decide (x = "") || bool_decide (x = ".")) eqn:E.
  { unfold clean_elem at 2. by rewrite E. }
  pose proof E as (E1%bool_decide_eq_false & E2%bool_decide_eq_false)%orb_false_iff.
  destruct (bool_decide (x = "..")) eqn:E3.
  - apply bool_decide_eq_true in E3 as ->. destruct l as [|y l].
    + destruct n as [|n]; [done|]. simpl app. cbn [repeat]. rewrite bool_decide_eq_true_2 by done.
      change (rev (".." :: ".." :: repeat ".." n)) with (rev (".." :: repeat ".." n) ++ [".."]). by rewrite foldl_app.
    + apply Forall_cons in Hl as [(_ & H1 & H2 & Hd)%good_name_spec Hl]. simpl. rewrite bool_decide_eq_false_2 by done.
      rewrite foldl_app. simpl. unfold clean_elem at 3. rewrite !bool_decide_eq_false_2 by done. simpl. unfold clean_elem at 2.
      simpl. by rewrite bool_decide_eq_false_2.
  - change (rev (x :: l ++ repeat ".." n)) with (rev (l ++ repeat ".." n) ++ [x]). by rewrite foldl_app.
Qed.
Lemma replay es st c : Forall (fun x => every (other_than "/") x = true) es -> climbs st ->
  foldl (clean_elem true) c (rev (foldl (clean_elem false) st es)) = foldl (clean_elem true) (foldl (clean_elem true) c (rev st)) es.
Proof.
  intros Hes. revert st. induction Hes as [|x es Hx Hes IH]; intros st Hc; simpl; [done|].
  rewrite IH; [by rewrite replay_step|by apply (clean_step_climbs false st x)].
Qed.

(** ** A cleaned path is written from its elements *)

Definition render (r : bool) (l : list string) : string :=
  if r then "/" +:+ join "/" l else match l with [] => "." | _ => join "/" l end.
(** Elements a cleaned path can have. *)
Definition proper (r : bool) (l : list string) : Prop := climbs (rev l) /\ (r = true -> good_names l).

Lemma path_clean_render p : path_clean p = render (has_prefix p "/") (clean_elems (has_prefix p "/") p).
Proof. unfold path_clean, render. destruct (has_prefix p "/"); [done|]. by destruct (clean_elems false p). Qed.
Lemma clean_elems_proper r p : proper r (clean_elems r p).
Proof.
  unfold proper, clean_elems. rewrite rev_involutive. destruct (stack_climbs r p) as [Hc Hg]. split; [done|].
  intros Hr. unfold good_names. by apply Forall_rev_iff, Hg.
Qed.
Lemma climbs_noslash st : climbs st -> Forall (fun x => every (other_than "/") x = true /\ x <> "" /\ x <> ".") st.
Proof.
  intros (l & n & -> & Hl). apply Forall_app. split.
  - eapply Forall_impl; [exact Hl|]. intros x (H & H1 & H2 & _)%good_name_spec. done.
  - induction n; simpl; constructor; auto.
Qed.
Lemma proper_noslash r l : proper r l -> Forall (fun x => every (other_than "/") x = true /\ x <> "" /\ x <> ".") l.
Proof. intros [Hc _]. apply climbs_noslash in Hc. by rewrite Forall_rev_iff in Hc. Qed.
Lemma proper_false r l : proper r l -> proper false l.
Proof. intros [Hc _]. by split. Qed.

Lemma join_first x l : exists t, join "/" (x :: l) = x +:+ t /\ (t = "" \/ has_prefix t "/" = true).
Proof.
  destruct l as [|y l]; [exists ""; rewrite append_nil; auto|]. exists ("/" +:+ join "/" (y :: l)). split; [done|right].
  apply has_prefix_spec. by eexists.
Qed.
Lemma render_prefix r l : proper r l -> has_prefix (render r l) "/" = r.
Proof.
  intros Hp. destruct r; [apply has_prefix_spec; by eexists|]. destruct l as [|x l]; [done|].
  apply proper_noslash in Hp. apply Forall_cons in Hp as [(Hx & Hne & _) _]. unfold render.
  destruct (join_first x l) as (t & -> & _). destruct x as [|c x]; [done|]. simpl in Hx.
  apply andb_true_iff in Hx as [Hc _]. apply not_true_iff_false. intros [u Hu]%has_prefix_spec. by injection Hu as -> _.
Qed.
Lemma split_render r l : proper r l -> split_on "/" (render r l) =
  if r then "" :: (if bool_decide (l = []) then [""] else l) else (if bool_decide (l = []) then ["."] else l).
Proof.
  intros Hp%proper_noslash. assert (l <> [] -> split_on "/" (join "/" l) = l) as Hj.
  { intros Hl. apply split_join; [done|]. eapply Forall_impl; [exact Hp|]. by intros x []. }
  unfold render. destruct r.
  - change ("/" +:+ join "/" l) with ("" +:+ String "/" (join "/" l)). rewrite split_on_sep by done. f_equal.
    case_bool_decide as Hl; [by subst|by apply Hj].
  - case_bool_decide as Hl; [by subst|]. destruct l; [done|by apply Hj].
Qed.
Lemma replay_false l : proper false l -> foldl (clean_elem false) [] l = rev l.
Proof.
  intros [(a & n & Ha & Hg) _]. apply (f_equal (@rev string)) in Ha. rewrite rev_involutive, rev_app_distr, rev_repeat in Ha. subst l.
  rewrite foldl_app. assert (foldl (clean_elem false) [] (repeat ".." n) = repeat ".." n) as ->.
  { enough (forall m, foldl (clean_elem false) (repeat ".." m) (repeat ".." n) = repeat ".." (n + m)) as H.
    { specialize (H 0%nat). by rewrite Nat.add_0_r in H. }
    clear. induction n as [|n IH]; intros m; [done|]. replace (S n + m)%nat with (n + S m)%nat by lia.
    etrans; [|apply (IH (S m))]. simpl. f_equal. by destruct m. }
  rewrite push_good; [by rewrite rev_app_distr, rev_repeat|]. by apply Forall_rev_iff.
Qed.
Lemma clean_render r l : proper r l -> clean_elems r (render r l) = l.
Proof.
  intros Hp. unfold clean_elems. rewrite split_render by done. destruct r.
  - destruct Hp as [_ Hg]. specialize (Hg eq_refl). simpl. case_bool_decide as Hl; [by subst|].
    rewrite push_good by done. by rewrite app_nil_r, rev_involutive.
  - case_bool_decide as Hl; [by subst|]. rewrite replay_false by done. apply rev_involutive.
Qed.
Lemma render_inj r l k : proper r l -> proper r k -> render r l = render r k -> l = k.
Proof. intros Hl Hk H. by rewrite <- (clean_render r l Hl), H, clean_render. Qed.
Lemma locate_render cwd r l : proper r l -> locate cwd (render r l) = foldl (clean_elem true) (if r then [] else cwd) l.
Proof.
  intros Hp. unfold locate. rewrite render_prefix, split_render by done. destruct r; simpl; case_bool_decide as Hl; by subst.
Qed.
Lemma locate_clean cwd p : locate cwd (path_clean p) = locate cwd p.
Proof.
  rewrite path_clean_render, locate_render by apply clean_elems_proper. unfold locate, clean_elems.
  destruct (has_prefix p "/"); [|apply (replay _ [] cwd); [apply split_noslash|apply climbs_nil]].
  pose proof (proj2 (stack_climbs true p) eq_refl) as Hg. rewrite push_good; [by rewrite app_nil_r, rev_involutive|].
  by apply Forall_rev_iff.
Qed.
Lemma path_clean_idem p : path_clean (path_clean p) = path_clean p.
Proof.
  rewrite (path_clean_render (path_clean p)), (path_clean_render p). rewrite render_prefix by apply clean_elems_proper.
  by rewrite clean_render by apply clean_elems_proper.
Qed.

(** ** Going up, and down *)

Lemma proper_snoc r l x : proper r (l ++ [x]) -> proper r l.
Proof.
  intros [Hc Hg]. split; [|intros Hr; by specialize (Hg Hr); apply Forall_app in Hg as [? _]].
  rewrite rev_app_distr in Hc. destruct Hc as (a & n & Ha & Hga). destruct a as [|y a].
  - destruct n as [|n]; [done|]. exists [], n. by injection Ha.
  - exists a, n. apply Forall_cons in Hga as [_ Hga]. by injection Ha.
Qed.
Lemma proper_app r l k : proper r l -> good_names k -> proper r (l ++ k).
Proof.
  intros [Hc Hg] Hk. split; [|intros Hr; apply Forall_app; split; [by apply Hg|done]].
  destruct Hc as (a & n & Ha & Hga). exists (rev k ++ a), n. rewrite rev_app_distr, Ha. split; [by rewrite app_assoc|].
  apply Forall_app. split; [by apply Forall_rev_iff|done].
Qed.
Lemma clean_slash r q : clean_elems r (q +:+ "/") = clean_elems r q.
Proof. unfold clean_elems. change (q +:+ "/") with (q +:+ String "/" ""). by rewrite split_on_app, foldl_app. Qed.
Lemma path_clean_slash r l : proper r l -> l <> [] \/ r = true -> path_clean (render r l +:+ "/") = render r l.
Proof.
  intros Hp Hl. rewrite path_clean_render, clean_slash. assert (has_prefix (render r l +:+ "/") "/" = r) as ->.
  { destruct r; [apply has_prefix_spec; by eexists|]. destruct Hl as [Hl|Hl]; [|done].
    apply not_true_iff_false. intros [u Hu]%has_prefix_spec. pose proof (render_prefix false l Hp) as Hf.
    apply not_true_iff_false in Hf. apply Hf. apply has_prefix_spec. destruct (render false l) as [|c q] eqn:E.
    - destruct l as [|x l]; [done|]. apply proper_noslash in Hp. apply Forall_cons in Hp as [(_ & Hne & _) _].
      unfold render in E. destruct (join_first x l) as (t & Hj & _). rewrite Hj in E. by destruct x.
    - injection Hu as -> _. by exists q. }
  by rewrite clean_render.
Qed.
Lemma removelast_snoc {A} (l : list A) x : removelast (l ++ [x]) = l.
Proof. apply removelast_last. Qed.
Lemma path_dir_render r l x : proper r (l ++ [x]) -> path_dir (render r (l ++ [x])) = render r l.
Proof.
  intros Hp. pose proof (proper_snoc _ _ _ Hp) as Hl. unfold path_dir. rewrite split_render by done.
  rewrite !(bool_decide_eq_false_2 (l ++ [x] = [])) by (by destruct l). destruct r.
  - change ("" :: l ++ [x]) with (("" :: l) ++ [x]). rewrite removelast_snoc, length_app. simpl length.
    rewrite bool_decide_eq_true_2 by lia. destruct l as [|y l]; [done|].
    change (join "/" ("" :: y :: l)) with (render true (y :: l)). apply path_clean_slash; [done|by left].
  - rewrite removelast_snoc, length_app. simpl length. destruct l as [|y l]; [done|]. simpl length.
    rewrite bool_decide_eq_true_2 by lia. apply (path_clean_slash false (y :: l)); [done|by left].
Qed.

(** A clean path below another. *)
Lemma join_below r l q : proper r l -> path_join (render r l) (path_clean ("/" +:+ q)) = render r (l ++ clean_elems true ("/" +:+ q)).
Proof.
  intros Hp. set (k := clean_elems true ("/" +:+ q)).
  assert (good_names k) as Hk by (apply (proj2 (clean_elems_proper true ("/" +:+ q))); done).
  assert (path_clean ("/" +:+ q) = render true k) as ->.
  { rewrite path_clean_render. assert (has_prefix ("/" +:+ q) "/" = true) as -> by (apply has_prefix_spec; by eexists). done. }
  assert (render r l <> "") as Hne.
  { destruct r; [done|]. destruct l as [|x l]; [done|]. apply proper_noslash in Hp. apply Forall_cons in Hp as [(_ & Hx & _) _].
    unfold render. destruct (join_first x l) as (t & -> & _). by destruct x. }
  unfold path_join. rewrite (bool_decide_eq_false_2 _ Hne), (bool_decide_eq_false_2 (render true k = "")) by done.
  rewrite path_clean_render. assert (has_prefix (render r l +:+ "/" +:+ render true k) "/" = r) as ->.
  { destruct r; [apply has_prefix_spec; by eexists|]. pose proof (render_prefix false l Hp) as Hf.
    apply not_true_iff_false. apply not_true_iff_false in Hf. intros [u Hu]%has_prefix_spec. apply Hf, has_prefix_spec.
    destruct (render false l) as [|c s]; [done|]. injection Hu as -> _. by exists s. }
  f_equal. unfold clean_elems at 1. change ("/" +:+ render true k) with (String "/" (render true k)).
  rewrite split_on_app, foldl_app. rewrite (split_render true k) by (split; [exists (rev k), 0%nat; rewrite app_nil_r; split; [done|by apply Forall_rev_iff]|done]).
  cbn [foldl]. change (clean_elem r ?st "") with st.
  assert (foldl (clean_elem r) [] (split_on "/" (render r l)) = rev l) as ->.
  { pose proof (clean_render r l Hp) as Hc. unfold clean_elems in Hc.
    rewrite <- (rev_involutive (foldl _ _ _)). by rewrite Hc. }
  case_bool_decide as Hkn; [rewrite Hkn; change (rev (rev l) = l ++ []); by rewrite rev_involutive, app_nil_r|].
  rewrite push_good by done. by rewrite rev_app_distr, !rev_involutive.
Qed.

Lemma strip_below l k : strip_common l (l ++ k) = ([], k).
Proof. induction l as [|x l IH]; [done|]. simpl. by rewrite bool_decide_eq_true_2. Qed.
Lemma rel_below r l k : proper r l -> good_names k ->
  path_rel (render r l) (render r (l ++ k)) = Ok (match k with [] => "." | _ => join "/" k end).
Proof.
  intros Hp Hk. pose proof (proper_app _ _ _ Hp Hk) as Hpk. unfold path_rel. rewrite !render_prefix by done.
  rewrite eqb_reflx. simpl. rewrite !clean_render by done. rewrite strip_below. by destruct k.
Qed.
Lemma below_not_up k : good_names k -> let rel := match k with [] => "." | _ => join "/" k end in
  bool_decide (rel = "..") || has_prefix rel "../" = false.
Proof.
  intros Hk. destruct k as [|x k]; [done|]. cbv zeta. apply Forall_cons in Hk as [(Hx & Hne & _ & Hdd)%good_name_spec _].
  destruct (join_first x k) as (t & -> & Ht). apply orb_false_iff. split.
  - apply bool_decide_eq_false. intros He. destruct Ht as [->|[u ->]%has_prefix_spec]; [by rewrite append_nil in He|].
    destruct x as [|a [|b [|c x]]]; simpl in He; [done|..]; try (by injection He as ->).
  - apply not_true_iff_false. intros [u Hu]%has_prefix_spec.
    destruct x as [|a [|b [|c x]]]; simpl in *; [done|..].
    + injection Hu as -> Hu. destruct Ht as [->|[v ->]%has_prefix_spec]; [done|]. by injection Hu.
    + injection Hu as -> -> Hu. done.
    + injection Hu as -> -> -> _. rewrite !andb_true_iff in Hx. by destruct Hx as (_ & _ & Hx & _).
Qed.

(** ** Computations on a disk *)

Definition fwp {E A} (m : FS E A) (Q : result E A -> disk -> Prop) (d : disk) : Prop := Q (m d).1 (m d).2.
Lemma fwp_bind {E A B} (m : FS E A) (f : A -> FS E B) Q d :
  fwp m (fun x d' => match x with Ok a => fwp (f a) Q d' | Err e => Q (Err e) d' end) d -> fwp (m ≫= f) Q d.
Proof. unfold fwp, mbind, FS_bind. by destruct (m d) as [[a|e] d']. Qed.
Lemma fwp_ret {E A} (a : A) (Q : result E A -> disk -> Prop) d : Q (Ok a) d -> fwp (mret a) Q d.
Proof. done. Qed.
Lemma fwp_fail {E A} (e : E) (Q : result E A -> disk -> Prop) d : Q (Err e) d -> fwp (fail e) Q d.
Proof. done. Qed.
Lemma fwp_on_error {E F A} (f : E -> F) (m : FS E A) Q d :
  fwp m (fun x d' => Q (match x with Ok a => Ok a | Err e => Err (f e) end) d') d -> fwp (on_error f m) Q d.
Proof. unfold fwp, on_error. by destruct (m d) as [[a|e] d']. Qed.
Lemma fwp_attempt {E F A} (m : FS E A) (Q : result F (result E A) -> disk -> Prop) d :
  fwp m (fun x d' => Q (Ok x) d') d -> fwp (attempt m) Q d.
Proof. unfold fwp, attempt. by destruct (m d) as [x d']. Qed.
Lemma fwp_mono {E A} (m : FS E A) (Q R : result E A -> disk -> Prop) d :
  fwp m Q d -> (forall x d', Q x d' -> R x d') -> fwp m R d.
Proof. unfold fwp. auto. Qed.
Lemma fwp_elim {E A} (m : FS E A) Q d x d' : fwp m Q d -> m d = (x, d') -> Q x d'.
Proof. unfold fwp. intros HQ Hm. by rewrite Hm in HQ. Qed.

Section Tree.
Context (cwd : place) (fault : nat -> option (nat * string)).

Lemma fwp_call {A} op path f (Q : result path_error A -> disk -> Prop) d :
  (forall e n, Q (Err (mkPathErr op path e)) (mkDisk (dk_nodes d) n)) ->
  (forall a t, fault (dk_calls d) = None -> f (dk_nodes d) = Ok (a, t) -> Q (Ok a) (mkDisk t (S (dk_calls d)))) ->
  fwp (call fault op path f) Q d.
Proof.
  intros He Ho. unfold fwp, call. destruct (fault (dk_calls d)) as [[n s]|] eqn:Ef; [apply He|].
  destruct (f (dk_nodes d)) as [[a t]|e] eqn:E; [by apply Ho|apply He].
Qed.
(** The same, when why a call fails matters. *)
Lemma fwp_call_err {A} op path f (Q : result path_error A -> disk -> Prop) d :
  (forall e n, (f (dk_nodes d) = Err e \/ exists s, e = EOTHER s) -> Q (Err (mkPathErr op path e)) (mkDisk (dk_nodes d) n)) ->
  (forall a t, fault (dk_calls d) = None -> f (dk_nodes d) = Ok (a, t) -> Q (Ok a) (mkDisk t (S (dk_calls d)))) ->
  fwp (call fault op path f) Q d.
Proof.
  intros He Ho. unfold fwp, call. destruct (fault (dk_calls d)) as [[n s]|] eqn:Ef; [apply He; eauto|].
  destruct (f (dk_nodes d)) as [[a t]|e] eqn:E; [by apply Ho|apply He; auto].
Qed.

(** ** Trees: whatever exists is in a directory *)

Definition wf (t : gmap place node) : Prop := forall q n, t !! q = Some n -> q <> [] /\ is_dir t (tail q) = true.
Lemma is_dir_spec t q : is_dir t q = true <-> node_at t q = Some Dir.
Proof. apply bool_decide_eq_true. Qed.
Lemma node_at_some t x q : node_at t (x :: q) = t !! (x :: q).
Proof. done. Qed.

Lemma wf_insert t x up n : wf t -> is_dir t up = true -> (t !! (x :: up) <> Some Dir \/ n = Dir) -> wf (<[x :: up := n]> t).
Proof.
  intros Hw Hu Hn q m. rewrite lookup_insert. case_decide as E.
  - subst q. intros [= ->]. split; [done|]. simpl. apply is_dir_spec. apply is_dir_spec in Hu. destruct up as [|y up]; [done|].
    rewrite node_at_some, lookup_insert_ne; [done|]. intros E%(f_equal (@length string)). simpl in E. lia.
  - intros [Hq Hd]%Hw. split; [done|]. apply is_dir_spec. apply is_dir_spec in Hd. destruct (tail q) as [|y p] eqn:E2; [done|].
    rewrite node_at_some in *. rewrite lookup_insert. case_decide as E3; [|done]. rewrite E3 in Hn. naive_solver.
Qed.
Lemma wf_delete t p : wf t -> children t p = [] -> wf (delete p t).
Proof.
  intros Hw Hc q m Hq%lookup_delete_Some. destruct Hq as [Hne Hq]. pose proof (Hw _ _ Hq) as [Hn Hd]. split; [done|].
  apply is_dir_spec. apply is_dir_spec in Hd. destruct (tail q) as [|y up] eqn:E; [done|].
  rewrite node_at_some in *. rewrite lookup_delete_ne; [done|]. intros ->.
  assert (q ∈ children t (y :: up)) as Hin.
  { unfold children. apply list_elem_of_filter. split; [done|]. apply list_elem_of_fmap. exists (q, m).
    split; [done|]. by apply elem_of_map_to_list. }
  rewrite Hc in Hin. by apply not_elem_of_nil in Hin.
Qed.
Lemma file_no_children t p s : wf t -> p <> [] -> t !! p = Some (File s) -> children t p = [].
Proof.
  intros Hw Hne Hp. destruct (children t p) as [|q l] eqn:E; [done|]. assert (q ∈ children t p) as Hq by (rewrite E; by left).
  unfold children in Hq. apply list_elem_of_filter in Hq as [[_ <-] Hq]. apply list_elem_of_fmap in Hq as ([q' n] & -> & Hin).
  apply elem_of_map_to_list, Hw in Hin as [_ Hd%is_dir_spec]. simpl in *. destruct (tail q'); [done|]. by rewrite node_at_some, Hp in Hd.
Qed.
Lemma wf_rewrite t p s : wf t -> wf (alter (fun n => match n with File _ => File s | Dir => Dir end) p t).
Proof.
  intros Hw q m Hq. assert (forall q', node_at (alter (fun n => match n with File _ => File s | Dir => Dir end) p t) q' = Some Dir <->
    node_at t q' = Some Dir) as Hd.
  { intros [|y q']; [done|]. rewrite !node_at_some, lookup_alter. case_decide as E; [|done].
    subst p. destruct (t !! (y :: q')) as [[]|]; simpl; naive_solver. }
  assert (exists m', t !! q = Some m') as [m' Hm'].
  { rewrite lookup_alter in Hq. case_decide as E; [|by eexists]. subst. destruct (t !! q); [by eexists|done]. }
  apply Hw in Hm' as [Hq' Hm']. split; [done|]. by apply is_dir_spec, Hd, is_dir_spec.
Qed.
Lemma wf_above t p q : wf t -> is_Some (t !! p) -> suffix q p -> q <> p -> node_at t q = Some Dir.
Proof.
  intros Hw [n Hn] [k ->] Hne. revert n Hn. induction k as [|x k IH]; intros n Hn; [done|].
  apply Hw in Hn as [_ Hd%is_dir_spec]. simpl in Hd. destruct k as [|y k]; [done|].
  apply (IH ltac:(simpl; intros E%(f_equal (@length string)); simpl in E; rewrite length_app in E; lia) Dir). exact Hd.
Qed.

Lemma above_missing t p : wf t -> node_at t p = None -> unreachable t p = ENOENT -> forall q s, suffix q p -> t !! q <> Some (File s).
Proof.
  intros Hw. induction p as [|x up IH]; intros Hn Hu q s Hs; [done|].
  destruct Hs as [[|y k] Hk]; simpl in Hk; [subst q; rewrite node_at_some in Hn; by rewrite Hn|].
  assert (suffix q up) as Hs by (exists k; by injection Hk). clear Hk.
  simpl in Hu. destruct (node_at t up) as [[|f]|] eqn:E; [|done|by apply IH].
  intros Hq. destruct (decide (q = up)) as [->|Hne].
  - destruct up; [by destruct (Hw _ _ Hq)|]. rewrite node_at_some in E. congruence.
  - destruct up as [|w up]; [apply suffix_nil_inv in Hs; done|].
    assert (node_at t q = Some Dir) as Hd by (eapply wf_above; [done|rewrite <- node_at_some, E; by eexists|done|done]).
    destruct q; [by destruct (Hw _ _ Hq)|]. rewrite node_at_some in Hd. congruence.
Qed.

(** ** What an operation on place [p] of a store at [B] may change *)

Definition no_file (o : option node) : Prop := forall s, o <> Some (File s).
Definition near (B p : place) (t t' : gmap place node) : Prop :=
  forall q, q <> p -> t' !! q = t !! q \/
    (no_file (t !! q) /\ no_file (t' !! q) /\ suffix q p /\ (suffix B q \/ t' !! q = Some Dir)).
#[export] Instance near_pre B p : PreOrder (near B p).
Proof.
  split; [by left|]. intros t1 t2 t3 H12 H23 q Hq. destruct (H12 q Hq) as [E1|(N1 & N2 & Hs & Hd)], (H23 q Hq) as [E2|(N3 & N4 & Hs' & Hd')].
  - left. by rewrite E2.
  - right. by rewrite <- E1.
  - right. by rewrite E2.
  - right. naive_solver.
Qed.
Lemma near_at B p t n : near B p t (<[p := n]> t).
Proof. intros q Hq. left. by rewrite lookup_insert_ne. Qed.
Lemma near_alter B p t f : near B p t (alter f p t).
Proof. intros q Hq. left. by rewrite lookup_alter_ne. Qed.
Lemma near_delete B p t : near B p t (delete p t).
Proof. intros q Hq. left. by rewrite lookup_delete_ne. Qed.

(** Files elsewhere are the same files. *)
Lemma near_files B p t t' q s : near B p t t' -> q <> p -> (t' !! q = Some (File s) <-> t !! q = Some (File s)).
Proof. intros Hn Hq. destruct (Hn q Hq) as [->|(N1 & N2 & _)]; [done|]. split; intros E; exfalso; [by apply (N2 s)|by apply (N1 s)]. Qed.

(** ** The calls *)

Lemma stat_wp path p (Q : result path_error node -> disk -> Prop) d :
  (forall e n, Q (Err e) (mkDisk (dk_nodes d) n)) ->
  (forall x n, node_at (dk_nodes d) p = Some x -> Q (Ok x) (mkDisk (dk_nodes d) n)) ->
  fwp (stat_at fault path p) Q d.
Proof.
  intros He Ho. apply fwp_call; [intros; apply He|]. intros a t _. destruct (node_at (dk_nodes d) p) eqn:E; [|done].
  intros [= <- <-]. by apply Ho.
Qed.

(** A new directory under one that exists. *)
Lemma mkdir_wp B p path q (Q : result path_error unit -> disk -> Prop) d :
  wf (dk_nodes d) -> suffix q p ->
  (forall x d', wf (dk_nodes d') -> near B p (dk_nodes d) (dk_nodes d') ->
     (x = Ok tt -> node_at (dk_nodes d') q = Some Dir) -> Q x d') ->
  fwp (mkdir_at fault path q) Q d.
Proof.
  intros Hw Hs HQ. apply fwp_call; [intros; by apply HQ|]. intros a t _. destruct (node_at (dk_nodes d) q) as [n|] eqn:En; [by destruct q|].
  destruct q as [|x up]; [done|]. destruct (is_dir (dk_nodes d) up) eqn:Eu; [|done]. intros [= <- <-]. apply HQ; simpl.
  - apply wf_insert; [done..|by right].
  - intros q' Hq'. rewrite lookup_insert. case_decide as E; [|by left]. subst q'. right. rewrite <- node_at_some, En.
    split_and!; [done|done|done|by right].
  - by rewrite lookup_insert_eq.
Qed.

(** The places of a path without [..], and of its parent as [MkdirAll] cuts it. *)
Definition start (r : bool) : place := if r then [] else cwd.
Lemma locate_good r st : good_names st -> (st = [] -> r = true) -> locate cwd (render r (rev st)) = st ++ start r.
Proof.
  intros Hg Hr. rewrite locate_render by (split; [exists st, 0%nat; by rewrite rev_involutive, app_nil_r|intros _; by apply Forall_rev_iff]).
  rewrite push_good by (by apply Forall_rev_iff). by rewrite rev_involutive.
Qed.
Lemma locate_app s x : s <> "" -> locate cwd (s +:+ "/" +:+ x) = foldl (clean_elem true) (locate cwd s) (split_on "/" x).
Proof.
  intros Hs. unfold locate. change ("/" +:+ x) with (String "/" x). rewrite split_on_app, foldl_app.
  destruct s as [|a s]; [done|]. unfold has_prefix. by destruct s.
Qed.
Lemma locate_slash s : s <> "" -> locate cwd (s +:+ "/") = locate cwd s.
Proof. intros Hs. change "/" with ("/" +:+ ""). by rewrite locate_app. Qed.
Lemma render_ne r k : good_names k -> render r k <> "".
Proof.
  intros Hk. destruct r; [done|]. destruct k as [|x k]; [done|]. apply Forall_cons in Hk as [(_ & Hx & _)%good_name_spec _].
  unfold render. destruct (join_first x k) as (t & -> & _). by destruct x.
Qed.
Lemma locate_parent r up : good_names up -> parent_path r up <> "" -> locate cwd (parent_path r up) = up ++ start r.
Proof.
  intros Hg Hne. unfold parent_path in *. case_bool_decide as E.
  - subst up. destruct r; [done|]. done.
  - rewrite <- append_assoc. assert ((if r then "/" else "") +:+ join "/" (rev up) = render r (rev up)) as Hr.
    { unfold render. destruct r; [done|]. destruct (rev up) eqn:E2; [|done]. apply (f_equal (@rev string)) in E2. by rewrite rev_involutive in E2. }
    rewrite Hr. rewrite locate_slash; [by apply locate_good|]. apply render_ne. by apply Forall_rev_iff.
Qed.

Definition make_dir (path : string) (q : place) : FS path_error unit :=
  m ← attempt (mkdir_at fault path q);
  match m with
  | Ok _ => mret tt
  | Err e => s ← attempt (stat_at fault path q); match s with Ok Dir => mret tt | _ => fail e end
  end.
Lemma make_dir_wp B p path q (Q : result path_error unit -> disk -> Prop) d :
  wf (dk_nodes d) -> suffix q p ->
  (forall x d', wf (dk_nodes d') -> near B p (dk_nodes d) (dk_nodes d') ->
     (x = Ok tt -> node_at (dk_nodes d') q = Some Dir) -> Q x d') ->
  fwp (make_dir path q) Q d.
Proof.
  intros Hw Hs HQ. apply fwp_bind, fwp_attempt. apply (mkdir_wp B p); [done..|]. intros [[]|e] d' Hw' Hn Hd.
  - apply fwp_ret, HQ; auto.
  - apply fwp_bind, fwp_attempt, stat_wp; [intros; by apply fwp_fail, HQ|].
    intros [|] n Hx; [by apply fwp_ret, HQ|by apply fwp_fail, HQ].
Qed.

Lemma mkdir_all_at_wp B p r st path (Q : result path_error unit -> disk -> Prop) d :
  wf (dk_nodes d) -> good_names st -> locate cwd path = st ++ start r -> suffix (st ++ start r) p ->
  (forall x d', wf (dk_nodes d') -> near B p (dk_nodes d) (dk_nodes d') ->
     (x = Ok tt -> node_at (dk_nodes d') (st ++ start r) = Some Dir) -> Q x d') ->
  fwp (mkdir_all_at cwd fault r path st) Q d.
Proof.
  revert path Q d. induction st as [|x up IH]; intros path Q d Hw Hg Hl Hs HQ; cbn [mkdir_all_at]; rewrite Hl;
    apply fwp_bind, fwp_attempt, stat_wp.
  2,4: intros [|] m Hn; [by apply fwp_ret, HQ|by apply fwp_fail, HQ].
  all: intros e m; apply fwp_bind.
  - apply fwp_ret. by apply (make_dir_wp B p).
  - assert (forall d', wf (dk_nodes d') -> near B p (dk_nodes d) (dk_nodes d') ->
      fwp (make_dir path ((x :: up) ++ start r)) Q d') as Ht.
    { intros d' Hw' Hn'. apply (make_dir_wp B p); [done..|]. intros y d2 Hw2 Hn2 Hy. apply HQ; [done|by etrans|done]. }
    apply Forall_cons in Hg as [_ Hg]. case_bool_decide as Ep; [apply fwp_ret; by apply Ht|].
    apply IH; [done|done|by apply locate_parent|by eapply suffix_cons_l|].
    intros [y|e'] d' Hw' Hn' Hy; [by apply Ht|]. by apply HQ.
Qed.

(** [MkdirAll] of a path without [..]. *)
Lemma MkdirAll_wp B p r st (Q : result path_error unit -> disk -> Prop) d :
  wf (dk_nodes d) -> good_names st -> suffix (st ++ start r) p ->
  (forall x d', wf (dk_nodes d') -> near B p (dk_nodes d) (dk_nodes d') ->
     (x = Ok tt -> node_at (dk_nodes d') (st ++ start r) = Some Dir) -> Q x d') ->
  fwp (MkdirAll cwd fault (render r (rev st))) Q d.
Proof.
  intros Hw Hg Hs HQ. assert (proper r (rev st)) as Hp.
  { split; [exists st, 0%nat; by rewrite rev_involutive, app_nil_r|intros _; by apply Forall_rev_iff]. }
  unfold MkdirAll. rewrite render_prefix, clean_render, rev_involutive by done.
  apply (mkdir_all_at_wp B p); try done.
  rewrite locate_render, push_good by (done || by apply Forall_rev_iff). by rewrite rev_involutive.
Qed.

(** Writing a new file: [Create], then the bytes. *)
Lemma create_wp B path (Q : result path_error unit -> disk -> Prop) d :
  wf (dk_nodes d) ->
  (forall x d', wf (dk_nodes d') -> near B (locate cwd path) (dk_nodes d) (dk_nodes d') ->
     (x = Ok tt -> dk_nodes d' !! locate cwd path = Some (File "")) -> Q x d') ->
  fwp (Create cwd fault path) Q d.
Proof.
  intros Hw HQ. apply fwp_call; [intros; by apply HQ|]. intros a t _.
  destruct (node_at (dk_nodes d) (locate cwd path)) as [[|s]|] eqn:En, (locate cwd path) as [|x up] eqn:El; try done; simpl in En.
  - intros [= <- <-]. apply HQ; simpl; [|apply near_at|by rewrite lookup_insert_eq].
    apply wf_insert; [done|by destruct (Hw _ _ En)|left; by rewrite En].
  - cbv beta iota zeta. destruct (is_dir (dk_nodes d) up) eqn:Eu; [|done]. intros [= <- <-].
    apply HQ; simpl; [|apply near_at|by rewrite lookup_insert_eq]. apply wf_insert; [done..|left; by rewrite En].
Qed.
Lemma copy_wp B path rd (Q : result path_error (Z * option string) -> disk -> Prop) d :
  wf (dk_nodes d) ->
  (forall n e d', wf (dk_nodes d') -> near B (locate cwd path) (dk_nodes d) (dk_nodes d') ->
     (e = None -> dk_nodes d !! locate cwd path = Some (File "") -> rd_err rd = None /\ n = Z.of_nat (String.length (rd_data rd)) /\
        dk_nodes d' !! locate cwd path = Some (File (rd_data rd))) -> Q (Ok (n, e)) d') ->
  fwp (Copy cwd fault path rd) Q d.
Proof.
  intros Hw HQ. unfold fwp, Copy. destruct (fault (dk_calls d)) as [[n s]|]; simpl; apply HQ; simpl.
  1,4: by apply wf_rewrite. 1,3: apply near_alter. 1: done.
  intros -> Hf. by rewrite lookup_alter_eq, Hf.
Qed.
Lemma fs_open_wp path (Q : result path_error reader -> disk -> Prop) d :
  (forall e n, dk_nodes d !! locate cwd path = None \/ (exists s, pe_Err e = EOTHER s) -> Q (Err e) (mkDisk (dk_nodes d) n)) ->
  (forall rd n, dk_nodes d !! locate cwd path = Some (File (rd_data rd)) /\ rd_err rd = None \/
     node_at (dk_nodes d) (locate cwd path) = Some Dir /\ rd_err rd <> None -> Q (Ok rd) (mkDisk (dk_nodes d) n)) ->
  fwp (Open cwd fault path) Q d.
Proof.
  intros He Ho. apply fwp_call_err.
  - intros e n [Hr|[s ->]]; apply He; [left|by right; exists s]. destruct (node_at _ _) as [[|s]|] eqn:En; try done.
    by destruct (locate cwd path).
  - intros a t _ Hr. destruct (node_at _ _) as [[|s]|] eqn:En; [injection Hr as <- <-..|done]; apply Ho; [by right|left].
    by destruct (locate cwd path).
Qed.
Lemma walk_wp root (Q : result path_error (list (list string * string)) -> disk -> Prop) d :
  (forall e n, Q (Err e) (mkDisk (dk_nodes d) n)) ->
  (forall n, Q (Ok (files_under (dk_nodes d) (locate cwd root))) (mkDisk (dk_nodes d) n)) ->
  fwp (Walk cwd fault root) Q d.
Proof.
  intros He Ho. apply fwp_call; [intros; apply He|]. intros a t _. destruct (node_at _ _); [|done]. intros [= <- <-]. apply Ho.
Qed.

(** Taking away a file, or an empty directory. *)
Lemma remove_wp B p path (Q : result path_error unit -> disk -> Prop) d :
  wf (dk_nodes d) ->
  (locate cwd path = p \/ suffix (locate cwd path) p /\ suffix B (locate cwd path) /\ no_file (dk_nodes d !! locate cwd path)) ->
  (forall x d', wf (dk_nodes d') -> near B p (dk_nodes d) (dk_nodes d') ->
     (x = Ok tt -> is_Some (dk_nodes d !! locate cwd path) /\ dk_nodes d' = delete (locate cwd path) (dk_nodes d)) ->
     (forall e, x = Err e -> dk_nodes d' = dk_nodes d /\
        (pe_Err e = ENOENT -> node_at (dk_nodes d) (locate cwd path) = None /\ unreachable (dk_nodes d) (locate cwd path) = ENOENT)) -> Q x d') ->
  fwp (Remove cwd fault path) Q d.
Proof.
  intros Hw Hp HQ. unfold Remove. set (q := locate cwd path) in *. apply fwp_call_err.
  - intros e n He. apply HQ; [done|done|done|]. intros e' [= <-]. split; [done|]. simpl. intros ->. destruct He as [He|[s He]]; [|done].
    destruct (node_at (dk_nodes d) q) as [[|s]|]; [|done|by injection He].
    repeat (case_bool_decide; try done).
  - intros a t _ Hr. assert (is_Some (dk_nodes d !! q) /\ children (dk_nodes d) q = [] /\ t = delete q (dk_nodes d)) as (Hsome & Hc & ->).
    { destruct (node_at (dk_nodes d) q) as [[|s]|] eqn:En; [|injection Hr as _ <-|done].
      - repeat (case_bool_decide; try done). destruct q; [done|]. rewrite node_at_some in En. injection Hr as _ <-. by rewrite En.
      - destruct q as [|x up] eqn:Eq; [done|]. rewrite node_at_some in En. rewrite En. split_and!; [done| |done].
        by eapply file_no_children. }
    apply HQ; simpl; [by apply wf_delete| |by destruct a|done].
    clear Hr. destruct Hp as [->|(Hs & Hb & Hf)]; [apply near_delete|]. intros q' Hq'. rewrite lookup_delete. case_decide as E; [|by left].
    subst q'. right. split_and!; [done|done|done|by left].
Qed.

(** ** The operations of the local directory *)

(** The names a key stands for, outermost first. *)
Definition key_names (key : string) : list string := clean_elems true ("/" +:+ trim_prefix key "/").

Section Local.
Context (r : bool) (l : list string) (Hl : good_names l).
Let base := render r l.
Let B : place := rev l ++ start r.

Lemma base_proper : proper r l.
Proof. split; [exists (rev l), 0%nat; rewrite app_nil_r; split; [done|by apply Forall_rev_iff]|done]. Qed.
Lemma names_proper ks : good_names ks -> proper r (l ++ ks).
Proof. intros Hk. apply proper_app; [apply base_proper|done]. Qed.
Lemma locate_below ks : good_names ks -> locate cwd (render r (l ++ ks)) = rev ks ++ B.
Proof.
  intros Hk. rewrite locate_render by (by apply names_proper). rewrite push_good by (by apply Forall_app).
  by rewrite rev_app_distr, <- app_assoc.
Qed.
Lemma key_names_good key : good_names (key_names key).
Proof. by apply (proj2 (clean_elems_proper true _)). Qed.
Lemma key_resolve key : resolve base key = Ok (render r (l ++ key_names key)).
Proof.
  unfold resolve, base, key_names. pose proof (key_names_good key) as Hk. unfold key_names in Hk.
  rewrite join_below, rel_below, below_not_up by (done || apply base_proper). done.
Qed.

(** The directory of an object. *)
Lemma path_dir_names n : good_names n -> exists m z, n = m ++ z /\ path_dir (render r n) = render r m /\ (n <> [] -> z <> []).
Proof.
  intros Hn. destruct n as [|x n] using rev_ind; [exists [], []; destruct r; by vm_compute|]. exists n, [x].
  split_and!; [done| |done]. apply path_dir_render. split; [exists (rev (n ++ [x])), 0%nat|done].
  rewrite app_nil_r. split; [done|by apply Forall_rev_iff].
Qed.
Lemma put_wp key rd d : let p := rev (key_names key) ++ B in wf (dk_nodes d) ->
  fwp (PutObject cwd fault base key rd) (fun x d' => wf (dk_nodes d') /\ near B p (dk_nodes d) (dk_nodes d') /\
    forall n, x = Ok n -> rd_err rd = None /\ n = Z.of_nat (String.length (rd_data rd)) /\
      dk_nodes d' !! p = Some (File (rd_data rd))) d.
Proof.
  intros p Hw. pose proof (key_names_good key) as Hk. unfold PutObject. apply fwp_bind, fwp_on_error.
  unfold resolved, fwp at 1. rewrite key_resolve. simpl. pose proof (locate_below _ Hk) as Hp. fold p in Hp.
  assert (good_names (l ++ key_names key)) as Hn by (by apply Forall_app).
  destruct (path_dir_names _ Hn) as (m & z & Hm & -> & _). assert (good_names m) as Hgm by (rewrite Hm in Hn; by apply Forall_app in Hn as [? _]).
  rewrite <- (rev_involutive m). apply fwp_bind, fwp_on_error, (MkdirAll_wp B p); [done|by apply Forall_rev_iff| |].
  { exists (rev z). unfold p, B. by rewrite app_assoc, <- rev_app_distr, Hm, rev_app_distr, <- app_assoc. }
  intros [[]|e] d1 Hw1 Hn1 _; [|done]. apply fwp_bind, fwp_on_error, (create_wp B); [done|]. rewrite Hp.
  intros [[]|e] d2 Hw2 Hn2 Hc; [|split_and!; [done|by etrans|done]]. specialize (Hc eq_refl).
  apply fwp_bind, fwp_on_error, (copy_wp B); [done|]. rewrite Hp. intros n e d3 Hw3 Hn3 Hd.
  apply fwp_bind, fwp_attempt. assert (near B p (dk_nodes d) (dk_nodes d3)) as H3 by (do 2 (etrans; [eassumption|]); done).
  apply fwp_call.
  - intros e' c. simpl. destruct e as [e|]; [|by apply fwp_fail].
    apply fwp_bind, fwp_attempt, (remove_wp B p); [done|by left|]. intros x d' Hw' Hn' _ _. apply fwp_fail.
    split_and!; [done|by etrans|done].
  - intros [] t _ [= <-]. simpl. destruct e as [e|].
    + apply fwp_bind, fwp_attempt, (remove_wp B p); [done|by left|]. intros x d' Hw' Hn' _ _. apply fwp_fail.
      split_and!; [done|by etrans|done].
    + apply fwp_ret. split_and!; [done..|]. intros ? [= <-]. by apply Hd.
Qed.

Lemma get_wp key d : let p := rev (key_names key) ++ B in wf (dk_nodes d) ->
  fwp (GetObject cwd fault base key) (fun x d' => dk_nodes d' = dk_nodes d /\
    match x with
    | Ok rd => dk_nodes d !! p = Some (File (rd_data rd)) /\ rd_err rd = None \/ no_file (dk_nodes d !! p) /\ rd_err rd <> None
    | Err _ => True
    end) d.
Proof.
  intros p Hw. unfold GetObject. apply fwp_bind. unfold resolved, fwp at 1. rewrite key_resolve. simpl.
  apply fwp_on_error, fs_open_wp; rewrite locate_below by apply key_names_good; [done|]. intros rd n [H|[H1 H2]]; split; [done|by left|done|].
  right. split; [|done]. fold p in H1. intros s Hs. pose proof (Hw _ _ Hs) as [Hne _]. clearbody p. destruct p; [done|]. by rewrite node_at_some, Hs in H1.
Qed.
(** A [Get] that meets no fault finds the file. *)
Lemma get_run key d s : dk_nodes d !! (rev (key_names key) ++ B) = Some (File s) -> wf (dk_nodes d) ->
  fault (dk_calls d) = None -> (GetObject cwd fault base key d).1 = Ok (mkReader s None).
Proof.
  intros Hs Hw Hf. pose proof (Hw _ _ Hs) as [Hne _]. unfold GetObject, mbind, FS_bind, resolved. rewrite key_resolve. unfold on_error, Open, call. rewrite Hf.
  rewrite locate_below by apply key_names_good. destruct (rev (key_names key) ++ B) as [|x q]; [done|]. by rewrite node_at_some, Hs.
Qed.

(** Pruning stops at the base, and takes away directories only. *)
Lemma render_longer m z : good_names (m ++ z) -> z <> [] -> m <> [] \/ r = true ->
  (String.length (render r m) < String.length (render r (m ++ z)))%nat.
Proof.
  intros Hg Hz Hm. assert (0 < String.length (join "/" z))%nat as Hj.
  { destruct z as [|x z]; [done|]. destruct (join_first x z) as (t & -> & _). apply Forall_app in Hg as [_ Hg].
    apply Forall_cons in Hg as [(_ & Hx & _)%good_name_spec _]. destruct x; [done|]. simpl. lia. }
  destruct m as [|y m]; [destruct Hm as [|Hr]; [done|]; rewrite Hr; change (1 < S (String.length (join "/" z)))%nat; lia|].
  assert (join "/" ((y :: m) ++ z) = join "/" (y :: m) +:+ String "/" (join "/" z)) as E by (by apply join_app).
  unfold render. rewrite E. destruct r; simpl app; cbv iota; rewrite !append_length; simpl String.length; lia.
Qed.
Lemma prune_above n m z d : l = m ++ z -> prune cwd fault base n (render r m) d = (Ok tt, d).
Proof.
  intros Hm. destruct n as [|n]; [done|]. cbn [prune]. assert (negb (bool_decide (render r m = base)) && has_prefix (render r m) base = false) as ->; [|done].
  apply andb_false_iff. rewrite negb_false_iff, bool_decide_eq_true. destruct z as [|x z]; [left; unfold base; by rewrite Hm, app_nil_r|right].
  apply not_true_iff_false. intros [u Hu]%has_prefix_spec. unfold base in Hu. pose proof Hl as Hg. rewrite Hm in Hg, Hu.
  assert (m <> [] \/ r = true \/ m = [] /\ r = false) as [H|[H|[-> Hr]]] by (destruct m, r; auto).
  1,2: pose proof (render_longer m (x :: z) Hg ltac:(done) ltac:(auto)) as Hlen; apply (f_equal String.length) in Hu;
    rewrite append_length in Hu; lia.
  rewrite Hr in Hu. simpl app in *. apply Forall_cons in Hg as [(_ & H1 & H2 & _)%good_name_spec _].
  unfold render in Hu. destruct (join_first x z) as (t & Ht & _). rewrite Ht in Hu.
  destruct x as [|c [|c2 x]]; [done|..]; simpl in Hu; injection Hu as <- Hu; done.
Qed.
Lemma prune_wp n ks k1 k2 d : good_names ks -> ks = k1 ++ k2 -> k2 <> [] -> let p := rev ks ++ B in wf (dk_nodes d) ->
  (forall q, suffix q p -> q <> p -> no_file (dk_nodes d !! q)) ->
  fwp (prune cwd fault base n (render r (l ++ k1)))
    (fun _ d' => wf (dk_nodes d') /\ near B p (dk_nodes d) (dk_nodes d') /\ dk_nodes d' !! p = dk_nodes d !! p) d.
Proof.
  intros Hg Hks Hne p Hw Hf. revert k1 k2 d Hks Hne Hw Hf. induction n as [|n IH]; intros k1 k2 d Hks Hne Hw Hf; [done|].
  cbn [prune]. destruct (negb _ && _) eqn:Hc; [|done]. destruct k1 as [|x k1 _] using rev_ind.
  { unfold base in Hc. rewrite app_nil_r in Hc. by rewrite bool_decide_eq_true_2 in Hc. }
  assert (good_names (k1 ++ [x])) as Hg1 by (rewrite Hks in Hg; by apply Forall_app in Hg as [? _]).
  pose proof (locate_below _ Hg1) as Hq. apply fwp_bind, fwp_attempt.
  assert (suffix (rev (k1 ++ [x]) ++ B) p) as Hs. { exists (rev k2). unfold p. by rewrite Hks, (rev_app_distr _ k2), <- app_assoc. }
  assert (rev (k1 ++ [x]) ++ B <> p) as Hqp.
  { unfold p. rewrite Hks, (rev_app_distr _ k2), <- app_assoc. intros E. apply (f_equal (@length string)) in E.
    rewrite !length_app, !length_rev in E. destruct k2; [done|]. simpl in E. lia. }
  apply (remove_wp B p); [done|right; rewrite Hq; split_and!; [done|by eexists|by apply Hf]|].
  rewrite Hq. intros [[]|e] d' Hw' Hn' Hd He; [|destruct (He e eq_refl) as [He' _]; apply fwp_ret; by rewrite He'].
  destruct (Hd eq_refl) as [_ Hd']. assert (path_dir (render r (l ++ k1 ++ [x])) = render r (l ++ k1)) as ->.
  { rewrite app_assoc. apply path_dir_render. rewrite <- app_assoc. by apply names_proper. }
  eapply fwp_mono; [apply (IH k1 ([x] ++ k2)); [by rewrite Hks, <- app_assoc|done|done|]|].
  - intros q Hqs Hqn. clear Hc. rewrite Hd', lookup_delete. case_decide; [done|]. by apply Hf.
  - intros y d2 (H1 & H2 & H3). split_and!; [done|by etrans|]. by rewrite H3, Hd', lookup_delete_ne.
Qed.

(** The fuel of [prune], the length of the path, is enough: there is a round for each
    name below the base at most. *)
Lemma prune_enough n m k d : good_names k -> (length k <= n)%nat -> (length k <= m)%nat ->
  prune cwd fault base n (render r (l ++ k)) d = prune cwd fault base m (render r (l ++ k)) d.
Proof.
  assert (forall n d, prune cwd fault base n (render r (l ++ [])) d = (Ok tt, d)) as H0.
  { intros [|f] e; [done|]. cbn [prune]. unfold base. by rewrite app_nil_r, bool_decide_eq_true_2. }
  revert m k d. induction n as [|n IH]; intros m k d Hk Hn Hm; [destruct k; [by rewrite !H0|simpl in Hn; lia]|].
  destruct k as [|x k _] using rev_ind; [by rewrite !H0|]. rewrite length_app in Hn, Hm. simpl in Hn, Hm.
  destruct m as [|m]; [lia|]. cbn [prune]. destruct (negb _ && _); [|done]. unfold mbind, FS_bind, attempt.
  destruct (Remove cwd fault (render r (l ++ k ++ [x])) d) as [[[]|e] d']; [|done].
  rewrite app_assoc, path_dir_render by (rewrite <- app_assoc; by apply names_proper).
  apply IH; [by apply Forall_app in Hk as [? _]|lia|lia].
Qed.
Lemma path_longer k : good_names k -> (length k <= String.length (render r (l ++ k)))%nat.
Proof.
  induction k as [|x k IH] using rev_ind; intros Hk; [simpl; lia|]. pose proof Hk as [Hk1 _]%Forall_app. specialize (IH Hk1).
  assert (good_names ((l ++ k) ++ [x])) as Hg by (rewrite <- app_assoc; by apply Forall_app).
  rewrite length_app, app_assoc. simpl length. assert (l ++ k <> [] \/ r = true \/ l ++ k = [] /\ r = false) as [H|[H|[H Hr]]]
    by (destruct (l ++ k), r; auto).
  1,2: pose proof (render_longer (l ++ k) [x] Hg ltac:(done) ltac:(auto)); lia.
  apply app_eq_nil in H as [-> ->]. rewrite Hr. apply Forall_app in Hk as [_ Hx].
  apply Forall_cons in Hx as [(_ & Hx & _)%good_name_spec _]. simpl. destruct x; [done|simpl; lia].
Qed.
Lemma prune_ok n dir d : (prune cwd fault base n dir d).1 = Ok tt.
Proof.
  revert dir d. induction n as [|n IH]; intros dir d; [done|]. cbn [prune]. destruct (negb _ && _); [|done].
  unfold mbind, FS_bind, attempt. destruct (Remove cwd fault dir d) as [[[]|e] d']; [apply IH|done].
Qed.
Lemma delete_wp key d : let p := rev (key_names key) ++ B in wf (dk_nodes d) ->
  fwp (DeleteObject cwd fault base key) (fun x d' => wf (dk_nodes d') /\ near B p (dk_nodes d) (dk_nodes d') /\
    (x = Ok tt -> no_file (dk_nodes d' !! p)) /\ (is_ok x = false -> dk_nodes d' = dk_nodes d)) d.
Proof.
  intros p Hw. set (ks := key_names key) in *. pose proof (key_names_good key) as Hk. fold ks in Hk.
  unfold DeleteObject. apply fwp_bind. unfold resolved, fwp at 1. rewrite key_resolve. fold ks. simpl.
  assert (good_names (l ++ ks)) as Hn by (by apply Forall_app).
  set (dir := path_dir (render r (l ++ ks))). set (f := String.length (render r (l ++ ks))).
  assert (forall d1, wf (dk_nodes d1) -> (forall q, suffix q p -> q <> p -> no_file (dk_nodes d1 !! q)) -> no_file (dk_nodes d1 !! p) ->
    near B p (dk_nodes d) (dk_nodes d1) ->
    fwp (prune cwd fault base f dir) (fun x d' => wf (dk_nodes d') /\ near B p (dk_nodes d) (dk_nodes d') /\
      (x = Ok tt -> no_file (dk_nodes d' !! p)) /\ (is_ok x = false -> dk_nodes d' = dk_nodes d)) d1) as Hprune.
  { intros d1 Hw1 Hf Hp Hn1. destruct ks as [|x0 ks0] eqn:Eks.
    - destruct (path_dir_names _ Hn) as (m & z & Hm & Hd & _). unfold dir. rewrite Hd. rewrite app_nil_r in Hm.
      unfold fwp. by rewrite (prune_above _ _ _ _ Hm).
    - destruct (exists_last (l := x0 :: ks0) ltac:(done)) as (k1 & y & Ek). unfold dir. rewrite Ek, app_assoc, path_dir_render.
      2: { rewrite <- app_assoc, <- Ek. by apply names_proper. }
      destruct (prune cwd fault base f (render r (l ++ k1)) d1) as [x d2] eqn:Er.
      pose proof (prune_wp f (x0 :: ks0) k1 [y] d1 Hk Ek ltac:(done) Hw1 Hf) as Hp2. unfold fwp in *. rewrite Er in *. simpl in *.
      destruct Hp2 as (H1 & H2 & H3). split_and!; [done|by etrans|intros _; fold p in H3; by rewrite H3|].
      pose proof (prune_ok f (render r (l ++ k1)) d1) as Hok. rewrite Er in Hok. simpl in Hok. by rewrite Hok. }
  apply fwp_bind, fwp_attempt, (remove_wp B p); [done|left; by apply locate_below|]. rewrite locate_below by done. fold p.
  intros [[]|e] d1 Hw1 Hn1 Hd He.
  - destruct (Hd eq_refl) as [Hsome Hd1]. apply Hprune; [done| | |done]; rewrite Hd1; [|by rewrite lookup_delete_eq].
    intros q Hs Hq. rewrite lookup_delete_ne by done. intros s Hqs. pose proof (wf_above _ _ _ Hw Hsome Hs Hq) as Hdir.
    destruct q; [by destruct (Hw _ _ Hqs)|]. rewrite node_at_some in Hdir. congruence.
  - destruct (He e eq_refl) as [Hsame Hno]. case_bool_decide as Ee; [|by apply fwp_fail].
    destruct (Hno Ee) as [H1 H2]. pose proof (above_missing _ _ Hw H1 H2) as Hm. apply Hprune; [done| | |done]; rewrite Hsame.
    + intros q Hs _ s. by apply Hm.
    + intros s. by apply Hm.
Qed.

(** The files of the store, as [ListObjects] sees them. *)
Lemma under_spec b q ks : under b q = Some ks <-> q = rev ks ++ b.
Proof.
  split.
  - revert ks. induction q as [|x q IH]; intros ks; cbn [under]; case_bool_decide as E; [by intros [= <-]|done|by intros [= <-]|].
    intros (ks' & Hu & ->)%fmap_Some. rewrite rev_app_distr. simpl. f_equal. by apply IH.
  - intros ->. induction ks as [|x ks IH] using rev_ind.
    + simpl. destruct b; cbn [under]; by rewrite bool_decide_eq_true_2.
    + rewrite rev_app_distr. simpl. rewrite bool_decide_eq_false_2; [by rewrite IH|].
      intros E%(f_equal (@length string)). simpl in E. rewrite length_app in E. lia.
Qed.
Lemma files_under_spec t b ks s : (ks, s) ∈ files_under t b <-> t !! (rev ks ++ b) = Some (File s).
Proof.
  unfold files_under. rewrite merge_sort_Permutation, list_elem_of_omap. split.
  - intros ([q n] & Hin%elem_of_map_to_list & Hn). simpl in *. destruct n as [|f]; [done|].
    apply fmap_Some in Hn as (ks' & Hu%under_spec & [= -> ->]). by rewrite <- Hu.
  - intros Hf. exists (rev ks ++ b, File s). split; [by apply elem_of_map_to_list|]. simpl.
    by rewrite (proj2 (under_spec b _ ks) eq_refl).
Qed.
Lemma list_wp prefix d :
  fwp (ListObjects cwd fault base prefix) (fun x d' => dk_nodes d' = dk_nodes d /\
    forall infos key n, x = Ok infos -> (mkObject key n ∈ infos <->
      key <> write_probe /\ has_prefix key prefix = true /\
      exists ks s, slash_key ks = key /\ n = Z.of_nat (String.length s) /\ dk_nodes d !! (rev ks ++ B) = Some (File s))) d.
Proof.
  unfold ListObjects. apply fwp_bind, fwp_on_error, walk_wp; [done|]. intros c. apply fwp_ret. split; [done|].
  intros infos key n [= <-]. rewrite list_elem_of_omap. assert (locate cwd base = B) as HB.
  { unfold base. rewrite <- (app_nil_r l), locate_below by constructor. done. }
  simpl. rewrite HB. split.
  - intros ([ks s] & Hin%files_under_spec & Hs). simpl in Hs. case_bool_decide as Ep; [done|].
    destruct (bool_decide (prefix = "") || has_prefix (slash_key ks) prefix) eqn:Eo; [|done]. injection Hs as <- <-.
    split_and!; [done| |by exists ks, s]. apply orb_true_iff in Eo as [->%bool_decide_eq_true|]; [|done]. by apply has_prefix_spec; eexists.
  - intros (Hp & Hpre & ks & s & <- & -> & Hf). exists (ks, s). split; [by apply files_under_spec|]. simpl.
    rewrite bool_decide_eq_false_2 by done. by rewrite Hpre, orb_true_r.
Qed.

(** The probe of [Test]. *)
Lemma test_wp d : let p := write_probe :: B in wf (dk_nodes d) ->
  fwp (local_Test cwd fault base) (fun x d' => wf (dk_nodes d') /\ near B p (dk_nodes d) (dk_nodes d')) d.
Proof.
  intros p Hw. unfold local_Test. assert (MkdirAll cwd fault base = MkdirAll cwd fault (render r (rev (rev l)))) as -> by (by rewrite rev_involutive).
  apply fwp_bind, fwp_on_error, (MkdirAll_wp B p); [done|by apply Forall_rev_iff|by exists [write_probe]|].
  intros [[]|e] d1 Hw1 Hn1 _; [|done]. cbv zeta.
  assert (locate cwd (path_join base write_probe) = p) as Hl2.
  { unfold path_join. rewrite (bool_decide_eq_false_2 (base = "")) by (by apply render_ne). rewrite bool_decide_eq_false_2 by done.
    rewrite locate_clean, locate_app by (by apply render_ne). unfold base. rewrite <- (app_nil_r l), locate_below by constructor. done. }
  set (probe := path_join base write_probe) in *.
  assert (forall Q : result path_error unit -> disk -> Prop, (forall x d', wf (dk_nodes d') -> near B p (dk_nodes d) (dk_nodes d') -> Q x d') ->
    fwp (WriteFile cwd fault probe "ok") Q d1) as Hwr.
  { intros Q HQ. unfold WriteFile. apply fwp_bind, (create_wp B); [done|]. rewrite Hl2.
    intros [[]|e] d2 Hw2 Hn2 _; [|apply HQ; [done|by etrans]].
    apply fwp_bind, (copy_wp B); [done|]. rewrite Hl2. intros n e d3 Hw3 Hn3 _.
    assert (near B p (dk_nodes d) (dk_nodes d3)) as H3 by (do 2 (etrans; [eassumption|]); done).
    apply fwp_bind, fwp_attempt, fwp_call; [intros e' c|intros [] t _ [= <-]]; destruct e; by apply HQ. }
  apply fwp_bind, fwp_on_error, Hwr. intros [[]|e] d2 Hw2 Hn2; [|done].
  apply fwp_bind, fwp_attempt, (remove_wp B p); [done|by left|]. intros x d3 Hw3 Hn3 _ _. apply fwp_ret. split; [done|by etrans].
Qed.
End Local.
End Tree.
