(* ===== verification/StorageProps.v ===== *)
(** * What the storage backends guarantee

    Whatever keys it is given, a local store changes nothing outside its directory, and
    what was put is what is found, over every run of operations and every pattern of
    failing system calls.  The probe of a SAN pool leaves nothing at its host, and the
    document it sends says what was configured. *)
From S2P Require Import Prelude GoStd GoFacts Utf8 Fs Storage StorageFacts.

(** ** Runs *)

Inductive store_op :=
| OTest | OPut (key : string) (rd : reader) | OGet (key : string) | OList (pre : string) | ODelete (key : string).

Section Runs.
Context (cwd : place) (fault : nat -> option (nat * string)) (base : string).

Definition exec (o : store_op) (d : disk) : disk :=
  match o with
  | OTest => (local_Test cwd fault base d).2
  | OPut key rd => (PutObject cwd fault base key rd d).2
  | OGet key => (GetObject cwd fault base key d).2
  | OList pre => (ListObjects cwd fault base pre d).2
  | ODelete key => (DeleteObject cwd fault base key d).2
  end.
Definition run (l : list store_op) (d : disk) : disk := foldl (fun d o => exec o d) d l.

(** The object an operation may write, as the names of its key. *)
Definition writes (o : store_op) : option (list string) :=
  match o with
  | OTest => Some [write_probe]
  | OPut key _ | ODelete key => Some (key_names key)
  | OGet _ | OList _ => None
  end.
End Runs.

(** The directory a store keeps its objects in, clean and without [..]. *)
Definition plain_base (base : string) : Prop := exists r l, good_names l /\ base = render r l.
Lemma new_base cfg base : newLocalBackend cfg = Ok base -> ".." ∉ split_on "/" (trim_space (cf_Target cfg)) -> plain_base base.
Proof.
  unfold newLocalBackend. destruct (Validate cfg); [done|]. intros [= <-] Hd. set (p := trim_space (cf_Target cfg)) in *.
  rewrite path_clean_render. eexists _, _. split; [|done]. unfold clean_elems, good_names. apply Forall_rev_iff.
  pose proof (split_noslash p) as Hs. revert Hs Hd. generalize (split_on "/" p) as es. generalize (has_prefix p "/") as r.
  intros r es Hs Hd. assert (good_names []) as H0 by constructor. revert H0. generalize (@nil string) as st. 
  induction Hs as [|x es Hx Hs IH]; intros st Hst; [done|]. cbn [foldl]. apply IH; [set_solver|].
  unfold clean_elem. destruct (bool_decide (x = "") || bool_decide (x = ".")) eqn:E; [done|].
  apply orb_false_iff in E as [E1%bool_decide_eq_false E2%bool_decide_eq_false].
  rewrite bool_decide_eq_false_2 by set_solver. constructor; [|done]. apply good_name_spec. set_solver.
Qed.

(** ** Places outside the store *)

(** Outside [B] nothing changes, but for the missing directories on the way to it. *)
Definition outside_kept (B : place) (t t' : gmap place node) : Prop := forall q, ~ suffix B q ->
  t' !! q = t !! q \/ (t !! q = None /\ t' !! q = Some Dir /\ suffix q B).
#[export] Instance outside_pre B : PreOrder (outside_kept B).
Proof.
  split; [by left|]. intros t1 t2 t3 H1 H2 q Hq. destruct (H1 q Hq) as [E1|(N1 & D1 & S1)], (H2 q Hq) as [E2|(N2 & D2 & S2)].
  - left. by rewrite E2.
  - right. by rewrite <- E1.
  - right. by rewrite E2.
  - by rewrite N2 in D1.
Qed.
Lemma suffix_total (a b p : place) : suffix a p -> suffix b p -> suffix a b \/ suffix b a.
Proof.
  rewrite !suffix_prefix_reverse. intros Ha Hb. by destruct (prefix_weak_total _ _ _ Ha Hb); [left|right].
Qed.
Lemma near_outside B p t t' : suffix B p -> near B p t t' -> outside_kept B t t'.
Proof.
  intros Hp Hn q Hq. destruct (decide (q = p)) as [->|Hne]; [done|]. destruct (Hn q Hne) as [|(N1 & N2 & Hs & [Hd|Hd])]; [by left|done|].
  destruct (t !! q) as [[|s]|] eqn:E; [by left; rewrite Hd|by destruct (N1 s)|right]. split_and!; [done..|].
  by destruct (suffix_total _ _ _ Hs Hp).
Qed.

Section Props.
Context (cwd : place) (fault : nat -> option (nat * string)).

(** What one operation does to the tree. *)
Lemma exec_near base o d : plain_base base -> wf (dk_nodes d) -> let B := locate cwd base in let d' := exec cwd fault base o d in
  wf (dk_nodes d') /\
  match writes o with
  | Some ks => near B (rev ks ++ B) (dk_nodes d) (dk_nodes d')
  | None => dk_nodes d' = dk_nodes d
  end.
Proof.
  intros (r & l & Hl & ->) Hw. cbv zeta.
  assert (locate cwd (render r l) = rev l ++ start cwd r) as -> by (pose proof (locate_below cwd r l Hl [] ltac:(constructor)) as H; by rewrite app_nil_r in H).
  destruct o; cbn [exec writes].
  - apply (test_wp cwd fault r l Hl d Hw).
  - destruct (put_wp cwd fault r l Hl key rd d Hw) as (H1 & H2 & _). done.
  - destruct (get_wp cwd fault r l Hl key d Hw) as [H _]. by rewrite H.
  - destruct (list_wp cwd fault r l Hl pre d) as [H _]. by rewrite H.
  - destruct (delete_wp cwd fault r l Hl key d Hw) as (H1 & H2 & _). done.
Qed.
Lemma store_run_wf base ops d : plain_base base -> wf (dk_nodes d) -> wf (dk_nodes (run cwd fault base ops d)).
Proof.
  intros Hb. revert d. induction ops as [|o ops IH]; intros d Hw; [done|]. apply IH. by apply (exec_near base o d Hb).
Qed.

(** C20 A store stays in its directory.  Over every run of operations, whatever the keys
    ([../../etc/passwd] included), the streams and the system calls that fail, the file
    system stays a tree and every place outside the base directory is as it was, but
    for directories missing on the way to the base, which are made; once the base
    exists nothing outside changes at all.  The configured directory must not itself
    use [..]. *)
Theorem local_confined cfg base ops d :
  newLocalBackend cfg = Ok base -> ".." ∉ split_on "/" (trim_space (cf_Target cfg)) -> wf (dk_nodes d) ->
  let B := locate cwd base in let d' := run cwd fault base ops d in
  wf (dk_nodes d') /\ forall q, ~ suffix B q ->
    (node_at (dk_nodes d') q = node_at (dk_nodes d) q \/
     node_at (dk_nodes d) q = None /\ node_at (dk_nodes d') q = Some Dir /\ suffix q B) /\
    (node_at (dk_nodes d) B = Some Dir -> node_at (dk_nodes d') q = node_at (dk_nodes d) q).
Proof.
  intros Hnew Hdd Hw B d'. pose proof (new_base _ _ Hnew Hdd) as Hb. split; [by apply store_run_wf|].
  assert (outside_kept B (dk_nodes d) (dk_nodes d')) as Ho.
  { unfold d'. clear d'. revert d Hw. induction ops as [|o ops IH]; intros d Hw; [done|].
    destruct (exec_near base o d Hb Hw) as [Hw1 Hn]. etrans; [|by apply IH].
    destruct (writes o) as [ks|]; [|by rewrite Hn]. eapply near_outside; [|exact Hn]. by eexists. }
  intros q Hq. destruct q as [|x q]; [split; [by left|done]|]. rewrite !node_at_some. split; [by apply Ho|].
  intros HB. destruct (Ho _ Hq) as [|(Hno & _ & Hs)]; [done|]. exfalso. destruct B as [|y B]; [by apply suffix_nil_inv in Hs|].
  assert (node_at (dk_nodes d) (x :: q) = Some Dir) as Hd; [|by rewrite node_at_some, Hno in Hd].
  eapply wf_above; [done|rewrite <- node_at_some, HB; by eexists|done|]. intros E. apply Hq. by rewrite E.
Qed.

(** What the store holds at a key. *)
Definition object (base key : string) (d : disk) : option string :=
  match dk_nodes d !! (rev (key_names key) ++ locate cwd base) with Some (File s) => Some s | _ => None end.
Lemma object_file base key d s : object base key d = Some s <-> dk_nodes d !! (rev (key_names key) ++ locate cwd base) = Some (File s).
Proof. unfold object. destruct (_ !! _) as [[]|]; naive_solver. Qed.
Lemma run_object base key ops d s : plain_base base -> wf (dk_nodes d) -> Forall (fun o => writes o <> Some (key_names key)) ops ->
  object base key d = Some s <-> object base key (run cwd fault base ops d) = Some s.
Proof.
  intros Hb. revert d. induction ops as [|o ops IH]; intros d Hw Ho; [done|]. apply Forall_cons in Ho as [Ho Hops].
  destruct (exec_near base o d Hb Hw) as [Hw1 Hn]. cbn [run foldl]. change (foldl _ ?x ops) with (run cwd fault base ops x).
  rewrite <- IH by done. rewrite !object_file. destruct (writes o) as [ks|]; [|by rewrite Hn].
  symmetry. eapply near_files; [exact Hn|]. intros E. apply Ho. f_equal. apply app_inv_tail in E.
  apply (f_equal (@rev string)) in E. by rewrite !rev_involutive in E.
Qed.

(** C21 What is put is what is found, in a store whose configured directory does not
    use [..].  Take an upload that reports no error, and then any operations that do
    not write the object of its key: uploads and deletions of keys that resolve to
    another object, downloads, listings, connection tests unless the key resolves to
    [.unihv-write-probe], which a test writes and removes, and system calls that fail.
    Then a download that meets no failure of its own gives exactly the bytes of the
    stream; the number of bytes reported is their length; and every listing that
    succeeds under a prefix of the key shows it with that size, if the key is
    written plainly and is not [.unihv-write-probe], which listings leave out.
    After a deletion that reports no error, nothing can be read at the key through
    any such operations. *)
Theorem local_put_get cfg base key rd ops d n d1 :
  newLocalBackend cfg = Ok base -> ".." ∉ split_on "/" (trim_space (cf_Target cfg)) -> wf (dk_nodes d) ->
  PutObject cwd fault base key rd d = (Ok n, d1) -> Forall (fun o => writes o <> Some (key_names key)) ops ->
  let d2 := run cwd fault base ops d1 in
  n = Z.of_nat (String.length (rd_data rd)) /\
  (fault (dk_calls d2) = None -> (GetObject cwd fault base key d2).1 = Ok (mkReader (rd_data rd) None)) /\
  (forall pre infos, (ListObjects cwd fault base pre d2).1 = Ok infos -> slash_key (key_names key) = key -> key <> write_probe ->
     has_prefix key pre = true -> mkObject key n ∈ infos) /\
  (forall d3 ops' rd', DeleteObject cwd fault base key d2 = (Ok tt, d3) ->
     Forall (fun o => writes o <> Some (key_names key)) ops' ->
     (GetObject cwd fault base key (run cwd fault base ops' d3)).1 = Ok rd' -> rd_err rd' <> None).
Proof.
  intros Hnew Hdd Hw Hput Hops d2. pose proof (new_base _ _ Hnew Hdd) as Hb. pose proof Hb as (r & l & Hl & Hbase).
  assert (locate cwd base = rev l ++ start cwd r) as HB.
  { pose proof (locate_below cwd r l Hl [] ltac:(constructor)) as H. by rewrite app_nil_r, <- Hbase in H. }
  pose proof (put_wp cwd fault r l Hl key rd d Hw) as Hp. rewrite <- Hbase in Hp. unfold fwp in Hp. rewrite Hput in Hp.
  destruct Hp as (Hw1 & _ & Hp). destruct (Hp n eq_refl) as (_ & -> & Hf). simpl in Hw1, Hf. clear Hp.
  assert (wf (dk_nodes d2)) as Hw2 by (by apply store_run_wf).
  assert (object base key d2 = Some (rd_data rd)) as H2.
  { unfold d2. rewrite <- run_object by done. apply object_file. by rewrite HB. }
  pose proof H2 as Hf2. apply object_file in Hf2. rewrite HB in Hf2. split_and!; [done| | |].
  - intros Hok. rewrite Hbase. by apply get_run.
  - intros pre infos Hlist Hkey Hne Hpre. pose proof (list_wp cwd fault r l Hl pre d2) as [_ H]. rewrite <- Hbase in H.
    apply (H infos key); [done|]. split_and!; [done..|]. by exists (key_names key), (rd_data rd).
  - intros d3 ops' rd' Hdel Hops' Hget. pose proof (delete_wp cwd fault r l Hl key d2 Hw2) as Hd. rewrite <- Hbase in Hd.
    unfold fwp in Hd. rewrite Hdel in Hd. destruct Hd as (Hw3 & _ & Hgone & _). specialize (Hgone eq_refl). simpl in Hw3, Hgone.
    pose proof (get_wp cwd fault r l Hl key (run cwd fault base ops' d3) (store_run_wf base ops' d3 Hb Hw3)) as [_ Hg].
    rewrite <- Hbase in Hg. rewrite Hget in Hg. destruct Hg as [[Hg _]|[_ Hg]]; [|done]. exfalso.
    rewrite <- HB in Hg. apply object_file in Hg. rewrite <- run_object in Hg by done.
    apply object_file in Hg. rewrite HB in Hg. by apply (Hgone (rd_data rd')).
Qed.
End Props.

(** ** When no system call fails *)

Section Progress.
Context (cwd : place) (fault : nat -> option (nat * string)) (Hok : forall n, fault n = None).

Lemma fs_bind_run {E A B} (m : FS E A) (f : A -> FS E B) d :
  (m ≫= f) d = match m d with (Ok a, d') => f a d' | (Err e, d') => (Err e, d') end.
Proof. done. Qed.
Lemma call_run {A} (op path : string) (f : gmap place node -> result errno (A * gmap place node)) d :
  call fault op path f d = match f (dk_nodes d) with
                           | Ok (a, t) => (Ok a, mkDisk t (S (dk_calls d)))
                           | Err e => (Err (mkPathErr op path e), mkDisk (dk_nodes d) (S (dk_calls d)))
                           end.
Proof. unfold call. by rewrite Hok. Qed.
Lemma make_dir_succeeds path x up d : node_at (dk_nodes d) up = Some Dir -> no_file (dk_nodes d !! (x :: up)) ->
  (make_dir fault path (x :: up) d).1 = Ok tt.
Proof.
  intros Hu Hf. unfold make_dir, mbind, FS_bind, attempt, mkdir_at, stat_at. rewrite call_run, node_at_some.
  destruct (dk_nodes d !! (x :: up)) as [[|s]|] eqn:E; [|by destruct (Hf s)|].
  - rewrite call_run. simpl. by rewrite E.
  - by rewrite (proj2 (is_dir_spec _ _) Hu).
Qed.
Lemma mkdir_all_succeeds r st path d : wf (dk_nodes d) -> good_names st -> locate cwd path = st ++ start cwd r ->
  (forall q, suffix q (st ++ start cwd r) -> no_file (dk_nodes d !! q)) -> node_at (dk_nodes d) (start cwd r) = Some Dir ->
  (mkdir_all_at cwd fault r path st d).1 = Ok tt.
Proof.
  revert path d. induction st as [|x up IH]; intros path d Hw Hg Hl Hf Hs; cbn [mkdir_all_at]; rewrite Hl;
    unfold mbind at 1, FS_bind, attempt at 1, stat_at at 1; rewrite call_run; [by change (node_at (dk_nodes d) ([] ++ start cwd r)) with (node_at (dk_nodes d) (start cwd r)); rewrite Hs|].
  pose proof (Hf _ (reflexivity _)) as Hf0. simpl app in *. rewrite node_at_some.
  destruct (dk_nodes d !! (x :: up ++ start cwd r)) as [[|s]|] eqn:E; [done|by destruct (Hf0 s)|]. clear Hf0.
  apply Forall_cons in Hg as [_ Hg]. set (d1 := mkDisk (dk_nodes d) (S (dk_calls d))).
  assert (forall d2, dk_nodes d2 !! (x :: up ++ start cwd r) = None -> node_at (dk_nodes d2) (up ++ start cwd r) = Some Dir ->
    (make_dir fault path (x :: up ++ start cwd r) d2).1 = Ok tt) as Hm.
  { intros d2 Hn Hu. apply make_dir_succeeds; [done|by rewrite Hn]. }
  case_bool_decide as Ep.
  - assert (up = []) as ->.
    { destruct up as [|y up]; [done|]. unfold parent_path in Ep. apply (f_equal String.length) in Ep.
      rewrite !append_length in Ep. rewrite bool_decide_eq_false_2 in Ep by done. simpl in Ep. lia. }
    apply (Hm d1); [done|exact Hs].
  - pose proof (locate_parent cwd r up Hg Ep) as Hlp.
    pose proof (IH (parent_path r up) d1 Hw Hg Hlp (fun q Hq => Hf q (suffix_cons_r _ _ _ Hq)) Hs) as Hr.
    pose proof (mkdir_all_at_wp cwd fault [] (up ++ start cwd r) r up (parent_path r up)
      (fun y d' => near [] (up ++ start cwd r) (dk_nodes d1) (dk_nodes d') /\ (y = Ok tt -> node_at (dk_nodes d') (up ++ start cwd r) = Some Dir))
      d1 Hw Hg Hlp (reflexivity _) ltac:(done)) as Hp.
    unfold fwp in Hp.
    change ((match mkdir_all_at cwd fault r (parent_path r up) up d1 with
             | (Ok _, d') => make_dir fault path (x :: up ++ start cwd r) d' | (Err e, d') => (Err e, d') end).1 = Ok tt).
    destruct (mkdir_all_at cwd fault r (parent_path r up) up d1) as [y d2]. simpl in Hr, Hp. rewrite Hr in Hp |- *.
    destruct Hp as [Hn Hd]. apply Hm; [|by apply Hd].
    assert (x :: up ++ start cwd r <> up ++ start cwd r) as Hne by (intros E2%(f_equal (@length string)); simpl in E2; lia).
    destruct (Hn _ Hne) as [->|(_ & _ & Hk%suffix_length & _)]; [done|]. simpl in Hk. lia.
Qed.

(** An upload ends well when no system call fails, the stream has no error, no file is
    in the way of the directories and none of them is at the place of the object. *)
Theorem put_succeeds r l key rd d : let base := render r l in let p := rev (key_names key) ++ locate cwd base in
  good_names l -> wf (dk_nodes d) -> node_at (dk_nodes d) (start cwd r) = Some Dir -> rd_err rd = None ->
  (forall q, suffix q p -> q <> p -> no_file (dk_nodes d !! q)) -> key_names key <> [] -> dk_nodes d !! p <> Some Dir ->
  (PutObject cwd fault base key rd d).1 = Ok (Z.of_nat (String.length (rd_data rd))).
Proof.
  intros base p Hl Hw Hs Hrd Hf Hne Hp. pose proof (key_names_good key) as Hk.
  assert (p = rev (key_names key) ++ rev l ++ start cwd r) as Ep.
  { unfold p. f_equal. pose proof (locate_below cwd r l Hl [] ltac:(constructor)) as H. by rewrite app_nil_r in H. }
  destruct (exists_last Hne) as (k & x & Ek). rewrite Ek in Ep, Hk. apply Forall_app in Hk as [Hk Hx].
  rewrite rev_app_distr in Ep. simpl in Ep.
  unfold PutObject, mbind, FS_bind, on_error, resolved. unfold base. rewrite (key_resolve r l Hl). rewrite Ek, app_assoc.
  assert (good_names (l ++ k)) as Hlk by (by apply Forall_app). rewrite path_dir_render.
  2: { rewrite <- app_assoc. apply (names_proper r l Hl). by apply Forall_app. }
  set (up := rev k ++ rev l ++ start cwd r) in *. assert (rev (l ++ k) ++ start cwd r = up) as Hup by (by rewrite rev_app_distr, <- app_assoc).
  assert (locate cwd (render r ((l ++ k) ++ [x])) = x :: up) as Hloc.
  { rewrite <- app_assoc, (locate_below cwd r l Hl) by (by apply Forall_app). by rewrite rev_app_distr. }
  assert (proper r (l ++ k)) as Hpr by (by apply (names_proper r l Hl)).
  pose proof (mkdir_all_succeeds r (rev (l ++ k)) (render r (l ++ k)) d Hw ltac:(by apply Forall_rev_iff)) as Hm.
  pose proof (MkdirAll_wp cwd fault [] up r (rev (l ++ k)) (fun y d' => wf (dk_nodes d') /\ near [] up (dk_nodes d) (dk_nodes d') /\
    (y = Ok tt -> node_at (dk_nodes d') (rev (l ++ k) ++ start cwd r) = Some Dir)) d Hw ltac:(by apply Forall_rev_iff)
    ltac:(by rewrite Hup) ltac:(done)) as Hd.
  rewrite rev_involutive in Hd. unfold fwp in Hd. assert ((MkdirAll cwd fault (render r (l ++ k)) d).1 = Ok tt) as Hm'.
  { unfold MkdirAll. rewrite render_prefix, clean_render by done. apply Hm; [|rewrite Hup|exact Hs].
    - rewrite locate_render, push_good by done. done.
    - intros q Hq. apply Hf; rewrite Ep; [by apply suffix_cons_r|]. intros ->. apply suffix_length in Hq. simpl in Hq. lia. }
  destruct (MkdirAll cwd fault (render r (l ++ k)) d) as [y d1]. simpl in Hm'. subst y. simpl in Hd. destruct Hd as (Hw1 & Hn1 & Hd1).
  specialize (Hd1 eq_refl). rewrite Hup in Hd1. assert (dk_nodes d1 !! p <> Some Dir) as Hp1.
  { destruct (Hn1 p) as [->|(_ & _ & Hq%suffix_length & _)]; [|done|].
    - rewrite Ep. intros E%(f_equal (@length string)). simpl in E. lia.
    - rewrite Ep in Hq. simpl in Hq. lia. }
  rewrite Ep in Hp1. unfold Create. rewrite call_run, Hloc, node_at_some.
  assert (is_dir (dk_nodes d1) up = true) as Hu by (by apply is_dir_spec).
  destruct (dk_nodes d1 !! (x :: up)) as [[|s]|]; [done|..]; cbv beta iota zeta; rewrite ?Hu; unfold Copy;
    cbn [dk_calls]; rewrite Hok; cbv beta iota zeta; unfold attempt, Close; rewrite call_run; cbn [snd fst]; by rewrite Hrd.
Qed.
End Progress.

(** ** The probe of a pool *)

(** What a log of calls leaves at the host: the pools defined, those running, and the
    connections open. *)
Record host_left := mkLeft { hl_defined : gset string; hl_running : gset string; hl_open : Z }.
Definition after_call (lv : libvirt) (h : list lv_call) (c : lv_call) (s : host_left) : host_left :=
  match c, lv h c with
  | LDial _ _, Ok _ => mkLeft (hl_defined s) (hl_running s) (hl_open s + 1)
  | LDefine _, Ok pool => mkLeft ({[pool]} ∪ hl_defined s) (hl_running s) (hl_open s)
  | LCreate pool, Ok _ => mkLeft (hl_defined s) ({[pool]} ∪ hl_running s) (hl_open s)
  | LDestroy pool, _ => mkLeft (hl_defined s) (hl_running s ∖ {[pool]}) (hl_open s)
  | LUndefine pool, _ => mkLeft (hl_defined s ∖ {[pool]}) (hl_running s) (hl_open s)
  | LClose, _ => mkLeft (hl_defined s) (hl_running s) (hl_open s - 1)
  | _, _ => s
  end.
Fixpoint left_by (lv : libvirt) (h : list lv_call) (l : list lv_call) (s : host_left) : host_left :=
  match l with [] => s | c :: l => left_by lv (h ++ [c]) l (after_call lv h c s) end.
(** A call of the log, with those before it. *)
Definition made (h : list lv_call) (c : lv_call) (before : list lv_call) : Prop := exists after, h = before ++ c :: after.

(** A probe leaves nothing behind and reports what happened.  Whatever a libvirt host
    answers, call by call, a probe ends without an error exactly when the pool of the
    backend was defined, with the document of its configuration, and then started; and
    in every case the pool it defined is undefined again, stopped if it was started,
    and the connection it opened is closed. *)
Theorem san_probe lv b : let '(x, h) := san_Test lv b [] in
  left_by lv [] h (mkLeft ∅ ∅ 0) = mkLeft ∅ ∅ 0 /\
  (x = Ok tt <-> exists d pool k, made h (LDefine (renderPoolXML (sb_cfg b) (sb_poolName b))) d /\
     lv d (LDefine (renderPoolXML (sb_cfg b) (sb_poolName b))) = Ok pool /\
     made h (LCreate pool) k /\ is_ok (lv k (LCreate pool)) = true).
Proof.
  unfold san_Test. set (doc := renderPoolXML _ _). destruct (parseLibvirtEndpoint _) as [net addr].
  assert (forall pool : string, ({[pool]} ∪ ∅ : gset string) ∖ {[pool]} = ∅) as Hset by set_solver.
  unfold mbind, LV_bind, defer, lcall, ignored. simpl app.
  destruct (lv [] (LDial net addr)) as [a0|e] eqn:E0; [destruct (lv [LDial net addr] LConnect) as [a1|e] eqn:E1;
    [destruct (lv [LDial net addr; LConnect] (LDefine doc)) as [pool|e] eqn:E2;
      [destruct (lv [LDial net addr; LConnect; LDefine doc] (LCreate pool)) as [a3|e] eqn:E3|]|]|]; simpl.
  all: split; [unfold after_call; simpl; rewrite ?E0, ?E1, ?E2, ?E3; simpl; rewrite ?E0, ?E1, ?E2, ?E3; simpl; rewrite ?Hset|split].
  all: try done.
  1: { intros _. exists [LDial net addr; LConnect], pool, [LDial net addr; LConnect; LDefine doc].
    split_and!; [by eexists|done|by eexists|by rewrite E3]. }
  all: intros (d & p & k & [? Hd] & Hp & [? Hk] & Hok).
  all: repeat (destruct d as [|? d]; simplify_eq/=); repeat (destruct k as [|? k]; simplify_eq/=); by rewrite E3 in Hok.
Qed.

(** ** Reading the document of a pool *)

(** What comes after the first occurrence of a text. *)
Fixpoint after (pat s : string) : option string :=
  if has_prefix s pat then Some (string_drop (String.length pat) s)
  else match s with "" => None | String _ s' => after pat s' end.
(** The references of [xml.EscapeText], resolved; any other text stands for itself. *)
Definition xml_refs : list (string * string) :=
  [("&#34;", bytes [34%N]); ("&#39;", "'"); ("&amp;", "&"); ("&lt;", "<"); ("&gt;", ">");
   ("&#x9;", bytes [9%N]); ("&#xA;", bytes [10%N]); ("&#xD;", bytes [13%N])].
Fixpoint xml_read_fuel (n : nat) (s : string) : string :=
  match n, s with
  | S n, String c s' =>
      match list_find (fun e => has_prefix s e.1 = true) xml_refs with
      | Some (_, (ref, text)) => text +:+ xml_read_fuel n (string_drop (String.length ref) s)
      | None => String c (xml_read_fuel n s')
      end
  | _, _ => ""
  end.
Definition xml_read (s : string) : string := xml_read_fuel (String.length s) s.
(** The text between an opening and the first closing character after it. *)
Definition xml_field (opening : string) (closing : ascii) (doc : string) : option string :=
  rest ← after opening doc; '(value, _) ← cut closing rest; Some (xml_read value).
(** The characters of XML 1.0, and the text XML can carry: what is not one of them is U+FFFD. *)
Definition legal_char (r : Z) : Prop :=
  r = 9 \/ r = 10 \/ r = 13 \/ 32 <= r <= 55295 \/ 57344 <= r <= 65533 \/ 65536 <= r <= 1114111.
Definition xml_text (s : string) : string :=
  string_of_runes ((fun r => if bool_decide (legal_char r.1) then r.1 else RuneError) <$> runes s).
Lemma xml_char_legal r : xml_char r = bool_decide (legal_char r).
Proof.
  apply eq_true_iff_eq. rewrite bool_decide_eq_true. unfold xml_char, legal_char. rewrite !orb_true_iff, !andb_true_iff, !Z.eqb_eq, !Z.leb_le. lia.
Qed.

Lemma every_bytes (f : ascii -> bool) l : Forall (fun n => f (ascii_of_N n) = true) l -> every f (bytes l) = true.
Proof. induction 1 as [|n l Hn Hl IH]; [done|]. rewrite bytes_cons. simpl. by rewrite Hn. Qed.
Lemma other_byte d n : 0 <= n < 256 -> n <> byte_val d -> other_than d (ascii_of_N (Z.to_N n)) = true.
Proof.
  intros Hn Hd. unfold other_than. destruct (Ascii.eqb_spec (ascii_of_N (Z.to_N n)) d) as [<-|]; [|done].
  destruct Hd. unfold byte_val. rewrite N_ascii_embedding; lia.
Qed.
Lemma rune_free d r : byte_val d < 128 -> 0 <= r <= 1114111 -> (r < 55296 \/ 57343 < r) -> r <> byte_val d ->
  every (other_than d) (string_of_rune r) = true.
Proof.
  intros Hd Hr Hs Hne. rewrite rune_bytes by done. apply every_bytes. apply Forall_fmap.
  destruct (Z.ltb_spec r 128); [|destruct (Z.ltb_spec r 2048); [|destruct (Z.ltb_spec r 65536)]]; repeat constructor; apply other_byte; mlia.
Qed.
Lemma xml_char_spec r : xml_char r = true -> 0 <= r <= 1114111 /\ (r < 55296 \/ 57343 < r).
Proof. unfold xml_char. rewrite !orb_true_iff, !andb_true_iff, ?Z.eqb_eq, !Z.leb_le. lia. Qed.

(** No character of a document's markup comes from a value. *)
Lemma xml_rune_free d r : d ∈ ["<"; "'"]%char -> every (other_than d) (xml_rune r) = true.
Proof.
  intros Hd. assert ((d = "<"%char /\ byte_val d = 60) \/ (d = "'"%char /\ byte_val d = 39)) as [[Ed Hb]|[Ed Hb]].
  { assert (d = "<"%char \/ d = "'"%char) as [->| ->] by set_solver; [by left|by right]. }
  all: unfold xml_rune.
  all: repeat match goal with |- context [if ?a =? ?b then _ else _] => destruct (Z.eqb_spec a b); [by rewrite Ed|] end.
  all: destruct (xml_char r) eqn:E; [apply xml_char_spec in E as [H1 H2]|]; apply rune_free; unfold RuneError; lia.
Qed.
Lemma xml_free d s : d ∈ ["<"; "'"]%char -> every (other_than d) (xmlEsc s) = true.
Proof.
  intros Hd. unfold xmlEsc. induction (runes s) as [|r l IH]; [done|]. simpl. by rewrite every_app, xml_rune_free, IH.
Qed.

Lemma xml_ref_nonempty e : e ∈ xml_refs -> exists c r, e.1 = String c r.
Proof. unfold xml_refs. intros H. repeat (apply elem_of_cons in H as [->|H]; [by eexists _, _|]). by apply elem_of_nil in H. Qed.
Lemma xml_read_fuel_enough n s : (String.length s <= n)%nat -> xml_read_fuel n s = xml_read s.
Proof.
  assert (forall k m s, (String.length s <= k)%nat -> (String.length s <= m)%nat -> xml_read_fuel k s = xml_read_fuel m s) as H.
  { intros k. induction k as [|k IH]; intros m [|c s'] Hk Hm; simpl in Hk; [by destruct m|lia|by destruct m|].
    destruct m as [|m]; [simpl in Hm; lia|]. cbn [xml_read_fuel]. simpl in Hm.
    destruct (list_find _ xml_refs) as [[i [ref text]]|] eqn:E; [|f_equal; apply IH; lia].
    apply list_find_Some in E as (Hi%list_elem_of_lookup_2 & [u Hu]%has_prefix_spec & _).
    apply xml_ref_nonempty in Hi as (c' & r' & Hr). simpl in Hr, Hu. rewrite Hu, string_drop_app. f_equal.
    apply (f_equal String.length) in Hu. rewrite append_length, Hr in Hu. simpl in Hu. apply IH; lia. }
  intros Hs. by apply H.
Qed.
Lemma xml_read_ref ref text t : (ref, text) ∈ xml_refs -> xml_read (ref +:+ t) = text +:+ xml_read t.
Proof.
  intros H. assert (exists c r, ref = String c r) as (c & r & Er) by apply (xml_ref_nonempty _ H).
  assert (exists i, list_find (fun e => has_prefix (ref +:+ t) e.1 = true) xml_refs = Some (i, (ref, text))) as [i Hi].
  { unfold xml_refs in *. repeat (apply elem_of_cons in H as [[= -> ->]|H]; [clear; eexists; destruct t; vm_compute; reflexivity|]). by apply elem_of_nil in H. }
  unfold xml_read at 1. rewrite Er in Hi |- *. change (String c r +:+ t) with (String c (r +:+ t)) in *. cbn [String.length xml_read_fuel]. rewrite Hi.
  f_equal. change (String c (r +:+ t)) with (String c r +:+ t). rewrite string_drop_app. apply xml_read_fuel_enough.
  rewrite append_length. lia.
Qed.
Lemma xml_read_char c t : c <> "&"%char -> xml_read (String c t) = String c (xml_read t).
Proof.
  intros Hc. unfold xml_read at 1. cbn [String.length xml_read_fuel].
  assert (list_find (fun e => has_prefix (String c t) e.1 = true) xml_refs = None) as ->; [|f_equal; by apply xml_read_fuel_enough].
  apply list_find_None, Forall_forall. intros e He [u Hu]%has_prefix_spec.
  assert (exists r, e.1 = String "&" r) as [r Hr].
  { unfold xml_refs in He. repeat (apply elem_of_cons in He as [->|He]; [by eexists|]). by apply elem_of_nil in He. }
  rewrite Hr in Hu. by injection Hu.
Qed.
Lemma xml_read_plain a t : every (other_than "&") a = true -> xml_read (a +:+ t) = a +:+ xml_read t.
Proof.
  induction a as [|c a IH]; [done|]. simpl. unfold other_than at 1. rewrite andb_true_iff, negb_true_iff. intros [Hc Ha].
  change (String c a +:+ t) with (String c (a +:+ t)). rewrite xml_read_char by (intros ->; by rewrite Ascii.eqb_refl in Hc). by rewrite IH.
Qed.
Lemma xml_read_rune r t : xml_read (xml_rune r +:+ t) = string_of_rune (if xml_char r then r else RuneError) +:+ xml_read t.
Proof.
  unfold xml_rune.
  repeat match goal with |- context [if ?a =? ?b then _ else _] => destruct (Z.eqb_spec a b) as [->|]; [apply xml_read_ref; set_solver|] end.
  apply xml_read_plain. destruct (xml_char r) eqn:E; [apply xml_char_spec in E as [H1 H2]|]; apply rune_free; try done; unfold RuneError; try lia.
Qed.
(** What is read back from an escaped text is that text, as far as XML can carry it. *)
Lemma xml_read_esc s : xml_read (xmlEsc s) = xml_text s.
Proof.
  unfold xmlEsc, xml_text. induction (runes s) as [|r l IH]; [done|]. cbn [foldr]. by rewrite xml_read_rune, IH, xml_char_legal.
Qed.

(** The values after each opening, in order, each up to its closing character. *)
Fixpoint xml_fields (ops : list (string * ascii)) (doc : string) : option (list string) :=
  match ops with
  | [] => Some []
  | (opening, closing) :: ops =>
      rest ← after opening doc; '(value, rest) ← cut closing rest; values ← xml_fields ops rest; Some (xml_read value :: values)
  end.
(** Nowhere is [a] followed by [b], and the end is not [a]. *)
Fixpoint apart (a b : ascii) (s : string) : bool :=
  match s with
  | "" => true
  | String c s' => (if Ascii.eqb c a then match s' with "" => false | String d _ => negb (Ascii.eqb d b) end else true) && apart a b s'
  end.
Lemma after_skip a b p s t : apart a b s = true -> after (String a (String b p)) (s +:+ t) = after (String a (String b p)) t.
Proof.
  induction s as [|c s IH]; [done|]. intros [Hc Hs]%andb_true_iff. cbn [apart] in Hs.
  change (String c s +:+ t) with (String c (s +:+ t)). cbn [after].
  assert (has_prefix (String c (s +:+ t)) (String a (String b p)) = false) as ->; [|by apply IH].
  apply not_true_iff_false. intros [u Hu]%has_prefix_spec. injection Hu as -> Hu. rewrite Ascii.eqb_refl in Hc.
  destruct s as [|d s]; [done|]. injection Hu as -> _. by rewrite Ascii.eqb_refl in Hc.
Qed.
Lemma after_here pat t : pat <> "" -> after pat (pat +:+ t) = Some t.
Proof.
  intros Hp. assert (has_prefix (pat +:+ t) pat = true) as Hh by (apply has_prefix_spec; by eexists).
  destruct pat as [|c pat]; [done|]. change (String c pat +:+ t) with (String c (pat +:+ t)) in *. cbn [after]. rewrite Hh.
  f_equal. apply (string_drop_app (String c pat) t).
Qed.
Lemma fields_step a b p closing ops lit v rest vs : apart a b lit = true -> every (other_than closing) v = true ->
  xml_fields ops rest = Some vs ->
  xml_fields ((String a (String b p), closing) :: ops) (lit +:+ String a (String b p) +:+ v +:+ String closing rest) = Some (xml_read v :: vs).
Proof.
  intros Hl Hv Hr. cbn [xml_fields]. rewrite after_skip, after_here by done. cbn [mbind option_bind]. rewrite cut_app by done.
  cbn [mbind option_bind]. by rewrite Hr.
Qed.

Definition netfs_ops : list (string * ascii) :=
  [("<pool type='", "'"%char); ("<name>", "<"%char); ("<host name='", "'"%char); ("<dir path='", "'"%char);
   ("<format type='", "'"%char); ("<path>", "<"%char)].
Definition iscsi_ops : list (string * ascii) :=
  [("<pool type='", "'"%char); ("<name>", "<"%char); ("<host name='", "'"%char); (" port='", "'"%char);
   ("<device path='", "'"%char); ("<path>", "<"%char)].
Lemma netfs_fields name host dir format mount : format ∈ ["nfs"; "cifs"] ->
  xml_fields netfs_ops (netfs_pool name host dir format mount) =
  Some ["netfs"; xml_text name; xml_text host; xml_text dir; format; xml_text mount].
Proof.
  intros Hf. unfold netfs_ops, netfs_pool.
  pose proof (fun s => xml_free "<" s ltac:(set_solver)) as Hlt. pose proof (fun s => xml_free "'" s ltac:(set_solver)) as Hq.
  rewrite <- (xml_read_esc name), <- (xml_read_esc host), <- (xml_read_esc dir), <- (xml_read_esc mount).
  assert (every (other_than "'") format = true /\ xml_read format = format) as [Hv Hr].
  { assert (format = "nfs" \/ format = "cifs") as [->| ->] by set_solver; by vm_compute. }
  transitivity (Some ["netfs"; xml_read (xmlEsc name); xml_read (xmlEsc host); xml_read (xmlEsc dir); xml_read format; xml_read (xmlEsc mount)]);
    [|by rewrite Hr]. clear Hr Hf.
  refine (fields_step "<" "p" "ool type='" "'" _ "" "netfs" _ _ eq_refl eq_refl _).
  refine (fields_step "<" "n" "ame>" "<" _ (">" +:+ nl +:+ "  ") _ _ _ eq_refl (Hlt name) _).
  refine (fields_step "<" "h" "ost name='" "'" _ ("/name>" +:+ nl +:+ "  <source>" +:+ nl +:+ "    ") _ _ _ eq_refl (Hq host) _).
  refine (fields_step "<" "d" "ir path='" "'" _ ("/>" +:+ nl +:+ "    ") _ _ _ eq_refl (Hq dir) _).
  refine (fields_step "<" "f" "ormat type='" "'" _ ("/>" +:+ nl +:+ "    ") _ _ _ eq_refl Hv _).
  refine (fields_step "<" "p" "ath>" "<" _ ("/>" +:+ nl +:+ "  </source>" +:+ nl +:+ "  <target>") _ _ _ eq_refl (Hlt mount) _).
  done.
Qed.

(** ** How a configuration is written *)

Definition sep (c : ascii) : bool := Ascii.eqb c ":" || Ascii.eqb c "/" || Ascii.eqb c "\".
Definition not_sep (c : ascii) : bool := negb (sep c).
(** [host] is the name in an endpoint, with or without a scheme, a port and a path;
    a name has no colon, so this is no IPv6 address. *)
Definition names_host (endpoint host : string) : Prop :=
  exists scheme port tail, trim_space endpoint = scheme +:+ host +:+ port +:+ tail /\
    scheme ∈ [""; "smb://"; "cifs://"; "nfs://"; "//"] /\ host <> "" /\ every not_sep host = true /\
    (port = "" \/ exists p, port = ":" +:+ p /\ p <> "" /\ every is_digit p = true) /\
    (tail = "" \/ exists c s, tail = String c s /\ (c = "/" \/ c = "\")%char).
(** The target with slashes only. *)
Definition forward (target : string) : string :=
  string_map (fun c => if Ascii.eqb c "\" then "/"%char else c) (trim_space target).
(** The target is the UNC path of a share on a server. *)
Definition unc_path (target server share : string) : Prop :=
  forward target = "//" +:+ server +:+ "/" +:+ share /\ every (other_than "/") server = true /\
  (has_prefix share "/" = false).
(** The server and the share of an SMB backend: the endpoint names the server, or the
    target does; the target is a UNC path, or the name of a share, which has no
    slash but for one it may start with. *)
Definition names_share (endpoint target host share : string) : Prop :=
  (names_host endpoint host /\
    ((exists server, unc_path target server share) \/
     (forward target = share \/ forward target = "/" +:+ share) /\ every (other_than "/") share = true)) \/
  (trim_space endpoint = "" /\ unc_path target host share).
(** The portal of an iSCSI target, on port 3260 unless it says otherwise. *)
Definition names_portal (endpoint host port : string) : Prop :=
  every (other_than ":") port = true /\
  (trim_space endpoint = host +:+ ":" +:+ port \/
   trim_space endpoint = host /\ every (other_than ":") host = true /\ port = "3260").
(** A name that libvirt takes: letters, digits, dashes, underscores and dots. *)
Definition pool_char (c : ascii) : bool :=
  let n := byte_val c in
  bool_decide (97 <= n <= 122 \/ 65 <= n <= 90 \/ 48 <= n <= 57 \/ c = "-"%char \/ c = "_"%char \/ c = "."%char).
Definition plain_pool (s : string) : Prop := s <> "" /\ every pool_char s = true.

Lemma split_at_sep a b x y : every not_sep a = true -> every not_sep b = true ->
  (x = "" \/ exists c s, x = String c s /\ sep c = true) -> (y = "" \/ exists c s, y = String c s /\ sep c = true) ->
  a +:+ x = b +:+ y -> a = b /\ x = y.
Proof.
  intros Ha Hb Hx Hy. revert b Hb. induction a as [|c a IH]; intros [|d b] Hb He; simpl in Ha, Hb, He.
  - done.
  - apply andb_true_iff in Hb as [Hd _]. destruct Hx as [-> |(c & s & -> & Hc)]; [done|].
    injection He as -> _. unfold not_sep in Hd. by rewrite Hc in Hd.
  - apply andb_true_iff in Ha as [Hd _]. destruct Hy as [-> |(e & s & -> & Hc)]; [done|].
    injection He as -> _. unfold not_sep in Hd. by rewrite Hc in Hd.
  - apply andb_true_iff in Ha as [_ Ha]. apply andb_true_iff in Hb as [_ Hb]. injection He as -> He.
    by destruct (IH Ha b Hb He) as [-> ->].
Qed.

Section Host.
Context (host port tail : string) (Hne : host <> "") (Hh : every not_sep host = true)
  (Hp : port = "" \/ exists p, port = ":" +:+ p /\ p <> "" /\ every is_digit p = true)
  (Ht : tail = "" \/ exists c s, tail = String c s /\ (c = "/" \/ c = "\")%char).

Lemma after_host : port +:+ tail = "" \/ exists c s, port +:+ tail = String c s /\ sep c = true /\ has_prefix s "//" && Ascii.eqb c ":" = false.
Proof.
  destruct Hp as [-> |(p & -> & Hpn & Hpd)].
  - simpl. destruct Ht as [-> |(c & s & -> & [-> | ->])]; [by left|right..]; eexists _, _; split; try done; split; try done; apply andb_false_r.
  - right. eexists _, _. split; [reflexivity|]. split; [done|]. rewrite andb_true_r. destruct p as [|c p]; [done|].
    simpl in Hpd. apply andb_true_iff in Hpd as [Hc _]. apply not_true_iff_false. intros [u Hu]%has_prefix_spec.
    injection Hu as -> _. done.
Qed.
Lemma no_scheme name : every not_sep name = true -> has_prefix (host +:+ port +:+ tail) (name +:+ "://") = false.
Proof.
  intros Hn. apply not_true_iff_false. intros [u Hu]%has_prefix_spec.
  rewrite append_assoc in Hu. destruct after_host as [E|(c & s & E & Hc & Hs)].
  - rewrite E in Hu. apply split_at_sep in Hu as [_ Hu]; [done|done|done|by left|right; by eexists _, _].
  - rewrite E in Hu. apply split_at_sep in Hu as [_ Hu]; [|done|done|right; by eexists _, _|right; by eexists _, _].
    injection Hu as -> ->. change (String "/" (String "/" u)) with ("//" +:+ u) in Hs.
    assert (has_prefix ("//" +:+ u) "//" = true) as E' by (apply has_prefix_spec; by eexists). by rewrite E' in Hs.
Qed.
Lemma no_slashes : has_prefix (host +:+ port +:+ tail) "//" = false.
Proof.
  destruct host as [|c h]; [done|]. simpl in Hh. apply andb_true_iff in Hh as [Hc _].
  apply not_true_iff_false. intros [u Hu]%has_prefix_spec. injection Hu as -> _. done.
Qed.
Lemma schemes_off scheme : scheme ∈ [""; "smb://"; "cifs://"; "nfs://"; "//"] ->
  trim_prefix (trim_prefix (trim_prefix (trim_prefix (scheme +:+ host +:+ port +:+ tail) "smb://") "cifs://") "nfs://") "//"
  = host +:+ port +:+ tail.
Proof.
  pose proof (no_scheme "smb" eq_refl) as H1. pose proof (no_scheme "cifs" eq_refl) as H2.
  pose proof (no_scheme "nfs" eq_refl) as H3. pose proof no_slashes as H4. simpl in H1, H2, H3.
  set (x := host +:+ port +:+ tail) in *.
  assert (forall s, has_prefix (s +:+ x) s = true) as Hs by (intros s; apply has_prefix_spec; by eexists).
  assert (forall s, trim_prefix (s +:+ x) s = x) as Hd by (intros s; unfold trim_prefix; by rewrite Hs, string_drop_app).
  assert (forall p, has_prefix x p = false -> trim_prefix x p = x) as Hk by (intros p Hx; unfold trim_prefix; by rewrite Hx).
  rewrite !elem_of_cons, elem_of_nil. intros [->|[->|[->|[->|[->|[]]]]]].
  - change ("" +:+ x) with x. by rewrite !Hk.
  - rewrite Hd. by rewrite !Hk.
  - change (trim_prefix ("cifs://" +:+ x) "smb://") with ("cifs://" +:+ x). rewrite Hd. by rewrite !Hk.
  - change (trim_prefix ("nfs://" +:+ x) "smb://") with ("nfs://" +:+ x).
    change (trim_prefix ("nfs://" +:+ x) "cifs://") with ("nfs://" +:+ x). rewrite Hd. by rewrite !Hk.
  - change (trim_prefix ("//" +:+ x) "smb://") with ("//" +:+ x). change (trim_prefix ("//" +:+ x) "cifs://") with ("//" +:+ x).
    change (trim_prefix ("//" +:+ x) "nfs://") with ("//" +:+ x). by rewrite Hd.
Qed.
Lemma before_slash_app a t : every (other_than "/") a = true -> every (other_than "\") a = true ->
  (t = "" \/ exists c s, t = String c s /\ (c = "/" \/ c = "\")%char) -> before_slash (a +:+ t) = a.
Proof.
  intros Ha Hb Hs. induction a as [|c a IH]; simpl.
  - destruct Hs as [-> |(c & s & -> & [-> | ->])]; done.
  - simpl in Ha, Hb. apply andb_true_iff in Ha as [Ha1 Ha2], Hb as [Hb1 Hb2]. unfold other_than in Ha1, Hb1.
    apply negb_true_iff in Ha1, Hb1. rewrite Ha1, Hb1. simpl. by rewrite IH.
Qed.
Lemma host_of_endpoint scheme : scheme ∈ [""; "smb://"; "cifs://"; "nfs://"; "//"] ->
  match cut_last ":" (before_slash (trim_prefix (trim_prefix (trim_prefix (trim_prefix (scheme +:+ host +:+ port +:+ tail) "smb://") "cifs://") "nfs://") "//"))
  with Some (h, _) => h | None => before_slash (trim_prefix (trim_prefix (trim_prefix (trim_prefix (scheme +:+ host +:+ port +:+ tail) "smb://") "cifs://") "nfs://") "//") end = host.
Proof.
  intros Hs. rewrite schemes_off by done. rewrite <- append_assoc.
  assert (forall d s, (forall c, is_digit c = true \/ not_sep c = true -> c <> d) -> every not_sep s = true -> every (other_than d) s = true) as Ho.
  { intros d s Hd. apply every_impl. intros c Hc. unfold other_than. apply negb_true_iff, Ascii.eqb_neq. apply Hd. by right. }
  assert (forall c, is_digit c = true \/ not_sep c = true -> c <> "/"%char) as Hsl by (intros c [H|H] ->; done).
  assert (forall c, is_digit c = true \/ not_sep c = true -> c <> "\"%char) as Hbs by (intros c [H|H] ->; done).
  assert (forall d p, (forall c, is_digit c = true \/ not_sep c = true -> c <> d) -> every is_digit p = true -> every (other_than d) p = true) as Hod.
  { intros d p Hd. apply every_impl. intros c Hc. unfold other_than. apply negb_true_iff, Ascii.eqb_neq. apply Hd. by left. }
  rewrite before_slash_app; [|rewrite every_app, (Ho _ _ Hsl Hh)|rewrite every_app, (Ho _ _ Hbs Hh)|done];
    try (destruct Hp as [-> |(p & -> & _ & Hpd)]; [done|]; simpl; by apply Hod).
  destruct Hp as [-> |(p & -> & _ & Hpd)].
  - rewrite append_nil. rewrite cut_last_none; [done|]. eapply every_impl; [|exact Hh].
    intros c Hc. unfold other_than. apply negb_true_iff, Ascii.eqb_neq. by intros ->.
  - change (":" +:+ p) with (String ":" p). rewrite cut_last_app; [done|]. eapply every_impl; [|exact Hpd].
    intros c Hc. unfold other_than. apply negb_true_iff, Ascii.eqb_neq. by intros ->.
Qed.
End Host.

Lemma hostOnly_names endpoint host : names_host endpoint host -> hostOnly endpoint = host.
Proof.
  intros (scheme & port & tail & He & Hs & Hne & Hh & Hp & Ht). unfold hostOnly. rewrite He. by apply host_of_endpoint.
Qed.
Lemma unc_forward target : unc target = trim_prefix (forward target) "//".
Proof.
  unfold unc, forward. f_equal. generalize (trim_space target). intros s. clear target.
  induction s as [|c s IH]; [done|]. simpl. destruct (Ascii.eqb_spec c "\") as [->|Hc].
  - unfold replace_all. cbn [String.length replace_fuel].
    assert (has_prefix (String "\" s) "\" = true) as -> by (apply has_prefix_spec; by exists s).
    assert (string_drop 1 (String "\" s) = s) as -> by exact (string_drop_app "\" s). by rewrite <- IH.
  - rewrite <- IH. unfold replace_all. cbn [String.length replace_fuel].
    assert (has_prefix (String c s) "\" = false) as ->; [|done].
    apply not_true_iff_false. intros [u Hu]%has_prefix_spec. by injection Hu.
Qed.
Lemma unc_split target server share : unc_path target server share ->
  cut "/" (unc target) = Some (server, share) /\ trim_prefix share "/" = share.
Proof.
  intros (Hf & Hs & Hp). rewrite unc_forward, Hf. split; [|unfold trim_prefix; by rewrite Hp].
  assert (trim_prefix ("//" +:+ server +:+ "/" +:+ share) "//" = server +:+ String "/" share) as ->.
  { unfold trim_prefix. assert (has_prefix ("//" +:+ server +:+ "/" +:+ share) "//" = true) as -> by (apply has_prefix_spec; by eexists).
    by rewrite (string_drop_app "//"). }
  by rewrite cut_app.
Qed.
Lemma no_slash_prefix s p : every (other_than "/") s = true -> has_prefix s (String "/" p) = false.
Proof.
  intros H. apply not_true_iff_false. intros [u ->]%has_prefix_spec. simpl in H. done.
Qed.
Lemma cut_none d s : every (other_than d) s = true -> cut d s = None.
Proof.
  induction s as [|c s IH]; [done|]. simpl. intros [Hc Hs]%andb_true_iff. unfold other_than in Hc.
  apply negb_true_iff in Hc. rewrite Hc. by rewrite IH.
Qed.
Lemma smb_names endpoint target host share : names_share endpoint target host share ->
  smbHost endpoint target = host /\ smbShare target = "/" +:+ share.
Proof.
  unfold smbHost, smbShare. intros [[Hh Ht]|[He Hu]].
  - rewrite (hostOnly_names _ _ Hh). destruct Hh as (_ & _ & _ & _ & _ & Hne & _). rewrite (bool_decide_eq_false_2 _ Hne).
    split; [done|]. f_equal. destruct Ht as [[server Hu]|[[Hf|Hf] Hs]].
    + by destruct (unc_split _ _ _ Hu) as [-> ->].
    + rewrite unc_forward, Hf. unfold trim_prefix at 2 3. rewrite (no_slash_prefix share "/") by done.
      rewrite cut_none by done. unfold trim_prefix. by rewrite (no_slash_prefix share "") by done.
    + rewrite unc_forward, Hf. assert (has_prefix ("/" +:+ share) "//" = false) as Hn.
      { apply not_true_iff_false. intros [u Hu]%has_prefix_spec. injection Hu as Hu. change ("" +:+ share) with share in Hu. by rewrite Hu in Hs. }
      assert (trim_prefix ("/" +:+ share) "//" = "/" +:+ share) as -> by (unfold trim_prefix; by rewrite Hn).
      assert (cut "/" ("/" +:+ share) = Some ("", share)) as -> by done.
      unfold trim_prefix. by rewrite (no_slash_prefix share "") by done.
  - unfold hostOnly. rewrite He. change (bool_decide (_ = "")) with true. cbn [negb].
    by destruct (unc_split _ _ _ Hu) as [-> ->].
Qed.
Lemma portal_names endpoint host port : names_portal endpoint host port -> hostPort endpoint "3260" = (host, port).
Proof.
  unfold hostPort. intros [Hp [->|(-> & Hh & ->)]].
  - change (host +:+ ":" +:+ port) with (host +:+ String ":" port). by rewrite cut_last_app.
  - by rewrite cut_last_none.
Qed.

(** ** Names of pools *)

Lemma pool_char_rune c : pool_char c = true -> 0 <= byte_val c < 128 /\ pool_rune (byte_val c) = true.
Proof.
  unfold pool_char. rewrite bool_decide_eq_true. intros H.
  assert (97 <= byte_val c <= 122 \/ 65 <= byte_val c <= 90 \/ 48 <= byte_val c <= 57 \/ byte_val c = 45 \/ byte_val c = 95 \/ byte_val c = 46) as Hb.
  { destruct H as [|[|[|[->|[->| ->]]]]]; auto 10. }
  split; [lia|]. unfold pool_rune. rewrite !orb_true_iff, !andb_true_iff, !Z.leb_le, !Z.eqb_eq. lia.
Qed.
Lemma rune_pool_char r : pool_rune r = true -> string_of_rune r = String (ascii_of_N (Z.to_N r)) "" /\ pool_char (ascii_of_N (Z.to_N r)) = true.
Proof.
  unfold pool_rune. rewrite !orb_true_iff, !andb_true_iff, !Z.leb_le, !Z.eqb_eq. intros H.
  assert (0 <= r < 128) as Hr by lia. split.
  - rewrite rune_bytes by lia. destruct (Z.ltb_spec r 128); [done|lia].
  - unfold pool_char. apply bool_decide_eq_true. unfold byte_val. rewrite N_ascii_embedding by lia.
    assert (r = 45 \/ r = 95 \/ r = 46 \/ (97 <= r <= 122 \/ 65 <= r <= 90 \/ 48 <= r <= 57)) as [->|[->|[->|Hr']]] by lia;
      [by auto 10..|lia].
Qed.
Lemma runes_plain s : every pool_char s = true -> runes s = (fun c => (byte_val c, true)) <$> String.list_ascii_of_string s.
Proof.
  induction s as [|c s IH]; [done|]. simpl. intros [Hc Hs]%andb_true_iff. apply pool_char_rune in Hc as [Hc _].
  rewrite (runes_decode (String c s) (byte_val c) true s); [by rewrite IH|]. unfold Utf8.decode. cbv zeta.
  by rewrite (proj2 (Z.ltb_lt _ _)) by lia.
Qed.
Definition pool_fix (r : Z * bool) : Z := if pool_rune r.1 then r.1 else 45.
Lemma pool_char_string s : every pool_char s = true -> string_of_runes (pool_fix <$> runes s) = s.
Proof.
  intros Hs. rewrite runes_plain by done. induction s as [|c s IH]; [done|]. simpl in Hs. apply andb_true_iff in Hs as [Hc Hs].
  cbn [String.list_ascii_of_string fmap list_fmap string_of_runes foldr]. unfold string_of_runes in IH. rewrite IH by done.
  apply pool_char_rune in Hc as [Hb Hc]. unfold pool_fix. cbn [fst]. rewrite Hc. unfold byte_val in Hb |- *. rewrite rune_bytes by lia.
  rewrite (proj2 (Z.ltb_lt _ _)) by lia. change (String (ascii_of_N (Z.to_N (Z.of_N (N_of_ascii c)))) s = String c s).
  by rewrite N2Z.id, ascii_N_embedding.
Qed.
Lemma pool_fix_plain l : every pool_char (string_of_runes (pool_fix <$> l)) = true.
Proof.
  induction l as [|r l IH]; [done|]. cbn [fmap list_fmap string_of_runes foldr]. rewrite every_app. unfold string_of_runes in IH. rewrite IH, andb_true_r.
  unfold pool_fix. destruct (pool_rune r.1) eqn:E; [|done]. apply rune_pool_char in E as [-> E]. simpl. by rewrite E.
Qed.
(** The name of the mount is one libvirt takes, and the pool's own when that is one. *)
Lemma sanitizeName_plain pool : plain_pool (sanitizeName pool) /\ (plain_pool pool -> sanitizeName pool = pool).
Proof.
  unfold sanitizeName. fold (pool_fix). cbv zeta. split.
  - case_bool_decide as E; [by split|]. split; [done|]. apply pool_fix_plain.
  - intros [Hn Hp]. rewrite (pool_char_string pool Hp). by rewrite bool_decide_eq_false_2.
Qed.

Lemma iscsi_fields name host port target : xml_fields iscsi_ops (iscsi_pool name host port target) =
  Some ["iscsi"; xml_text name; xml_text host; xml_text port; xml_text target; "/dev/disk/by-path"].
Proof.
  pose proof (fun s => xml_free "<" s ltac:(set_solver)) as Hlt. pose proof (fun s => xml_free "'" s ltac:(set_solver)) as Hq.
  rewrite <- (xml_read_esc name), <- (xml_read_esc host), <- (xml_read_esc port), <- (xml_read_esc target). unfold iscsi_pool, iscsi_ops.
  refine (fields_step "<" "p" "ool type='" "'" _ "" "iscsi" _ _ eq_refl eq_refl _).
  refine (fields_step "<" "n" "ame>" "<" _ (">" +:+ nl +:+ "  ") _ _ _ eq_refl (Hlt name) _).
  refine (fields_step "<" "h" "ost name='" "'" _ ("/name>" +:+ nl +:+ "  <source>" +:+ nl +:+ "    ") _ _ _ eq_refl (Hq host) _).
  refine (fields_step " " "p" "ort='" "'" _ "" _ _ _ eq_refl (Hq port) _).
  refine (fields_step "<" "d" "evice path='" "'" _ ("/>" +:+ nl +:+ "    ") _ _ _ eq_refl (Hq target) _).
  refine (fields_step "<" "p" "ath>" "<" _ ("/>" +:+ nl +:+ "  </source>" +:+ nl +:+ "  <target>") "/dev/disk/by-path" _ _ eq_refl eq_refl _).
  done.
Qed.

(** C23 The document of a pool says what was configured.  Read back, reference by
    reference, the fields of the document libvirt is given are, in order: for an NFS
    store, the host that the endpoint names, with or without a scheme, a port and a
    path, and the export as configured; for an SMB store, the server and the share that
    the endpoint and the target name, be the target a UNC path, with slashes or
    backslashes, or the name of a share; for an iSCSI store, the host and the port of
    the portal, 3260 when it gives none, and the target; in each, the kind and the name
    of the pool, and, for a file store, a mount under /var/lib/libvirt/storage whose
    name libvirt takes, the pool's own name when that is one.  Whatever characters these
    values contain, none becomes markup, and a text in UTF-8 with the characters of XML
    only is read back as it is.  The names of hosts here have no colon, slash or
    backslash, so a bare IPv6 address is not one, and a bare share is one segment. *)
Theorem pool_xml_roundtrip cfg pool : let doc := renderPoolXML cfg pool in
  (exists mount, plain_pool mount /\ (plain_pool pool -> mount = pool) /\
     (forall host, cf_Type cfg = TypeNFS -> names_host (cf_Endpoint cfg) host ->
        xml_fields netfs_ops doc =
        Some ["netfs"; xml_text pool; xml_text host; xml_text (cf_Target cfg); "nfs"; xml_text ("/var/lib/libvirt/storage/" +:+ mount)]) /\
     (forall host share, cf_Type cfg = TypeSMB -> names_share (cf_Endpoint cfg) (cf_Target cfg) host share ->
        xml_fields netfs_ops doc =
        Some ["netfs"; xml_text pool; xml_text host; xml_text ("/" +:+ share); "cifs"; xml_text ("/var/lib/libvirt/storage/" +:+ mount)])) /\
  (forall host port, cf_Type cfg = TypeISCSI -> names_portal (cf_Endpoint cfg) host port ->
     xml_fields iscsi_ops doc =
     Some ["iscsi"; xml_text pool; xml_text host; xml_text port; xml_text (cf_Target cfg); "/dev/disk/by-path"]) /\
  (forall s, valid_utf8 s = true -> Forall (fun r => legal_char r.1) (runes s) -> xml_text s = s).
Proof.
  unfold renderPoolXML. cbv zeta. split_and!.
  - exists (sanitizeName pool). destruct (sanitizeName_plain pool) as [Hp Hn]. split_and!; [done|done|intros host -> Hh|intros host share -> Hs].
    + rewrite <- (hostOnly_names _ _ Hh). by apply netfs_fields; left.
    + destruct (smb_names _ _ _ _ Hs) as [<- <-]. by apply netfs_fields; right; left.
  - intros host port -> Hp. rewrite (portal_names _ _ _ Hp). apply iscsi_fields.
  - intros s Hs Hc. unfold xml_text. rewrite <- (scrub_valid s Hs) at 2. unfold scrub. f_equal.
    apply list_fmap_ext. intros i r Hr. rewrite Forall_lookup in Hc. by rewrite (bool_decide_eq_true_2 _ (Hc _ _ Hr)).
Qed.

(** ** A small disk *)

Lemma wf_check t : forallb (fun e => negb (bool_decide (e.1 = [])) && is_dir t (tail e.1)) (map_to_list t) = true -> wf t.
Proof.
  intros Hc q n Hq. apply elem_of_map_to_list, list_elem_of_In in Hq. rewrite forallb_forall in Hc. apply Hc in Hq.
  apply andb_true_iff in Hq as [H1 H2]. by apply negb_true_iff, bool_decide_eq_false in H1.
Qed.

Definition demo_cwd : place := ["srv"].
(** The eleventh call finds the disk full. *)
Definition demo_fault (n : nat) : option (nat * string) := if (n =? 10)%nat then Some (2%nat, "no space left on device") else None.
Definition demo_disk : disk :=
  mkDisk {[ ["srv"] := Dir; ["etc"] := Dir; ["passwd"; "etc"] := File "root" ]} 0.
Definition demo_local : Config := mkConfig TypeLocal "backups" "" " /backups/ " "" "" "" "" "" "" "" "" "".
Definition demo_key := "vm/1/disk.qcow2".
Definition demo_ops : list store_op :=
  [OPut "../../etc/passwd" (mkReader "evil" None); OPut "vm/1/manifest.json" (mkReader "{}" None);
   ODelete "vm/1/manifest.json"; ODelete "/"; OTest; OList "vm/"].

Lemma local_confined_witness :
  let d := run demo_cwd demo_fault "/backups" (OPut demo_key (mkReader "image" None) :: demo_ops) demo_disk in
  newLocalBackend demo_local = Ok "/backups" /\
  node_at (dk_nodes d) ["passwd"; "etc"] = Some (File "root") /\ node_at (dk_nodes d) ["passwd"; "etc"; "backups"] = Some (File "evil").
Proof.
  intros d. split_and!; [by vm_compute| |by vm_compute].
  destruct (local_confined demo_cwd demo_fault demo_local "/backups" (OPut demo_key (mkReader "image" None) :: demo_ops) demo_disk) as [_ H].
  - by vm_compute.
  - refine (proj1 (bool_decide_eq_false _) _). vm_compute. reflexivity.
  - apply wf_check. by vm_compute.
  - destruct (H ["passwd"; "etc"]) as [[Hq|(Hq & _)] _].
    + intros [k Hk]. change (["passwd"; "etc"] = k ++ ["backups"]) in Hk. by destruct k as [|? [|? [|? k]]].
    + exact Hq.
    + vm_compute in Hq. discriminate.
Defined.

Lemma local_put_get_witness :
  exists n d1, PutObject demo_cwd demo_fault "/backups" demo_key (mkReader "image" None) demo_disk = (Ok n, d1) /\ n = 5 /\
    (GetObject demo_cwd demo_fault "/backups" demo_key (run demo_cwd demo_fault "/backups" demo_ops d1)).1 = Ok (mkReader "image" None).
Proof.
  destruct (PutObject demo_cwd demo_fault "/backups" demo_key (mkReader "image" None) demo_disk) as [[n|e] d1] eqn:E;
    [|vm_compute in E; discriminate].
  destruct (local_put_get demo_cwd demo_fault demo_local "/backups" demo_key (mkReader "image" None) demo_ops demo_disk n d1) as (Hn & Hg & _).
  - by vm_compute.
  - refine (proj1 (bool_decide_eq_false _) _). vm_compute. reflexivity.
  - apply wf_check. by vm_compute.
  - exact E.
  - repeat constructor; vm_compute; discriminate.
  - exists n, d1. split_and!; [done|exact Hn|]. apply Hg. vm_compute in E. injection E as _ <-. by vm_compute.
Defined.

Lemma pool_xml_roundtrip_witness :
  xml_fields netfs_ops (renderPoolXML (mkConfig TypeNFS "n" " nfs://nas<1>:2049/x " "/a'b&c" "" "" "" "" "" "" "" "" "") "pool") =
    Some ["netfs"; "pool"; "nas<1>"; "/a'b&c"; "nfs"; "/var/lib/libvirt/storage/pool"] /\
  xml_fields netfs_ops (renderPoolXML (mkConfig TypeSMB "n" "" "\\filer\iso" "" "" "" "" "" "" "" "" "") "pool") =
    Some ["netfs"; "pool"; "filer"; "/iso"; "cifs"; "/var/lib/libvirt/storage/pool"] /\
  xml_fields iscsi_ops (renderPoolXML (mkConfig TypeISCSI "n" "san" "iqn.2001:x" "" "" "" "" "" "" "" "" "") "pool") =
    Some ["iscsi"; "pool"; "san"; "3260"; "iqn.2001:x"; "/dev/disk/by-path"].
Proof.
  assert (plain_pool "pool") as Hp by done. split_and!.
  - destruct (pool_xml_roundtrip (mkConfig TypeNFS "n" " nfs://nas<1>:2049/x " "/a'b&c" "" "" "" "" "" "" "" "" "") "pool")
      as ((mount & _ & Hm & H & _) & _). rewrite (Hm Hp) in H. rewrite (H "nas<1>"); [by vm_compute|done|].
    exists "nfs://", ":2049", "/x". split_and!; [by vm_compute|by do 3 right; left|done|done|right; by exists "2049"|right; exists "/"%char, "x"; by split; [|left]].
  - destruct (pool_xml_roundtrip (mkConfig TypeSMB "n" "" "\\filer\iso" "" "" "" "" "" "" "" "" "") "pool")
      as ((mount & _ & Hm & _ & H) & _). rewrite (Hm Hp) in H. rewrite (H "filer" "iso"); [by vm_compute|done|].
    right. split; [done|]. split_and!; by vm_compute.
  - destruct (pool_xml_roundtrip (mkConfig TypeISCSI "n" "san" "iqn.2001:x" "" "" "" "" "" "" "" "" "") "pool") as (_ & H & _).
    rewrite (H "san" "3260"); [by vm_compute|done|]. split; [done|]. right. by split_and!; vm_compute.
Defined.

(** ** Where the code does less than it says *)

(** Two exports of a host have one pool, hence one mount point. *)
Example two_exports_one_pool :
  derivePoolName (mkConfig TypeNFS "a" "nas" "/exports/a" "" "" "" "" "" "" "" "" "") =
  derivePoolName (mkConfig TypeNFS "b" "nas:2049" "/exports/b" "" "" "" "" "" "" "" "" "").
Proof. by vm_compute. Qed.
(** A bare IPv6 address loses its last group. *)
Example ipv6_host_cut : hostOnly "fe80::1" = "fe80:".
Proof. by vm_compute. Qed.
(** The name of a share below a directory loses the directory. *)
Example bare_share_cut : smbShare "isos/linux" = "/linux".
Proof. by vm_compute. Qed.
(** An upload that fails takes the object it was to replace with it. *)
Example failed_overwrite_loses :
  let ops := [OPut "k" (mkReader "old" None); OPut "k" (mkReader "new" (Some "connection reset"))] in
  (GetObject demo_cwd (fun _ => None) "/backups" "k" (run demo_cwd (fun _ => None) "/backups" ops demo_disk)).1 =
  Err "local: object not found: k".
Proof. vm_compute. reflexivity. Qed.
(** The key of the store itself, deleted when it is empty, takes the base directory. *)
Example delete_root_removes_base :
  dk_nodes (run demo_cwd (fun _ => None) "/backups" [OTest; ODelete "/"] demo_disk) !! ["backups"] = None.
Proof. vm_compute. reflexivity. Qed.
