(* ===== verification/StorageApi.v ===== *)
(** * Storage backends: the backends as one, their table and their handlers

    The dispatch of server/internal/storage/storage.go, the constructors of azure.go and
    s3.go, server/internal/store/storage_backends.go and the handlers of
    server/internal/api/storage_backends.go.  The conversations with the cloud stores are
    the parameter [cloud]. *)
From S2P Require Import Prelude GoStd Utf8 AuthStore Rbac Redact Middleware Fs Storage.

(** ** The backends (storage.go, azure.go, s3.go) *)

Record azureBackend := mkAzure { az_account : string; az_key : string; az_container : string; az_serviceURL : string }.
Record s3Backend := mkS3 { s3_accessKey : string; s3_secretKey : string; s3_bucket : string; s3_region : string; s3_endpoint : string }.
Inductive Backend := BSan (b : sanBackend) | BLocal (base : string) | BAzure (b : azureBackend) | BS3 (b : s3Backend).

Definition trim_slashes (s : string) : string := trim_right_set (fun c => Ascii.eqb c "/") s.
Definition service_url (url default : string) : string :=
  let u := trim_slashes (trim_space url) in if bool_decide (u = "") then default else u.

Section Backends.
Context (b64 : string -> result string string).

Definition newAzureBackend (cfg : Config) : result string azureBackend :=
  match Validate cfg with
  | Some e => Err e
  | None =>
      let account := firstNonEmpty [cf_Account cfg; cf_Username cfg] in
      match b64 (trim_space (cf_Secret cfg)) with
      | Err e => Err ("azureblob: account key is not valid base64: " +:+ e)
      | Ok key => Ok (mkAzure account key (firstNonEmpty [cf_Container cfg; cf_Target cfg])
                        (service_url (cf_ServiceURL cfg) ("https://" +:+ account +:+ ".blob.core.windows.net")))
      end
  end.
Definition newS3Backend (cfg : Config) : result string s3Backend :=
  match Validate cfg with
  | Some e => Err e
  | None => Ok (mkS3 (firstNonEmpty [cf_Account cfg; cf_Username cfg]) (cf_Secret cfg)
                  (firstNonEmpty [cf_Container cfg; cf_Target cfg]) (cf_Region cfg)
                  (service_url (cf_ServiceURL cfg) ("https://s3." +:+ cf_Region cfg +:+ ".amazonaws.com")))
  end.
Definition New (cfg : Config) : result string Backend :=
  if IsSAN (cf_Type cfg) then (b ← newSANBackend cfg; Ok (BSan b))
  else if bool_decide (cf_Type cfg = TypeAzureBlob) then (b ← newAzureBackend cfg; Ok (BAzure b))
  else if bool_decide (cf_Type cfg = TypeS3) then (b ← newS3Backend cfg; Ok (BS3 b))
  else if bool_decide (cf_Type cfg = TypeLocal) then (b ← newLocalBackend cfg; Ok (BLocal b))
  else Err (ErrUnsupported +:+ ": " +:+ quote (cf_Type cfg)).
End Backends.

(** ** The table (store/storage_backends.go) *)

(** A row; an empty string is NULL, [sb_SecretEnc] a sealed secret. *)
Record StorageBackend := mkBackend {
  sb_ID : string; sb_Name : string; sb_Type : string; sb_Endpoint : string; sb_Target : string; sb_Username : string;
  sb_SecretEnc : string; sb_Region : string; sb_ProviderID : string; sb_Options : string; sb_Enabled : bool;
  sb_Status : string; sb_LastError : string; sb_LastSeenAt : Z; sb_CreatedAt : Z; sb_UpdatedAt : Z }.
Definition HasSecret (b : StorageBackend) : bool := negb (bool_decide (sb_SecretEnc b = "")).
Definition backends := gmap string StorageBackend.

Definition by_backend_name (a b : StorageBackend) : Prop := str_le (sb_Name a) (sb_Name b).
#[export] Instance by_backend_name_dec a b : Decision (by_backend_name a b).
Proof. unfold by_backend_name. apply _. Defined.
Definition ListStorageBackends (t : backends) : list StorageBackend := merge_sort by_backend_name (map_to_list t).*2.
Definition GetStorageBackend (id : string) (t : backends) : result store_err StorageBackend :=
  match t !! id with Some b => Ok b | None => Err ErrNotFound end.
(** The row written by [CreateStorageBackend] at second [now]. *)
Definition backend_row (b : StorageBackend) (now : Z) : StorageBackend :=
  mkBackend (sb_ID b) (sb_Name b) (sb_Type b) (sb_Endpoint b) (sb_Target b) (sb_Username b) (sb_SecretEnc b) (sb_Region b)
    (sb_ProviderID b) (sb_Options b) (sb_Enabled b) (if bool_decide (sb_Status b = "") then "pending" else sb_Status b) "" 0 now now.
(** [UNIQUE(type, endpoint, target)] of 0005_storage_backends.sql; NULL equals nothing. *)
Definition same_place (b b' : StorageBackend) : bool :=
  bool_decide (sb_Type b = sb_Type b') &&
  (negb (bool_decide (sb_Endpoint b = "")) && bool_decide (sb_Endpoint b = sb_Endpoint b')) &&
  (negb (bool_decide (sb_Target b = "")) && bool_decide (sb_Target b = sb_Target b')).
Definition CreateStorageBackend (b : StorageBackend) (now : Z) (t : backends) : result store_err backends :=
  if bool_decide (is_Some (t !! sb_ID b)) || existsb (same_place b) (map_to_list t).*2 then Err ErrConstraint else Ok (<[sb_ID b := backend_row b now]> t).
(** [seen] is the reading for [last_seen_at], of a backend that is connected. *)
Definition set_status (status lastErr : string) (seen now : Z) (b : StorageBackend) : StorageBackend :=
  mkBackend (sb_ID b) (sb_Name b) (sb_Type b) (sb_Endpoint b) (sb_Target b) (sb_Username b) (sb_SecretEnc b) (sb_Region b)
    (sb_ProviderID b) (sb_Options b) (sb_Enabled b) status lastErr
    (if bool_decide (status = "connected") then seen else sb_LastSeenAt b) (sb_CreatedAt b) now.
Definition UpdateStorageBackendStatus (id status lastErr : string) (seen now : Z) (t : backends) : backends :=
  alter (set_status status lastErr seen now) id t.
Definition DeleteStorageBackend (id : string) (t : backends) : result store_err backends :=
  match t !! id with Some _ => Ok (delete id t) | None => Err ErrNotFound end.

(** ** The handlers (api/storage_backends.go) *)

Definition unless_empty (k v : string) : list (string * json) := if bool_decide (v = "") then [] else [(k, JString v)].
(** What the API shows of a backend: no secret, only whether there is one. *)
Definition toStorageBackendView (b : StorageBackend) : json :=
  JObj ([("id", JString (sb_ID b)); ("name", JString (sb_Name b)); ("type", JString (sb_Type b));
         ("endpoint", JString (sb_Endpoint b)); ("target", JString (sb_Target b)); ("username", JString (sb_Username b));
         ("hasSecret", JBool (HasSecret b))] ++
        unless_empty "region" (sb_Region b) ++ unless_empty "providerId" (sb_ProviderID b) ++ unless_empty "options" (sb_Options b) ++
        [("enabled", JBool (sb_Enabled b)); ("status", JString (sb_Status b))] ++
        unless_empty "lastError" (sb_LastError b) ++
        (if sb_LastSeenAt b =? 0 then [] else [("lastSeenAt", JNum (sb_LastSeenAt b))]) ++
        [("createdAt", JNum (sb_CreatedAt b))]).

Record storageBackendInput := mkInput {
  in_Name : string; in_Type : string; in_Endpoint : string; in_Target : string; in_Username : string; in_Secret : string;
  in_Region : string; in_ProviderID : string; in_Options : string; in_Enabled : bool }.
Definition input_config (inp : storageBackendInput) (providerID libvirtEndpoint : string) (name : string) : Config :=
  mkConfig (in_Type inp) name (in_Endpoint inp) (in_Target inp) (in_Username inp) (in_Secret inp) providerID "" libvirtEndpoint
    "" "" (in_Region inp) "".
Definition validate (inp : storageBackendInput) : option APIError :=
  if bool_decide (trim_space (in_Name inp) = "") then Some (Errorf ErrValidation "name is required")
  else if negb (ValidType (in_Type inp)) then Some (Errorf ErrValidation "type must be one of nfs|iscsi|smb|azureblob|s3")
  else match Validate (input_config inp "" "" "") with Some e => Some (Errorf ErrValidation e) | None => None end.

(** The table, the disk of the server, the calls made to libvirt hosts, and how many
    readings of the clock, random values and requests to cloud stores there were. *)
Record sworld := mkSW {
  sw_rows : backends; sw_disk : disk; sw_calls : list lv_call; sw_ticks : nat; sw_rand : nat; sw_http : nat }.

Section Api.
Context (clock : nat -> Z) (random new_uuid : nat -> string) (seal : string -> string -> string) (open_sealed : string -> option string).
Context (b64 : string -> result string string) (cwd : place) (fault : nat -> option (nat * string)) (lv : libvirt)
  (cloud : nat -> Backend -> option string).
(** [LibvirtEndpoint()] of a registered provider that has the method. *)
Context (provider_endpoint : string -> option string).

Definition SW (E A : Type) : Type := sworld -> result E A * sworld.
#[local] Instance SW_ret {E} : MRet (SW E) := fun A a w => (Ok a, w).
#[local] Instance SW_bind {E} : MBind (SW E) := fun A B f m w =>
  match m w with (Ok a, w') => f a w' | (Err e, w') => (Err e, w') end.
Definition refuse {E A} (e : E) : SW E A := fun w => (Err e, w).
Definition with_rows (t : backends) (w : sworld) : sworld := mkSW t (sw_disk w) (sw_calls w) (sw_ticks w) (sw_rand w) (sw_http w).
Definition read_now {E} : SW E Z := fun w =>
  (Ok (unix (clock (sw_ticks w))), mkSW (sw_rows w) (sw_disk w) (sw_calls w) (S (sw_ticks w)) (sw_rand w) (sw_http w)).
Definition read_random {E} (f : nat -> string) : SW E string := fun w =>
  (Ok (f (sw_rand w)), mkSW (sw_rows w) (sw_disk w) (sw_calls w) (sw_ticks w) (S (sw_rand w)) (sw_http w)).
Definition rows {E A} (f : backends -> A) : SW E A := fun w => (Ok (f (sw_rows w)), w).
Definition run_rows {E} (f : backends -> backends) : SW E unit := fun w => (Ok tt, with_rows (f (sw_rows w)) w).
(** A statement; an error of the store is none of the API's, so the reply is 500. *)
Definition statement (f : backends -> result store_err backends) : SW APIError unit := fun w =>
  match f (sw_rows w) with Ok t => (Ok tt, with_rows t w) | Err _ => (Err ErrInternal, w) end.
Definition checked (o : option APIError) : SW APIError unit := match o with Some e => refuse e | None => mret tt end.
Definition decoded {A} (body : result APIError A) : SW APIError A := fun w => (body, w).

(** [be.Test]: the error, if there is one. *)
Definition backend_Test {E} (be : Backend) : SW E (option string) := fun w =>
  let outcome {A} (x : result string A) := match x with Ok _ => None | Err e => Some e end in
  match be with
  | BSan b =>
      let '(x, h) := san_Test lv b (sw_calls w) in
      (Ok (outcome x), mkSW (sw_rows w) (sw_disk w) h (sw_ticks w) (sw_rand w) (sw_http w))
  | BLocal base =>
      let '(x, d) := local_Test cwd fault base (sw_disk w) in
      (Ok (outcome x), mkSW (sw_rows w) d (sw_calls w) (sw_ticks w) (sw_rand w) (sw_http w))
  | _ => (Ok (cloud (sw_http w) be), mkSW (sw_rows w) (sw_disk w) (sw_calls w) (sw_ticks w) (sw_rand w) (S (sw_http w)))
  end.

Definition libvirtEndpointForProvider (providerID : string) : string :=
  if bool_decide (providerID = "") then "" else default "" (provider_endpoint providerID).
Definition toConfig (inp : storageBackendInput) : Config :=
  input_config inp (in_ProviderID inp)
    (if IsSAN (in_Type inp) then libvirtEndpointForProvider (in_ProviderID inp) else "") (in_Name inp).

Definition ListStorageBackendsHandler : SW APIError (Z * json) :=
  l ← rows ListStorageBackends; mret (200, JList (toStorageBackendView <$> l)).

Definition TestStorageBackend (body : result APIError storageBackendInput) : SW APIError (Z * json) :=
  inp ← decoded body;
  _ ← checked (validate inp);
  match New b64 (toConfig inp) with
  | Err e => refuse (Errorf ErrValidation e)
  | Ok be =>
      x ← backend_Test be;
      match x with
      | Some e => refuse (Errorf ErrValidation ("storage test failed: " +:+ e))
      | None => mret (200, JObj [("ok", JBool true)])
      end
  end.

(** The errors of the status update are dropped. *)
Definition update_status {E} (id status lastErr : string) : SW E unit :=
  seen ← (if bool_decide (status = "connected") then read_now else mret 0);
  now ← read_now;
  run_rows (UpdateStorageBackendStatus id status lastErr seen now).
Definition probeStorageBackend {E} (rec : StorageBackend) (plaintextSecret : string) : SW E unit :=
  let secret :=
    if bool_decide (plaintextSecret = "") && HasSecret rec then default "" (open_sealed (sb_SecretEnc rec)) else plaintextSecret in
  let cfg := mkConfig (sb_Type rec) (sb_Name rec) (sb_Endpoint rec) (sb_Target rec) (sb_Username rec) secret (sb_ProviderID rec) ""
               (if IsSAN (sb_Type rec) then libvirtEndpointForProvider (sb_ProviderID rec) else "") "" "" (sb_Region rec) "" in
  match New b64 cfg with
  | Err e => update_status (sb_ID rec) "error" e
  | Ok be =>
      x ← backend_Test be;
      match x with
      | Some e => update_status (sb_ID rec) "error" e
      | None => update_status (sb_ID rec) "connected" ""
      end
  end.

Definition CreateStorageBackendHandler (body : result APIError storageBackendInput) : SW APIError (Z * json) :=
  inp ← decoded body;
  _ ← checked (validate inp);
  id ← read_random new_uuid;
  enc ← (if bool_decide (in_Secret inp = "") then mret "" else nonce ← read_random random; mret (seal nonce (in_Secret inp)));
  now ← read_now;
  let rec := mkBackend id (in_Name inp) (in_Type inp) (in_Endpoint inp) (in_Target inp) (in_Username inp) enc (in_Region inp)
               (in_ProviderID inp) (in_Options inp) (in_Enabled inp) "pending" "" 0 0 0 in
  _ ← statement (CreateStorageBackend rec now);
  let rec := backend_row rec now in
  rec ← (if sb_Enabled rec then
           _ ← probeStorageBackend rec (in_Secret inp);
           updated ← rows (GetStorageBackend id);
           mret (match updated with Ok r => r | Err _ => rec end)
         else mret rec);
  mret (201, toStorageBackendView rec).

Definition DeleteStorageBackendHandler (id : string) : SW APIError (Z * json) :=
  _ ← statement (DeleteStorageBackend id); mret (204, JNull).
End Api.

(** ** What creating a backend does *)

(** The part of the state a connection test sees. *)
Definition outside (w : sworld) : disk * list lv_call * nat := (sw_disk w, sw_calls w, sw_http w).
(** What was asked for, in a row. *)
Definition row_of (inp : storageBackendInput) (b : StorageBackend) : Prop :=
  sb_Name b = in_Name inp /\ sb_Type b = in_Type inp /\ sb_Endpoint b = in_Endpoint inp /\ sb_Target b = in_Target inp /\
  sb_Username b = in_Username inp /\ sb_Region b = in_Region inp /\ sb_ProviderID b = in_ProviderID inp /\
  sb_Options b = in_Options inp /\ sb_Enabled b = in_Enabled inp.

Lemma same_place_spec b (t : backends) : existsb (same_place b) (map_to_list t).*2 = true <->
  exists k b', t !! k = Some b' /\ sb_Type b' = sb_Type b /\ sb_Endpoint b <> "" /\ sb_Endpoint b' = sb_Endpoint b /\
    sb_Target b <> "" /\ sb_Target b' = sb_Target b.
Proof.
  rewrite existsb_exists. setoid_rewrite <- list_elem_of_In. setoid_rewrite list_elem_of_fmap. unfold same_place. split.
  - intros (b' & ([k b2] & -> & Hk%elem_of_map_to_list) & Hs). exists k, b2. split; [exact Hk|].
    rewrite !andb_true_iff, !negb_true_iff, !bool_decide_eq_true, !bool_decide_eq_false in Hs. naive_solver.
  - intros (k & b' & Hk & H1 & H2 & H3 & H4 & H5). exists b'. split; [exists (k, b'); split; [done|by apply (elem_of_map_to_list (M := gmap string))]|].
    rewrite !andb_true_iff, !negb_true_iff, !bool_decide_eq_true, !bool_decide_eq_false. naive_solver.
Qed.

Section Facts.
Context (clock : nat -> Z) (random new_uuid : nat -> string) (seal : string -> string -> string) (open_sealed : string -> option string).
Context (b64 : string -> result string string) (cwd : place) (fault : nat -> option (nat * string)) (lv : libvirt)
  (cloud : nat -> Backend -> option string) (provider_endpoint : string -> option string).
Abbreviation test := (TestStorageBackend b64 cwd fault lv cloud provider_endpoint) (only parsing).
Abbreviation create := (CreateStorageBackendHandler clock random new_uuid seal open_sealed b64 cwd fault lv cloud provider_endpoint) (only parsing).
Abbreviation be_test := (backend_Test cwd fault lv cloud) (only parsing).

Lemma test_frame {E F} be w1 w2 : outside w1 = outside w2 ->
  exists o out, (be_test be w1 : result E _ * _) = (Ok o, (be_test be w1 : result E _ * _).2) /\
    (be_test be w2 : result F _ * _) = (Ok o, (be_test be w2 : result F _ * _).2) /\
    outside (be_test be w1 : result E _ * _).2 = out /\ outside (be_test be w2 : result F _ * _).2 = out /\
    sw_rows (be_test be w1 : result E _ * _).2 = sw_rows w1 /\ sw_rows (be_test be w2 : result F _ * _).2 = sw_rows w2.
Proof.
  destruct w1 as [r1 d h t1 n1 k], w2 as [r2 d2 h2 t2 n2 k2]. unfold outside. simpl. intros [= <- <- <-]. unfold backend_Test. simpl.
  destruct be as [b|base|b|b]; [destruct (san_Test lv b h) as [x h']|destruct (local_Test cwd fault base d) as [x d']|..]; simpl;
    eexists _, _; split_and!; reflexivity.
Qed.

(** The probe of a new row is the connection test of the request that asked for it. *)
Lemma probe_spec {E} inp rec w w0 : row_of inp rec -> (in_Secret inp = "" -> sb_SecretEnc rec = "") -> validate inp = None ->
  outside w = outside w0 ->
  exists status e seen now w', probeStorageBackend clock open_sealed b64 cwd fault lv cloud provider_endpoint (E := E) rec (in_Secret inp) w =
      (Ok tt, w') /\
    sw_rows w' = UpdateStorageBackendStatus (sb_ID rec) status e seen now (sw_rows w) /\
    outside w' = outside (test (Ok inp) w0).2 /\ sw_rows (test (Ok inp) w0).2 = sw_rows w0 /\
    ((status = "connected" /\ e = "" /\ (test (Ok inp) w0).1 = Ok (200, JObj [("ok", JBool true)])) \/
     (status = "error" /\ exists text, (test (Ok inp) w0).1 = Err (Errorf ErrValidation text) /\
        (text = e \/ text = "storage test failed: " +:+ e))).
Proof.
  intros (H1 & H2 & H3 & H4 & H5 & H6 & H7 & H8 & H9) Hsec Hv Ho. unfold probeStorageBackend, TestStorageBackend.
  assert ((if bool_decide (in_Secret inp = "") && HasSecret rec then default "" (open_sealed (sb_SecretEnc rec)) else in_Secret inp) = in_Secret inp) as ->.
  { unfold HasSecret. case_bool_decide as E1; [|done]. by rewrite (Hsec E1). }
  assert (forall l, mkConfig (sb_Type rec) (sb_Name rec) (sb_Endpoint rec) (sb_Target rec) (sb_Username rec) (in_Secret inp) (sb_ProviderID rec) ""
    l "" "" (sb_Region rec) "" = input_config inp (in_ProviderID inp) l (in_Name inp)) as Hc by (intros l; unfold input_config; congruence).
  cbv zeta. rewrite Hc, H2, H7. fold (toConfig provider_endpoint inp). 
  unfold mbind, SW_bind, decoded, checked. rewrite Hv. simpl.
  destruct (New b64 (toConfig provider_endpoint inp)) as [be|e].
  2: { eexists "error", e, _, _, _. split_and!; [reflexivity|reflexivity|exact Ho|done|]. right. split; [done|]. exists e. auto. }
  destruct (test_frame (E := E) (F := APIError) be w w0 Ho) as (o & out & E1 & E2 & O1 & O2 & R1 & R2).
  rewrite E1, E2. destruct o as [e|].
  - eexists "error", e, _, _, _. split_and!; [reflexivity|simpl; by rewrite R1|exact (eq_trans O1 (eq_sym O2))|exact R2|]. right. split; [done|].
    eexists. split; [reflexivity|by right].
  - eexists "connected", "", _, _, _. split_and!; [reflexivity|simpl; by rewrite R1|exact (eq_trans O1 (eq_sym O2))|exact R2|]. by left.
Qed.

(** C22 Creating a storage backend records what was asked and what its connection test
    says.  A request that does not validate changes nothing.  Nor does one whose new id
    is taken, or whose type, endpoint and target are those of a row, unless the endpoint
    or the target is empty: it is answered as an internal error, 500.  Otherwise one
    row is added and the reply, 201, shows it: the fields of the
    request, its secret sealed, or none if none was given, a disabled backend pending
    and left alone, and an enabled one connected exactly when the test of the same
    request in the same state answers ok, with the error of that test otherwise; the
    probe leaves outside what that test leaves, and a test never changes the table.
    Nothing the reply or a listing shows depends on a sealed value, only on whether
    there is one. *)
Theorem storage_backend_create inp w : let '(x, w') := create (Ok inp) w in
  match validate inp with
  | Some e => x = Err e /\ w' = w
  | None =>
      let id := new_uuid (sw_rand w) in
      let taken := is_Some (sw_rows w !! id) \/
        exists k b, sw_rows w !! k = Some b /\ sb_Type b = in_Type inp /\ in_Endpoint inp <> "" /\
          sb_Endpoint b = in_Endpoint inp /\ in_Target inp <> "" /\ sb_Target b = in_Target inp in
      (taken -> x = Err ErrInternal /\ e_Status ErrInternal = 500 /\ sw_rows w' = sw_rows w /\ outside w' = outside w) /\
      (~ taken -> exists row, x = Ok (201, toStorageBackendView row) /\ sw_rows w' = <[id := row]> (sw_rows w) /\
        sb_ID row = id /\ row_of inp row /\
        (if bool_decide (in_Secret inp = "") then sb_SecretEnc row = "" else exists nonce, sb_SecretEnc row = seal nonce (in_Secret inp)) /\
        sw_rows (test (Ok inp) w).2 = sw_rows w /\
        if in_Enabled inp then
          outside w' = outside (test (Ok inp) w).2 /\
          match (test (Ok inp) w).1 with
          | Ok _ => sb_Status row = "connected" /\ sb_LastError row = ""
          | Err e => sb_Status row = "error" /\ (e_Message e = sb_LastError row \/ e_Message e = "storage test failed: " +:+ sb_LastError row)
          end
        else sb_Status row = "pending" /\ outside w' = outside w)
  end /\
  forall row enc, (enc = "" <-> sb_SecretEnc row = "") ->
    toStorageBackendView (mkBackend (sb_ID row) (sb_Name row) (sb_Type row) (sb_Endpoint row) (sb_Target row) (sb_Username row) enc
      (sb_Region row) (sb_ProviderID row) (sb_Options row) (sb_Enabled row) (sb_Status row) (sb_LastError row) (sb_LastSeenAt row)
      (sb_CreatedAt row) (sb_UpdatedAt row)) = toStorageBackendView row.
Proof.
  destruct (create (Ok inp) w) as [x w'] eqn:Ec. split.
  2: { intros row enc He. unfold toStorageBackendView, HasSecret. simpl. by rewrite (bool_decide_ext _ _ He). }
  unfold CreateStorageBackendHandler, mbind, SW_bind, decoded, checked in Ec. simpl in Ec.
  destruct (validate inp) as [e|] eqn:Hv; [simpl in Ec; by injection Ec as <- <-|]. simpl in Ec.
  set (id := new_uuid (sw_rand w)) in *.
  assert (exists enc n, (if bool_decide (in_Secret inp = "") then enc = "" else exists nonce, enc = seal nonce (in_Secret inp)) /\
    (let w1 := mkSW (sw_rows w) (sw_disk w) (sw_calls w) (S (sw_ticks w)) n (sw_http w) in
     let now := unix (clock (sw_ticks w)) in
     let rec := mkBackend id (in_Name inp) (in_Type inp) (in_Endpoint inp) (in_Target inp) (in_Username inp) enc (in_Region inp)
       (in_ProviderID inp) (in_Options inp) (in_Enabled inp) "pending" "" 0 0 0 in
     match CreateStorageBackend rec now (sw_rows w) with
     | Err _ => (Err ErrInternal, w1)
     | Ok t =>
         if in_Enabled inp then
           match probeStorageBackend clock open_sealed b64 cwd fault lv cloud provider_endpoint (E := APIError) (backend_row rec now) (in_Secret inp) (with_rows t w1) with
           | (Ok _, w2) => (Ok (201, toStorageBackendView (match GetStorageBackend id (sw_rows w2) with Ok r => r | Err _ => backend_row rec now end)), w2)
           | (Err e, w2) => (Err e, w2)
           end
         else (Ok (201, toStorageBackendView (backend_row rec now)), with_rows t w1)
     end) = (x, w')) as (enc & n & Henc & Hrun).
  { destruct (bool_decide (in_Secret inp = "")).
    - exists "", (S (sw_rand w)). split; [done|]. rewrite <- Ec. clear Ec. unfold statement, read_now, mret, SW_ret. simpl.
      destruct (CreateStorageBackend _ _ _); [|done]. simpl. destruct (in_Enabled inp); [|done].
      by destruct (probeStorageBackend _ _ _ _ _ _ _ _ _ _ _) as [[]].
    - exists (seal (random (S (sw_rand w))) (in_Secret inp)), (S (S (sw_rand w))). split; [by eexists|]. rewrite <- Ec. clear Ec.
      unfold statement, read_now, mret, SW_ret. simpl.
      destruct (CreateStorageBackend _ _ _); [|done]. simpl. destruct (in_Enabled inp); [|done].
      by destruct (probeStorageBackend _ _ _ _ _ _ _ _ _ _ _) as [[]]. }
  clear Ec. cbv zeta in Hrun. unfold CreateStorageBackend in Hrun. cbn [sb_ID] in Hrun.
  cbv zeta; fold id. set (b := mkBackend id _ _ _ _ _ _ _ _ _ _ _ _ _ _ _) in Hrun.
  assert (bool_decide (is_Some (sw_rows w !! id)) || existsb (same_place b) (map_to_list (sw_rows w)).*2 = true <->
    is_Some (sw_rows w !! id) \/
    exists k b, sw_rows w !! k = Some b /\ sb_Type b = in_Type inp /\ in_Endpoint inp <> "" /\
      sb_Endpoint b = in_Endpoint inp /\ in_Target inp <> "" /\ sb_Target b = in_Target inp) as Htaken.
  { rewrite orb_true_iff, bool_decide_eq_true. f_equiv. apply same_place_spec. }
  rewrite <- Htaken. clear Htaken.
  destruct (bool_decide (is_Some (sw_rows w !! id)) || _); (split; [intros Ht; try done|intros Hnt; try done]);
    [injection Hrun as <- <-; by split_and!|]. clear Hnt. subst b.
  set (rec := backend_row _ _) in *. set (w1 := with_rows _ _) in *.
  assert (sw_rows (test (Ok inp) w).2 = sw_rows w) as Htest.
  { destruct (probe_spec (E := APIError) inp rec w1 w) as (? & ? & ? & ? & ? & _ & _ & _ & H & _); [by split_and!| |done|done|done].
    intros E1. rewrite bool_decide_eq_true_2 in Henc by done. done. }
  destruct (in_Enabled inp) eqn:En.
  - destruct (probe_spec (E := APIError) inp rec w1 w) as (status & e & seen & now & w2 & Ep & Hr & Ho & _ & Hcase); [by split_and!| |done|done|].
    { intros E1. rewrite bool_decide_eq_true_2 in Henc by done. done. }
    rewrite Ep in Hrun. change (sb_ID rec) with id in Hr. unfold UpdateStorageBackendStatus in Hr.
    assert (sw_rows w1 = <[id := rec]> (sw_rows w)) as Hw1 by done. rewrite Hw1 in Hr.
    pose proof (eq_trans Hr (alter_insert_eq (M := gmap string) (sw_rows w) id (set_status status e seen now) rec)) as Hr2. clear Hr. rename Hr2 into Hr.
    assert (GetStorageBackend id (sw_rows w2) = Ok (set_status status e seen now rec)) as Hget.
    { unfold GetStorageBackend. rewrite Hr. by rewrite (lookup_insert_eq (M := gmap string) (sw_rows w) id). }
    rewrite Hget in Hrun. injection Hrun as <- <-.
    eexists. split_and!; [reflexivity|exact Hr|done|by split_and!|exact Henc|exact Htest|exact Ho|].
    destruct Hcase as [(-> & -> & ->)|(-> & text & -> & Ht)]; [done|]. split; [done|]. exact Ht.
  - injection Hrun as <- <-. exists rec. split_and!; [done|done|done|by split_and!|exact Henc|exact Htest|done|done].
Qed.
End Facts.

(** ** A small server *)

Definition demo_create inp w :=
  CreateStorageBackendHandler (fun n => unix_epoch * Second + Z.of_nat n) (fun n => "nonce" +:+ itoa (Z.of_nat n))
    (fun n => "id-" +:+ itoa (Z.of_nat n)) (fun nonce s => nonce +:+ ":" +:+ s) (fun _ => None) (fun s => Ok s) ["srv"] (fun _ => None)
    (fun _ c => match c with LCreate _ => Err (mkLvErr "x" (Some "mount failed")) | _ => Ok "pool" end) (fun _ _ => None) (fun _ => None) (Ok inp) w.
Definition demo_sw : sworld := mkSW ∅ (mkDisk {[ ["srv"] := Dir ]} 0) [] 0 0 0.
Definition demo_smb : storageBackendInput := mkInput "nas" "smb" "files" "isos" "bob" "hunter2" "" "" "" true.

Lemma storage_backend_create_witness :
  exists row, (demo_create demo_smb demo_sw).1 = Ok (201, toStorageBackendView row) /\ sb_Status row = "error" /\
    sb_SecretEnc row = "nonce1:hunter2".
Proof.
  pose proof (storage_backend_create (fun n => unix_epoch * Second + Z.of_nat n) (fun n => "nonce" +:+ itoa (Z.of_nat n))
    (fun n => "id-" +:+ itoa (Z.of_nat n)) (fun nonce s => nonce +:+ ":" +:+ s) (fun _ => None) (fun s => Ok s) ["srv"] (fun _ => None)
    (fun _ c => match c with LCreate _ => Err (mkLvErr "x" (Some "mount failed")) | _ => Ok "pool" end) (fun _ _ => None) (fun _ => None)
    demo_smb demo_sw) as H.
  fold (demo_create demo_smb demo_sw) in H. destruct (demo_create demo_smb demo_sw) as [x w'] eqn:E. destruct H as [H Hview].
  assert (validate demo_smb = None) as Hv by (vm_compute; reflexivity). rewrite Hv in H. cbv zeta in H.
  destruct H as [_ H]. destruct H as (row & Hx & Hrows & _).
  { intros [[? Hx]|(k & b & Hx & _)]; [vm_compute in Hx; discriminate|].
    pose proof (lookup_empty (M := gmap string) (A := StorageBackend) k) as He. change (sw_rows demo_sw !! k = None) in He. by rewrite He in Hx. } exists row. split; [exact Hx|].
  assert (sw_rows w' !! "id-0" = Some row) as Hg by (rewrite Hrows; apply (lookup_insert_eq (M := gmap string))).
  apply (f_equal snd) in E. simpl in E. rewrite <- E in Hg. vm_compute in Hg. injection Hg as <-. split; reflexivity.
Defined.

(** An unknown backend is an internal error to the client. *)
Example delete_unknown_backend : (DeleteStorageBackendHandler "nope" demo_sw).1 = Err ErrInternal.
Proof. reflexivity. Qed.
(** A type that the message leaves out is accepted. *)
Example local_type_unannounced :
  validate (mkInput "b" "local" "" "/backups" "" "" "" "" "" false) = None /\
  validate (mkInput "b" "tape" "" "/backups" "" "" "" "" "" false) =
    Some (Errorf ErrValidation "type must be one of nfs|iscsi|smb|azureblob|s3").
Proof. by vm_compute. Qed.
(** The table refuses the second of two equal shares, but not of two equal directories
    of the server or buckets of the default endpoint: their endpoint is NULL. *)
Example same_backend_twice :
  let twice inp := (demo_create inp (demo_create inp demo_sw).2).1 in
  twice demo_smb = Err ErrInternal /\
  is_ok (twice (mkInput "b" "local" "" "/backups" "" "" "" "" "" false)) = true.
Proof. by vm_compute. Qed.
